(* ===== verification/_CoqProject ===== *)
-Q . S2P
Prelude.v
Float64.v
GoStrings.v
GoFmt.v
Models.v
Columns.v
ConcurrentMap.v
GoCache.v
Caches.v
MarketCaches.v
BatchWriter.v
WriterSteps.v
WriterStop.v
Messages.v
OrderProcessor.v
OrderRuns.v
OrderSignals.v
OrderHistory.v
WsPool.v
Dispatcher.v
SubscriptionManager.v
SdkTypes.v
SymbolLoader.v
PositionManager.v
AddressLoader.v
NetworkPool.v
Service.v
FillsToSignal.v
Dao.v
GenFields.v
GenQueries.v
Cleaner.v
Persistence.v
StoreRuns.v
Shutdown.v
WsClient.v
Config.v
Logger.v
Connect.v
WaitGroup.v
Monitor.v
SdkSocket.v
SdkPumps.v
GoMath.v
GoDecimal.v
SdkNonce.v
SdkWire.v
SdkOptions.v
SdkClient.v
SymbolManager.v
EasyJson.v
TypesCodecs.v
WsCodecs.v
SdkDecoders.v
SdkResponse.v
SdkInfo.v
SdkSigning.v
SdkActions.v
SdkExchange.v
SdkOrders.v
SdkAccount.v
