(* ===== verification/Prelude.v ===== *)
(** * utrading-hl-monitor: a verification library

    The service watches trading addresses on the Hyperliquid exchange.  It
    subscribes every address over a pool of websocket connections, joins the
    fills of an order (per direction) into one aggregation, and publishes one
    signal per finished order; account snapshots become balances that the
    signals' rates are computed from.  Orders and snapshots are written to a
    database in batches.

    ** How the parts interact

<<
  address/loader ---> SubscriptionManager --+            +--> PositionManager
   (database)            |    ^             |            |         |
                         |    | callbacks   v            |         v
                         |    +------- ws.PoolManager ---+   PositionBalanceCache
                         v            (dispatcher)                 |
                    MessageQueue ---> OrderProcessor <-------------+
                                        |    |    \--> NATS (argument)
                   OrderDeduper <-------+    v
                   statusTracker <------  BatchWriter --> internal/dao --> MySQL
                         ^                                    ^        (argument)
                         +---- recovery at a restart ---------+--- Cleaner
>>

    pkg/go-hyperliquid, the exchange's client library kept in the repository,
    stands beside the service, which takes its types and its metadata calls:

<<
  Info (REST queries, asset tables) <--- Exchange ---> nonces, wire numbers
        |                                    |
        +--> Client.post <-------------------+--> signing (msgpack preimage)
                |                                 actions (two encodings)
        generated JSON codecs
>>

    ** The files

    - Prelude: outcomes (a value or a Go panic), errors, the order of map
      iteration (class [MapRange]: some permutation of the entries, any), heap
      locations, lists grouped by key, tactics and hints.
    - Float64, GoStrings, GoFmt: the parts of Go's language and standard
      library the program computes with (float64 arithmetic on the SpecFloat
      specification, [strings], [fmt], [encoding/json]).
    - Models: the exchange messages, the rows and the signal, and [Cast], the
      class of the third-party number parsers, with an executable instance.
    - Columns: the table names and JSON columns of internal/models, over the
      class [JsonSlice].
    - ConcurrentMap: pkg/concurrent/map.go, atomic and access by access.
    - GoCache: the class of the third-party expiring cache, with an instance.
    - Caches: internal/cache/dedup_cache.go, interface.go and
      internal/manager/deduper.go, behind the class [DedupCacheInterface].
    - MarketCaches: the symbol, price, position-balance and pair-category
      caches of internal/cache.
    - BatchWriter, WriterSteps, WriterStop: internal/processor/batch_writer.go;
      its operations with a flush as one step, as the runs of the other files
      use them; its goroutines with the steps of each flush interleaved; what
      these promise, and how they come to their end.
    - Messages: message.go, status_tracker.go, position_processor.go and
      message_queue.go of internal/processor; the queue knows its processor by
      the class [MessageHandler], which the processors implement.
    - OrderProcessor, OrderRuns, OrderSignals, OrderHistory:
      order_processor.go; its definitions, the invariant of its runs, what it
      computes, and the abstract machine (orders open with their fills, orders
      done) that its runs implement.
    - WsPool: internal/ws, behind the class [SubscriptionPool] for the two
      managers.
    - Dispatcher: internal/ws/dispatcher.go, the callbacks of a message in the
      goroutine pool (class [AntsPool]) and in the reader.
    - WsClient: internal/ws/client.go, the goroutines and the shared fields of
      one connection, step by step; WsPool's wrapper is its abstraction.
    - SubscriptionManager and PositionManager: internal/manager.
    - SymbolLoader, SymbolManager: internal/symbol and the coin aliases.
    - AddressLoader: internal/address/loader.go.
    - NetworkPool, Service: cmd/hl_monitor/main.go: both managers on one pool
      whose network answers by a script, with the objects they share, and the
      steps of every goroutine of the service.
    - FillsToSignal: the path of an order from a batch of fills to its signal.
    - Dao: internal/dao over the class [Table], a database table, with an
      executable instance.
    - GenFields, GenQueries: internal/dal/gen, the generated query structs (one
      class, [Generated], with six instances), over gorm and gorm.io/gen as the
      classes [Gorm] and [Statements]; and the statements of internal/dao as
      the builder expressions the code writes with them.
    - Cleaner: internal/cleaner/cleaner.go.
    - Persistence, StoreRuns: the order and position processors, the batch
      writer and the tables in one run: what is queued or buffered reads before
      what is stored, as in a store buffer.
    - Shutdown: the closing of the managers, the signal handler of main.go with
      pkg/sigproc, and the ways the process ends.
    - Config, Connect, Logger: config/config.go, internal/dal/db.go and
      pkg/logger.
    - Monitor: internal/monitor (metrics, health server) and
      internal/nats/publisher.go.
    - WaitGroup: pkg/goplus.
    - SdkTypes, SdkSocket: types.go and name_alias.go, and the websocket
      client, of pkg/go-hyperliquid; the files below are that package's too.
    - GoMath, GoDecimal: the parts of [math] and the decimal strings that
      SdkWire (utils.go), the wire forms of prices and sizes, computes with.
    - SdkPumps: the goroutines of that client (readPump, pingPump), step by
      step, on SdkSocket's calls.
    - SdkNonce: [Exchange.nextNonce], access by access and run alone.
    - SdkOptions: opt.go, on the fields options touch.
    - SdkClient: JSON values, the monad of methods that send requests
      ([session] holds the exchange's counter, its expiry and the requests
      sent), errors.go and [Client.post].
    - EasyJson: what all generated JSON code has in common, as codecs and
      fields with their round trip and independence of the order of keys.
      TypesCodecs, WsCodecs: the generated functions of types.go, errors.go,
      ws_types.go and ws_types_remote.go, one [dec_X] and [enc_X] per struct.
      SdkActions: the same for actions.go, with the msgpack encodings [pack_X].
    - SdkDecoders, SdkResponse: [json.Unmarshal] into the response types, and
      api.go.
    - SdkInfo: info.go, the asset tables of [NewInfo] and the queries.
    - SdkSigning: signing.go.
    - SdkExchange, SdkOrders, SdkAccount: exchange.go; exchange_orders.go and
      exchange_orders_cancel.go; exchange_others.go.

    A struct is a record of the same name, a method [T.m] the definition [m]
    or [T_m] where the name would be ambiguous.  Handlers take the clock
    reading, and give the new state with what they send.  Objects shared
    behind pointers (pending orders, connections) live in a heap indexed by
    locations, so that aliasing is the code's.  Integers are [Z]: the code's
    64-bit counters, millisecond times and identifiers stay far below
    overflow, except where a file says otherwise.  Goroutines are sequences of
    steps of a run; where a theorem is about an interleaving inside a method,
    the method is split at its accesses (the map's counter, the flushes of the
    batch writer in WriterSteps, flushes of an order).

    ** What the theorems show

    - The service (Service, FillsToSignal): from the start, whatever the
      network, the exchange and the database answer and however the goroutines
      take turns, the service does not panic as long as snapshots are
      complete, its managers keep sharing their objects, and it publishes
      signals of watched addresses only, each at most once per window; a batch
      of fills and a terminal status become one signal.
    - Signals (OrderRuns, OrderSignals, OrderHistory): in every run the
      invariant of pending orders holds, no handler panics, and an order
      direction is published at most once per deduplication window; each signal
      has the size, the price and the time of all the fills handled before its
      flush, and a direction not published is pending with all of its own; the
      rendezvous of fills with terminal statuses; the flush requests of
      statuses and of the timeout scan; the signal's fields and the bounds of
      its rates.
    - Feeding (SubscriptionManager, Messages): which messages a batch of fills
      sends, in which order per order direction; the split of reversed
      orders; isolation of order updates by address; the queue loses and
      duplicates nothing, and is first-in first-out while it is not full.
    - Connections (WsPool, Dispatcher, AddressLoader): the pool invariant and
      the outcome of [Subscribe]; a repair leaves every subscription on a live
      connection; the bounds of the reconnect backoff; which callbacks a
      message reaches, and that each runs once, in whatever order they end;
      an address is unsubscribed only after a whole grace period of answers
      without it.
    - Data (PositionManager, SymbolLoader, MarketCaches, Caches, WriterSteps,
      WriterStop, ConcurrentMap): the balances and positions a snapshot stores;
      the symbol caches as functions of the metadata; recovery of the dedup
      cache; the batch writer hands the last version of every row to the
      database, unless the row is stored again while a flush is writing it
      ([concurrent_update_lost]), keeps its bounds, and its Stop returns; the
      map's counter.
    - One connection (WsClient): whatever the interleaving of its goroutines,
      callers and network, a client comes to rest; at rest it either listens,
      with every message handed over, or is closed and has told the pool so
      once; messages come in order and are never overwritten though their
      structs are pooled; what the pool assumes of a client holds.
    - The database (StoreRuns, Shutdown, Cleaner): an orderly end leaves every
      published order, every pending one and every last snapshot in the tables;
      a new life of the service sees what the former one published, whenever
      the cleaner ran; a cleaning keeps the newest signals within its limits.
      [early_return_loses] and [late_task_not_stored] are the ends that lose.
    - The statements (GenFields, GenQueries): Dao's conditions and upserts are
      those of the code, column by column; the fields of a generated struct
      follow its table through renamings; a transaction's query runs on the
      transaction; what a page counts.
    - Around the service (Config, Connect, Logger, Monitor, WaitGroup,
      SymbolManager):
      a configuration is always a whole decoded file and follows the file of an
      undisturbed reload; the settings of the database pools; the metrics
      register and take their labels; when /ready answers; goroutines are
      counted; a reload forgets no symbol; which file a log line goes to.
    - The library's websocket client (SdkSocket): one remote subscription per
      key with open subscriptions, delivery to exactly their callbacks,
      restoration on a new connection; its goroutines (SdkPumps): one reader
      per connection, and where they come to rest, a call of Close that blocks
      on the client's own lock included ([close_blocks_ping],
      [close_races_reader]).  [failed_ping_abandons] is the way it stays without
      any.
    - Signed requests (SdkNonce, SdkSigning, SdkActions, SdkExchange,
      SdkOrders, SdkAccount): nonces are unique under every interleaving and
      the loop is lock-free; the hashed bytes determine action, vault, nonce
      and expiry; the posted JSON has the signed fields; a sequence of methods
      posts increasing nonces; what an order and a cancel send and when they
      succeed.
    - Numbers and texts (SdkWire, WsCodecs, SdkInfo): the rounding loops end;
      the wire form of a price reads back to it; fills survive their JSON and
      do not depend on the order of its keys; which asset number a name has.
    - Where the code does not do what it means to, a theorem states what it
      does: [first_fill_counted_twice], [unsubscribe_drops_every_callback],
      [Subscribe_leaks_connection], [UnsubscribeAddress_forgets_all],
      [concurrent_flushes_publish_twice], [Close_deadlocks],
      [reconnect_abandons_subscriptions] and others.

    ** Bounds and fuel

    Loops run over the lists and maps they range over, and the two reconnect
    loops, which are unbounded in the code, run over the list of the network's
    answers to their attempts.  A run of goroutines is a list of events of any
    length; [client_comes_to_rest] bounds the steps a client takes by itself.
    The two loops of [roundToSignificantFigures] run on fuel,
    [significant_fuel] = 400; [roundToSignificantFigures_total] shows that
    358 turns of the one that scales and 19 of the one that counts digits are
    enough for every float64.

    ** Not modelled

    MySQL and gorm (a [Table] stores what it is given: the rounding of decimal
    and datetime columns is left out, and AddDate is taken in UTC), NATS,
    sockets, HTTP, the JSON text parsers, msgpack, cryptography, timers and
    random jitter are arguments or left out, and so is the goroutine pool of
    the order processor (its tasks are events of a run); so are the HTTP
    server, the TOML decoder and the Prometheus registry behind Config and
    Monitor, the log lines themselves (they have no effect on what the theorems
    are about), the command-line flags, and the generated methods of
    internal/dal/gen that only call gorm.io/gen's.  In a run of Service
    the flushes of orders are single steps; their interleavings are in
    OrderProcessor.  In the runs with the database (Persistence, StoreRuns,
    Shutdown) so are the flushes of the batch writer: what they say of the
    tables is of runs in which nothing is stored in the buffers during a
    flush, and WriterStop says what the others keep and lose.  float64 is the uncontracted evaluation (amd64);
    strings are ASCII where case or escaping matters and valid UTF-8 where they
    go through JSON text (easyjson's writer replaces other bytes); a nil slice is
    the empty one, written as an empty array. *)

From Stdlib Require Import ZArith Lia Ascii.
From stdpp Require Import base decidable gmap strings list pretty fin_maps sorting.

(** ** Go values *)

(** The result of Go code that may panic at run time (a nil dereference, an
    index out of range). *)
Inductive outcome (A : Type) : Type :=
| Ret (a : A)
| Panic.
Arguments Ret {A} a.
Arguments Panic {A}.

#[export] Instance outcome_ret : MRet outcome := fun A a => Ret a.
#[export] Instance outcome_bind : MBind outcome := fun A B f x =>
  match x with Ret a => f a | Panic => Panic end.

(** The code returns, with a result that satisfies [P]. *)
Definition returns {A} (x : outcome A) (P : A -> Prop) : Prop :=
  exists a, x = Ret a /\ P a.

Lemma returns_ret {A} (a : A) (P : A -> Prop) : P a -> returns (Ret a) P.
Proof. intros Ha. by exists a. Qed.

Lemma returns_bind {A B} (x : outcome A) (f : A -> outcome B) (P : A -> Prop) (Q : B -> Prop) :
  returns x P -> (forall a, P a -> returns (f a) Q) -> returns (x ≫= f) Q.
Proof. intros (a & -> & Ha) Hf. by apply Hf. Qed.

Lemma returns_mono {A} (x : outcome A) (P Q : A -> Prop) :
  returns x P -> (forall a, P a -> Q a) -> returns x Q.
Proof. intros (a & -> & Ha) Hpq. exists a. by split; [|apply Hpq]. Qed.

(** A loop whose body, from a state that satisfies [P], returns one. *)
Lemma returns_fold_left {A B} (P : A -> Prop) (f : outcome A -> B -> outcome A) (l : list B) :
  (forall a b, b ∈ l -> P a -> returns (f (Ret a) b) P) ->
  forall a, P a -> returns (fold_left f l (Ret a)) P.
Proof.
  induction l as [|b l IH]; intros Hf a Ha; simpl; [by apply returns_ret|].
  destruct (Hf a b) as (a' & -> & Ha'); [by left|done|].
  apply IH; [|done]. intros a0 b' Hb'. apply Hf. by right.
Qed.

(** A Go [error] value: [None] is [nil], [Some msg] an error with its text. *)
Abbreviation error := (option string).
Abbreviation nil_error := (@None string).

(** A pointer into a modelled heap. *)
Abbreviation loc := positive (only parsing).

(** [time.Duration] and instants are nanoseconds; these are Go's constants. *)
Definition Nanosecond : Z := 1.
Definition Millisecond : Z := 1000000.
Definition Second : Z := 1000000000.
Definition Minute : Z := 60 * Second.
Definition Hour : Z := 60 * Minute.

(** [Time.Unix] and [Time.UnixMilli] of an instant given in nanoseconds since
    the epoch (the instants a clock returns are not negative). *)
Definition Unix (t : Z) : Z := t / Second.
Definition UnixMilli (t : Z) : Z := t / Millisecond.

(** Two's-complement reading of an integer on [w] bits, as Go's conversions
    and its wrapping arithmetic do. *)
Definition wrap_signed (w : Z) (z : Z) : Z :=
  (z + 2 ^ (w - 1)) mod 2 ^ w - 2 ^ (w - 1).
Definition int64 (z : Z) : Z := wrap_signed 64 z.
Definition int64_max : Z := 2 ^ 63 - 1.
Definition int64_min : Z := - 2 ^ 63.
Definition in_int64 (z : Z) : Prop := (int64_min <= z <= int64_max)%Z.

Lemma int64_id z : in_int64 z -> int64 z = z.
Proof.
  unfold in_int64, int64, wrap_signed, int64_min, int64_max. intros ?.
  rewrite Z.mod_small; lia.
Qed.

Lemma int64_range z : in_int64 (int64 z).
Proof.
  unfold in_int64, int64, wrap_signed, int64_min, int64_max.
  pose proof (Z.mod_pos_bound (z + 2 ^ (64 - 1)) (2 ^ 64) ltac:(lia)). lia.
Qed.

(** ** Map iteration

    Go iterates a map (and a [sync.Map]) in an unspecified order, so every
    definition that ranges over a map takes the order from this interface: a
    listing of the entries, each once, in some order.  Theorems are proved
    for every instance. *)
Class MapRange := {
  go_range : forall {K V : Type} `{Countable K}, gmap K V -> list (K * V);
  go_range_perm : forall (K V : Type) `{Countable K} (m : gmap K V),
    go_range m ≡ₚ map_to_list m;
}.

Lemma elem_of_go_range `{MapRange} `{Countable K} {V} (m : gmap K V) k v :
  (k, v) ∈ go_range m <-> m !! k = Some v.
Proof. by rewrite go_range_perm, elem_of_map_to_list. Qed.

Lemma NoDup_fst_go_range `{MapRange} `{Countable K} {V} (m : gmap K V) :
  NoDup (go_range m).*1.
Proof. rewrite go_range_perm. apply NoDup_fst_map_to_list. Qed.

Lemma length_go_range `{MapRange} `{Countable K} {V} (m : gmap K V) :
  length (go_range m) = size m.
Proof. by rewrite go_range_perm, length_map_to_list. Qed.

(** The order in which stdpp lists a map: the instance the witnesses run on. *)
Definition listing_order : MapRange := {|
  go_range := fun K V _ _ m => map_to_list m;
  go_range_perm := fun K V _ _ m => Permutation_refl _;
|}.

(** Another order, to check that statements do not depend on the first. *)
Definition reverse_order : MapRange.
Proof.
  refine {| go_range := fun K V _ _ m => rev (map_to_list m) |}.
  intros. symmetry. apply Permutation_rev.
Defined.

(** ** Lists and options *)

Lemma fold_left_app_snoc {A B} (f : A -> B -> A) a l x :
  fold_left f (l ++ [x]) a = f (fold_left f l a) x.
Proof. by rewrite fold_left_app. Qed.

Lemma fold_left_inv {A B} (P : A -> Prop) (f : A -> B -> A) l a :
  P a -> (forall a b, b ∈ l -> P a -> P (f a b)) -> P (fold_left f l a).
Proof.
  revert a. induction l as [|b l IH]; simpl; [done|].
  intros a Ha Hf. apply IH; [apply Hf; set_solver|].
  intros a' b' Hb. apply Hf. set_solver.
Qed.

Lemma Permutation_concat {A} (l1 l2 : list (list A)) :
  l1 ≡ₚ l2 -> concat l1 ≡ₚ concat l2.
Proof.
  induction 1 as [|x l1 l2 _ IH|x y l|l1 l2 l3 _ IH1 _ IH2]; simpl; [done|..].
  - by rewrite IH.
  - rewrite !app_assoc. apply Permutation_app_tail, Permutation_app_comm.
  - by rewrite IH1.
Qed.

Lemma filter_all {A} (P : A -> Prop) `{!forall x, Decision (P x)} (l : list A) :
  Forall P l -> filter P l = l.
Proof.
  induction 1 as [|x l Hx _ IH]; [done|]. by rewrite filter_cons_True, IH.
Qed.

Lemma filter_none {A} (P : A -> Prop) `{!forall x, Decision (P x)} (l : list A) :
  Forall (fun x => ~ P x) l -> filter P l = [].
Proof. induction 1 as [|x l Hx _ IH]; [done|]. by rewrite filter_cons_False. Qed.

Lemma Forall_filter_keeps {A} (Q P : A -> Prop) `{!forall x, Decision (P x)} (l : list A) :
  Forall Q l -> Forall Q (filter P l).
Proof.
  rewrite !Forall_forall. intros HQ x [_ Hx]%list_elem_of_filter. by apply HQ.
Qed.

Lemma omap_none {A B} (f : A -> option B) (l : list A) :
  (forall x, x ∈ l -> f x = None) -> omap f l = [].
Proof.
  induction l as [|x l IH]; intros Hn; [done|]. csimpl. rewrite (Hn x) by by left.
  apply IH. intros x' Hx'. apply Hn. by right.
Qed.

(** A list with exactly one element that [f] keeps. *)
Lemma omap_one `{EqDecision A} {B} (f : A -> option B) (l : list A) x y :
  NoDup l -> x ∈ l -> f x = Some y -> (forall x', x' ∈ l -> x' <> x -> f x' = None) ->
  omap f l = [y].
Proof.
  induction l as [|z l IH]; intros Hnd Hx Hf Hn; [by apply not_elem_of_nil in Hx|].
  apply NoDup_cons in Hnd as [Hz Hnd]. csimpl. destruct (decide (z = x)) as [->|Hne].
  - rewrite Hf. f_equal. apply omap_none. intros x' Hx'. apply Hn; [by right|congruence].
  - rewrite (Hn z) by (done || by left). apply IH; [done|set_solver|done|].
    intros x' Hx'. apply Hn. by right.
Qed.

(** The first of two optional values that is there. *)
Definition or_else {A} (x y : option A) : option A :=
  match x with Some a => Some a | None => y end.

(** What an update at an index does to a sum, and to the values of an option. *)
Lemma sum_list_with_insert {A} (f : A -> nat) l i x y :
  l !! i = Some x ->
  (sum_list_with f (<[i := y]> l) + f x = sum_list_with f l + f y)%nat.
Proof.
  revert i. induction l as [|a l IH]; intros [|i] Hi; simplify_eq/=; [lia|].
  specialize (IH _ Hi). lia.
Qed.

Lemma omap_insert {A B} (f : A -> option B) (l : list A) : forall i x y,
  l !! i = Some x ->
  option_list (f x) ++ omap f (<[i := y]> l) ≡ₚ option_list (f y) ++ omap f l.
Proof.
  induction l as [|z l IH]; intros [|i] x y; [done..| |].
  - intros [= ->]. cbn. destruct (f x), (f y); cbn; try reflexivity. constructor.
  - intros Hx. specialize (IH i x y Hx). cbn. destruct (f z); [|done].
    by rewrite <- !Permutation_middle, IH.
Qed.

(** ** Grouping

    [m[k] = append(m[k], x)] on a map of slices. *)
Definition group_push `{Countable K} {A} (g : gmap K (list A)) (k : K) (x : A)
    : gmap K (list A) := <[k := default [] (g !! k) ++ [x]]> g.

Section grouping.
Context `{Countable K} {A : Type}.
Implicit Types (g : gmap K (list A)) (k : K) (x : A).

Lemma group_push_lookup g k x k' :
  default [] (group_push g k x !! k') =
  default [] (g !! k') ++ (if decide (k = k') then [x] else []).
Proof.
  unfold group_push. rewrite lookup_insert. case_decide; [by subst|].
  by rewrite app_nil_r.
Qed.

(** Appending to one group appends to the groups' contents. *)
Lemma concat_group_push g k x :
  concat (map_to_list (group_push g k x)).*2 ≡ₚ concat (map_to_list g).*2 ++ [x].
Proof.
  unfold group_push.
  assert (concat (map_to_list g).*2
          ≡ₚ default [] (g !! k) ++ concat (map_to_list (delete k g)).*2) as E.
  { destruct (g !! k) as [l|] eqn:Ek; simpl.
    - rewrite <- (map_to_list_delete g k l) by done. done.
    - by rewrite delete_id. }
  rewrite <- insert_delete_eq, map_to_list_insert by apply lookup_delete_eq.
  simpl. rewrite E. rewrite <- !app_assoc. apply Permutation_app_head, Permutation_app_comm.
Qed.

(** Every group is made of elements of its key, and none is empty. *)
Definition groups_of (f : A -> K) g : Prop :=
  forall k xs, g !! k = Some xs -> xs <> [] /\ Forall (fun x => f x = k) xs.

Lemma groups_of_empty f : groups_of f ∅.
Proof. intros k xs. by rewrite lookup_empty. Qed.

Lemma groups_of_push f g x : groups_of f g -> groups_of f (group_push g (f x) x).
Proof.
  intros Hg k xs. unfold group_push. destruct (decide (f x = k)) as [<-|Hne];
    [|rewrite lookup_insert_ne by done; apply Hg].
  rewrite lookup_insert_eq. intros [= <-]. split; [by destruct (default _ _)|].
  apply Forall_app. split; [|by repeat constructor].
  destruct (g !! f x) as [l|] eqn:E; simpl; [apply (Hg _ _ E)|constructor].
Qed.

Definition group_by (f : A -> K) (l : list A) : gmap K (list A) :=
  fold_left (fun g x => group_push g (f x) x) l ∅.

Lemma group_by_snoc f l x : group_by f (l ++ [x]) = group_push (group_by f l) (f x) x.
Proof. unfold group_by. by rewrite fold_left_app_snoc. Qed.

(** A group lists the elements of its key in their order. *)
Lemma group_by_lookup f l k :
  default [] (group_by f l !! k) = filter (fun x => f x = k) l.
Proof.
  induction l as [|x l IH] using rev_ind; [done|].
  rewrite group_by_snoc, group_push_lookup, IH, filter_app, filter_cons, filter_nil.
  done.
Qed.

Lemma group_by_groups f l : groups_of f (group_by f l).
Proof.
  induction l as [|x l IH] using rev_ind; [apply groups_of_empty|].
  rewrite group_by_snoc. by apply groups_of_push.
Qed.

Lemma group_by_is_Some f l k : is_Some (group_by f l !! k) <-> k ∈ f <$> l.
Proof.
  pose proof (group_by_lookup f l k) as E. pose proof (group_by_groups f l k) as G.
  rewrite list_elem_of_fmap. split.
  - intros [xs Hx]. rewrite Hx in E. simpl in E. destruct (G xs Hx) as [Hne _].
    destruct xs as [|x xs]; [done|]. exists x.
    assert (x ∈ filter (fun x => f x = k) l) as [? ?]%list_elem_of_filter
      by (rewrite <- E; left). by split.
  - intros (x & -> & Hx).
    destruct (group_by f l !! f x) as [xs|]; [by eexists|]. simpl in E.
    assert (x ∈ filter (fun y => f y = f x) l) as Hin by by apply list_elem_of_filter.
    rewrite <- E in Hin. by apply not_elem_of_nil in Hin.
Qed.
End grouping.

(** Of what a range produces, the part that belongs to one key comes from that
    key's entry. *)
Lemma filter_concat_range `{MapRange} `{Countable K} {V A} (P : A -> Prop)
    `{!forall x, Decision (P x)} (F : K * V -> list A) (m : gmap K V) k :
  (forall k' v x, m !! k' = Some v -> x ∈ F (k', v) -> P x -> k' = k) ->
  filter P (concat (map F (go_range m))) =
  match m !! k with Some v => filter P (F (k, v)) | None => [] end.
Proof.
  intros HF.
  assert (forall l, NoDup l.*1 -> (forall k' v, (k', v) ∈ l -> m !! k' = Some v) ->
    filter P (concat (map F l)) =
    match list_find (fun kv => kv.1 = k) l with
    | Some (_, kv) => filter P (F kv) | None => [] end) as Hl.
  { induction l as [|[k' v] l IH]; [done|]. intros [Hk Hnd]%NoDup_cons Hm. simpl.
    rewrite filter_app, IH by (try done; intros; apply Hm; by right). simpl in Hk. destruct (decide (k' = k)) as [->|Hne].
    - assert (list_find (fun kv => kv.1 = k) l = None) as ->; [|by rewrite app_nil_r].
      apply list_find_None, Forall_forall. intros [k'' v'] Hin Ek. simpl in Ek. subst k''.
      apply Hk, list_elem_of_fmap. by exists (k, v').
    - assert (filter P (F (k', v)) = []) as ->.
      { apply elem_of_nil_inv. intros x [Hx Hin]%list_elem_of_filter.
        apply Hne, (HF k' v x); [apply Hm; left|done..]. }
      simpl. by destruct (list_find _ l) as [[? [? ?]]|]. }
  rewrite Hl; [|apply NoDup_fst_go_range|intros k' v; apply elem_of_go_range].
  destruct (list_find _ (go_range m)) as [[i [k' v]]|] eqn:E.
  - apply list_find_Some in E as (Hi & <- & _). simpl.
    apply list_elem_of_lookup_2, elem_of_go_range in Hi. by rewrite Hi.
  - apply list_find_None in E. rewrite Forall_forall in E.
    destruct (m !! k) as [v|] eqn:Ek; [|done]. apply elem_of_go_range in Ek.
    by destruct (E _ Ek).
Qed.

(** ** Reachability by a step relation *)

Lemma rtc_inv {A} (R : A -> A -> Prop) (I : A -> Prop) x y :
  (forall a b, I a -> R a b -> I b) -> I x -> rtc R x y -> I y.
Proof. intros HI Hx Hxy. induction Hxy; eauto. Qed.

(** ** Proof automation *)

Create HintDb hlm discriminated.
#[export] Hint Resolve go_range_perm : hlm.

(** Rewriting lookups and solving with the component hints. *)
Ltac go_map := simplify_map_eq; eauto with hlm.

(** Case analysis on every [match] and [decide] of the goal or hypotheses. *)
Ltac go_cases := repeat (case_match || case_decide); simplify_eq/=.
