(* ===== verification/Float64.v ===== *)
(** * Go's float64

    IEEE 754 binary64 values and the operations the program applies to them,
    as the executable specification [SpecFloat] of the standard library gives
    them (round to nearest even).  Go may contract [x*y + z] into one fused
    operation on some processors; the model is the uncontracted evaluation
    that the amd64 compiler emits. *)

From Stdlib Require Import ZArith Lia.
From Stdlib Require Import Floats.SpecFloat.
From stdpp Require Import base tactics.
From S2P Require Import Prelude.
Local Open Scope Z_scope.

Abbreviation float64 := spec_float.
Definition f64_prec : Z := 53.
Definition f64_emax : Z := 1024.

Definition fadd (x y : float64) : float64 := SFadd f64_prec f64_emax x y.
Definition fsub (x y : float64) : float64 := SFsub f64_prec f64_emax x y.
Definition fmul (x y : float64) : float64 := SFmul f64_prec f64_emax x y.
Definition fdiv (x y : float64) : float64 := SFdiv f64_prec f64_emax x y.
Definition fabs (x : float64) : float64 := SFabs x.
(** Go's [==], [<], [<=] and [>] on floats: false when an operand is a NaN. *)
Definition feqb (x y : float64) : bool := SFeqb x y.
Definition fltb (x y : float64) : bool := SFltb x y.
Definition fleb (x y : float64) : bool := SFleb x y.
Definition fgtb (x y : float64) : bool := SFltb y x.

(** The float64 of an integer constant or conversion. *)
Definition float64_of_Z (z : Z) : float64 :=
  binary_normalize f64_prec f64_emax z 0 false.
Definition f0 : float64 := S754_zero false.
Definition f1 : float64 := float64_of_Z 1.
Definition f100 : float64 := float64_of_Z 100.

(** [math.Max]: an infinity wins over a NaN, and +0 over -0. *)
Definition math_Max (x y : float64) : float64 :=
  match x, y with
  | S754_infinity false, _ | _, S754_infinity false => S754_infinity false
  | S754_nan, _ | _, S754_nan => S754_nan
  | S754_zero sx, S754_zero _ => if sx then y else x
  | _, _ => if fgtb x y then x else y
  end.

(** A value in canonical form: every float64 a Go program can hold. *)
Definition f64_valid (x : float64) : Prop := valid_binary f64_prec f64_emax x = true.
Definition f64_finite (x : float64) : Prop :=
  match x with S754_zero _ | S754_finite _ _ _ => True | _ => False end.

Example f64_two_thirds :
  fdiv (float64_of_Z 2) (float64_of_Z 3) = S754_finite false 6004799503160661 (-53).
Proof. vm_compute. reflexivity. Qed.

Example f64_max : math_Max (float64_of_Z (-3)) f0 = f0.
Proof. vm_compute. reflexivity. Qed.

Lemma f1_eq : f1 = S754_finite false 4503599627370496 (-52).
Proof. vm_compute. reflexivity. Qed.

(** ** A quotient of two ordered positive values is at most 1 *)

Lemma digits2_pos_bounds (m : positive) :
  2 ^ (Zpos (digits2_pos m) - 1) <= Zpos m < 2 ^ Zpos (digits2_pos m).
Proof.
  induction m as [m IH|m IH|]; cbn [digits2_pos]; [| |cbn; lia];
    rewrite Pos2Z.inj_succ; set (d := Zpos (digits2_pos m)) in *;
    assert (0 < d) by (subst d; lia);
    replace (Z.succ d - 1) with (Z.succ (d - 1)) by lia;
    rewrite !Z.pow_succ_r by lia; lia.
Qed.

Lemma Zdigits2_le q n : 0 <= n -> 0 <= q <= 2 ^ n -> Zdigits2 q <= n + 1.
Proof.
  intros Hn [H0 Hq]. destruct q as [|p|p]; simpl; [lia| |lia].
  pose proof (digits2_pos_bounds p) as [Hlo _].
  assert (2 ^ (Zpos (digits2_pos p) - 1) <= 2 ^ n) as Hp by lia.
  apply Z.pow_le_mono_r_iff in Hp; lia.
Qed.

Definition rec_exact (r : shr_record) : Prop := shr_r r = false /\ shr_s r = false.

Lemma shr_1_spec r :
  0 <= shr_m r ->
  shr_m (shr_1 r) = shr_m r / 2 /\
  (rec_exact r -> shr_m r mod 2 = 0 -> rec_exact (shr_1 r)).
Proof.
  destruct r as [m r s]. simpl. intros Hm. unfold rec_exact. simpl.
  destruct m as [|[p|p|]|p]; simpl; try lia.
  - split; [done|]. intros [-> ->]. done.
  - split; [rewrite (Pos2Z.inj_xI p); apply Z.div_unique with 1; lia|].
    intros _ Hmod. exfalso. rewrite Pos2Z.inj_xI in Hmod.
    rewrite Z.add_comm, Z.mul_comm, Z.mod_add in Hmod by lia. done.
  - split; [rewrite (Pos2Z.inj_xO p); apply Z.div_unique with 0; lia|].
    intros [-> ->] _. done.
  - split; [done|]. intros _ Hmod. done.
Qed.

Lemma iter_pos_nat {A} (f : A -> A) n x : iter_pos f n x = Nat.iter (Pos.to_nat n) f x.
Proof.
  revert x. induction n as [n IH|n IH|]; intros x; cbn [iter_pos]; [| |done].
  - rewrite !IH, Pos2Nat.inj_xI, <- Nat.iter_add, <- Nat.iter_succ_r.
    f_equal. lia.
  - rewrite !IH, Pos2Nat.inj_xO, <- Nat.iter_add. f_equal. lia.
Qed.

Lemma shr_iter_spec n r :
  0 <= shr_m r ->
  shr_m (Nat.iter n shr_1 r) = shr_m r / 2 ^ Z.of_nat n /\
  (rec_exact r -> (2 ^ Z.of_nat n | shr_m r) -> rec_exact (Nat.iter n shr_1 r)).
Proof.
  intros Hm. induction n as [|n [IHm IHe]].
  - split; [by rewrite Z.div_1_r|]. done.
  - rewrite Nat2Z.inj_succ, Z.pow_succ_r by lia. rewrite Nat.iter_succ.
    set (r' := Nat.iter n shr_1 r) in *.
    assert (0 <= shr_m r') as Hm' by (rewrite IHm; apply Z.div_pos; lia).
    destruct (shr_1_spec r' Hm') as [E1 E2]. split.
    + rewrite E1, IHm, Z.div_div by lia. f_equal. lia.
    + intros Hex [k Hk]. apply E2.
      * apply IHe; [done|]. exists (k * 2). lia.
      * rewrite IHm, Hk.
        replace (k * (2 * 2 ^ Z.of_nat n)) with ((k * 2) * 2 ^ Z.of_nat n) by lia.
        rewrite Z.div_mul by lia. apply Z.mod_mul. lia.
Qed.

Lemma SFleb_same_exp p k e :
  Zpos p <= Zpos k -> SFleb (S754_finite false p e) (S754_finite false k e) = true.
Proof.
  intros Hk. unfold SFleb. cbn [SFcompare]. rewrite Z.compare_refl.
  pose proof (Pos.compare_spec p k) as Hc.
  unfold Pos.compare in Hc. destruct Hc; [done|done|lia].
Qed.

Lemma SFleb_lower_exp p k e e' :
  e <= e' -> (e = e' -> Zpos p <= Zpos k) ->
  SFleb (S754_finite false p e) (S754_finite false k e') = true.
Proof.
  intros He Hk. destruct (decide (e = e')) as [->|Hne].
  { apply SFleb_same_exp. by apply Hk. }
  unfold SFleb. cbn [SFcompare]. destruct (Z.compare_spec e e'); [lia|done|lia].
Qed.

Lemma pow_52 : 2 ^ 52 = 4503599627370496.
Proof. vm_compute. reflexivity. Qed.

Lemma finite_le_one p e :
  e <= -52 -> Zpos p <= 2 ^ (- e) -> fleb (S754_finite false p e) f1 = true.
Proof.
  intros He Hp. unfold fleb. rewrite f1_eq. apply SFleb_lower_exp; [done|].
  intros Ee. rewrite <- pow_52. replace 52 with (- e) by lia. done.
Qed.

(** One pass of [shr_fexp] over a mantissa that does not exceed 1 keeps it at
    most 1, and exact when it was exactly 1. *)
Section at_most_one.
Abbreviation fexp := (fexp f64_prec f64_emax).
Abbreviation emin := (emin f64_prec f64_emax).

Lemma fexp_le z : z <= 1 -> fexp z <= -52.
Proof. unfold SpecFloat.fexp, SpecFloat.emin, f64_prec, f64_emax. lia. Qed.

Definition below_one (m e : Z) : Prop := e <= -52 /\ 0 <= m <= 2 ^ (- e).

Lemma shr_fexp_below_one m e l :
  below_one m e -> (m = 2 ^ (- e) -> l = loc_Exact) ->
  let '(r, e') := shr_fexp f64_prec f64_emax m e l in
  below_one (shr_m r) e' /\ (shr_m r = 2 ^ (- e') -> rec_exact r).
Proof.
  intros [He Hm] Hex. unfold shr_fexp.
  assert (fexp (Zdigits2 m + e) <= -52) as Hf.
  { apply fexp_le. pose proof (Zdigits2_le m (- e) ltac:(lia) Hm). lia. }
  set (r0 := shr_record_of_loc m l).
  assert (shr_m r0 = m) as Hr0 by (subst r0; by destruct l as [|[]]).
  assert (m = 2 ^ (- e) -> rec_exact r0) as Hex0.
  { intros E. subst r0. by rewrite (Hex E). }
  destruct (fexp (Zdigits2 m + e) - e) as [|n|n] eqn:En; simpl;
    [rewrite Hr0; split; [split; lia|done]| |rewrite Hr0; split; [split; lia|done]].
  rewrite iter_pos_nat.
  destruct (shr_iter_spec (Pos.to_nat n) r0 ltac:(lia)) as [E1 E2].
  rewrite Hr0, positive_nat_Z in *.
  assert (2 ^ (- e) = 2 ^ (- (e + Zpos n)) * 2 ^ Zpos n) as Epow.
  { rewrite <- Z.pow_add_r by lia. f_equal. lia. }
  assert (0 < 2 ^ Zpos n) as Hpos by (apply Z.pow_pos_nonneg; lia).
  assert (m / 2 ^ Zpos n <= 2 ^ (- (e + Zpos n))) as Hle.
  { apply Z.div_le_upper_bound; lia. }
  rewrite E1. split; [split; [lia|split; [apply Z.div_pos; lia|done]]|].
  intros Heq. assert (m = 2 ^ (- e)) as Em.
  { pose proof (Z.mul_div_le m (2 ^ Zpos n) ltac:(lia)). nia. }
  apply E2; [by apply Hex0|]. exists (2 ^ (- (e + Zpos n))). lia.
Qed.

Lemma binary_round_aux_below_one m e l :
  below_one m e -> (m = 2 ^ (- e) -> l = loc_Exact) ->
  let z := binary_round_aux f64_prec f64_emax false m e l in
  fleb f0 z = true /\ fleb z f1 = true /\ f64_finite z.
Proof.
  intros Hb Hex. unfold binary_round_aux.
  pose proof (shr_fexp_below_one m e l Hb Hex) as H1.
  destruct (shr_fexp _ _ m e l) as [r1 e1]. destruct H1 as [[He1 Hm1] Hex1].
  set (M := round_nearest_even (shr_m r1) (loc_of_shr_record r1)).
  assert (below_one M e1) as HM.
  { split; [done|]. subst M.
    destruct (decide (shr_m r1 = 2 ^ (- e1))) as [E|E].
    - destruct (Hex1 E) as [Hr Hs]. destruct r1 as [m1 ? ?]; simpl in *.
      subst. simpl. lia.
    - unfold round_nearest_even. destruct (loc_of_shr_record r1) as [|[]];
        try destruct (Z.even _); lia. }
  pose proof (shr_fexp_below_one M e1 loc_Exact HM ltac:(done)) as H2.
  destruct (shr_fexp _ _ M e1 loc_Exact) as [r2 e2].
  destruct H2 as [[He2 Hm2] _].
  destruct (shr_m r2) as [|p|p]; [by vm_compute| |lia].
  assert ((e2 <=? f64_emax - f64_prec) = true) as ->
    by (apply Z.leb_le; unfold f64_emax, f64_prec; lia).
  split; [done|]. split; [|done]. apply finite_le_one; lia.
Qed.
End at_most_one.

(** Canonical positive values are ordered as their mantissas and exponents. *)
Lemma bounded_le m1 e1 m2 e2 :
  f64_valid (S754_finite false m1 e1) -> f64_valid (S754_finite false m2 e2) ->
  fgtb (S754_finite false m1 e1) (S754_finite false m2 e2) = false ->
  e1 <= e2 /\ Zpos m1 <= Zpos m2 * 2 ^ (e2 - e1).
Proof.
  unfold f64_valid, valid_binary, bounded, canonical_mantissa, fexp, emin, f64_prec, f64_emax.
  rewrite !andb_true_iff, !Z.eqb_eq. intros [C1 _] [C2 _].
  unfold fgtb, SFltb, SFcompare. rewrite (Z.compare_antisym e1 e2).
  pose proof (digits2_pos_bounds m1) as [_ U1].
  pose proof (digits2_pos_bounds m2) as [L2 _].
  set (d1 := Zpos (digits2_pos m1)) in *. set (d2 := Zpos (digits2_pos m2)) in *.
  assert (0 < d1 /\ 0 < d2) as [Hd1 Hd2] by (subst d1 d2; lia).
  destruct (Z.compare_spec e1 e2) as [->|Hlt|Hgt]; simpl; [| |done].
  - rewrite Z.sub_diag. pose proof (Pos.compare_spec m2 m1) as Hc.
    unfold Pos.compare in Hc. destruct Hc as [->|?|?]; simpl; intros ?; try done; lia.
  - intros _. split; [lia|].
    assert (2 ^ d1 <= 2 ^ (d2 - 1) * 2 ^ (e2 - e1)); [|nia].
    rewrite <- Z.pow_add_r by lia. apply Z.pow_le_mono_r; lia.
Qed.

Lemma fdiv_unit_interval x y :
  f64_valid x -> f64_valid y -> f64_finite x -> f64_finite y ->
  fleb f0 x = true -> fgtb y f0 = true -> fgtb x y = false ->
  fleb f0 (fdiv x y) = true /\ fleb (fdiv x y) f1 = true /\ f64_finite (fdiv x y).
Proof.
  intros Vx Vy Fx Fy Hx Hy Hxy.
  destruct y as [sy| | |[] m2 e2]; try done.
  destruct x as [sx| | |[] m1 e1]; try done.
  destruct (bounded_le m1 e1 m2 e2 Vx Vy Hxy) as [He Hm].
  unfold fdiv, SFdiv, SFdiv_core_binary.
  set (e' := Z.min _ (e1 - e2)).
  assert (e' <= -53) as He'.
  { subst e'. unfold Zdigits2.
    assert (Zpos (digits2_pos m1) + e1 - (Zpos (digits2_pos m2) + e2) <= 0) as HD.
    { pose proof (digits2_pos_bounds m1) as [L1 _].
      pose proof (digits2_pos_bounds m2) as [_ U2].
      assert (2 ^ (Zpos (digits2_pos m1) - 1)
              < 2 ^ (Zpos (digits2_pos m2) + (e2 - e1))) as Hp.
      { rewrite Z.pow_add_r by lia.
        assert (0 < 2 ^ (e2 - e1)) by (apply Z.pow_pos_nonneg; lia). nia. }
      apply Z.pow_lt_mono_r_iff in Hp; lia. }
    unfold fexp, emin, f64_prec, f64_emax. lia. }
  set (s := e1 - e2 - e'). assert (0 <= s) as Hs by (subst s e'; lia).
  assert (match s with Z0 => Zpos m1 | Zpos _ => Z.shiftl (Zpos m1) s
          | Zneg _ => 0 end = Zpos m1 * 2 ^ s) as ->.
  { destruct s; [lia| |lia]. by rewrite Z.shiftl_mul_pow2. }
  assert (Zpos m1 * 2 ^ s <= Zpos m2 * 2 ^ (- e')) as Hq.
  { replace (- e') with ((e2 - e1) + s) by (subst s; lia).
    rewrite Z.pow_add_r by lia.
    assert (0 < 2 ^ s) by (apply Z.pow_pos_nonneg; lia). nia. }
  pose proof (Z_div_mod (Zpos m1 * 2 ^ s) (Zpos m2) ltac:(lia)) as Hdm.
  destruct (Z.div_eucl (Zpos m1 * 2 ^ s) (Zpos m2)) as [q r].
  destruct Hdm as [Eq Hr].
  assert (0 <= Zpos m1 * 2 ^ s) as H0.
  { pose proof (Z.pow_nonneg 2 s ltac:(lia)). nia. }
  apply binary_round_aux_below_one; [split; [lia|split; nia]|].
  intros E. assert (r = 0) as -> by nia.
  unfold new_location, new_location_even, new_location_odd. by destruct (Z.even _).
Qed.

#[export] Hint Resolve fdiv_unit_interval : hlm.
