(* ===== verification/GoStrings.v ===== *)
(** * The strings and fmt functions the program uses

    [strings.Contains] and [strings.Split] at a one-character separator,
    [strings.HasPrefix], [strings.HasSuffix], [strings.TrimSuffix] and
    [strings.ToUpper] (on ASCII, which coin names are), and the [fmt.Sprintf]
    formats that build cache keys. *)

From Stdlib Require Import ZArith Lia Ascii.
From stdpp Require Import gmap strings list pretty.
From S2P Require Import Prelude.

Fixpoint contains_char (c : ascii) (s : string) : bool :=
  match s with
  | EmptyString => false
  | String a s => bool_decide (a = c) || contains_char c s
  end.

(** [strings.Split(s, c)]: never empty, [len = 1 + number of separators]. *)
Fixpoint split_char (c : ascii) (s : string) : list string :=
  match s with
  | EmptyString => [EmptyString]
  | String a s =>
      if decide (a = c) then EmptyString :: split_char c s
      else match split_char c s with
           | p :: ps => String a p :: ps
           | [] => [String a EmptyString]
           end
  end.

Fixpoint join_char (c : ascii) (ps : list string) : string :=
  match ps with
  | [] => EmptyString
  | [p] => p
  | p :: ps => p +:+ String c (join_char c ps)
  end.

Fixpoint has_prefix (s pre : string) : bool :=
  match pre, s with
  | EmptyString, _ => true
  | String a pre, String b s => bool_decide (a = b) && has_prefix s pre
  | String _ _, EmptyString => false
  end.

(** [strings.HasSuffix] and [strings.TrimSuffix], looking for the suffix at
    every position. *)
Fixpoint has_suffix (s suf : string) : bool :=
  bool_decide (s = suf) ||
  match s with EmptyString => false | String _ s => has_suffix s suf end.

Fixpoint trim_suffix (s suf : string) : string :=
  if decide (s = suf) then EmptyString
  else match s with
       | EmptyString => EmptyString
       | String a s' => String a (trim_suffix s' suf)
       end.

Definition ascii_to_upper (a : ascii) : ascii :=
  let n := nat_of_ascii a in
  if decide (97 <= n /\ n <= 122) then ascii_of_nat (n - 32) else a.

Fixpoint to_upper (s : string) : string :=
  match s with
  | EmptyString => EmptyString
  | String a s => String (ascii_to_upper a) (to_upper s)
  end.

(** [fmt.Sprintf("%s-%d", s, d)] and [fmt.Sprintf("%s-%d-%s", s, d, t)]. *)
Definition key_s_d (s : string) (d : Z) : string := s +:+ "-" +:+ pretty d.
Definition key_s_d_s (s : string) (d : Z) (t : string) : string :=
  s +:+ "-" +:+ pretty d +:+ "-" +:+ t.

Example split_xyz : split_char ":" "xyz:BTC" = ["xyz"; "BTC"].
Proof. reflexivity. Qed.
Example split_none : split_char ":" "BTC" = ["BTC"].
Proof. reflexivity. Qed.
Example trim_usdc : trim_suffix "HYPEUSDC" "USDC" = "HYPE".
Proof. reflexivity. Qed.
Example upper : to_upper "kPEPEusdc" = "KPEPEUSDC".
Proof. reflexivity. Qed.
Example key_example : key_s_d_s "0xab" (-7) "Open Long" = "0xab--7-Open Long".
Proof. reflexivity. Qed.

(** ** Facts *)

Lemma append_nil_l (s : string) : EmptyString +:+ s = s.
Proof. done. Qed.

Lemma append_cons (a : ascii) (s t : string) : String a s +:+ t = String a (s +:+ t).
Proof. done. Qed.

Lemma append_assoc (s t u : string) : (s +:+ t) +:+ u = s +:+ t +:+ u.
Proof. induction s as [|a s IH]; [done|]. rewrite !append_cons. by f_equal. Qed.

Lemma split_char_nonempty c s : split_char c s <> [].
Proof.
  destruct s as [|a s]; simpl; [done|].
  case_decide; [done|]. by destruct (split_char c s).
Qed.

Lemma join_split c s : join_char c (split_char c s) = s.
Proof.
  induction s as [|a s IH]; simpl; [done|].
  pose proof (split_char_nonempty c s) as Hne.
  case_decide as Ha; [subst a|];
    destruct (split_char c s) as [|p [|q ps]]; simpl in *; try done;
    by rewrite <- IH.
Qed.

(** One part when the separator does not occur. *)
Lemma split_char_none c s : contains_char c s = false -> split_char c s = [s].
Proof.
  induction s as [|a s IH]; simpl; [done|].
  rewrite orb_false_iff, bool_decide_eq_false. intros [Ha Hs].
  by rewrite decide_False, IH by done.
Qed.

Lemma has_suffix_app s suf : has_suffix (s +:+ suf) suf = true.
Proof.
  induction s as [|a s IH].
  - rewrite append_nil_l. destruct suf; cbn [has_suffix]; by rewrite bool_decide_true.
  - rewrite append_cons. cbn [has_suffix]. by rewrite IH, orb_true_r.
Qed.

Lemma string_length_append s t :
  String.length (s +:+ t) = String.length s + String.length t.
Proof. induction s as [|a s IH]; [done|]. rewrite append_cons. simpl. lia. Qed.

Lemma trim_suffix_app s suf : trim_suffix (s +:+ suf) suf = s.
Proof.
  induction s as [|a s IH].
  - rewrite append_nil_l. destruct suf; cbn [trim_suffix]; by rewrite decide_True.
  - rewrite append_cons. cbn [trim_suffix]. rewrite decide_False; [by f_equal|].
    intros E. apply (f_equal String.length) in E. simpl in E.
    rewrite string_length_append in E. lia.
Qed.

Lemma contains_char_append c s t :
  contains_char c (s +:+ t) = contains_char c s || contains_char c t.
Proof.
  induction s as [|a s IH]; [done|].
  rewrite append_cons. simpl. by rewrite IH, orb_assoc.
Qed.

(** Text up to the first separator is determined by the whole. *)
Lemma append_sep_inj c s1 s2 t1 t2 :
  contains_char c s1 = false -> contains_char c s2 = false ->
  s1 +:+ String c t1 = s2 +:+ String c t2 -> s1 = s2 /\ t1 = t2.
Proof.
  revert s2. induction s1 as [|a s1 IH]; intros [|b s2];
    rewrite ?append_nil_l, ?append_cons; simpl;
    rewrite ?orb_false_iff, ?bool_decide_eq_false; intros H1 H2 E; simplify_eq.
  - done.
  - by destruct H2.
  - by destruct H1.
  - destruct H1, H2. destruct (IH s2) as [-> ->]; done.
Qed.

(** The last separator splits a string in one way. *)
Lemma append_last_sep_inj c s1 s2 t1 t2 :
  contains_char c t1 = false -> contains_char c t2 = false ->
  s1 +:+ String c t1 = s2 +:+ String c t2 -> s1 = s2 /\ t1 = t2.
Proof.
  intros H1 H2. revert s2. induction s1 as [|a s1 IH]; intros [|b s2].
  - rewrite !append_nil_l. by intros [= ->].
  - rewrite append_nil_l, append_cons. intros [= -> ->].
    rewrite contains_char_append in H1. simpl in H1.
    by rewrite bool_decide_true, orb_true_r in H1.
  - rewrite append_nil_l, append_cons. intros [= -> <-].
    rewrite contains_char_append in H2. simpl in H2.
    by rewrite bool_decide_true, orb_true_r in H2.
  - rewrite !append_cons. intros [= -> E]. destruct (IH s2 E) as [-> ->]. done.
Qed.

(** The decimal digits contain no separator. *)
Definition not_digit (c : ascii) : Prop := forall x, pretty_N_char x <> c.

Lemma pretty_N_char_no_dash : not_digit "-".
Proof. intros x. unfold pretty_N_char. by repeat case_match. Qed.

Lemma pretty_N_char_no_colon : not_digit ":".
Proof. intros x. unfold pretty_N_char. by repeat case_match. Qed.

Lemma pretty_N_go_without c x s : not_digit c ->
  contains_char c s = false -> contains_char c (pretty_N_go x s) = false.
Proof.
  intros Hc. revert s. induction (N.lt_wf_0 x) as [x _ IH]; intros s Hs.
  destruct (decide (x = 0)%N) as [->|Hx]; [done|].
  rewrite pretty_N_go_step by lia. apply IH; [by apply N.div_lt; lia|].
  simpl. rewrite Hs, orb_false_r. apply bool_decide_eq_false, Hc.
Qed.

Lemma pretty_N_go_length x s :
  (String.length s <= String.length (pretty_N_go x s))%nat.
Proof.
  revert s. induction (N.lt_wf_0 x) as [x _ IH]; intros s.
  destruct (decide (x = 0)%N) as [->|Hx]; [done|].
  rewrite pretty_N_go_step by lia.
  etrans; [|apply IH, N.div_lt; lia]. simpl. lia.
Qed.

Lemma pretty_N_without c (n : N) :
  not_digit c -> c <> "0"%char -> contains_char c (pretty n) = false.
Proof.
  intros Hc H0. unfold pretty, pretty_N. case_decide; [|by apply pretty_N_go_without].
  simpl. rewrite orb_false_r. apply bool_decide_eq_false. congruence.
Qed.

Lemma pretty_N_no_dash (n : N) : contains_char "-" (pretty n) = false.
Proof. apply pretty_N_without; [apply pretty_N_char_no_dash|done]. Qed.

Lemma pretty_N_no_colon (n : N) : contains_char ":" (pretty n) = false.
Proof. apply pretty_N_without; [apply pretty_N_char_no_colon|done]. Qed.

Lemma pretty_N_nonempty (n : N) : pretty n <> EmptyString.
Proof.
  unfold pretty, pretty_N. case_decide; [done|].
  rewrite pretty_N_go_step by lia. intros E. apply (f_equal String.length) in E.
  pose proof (pretty_N_go_length (n `div` 10)
                (String (pretty_N_char (n `mod` 10)) EmptyString)) as Hl.
  rewrite E in Hl. simpl in Hl. lia.
Qed.

(** A printed integer followed by a dash is determined by the whole text. *)
Lemma pretty_Z_sep_inj (d1 d2 : Z) t1 t2 :
  pretty d1 +:+ String "-" t1 = pretty d2 +:+ String "-" t2 -> d1 = d2 /\ t1 = t2.
Proof.
  assert (forall (n1 n2 : N) u1 u2,
    pretty n1 +:+ String "-" u1 = pretty n2 +:+ String "-" u2 -> n1 = n2 /\ u1 = u2) as HN.
  { intros n1 n2 u1 u2 E. apply append_sep_inj in E as [E ->]; [|apply pretty_N_no_dash..].
    by apply (inj pretty) in E as ->. }
  assert (forall (n : N) u1 u2, pretty n +:+ String "-" u1 <> String "-" u2) as Hmix.
  { intros n u1 u2 E. pose proof (pretty_N_no_dash n) as Hd.
    pose proof (pretty_N_nonempty n). destruct (pretty n) as [|a s]; [done|].
    rewrite append_cons in E. by simplify_eq. }
  assert (forall z, (exists n : N, z = Z.of_N n /\ pretty z = pretty n) \/
                    (exists p, z = Zneg p /\ pretty z = String "-" (pretty (Npos p)))) as Hz.
  { intros [|p|p]; [left; by exists 0%N|left; by exists (Npos p)|right; by exists p]. }
  destruct (Hz d1) as [(n1 & -> & ->)|(p1 & -> & ->)],
           (Hz d2) as [(n2 & -> & ->)|(p2 & -> & ->)]; rewrite ?append_cons; intros E.
  - by apply HN in E as [-> ->].
  - by apply Hmix in E.
  - symmetry in E. by apply Hmix in E.
  - simplify_eq. apply HN in E as [E ->]. by simplify_eq.
Qed.

(** Keys of different triples differ, as long as the address holds no dash. *)
Lemma key_s_d_s_inj a1 a2 d1 d2 t1 t2 :
  contains_char "-" a1 = false -> contains_char "-" a2 = false ->
  key_s_d_s a1 d1 t1 = key_s_d_s a2 d2 t2 -> a1 = a2 /\ d1 = d2 /\ t1 = t2.
Proof.
  intros H1 H2 E. apply append_sep_inj in E as [-> E]; [|done..].
  by apply pretty_Z_sep_inj in E as [-> ->].
Qed.

Lemma key_s_d_inj a1 a2 d1 d2 :
  contains_char "-" a1 = false -> contains_char "-" a2 = false ->
  key_s_d a1 d1 = key_s_d a2 d2 -> a1 = a2 /\ d1 = d2.
Proof.
  intros H1 H2 E. apply append_sep_inj in E as [-> E]; [|done..].
  by apply (inj pretty) in E as ->.
Qed.

(** What the keys need of an address: a hexadecimal string holds no dash. *)
Definition dash_free (s : string) : Prop := contains_char "-" s = false.

#[export] Instance dash_free_dec s : Decision (dash_free s).
Proof. unfold dash_free. apply _. Defined.

(** The last character decides most suffix tests. *)
Fixpoint last_ascii (s : string) : option ascii :=
  match s with
  | EmptyString => None
  | String a EmptyString => Some a
  | String _ s => last_ascii s
  end.

Lemma last_ascii_append s t : t <> EmptyString -> last_ascii (s +:+ t) = last_ascii t.
Proof.
  intros Ht. induction s as [|a s IH]; [done|].
  rewrite append_cons. rewrite <- IH. simpl.
  destruct s as [|b s]; [|done]. rewrite append_nil_l. by destruct t.
Qed.

Lemma has_suffix_last s suf :
  suf <> EmptyString -> last_ascii s <> last_ascii suf -> has_suffix s suf = false.
Proof.
  intros Hs. induction s as [|a s IH]; intros Hl; cbn [has_suffix].
  - rewrite bool_decide_false by (by intros <-). done.
  - rewrite bool_decide_false by (by intros <-). simpl.
    destruct s as [|b s]; [|by apply IH].
    cbn [has_suffix]. by rewrite bool_decide_false by (by intros <-).
Qed.
