(* ===== verification/GoFmt.v ===== *)
(** * fmt and encoding/json as the program uses them

    [fmt.Sprintf] with a ["%.<n>f"] verb on a float64, and [json.Marshal] on
    the values the program stores: strings, integers, null pointers, slices
    and structs.  (The strings are exchange data in ASCII; [json.Marshal]
    escapes the quote, the backslash, control characters and, by default, the
    characters <, > and &.) *)

From Stdlib Require Import ZArith Lia Ascii.
From Stdlib Require Import Floats.SpecFloat.
From stdpp Require Import gmap strings list pretty.
From S2P Require Import Prelude Float64.
Local Open Scope Z_scope.

(** ** Fixed-point formatting of a float64 *)

(** [num / den], [den > 0], rounded to the nearest integer, halves to even. *)
Definition div_half_even (num den : Z) : Z :=
  let q := num / den in
  let r := num mod den in
  match 2 * r ?= den with
  | Lt => q
  | Gt => q + 1
  | Eq => if Z.even q then q else q + 1
  end.

(** [m * 2^e * 10^prec] rounded to an integer. *)
Definition scaled (m : positive) (e : Z) (prec : nat) : Z :=
  let num := Zpos m * 10 ^ Z.of_nat prec in
  if 0 <=? e then num * 2 ^ e else div_half_even num (2 ^ (- e)).

Fixpoint zeros (n : nat) : string :=
  match n with O => EmptyString | S n => String "0" (zeros n) end.

(** The decimal digits of [n], left-padded with zeros to [width]. *)
Definition padded (n : Z) (width : nat) : string :=
  let s := pretty n in zeros (width - String.length s) +:+ s.

Definition fixed_point (n : Z) (prec : nat) : string :=
  let p := 10 ^ Z.of_nat prec in
  pretty (n / p) +:+
  match prec with O => EmptyString | S _ => "." +:+ padded (n mod p) prec end.

(** [fmt.Sprintf("%.<prec>f", x)]. *)
Definition format_f (prec : nat) (x : float64) : string :=
  match x with
  | S754_nan => "NaN"
  | S754_infinity false => "+Inf"
  | S754_infinity true => "-Inf"
  | S754_zero s => (if s then "-" else EmptyString) +:+ fixed_point 0 prec
  | S754_finite s m e =>
      (if s then "-" else EmptyString) +:+ fixed_point (scaled m e prec) prec
  end.

Example format_half : format_f 6 (fdiv f1 (float64_of_Z 2)) = "0.500000".
Proof. vm_compute. reflexivity. Qed.
Example format_third : format_f 6 (fdiv (float64_of_Z (-1)) (float64_of_Z 3)) = "-0.333333".
Proof. vm_compute. reflexivity. Qed.
Example format_even : format_f 0 (fdiv f1 (float64_of_Z 2)) = "0".
Proof. vm_compute. reflexivity. Qed.
Example format_int : format_f 6 (float64_of_Z 1234567) = "1234567.000000".
Proof. vm_compute. reflexivity. Qed.

(** ** JSON *)

Inductive json : Type :=
| JNull
| JInt (z : Z)
| JString (s : string)
| JArray (l : list json)
| JObject (l : list (string * json)).

Definition hex_digit (n : nat) : ascii :=
  nth n ["0"; "1"; "2"; "3"; "4"; "5"; "6"; "7"; "8"; "9"; "a"; "b"; "c"; "d";
         "e"; "f"]%char "0"%char.

Definition dquote : ascii := ascii_of_nat 34.
Definition backslash : ascii := ascii_of_nat 92.

(** One character of a JSON string literal. *)
Definition escape_char (a : ascii) : string :=
  let n := nat_of_ascii a in
  if decide (a = dquote \/ a = backslash) then String backslash (String a EmptyString)
  else if decide (n = 8%nat) then String backslash "b"
  else if decide (n = 9%nat) then String backslash "t"
  else if decide (n = 10%nat) then String backslash "n"
  else if decide (n = 12%nat) then String backslash "f"
  else if decide (n = 13%nat) then String backslash "r"
  else if decide (n < 32 \/ a = "<"%char \/ a = ">"%char \/ a = "&"%char)%nat then
    String backslash ("u00" +:+ String (hex_digit (n / 16)) (String (hex_digit (n mod 16)) EmptyString))
  else String a EmptyString.

Fixpoint escape (s : string) : string :=
  match s with
  | EmptyString => EmptyString
  | String a s => escape_char a +:+ escape s
  end.

Definition quoted (s : string) : string :=
  String dquote (escape s +:+ String dquote EmptyString).

(** The text [json.Marshal] returns. *)
Fixpoint json_text (j : json) : string :=
  match j with
  | JNull => "null"
  | JInt z => pretty z
  | JString s => quoted s
  | JArray l =>
      "[" +:+ (fix elems (l : list json) : string :=
        match l with
        | [] => EmptyString
        | [x] => json_text x
        | x :: l => json_text x +:+ "," +:+ elems l
        end) l +:+ "]"
  | JObject l =>
      "{" +:+ (fix fields (l : list (string * json)) : string :=
        match l with
        | [] => EmptyString
        | [(k, x)] => quoted k +:+ ":" +:+ json_text x
        | (k, x) :: l => quoted k +:+ ":" +:+ json_text x +:+ "," +:+ fields l
        end) l +:+ "}"
  end.

(** A pointer to a string: [null] or the string. *)
Definition json_ptr (p : option string) : json :=
  match p with Some s => JString s | None => JNull end.
