(* ===== verification/Models.v ===== *)
(** * The data of the program

    The exchange messages the service reads (pkg/go-hyperliquid), the rows it
    stores (internal/models) and the signal it publishes (internal/nats).
    Numbers arrive from the exchange as decimal strings.  Fields that no code
    of the service reads are left out of [WebData2], and row identifiers the
    database assigns are left out of the rows; the other structs have all
    their fields.  A pointer field is an [option]. *)

From Stdlib Require Import ZArith Lia Ascii.
From Stdlib Require Import Floats.SpecFloat.
From stdpp Require Import gmap strings list.
From S2P Require Import Prelude Float64 GoFmt.
Local Open Scope Z_scope.

(** ** pkg/go-hyperliquid *)

Record FillLiquidation := mkFillLiquidation {
  liq_LiquidatedUser : option string;
  liq_MarkPx : string;
  liq_Method : string;
}.

Record WsOrderFill := mkWsOrderFill {
  fill_Coin : string;
  fill_Px : string;
  fill_Sz : string;
  fill_Side : string;
  fill_Time : Z;
  fill_StartPosition : string;
  fill_Dir : string;
  fill_ClosedPnl : string;
  fill_Hash : string;
  fill_Oid : Z;
  fill_Crossed : bool;
  fill_Fee : string;
  fill_Tid : Z;
  fill_Liquidation : option FillLiquidation;
  fill_FeeToken : string;
  fill_BuilderFee : option string;
}.

#[export] Instance FillLiquidation_eq_dec : EqDecision FillLiquidation.
Proof. solve_decision. Defined.
#[export] Instance WsOrderFill_eq_dec : EqDecision WsOrderFill.
Proof. solve_decision. Defined.

Record WsOrderFills := mkWsOrderFills {
  fills_IsSnapshot : bool;
  fills_User : string;
  fills_Fills : list WsOrderFill;
}.

Record WsBasicOrder := mkWsBasicOrder {
  bo_Coin : string;
  bo_Side : string;
  bo_LimitPx : string;
  bo_Sz : string;
  bo_Oid : Z;
  bo_Timestamp : Z;
  bo_OrigSz : string;
  bo_Cloid : option string;
}.

Record WsOrder := mkWsOrder {
  wo_Order : WsBasicOrder;
  wo_Status : string;
  wo_StatusTimestamp : Z;
}.

Record SpotAssetCtx := mkSpotAssetCtx {
  sac_DayNtlVlm : string;
  sac_DayBaseVlm : string;
  sac_MarkPx : string;
  sac_MidPx : option string;
  sac_PrevDayPx : string;
  sac_CirculatingSupply : string;
  sac_Coin : string;
  sac_TotalSupply : string;
}.

Record SpotBalance := mkSpotBalance {
  sb_Coin : string;
  sb_Token : Z;
  sb_Hold : string;
  sb_Total : string;
  sb_EntryNtl : string;
}.

Record Leverage := mkLeverage {
  lev_Type : string;
  lev_Value : Z;
  lev_RawUsd : option string;
}.

Record Position := mkPosition {
  pos_Coin : string;
  pos_EntryPx : option string;
  pos_Leverage : Leverage;
  pos_LiquidationPx : option string;
  pos_MarginUsed : string;
  pos_PositionValue : string;
  pos_ReturnOnEquity : string;
  pos_Szi : string;
  pos_UnrealizedPnl : string;
}.

Record AssetPosition := mkAssetPosition { ap_Position : Position; ap_Type : string }.

Record MarginSummary := mkMarginSummary {
  ms_AccountValue : string;
  ms_TotalMarginUsed : string;
  ms_TotalNtlPos : string;
  ms_TotalRawUsd : string;
}.

(** The zero value of the struct. *)
Definition MarginSummary_zero : MarginSummary :=
  mkMarginSummary EmptyString EmptyString EmptyString EmptyString.

Record ClearinghouseState := mkClearinghouseState {
  ch_MarginSummary : option MarginSummary;
  ch_CrossMarginSummary : option MarginSummary;
  ch_CrossMaintenanceMarginUsed : string;
  ch_Withdrawable : string;
  ch_AssetPositions : list AssetPosition;
  ch_Time : Z;
}.

Record SpotState := mkSpotState { ss_Balances : list SpotBalance }.

Record WebData2 := mkWebData2 {
  wd_ClearinghouseState : option ClearinghouseState;
  wd_User : string;
  wd_SpotState : option SpotState;
  wd_SpotAssetCtxs : list SpotAssetCtx;
}.

(** ** internal/models *)

Record SpotBalanceItem := mkSpotBalanceItem {
  sbi_Coin : string;
  sbi_Total : string;
  sbi_Hold : string;
  sbi_EntryNtl : string;
}.

Record LeverageItem := mkLeverageItem {
  li_Type : string;
  li_Value : Z;
}.

Record PositionItem := mkPositionItem {
  pi_Coin : string;
  pi_Szi : string;
  pi_EntryPx : option string;
  pi_UnrealizedPnl : string;
  pi_Leverage : LeverageItem;
  pi_MarginUsed : string;
  pi_PositionValue : string;
  pi_ReturnOnEquity : string;
}.

(** The JSON the two item lists are stored as; a nil slice is [null]. *)
Definition SpotBalanceItem_json (b : SpotBalanceItem) : json :=
  JObject [("coin", JString (sbi_Coin b)); ("total", JString (sbi_Total b));
           ("hold", JString (sbi_Hold b)); ("entry_ntl", JString (sbi_EntryNtl b))].

Definition LeverageItem_json (l : LeverageItem) : json :=
  JObject [("type", JString (li_Type l)); ("value", JInt (li_Value l))].

Definition PositionItem_json (p : PositionItem) : json :=
  JObject [("coin", JString (pi_Coin p)); ("szi", JString (pi_Szi p));
           ("entry_px", json_ptr (pi_EntryPx p));
           ("unrealized_pnl", JString (pi_UnrealizedPnl p));
           ("leverage", LeverageItem_json (pi_Leverage p));
           ("margin_used", JString (pi_MarginUsed p));
           ("position_value", JString (pi_PositionValue p));
           ("return_on_equity", JString (pi_ReturnOnEquity p))].

(** A slice that may be nil: [None] is nil. *)
Definition json_slice {A} (f : A -> json) (l : option (list A)) : string :=
  match l with
  | Some l => json_text (JArray (map f l))
  | None => json_text JNull
  end.

Record HlPositionCache := mkHlPositionCache {
  pc_Address : string;
  pc_SpotBalances : string;
  pc_SpotTotalUSD : string;
  pc_FuturesPositions : string;
  pc_AccountValue : string;
  pc_TotalMarginUsed : string;
  pc_TotalNtlPos : string;
  pc_Withdrawable : string;
  pc_UpdatedAt : Z;
}.

Record OrderAggregation := mkOrderAggregation {
  agg_Oid : Z;
  agg_Address : string;
  agg_Direction : string;
  agg_Symbol : string;
  agg_Fills : list WsOrderFill;
  agg_TotalSize : float64;
  agg_WeightedAvgPx : float64;
  agg_OrderStatus : string;
  agg_LastFillTime : Z;
  agg_SignalSent : bool;
  agg_CreatedAt : Z;
  agg_UpdatedAt : Z;
}.

Record PairConfig := mkPairConfig {
  cfg_Symbol : string;
  cfg_Platform : string;
  cfg_Category : Z;          (* uint8 *)
}.

#[export] Instance HlPositionCache_eq_dec : EqDecision HlPositionCache.
Proof. solve_decision. Defined.

(** ** internal/nats *)

Record HlAddressSignal := mkHlAddressSignal {
  sig_Address : string;
  sig_AssetType : string;
  sig_Symbol : string;
  sig_CoinType : string;
  sig_Direction : string;
  sig_Side : string;
  sig_PositionRate : float64;
  sig_CloseRate : float64;
  sig_Size : float64;
  sig_Price : float64;
  sig_Timestamp : Z;
}.

(** ** github.com/spf13/cast

    The conversions between decimal strings and float64 that the program takes
    from this package ([ToFloat64] returns 0 for a string that is no number). *)
Class Cast := {
  ToFloat64 : string -> float64;
  ToString : float64 -> string;
}.

(** What a Go float64 always is: a conversion returns a canonical value. *)
Class CastLaws (C : Cast) : Prop := {
  ToFloat64_valid : forall s, f64_valid (ToFloat64 s);
}.

(** A conversion of plain decimals ("-12.5"), for the witnesses: the digits
    divided by the power of ten, 0 on other text. *)
Fixpoint decimal_digits (s : string) (n : Z) (point : option Z) : option (Z * Z) :=
  match s with
  | EmptyString => Some (n, default 0 point)
  | String a s =>
      let d := Z.of_nat (Ascii.nat_of_ascii a) - 48 in
      if decide (0 <= d <= 9) then decimal_digits s (10 * n + d) ((fun k => k + 1) <$> point)
      else if decide (d = -2 /\ point = None) then decimal_digits s n (Some 0)
      else None
  end.

Definition decimal_float (sign : Z) (s : string) : float64 :=
  match decimal_digits s 0 None with
  | Some (n, k) =>
      let x := fdiv (float64_of_Z (sign * n)) (float64_of_Z (10 ^ k)) in
      if valid_binary f64_prec f64_emax x then x else f0
  | None => f0
  end.

Definition read_decimal (s : string) : float64 :=
  match s with
  | String a s' => if decide (Ascii.nat_of_ascii a = 45%nat) then decimal_float (-1) s'
                   else decimal_float 1 s
  | EmptyString => f0
  end.

(** The shortest fraction that reads back as [x] ([FormatFloat(x, 'f', -1, 64)],
    but for the trailing zeros of integers above 2^53). *)
Fixpoint format_shortest (fuel prec : nat) (x : float64) : string :=
  match fuel with
  | O => format_f prec x
  | S fuel =>
      if feqb (read_decimal (format_f prec x)) x then format_f prec x
      else format_shortest fuel (S prec) x
  end.

Definition reference_cast : Cast := {|
  ToFloat64 := read_decimal;
  ToString := fun x =>
    match x with S754_finite _ _ _ => format_shortest 330 0 x | _ => format_f 0 x end;
|}.

Lemma decimal_float_valid sign s : f64_valid (decimal_float sign s).
Proof.
  unfold decimal_float. destruct (decimal_digits _ _ _) as [[n k]|]; [|done].
  destruct (valid_binary _ _ _) eqn:E; [exact E|done].
Qed.

Lemma reference_cast_laws : CastLaws reference_cast.
Proof.
  constructor. intros [|a s]; [done|]. cbn [ToFloat64 reference_cast read_decimal].
  case_decide; apply decimal_float_valid.
Qed.

Example cast_shortest : @ToString reference_cast (read_decimal "-0.15") = "-0.15".
Proof. vm_compute. reflexivity. Qed.

Example cast_decimal : @ToFloat64 reference_cast "-0.5" = fdiv (float64_of_Z (-1)) (float64_of_Z 2).
Proof. vm_compute. reflexivity. Qed.

Example json_position :
  json_slice SpotBalanceItem_json (Some [mkSpotBalanceItem "BTC" "1" "0" "9"]) =
  "[" +:+ "{" +:+ quoted "coin" +:+ ":" +:+ quoted "BTC" +:+ "," +:+
  quoted "total" +:+ ":" +:+ quoted "1" +:+ "," +:+ quoted "hold" +:+ ":" +:+
  quoted "0" +:+ "," +:+ quoted "entry_ntl" +:+ ":" +:+ quoted "9" +:+ "}" +:+ "]".
Proof. vm_compute. reflexivity. Qed.
