(* ===== verification/Columns.v ===== *)
(** * internal/models: table names and the JSON columns

    [TableName] of each model, dal's [getTableName], and the [Scan] and
    [Value] methods of the two columns kept as JSON (hl_position_cache.go).
    encoding/json is an interface; a slice is [None] when it is nil. *)

From Stdlib Require Import ZArith.
From stdpp Require Import gmap strings list.
From S2P Require Import Prelude Models.
Local Open Scope Z_scope.

(** ** Tables *)

Inductive model : Type :=
| MHlActiveAddress
| MHlAddressSignal
| MHlPositionCache
| MHlWatchAddress
| MOrderAggregation
| MPairConfig.

#[export] Instance model_eq_dec : EqDecision model.
Proof. solve_decision. Defined.

Definition HlActiveAddress_TableName : string := "hl_active_addresses".
Definition HlAddressSignal_TableName : string := "hl_address_signals".
Definition HlPositionCache_TableName : string := "hl_position_cache".
Definition HlWatchAddress_TableName : string := "hl_watch_addresses".
Definition OrderAggregation_TableName : string := "hl_order_aggregation".
Definition PairConfig_TableName : string := "pair_configs".

(** [getTableName]: a value with a [TableName] method, or something else. *)
Definition getTableName (m : option model) : string :=
  match m with
  | Some MHlActiveAddress => HlActiveAddress_TableName
  | Some MHlAddressSignal => HlAddressSignal_TableName
  | Some MHlPositionCache => HlPositionCache_TableName
  | Some MHlWatchAddress => HlWatchAddress_TableName
  | Some MOrderAggregation => OrderAggregation_TableName
  | Some MPairConfig => PairConfig_TableName
  | None => "unknown"
  end.

(** No two models share a table, nor the name of what is no model. *)
Lemma getTableName_inj m1 m2 : getTableName m1 = getTableName m2 -> m1 = m2.
Proof. by destruct m1 as [[]|], m2 as [[]|]. Qed.

(** ** Columns *)

(** encoding/json on slices of [A]: what was marshalled is unmarshalled,
    whatever the slice held before; a failure may leave anything. *)
Class JsonSlice (A : Type) := {
  js_bytes : Type;
  js_Marshal : option (list A) -> js_bytes;
  js_Unmarshal : js_bytes -> option (list A) -> option (list A) * error;
  js_roundtrip : forall xs old, js_Unmarshal (js_Marshal (Some xs)) old = (Some xs, nil_error);
}.
Arguments js_bytes A {_}.

(** [driver.Value], as far as [Scan] tells values apart. *)
Inductive driver_value (bytes : Type) : Type :=
| DriverNil
| DriverBytes (b : bytes)
| DriverOther.
Arguments DriverNil {bytes}.
Arguments DriverBytes {bytes}.
Arguments DriverOther {bytes}.

Section column.
Context {A : Type} `{JS : JsonSlice A}.

Definition column_Scan (value : driver_value (js_bytes A)) (s : option (list A))
    : option (list A) * error :=
  match value with
  | DriverNil => (Some [], nil_error)
  | DriverOther => (s, nil_error)
  | DriverBytes b => js_Unmarshal b s
  end.

Definition column_Value (s : option (list A)) : driver_value (js_bytes A) * error :=
  match s with
  | None | Some [] => (DriverNil, nil_error)
  | Some _ => (DriverBytes (js_Marshal s), nil_error)
  end.

(** What is written is read back, whatever was in the variable; a nil slice is
    read back as the empty one. *)
Lemma column_roundtrip s old :
  exists v, column_Value s = (v, nil_error) /\ column_Scan v old = (Some (default [] s), nil_error).
Proof.
  destruct s as [[|x xs]|]; eexists; (split; [reflexivity|]); simpl; try done. by rewrite js_roundtrip.
Qed.
End column.

(** The two types. *)
Definition SpotBalancesData_Scan {JS : JsonSlice SpotBalanceItem} := column_Scan (A := SpotBalanceItem).
Definition SpotBalancesData_Value {JS : JsonSlice SpotBalanceItem} := column_Value (A := SpotBalanceItem).
Definition FuturesPositionsData_Scan {JS : JsonSlice PositionItem} := column_Scan (A := PositionItem).
Definition FuturesPositionsData_Value {JS : JsonSlice PositionItem} := column_Value (A := PositionItem).

(** An interface that keeps the slice itself. *)
Definition kept_slice (A : Type) : JsonSlice A := {|
  js_bytes := option (list A);
  js_Marshal := id;
  js_Unmarshal := fun b _ => (b, nil_error);
  js_roundtrip := fun xs old => eq_refl;
|}.

Example balances_roundtrip :
  SpotBalancesData_Scan (JS := kept_slice SpotBalanceItem)
    (SpotBalancesData_Value (JS := kept_slice SpotBalanceItem) (Some [mkSpotBalanceItem "BTC" "1" "0" "9"])).1 None
  = (Some [mkSpotBalanceItem "BTC" "1" "0" "9"], nil_error).
Proof. reflexivity. Qed.
