(* ===== verification/ConcurrentMap.v ===== *)
(** * pkg/concurrent/map.go

    The generic concurrent map: a [sync.Map] with a separate atomic element
    counter.  The first section gives each method as one atomic operation (what
    a caller sees when no other goroutine interferes); the second splits every
    method at the point between the access to the [sync.Map] and the update
    of the counter, and studies the interleavings. *)

From stdpp Require Import gmap strings list.
From S2P Require Import Prelude.
Local Open Scope Z_scope.

Record Map (K V : Type) `{Countable K} := mkMap {
  map_length : Z;
  map_data : gmap K V;
}.
Arguments mkMap {K V _ _} map_length map_data.
Arguments map_length {K V _ _} _.
Arguments map_data {K V _ _} _.

Section methods.
Context `{Countable K} {V : Type}.
Implicit Types m : Map K V.

(** The zero value of the struct. *)
Definition Map_zero : Map K V := mkMap 0 ∅.

Definition Map_Len m : Z := map_length m.

Definition Map_Load m (k : K) : option V := map_data m !! k.

Definition Map_Store m (k : K) (v : V) : Map K V :=
  match map_data m !! k with
  | None => mkMap (map_length m + 1) (<[k := v]> (map_data m))
  | Some _ => mkMap (map_length m) (<[k := v]> (map_data m))
  end.

(** The value now under the key, and whether it was there before. *)
Definition Map_LoadOrStore m (k : K) (v : V) : Map K V * (V * bool) :=
  match map_data m !! k with
  | Some old => (m, (old, true))
  | None => (mkMap (map_length m + 1) (<[k := v]> (map_data m)), (v, false))
  end.

Definition Map_LoadAndDelete m (k : K) : Map K V * option V :=
  match map_data m !! k with
  | Some v => (mkMap (map_length m - 1) (delete k (map_data m)), Some v)
  | None => (m, None)
  end.

Definition Map_Delete m (k : K) : Map K V :=
  match map_data m !! k with
  | Some _ => mkMap (map_length m - 1) (delete k (map_data m))
  | None => m
  end.

Definition Map_Swap m (k : K) (v : V) : Map K V * option V :=
  match map_data m !! k with
  | None => (mkMap (map_length m + 1) (<[k := v]> (map_data m)), None)
  | Some old => (mkMap (map_length m) (<[k := v]> (map_data m)), Some old)
  end.

Definition Map_CompareAndDelete `{EqDecision V} m (k : K) (old : V)
    : Map K V * bool :=
  match map_data m !! k with
  | Some v =>
      if decide (v = old)
      then (mkMap (map_length m - 1) (delete k (map_data m)), true)
      else (m, false)
  | None => (m, false)
  end.

Definition Map_CompareAndSwap `{EqDecision V} m (k : K) (old new : V)
    : Map K V * bool :=
  match map_data m !! k with
  | Some v =>
      if decide (v = old)
      then (mkMap (map_length m) (<[k := new]> (map_data m)), true)
      else (m, false)
  | None => (m, false)
  end.

Definition Map_Clear (m : Map K V) : Map K V := mkMap 0 ∅.

(** [Range] and [All] call the argument on the entries one by one, in the
    order of the iteration, until it returns [false]; [s] is the state the
    closure captures. *)
Fixpoint range_list {S : Type} (f : S -> K -> V -> S * bool) (s : S)
    (l : list (K * V)) : S :=
  match l with
  | [] => s
  | (k, v) :: l =>
      let '(s', continue) := f s k v in
      if continue then range_list f s' l else s'
  end.

Definition Map_Range `{MapRange} {S : Type} m
    (f : S -> K -> V -> S * bool) (s : S) : S :=
  range_list f s (go_range (map_data m)).

(** The counter agrees with the number of entries. *)
Definition Map_wf m : Prop := map_length m = Z.of_nat (size (map_data m)).

Lemma Map_zero_wf : Map_wf Map_zero.
Proof. done. Qed.

Lemma Map_Load_Store m k v k' :
  Map_Load (Map_Store m k v) k' = if decide (k = k') then Some v else Map_Load m k'.
Proof.
  unfold Map_Load, Map_Store.
  destruct (map_data m !! k); simpl; apply lookup_insert.
Qed.

Lemma Map_Load_Delete m k k' :
  Map_Load (Map_Delete m k) k' = if decide (k = k') then None else Map_Load m k'.
Proof.
  unfold Map_Load, Map_Delete.
  destruct (map_data m !! k) eqn:E; simpl; [apply lookup_delete|].
  case_decide; by subst.
Qed.

Lemma Map_data_Store m k v : map_data (Map_Store m k v) = <[k := v]> (map_data m).
Proof. unfold Map_Store. by destruct (map_data m !! k). Qed.

Lemma Map_data_Delete m k : map_data (Map_Delete m k) = delete k (map_data m).
Proof.
  unfold Map_Delete. destruct (map_data m !! k) eqn:E; [done|].
  by rewrite delete_id.
Qed.

Lemma Map_data_Delete_list (ks : list K) m k :
  map_data (fold_left Map_Delete ks m) !! k =
  if decide (k ∈ ks) then None else map_data m !! k.
Proof.
  revert m. induction ks as [|k' ks IH]; intros m; cbn [fold_left];
    [by case_decide; set_solver|].
  rewrite IH, Map_data_Delete, lookup_delete. repeat case_decide; set_solver.
Qed.

Lemma size_delete_Some (d : gmap K V) k v :
  d !! k = Some v -> Z.of_nat (size (delete k d)) = Z.of_nat (size d) - 1.
Proof.
  intros E. pose proof (map_size_ne_0_lookup_2 d k ltac:(eauto)).
  rewrite map_size_delete, E. simpl. lia.
Qed.

Lemma size_insert_None (d : gmap K V) k v :
  d !! k = None -> Z.of_nat (size (<[k := v]> d)) = Z.of_nat (size d) + 1.
Proof. intros E. rewrite map_size_insert_None by done. lia. Qed.

Lemma size_insert_Some (d : gmap K V) k v old :
  d !! k = Some old -> size (<[k := v]> d) = size d.
Proof. intros E. by rewrite map_size_insert, E. Qed.

Hint Resolve size_delete_Some size_insert_None size_insert_Some : core.

Lemma Map_Store_wf m k v : Map_wf m -> Map_wf (Map_Store m k v).
Proof.
  unfold Map_wf, Map_Store. destruct (map_data m !! k) eqn:E; simpl.
  - by erewrite size_insert_Some.
  - rewrite size_insert_None by done. lia.
Qed.

Lemma Map_Delete_wf m k : Map_wf m -> Map_wf (Map_Delete m k).
Proof.
  unfold Map_wf, Map_Delete. destruct (map_data m !! k) eqn:E; simpl; [|done].
  erewrite size_delete_Some by done. lia.
Qed.

Lemma Map_LoadOrStore_fst m k v :
  (Map_LoadOrStore m k v).1 = match Map_Load m k with
                              | Some _ => m | None => Map_Store m k v end.
Proof. unfold Map_LoadOrStore, Map_Load, Map_Store. by destruct (map_data m !! k). Qed.

Lemma Map_LoadAndDelete_fst m k : (Map_LoadAndDelete m k).1 = Map_Delete m k.
Proof. unfold Map_LoadAndDelete, Map_Delete. by destruct (map_data m !! k). Qed.
End methods.

#[export] Hint Resolve Map_zero_wf Map_Store_wf Map_Delete_wf : hlm.

(** ** The specification: a finite map

    [Map] refines a plain finite map: every method acts on the contents as
    the map operation of its name, and [Len] is the number of entries. *)
Section refinement.
Context `{Countable K} {V : Type} `{EqDecision V}.

(** The methods, as calls. *)
Inductive map_call : Type :=
| CStore (k : K) (v : V)
| CLoadOrStore (k : K) (v : V)
| CLoadAndDelete (k : K)
| CDelete (k : K)
| CSwap (k : K) (v : V)
| CCompareAndDelete (k : K) (old : V)
| CCompareAndSwap (k : K) (old new : V)
| CClear.

Definition map_exec (m : Map K V) (c : map_call) : Map K V :=
  match c with
  | CStore k v => Map_Store m k v
  | CLoadOrStore k v => (Map_LoadOrStore m k v).1
  | CLoadAndDelete k => (Map_LoadAndDelete m k).1
  | CDelete k => Map_Delete m k
  | CSwap k v => (Map_Swap m k v).1
  | CCompareAndDelete k old => (Map_CompareAndDelete m k old).1
  | CCompareAndSwap k old new => (Map_CompareAndSwap m k old new).1
  | CClear => Map_Clear m
  end.

(** What each call does to the abstract map. *)
Definition map_spec (d : gmap K V) (c : map_call) : gmap K V :=
  match c with
  | CStore k v | CSwap k v => <[k := v]> d
  | CLoadOrStore k v => match d !! k with Some _ => d | None => <[k := v]> d end
  | CLoadAndDelete k | CDelete k => delete k d
  | CCompareAndDelete k old => if decide (d !! k = Some old) then delete k d else d
  | CCompareAndSwap k old new =>
      if decide (d !! k = Some old) then <[k := new]> d else d
  | CClear => ∅
  end.

Lemma map_exec_spec (m : Map K V) c :
  map_data (map_exec m c) = map_spec (map_data m) c.
Proof.
  destruct c as [k v|k v|k|k|k v|k old|k old new|]; simpl;
    rewrite ?Map_data_Store, ?Map_data_Delete, ?Map_LoadAndDelete_fst; try done;
    unfold Map_LoadOrStore, Map_Swap, Map_CompareAndDelete, Map_CompareAndSwap;
    destruct (map_data m !! k) eqn:E; go_cases; try done; try congruence;
    by rewrite ?Map_data_Delete.
Qed.

Lemma map_exec_wf (m : Map K V) c : Map_wf m -> Map_wf (map_exec m c).
Proof.
  intros Hwf.
  destruct c as [k v|k v|k|k|k v|k old|k old new|]; simpl;
    rewrite ?Map_LoadAndDelete_fst; eauto with hlm;
    unfold Map_wf, Map_LoadOrStore, Map_Swap, Map_CompareAndDelete,
      Map_CompareAndSwap in *; try (destruct (map_data m !! k) eqn:E; go_cases);
    try done; rewrite ?size_insert_None by done; try lia;
    try (erewrite size_insert_Some by done); try done;
    erewrite size_delete_Some by done; lia.
Qed.
End refinement.
Arguments map_call K V : clear implicits.

(** ** Interleavings

    Each method is two atomic accesses: one to the [sync.Map], then, when the
    number of entries changed, an [Add] on the counter; [Store] on a present
    key is a [LoadOrStore] that stores nothing and then a [Store].  A state is
    the shared map with the second accesses that goroutines still owe.
    ([Clear], whose two accesses race with every other method, is left out.) *)
Section interleaving.
Context `{Countable K} {V : Type}.

Inductive owed : Type :=
| OwedAdd (delta : Z)              (* m.length.Add(delta) *)
| OwedStore (k : K) (v : V).       (* m.data.Store(k, v) *)

Definition mstate : Type := Map K V * list owed.

Definition set_data (m : Map K V) (d : gmap K V) : Map K V := mkMap (map_length m) d.

(** [safe] says when a goroutine may begin a deletion: everywhere in the
    real program, and under a locking discipline in the theorem below. *)
Inductive mstep (safe : list owed -> K -> Prop) : mstate -> mstate -> Prop :=
| ms_insert m os k v :                    (* Store, LoadOrStore, Swap: absent *)
    map_data m !! k = None ->
    mstep safe (m, os) (set_data m (<[k := v]> (map_data m)), OwedAdd 1 :: os)
| ms_store_present m os k v old :         (* Store: the key was there *)
    map_data m !! k = Some old ->
    mstep safe (m, os) (m, OwedStore k v :: os)
| ms_overwrite m os k v old :             (* Swap, CompareAndSwap: present *)
    map_data m !! k = Some old ->
    mstep safe (m, os) (set_data m (<[k := v]> (map_data m)), os)
| ms_delete m os k old :                  (* Delete, LoadAndDelete, CompareAndDelete *)
    map_data m !! k = Some old -> safe os k ->
    mstep safe (m, os) (set_data m (delete k (map_data m)), OwedAdd (-1) :: os)
| ms_add m os1 os2 delta :
    mstep safe (m, os1 ++ OwedAdd delta :: os2)
               (mkMap (map_length m + delta) (map_data m), os1 ++ os2)
| ms_store m os1 os2 k v :
    mstep safe (m, os1 ++ OwedStore k v :: os2)
               (set_data m (<[k := v]> (map_data m)), os1 ++ os2).

Definition any_time (os : list owed) (k : K) : Prop := True.

(** No goroutine is between the two accesses of a [Store] on this key. *)
Definition no_pending_store (os : list owed) (k : K) : Prop :=
  forall v, OwedStore k v ∉ os.

Definition owed_add (o : owed) : Z :=
  match o with OwedAdd delta => delta | OwedStore _ _ => 0 end.

Definition owed_sum (os : list owed) : Z := foldr (fun o z => owed_add o + z) 0 os.

Lemma owed_sum_app os1 os2 : owed_sum (os1 ++ os2) = owed_sum os1 + owed_sum os2.
Proof. induction os1 as [|o os1 IH]; simpl; [done|]. rewrite IH. lia. Qed.

(** Counter plus debts is the number of entries, and every owed [Store] still
    finds its key. *)
Definition settled (s : mstate) : Prop :=
  map_length s.1 + owed_sum s.2 = Z.of_nat (size (map_data s.1)) /\
  forall k v, OwedStore k v ∈ s.2 -> is_Some (map_data s.1 !! k).

Lemma settled_step s s' : settled s -> mstep no_pending_store s s' -> settled s'.
Proof.
  intros [Hlen Hin] Hstep.
  destruct Hstep as [m os k v E|m os k v old E|m os k v old E|m os k old E Hsafe
                    |m os1 os2 d|m os1 os2 k v]; split; simpl in *.
  - rewrite size_insert_None by done. lia.
  - intros k' v' Hk'. apply lookup_insert_is_Some'. right. apply (Hin k' v'). set_solver.
  - lia.
  - intros k' v' [Heq|Hk']%elem_of_cons; [simplify_eq; eauto|]. eapply Hin, Hk'.
  - by erewrite size_insert_Some.
  - intros k' v' Hk'. apply lookup_insert_is_Some'. right. by apply (Hin k' v').
  - erewrite size_delete_Some by done. lia.
  - intros k' v' Hk'. assert (Hos : OwedStore k' v' ∈ os) by set_solver.
    assert (k <> k') as Hne by (intros ->; by apply (Hsafe v')).
    rewrite lookup_delete_ne by done. by apply (Hin k' v').
  - rewrite !owed_sum_app in *. simpl in *. lia.
  - intros k' v' Hk'. apply (Hin k' v'). set_solver.
  - destruct (Hin k v ltac:(set_solver)) as [old E].
    erewrite size_insert_Some by done.
    rewrite !owed_sum_app in *. simpl in *. lia.
  - intros k' v' Hk'. apply lookup_insert_is_Some'. right. apply (Hin k' v'). set_solver.
Qed.
End interleaving.
Arguments owed K V : clear implicits.
Arguments mstate K {_ _} V.

(** When no key is deleted while a [Store] on it is between its two
    accesses, every interleaving of the methods settles: once no goroutine
    owes an access, [Len] is the number of entries. *)
Theorem Map_Len_settles `{Countable K} {V} (s : mstate K V) :
  rtc (mstep no_pending_store) (Map_zero, []) s -> s.2 = [] ->
  Map_Len s.1 = Z.of_nat (size (map_data s.1)).
Proof.
  intros Hr Hq.
  assert (settled s) as [Hlen _].
  { eapply (rtc_inv _ settled); [apply settled_step| |exact Hr].
    split; [done|]. intros k v Hk. by apply not_elem_of_nil in Hk. }
  rewrite Hq in Hlen. simpl in Hlen. unfold Map_Len. lia.
Qed.

Definition one_entry : Map Z bool := mkMap 1 {[ 7 := true ]}.

Lemma Map_Len_settles_witness :
  Map_Len one_entry = Z.of_nat (size (map_data one_entry)).
Proof.
  refine (Map_Len_settles (one_entry, []) _ eq_refl).
  eapply rtc_l; [apply (ms_insert _ _ _ 7 true); reflexivity|].
  eapply rtc_l; [apply (ms_add _ _ [] [])|]. apply rtc_refl.
Defined.

(** Without that discipline [Len] drifts: a [Store] that found the key and a
    [Delete] of the same key can interleave so that the map is quiescent with
    no entry left and a counter of -1. *)
Theorem Map_Len_drifts :
  exists m : Map Z bool,
    rtc (mstep any_time) (Map_zero, []) (m, []) /\
    map_data m = ∅ /\ Map_Len m = -1.
Proof.
  exists (mkMap (-1) ∅). split; [|done].
  eapply rtc_l; [apply (ms_insert _ _ _ 7 true); reflexivity|].
  eapply rtc_l; [apply (ms_add _ _ [] [])|].
  eapply rtc_l; [by eapply (ms_store_present _ _ _ 7 false true)|].
  eapply rtc_l; [by eapply (ms_delete _ _ _ 7 true)|].
  eapply rtc_l; [apply (ms_store _ _ [_] [])|].
  eapply rtc_l; [by eapply (ms_delete _ _ _ 7 false)|].
  eapply rtc_l; [apply (ms_add _ _ [] [_])|].
  eapply rtc_l; [apply (ms_add _ _ [] [])|]. apply rtc_refl.
Qed.
