(* ===== verification/GoCache.v ===== *)
(** * github.com/patrickmn/go-cache

    The expiring string-keyed cache the deduplication cache and the status
    tracker are built on is third-party code: an interface with the documented
    behaviour of [Set] (with [DefaultExpiration]), [Get], [Delete] and [Flush].
    An item is found from the moment it is set until its expiration, and no
    longer; a cache does not shorten that time by its periodic clean-up, which
    only drops expired items. *)

From Stdlib Require Import ZArith Lia.
From stdpp Require Import gmap strings list.
From S2P Require Import Prelude.
Local Open Scope Z_scope.

Class GoCache (V : Type) := {
  gc_t : Type;
  gc_New : Z -> gc_t;                       (* default expiration *)
  gc_Set : gc_t -> Z -> string -> V -> gc_t;  (* at an instant *)
  gc_Get : gc_t -> Z -> string -> option V;   (* at an instant *)
  gc_Delete : gc_t -> string -> gc_t;
  gc_Flush : gc_t -> gc_t;
  gc_ttl : gc_t -> Z;                       (* its default expiration *)

  gc_ttl_New : forall ttl, gc_ttl (gc_New ttl) = ttl;
  gc_ttl_Set : forall c now k v, gc_ttl (gc_Set c now k v) = gc_ttl c;
  gc_ttl_Delete : forall c k, gc_ttl (gc_Delete c k) = gc_ttl c;
  gc_Get_New : forall ttl t k, gc_Get (gc_New ttl) t k = None;
  gc_Get_Set_live : forall c now t k v,
    0 < gc_ttl c -> now <= t <= now + gc_ttl c ->
    gc_Get (gc_Set c now k v) t k = Some v;
  gc_Get_Set_expired : forall c now t k v,
    0 < gc_ttl c -> now + gc_ttl c < t -> gc_Get (gc_Set c now k v) t k = None;
  gc_Get_Set_other : forall c now t k k' v,
    k <> k' -> gc_Get (gc_Set c now k v) t k' = gc_Get c t k';
  gc_Get_Delete : forall c t k k',
    gc_Get (gc_Delete c k) t k' = if decide (k = k') then None else gc_Get c t k';
  gc_Get_Flush : forall c t k, gc_Get (gc_Flush c) t k = None;
}.
Arguments gc_t V {_}.

(** A cache that keeps each item with its expiration instant: the instance
    the witnesses run on. *)
Section reference.
Context {V : Type}.

Record ref_cache := mkRefCache {
  rc_ttl : Z;
  rc_items : gmap string (V * Z);
}.

Definition rc_get (c : ref_cache) (t : Z) (k : string) : option V :=
  match rc_items c !! k with
  | Some (v, expiration) => if decide (t <= expiration) then Some v else None
  | None => None
  end.

Definition reference_go_cache : GoCache V.
Proof.
  refine {|
    gc_t := ref_cache;
    gc_New := fun ttl => mkRefCache ttl ∅;
    gc_Set := fun c now k v =>
      mkRefCache (rc_ttl c) (<[k := (v, now + rc_ttl c)]> (rc_items c));
    gc_Get := rc_get;
    gc_Delete := fun c k => mkRefCache (rc_ttl c) (delete k (rc_items c));
    gc_Flush := fun c => mkRefCache (rc_ttl c) ∅;
    gc_ttl := rc_ttl;
  |}; unfold rc_get; simpl; try done.
  - intros c now t k v _ Ht. rewrite lookup_insert_eq, decide_True by lia. done.
  - intros c now t k v _ Ht. rewrite lookup_insert_eq, decide_False by lia. done.
  - intros c now t k k' v Hk. by rewrite lookup_insert_ne by done.
  - intros c t k k'. rewrite lookup_delete. by case_decide.
Defined.
End reference.
