(* ===== verification/Caches.v ===== *)
(** * internal/cache and internal/manager/deduper.go

    The order deduplication cache and its wrapper [OrderDeduper], behind the
    interface [DedupCacheInterface] the processors know.  (The caches of market
    data are in MarketCaches.) *)

From Stdlib Require Import ZArith Lia.
From stdpp Require Import gmap strings list.
From S2P Require Import Prelude Float64 GoStrings Models ConcurrentMap GoCache.
Local Open Scope Z_scope.

(** ** Deduplication (cache/dedup_cache.go, cache/interface.go)

    [DedupCacheInterface] is what the order processor relies on: a marked
    order is seen for the whole window, and marking one order changes nothing
    for another.  (An address is hexadecimal and holds no dash.) *)
Class DedupCacheInterface := {
  dd_t : Type;
  dd_IsSeen : dd_t -> Z -> string -> Z -> string -> bool;
  dd_Mark : dd_t -> Z -> string -> Z -> string -> dd_t;
  dd_window : dd_t -> Z;
  dd_window_Mark : forall d now a o r, dd_window (dd_Mark d now a o r) = dd_window d;
  dd_IsSeen_Mark : forall d now t a o r,
    0 < dd_window d -> now <= t <= now + dd_window d ->
    dd_IsSeen (dd_Mark d now a o r) t a o r = true;
  dd_IsSeen_Mark_expired : forall d now t a o r,
    0 < dd_window d -> now + dd_window d < t ->
    dd_IsSeen (dd_Mark d now a o r) t a o r = false;
  dd_IsSeen_Mark_other : forall d now t a o r a' o' r',
    dash_free a -> dash_free a' ->
    (a, o, r) <> (a', o', r') ->
    dd_IsSeen (dd_Mark d now a o r) t a' o' r' = dd_IsSeen d t a' o' r';
}.

Section DedupCache.
Context `{GC : GoCache Z}.   (* the value under a key is the marking instant *)

Record DedupCache := mkDedupCache {
  dc_cache : gc_t Z;
  dc_ttl : Z;
}.

Definition NewDedupCache (ttl : Z) : DedupCache := mkDedupCache (gc_New ttl) ttl.

Definition DedupCache_dedupKey (address : string) (oid : Z) (direction : string) : string :=
  key_s_d_s address oid direction.

Definition DedupCache_IsSeen (c : DedupCache) (now : Z)
    (address : string) (oid : Z) (direction : string) : bool :=
  let key := DedupCache_dedupKey address oid direction in
  match gc_Get (dc_cache c) now key with Some _ => true | None => false end.

Definition DedupCache_Mark (c : DedupCache) (now : Z)
    (address : string) (oid : Z) (direction : string) : DedupCache :=
  let key := DedupCache_dedupKey address oid direction in
  mkDedupCache (gc_Set (dc_cache c) now key now) (dc_ttl c).

(** The [interface{}] argument of [LoadFromDB]: nil, a value that is no
    [OrderAggregationDAO], or one, with its [GetSentOrdersSince]. *)
Inductive dao_arg : Type :=
| DaoNil
| DaoOther
| DaoOrders (GetSentOrdersSince : Z -> list OrderAggregation + string).

Definition DedupCache_LoadFromDB (c : DedupCache) (now : Z) (daoObj : dao_arg)
    : DedupCache * error :=
  match daoObj with
  | DaoNil => (c, Some "dao is nil")
  | DaoOther => (c, Some "invalid dao type")
  | DaoOrders GetSentOrdersSince =>
      let since := now - dc_ttl c in
      match GetSentOrdersSince since with
      | inr err => (c, Some ("get sent orders failed: " +:+ err))
      | inl orders =>
          (fold_left (fun c order =>
             DedupCache_Mark c now (agg_Address order) (agg_Oid order)
               (agg_Direction order)) orders c, nil_error)
      end
  end.

(** The cache keeps its items for [ttl]. *)
Definition DedupCache_wf (c : DedupCache) : Prop :=
  gc_ttl (dc_cache c) = dc_ttl c /\ 0 < dc_ttl c.

Lemma NewDedupCache_wf ttl : 0 < ttl -> DedupCache_wf (NewDedupCache ttl).
Proof. intros ?. split; [apply gc_ttl_New|done]. Qed.

Lemma DedupCache_Mark_wf c now a o r :
  DedupCache_wf c -> DedupCache_wf (DedupCache_Mark c now a o r).
Proof. intros [H1 H2]. split; simpl; [by rewrite gc_ttl_Set|done]. Qed.

Lemma DedupCache_IsSeen_Mark c now t a o r :
  DedupCache_wf c -> now <= t <= now + dc_ttl c ->
  DedupCache_IsSeen (DedupCache_Mark c now a o r) t a o r = true.
Proof.
  intros [H1 H2] Ht. unfold DedupCache_IsSeen. simpl.
  rewrite gc_Get_Set_live; [done|by rewrite H1..].
Qed.

Lemma DedupCache_IsSeen_Mark_expired c now t a o r :
  DedupCache_wf c -> now + dc_ttl c < t ->
  DedupCache_IsSeen (DedupCache_Mark c now a o r) t a o r = false.
Proof.
  intros [H1 H2] Ht. unfold DedupCache_IsSeen. simpl.
  rewrite gc_Get_Set_expired; [done|by rewrite H1..].
Qed.

Lemma DedupCache_IsSeen_Mark_other c now t a o r a' o' r' :
  dash_free a -> dash_free a' ->
  (a, o, r) <> (a', o', r') ->
  DedupCache_IsSeen (DedupCache_Mark c now a o r) t a' o' r' =
  DedupCache_IsSeen c t a' o' r'.
Proof.
  intros Ha Ha' Hne. unfold DedupCache_IsSeen. simpl.
  rewrite gc_Get_Set_other; [done|]. intros E. apply Hne.
  apply key_s_d_s_inj in E as (-> & -> & ->); done.
Qed.

(** Once seen, marking again keeps it seen for the rest of the window. *)
Lemma DedupCache_IsSeen_Mark_any c now t a o r a' o' r' :
  DedupCache_wf c -> dash_free a -> dash_free a' ->
  now <= t <= now + dc_ttl c ->
  DedupCache_IsSeen c t a' o' r' = true ->
  DedupCache_IsSeen (DedupCache_Mark c now a o r) t a' o' r' = true.
Proof.
  intros Hwf Ha Ha' Ht Hs. destruct (decide ((a, o, r) = (a', o', r'))) as [E|Hne].
  - simplify_eq. by apply DedupCache_IsSeen_Mark.
  - by rewrite DedupCache_IsSeen_Mark_other.
Qed.

Lemma DedupCache_Mark_all orders : forall c now t,
  DedupCache_wf c -> now <= t <= now + dc_ttl c ->
  (forall order, order ∈ orders -> dash_free (agg_Address order)) ->
  let c' := fold_left (fun c order =>
    DedupCache_Mark c now (agg_Address order) (agg_Oid order)
      (agg_Direction order)) orders c in
  DedupCache_wf c' /\ dc_ttl c' = dc_ttl c /\
  (forall a o r, dash_free a ->
     DedupCache_IsSeen c t a o r = true -> DedupCache_IsSeen c' t a o r = true) /\
  (forall order, order ∈ orders ->
     DedupCache_IsSeen c' t (agg_Address order) (agg_Oid order)
       (agg_Direction order) = true).
Proof.
  induction orders as [|x orders IH]; intros c now t Hwf Ht Hdash; simpl.
  { split; [done|]. split; [done|]. split; [done|]. intros order Ho. by apply not_elem_of_nil in Ho. }
  assert (dash_free (agg_Address x)) as Hx by (apply Hdash; left).
  pose proof (DedupCache_Mark_wf c now (agg_Address x) (agg_Oid x)
                (agg_Direction x) Hwf) as Hwf'.
  destruct (IH _ now t Hwf' Ht ltac:(intros ??; apply Hdash; by right))
    as (W & T & K & A).
  split; [done|]. split; [done|]. split.
  - intros a o r Ha Hs. apply K; [done|]. by apply DedupCache_IsSeen_Mark_any.
  - intros order [->|Ho]%elem_of_cons; [|by apply A].
    apply K; [done|]. by apply DedupCache_IsSeen_Mark.
Qed.
End DedupCache.
Arguments DedupCache {GC}.

(** ** The wrapper the managers use (manager/deduper.go) *)
Section OrderDeduper.
Context `{GC : GoCache Z}.

Record OrderDeduper := mkOrderDeduper {
  od_cache : DedupCache;
  od_ttl : Z;
}.

Definition NewOrderDeduper (ttl : Z) : OrderDeduper :=
  let ttl := if ttl <=? 0 then 30 * Minute else ttl in
  mkOrderDeduper (NewDedupCache ttl) ttl.

Definition OrderDeduper_IsSeen (d : OrderDeduper) (now : Z)
    (address : string) (oid : Z) (direction : string) : bool :=
  DedupCache_IsSeen (od_cache d) now address oid direction.

Definition OrderDeduper_Mark (d : OrderDeduper) (now : Z)
    (address : string) (oid : Z) (direction : string) : OrderDeduper :=
  mkOrderDeduper (DedupCache_Mark (od_cache d) now address oid direction) (od_ttl d).

Definition OrderDeduper_MarkFromAggregation (d : OrderDeduper) (now : Z)
    (agg : OrderAggregation) : OrderDeduper :=
  OrderDeduper_Mark d now (agg_Address agg) (agg_Oid agg) (agg_Direction agg).

Definition OrderDeduper_LoadFromDB (d : OrderDeduper) (now : Z) (daoOrder : dao_arg)
    : OrderDeduper * error :=
  match daoOrder with
  | DaoNil => (d, Some "dao not initialized")
  | _ => let '(c, err) := DedupCache_LoadFromDB (od_cache d) now daoOrder in
         (mkOrderDeduper c (od_ttl d), err)
  end.

Definition OrderDeduper_wf (d : OrderDeduper) : Prop :=
  DedupCache_wf (od_cache d) /\ dc_ttl (od_cache d) = od_ttl d.

(** Every deduper the constructor builds and the operations lead to. *)
Definition deduper : Type := { d : OrderDeduper | OrderDeduper_wf d }.

Lemma NewOrderDeduper_wf ttl : OrderDeduper_wf (NewOrderDeduper ttl).
Proof.
  unfold NewOrderDeduper. destruct (Z.leb_spec ttl 0);
    (split; [apply NewDedupCache_wf; unfold Minute, Second; lia|done]).
Qed.

Lemma OrderDeduper_Mark_wf d now a o r :
  OrderDeduper_wf d -> OrderDeduper_wf (OrderDeduper_Mark d now a o r).
Proof. intros [? ?]. split; [by apply DedupCache_Mark_wf|done]. Qed.

(** [OrderDeduper] implements the interface. *)
#[export] Program Instance OrderDeduper_interface : DedupCacheInterface := {|
  dd_t := deduper;
  dd_IsSeen := fun d => OrderDeduper_IsSeen (proj1_sig d);
  dd_Mark := fun d now a o r =>
    exist _ (OrderDeduper_Mark (proj1_sig d) now a o r) _;
  dd_window := fun d => od_ttl (proj1_sig d);
|}.
Next Obligation. intros [d Hd] now a o r. by apply OrderDeduper_Mark_wf. Qed.
Next Obligation. done. Qed.
Next Obligation.
  intros [d [Hd E]] now t a o r Hw Ht. simpl in *.
  apply DedupCache_IsSeen_Mark; [done|by rewrite E].
Qed.
Next Obligation.
  intros [d [Hd E]] now t a o r Hw Ht. simpl in *.
  apply DedupCache_IsSeen_Mark_expired; [done|by rewrite E].
Qed.
Next Obligation.
  intros [d Hd] now t a o r a' o' r' ???. by apply DedupCache_IsSeen_Mark_other.
Qed.
End OrderDeduper.
Arguments OrderDeduper {GC}.
Arguments deduper {GC}.

(** Restart recovery: when the database returns the sent orders, every one of
    them is seen by the deduper from the load until the window ends, the
    orders seen before stay seen, and no error is reported. *)
Theorem OrderDeduper_LoadFromDB_recovers `{GC : GoCache Z} d now t get orders :
  OrderDeduper_wf d ->
  get (now - od_ttl d) = inl orders ->
  (forall order, order ∈ orders -> dash_free (agg_Address order)) ->
  now <= t <= now + od_ttl d ->
  let '(d', err) := OrderDeduper_LoadFromDB d now (DaoOrders get) in
  err = nil_error /\ OrderDeduper_wf d' /\
  (forall order, order ∈ orders ->
     OrderDeduper_IsSeen d' t (agg_Address order) (agg_Oid order)
       (agg_Direction order) = true) /\
  (forall a o r, dash_free a ->
     OrderDeduper_IsSeen d t a o r = true -> OrderDeduper_IsSeen d' t a o r = true).
Proof.
  intros [Hwf E] Hget Hdash Ht. unfold OrderDeduper_LoadFromDB, DedupCache_LoadFromDB.
  rewrite E, Hget. rewrite <- E in Ht.
  destruct (DedupCache_Mark_all orders (od_cache d) now t Hwf Ht Hdash)
    as (W & T & K & A).
  split; [done|]. split; [split; simpl; [done|congruence]|]. by split.
Qed.

Definition sent_order : OrderAggregation :=
  mkOrderAggregation 42 "0xab" "Open Long" "BTCUSDC" [] f0 f0 "filled" 0 true 0 0.

Lemma OrderDeduper_LoadFromDB_recovers_witness :
  let GC := reference_go_cache in
  OrderDeduper_IsSeen
    (OrderDeduper_LoadFromDB (NewOrderDeduper 0) (5 * Second)
       (DaoOrders (fun _ => inl [sent_order]))).1
    (6 * Second) "0xab" 42 "Open Long" = true.
Proof.
  intros GC.
  refine (proj1 (proj2 (proj2 (OrderDeduper_LoadFromDB_recovers (GC := GC)
    (NewOrderDeduper 0) (5 * Second) (6 * Second) (fun _ => inl [sent_order])
    [sent_order] _ eq_refl _ _))) sent_order _).
  - apply NewOrderDeduper_wf.
  - intros order [->|Ho]%elem_of_cons; [done|]. by apply not_elem_of_nil in Ho.
  - vm_compute. split; discriminate.
  - left.
Defined.
