(* ===== verification/MarketCaches.v ===== *)
(** * internal/cache: symbols, prices, balances and pair categories

    Each cache is a struct of concurrent maps ([Map], file ConcurrentMap). *)

From Stdlib Require Import ZArith Lia Ascii.
From stdpp Require Import gmap strings list.
From S2P Require Import Prelude Float64 GoStrings Models ConcurrentMap.
Local Open Scope Z_scope.

(** ** Symbols (cache/symbol_cache.go) *)

Record SymbolCache := mkSymbolCache {
  spotNameToSymbol : Map string string;
  spotSymbolToName : Map string string;
  perpNameToSymbol : Map string string;
  perpSymbolToName : Map string string;
}.

Definition NewSymbolCache : SymbolCache :=
  mkSymbolCache Map_zero Map_zero Map_zero Map_zero.

Definition GetSpotSymbol (c : SymbolCache) (assetName : string) : option string :=
  Map_Load (spotNameToSymbol c) assetName.

Definition GetSpotName (c : SymbolCache) (symbol : string) : option string :=
  Map_Load (spotSymbolToName c) symbol.

Definition SetSpotSymbol (c : SymbolCache) (assetName symbol : string) : SymbolCache :=
  mkSymbolCache (Map_Store (spotNameToSymbol c) assetName symbol)
                (Map_Store (spotSymbolToName c) symbol assetName)
                (perpNameToSymbol c) (perpSymbolToName c).

Definition GetPerpSymbol (c : SymbolCache) (assetName : string) : option string :=
  Map_Load (perpNameToSymbol c) assetName.

Definition GetPerpName (c : SymbolCache) (symbol : string) : option string :=
  Map_Load (perpSymbolToName c) symbol.

Definition SetPerpSymbol (c : SymbolCache) (assetName symbol : string) : SymbolCache :=
  mkSymbolCache (spotNameToSymbol c) (spotSymbolToName c)
                (Map_Store (perpNameToSymbol c) assetName symbol)
                (Map_Store (perpSymbolToName c) symbol assetName).

Definition SymbolCache_Stats (c : SymbolCache) : list (string * Z) :=
  [("spot_name_to_symbol_count", Map_Len (spotNameToSymbol c));
   ("spot_symbol_to_name_count", Map_Len (spotSymbolToName c));
   ("perp_name_to_symbol_count", Map_Len (perpNameToSymbol c));
   ("perp_symbol_to_name_count", Map_Len (perpSymbolToName c))].

(** The two directions are coherent: a symbol a name maps to is indexed, and
    the name it is indexed to is one that was mapped. *)
Definition SymbolCache_wf (c : SymbolCache) : Prop :=
  (forall n s, GetSpotSymbol c n = Some s -> is_Some (GetSpotName c s)) /\
  (forall s n, GetSpotName c s = Some n -> is_Some (GetSpotSymbol c n)) /\
  (forall n s, GetPerpSymbol c n = Some s -> is_Some (GetPerpName c s)) /\
  (forall s n, GetPerpName c s = Some n -> is_Some (GetPerpSymbol c n)).

Lemma NewSymbolCache_wf : SymbolCache_wf NewSymbolCache.
Proof. split_and!; by intros ??. Qed.

Lemma Store_pair_coherent (f g : Map string string) a b :
  (forall x y, Map_Load f x = Some y -> is_Some (Map_Load g y)) ->
  forall x y, Map_Load (Map_Store f a b) x = Some y ->
    is_Some (Map_Load (Map_Store g b a) y).
Proof.
  intros Hfg x y. rewrite !Map_Load_Store.
  repeat case_decide; intros ?; simplify_eq; [eauto..|]. by apply (Hfg x).
Qed.

Lemma SetSpotSymbol_wf c n s : SymbolCache_wf c -> SymbolCache_wf (SetSpotSymbol c n s).
Proof.
  intros (H1 & H2 & H3 & H4).
  split; [|split; [|split]]; try done; by apply Store_pair_coherent.
Qed.

Lemma SetPerpSymbol_wf c n s : SymbolCache_wf c -> SymbolCache_wf (SetPerpSymbol c n s).
Proof.
  intros (H1 & H2 & H3 & H4).
  split; [|split; [|split]]; try done; by apply Store_pair_coherent.
Qed.

#[export] Hint Resolve NewSymbolCache_wf SetSpotSymbol_wf SetPerpSymbol_wf : hlm.

(** Both lookups return what the last [SetSpotSymbol] or [SetPerpSymbol] stored,
    whatever was in the cache; entries of other names and symbols and the other
    market are untouched. *)
Theorem SymbolCache_roundtrip c n s :
  let c1 := SetSpotSymbol c n s in
  let c2 := SetPerpSymbol c n s in
  (GetSpotSymbol c1 n = Some s /\ GetSpotName c1 s = Some n) /\
  (GetPerpSymbol c2 n = Some s /\ GetPerpName c2 s = Some n) /\
  (forall n', n' <> n -> GetSpotSymbol c1 n' = GetSpotSymbol c n') /\
  (forall s', s' <> s -> GetSpotName c1 s' = GetSpotName c s') /\
  (forall x, GetPerpSymbol c1 x = GetPerpSymbol c x /\
             GetPerpName c1 x = GetPerpName c x /\
             GetSpotSymbol c2 x = GetSpotSymbol c x /\
             GetSpotName c2 x = GetSpotName c x).
Proof.
  unfold GetSpotSymbol, GetSpotName, GetPerpSymbol, GetPerpName. simpl.
  rewrite !Map_Load_Store, !decide_True by done.
  repeat split; intros; rewrite Map_Load_Store, decide_False by done; done.
Qed.

(** ** Prices (cache/price_cache.go) *)

Record PriceCache := mkPriceCache {
  spotCache : Map string float64;
  perpCache : Map string float64;
}.

Definition NewPriceCache : PriceCache := mkPriceCache Map_zero Map_zero.

Definition GetSpotPrice (c : PriceCache) (assetName : string) : option float64 :=
  Map_Load (spotCache c) assetName.

Definition SetSpotPrice (c : PriceCache) (assetName : string) (price : float64) : PriceCache :=
  mkPriceCache (Map_Store (spotCache c) assetName price) (perpCache c).

Definition GetPerpPrice (c : PriceCache) (assetName : string) : option float64 :=
  Map_Load (perpCache c) assetName.

Definition SetPerpPrice (c : PriceCache) (assetName : string) (price : float64) : PriceCache :=
  mkPriceCache (spotCache c) (Map_Store (perpCache c) assetName price).

Definition PriceCache_Stats (c : PriceCache) : list (string * Z) :=
  [("spot_count", Map_Len (spotCache c)); ("perp_count", Map_Len (perpCache c))].

(** ** Balances and positions (cache/position_cache.go)

    The two item caches hold pointers to slices: [None] is a nil pointer,
    whose dereference panics. *)

Record PositionBalanceCache := mkPositionBalanceCache {
  spotTotals : Map string float64;
  accountValues : Map string float64;
  spotBalances : Map string (option (list SpotBalanceItem));
  futuresPositions : Map string (option (list PositionItem));
}.

Definition NewPositionBalanceCache : PositionBalanceCache :=
  mkPositionBalanceCache Map_zero Map_zero Map_zero Map_zero.

Definition PositionBalanceCache_Set (c : PositionBalanceCache) (address : string)
    (spotTotal accountValue : float64)
    (balances : option (list SpotBalanceItem))
    (positions : option (list PositionItem)) : PositionBalanceCache :=
  mkPositionBalanceCache (Map_Store (spotTotals c) address spotTotal)
                         (Map_Store (accountValues c) address accountValue)
                         (Map_Store (spotBalances c) address balances)
                         (Map_Store (futuresPositions c) address positions).

Definition GetSpotTotal (c : PositionBalanceCache) (address : string) : option float64 :=
  Map_Load (spotTotals c) address.

Definition GetAccountValue (c : PositionBalanceCache) (address : string) : option float64 :=
  Map_Load (accountValues c) address.

Section position_lookup.
Context `{Cast}.

(** The loops over the items return at the first with the coin asked for. *)
Definition GetSpotBalance (c : PositionBalanceCache) (address coin : string)
    : outcome (option float64) :=
  match Map_Load (spotBalances c) address with
  | None => Ret None
  | Some None => Panic
  | Some (Some data) =>
      Ret (match list_find (fun balance => sbi_Coin balance = coin) data with
           | Some (_, balance) => Some (ToFloat64 (sbi_Total balance))
           | None => None
           end)
  end.

Definition GetFuturesPosition (c : PositionBalanceCache) (address coin : string)
    : outcome (option float64) :=
  match Map_Load (futuresPositions c) address with
  | None => Ret None
  | Some None => Panic
  | Some (Some data) =>
      Ret (match list_find (fun position => pi_Coin position = coin) data with
           | Some (_, position) => Some (ToFloat64 (pi_Szi position))
           | None => None
           end)
  end.
End position_lookup.

Definition PositionBalanceCache_Delete (c : PositionBalanceCache) (address : string)
    : PositionBalanceCache :=
  mkPositionBalanceCache (Map_Delete (spotTotals c) address)
                         (Map_Delete (accountValues c) address)
                         (Map_Delete (spotBalances c) address)
                         (Map_Delete (futuresPositions c) address).

(** The four maps know the same addresses, and hold no nil pointer: what every
    cache filled by the position manager satisfies. *)
Definition PositionBalanceCache_wf (c : PositionBalanceCache) : Prop :=
  forall a,
    (is_Some (GetSpotTotal c a) <-> is_Some (GetAccountValue c a)) /\
    (is_Some (GetSpotTotal c a) <-> is_Some (Map_Load (spotBalances c) a)) /\
    (is_Some (GetSpotTotal c a) <-> is_Some (Map_Load (futuresPositions c) a)) /\
    Map_Load (spotBalances c) a <> Some None /\
    Map_Load (futuresPositions c) a <> Some None.

Lemma NewPositionBalanceCache_wf : PositionBalanceCache_wf NewPositionBalanceCache.
Proof.
  intros a. unfold GetSpotTotal, GetAccountValue, Map_Load. simpl.
  rewrite !lookup_empty. naive_solver.
Qed.

Lemma PositionBalanceCache_Set_wf c a st av b p :
  PositionBalanceCache_wf c -> PositionBalanceCache_wf (PositionBalanceCache_Set c a st av (Some b) (Some p)).
Proof.
  intros Hc a'. specialize (Hc a').
  unfold GetSpotTotal, GetAccountValue, PositionBalanceCache_Set in *. simpl in *.
  rewrite !Map_Load_Store. case_decide; [|done]. naive_solver.
Qed.

Lemma PositionBalanceCache_Delete_wf c a :
  PositionBalanceCache_wf c -> PositionBalanceCache_wf (PositionBalanceCache_Delete c a).
Proof.
  intros Hc a'. specialize (Hc a').
  unfold GetSpotTotal, GetAccountValue, PositionBalanceCache_Delete in *. simpl in *.
  rewrite !Map_Load_Delete. case_decide; [|done]. naive_solver.
Qed.

#[export] Hint Resolve NewPositionBalanceCache_wf PositionBalanceCache_Set_wf
  PositionBalanceCache_Delete_wf : hlm.

(** What the lookups give after a [Set]. *)
Lemma GetSpotTotal_Set c a st av b p a' :
  GetSpotTotal (PositionBalanceCache_Set c a st av b p) a' =
  if decide (a = a') then Some st else GetSpotTotal c a'.
Proof. apply Map_Load_Store. Qed.

Lemma GetAccountValue_Set c a st av b p a' :
  GetAccountValue (PositionBalanceCache_Set c a st av b p) a' =
  if decide (a = a') then Some av else GetAccountValue c a'.
Proof. apply Map_Load_Store. Qed.

Lemma GetSpotBalance_Set `{Cast} c a st av items p coin :
  GetSpotBalance (PositionBalanceCache_Set c a st av (Some items) p) a coin =
  Ret ((fun i => ToFloat64 (sbi_Total i.2)) <$>
         list_find (fun item => sbi_Coin item = coin) items).
Proof.
  unfold GetSpotBalance, PositionBalanceCache_Set. simpl.
  rewrite Map_Load_Store, decide_True by done. by destruct (list_find _ items) as [[]|].
Qed.

Lemma GetFuturesPosition_Set `{Cast} c a st av b items coin :
  GetFuturesPosition (PositionBalanceCache_Set c a st av b (Some items)) a coin =
  Ret ((fun i => ToFloat64 (pi_Szi i.2)) <$>
         list_find (fun item => pi_Coin item = coin) items).
Proof.
  unfold GetFuturesPosition, PositionBalanceCache_Set. simpl.
  rewrite Map_Load_Store, decide_True by done. by destruct (list_find _ items) as [[]|].
Qed.

Lemma GetSpotBalance_Set_other `{Cast} c a st av b p a' coin : a' <> a ->
  GetSpotBalance (PositionBalanceCache_Set c a st av b p) a' coin = GetSpotBalance c a' coin.
Proof.
  intros Ha. unfold GetSpotBalance, PositionBalanceCache_Set. simpl.
  by rewrite Map_Load_Store, decide_False.
Qed.

Lemma GetFuturesPosition_Set_other `{Cast} c a st av b p a' coin : a' <> a ->
  GetFuturesPosition (PositionBalanceCache_Set c a st av b p) a' coin = GetFuturesPosition c a' coin.
Proof.
  intros Ha. unfold GetFuturesPosition, PositionBalanceCache_Set. simpl.
  by rewrite Map_Load_Store, decide_False.
Qed.

(** The lookups of a well-formed cache do not panic. *)
Lemma GetSpotBalance_total `{Cast} c a coin :
  PositionBalanceCache_wf c -> exists o, GetSpotBalance c a coin = Ret o.
Proof.
  intros Hc. destruct (Hc a) as (_ & _ & _ & Hn & _). unfold GetSpotBalance.
  destruct (Map_Load (spotBalances c) a) as [[l|]|]; naive_solver.
Qed.

Lemma GetFuturesPosition_total `{Cast} c a coin :
  PositionBalanceCache_wf c -> exists o, GetFuturesPosition c a coin = Ret o.
Proof.
  intros Hc. destruct (Hc a) as (_ & _ & _ & _ & Hn). unfold GetFuturesPosition.
  destruct (Map_Load (futuresPositions c) a) as [[l|]|]; naive_solver.
Qed.

(** ** Pair categories (cache/pair_category_cache.go) *)

(** [map[string]uint8] behind the struct's pointer. *)
Record PairCategoryCache := mkPairCategoryCache {
  pcc_data : Map string Z;
}.

Definition NewPairCategoryCache : PairCategoryCache := mkPairCategoryCache Map_zero.

Definition coin_suffixes : list string := ["USDT"; "USDC"; "USD"; "USDH"].

Fixpoint strip_first_suffix (symbol : string) (suffixes : list string) : string :=
  match suffixes with
  | [] => symbol
  | suffix :: suffixes =>
      if has_suffix symbol suffix then trim_suffix symbol suffix
      else strip_first_suffix symbol suffixes
  end.

Definition extractCoin (symbol : string) : string :=
  strip_first_suffix (to_upper symbol) coin_suffixes.

Definition GetCoinType (c : PairCategoryCache) (symbol : string) : string :=
  let coin := extractCoin symbol in
  let category := default 0 (Map_Load (pcc_data c) coin) in
  if decide (category = 1) then "A"
  else if decide (category = 2) then "B"
  else if decide (category = 3 \/ category = 4) then "C"
  else if decide (category = 5) then "D"
  else "D".

(** [Load] with what [dao.PairConfig().ListAll()] returned; the reader of the
    table returns the rows in the order the database lists them. *)
Definition PairCategoryCache_Load (c : PairCategoryCache)
    (ListAll : list PairConfig + string) : PairCategoryCache * error :=
  match ListAll with
  | inr err => (c, Some err)
  | inl configs =>
      (fold_left (fun c cfg =>
         if decide (cfg_Symbol cfg <> EmptyString)
         then mkPairCategoryCache (Map_Store (pcc_data c) (cfg_Symbol cfg) (cfg_Category cfg))
         else c) configs c, nil_error)
  end.

(** [Start]: a load, then one per tick; a failed one is only logged. *)
Definition PairCategoryCache_Start (c : PairCategoryCache) (answers : list (list PairConfig + string))
    : PairCategoryCache := fold_left (fun c a => (PairCategoryCache_Load c a).1) answers c.

Lemma ascii_to_upper_idem a : ascii_to_upper (ascii_to_upper a) = ascii_to_upper a.
Proof. destruct a as [[] [] [] [] [] [] [] []]; reflexivity. Qed.

Lemma to_upper_idem s : to_upper (to_upper s) = to_upper s.
Proof. induction s as [|a s IH]; simpl; [done|]. by rewrite ascii_to_upper_idem, IH. Qed.

Lemma to_upper_append s t : to_upper (s +:+ t) = to_upper s +:+ to_upper t.
Proof. induction s as [|a s IH]; simpl; [done|]. by rewrite !append_cons, <- IH. Qed.

(** At most one of the quote currencies is a suffix: their last letters differ. *)
Lemma strip_coin_suffix s quote :
  quote ∈ coin_suffixes -> strip_first_suffix (s +:+ quote) coin_suffixes = s.
Proof.
  intros Hq. unfold coin_suffixes in Hq.
  repeat (apply elem_of_cons in Hq as [->|Hq]); [..|by apply not_elem_of_nil in Hq];
    unfold coin_suffixes; cbn [strip_first_suffix];
    repeat match goal with
    | |- context [has_suffix (s +:+ ?t) ?t] => rewrite (has_suffix_app s t)
    | |- context [has_suffix (s +:+ ?t) ?u] =>
        rewrite (has_suffix_last (s +:+ t) u) by
          (try done; rewrite last_ascii_append by done; done)
    end; apply trim_suffix_app.
Qed.

Lemma to_upper_suffix quote : quote ∈ coin_suffixes -> to_upper quote = quote.
Proof.
  intros Hq. repeat (apply elem_of_cons in Hq as [->|Hq]; [reflexivity|]).
  by apply not_elem_of_nil in Hq.
Qed.

Definition coin_type_of_category (category : Z) : string :=
  nth (Z.to_nat category) ["D"; "A"; "B"; "C"; "C"; "D"] "D".

(** The coin type of a symbol that is a coin name followed by one of the quote
    currencies is the one configured for the upper-cased coin, whatever the
    case of the symbol, and D for a coin that is not configured. *)
Theorem GetCoinType_spec c coin quote :
  quote ∈ coin_suffixes ->
  (forall category, Map_Load (pcc_data c) (to_upper coin) = Some category ->
     0 <= category <= 255 ->
     GetCoinType c (coin +:+ quote) = coin_type_of_category category) /\
  (Map_Load (pcc_data c) (to_upper coin) = None -> GetCoinType c (coin +:+ quote) = "D").
Proof.
  intros Hq.
  assert (extractCoin (coin +:+ quote) = to_upper coin) as E.
  { unfold extractCoin. rewrite to_upper_append.
    rewrite (to_upper_suffix _ Hq). by apply strip_coin_suffix. }
  unfold GetCoinType. rewrite E. split.
  - intros category -> Hr. simpl. unfold coin_type_of_category.
    repeat case_decide; try (subst; done).
    + destruct H1 as [-> | ->]; done.
    + assert (5 < Z.to_nat category \/ Z.to_nat category = 0)%nat as [Hc| ->] by lia; [|done].
      rewrite nth_overflow; [done|simpl; lia].
  - by intros ->.
Qed.

Definition one_pair : PairCategoryCache := mkPairCategoryCache (Map_Store Map_zero "BTC" 1).

Lemma GetCoinType_spec_witness : GetCoinType one_pair "btcUSDH" = "A".
Proof.
  refine (proj1 (GetCoinType_spec one_pair "btc" "USDH" _) 1 eq_refl _).
  - unfold coin_suffixes. do 3 right. left.
  - split; discriminate.
Defined.
