(* ===== verification/BatchWriter.v ===== *)
(** * internal/processor/batch_writer.go

    The batched database writer: a bounded queue filled by [Add], a receive
    goroutine that moves items to a buffer keyed by [DedupKey] (a newer item
    replaces an older one), and a ticker goroutine that flushes the buffer to
    the database.  Operations are state passing; what reaches the database is
    the list of upserts they return.  In the runs of this file ([bw_exec]) and of
    the files that use [flushAll], a flush is one step; the code's goroutines
    come in between its steps, and WriterSteps has them do so.

    An order aggregation is written by reference: the item holds the pointer,
    with the fields [Oid], [Address] and [Direction], which no code assigns
    after the record is built, so that its key can be read. *)

From Stdlib Require Import ZArith Lia.
From stdpp Require Import gmap strings list pretty.
From S2P Require Import Prelude GoStrings Models ConcurrentMap.
Local Open Scope Z_scope.

(** A [*models.OrderAggregation]. *)
Record AggRef := mkAggRef {
  ref_loc : loc;
  ref_Oid : Z;
  ref_Address : string;
  ref_Direction : string;
}.

#[export] Instance AggRef_eq_dec : EqDecision AggRef.
Proof. solve_decision. Defined.

(** The two implementations of the interface [BatchItem]. *)
Inductive BatchItem : Type :=
| PositionCacheItem (Address : string) (Cache : HlPositionCache)
| OrderAggregationItem (Aggregation : AggRef).

#[export] Instance BatchItem_eq_dec : EqDecision BatchItem.
Proof. solve_decision. Defined.

Definition TableName (i : BatchItem) : string :=
  match i with
  | PositionCacheItem _ _ => "hl_position_cache"
  | OrderAggregationItem _ => "hl_order_aggregation"
  end.

Definition DedupKey (i : BatchItem) : string :=
  match i with
  | PositionCacheItem Address _ => "pc:" +:+ Address
  | OrderAggregationItem agg =>
      "oa:" +:+ pretty (ref_Oid agg) +:+ ":" +:+ ref_Address agg +:+ ":" +:+
      ref_Direction agg
  end.

Record BatchWriterConfig := mkBatchWriterConfig {
  BatchSize : Z;
  FlushInterval : Z;
  MaxQueueSize : Z;
}.

Record BatchWriter := mkBatchWriter {
  bw_config : BatchWriterConfig;
  bw_queue : list BatchItem;
  bw_buffers : Map string BatchItem;
}.

(** The [error] values of the file. *)
Definition ErrQueueFull : error := Some "message queue full".
Definition ErrShutdownTimeout : error := Some "shutdown timeout".

Definition NewBatchWriter (config : option BatchWriterConfig) : BatchWriter :=
  let config := default (mkBatchWriterConfig 0 0 0) config in
  mkBatchWriter
    (mkBatchWriterConfig
       (if BatchSize config <=? 0 then 100 else BatchSize config)
       (if FlushInterval config <=? 0 then 2 * Second else FlushInterval config)
       (if MaxQueueSize config <=? 0 then 10000 else MaxQueueSize config))
    [] Map_zero.

(** A send on the full channel takes the default case. *)
Definition BatchWriter_Add (w : BatchWriter) (item : BatchItem) : BatchWriter * error :=
  if Z.of_nat (length (bw_queue w)) <? MaxQueueSize (bw_config w)
  then (mkBatchWriter (bw_config w) (bw_queue w ++ [item]) (bw_buffers w), nil_error)
  else (w, ErrQueueFull).

(** ** Database calls *)

(** The two calls of the DAO layer a flush makes. *)
Inductive DaoCall : Type :=
| BatchUpsertPositionCache (caches : list HlPositionCache)
| BatchUpsert (aggs : list AggRef).

(** What [batchUpsert] did for one table: the items of the table, the call it
    made if any, and the error it returned. *)
Record Upsert := mkUpsert {
  up_table : string;
  up_items : list BatchItem;
  up_call : option DaoCall;
  up_err : error;
}.

Section flushing.
Context `{MapRange}.
(** The database's answer to a call. *)
Context (dao : DaoCall -> error).

Definition batchUpsertPositions (items : list BatchItem) : option DaoCall * error :=
  let caches := omap (fun item => match item with
    | PositionCacheItem _ c => Some c | _ => None end) items in
  match caches with
  | [] => (None, nil_error)
  | _ => (Some (BatchUpsertPositionCache caches), dao (BatchUpsertPositionCache caches))
  end.

Definition batchUpsertOrderAggregations (items : list BatchItem) : option DaoCall * error :=
  let aggs := omap (fun item => match item with
    | OrderAggregationItem a => Some a | _ => None end) items in
  match aggs with
  | [] => (None, nil_error)
  | _ => (Some (BatchUpsert aggs), dao (BatchUpsert aggs))
  end.

Definition batchUpsert (table : string) (items : list BatchItem) : Upsert :=
  if decide (table = "hl_position_cache") then
    let '(call, err) := batchUpsertPositions items in mkUpsert table items call err
  else if decide (table = "hl_order_aggregation") then
    let '(call, err) := batchUpsertOrderAggregations items in mkUpsert table items call err
  else mkUpsert table items None nil_error.

(** The closure of the [Range] over the buffers: items grouped by table, and
    the keys to delete. *)
Definition group_item (tables : list string)
    (s : gmap string (list BatchItem) * list string) (key : string) (item : BatchItem)
    : (gmap string (list BatchItem) * list string) * bool :=
  let '(grouped, keysToDelete) := s in
  let table := TableName item in
  if decide (table ∈ tables)
  then ((group_push grouped table item, keysToDelete ++ [key]), true)
  else ((grouped, keysToDelete), true).

(** [flush] up to its database calls: the upserts and the keys it will delete. *)
Definition flush_collect (w : BatchWriter) (tables : list string)
    : list Upsert * list string :=
  let '(grouped, keysToDelete) :=
    Map_Range (bw_buffers w) (group_item tables) (∅, []) in
  (map (fun '(table, items) => batchUpsert table items) (go_range grouped),
   keysToDelete).

(** The last loop of [flush]. *)
Definition flush_delete (w : BatchWriter) (keysToDelete : list string) : BatchWriter :=
  mkBatchWriter (bw_config w) (bw_queue w)
    (fold_left Map_Delete keysToDelete (bw_buffers w)).

Definition flush (w : BatchWriter) (tables : list string) : BatchWriter * list Upsert :=
  if decide (tables = []) then (w, [])
  else let '(upserts, keysToDelete) := flush_collect w tables in
       (flush_delete w keysToDelete, upserts).

Definition tableList : list string := ["hl_position_cache"; "hl_order_aggregation"].

Definition flushAll (w : BatchWriter) : BatchWriter * list Upsert := flush w tableList.

(** ** The goroutines *)

Definition store_item (w : BatchWriter) (q : list BatchItem) (item : BatchItem) : BatchWriter :=
  mkBatchWriter (bw_config w) q (Map_Store (bw_buffers w) (DedupKey item) item).

(** One round of [receiveLoop] that receives an item. *)
Definition receive (w : BatchWriter) : BatchWriter * list Upsert :=
  match bw_queue w with
  | [] => (w, [])
  | item :: q =>
      let w' := store_item w q item in
      if BatchSize (bw_config w) <=? Map_Len (bw_buffers w') then flushAll w' else (w', [])
  end.

(** One round of its last loop, after [done] is closed: no size check. *)
Definition drain_one (w : BatchWriter) : BatchWriter :=
  match bw_queue w with
  | [] => w
  | item :: q => store_item w q item
  end.

Definition drain (n : nat) (w : BatchWriter) : BatchWriter := Nat.iter n drain_one w.

(** [Stop]: both goroutines see [done] closed; [flushLoop] flushes once more, after
    [receiveLoop] has drained [n] of the items left; then [Stop] flushes. *)
Definition BatchWriter_Stop (n : nat) (w : BatchWriter) : BatchWriter * list Upsert :=
  let w1 := drain n w in
  let '(w2, log2) := flushAll w1 in
  let w3 := drain (length (bw_queue w2)) w2 in
  let '(w4, log4) := flushAll w3 in
  (w4, log2 ++ log4).

(** [GracefulShutdown]: [Stop] finished before the timer, or the timer fired when
    [Stop] had drained [n] items, and the buffer is flushed once. *)
Definition GracefulShutdown (finished : bool) (n : nat) (w : BatchWriter)
    : BatchWriter * list Upsert * error :=
  if finished then (BatchWriter_Stop n w, nil_error)
  else (flushAll (drain n w), ErrShutdownTimeout).

(** A run: producers add, the receive loop receives, the ticker flushes. *)
Inductive bw_event : Type :=
| EvAdd (item : BatchItem)
| EvReceive
| EvTick.

(** The state of a run: the writer, the upserts so far, and the items that
    [Add] accepted. *)
Record bw_run := mkRun {
  run_w : BatchWriter;
  run_log : list Upsert;
  run_accepted : list BatchItem;
}.

Definition bw_exec (r : bw_run) (e : bw_event) : bw_run :=
  match e with
  | EvAdd item =>
      match BatchWriter_Add (run_w r) item with
      | (w, None) => mkRun w (run_log r) (run_accepted r ++ [item])
      | (w, Some _) => mkRun w (run_log r) (run_accepted r)
      end
  | EvReceive => let '(w, log) := receive (run_w r) in
                 mkRun w (run_log r ++ log) (run_accepted r)
  | EvTick => let '(w, log) := flushAll (run_w r) in
              mkRun w (run_log r ++ log) (run_accepted r)
  end.

Definition run_from (w : BatchWriter) (evs : list bw_event) : bw_run :=
  fold_left bw_exec evs (mkRun w [] []).
End flushing.

(** ** What a flush writes *)

Section flush_facts.
Context `{MapRange}.

Lemma TableName_listed i : TableName i ∈ tableList.
Proof. unfold tableList. destruct i; simpl; set_solver. Qed.

Definition group_fold (tables : list string) s (l : list (string * BatchItem)) :=
  range_list (group_item tables) s l.

(** When every table is listed, the closure keeps every item and key. *)
Lemma group_fold_all l : forall g ks,
  groups_of TableName g ->
  let '(g', ks') := group_fold tableList (g, ks) l in
  ks' = ks ++ l.*1 /\
  concat (map_to_list g').*2 ≡ₚ concat (map_to_list g).*2 ++ l.*2 /\
  groups_of TableName g'.
Proof.
  unfold group_fold. induction l as [|[k i] l IH]; intros g ks Hg; simpl.
  { by rewrite !app_nil_r. }
  rewrite decide_True by apply TableName_listed. simpl.
  specialize (IH (group_push g (TableName i) i)
                 (ks ++ [k]) (groups_of_push TableName g i Hg)).
  destruct (range_list _ _ l) as [g' ks']. destruct IH as (IH1 & IH2 & IH3).
  split_and!; [by rewrite IH1, <- app_assoc| |done].
  by rewrite IH2, concat_group_push, <- app_assoc.
Qed.

Lemma Map_wf_fold_delete (ks : list string) (m : Map string BatchItem) :
  Map_wf m -> Map_wf (fold_left Map_Delete ks m).
Proof. intros Hm. apply fold_left_inv; eauto with hlm. Qed.

Lemma batchUpsert_items dao t items : up_items (batchUpsert dao t items) = items.
Proof.
  unfold batchUpsert. repeat case_decide; simpl; try done.
  - by destruct (batchUpsertPositions dao items).
  - by destruct (batchUpsertOrderAggregations dao items).
Qed.

(** The items a list of upserts carries. *)
Definition written (log : list Upsert) : list BatchItem := concat (map up_items log).

Lemma written_app l1 l2 : written (l1 ++ l2) = written l1 ++ written l2.
Proof. unfold written. by rewrite map_app, concat_app. Qed.

(** The call an upsert makes carries all its items: none is dropped by the type
    assertions, and an upsert of no item would be the only one without a call. *)
Definition upsert_ok (dao : DaoCall -> error) (u : Upsert) : Prop :=
  up_items u <> [] /\
  ((exists addrs caches,
      up_items u = zip_with PositionCacheItem addrs caches /\
      length addrs = length caches /\
      up_call u = Some (BatchUpsertPositionCache caches) /\
      up_err u = dao (BatchUpsertPositionCache caches)) \/
   (exists aggs,
      up_items u = map OrderAggregationItem aggs /\
      up_call u = Some (BatchUpsert aggs) /\
      up_err u = dao (BatchUpsert aggs))).

Lemma positions_of_items items :
  Forall (fun i => TableName i = "hl_position_cache") items ->
  exists addrs caches, length addrs = length caches /\
    items = zip_with PositionCacheItem addrs caches /\
    omap (fun item => match item with
      | PositionCacheItem _ c => Some c | _ => None end) items = caches.
Proof.
  induction 1 as [|i items Hi _ (addrs & caches & Hl & -> & IH)].
  { by exists [], []. }
  destruct i as [a c|]; [|done]. exists (a :: addrs), (c :: caches).
  csimpl. by rewrite IH, Hl.
Qed.

Lemma orders_of_items items :
  Forall (fun i => TableName i = "hl_order_aggregation") items ->
  exists aggs, items = map OrderAggregationItem aggs /\
    omap (fun item => match item with
      | OrderAggregationItem a => Some a | _ => None end) items = aggs.
Proof.
  induction 1 as [|i items Hi _ (aggs & -> & IH)]; [by exists []|].
  destruct i as [|a]; [done|]. exists (a :: aggs). csimpl. by rewrite IH.
Qed.

Lemma batchUpsert_ok dao t items :
  items <> [] -> Forall (fun i => TableName i = t) items -> t ∈ tableList ->
  upsert_ok dao (batchUpsert dao t items).
Proof.
  intros Hne Ht Hin. split; [by rewrite batchUpsert_items|].
  unfold tableList in Hin.
  apply elem_of_cons in Hin as [->|Hin]; [left|right; apply list_elem_of_singleton in Hin as ->].
  - destruct (positions_of_items items Ht) as (addrs & caches & Hl & -> & E).
    exists addrs, caches. unfold batchUpsert, batchUpsertPositions.
    rewrite decide_True, E by done. by destruct caches; [destruct addrs|].
  - destruct (orders_of_items items Ht) as (aggs & -> & E).
    exists aggs. unfold batchUpsert, batchUpsertOrderAggregations.
    rewrite decide_False, decide_True, E by done. by destruct aggs.
Qed.

(** [flushAll] in one statement: every buffered item is written, once, by a
    call that carries it; nothing else is written; the buffer ends empty. *)
Lemma flushAll_spec dao w :
  let '(w', log) := flushAll dao w in
  written log ≡ₚ (map_to_list (map_data (bw_buffers w))).*2 /\
  Forall (upsert_ok dao) log /\
  map_data (bw_buffers w') = ∅ /\
  bw_queue w' = bw_queue w /\ bw_config w' = bw_config w /\
  (Map_wf (bw_buffers w) -> Map_wf (bw_buffers w')).
Proof.
  unfold flushAll, flush. rewrite decide_False by done.
  unfold flush_collect, Map_Range.
  pose proof (group_fold_all (go_range (map_data (bw_buffers w))) ∅ []
                (groups_of_empty _)) as Hg.
  unfold group_fold in Hg.
  destruct (range_list _ _ _) as [g ks]. destruct Hg as (-> & Hitems & Hok).
  rewrite map_to_list_empty in Hitems. simpl in Hitems.
  split_and!; try done.
  - unfold written. rewrite map_map.
    rewrite (map_ext _ snd) by (intros [t items]; apply batchUpsert_items).
    transitivity (concat (map_to_list g).*2); [|by rewrite Hitems, go_range_perm].
    apply Permutation_concat. by rewrite go_range_perm.
  - apply Forall_map, Forall_forall. intros [t items] Hin%elem_of_go_range.
    destruct (Hok _ _ Hin) as [Hne Ht].
    apply batchUpsert_ok; [done..|].
    destruct items as [|i items]; [done|]. apply Forall_inv in Ht as <-.
    apply TableName_listed.
  - simpl. apply map_eq. intros k. rewrite Map_data_Delete_list, lookup_empty.
    case_decide as Hk; [done|].
    destruct (map_data (bw_buffers w) !! k) as [i|] eqn:E; [|done].
    destruct Hk. apply list_elem_of_fmap. exists (k, i).
    split; [done|]. by apply elem_of_go_range.
  - simpl. apply Map_wf_fold_delete.
Qed.
End flush_facts.

(** ** Last write wins

    The specification of the writer is the last accepted item of each key.  A
    run keeps this view of it: what is still queued, else what is buffered,
    else what was written. *)
Definition last_with (k : string) (l : list BatchItem) : option BatchItem :=
  last (filter (fun i => DedupKey i = k) l).

Lemma last_with_app k l1 l2 : last_with k (l1 ++ l2) = or_else (last_with k l2) (last_with k l1).
Proof. unfold last_with, or_else. by rewrite filter_app, last_app. Qed.

Lemma last_with_singleton k i :
  last_with k [i] = if decide (DedupKey i = k) then Some i else None.
Proof. unfold last_with. rewrite filter_cons. by case_decide. Qed.

Definition keyed (m : gmap string BatchItem) : Prop :=
  forall k i, m !! k = Some i -> DedupKey i = k.

Lemma filter_other_keys (m : gmap string BatchItem) k :
  keyed m -> m !! k = None -> filter (fun i => DedupKey i = k) (map_to_list m).*2 = [].
Proof.
  intros Hm Hk. apply elem_of_nil_inv. intros i.
  intros [Hi ([k' i'] & -> & Hin%elem_of_map_to_list)%list_elem_of_fmap]%list_elem_of_filter.
  simpl in Hi. apply Hm in Hin as Hk'. congruence.
Qed.

Lemma last_with_values m l k :
  keyed m -> l ≡ₚ (map_to_list m).*2 -> last_with k l = m !! k.
Proof.
  intros Hm Hl. unfold last_with.
  assert (filter (fun i => DedupKey i = k) l ≡ₚ
          filter (fun i => DedupKey i = k) (map_to_list m).*2) as Hf by by rewrite Hl.
  destruct (m !! k) as [i|] eqn:E.
  - rewrite <- (map_to_list_delete m k i E) in Hf. csimpl in Hf.
    rewrite filter_cons_True in Hf by (by apply Hm).
    rewrite filter_other_keys in Hf.
    + by apply Permutation_singleton_r in Hf as ->.
    + intros k' i' [_ ?]%lookup_delete_Some. by apply Hm.
    + apply lookup_delete_eq.
  - rewrite filter_other_keys in Hf by done.
    by apply Permutation_nil_r in Hf as ->.
Qed.

Lemma keyed_insert m i : keyed m -> keyed (<[DedupKey i := i]> m).
Proof.
  intros Hm k j. destruct (decide (DedupKey i = k)) as [<-|Hne]; intros; simplify_map_eq; eauto.
Qed.

Lemma keyed_empty : keyed ∅.
Proof. intros k i. by rewrite lookup_empty. Qed.

#[export] Hint Resolve keyed_insert keyed_empty : hlm.

Section runs.
Context `{MapRange}.
Context (dao : DaoCall -> error).

Definition view (w : BatchWriter) (log : list Upsert) (k : string) : option BatchItem :=
  or_else (last_with k (bw_queue w))
    (or_else (map_data (bw_buffers w) !! k) (last_with k (written log))).

(** The writer together with the upserts so far. *)
Definition logged (x : BatchWriter * list Upsert) (log : list Upsert)
    : BatchWriter * list Upsert := (x.1, log ++ x.2).

Lemma flushAll_view w log :
  keyed (map_data (bw_buffers w)) ->
  let '(w', log') := logged (flushAll dao w) log in
  keyed (map_data (bw_buffers w')) /\ forall k, view w' log' k = view w log k.
Proof.
  intros Hk. pose proof (flushAll_spec dao w) as Hf.
  destruct (flushAll dao w) as [w' l]. destruct Hf as (Hw & _ & Hb & Hq & _ & _).
  simpl. rewrite Hb. split; [apply keyed_empty|]. intros k.
  unfold view. rewrite Hb, Hq, lookup_empty, written_app, last_with_app.
  by rewrite (last_with_values _ _ k Hk Hw).
Qed.

Lemma store_item_view w q item log :
  bw_queue w = item :: q -> keyed (map_data (bw_buffers w)) ->
  keyed (map_data (bw_buffers (store_item w q item))) /\
  forall k, view (store_item w q item) log k = view w log k.
Proof.
  intros Hq Hk. simpl. rewrite Map_data_Store. split; [auto with hlm|]. intros k.
  unfold view. simpl. rewrite Map_data_Store, Hq, lookup_insert.
  change (item :: q) with ([item] ++ q). rewrite last_with_app, last_with_singleton.
  by destruct (last_with k q), (decide (DedupKey item = k)).
Qed.

Lemma receive_view w log :
  keyed (map_data (bw_buffers w)) ->
  let '(w', log') := logged (receive dao w) log in
  keyed (map_data (bw_buffers w')) /\ forall k, view w' log' k = view w log k.
Proof.
  intros Hk. unfold receive. destruct (bw_queue w) as [|item q] eqn:Hq; simpl.
  { by rewrite app_nil_r. }
  destruct (store_item_view w q item log Hq Hk) as [Hk' Hv].
  destruct (_ <=? _); simpl; [|by rewrite app_nil_r].
  pose proof (flushAll_view (store_item w q item) log Hk') as Hf.
  destruct (logged _ log) as [w' log'] eqn:E. unfold logged in E. simplify_eq/=.
  destruct Hf as [Hf1 Hf2]. split; [done|]. intros k. by rewrite Hf2.
Qed.

Lemma drain_view n : forall w log,
  keyed (map_data (bw_buffers w)) ->
  keyed (map_data (bw_buffers (drain n w))) /\
  forall k, view (drain n w) log k = view w log k.
Proof.
  induction n as [|n IH]; intros w log Hk; [done|].
  unfold drain in *. rewrite Nat.iter_succ.
  destruct (IH w log Hk) as [Hk' Hv]. set (w' := Nat.iter n drain_one w) in *.
  unfold drain_one. destruct (bw_queue w') as [|item q] eqn:Hq; [by split|].
  destruct (store_item_view w' q item log Hq Hk') as [Hk2 Hv2].
  split; [done|]. intros k. by rewrite Hv2.
Qed.

Lemma drain_one_queue w : bw_queue (drain_one w) = drop 1 (bw_queue w).
Proof. unfold drain_one. destruct (bw_queue w) as [|? q] eqn:E; simpl; [done|by rewrite drop_0]. Qed.

Lemma drain_queue n w : bw_queue (drain n w) = drop n (bw_queue w).
Proof.
  unfold drain. induction n as [|n IH]; [done|].
  rewrite Nat.iter_succ, drain_one_queue, IH, drop_drop. f_equal. lia.
Qed.

(** What holds in every run: the view, the bounds, and that every upsert is a
    call carrying its items. *)
Record run_ok (r : bw_run) : Prop := {
  ok_keyed : keyed (map_data (bw_buffers (run_w r)));
  ok_view : forall k, view (run_w r) (run_log r) k = last_with k (run_accepted r);
  ok_calls : Forall (upsert_ok dao) (run_log r);
  ok_wf : Map_wf (bw_buffers (run_w r));
  ok_queue : Z.of_nat (length (bw_queue (run_w r))) <= MaxQueueSize (bw_config (run_w r));
  ok_batch : Map_Len (bw_buffers (run_w r)) < BatchSize (bw_config (run_w r));
  ok_size : 0 < BatchSize (bw_config (run_w r));
}.

Lemma Map_Len_empty (m : Map string BatchItem) :
  Map_wf m -> map_data m = ∅ -> Map_Len m = 0.
Proof. unfold Map_wf, Map_Len. intros -> ->. by rewrite map_size_empty. Qed.

Lemma run_ok_new cfg : run_ok (mkRun (NewBatchWriter cfg) [] []).
Proof.
  assert (0 < BatchSize (bw_config (NewBatchWriter cfg)) /\
          0 < MaxQueueSize (bw_config (NewBatchWriter cfg))) as [HB HM].
  { unfold NewBatchWriter. simpl. split; case_match; lia. }
  constructor; simpl in *; try done; try lia; apply keyed_empty.
Qed.

Lemma run_ok_tick r : run_ok r -> run_ok (bw_exec dao r EvTick).
Proof.
  intros [Hk Hv Hc Hw Hq Hb Hs]. simpl.
  pose proof (flushAll_spec dao (run_w r)) as Hf.
  pose proof (flushAll_view (run_w r) (run_log r) Hk) as Hfv.
  destruct (flushAll dao (run_w r)) as [w log]. simpl in *.
  destruct Hf as (_ & Hok & He & Hq' & Hc' & Hw'), Hfv as [Hk' Hv'].
  constructor; simpl; try done.
  - intros k. by rewrite Hv'.
  - by apply Forall_app.
  - by apply Hw'.
  - by rewrite Hq', Hc'.
  - rewrite Map_Len_empty, Hc' by auto. lia.
  - by rewrite Hc'.
Qed.

Lemma run_ok_receive r : run_ok r -> run_ok (bw_exec dao r EvReceive).
Proof.
  intros [Hk Hv Hc Hw Hq Hb Hs]. cbn [bw_exec].
  pose proof (receive_view (run_w r) (run_log r) Hk) as Hrv. unfold receive, logged in *.
  destruct (bw_queue (run_w r)) as [|item q] eqn:Hqi; cbn [fst snd] in *.
  { rewrite app_nil_r. destruct r as [w log acc]; simpl in *. constructor; simpl; auto.
    rewrite Hqi. simpl. lia. }
  set (w' := store_item (run_w r) q item) in *.
  assert (Map_wf (bw_buffers w')) as Hw' by (apply Map_Store_wf; done).
  assert (bw_config w' = bw_config (run_w r)) as Hc' by done.
  assert (bw_queue w' = q) as Hq' by done.
  cbn [length] in *.
  destruct (Z.leb_spec (BatchSize (bw_config (run_w r))) (Map_Len (bw_buffers w')))
    as [Hle|Hlt]; cbn [fst snd length] in *.
  - pose proof (flushAll_spec dao w') as Hf.
    destruct (flushAll dao w') as [w2 log2]. cbn [fst snd] in *.
    destruct Hf as (_ & Hok & He & Hq2 & Hc2 & Hw2), Hrv as [Hk2 Hv2].
    constructor; simpl; rewrite ?Hq2, ?Hc2, ?Hq', ?Hc'; try done; auto.
    + intros k. by rewrite Hv2.
    + by apply Forall_app.
    + lia.
    + rewrite Map_Len_empty by auto. lia.
  - rewrite !app_nil_r in *. destruct Hrv as [Hk2 Hv2].
    constructor; simpl; try done.
    + intros k. by rewrite Hv2.
    + lia.
Qed.

Lemma run_ok_add r item : run_ok r -> run_ok (bw_exec dao r (EvAdd item)).
Proof.
  intros [Hk Hv Hc Hw Hq Hb Hs]. simpl. unfold BatchWriter_Add.
  destruct (Z.ltb_spec (Z.of_nat (length (bw_queue (run_w r))))
              (MaxQueueSize (bw_config (run_w r)))) as [Hlt|Hge]; simpl;
    [|by destruct r; constructor].
  constructor; simpl; try done.
  - intros k. unfold view in *. simpl. rewrite !last_with_app, <- Hv.
    by destruct (last_with k [item]).
  - rewrite length_app. simpl. lia.
Qed.

Lemma run_ok_run cfg evs : run_ok (run_from dao (NewBatchWriter cfg) evs).
Proof.
  unfold run_from. apply fold_left_inv; [apply run_ok_new|].
  intros r [item| |] _ Hr;
    auto using run_ok_add, run_ok_receive, run_ok_tick.
Qed.

Lemma Stop_spec n w log :
  keyed (map_data (bw_buffers w)) ->
  let '(w', log') := logged (BatchWriter_Stop dao n w) log in
  bw_queue w' = [] /\ map_data (bw_buffers w') = ∅ /\
  forall k, last_with k (written log') = view w log k.
Proof.
  intros Hk. unfold BatchWriter_Stop, logged.
  destruct (drain_view n w log Hk) as [Hk1 Hv1].
  set (w1 := drain n w) in *.
  pose proof (flushAll_view w1 log Hk1) as Hf.
  destruct (flushAll dao w1) as [w2 log2]. simpl in Hf. destruct Hf as [Hk2 Hv2].
  destruct (drain_view (length (bw_queue w2)) w2 (log ++ log2) Hk2) as [Hk3 Hv3].
  pose proof (drain_queue (length (bw_queue w2)) w2) as Hq3.
  rewrite drop_all in Hq3. set (w3 := drain (length (bw_queue w2)) w2) in *.
  pose proof (flushAll_view w3 (log ++ log2) Hk3) as Hf4.
  pose proof (flushAll_spec dao w3) as Hs4.
  destruct (flushAll dao w3) as [w4 log4]. simpl in *.
  destruct Hf4 as [Hk4 Hv4], Hs4 as (_ & _ & Hb4 & Hq4 & _).
  rewrite <- app_assoc in Hv4.
  split_and!; [by rewrite Hq4|done|]. intros k.
  rewrite <- Hv1, <- Hv2, <- Hv3, <- Hv4. unfold view.
  by rewrite Hq4, Hq3, Hb4, lookup_empty.
Qed.
End runs.

(** Last write wins when each flush is one step: whatever producers, receive
    loop and ticker did before, and wherever [Stop] finds the receive loop, [Stop] leaves nothing
    queued or buffered, and for every key the last item handed to the
    database is the last item [Add] accepted for it; every upsert before
    [Stop] is one database call that carries all its items. *)
Theorem BatchWriter_last_write_wins `{MapRange} dao cfg evs n :
  let r := run_from dao (NewBatchWriter cfg) evs in
  let '(w', log') := BatchWriter_Stop dao n (run_w r) in
  bw_queue w' = [] /\ map_data (bw_buffers w') = ∅ /\
  Forall (upsert_ok dao) (run_log r) /\
  forall k, last_with k (written (run_log r ++ log')) = last_with k (run_accepted r).
Proof.
  intros r. destruct (run_ok_run dao cfg evs) as [Hk Hv Hc _ _ _ _].
  pose proof (Stop_spec dao n (run_w r) (run_log r) Hk) as Hs. unfold logged in Hs.
  destruct (BatchWriter_Stop dao n (run_w r)) as [w' log'].
  destruct Hs as (Hq & Hb & Hl). split_and!; try done.
  intros k. by rewrite Hl, Hv.
Qed.

(** Bounds of every run whose flushes are one step: the queue never exceeds
    [MaxQueueSize], fewer than [BatchSize] keys stay buffered between two
    steps, and [Add] is refused with [ErrQueueFull], changing nothing, exactly
    when the queue is full. *)
Theorem BatchWriter_bounded `{MapRange} dao cfg evs :
  let w := run_w (run_from dao (NewBatchWriter cfg) evs) in
  let size := Z.of_nat (length (bw_queue w)) in
  size <= MaxQueueSize (bw_config w) /\
  Z.of_nat (base.size (map_data (bw_buffers w))) < BatchSize (bw_config w) /\
  forall item,
    (size = MaxQueueSize (bw_config w) -> BatchWriter_Add w item = (w, ErrQueueFull)) /\
    (size < MaxQueueSize (bw_config w) ->
       let '(w', err) := BatchWriter_Add w item in
       err = nil_error /\ bw_queue w' = bw_queue w ++ [item]).
Proof.
  intros w size. destruct (run_ok_run dao cfg evs) as [_ _ _ Hw Hq Hb _].
  fold w in Hw, Hq, Hb. unfold Map_Len in Hb. rewrite Hw in Hb.
  split_and!; try done. intros item. unfold BatchWriter_Add. fold size.
  split; intros Hs.
  - by rewrite (proj2 (Z.ltb_ge _ _)) by lia.
  - by rewrite (proj2 (Z.ltb_lt _ _)) by lia.
Qed.

(** A flush forgets what it could not write: the state [flushAll] leaves
    does not depend on what the database answered, and holds no item. *)
Theorem flushAll_ignores_errors `{MapRange} dao dao' w :
  (flushAll dao w).1 = (flushAll dao' w).1 /\
  map_data (bw_buffers (flushAll dao w).1) = ∅.
Proof.
  pose proof (flushAll_spec dao w) as Hf. split.
  - unfold flushAll, flush, flush_collect. rewrite !decide_False by done.
    by destruct (Map_Range _ _ _).
  - destruct (flushAll dao w) as [w' log]. by destruct Hf as (_ & _ & He & _).
Qed.

(** The flush is not atomic with the receive loop: an item that replaces a
    buffered one of the same key after the flush collected the buffer is
    deleted by the flush without being written. *)
Theorem flush_loses_concurrent_update `{MapRange} dao w old new q :
  keyed (map_data (bw_buffers w)) ->
  map_data (bw_buffers w) !! DedupKey new = Some old -> old <> new ->
  bw_queue w = new :: q ->
  let '(upserts, keysToDelete) := flush_collect dao w tableList in
  let w' := flush_delete (store_item w q new) keysToDelete in
  Map_Load (bw_buffers w') (DedupKey new) = None /\
  bw_queue w' = q /\ new ∉ written upserts.
Proof.
  intros Hk Hold Hne Hq.
  pose proof (flushAll_spec dao w) as Hf.
  unfold flushAll, flush in Hf. rewrite decide_False in Hf by done.
  destruct (flush_collect dao w tableList) as [upserts ks].
  destruct Hf as (Hw & _ & He & _).
  split_and!; [|done|].
  - unfold Map_Load, flush_delete in *. simpl in *.
    rewrite Map_data_Delete_list. case_decide as Hin; [done|].
    pose proof (f_equal (.!! DedupKey new) He) as Hd. simpl in Hd.
    by rewrite Map_data_Delete_list, decide_False, Hold in Hd.
  - rewrite Hw. intros ([k i] & E & Hin%elem_of_map_to_list)%list_elem_of_fmap.
    simpl in E. subst i. pose proof (Hk _ _ Hin) as <-. congruence.
Qed.

Definition position_row (value : string) : HlPositionCache :=
  mkHlPositionCache "0xab" "[]" "0.000000" "[]" value "0" "0" "0" 1.

Definition writer_mid_flush : BatchWriter :=
  mkBatchWriter (bw_config (NewBatchWriter None))
    [PositionCacheItem "0xab" (position_row "2")]
    (Map_Store Map_zero "pc:0xab" (PositionCacheItem "0xab" (position_row "1"))).

Lemma flush_loses_concurrent_update_witness :
  let MR := listing_order in
  PositionCacheItem "0xab" (position_row "2")
    ∉ written (flush_collect (fun _ => nil_error) writer_mid_flush tableList).1.
Proof.
  intros MR.
  pose proof (flush_loses_concurrent_update (fun _ => nil_error) writer_mid_flush
    (PositionCacheItem "0xab" (position_row "1"))
    (PositionCacheItem "0xab" (position_row "2")) []) as Hl.
  assert (keyed (map_data (bw_buffers writer_mid_flush))) as Hk.
  { simpl. change "pc:0xab" with
      (DedupKey (PositionCacheItem "0xab" (position_row "1"))).
    apply keyed_insert, keyed_empty. }
  specialize (Hl Hk eq_refl ltac:(discriminate) eq_refl).
  destruct (flush_collect _ _ _) as [upserts ks]. by destruct Hl as (_ & _ & Hn).
Defined.
