(* ===== verification/WriterSteps.v ===== *)
(** * The goroutines of the batch writer, step by step

    internal/processor/batch_writer.go again, with the receive loop, the flush
    loop, [Stop] and the flush that [GracefulShutdown] forces after its timeout
    as four goroutines.  A flush visits the buffers key by key, makes one upsert
    at a time and deletes one key at a time; whatever the other goroutines and
    the producers do comes in between.  What stays one step is a method of the
    buffers' map (ConcurrentMap takes those apart; the visit of a key by [Range]
    is one), an operation on a channel, or a call of the database.  This file has
    the steps and what every step preserves; WriterStop draws the conclusions. *)

From Stdlib Require Import ZArith Lia.
From stdpp Require Import gmap strings list pretty.
From S2P Require Import Prelude GoStrings Models ConcurrentMap BatchWriter.
Local Open Scope Z_scope.

(** ** Goroutines *)

Inductive goroutine : Type := Receiver | Ticker | Stopper | Forcer.

#[export] Instance goroutine_eq_dec : EqDecision goroutine.
Proof. solve_decision. Defined.

(** A flush under way: its [Range] over the buffers, with the keys of the start
    it has not visited and which are still there; or its loops over the tables
    and then over the keys to delete. *)
Inductive flush_state : Type :=
| Collecting (todo : list string) (grouped : gmap string (list BatchItem)) (keysToDelete : list string)
| Upserting (todo : list (string * list BatchItem)) (keysToDelete : list string).

Definition flush_keys (fl : flush_state) : list string :=
  match fl with Collecting _ _ ks | Upserting _ ks => ks end.

(** The items a flush has collected and not handed to the database yet. *)
Definition flush_items (fl : flush_state) : list BatchItem :=
  match fl with
  | Collecting _ grouped _ => concat (map_to_list grouped).*2
  | Upserting todo _ => concat todo.*2
  end.

(** [RLoop]: at the [select]; [RHold]: it has received an item and not stored
    it; [RCheck]: before the test of [Len]; [RDrain], [RDrainHold]: the same in
    its last loop. *)
Inductive receiver : Type :=
| RLoop | RHold (item : BatchItem) | RCheck | RFlushing
| RDrain | RDrainHold (item : BatchItem) | RDone.
(** [TLast]: in the flush it makes after [done] is closed. *)
Inductive ticker : Type := TLoop | TFlushing | TLast | TDone.
(** [SWaiting]: in [wg.Wait]. *)
Inductive stopper : Type := SIdle | SWaiting | SFlushing | SDone.
(** [GracefulShutdown] after its timer. *)
Inductive forcer : Type := FIdle | FFlushing | FDone.

Record writer_run := mkWriterRun {
  wr_w : BatchWriter;
  wr_done : bool;                              (* w.done is closed *)
  wr_receiver : receiver;
  wr_ticker : ticker;
  wr_stopper : stopper;
  wr_forcer : forcer;
  wr_flush : goroutine -> option flush_state;
  wr_log : list Upsert;
  wr_accepted : list BatchItem;                (* by Add *)
}.

Definition with_w w r : writer_run :=
  mkWriterRun w (wr_done r) (wr_receiver r) (wr_ticker r) (wr_stopper r) (wr_forcer r) (wr_flush r)
    (wr_log r) (wr_accepted r).
Definition with_done r : writer_run :=
  mkWriterRun (wr_w r) true (wr_receiver r) (wr_ticker r) (wr_stopper r) (wr_forcer r) (wr_flush r)
    (wr_log r) (wr_accepted r).
Definition with_receiver p r : writer_run :=
  mkWriterRun (wr_w r) (wr_done r) p (wr_ticker r) (wr_stopper r) (wr_forcer r) (wr_flush r)
    (wr_log r) (wr_accepted r).
Definition with_ticker p r : writer_run :=
  mkWriterRun (wr_w r) (wr_done r) (wr_receiver r) p (wr_stopper r) (wr_forcer r) (wr_flush r)
    (wr_log r) (wr_accepted r).
Definition with_stopper p r : writer_run :=
  mkWriterRun (wr_w r) (wr_done r) (wr_receiver r) (wr_ticker r) p (wr_forcer r) (wr_flush r)
    (wr_log r) (wr_accepted r).
Definition with_forcer p r : writer_run :=
  mkWriterRun (wr_w r) (wr_done r) (wr_receiver r) (wr_ticker r) (wr_stopper r) p (wr_flush r)
    (wr_log r) (wr_accepted r).
Definition with_flushes f r : writer_run :=
  mkWriterRun (wr_w r) (wr_done r) (wr_receiver r) (wr_ticker r) (wr_stopper r) (wr_forcer r) f
    (wr_log r) (wr_accepted r).
Definition with_flush (g : goroutine) (o : option flush_state) r : writer_run :=
  with_flushes (fun h => if decide (h = g) then o else wr_flush r h) r.
Definition with_upsert u r : writer_run :=
  mkWriterRun (wr_w r) (wr_done r) (wr_receiver r) (wr_ticker r) (wr_stopper r) (wr_forcer r) (wr_flush r)
    (wr_log r ++ [u]) (wr_accepted r).
Definition with_accepted items r : writer_run :=
  mkWriterRun (wr_w r) (wr_done r) (wr_receiver r) (wr_ticker r) (wr_stopper r) (wr_forcer r) (wr_flush r)
    (wr_log r) (wr_accepted r ++ items).

(** [NewBatchWriter] and [Start]. *)
Definition wr_start (cfg : option BatchWriterConfig) : writer_run :=
  mkWriterRun (NewBatchWriter cfg) false RLoop TLoop SIdle FIdle (fun _ => None) [] [].

(** ** Steps *)

Definition buffered (r : writer_run) : gmap string BatchItem := map_data (bw_buffers (wr_w r)).

(** [w.flushAll()], up to the first key. *)
Definition start_flush (g : goroutine) (r : writer_run) : writer_run :=
  with_flush g (Some (Collecting (map_to_list (buffered r)).*1 ∅ [])) r.

(** After its last deletion. *)
Definition end_flush (g : goroutine) (r : writer_run) : writer_run :=
  let r := with_flush g None r in
  match g with
  | Receiver => with_receiver RLoop r
  | Ticker => with_ticker (match wr_ticker r with TLast => TDone | _ => TLoop end) r
  | Stopper => with_stopper SDone r
  | Forcer => with_forcer FDone r
  end.

(** A [Range] need not visit a key that was deleted since it began. *)
Definition forget (k : string) (fl : flush_state) : flush_state :=
  match fl with
  | Collecting todo grouped ks => Collecting (filter (fun k' => k' <> k) todo) grouped ks
  | Upserting _ _ => fl
  end.

Definition take_item (r : writer_run) (q : list BatchItem) : writer_run :=
  with_w (mkBatchWriter (bw_config (wr_w r)) q (bw_buffers (wr_w r))) r.
Definition put_item (r : writer_run) (item : BatchItem) : writer_run :=
  with_w (store_item (wr_w r) (bw_queue (wr_w r)) item) r.
Definition delete_key (k : string) (r : writer_run) : writer_run :=
  with_flushes (fun h => forget k <$> wr_flush r h) (with_w (flush_delete (wr_w r) [k]) r).

Inductive writer_event : Type :=
| WAdd (item : BatchItem)                      (* a producer *)
| WTake | WStore | WCheck | WSeeDone           (* the receive loop *)
| WTick | WTickerDone                          (* the flush loop *)
| WStop | WJoined                              (* Stop *)
| WForce                                       (* GracefulShutdown's timer *)
| WVisit (g : goroutine) (k : string)          (* a flush: the Range *)
| WCollected (g : goroutine)
| WUpsert (g : goroutine) (dao : DaoCall -> error)
| WDelete (g : goroutine).                     (* the next deletion, or the end *)

Section steps.
Context `{MapRange}.

Definition take_step (r : writer_run) : option writer_run :=
  match wr_receiver r, bw_queue (wr_w r) with
  | RLoop, item :: q => Some (with_receiver (RHold item) (take_item r q))
  | RDrain, item :: q => Some (with_receiver (RDrainHold item) (take_item r q))
  | RDrain, [] => Some (with_receiver RDone r)
  | _, _ => None
  end.

Definition store_step (r : writer_run) : option writer_run :=
  match wr_receiver r with
  | RHold item => Some (with_receiver RCheck (put_item r item))
  | RDrainHold item => Some (with_receiver RDrain (put_item r item))
  | _ => None
  end.

Definition check_step (r : writer_run) : option writer_run :=
  match wr_receiver r with
  | RCheck =>
      if BatchSize (bw_config (wr_w r)) <=? Map_Len (bw_buffers (wr_w r))
      then Some (start_flush Receiver (with_receiver RFlushing r))
      else Some (with_receiver RLoop r)
  | _ => None
  end.

Definition flush_step (g : goroutine) (e : writer_event) (r : writer_run) : option writer_run :=
  match wr_flush r g, e with
  | Some (Collecting todo grouped ks), WVisit _ k =>
      if decide (k ∈ ks) then None
      else
        item ← Map_Load (bw_buffers (wr_w r)) k;
        let '(s, _) := group_item tableList (grouped, ks) k item in
        Some (with_flush g (Some (Collecting (filter (fun k' => k' <> k) todo) s.1 s.2)) r)
  | Some (Collecting [] grouped ks), WCollected _ =>
      Some (with_flush g (Some (Upserting (go_range grouped) ks)) r)
  | Some (Upserting ((table, items) :: todo) ks), WUpsert _ dao =>
      Some (with_upsert (batchUpsert dao table items) (with_flush g (Some (Upserting todo ks)) r))
  | Some (Upserting [] (k :: ks)), WDelete _ =>
      Some (delete_key k (with_flush g (Some (Upserting [] ks)) r))
  | Some (Upserting [] []), WDelete _ => Some (end_flush g r)
  | _, _ => None
  end.

Definition wr_exec (r : writer_run) (e : writer_event) : option writer_run :=
  match e with
  | WAdd item =>
      let '(w, err) := BatchWriter_Add (wr_w r) item in
      Some (with_accepted (match err with None => [item] | Some _ => [] end) (with_w w r))
  | WTake => take_step r
  | WStore => store_step r
  | WCheck => check_step r
  | WSeeDone =>
      match wr_receiver r with
      | RLoop => if wr_done r then Some (with_receiver RDrain r) else None
      | _ => None
      end
  | WTick =>
      match wr_ticker r with
      | TLoop => Some (start_flush Ticker (with_ticker TFlushing r))
      | _ => None
      end
  | WTickerDone =>
      match wr_ticker r with
      | TLoop => if wr_done r then Some (start_flush Ticker (with_ticker TLast r)) else None
      | _ => None
      end
  | WStop =>
      match wr_stopper r with SIdle => Some (with_done (with_stopper SWaiting r)) | _ => None end
  | WJoined =>
      match wr_stopper r, wr_receiver r, wr_ticker r with
      | SWaiting, RDone, TDone => Some (start_flush Stopper (with_stopper SFlushing r))
      | _, _, _ => None
      end
  | WForce =>
      match wr_stopper r, wr_forcer r with
      | SIdle, _ => None
      | _, FIdle => Some (start_flush Forcer (with_forcer FFlushing r))
      | _, _ => None
      end
  | WVisit g _ | WCollected g | WUpsert g _ | WDelete g => flush_step g e r
  end.

Definition wr_exec_all (r : writer_run) (evs : list writer_event) : option writer_run :=
  fold_left (fun o e => r ← o; wr_exec r e) evs (Some r).

(** What the goroutines of the writer do by themselves, once [Stop] is called. *)
Definition own_step (e : writer_event) : Prop :=
  match e with WAdd _ | WTick | WStop | WForce => False | _ => True end.
End steps.

(** ** The invariant *)
Section invariant.
Context `{MapRange}.
Implicit Types r : writer_run.

Definition table_group (e : string * list BatchItem) : Prop :=
  e.2 <> [] /\ Forall (fun i => TableName i = e.1) e.2 /\ e.1 ∈ tableList.

(** Each key is collected once, with the item of its table's group. *)
Definition flush_ok (fl : flush_state) : Prop :=
  NoDup (DedupKey <$> flush_items fl) /\
  (forall i, i ∈ flush_items fl -> DedupKey i ∈ flush_keys fl) /\
  match fl with
  | Collecting _ grouped _ => groups_of TableName grouped
  | Upserting todo _ => Forall table_group todo
  end.

(** A flush that nothing is stored during leaves no entry. *)
Definition covers (fl : flush_state) (m : gmap string BatchItem) : Prop :=
  forall k, is_Some (m !! k) ->
    k ∈ flush_keys fl \/ match fl with Collecting todo _ _ => k ∈ todo | Upserting _ _ => False end.

(** The keys a [Range] has still to visit are there. *)
Definition visitable (fl : flush_state) (m : gmap string BatchItem) : Prop :=
  match fl with
  | Collecting todo _ ks => forall k, k ∈ todo -> is_Some (m !! k) /\ k ∉ ks
  | Upserting _ _ => True
  end.

Definition receiver_bound r : Prop :=
  let n := Map_Len (bw_buffers (wr_w r)) in
  let b := BatchSize (bw_config (wr_w r)) in
  match wr_receiver r with
  | RLoop | RHold _ => n < b
  | RCheck | RFlushing => n <= b
  | _ => True
  end.

(** Which goroutine is in a flush. *)
Definition flushing r (g : goroutine) : Prop :=
  match g with
  | Receiver => wr_receiver r = RFlushing
  | Ticker => wr_ticker r = TFlushing \/ wr_ticker r = TLast
  | Stopper => wr_stopper r = SFlushing
  | Forcer => wr_forcer r = FFlushing
  end.

Definition stopped_ok r : Prop :=
  match wr_stopper r with
  | SIdle => True
  | SWaiting => wr_done r = true
  | SFlushing => wr_done r = true /\ wr_receiver r = RDone /\ wr_ticker r = TDone
  | SDone => wr_receiver r = RDone /\ wr_ticker r = TDone /\ buffered r = ∅
  end.

Record writer_ok r : Prop := {
  wo_keyed : keyed (buffered r);
  wo_wf : Map_wf (bw_buffers (wr_w r));
  wo_queue : Z.of_nat (length (bw_queue (wr_w r))) <= MaxQueueSize (bw_config (wr_w r));
  wo_size : 0 < BatchSize (bw_config (wr_w r));
  wo_bound : receiver_bound r;
  wo_flush : forall g fl, wr_flush r g = Some fl -> flush_ok fl;
  wo_flushing : forall g, flushing r g <-> is_Some (wr_flush r g);
  wo_covers : forall g fl, g = Receiver \/ g = Stopper -> wr_flush r g = Some fl -> covers fl (buffered r);
  wo_todo : forall g fl, wr_flush r g = Some fl -> visitable fl (buffered r);
  wo_stopped : stopped_ok r;
  wo_log : Forall (fun u => exists dao, upsert_ok dao u) (wr_log r);
}.

(** *** One key *)

Definition held r : list BatchItem :=
  match wr_receiver r with RHold item | RDrainHold item => [item] | _ => [] end.

(** Where the last accepted item of a key is: in the queue, in the receive
    loop's hand, in the buffers, or else the last handed to the database. *)
Definition latest r (k : string) : option BatchItem :=
  or_else (last_with k (bw_queue (wr_w r)))
    (or_else (last_with k (held r))
       (or_else (buffered r !! k) (last_with k (written (wr_log r))))).

(** What a flush that holds a key knows of it: the item it collected is still
    in the buffers, or another flush has written and deleted it; and once the
    flush has written it too, it is the last written. *)
Definition key_held (k : string) (fl : flush_state) (b w : option BatchItem) : Prop :=
  exists i,
    (i ∈ flush_items fl /\ DedupKey i = k /\ (b = Some i \/ b = None /\ w = Some i)) \/
    ((forall j, j ∈ flush_items fl -> DedupKey j <> k) /\ w = Some i /\ (b = Some i \/ b = None)).

Record key_ok (k : string) r : Prop := {
  ko_latest : latest r k = last_with k (wr_accepted r);
  ko_held : forall g fl, wr_flush r g = Some fl -> k ∈ flush_keys fl ->
    key_held k fl (buffered r !! k) (last_with k (written (wr_log r)));
}.

(** No item of the key is stored while a flush holds the key, that is between
    the visit of the key and its deletion. *)
Definition calm_step (k : string) r (e : writer_event) : Prop :=
  match e with
  | WStore => forall item, item ∈ held r -> DedupKey item = k ->
      forall g fl, wr_flush r g = Some fl -> k ∉ flush_keys fl
  | _ => True
  end.

Fixpoint calm (k : string) r (evs : list writer_event) : Prop :=
  match evs with
  | [] => True
  | e :: evs => calm_step k r e /\
      match wr_exec r e with Some r' => calm k r' evs | None => True end
  end.

(** ** Preservation *)

Lemma last_with_in k l i : NoDup (DedupKey <$> l) -> i ∈ l -> DedupKey i = k -> last_with k l = Some i.
Proof.
  intros Hd Hin <-. apply list_elem_of_split in Hin as (l1 & l2 & ->).
  rewrite fmap_app, fmap_cons in Hd. apply NoDup_app in Hd as (_ & _ & Hd). apply NoDup_cons in Hd as [Hn _].
  rewrite last_with_app. change (i :: l2) with ([i] ++ l2).
  rewrite last_with_app, last_with_singleton, decide_True by done.
  destruct (last_with (DedupKey i) l2) as [j|] eqn:E; [|done].
  exfalso. unfold last_with in E. apply last_Some_elem_of, list_elem_of_filter in E as [Ej Hj].
  apply Hn. rewrite <- Ej. by apply list_elem_of_fmap_2.
Qed.

Lemma last_with_none k l : (forall j, j ∈ l -> DedupKey j <> k) -> last_with k l = None.
Proof.
  intros Hn. unfold last_with. destruct (last _) as [j|] eqn:E; [|done].
  apply last_Some_elem_of, list_elem_of_filter in E as [Ej Hj]. by destruct (Hn j Hj).
Qed.

Lemma item_of_key k (l : list BatchItem) :
  (exists i, i ∈ l /\ DedupKey i = k) \/ (forall j, j ∈ l -> DedupKey j <> k).
Proof.
  destruct (decide (Exists (fun i => DedupKey i = k) l)) as [He|Hn].
  - left. by apply Exists_exists in He.
  - right. intros j Hj E. apply Hn, Exists_exists. by exists j.
Qed.

Lemma with_flush_cases g o r h fl : wr_flush (with_flush g o r) h = Some fl ->
  h = g /\ o = Some fl \/ h <> g /\ wr_flush r h = Some fl.
Proof. simpl. case_decide; auto. Qed.

(** Starting a flush, with the goroutine at its new place. *)
Lemma start_flush_ok g r0 r : writer_ok r0 ->
  wr_w r = wr_w r0 -> wr_log r = wr_log r0 -> wr_flush r = wr_flush r0 ->
  receiver_bound r -> stopped_ok r -> flushing r g ->
  (forall h, h <> g -> flushing r h <-> flushing r0 h) ->
  writer_ok (start_flush g r).
Proof.
  intros [Hk Hwf Hq Hs Hb Hf Hfl Hc Htd Hst Hl] Ew El Ef Hb' Hst' Hg Hothers.
  unfold buffered in *. rewrite <- Ew in *. rewrite <- El in *. rewrite <- Ef in *.
  constructor; try done.
  - intros h fl [[-> [= <-]]|[_ Hh]]%with_flush_cases; [|by apply (Hf h)].
    split; [|split; [|apply groups_of_empty]]; cbn [flush_items flush_keys];
      rewrite map_to_list_empty; [apply NoDup_nil_2|by intros i ?%not_elem_of_nil].
  - intros h. destruct (decide (h = g)) as [->|Hne].
    + cbn. rewrite decide_True by done. split; [by eauto|]. intros _. by destruct g.
    + cbn. rewrite decide_False by done. rewrite <- Hfl, <- Hothers by done. by destruct h.
  - intros h fl Hh [[-> [= <-]]|[_ Hhf]]%with_flush_cases; [|by apply (Hc h)].
    intros k [i Hi]. right. apply list_elem_of_fmap. exists (k, i).
    split; [done|]. by apply elem_of_map_to_list.
  - intros h fl [[-> [= <-]]|[_ Hh]]%with_flush_cases; [|by apply (Htd h)].
    intros k ([k' i] & -> & Hi%elem_of_map_to_list)%list_elem_of_fmap.
    split; [by exists i|apply not_elem_of_nil].
Qed.

(** A step of a flush's own state. *)
Lemma with_flush_ok g fl fl' r : writer_ok r -> wr_flush r g = Some fl -> flush_ok fl' ->
  (covers fl (buffered r) -> covers fl' (buffered r)) ->
  (visitable fl (buffered r) -> visitable fl' (buffered r)) -> writer_ok (with_flush g (Some fl') r).
Proof.
  intros [Hk Hwf Hq Hs Hb Hf Hfl Hc Htd Hst Hl] Hg Hok Hcov Hvis. constructor; try done.
  - intros h fl2 [[-> [= <-]]|[_ Hh]]%with_flush_cases; [done|by apply (Hf h)].
  - intros h. cbn. transitivity (flushing r h); [by destruct h|]. rewrite Hfl.
    case_decide as E; [|done]. rewrite E, Hg. split; by eauto.
  - intros h fl2 Hh [[-> [= <-]]|[_ Hhf]]%with_flush_cases; [|by apply (Hc h)].
    apply Hcov. by apply (Hc g).
  - intros h fl2 [[-> [= <-]]|[_ Hhf]]%with_flush_cases; [|by apply (Htd h)].
    apply Hvis. by apply (Htd g).
Qed.

Lemma with_upsert_ok u r : writer_ok r -> (exists dao, upsert_ok dao u) -> writer_ok (with_upsert u r).
Proof.
  intros [Hk Hwf Hq Hs Hb Hf Hfl Hc Htd Hst Hl] Hu. constructor; try done.
  cbn. apply Forall_app. by split; [|constructor].
Qed.

Lemma flush_ok_forget k fl : flush_ok fl -> flush_ok (forget k fl).
Proof. by destruct fl. Qed.

Lemma flush_of_delete k r h fl : wr_flush (delete_key k r) h = Some fl ->
  exists fl0, wr_flush r h = Some fl0 /\ fl = forget k fl0.
Proof. cbn. intros (fl0 & -> & E)%fmap_Some. eauto. Qed.

Lemma buffered_delete k r : buffered (delete_key k r) = delete k (buffered r).
Proof. apply Map_data_Delete. Qed.

Lemma Map_Len_Delete (m : Map string BatchItem) k : Map_wf m -> Map_Len (Map_Delete m k) <= Map_Len m.
Proof.
  intros Hm. assert (Map_wf (Map_Delete m k)) as Hm' by eauto with hlm.
  unfold Map_wf, Map_Len in *. rewrite Hm, Hm', Map_data_Delete, map_size_delete.
  destruct (map_data m !! k); simpl; lia.
Qed.

Lemma delete_key_ok g k ks r : writer_ok r -> wr_flush r g = Some (Upserting [] (k :: ks)) ->
  writer_ok (delete_key k (with_flush g (Some (Upserting [] ks)) r)).
Proof.
  intros [Hk Hwf Hq Hs Hb Hf Hfl Hc Htd Hst Hl] Hg.
  assert (flush_ok (Upserting [] ks)) as Hok.
  { split; [apply NoDup_nil_2|]. split; [by intros i ?%not_elem_of_nil|constructor]. }
  constructor; try done.
  - rewrite buffered_delete. intros k' i [_ Hi]%lookup_delete_Some. by apply Hk.
  - cbn. eauto with hlm.
  - unfold receiver_bound in *. cbn. pose proof (Map_Len_Delete (bw_buffers (wr_w r)) k Hwf) as Hle.
    destruct (wr_receiver r); (done || lia).
  - intros h fl (fl0 & Hh & ->)%flush_of_delete. apply flush_ok_forget.
    apply with_flush_cases in Hh as [[-> [= <-]]|[_ Hh]]; [done|by apply (Hf h)].
  - intros h. cbn. transitivity (flushing r h); [by destruct h|]. rewrite Hfl, fmap_is_Some.
    case_decide as E; [|done]. rewrite E, Hg. split; by eauto.
  - intros h fl Hh (fl0 & Hhf & ->)%flush_of_delete. rewrite buffered_delete.
    intros k' [i [Hne Hi]%lookup_delete_Some].
    apply with_flush_cases in Hhf as [[-> [= <-]]|[_ Hhf]].
    + destruct (Hc g _ Hh Hg k') as [Hin|[]]; [by exists i|]. left. cbn in *. set_solver.
    + destruct (Hc h _ Hh Hhf k') as [Hin|Hin]; [by exists i|left; by destruct fl0|right].
      destruct fl0; [|done]. cbn. apply list_elem_of_filter. by split.
  - intros h fl (fl0 & Hhf & ->)%flush_of_delete. rewrite buffered_delete.
    apply with_flush_cases in Hhf as [[-> [= <-]]|[_ Hhf]]; [done|].
    specialize (Htd h _ Hhf). destruct fl0 as [todo grouped ks0|]; [|done]. cbn in *.
    intros k' [Hne Hin]%list_elem_of_filter. rewrite lookup_delete_ne by done. by apply Htd.
  - unfold stopped_ok in *. change (wr_stopper _) with (wr_stopper r). rewrite buffered_delete.
    destruct (wr_stopper r); try done. destruct Hst as (H1 & H2 & E). split; [done|]. split; [done|].
    unfold buffered in *. cbn. by rewrite E, delete_empty.
Qed.

(** The end of a flush nothing was stored during. *)
Lemma covers_nothing m : covers (Upserting [] []) m -> m = ∅.
Proof.
  intros Hc. apply map_eq. intros k. rewrite lookup_empty. apply eq_None_not_Some. intros Hk.
  destruct (Hc k Hk) as [Hin|[]]. by apply not_elem_of_nil in Hin.
Qed.

Lemma end_flush_ok g r : writer_ok r -> wr_flush r g = Some (Upserting [] []) -> writer_ok (end_flush g r).
Proof.
  intros [Hk Hwf Hq Hs Hb Hf Hfl Hc Htd Hst Hl] Hg.
  assert (flushing r g) as Hat by (apply Hfl; eauto).
  assert (g = Receiver \/ g = Stopper -> buffered r = ∅) as Hempty
    by (intros Ho; by apply covers_nothing, (Hc g)).
  assert (forall h, h <> g -> flushing (end_flush g r) h <-> flushing r h) as Hothers.
  { intros h Hne. destruct g, h; try done; unfold end_flush, flushing; cbn in *. }
  constructor.
  - by destruct g.
  - by destruct g.
  - by destruct g.
  - by destruct g.
  - destruct g; try done. unfold receiver_bound. cbn. unfold Map_Len.
    rewrite Hwf. change (map_data _) with (buffered r). rewrite Hempty by auto. by rewrite map_size_empty.
  - intros h fl Hh. assert (wr_flush (with_flush g None r) h = Some fl) as Hh' by by destruct g.
    apply with_flush_cases in Hh' as [[_ ?]|[_ Hh']]; [done|by apply (Hf h)].
  - intros h. replace (wr_flush (end_flush g r) h) with (if decide (h = g) then None else wr_flush r h)
      by by destruct g. destruct (decide (h = g)) as [->|Hne].
    + split; [|by intros []]. destruct g; unfold flushing, end_flush; cbn; try done.
      destruct (wr_ticker r); by intros [].
    + rewrite <- Hfl. by apply Hothers.
  - intros h fl Hh Hhf. assert (wr_flush (with_flush g None r) h = Some fl) as Hh' by by destruct g.
    replace (buffered (end_flush g r)) with (buffered r) by by destruct g.
    apply with_flush_cases in Hh' as [[_ ?]|[_ Hh']]; [done|by apply (Hc h)].
  - intros h fl Hhf. assert (wr_flush (with_flush g None r) h = Some fl) as Hh' by by destruct g.
    replace (buffered (end_flush g r)) with (buffered r) by by destruct g.
    apply with_flush_cases in Hh' as [[_ ?]|[_ Hh']]; [done|by apply (Htd h)].
  - unfold stopped_ok in *. destruct g; cbn in *.
    + destruct (wr_stopper r); try done; destruct Hst as (H1 & H2 & H3); congruence.
    + destruct (wr_stopper r); try done; destruct Hst as (H1 & H2 & H3);
        destruct Hat as [Hat|Hat]; congruence.
    + rewrite Hat in Hst. destruct Hst as (_ & H1 & H2). split; [done|]. split; [done|]. by apply Hempty; right.
    + by destruct (wr_stopper r).
  - by destruct g.
Qed.

(** A step of the receive loop that touches no flush. *)
Lemma with_receiver_ok p r : writer_ok r -> wr_receiver r <> RFlushing -> wr_receiver r <> RDone ->
  p <> RFlushing -> receiver_bound (with_receiver p r) -> writer_ok (with_receiver p r).
Proof.
  intros [Hk Hwf Hq Hs Hb Hf Hfl Hc Htd Hst Hl] Hn Hd Hp Hb'. constructor; try done.
  - intros h. transitivity (flushing r h); [|apply Hfl]. destruct h; [|done..]. by split.
  - unfold stopped_ok in *. change (wr_stopper _) with (wr_stopper r).
    destruct (wr_stopper r); try done; by destruct Hst as (? & ? & ?).
Qed.

Lemma add_ok item r : writer_ok r ->
  let '(w, err) := BatchWriter_Add (wr_w r) item in
  writer_ok (with_accepted (match err with None => [item] | Some _ => [] end) (with_w w r)).
Proof.
  intros [Hk Hwf Hq Hs Hb Hf Hfl Hc Htd Hst Hl]. unfold BatchWriter_Add.
  destruct (Z.ltb_spec (Z.of_nat (length (bw_queue (wr_w r)))) (MaxQueueSize (bw_config (wr_w r))));
    constructor; try done.
  cbn. rewrite length_app. simpl. lia.
Qed.

Lemma take_ok q item r : writer_ok r -> bw_queue (wr_w r) = item :: q -> writer_ok (take_item r q).
Proof.
  intros [Hk Hwf Hq Hs Hb Hf Hfl Hc Htd Hst Hl] E. constructor; try done.
  cbn. rewrite E in Hq. simpl in Hq. lia.
Qed.

Lemma take_step_ok r r' : writer_ok r -> take_step r = Some r' -> writer_ok r'.
Proof.
  intros Hr Hstep. unfold take_step in Hstep. pose proof (wo_bound r Hr) as Hb. unfold receiver_bound in Hb.
  destruct (wr_receiver r) eqn:Er, (bw_queue (wr_w r)) as [|i q] eqn:Eq; try done; injection Hstep as <-.
  - apply with_receiver_ok; [by apply (take_ok q i)|cbn; by rewrite Er..|done|exact Hb].
  - apply with_receiver_ok; by rewrite ?Er.
  - apply with_receiver_ok; [by apply (take_ok q i)|cbn; by rewrite Er..|done|done].
Qed.

Lemma Map_Len_Store (m : Map string BatchItem) k i : Map_Len (Map_Store m k i) <= Map_Len m + 1.
Proof. unfold Map_Len, Map_Store. destruct (map_data m !! k); simpl; lia. Qed.

Lemma store_step_ok r r' : writer_ok r -> store_step r = Some r' -> writer_ok r'.
Proof.
  intros Hr Hstep. pose proof Hr as [Hk Hwf Hq Hs Hb Hf Hfl Hc Htd Hst Hl]. unfold store_step in Hstep.
  assert (forall item p, (forall q, p <> RHold q) -> p <> RFlushing -> p <> RDone -> p <> RLoop ->
    wr_receiver r = RHold item \/ wr_receiver r = RDrainHold item /\ p = RDrain ->
    writer_ok (with_receiver p (put_item r item))) as Hput.
  { intros item p H1 H2 H3 H4 He.
    assert (buffered (put_item r item) = <[DedupKey item := item]> (buffered r)) as Eb by apply Map_data_Store.
    constructor; try done.
    - change (keyed (buffered (put_item r item))). rewrite Eb. auto with hlm.
    - cbn. by apply Map_Store_wf.
    - unfold receiver_bound. cbn. pose proof (Map_Len_Store (bw_buffers (wr_w r)) (DedupKey item) item) as Hle.
      unfold receiver_bound in Hb.
      destruct He as [He|[He ->]]; [|done]. rewrite He in Hb. destruct p; try done; try lia. by destruct (H1 item0).
    - intros h. transitivity (flushing r h); [|apply Hfl]. destruct h; [|done..]. cbn.
      destruct He as [->|[-> _]]; by split.
    - intros h fl Hh Hhf. exfalso. destruct Hh as [->| ->]; cbn in Hhf.
      + assert (flushing r Receiver) as Hx by (apply Hfl; eauto). cbn in Hx. destruct He as [He|[He _]]; congruence.
      + assert (flushing r Stopper) as Hx by (apply Hfl; eauto). unfold stopped_ok in Hst. cbn in Hx.
        rewrite Hx in Hst. destruct Hst as (_ & Hx' & _). destruct He as [He|[He _]]; congruence.
    - intros h fl Hhf. specialize (Htd h fl Hhf). change (visitable fl (buffered (put_item r item))).
      rewrite Eb. destruct fl as [todo grouped ks|]; [|done]. cbn in *. intros k Hin.
      destruct (Htd k Hin) as [Hi Hn]. split; [|done]. rewrite lookup_insert. by case_decide.
    - unfold stopped_ok in *. change (wr_stopper _) with (wr_stopper r).
      destruct (wr_stopper r); try done; exfalso; destruct Hst as (Hs1 & Hs2 & _), He as [He|[He _]]; congruence. }
  destruct (wr_receiver r) as [|item| | | |item|] eqn:E; try done; injection Hstep as <-; apply Hput; auto.
Qed.

Lemma check_step_ok r r' : writer_ok r -> check_step r = Some r' -> writer_ok r'.
Proof.
  intros Hr Hstep. unfold check_step in Hstep. pose proof (wo_bound r Hr) as Hb. unfold receiver_bound in Hb.
  destruct (wr_receiver r) eqn:Er; try done.
  destruct (Z.leb_spec (BatchSize (bw_config (wr_w r))) (Map_Len (bw_buffers (wr_w r)))) as [Hle|Hlt];
    injection Hstep as <-.
  - apply (start_flush_ok _ r); try done; [|by intros []].
    pose proof (wo_stopped r Hr) as Hst. unfold stopped_ok in *. change (wr_stopper _) with (wr_stopper r).
    destruct (wr_stopper r); try done; destruct Hst as (? & ? & ?); congruence.
  - apply with_receiver_ok; rewrite ?Er; done.
Qed.

Lemma visit_ok g todo grouped ks k item r : writer_ok r ->
  wr_flush r g = Some (Collecting todo grouped ks) -> k ∉ ks -> Map_Load (bw_buffers (wr_w r)) k = Some item ->
  writer_ok (with_flush g (Some (Collecting (filter (fun k' => k' <> k) todo)
    (group_push grouped (TableName item) item) (ks ++ [k]))) r).
Proof.
  intros Hr Hg Hk Hi. apply (with_flush_ok _ _ _ _ Hr Hg).
  - pose proof (wo_keyed r Hr k item Hi) as Ek. destruct (wo_flush r Hr g _ Hg) as (Hd & Hin & Hgr).
    cbn [flush_items flush_keys] in *. split; [|split]; cbn [flush_items flush_keys].
    + rewrite concat_group_push, fmap_app. apply NoDup_app. split; [done|]. split; [|apply NoDup_singleton].
      intros k' (j & -> & Hj)%list_elem_of_fmap Hk'. apply list_elem_of_singleton in Hk'.
      apply Hk. rewrite <- Ek, <- Hk'. by apply Hin.
    + intros i. rewrite concat_group_push. intros [Hx| ->%list_elem_of_singleton]%elem_of_app;
        apply elem_of_app; [left; by apply Hin|right]. rewrite Ek. by apply list_elem_of_singleton.
    + by apply groups_of_push.
  - intros Hc k' Hk'. cbn [flush_keys]. destruct (decide (k' = k)) as [->|Hne].
    + left. apply elem_of_app. right. by apply list_elem_of_singleton.
    + destruct (Hc k' Hk') as [?|?]; [left; apply elem_of_app; by left|right].
      apply list_elem_of_filter. by split.
  - intros Hv k' [Hne Hin]%list_elem_of_filter. destruct (Hv k' Hin). split; [done|]. set_solver.
Qed.

Lemma collected_ok g grouped ks r : writer_ok r -> wr_flush r g = Some (Collecting [] grouped ks) ->
  writer_ok (with_flush g (Some (Upserting (go_range grouped) ks)) r).
Proof.
  intros Hr Hg. destruct (wo_flush r Hr g _ Hg) as (Hd & Hin & Hgr). cbn [flush_items flush_keys] in *.
  assert (concat (go_range grouped).*2 ≡ₚ concat (map_to_list grouped).*2) as Ep
    by (apply Permutation_concat; by rewrite go_range_perm).
  apply (with_flush_ok _ _ _ _ Hr Hg).
  - split; [|split]; cbn [flush_items flush_keys].
    + by rewrite Ep.
    + intros i. rewrite Ep. apply Hin.
    + apply Forall_forall. intros [t items] Ht%elem_of_go_range. destruct (Hgr _ _ Ht) as [Hne Hall].
      split; [done|]. split; [done|]. simpl in *. destruct items as [|i items]; [done|].
      apply Forall_inv in Hall as <-. apply TableName_listed.
  - intros Hc k Hk. destruct (Hc k Hk) as [?|Hx]; [by left|]. by apply not_elem_of_nil in Hx.
  - done.
Qed.

Lemma upsert_step_ok g table items todo ks dao r : writer_ok r ->
  wr_flush r g = Some (Upserting ((table, items) :: todo) ks) ->
  writer_ok (with_upsert (batchUpsert dao table items) (with_flush g (Some (Upserting todo ks)) r)).
Proof.
  intros Hr Hg. destruct (wo_flush r Hr g _ Hg) as (Hd & Hin & Hgr). cbn [flush_items flush_keys] in *.
  apply Forall_cons in Hgr as [(Hne & Hall & Ht) Hgr]. simpl in *.
  apply with_upsert_ok; [|exists dao; by apply batchUpsert_ok].
  apply (with_flush_ok _ _ _ _ Hr Hg); [|done..].
  split; [|split; [|done]]; cbn [flush_items flush_keys].
  - rewrite fmap_app in Hd. by apply NoDup_app in Hd as (_ & _ & ?).
  - intros i Hi. apply Hin, elem_of_app. by right.
Qed.


Lemma flush_step_ok g e r r' : writer_ok r -> flush_step g e r = Some r' -> writer_ok r'.
Proof.
  intros Hr Hstep. unfold flush_step in Hstep.
  destruct (wr_flush r g) as [[todo grouped ks|[|[table items] todo] ks]|] eqn:Hg; [| | |done].
  - destruct e as [| | | | | | | | | |h k|h| |]; try (by destruct todo).
    + assert ((if decide (k ∈ ks) then None
               else item ← Map_Load (bw_buffers (wr_w r)) k;
                    let '(s, _) := group_item tableList (grouped, ks) k item in
                    Some (with_flush g (Some (Collecting (filter (fun k' => k' <> k) todo) s.1 s.2)) r)) =
              Some r') as E by (by destruct todo).
      destruct (decide (k ∈ ks)) as [|Hk]; [done|].
      destruct (Map_Load (bw_buffers (wr_w r)) k) as [item|] eqn:Ei; [|done].
      cbn [mbind option_bind] in E. unfold group_item in E. rewrite decide_True in E by apply TableName_listed.
      injection E as <-. by apply visit_ok.
    + destruct todo; [|done]. injection Hstep as <-. by apply collected_ok.
  - destruct ks as [|k ks], e; try done; injection Hstep as <-; [by apply end_flush_ok|by apply delete_key_ok].
  - destruct e; try done. injection Hstep as <-. by apply upsert_step_ok.
Qed.

Lemma flush_idle r g : writer_ok r -> ~ flushing r g -> wr_flush r g = None.
Proof.
  intros Hr Hn. destruct (wr_flush r g) eqn:E; [|done]. destruct Hn. apply wo_flushing; [done|]. by rewrite E.
Qed.

Lemma wr_exec_ok r e r' : writer_ok r -> wr_exec r e = Some r' -> writer_ok r'.
Proof.
  intros Hr He. pose proof (wo_bound r Hr) as Hb. pose proof (wo_stopped r Hr) as Hst.
  destruct e as [item| | | | | | | | | |g k|g|g dao|g]; cbn [wr_exec] in He;
    try (by apply (flush_step_ok g) in He).
  - pose proof (add_ok item r Hr) as Ha. destruct (BatchWriter_Add _ _) as [w err]. by injection He as <-.
  - by apply take_step_ok in He.
  - by apply store_step_ok in He.
  - by apply check_step_ok in He.
  - destruct (wr_receiver r) eqn:Er; try done. destruct (wr_done r); [|done]. injection He as <-.
    apply with_receiver_ok; by rewrite ?Er.
  - destruct (wr_ticker r) eqn:Et; try done. injection He as <-.
    apply (start_flush_ok _ r); try done; [|by left|].
    + unfold stopped_ok in *. change (wr_stopper _) with (wr_stopper r).
      destruct (wr_stopper r); try done; destruct Hst as (? & ? & ?); congruence.
    + by intros [].
  - destruct (wr_ticker r) eqn:Et; try done. destruct (wr_done r) eqn:Ed; [|done]. injection He as <-.
    apply (start_flush_ok _ r); try done; [|by right|].
    + unfold stopped_ok in *. change (wr_stopper _) with (wr_stopper r).
      destruct (wr_stopper r); try done; destruct Hst as (? & ? & ?); congruence.
    + by intros [].
  - destruct (wr_stopper r) eqn:Es; try done. injection He as <-. destruct Hr as [Hk Hwf Hq Hs _ Hf Hfl Hc Htd _ Hl].
    constructor; try done. intros h. transitivity (flushing r h); [|apply Hfl].
    destruct h; try done. cbn. rewrite Es. by split.
  - unfold stopped_ok in Hst. destruct (wr_stopper r) eqn:Es; try done. destruct (wr_receiver r) eqn:Er; try done.
    destruct (wr_ticker r) eqn:Et; try done. injection He as <-.
    apply (start_flush_ok _ r); try done. by intros [].
  - destruct (wr_stopper r) eqn:Es, (wr_forcer r) eqn:Ef; try done; injection He as <-;
      apply (start_flush_ok _ r); try done; intros [] ?; done.
Qed.

Lemma wr_exec_all_app evs1 evs2 r :
  wr_exec_all r (evs1 ++ evs2) = r1 ← wr_exec_all r evs1; wr_exec_all r1 evs2.
Proof.
  unfold wr_exec_all. rewrite fold_left_app.
  destruct (fold_left _ evs1 _) as [r1|]; [done|]. simpl. by induction evs2.
Qed.

Lemma wr_exec_all_cons e evs r : wr_exec_all r (e :: evs) = r1 ← wr_exec r e; wr_exec_all r1 evs.
Proof. exact (wr_exec_all_app [e] evs r). Qed.

Lemma wr_start_ok cfg : writer_ok (wr_start cfg).
Proof.
  destruct (run_ok_new (fun _ => nil_error) cfg) as [Hk _ _ Hw Hq Hb Hs]. cbn in *.
  constructor; try done.
  intros g. split; [|by intros []]. destruct g; cbn; try done. by intros [].
Qed.

Lemma wr_runs_ok evs : forall r r', writer_ok r -> wr_exec_all r evs = Some r' -> writer_ok r'.
Proof.
  induction evs as [|e evs IH]; intros r r' Hr He; [by injection He as <-|].
  rewrite wr_exec_all_cons in He. destruct (wr_exec r e) as [r1|] eqn:E; [|done].
  apply (IH r1); [|done]. by apply (wr_exec_ok r e).
Qed.

(** A step that moves no item of the key, and at most starts or ends a flush. *)
Lemma key_ok_ext k r r' : key_ok k r ->
  last_with k (bw_queue (wr_w r')) = last_with k (bw_queue (wr_w r)) -> held r' = held r ->
  buffered r' !! k = buffered r !! k -> wr_log r' = wr_log r -> wr_accepted r' = wr_accepted r ->
  (forall g fl, wr_flush r' g = Some fl -> k ∈ flush_keys fl -> wr_flush r g = Some fl) ->
  key_ok k r'.
Proof.
  intros [Hl Hh] Eq Eh Eb El Ea Hf. constructor.
  - unfold latest in *. by rewrite Eq, Eh, Eb, El, Ea.
  - intros g fl Hg Hk. rewrite Eb, El. apply (Hh g); auto.
Qed.

Lemma start_flush_key k g r0 r : key_ok k r0 -> wr_w r = wr_w r0 -> held r = held r0 ->
  wr_log r = wr_log r0 -> wr_accepted r = wr_accepted r0 -> wr_flush r = wr_flush r0 ->
  key_ok k (start_flush g r).
Proof.
  intros Hk Ew Eh El Ea Ef. apply (key_ok_ext k r0); try done; unfold buffered; cbn; rewrite ?Ew; try done.
  intros h fl. case_decide as E; [intros [= <-] Hin; by apply not_elem_of_nil in Hin|]. by rewrite Ef.
Qed.

Lemma end_flush_key k g r : key_ok k r -> writer_ok r -> wr_flush r g = Some (Upserting [] []) ->
  key_ok k (end_flush g r).
Proof.
  intros Hk Hr Hg. apply (key_ok_ext k r); try done; try by destruct g.
  - destruct g; try done. assert (flushing r Receiver) as E by (apply wo_flushing; eauto).
    unfold held. cbn in *. by rewrite E.
  - intros h fl Hh. assert (wr_flush (with_flush g None r) h = Some fl) as Hh' by by destruct g.
    by apply with_flush_cases in Hh' as [[_ ?]|[_ ?]].
Qed.

Lemma add_key k item r : key_ok k r ->
  let '(w, err) := BatchWriter_Add (wr_w r) item in
  key_ok k (with_accepted (match err with None => [item] | Some _ => [] end) (with_w w r)).
Proof.
  intros [Hl Hh]. unfold BatchWriter_Add. destruct (_ <? _); constructor; try done.
  - unfold latest, held, buffered in *.
    cbn [wr_w wr_receiver wr_log wr_accepted with_accepted with_w bw_queue bw_buffers].
    rewrite !last_with_app, <- Hl. by destruct (last_with k [item]).
  - unfold latest, held, buffered in *. cbn [wr_w wr_receiver wr_log wr_accepted with_accepted with_w].
    by rewrite app_nil_r.
Qed.

Lemma receive_key k r r' : key_ok k r -> take_step r = Some r' -> key_ok k r'.
Proof.
  intros [Hl Hh] Hstep. unfold take_step in Hstep. unfold latest, held in Hl.
  destruct (wr_receiver r) eqn:Er, (bw_queue (wr_w r)) as [|i q] eqn:Eq; try done; injection Hstep as <-;
    constructor; try done; unfold latest, held, buffered in *;
    cbn [wr_w wr_receiver wr_log wr_accepted with_receiver take_item with_w bw_queue bw_buffers];
    rewrite ?Eq; try done.
  all: rewrite <- Hl; change (i :: q) with ([i] ++ q); rewrite last_with_app; by destruct (last_with k q).
Qed.

Lemma store_key k r r' : writer_ok r -> key_ok k r -> calm_step k r WStore -> store_step r = Some r' ->
  key_ok k r'.
Proof.
  intros Hr Hk Hcalm Hstep.
  assert (forall i p, held r = [i] -> held (with_receiver p r) = [] -> key_ok k (with_receiver p (put_item r i)))
    as Hput.
  { intros i p Ei Ep. destruct Hk as [Hl Hh].
    assert (buffered (put_item r i) = <[DedupKey i := i]> (buffered r)) as Eb by apply Map_data_Store.
    constructor.
    - unfold latest in *. rewrite Ei in Hl. change (held (with_receiver p (put_item r i))) with
        (held (with_receiver p r)). rewrite Ep. change (buffered (with_receiver _ _)) with (buffered (put_item r i)).
      rewrite Eb, lookup_insert. cbn [wr_w wr_log wr_accepted with_receiver put_item with_w store_item bw_queue].
      rewrite <- Hl, last_with_singleton.
      destruct (last_with k (bw_queue (wr_w r))); [done|]. by destruct (decide (DedupKey i = k)).
    - intros g fl Hg Hin. change (buffered (with_receiver _ _)) with (buffered (put_item r i)).
      rewrite Eb. destruct (decide (DedupKey i = k)) as [E|Hne].
      + exfalso. apply (Hcalm i) with (g := g) (fl := fl); [rewrite Ei; left|done..].
      + rewrite lookup_insert_ne by done. by apply (Hh g). }
  unfold store_step in Hstep. unfold held in Hput.
  destruct (wr_receiver r) eqn:Er; try done; injection Hstep as <-; by apply Hput.
Qed.

(** The item of a key in a flush is the one [key_held] speaks of. *)
Lemma key_held_in k fl b w i : flush_ok fl -> key_held k fl b w -> i ∈ flush_items fl -> DedupKey i = k ->
  b = Some i \/ b = None /\ w = Some i.
Proof.
  intros (Hd & _) (i' & [(Hin & E & Hb)|(Hn & _)]) Hi Ei; [|by destruct (Hn i Hi)].
  pose proof (last_with_in k _ i Hd Hi Ei) as E1. rewrite (last_with_in k _ i' Hd Hin E) in E1.
  by injection E1 as ->.
Qed.

Lemma visit_key k g todo grouped ks k' item r : writer_ok r -> key_ok k r ->
  wr_flush r g = Some (Collecting todo grouped ks) -> k' ∉ ks ->
  Map_Load (bw_buffers (wr_w r)) k' = Some item ->
  key_ok k (with_flush g (Some (Collecting (filter (fun k0 => k0 <> k') todo)
    (group_push grouped (TableName item) item) (ks ++ [k']))) r).
Proof.
  intros Hr [Hl Hh] Hg Hn Hi. constructor; [done|]. pose proof (wo_keyed r Hr k' item Hi) as Ek.
  intros h fl [[-> [= <-]]|[_ Hhf]]%with_flush_cases Hin; [|by apply (Hh h)].
  change (buffered (with_flush _ _ _)) with (buffered r). cbn [flush_keys] in Hin.
  destruct (decide (k' = k)) as [->|Hne].
  - exists item. left. split; [|split; [done|by left]]. cbn [flush_items].
    rewrite concat_group_push. apply elem_of_app. right. by apply list_elem_of_singleton.
  - assert (k ∈ ks) as Hin' by set_solver. destruct (Hh g _ Hg Hin') as (i & [(Hx & E & Hb)|(Hx & Hb)]).
    + exists i. left. split; [|done]. cbn [flush_items] in *. rewrite concat_group_push.
      apply elem_of_app. by left.
    + exists i. right. split; [|done]. cbn [flush_items] in *. intros j.
      rewrite concat_group_push. intros [?|Hj%list_elem_of_singleton]%elem_of_app; [by apply Hx|].
      rewrite Hj. congruence.
Qed.

Lemma collected_key k g grouped ks r : key_ok k r -> wr_flush r g = Some (Collecting [] grouped ks) ->
  key_ok k (with_flush g (Some (Upserting (go_range grouped) ks)) r).
Proof.
  intros [Hl Hh] Hg. constructor; [done|].
  assert (concat (go_range grouped).*2 ≡ₚ concat (map_to_list grouped).*2) as Ep
    by (apply Permutation_concat; by rewrite go_range_perm).
  intros h fl [[-> [= <-]]|[_ Hhf]]%with_flush_cases Hin; [|by apply (Hh h)].
  destruct (Hh g _ Hg Hin) as (i & Hx). exists i. unfold flush_items in *. by setoid_rewrite Ep.
Qed.

Lemma upsert_key k g table items todo ks dao r : writer_ok r -> key_ok k r ->
  wr_flush r g = Some (Upserting ((table, items) :: todo) ks) ->
  key_ok k (with_upsert (batchUpsert dao table items) (with_flush g (Some (Upserting todo ks)) r)).
Proof.
  intros Hr [Hl Hh] Hg. destruct (wo_flush r Hr g _ Hg) as (Hd & Hkeys & Hgr).
  cbn [flush_items flush_keys fmap list_fmap snd concat] in Hd, Hkeys.
  assert (written (wr_log r ++ [batchUpsert dao table items]) = written (wr_log r) ++ items) as Ew.
  { rewrite written_app. f_equal. unfold written. cbn. by rewrite batchUpsert_items, app_nil_r. }
  set (r' := with_upsert _ _). change (written (wr_log r') = written (wr_log r) ++ items) in Ew.
  assert (NoDup (DedupKey <$> items)) as Hdi by (rewrite fmap_app in Hd; by apply NoDup_app in Hd as (? & _)).
  destruct (item_of_key k items) as [(i & Hi & E)|Hnone].
  - assert (last_with k (written (wr_log r')) = Some i) as Ei
      by (by rewrite Ew, last_with_app, (last_with_in k items i)).
    assert (k ∈ ks) as Hk by (rewrite <- E; apply Hkeys, elem_of_app; by left).
    pose proof (key_held_in k _ _ _ i (wo_flush r Hr g _ Hg) (Hh g _ Hg Hk)
      ltac:(cbn; apply elem_of_app; by left) E) as Hb.
    constructor.
    + unfold latest in *. rewrite Ei. change (wr_accepted r') with (wr_accepted r).
      rewrite <- Hl. change (buffered r') with (buffered r).
      change (held r') with (held r). change (wr_w r') with (wr_w r).
      f_equal. f_equal. destruct Hb as [->|[-> ->]]; done.
    + intros h fl Hhf Hin. rewrite Ei. change (buffered r') with (buffered r).
      apply with_flush_cases in Hhf as [[-> [= <-]]|[_ Hhf]].
      * exists i. right. split; [|split; [done|]]; [|destruct Hb as [?|[? _]]; auto].
        intros j Hj Ej. rewrite fmap_app in Hd. apply NoDup_app in Hd as (_ & Hd & _).
        apply (Hd k); [rewrite <- E|rewrite <- Ej]; by apply list_elem_of_fmap_2.
      * destruct (Hh h _ Hhf Hin) as (i' & [(Hx & E' & Hb')|(Hx & Hw & Hb')]); exists i'.
        -- left. split; [done|]. split; [done|]. destruct Hb as [Hb|[Hb Hw]], Hb' as [Hb'|[Hb' Hw']]; auto;
             try congruence. right. split; congruence.
        -- right. split; [done|]. destruct Hb as [Hb|[Hb Hw']], Hb' as [Hb'|Hb']; try congruence;
             split; auto; congruence.
  - assert (last_with k (written (wr_log r')) = last_with k (written (wr_log r))) as Ei
      by (by rewrite Ew, last_with_app, (last_with_none k items)).
    constructor.
    + unfold latest in *. rewrite Ei. exact Hl.
    + intros h fl Hhf Hin. rewrite Ei. apply with_flush_cases in Hhf as [[-> [= <-]]|[_ Hhf]]; [|by apply (Hh h)].
      destruct (Hh g _ Hg Hin) as (i & [(Hx & E & Hb)|(Hx & Hb)]); exists i.
      * left. split; [|done]. cbn in *. apply elem_of_app in Hx as [Hx|?]; [by destruct (Hnone i Hx)|done].
      * right. split; [|done]. intros j Hj. apply Hx. cbn. apply elem_of_app. by right.
Qed.

Lemma delete_key_key k g k' ks r : writer_ok r -> key_ok k r -> wr_flush r g = Some (Upserting [] (k' :: ks)) ->
  key_ok k (delete_key k' (with_flush g (Some (Upserting [] ks)) r)).
Proof.
  intros Hr [Hl Hh] Hg. set (r' := delete_key _ _).
  assert (buffered r' = delete k' (buffered r)) as Eb by apply Map_data_Delete.
  assert (forall h fl, wr_flush r' h = Some fl -> k ∈ flush_keys fl -> exists fl0,
    wr_flush r h = Some fl0 /\ k ∈ flush_keys fl0 /\ flush_items fl = flush_items fl0) as Hfl.
  { intros h fl (fl0 & Hhf & ->)%flush_of_delete Hin.
    apply with_flush_cases in Hhf as [[-> [= <-]]|[_ Hhf]].
    - eexists. split; [exact Hg|]. split; [by right|done].
    - exists fl0. split; [done|]. by destruct fl0. }
  destruct (decide (k' = k)) as [->|Hne].
  - destruct (Hh g _ Hg) as (i & [(Hx & _)|(_ & Hw & Hb)]); [by left|by apply not_elem_of_nil in Hx|].
    constructor.
    + unfold latest in *. rewrite Eb, lookup_delete_eq. change (wr_accepted r') with (wr_accepted r).
      rewrite <- Hl. change (held r') with (held r). change (bw_queue (wr_w r')) with (bw_queue (wr_w r)).
      change (wr_log r') with (wr_log r). f_equal. f_equal. rewrite Hw. by destruct Hb as [->| ->].
    + intros h fl Hhf Hin. destruct (Hfl h fl Hhf Hin) as (fl0 & Hh0 & Hin0 & Ei).
      rewrite Eb, lookup_delete_eq. change (wr_log r') with (wr_log r). unfold key_held. rewrite Ei.
      destruct (Hh h _ Hh0 Hin0) as (i' & [(Hx & E' & Hb')|(Hx & Hw' & Hb')]); exists i'.
      * left. split; [done|]. split; [done|]. right. split; [done|].
        destruct Hb as [Hb|Hb], Hb' as [Hb'|[Hb' Hw']]; congruence.
      * right. by split_and!; [..|right].
  - constructor.
    + unfold latest in *. rewrite Eb, lookup_delete_ne by done. exact Hl.
    + intros h fl Hhf Hin. destruct (Hfl h fl Hhf Hin) as (fl0 & Hh0 & Hin0 & Ei).
      rewrite Eb, lookup_delete_ne by done. unfold key_held. rewrite Ei. exact (Hh h _ Hh0 Hin0).
Qed.

Lemma flush_step_key k g e r r' : writer_ok r -> key_ok k r -> flush_step g e r = Some r' -> key_ok k r'.
Proof.
  intros Hr Hk Hstep. unfold flush_step in Hstep.
  destruct (wr_flush r g) as [[todo grouped ks|[|[table items] todo] ks]|] eqn:Hg; [| | |done].
  - destruct e as [| | | | | | | | | |h k'|h| |]; try (by destruct todo).
    + assert ((if decide (k' ∈ ks) then None
               else item ← Map_Load (bw_buffers (wr_w r)) k';
                    let '(s, _) := group_item tableList (grouped, ks) k' item in
                    Some (with_flush g (Some (Collecting (filter (fun k0 => k0 <> k') todo) s.1 s.2)) r)) =
              Some r') as E by (by destruct todo).
      destruct (decide (k' ∈ ks)) as [|Hn]; [done|].
      destruct (Map_Load (bw_buffers (wr_w r)) k') as [item|] eqn:Ei; [|done].
      cbn [mbind option_bind] in E. unfold group_item in E. rewrite decide_True in E by apply TableName_listed.
      injection E as <-. by apply visit_key.
    + destruct todo; [|done]. injection Hstep as <-. by apply collected_key.
  - destruct ks as [|k' ks], e; try done; injection Hstep as <-; [by apply end_flush_key|by apply delete_key_key].
  - destruct e; try done. injection Hstep as <-. by apply upsert_key.
Qed.

Lemma wr_exec_key k r e r' : writer_ok r -> key_ok k r -> calm_step k r e -> wr_exec r e = Some r' -> key_ok k r'.
Proof.
  intros Hr Hk Hcalm He.
  destruct e as [item| | | | | | | | | |g k'|g|g dao|g]; cbn [wr_exec] in He;
    try (by apply (flush_step_key k g) in He).
  - pose proof (add_key k item r Hk) as Ha. destruct (BatchWriter_Add _ _) as [w err]. by injection He as <-.
  - by apply (receive_key k r).
  - by apply (store_key k r).
  - unfold check_step in He. destruct (wr_receiver r) eqn:Er; try done.
    destruct (_ <=? _); injection He as <-.
    + apply (start_flush_key k _ r); try done. unfold held. cbn. by rewrite Er.
    + apply (key_ok_ext k r); try done. unfold held. cbn. by rewrite Er.
  - destruct (wr_receiver r) eqn:Er; try done. destruct (wr_done r); [|done]. injection He as <-.
    apply (key_ok_ext k r); try done. unfold held. cbn. by rewrite Er.
  - destruct (wr_ticker r); try done. injection He as <-. by apply (start_flush_key k _ r).
  - destruct (wr_ticker r); try done. destruct (wr_done r); [|done]. injection He as <-.
    by apply (start_flush_key k _ r).
  - destruct (wr_stopper r); try done. injection He as <-. by apply (key_ok_ext k r).
  - destruct (wr_stopper r); try done. destruct (wr_receiver r); try done. destruct (wr_ticker r); try done.
    injection He as <-. by apply (start_flush_key k _ r).
  - destruct (wr_stopper r), (wr_forcer r); try done; injection He as <-; by apply (start_flush_key k _ r).
Qed.

Lemma wr_runs_key k evs : forall r r', writer_ok r -> key_ok k r -> calm k r evs ->
  wr_exec_all r evs = Some r' -> key_ok k r'.
Proof.
  induction evs as [|e evs IH]; intros r r' Hr Hk Hc He; [by injection He as <-|].
  rewrite wr_exec_all_cons in He. destruct Hc as [Hc Hcs].
  destruct (wr_exec r e) as [r1|] eqn:E; [|done].
  apply (IH r1); [by apply (wr_exec_ok r e)|by apply (wr_exec_key k r e)|done..].
Qed.

Lemma wr_start_key k cfg : key_ok k (wr_start cfg).
Proof. by constructor. Qed.

(** *** Progress *)

(** A flush can always go on. *)
Lemma flush_moves r g fl : writer_ok r -> wr_flush r g = Some fl ->
  exists e, own_step e /\ is_Some (wr_exec r e).
Proof.
  intros Hr Hg. destruct fl as [[|k todo] grouped ks|[|[table items] todo] [|k ks]].
  - exists (WCollected g). split; [done|]. cbn. unfold flush_step. rewrite Hg. by eauto.
  - exists (WVisit g k). split; [done|]. cbn [wr_exec]. unfold flush_step. rewrite Hg.
    destruct (wo_todo r Hr g _ Hg k) as [[i Hi] Hn]; [left|]. rewrite decide_False by done.
    unfold Map_Load. unfold buffered in Hi. rewrite Hi. cbn [mbind option_bind].
    destruct (group_item _ _ _ _). by eauto.
  - exists (WDelete g). split; [done|]. cbn. unfold flush_step. rewrite Hg. by eauto.
  - exists (WDelete g). split; [done|]. cbn. unfold flush_step. rewrite Hg. by eauto.
  - exists (WUpsert g (fun _ => nil_error)). split; [done|]. cbn. unfold flush_step. rewrite Hg. by eauto.
  - exists (WUpsert g (fun _ => nil_error)). split; [done|]. cbn. unfold flush_step. rewrite Hg. by eauto.
Qed.

(** Until [Stop] returns some goroutine of the writer can move. *)
Lemma stop_progresses r : writer_ok r -> wr_stopper r <> SIdle -> wr_stopper r <> SDone ->
  exists e, own_step e /\ is_Some (wr_exec r e).
Proof.
  intros Hr Hi Hd.
  destruct (wr_stopper r) eqn:Es; try done.
  2: { destruct (proj1 (wo_flushing r Hr Stopper) Es) as [fl Hfl]. by apply (flush_moves r Stopper fl). }
  pose proof (wo_stopped r Hr) as Hst. unfold stopped_ok in Hst. rewrite Es in Hst.
  destruct (wr_receiver r) as [|item| | | |item|] eqn:Er.
  - exists WSeeDone. split; [done|]. cbn. rewrite Er, Hst. by eauto.
  - exists WStore. split; [done|]. cbn. unfold store_step. rewrite Er. by eauto.
  - exists WCheck. split; [done|]. cbn. unfold check_step. rewrite Er. destruct (_ <=? _); by eauto.
  - destruct (proj1 (wo_flushing r Hr Receiver) Er) as [fl Hfl]. by apply (flush_moves r Receiver fl).
  - exists WTake. split; [done|]. cbn. unfold take_step. rewrite Er. destruct (bw_queue _); by eauto.
  - exists WStore. split; [done|]. cbn. unfold store_step. rewrite Er. by eauto.
  - destruct (wr_ticker r) eqn:Et.
    + exists WTickerDone. split; [done|]. cbn. rewrite Et, Hst. by eauto.
    + destruct (proj1 (wo_flushing r Hr Ticker) (or_introl Et)) as [fl Hfl]. by apply (flush_moves r Ticker fl).
    + destruct (proj1 (wo_flushing r Hr Ticker) (or_intror Et)) as [fl Hfl]. by apply (flush_moves r Ticker fl).
    + exists WJoined. split; [done|]. cbn. rewrite Es, Er, Et. by eauto.
Qed.

End invariant.
