(* ===== verification/WriterStop.v ===== *)
(** * Stopping the batch writer

    What the goroutines of WriterSteps come to: the work they have left is a
    number that each step of their own makes smaller, so that [Stop] returns;
    what the database was handed by then; and a flush that nothing interrupts
    is [flushAll] of BatchWriter. *)

From Stdlib Require Import ZArith Lia.
From stdpp Require Import gmap strings list pretty.
From S2P Require Import Prelude GoStrings Models ConcurrentMap BatchWriter WriterSteps.
Local Open Scope Z_scope.

(** ** The work left *)
Section work.
Context `{MapRange}.
Implicit Types r : writer_run.

(** The keys a flush may still come across. *)
Definition universe r : gset string :=
  dom (buffered r) ∪ list_to_set (DedupKey <$> held r ++ bw_queue (wr_w r)).

Definition flush_work r (g : goroutine) : nat :=
  match wr_flush r g with
  | None => 0
  | Some (Collecting _ grouped ks) =>
      2 + 3 * size (universe r ∖ list_to_set ks) + size grouped + length ks
  | Some (Upserting todo ks) => length todo + length ks + 1
  end.

(** With [c] for a flush. *)
Definition pc_work r (c : nat) : nat :=
  length (bw_queue (wr_w r)) * (c + 4) +
  match wr_receiver r with
  | RLoop => 2 | RHold _ => c + 5 | RCheck => c + 4 | RFlushing => 3
  | RDrain => 1 | RDrainHold _ => 3 | RDone => 0
  end +
  match wr_ticker r with TLoop => c + 2 | TFlushing => c + 3 | TLast => 1 | TDone => 0 end +
  match wr_stopper r with SIdle => c + 2 | SWaiting => c + 1 | SFlushing => 1 | SDone => 0 end +
  match wr_forcer r with FFlushing => 1 | FIdle | FDone => 0 end.

Definition flush_cost r : nat := 3 + 3 * size (universe r).

Definition writer_work r : nat :=
  pc_work r (flush_cost r) +
  flush_work r Receiver + flush_work r Ticker + flush_work r Stopper + flush_work r Forcer.

Lemma flush_cost_le r r' : universe r' ⊆ universe r -> (flush_cost r' <= flush_cost r)%nat.
Proof. intros Hu%subseteq_size. unfold flush_cost. lia. Qed.

Lemma pc_work_le r c c' : (c' <= c)%nat -> (pc_work r c' <= pc_work r c)%nat.
Proof.
  intros Hc. unfold pc_work.
  assert (length (bw_queue (wr_w r)) * (c' + 4) <= length (bw_queue (wr_w r)) * (c + 4))%nat
    by (apply Nat.mul_le_mono_l; lia).
  destruct (wr_receiver r), (wr_ticker r), (wr_stopper r), (wr_forcer r); lia.
Qed.

Lemma flush_work_le k r r' h : universe r' ⊆ universe r ->
  wr_flush r' h = wr_flush r h \/ wr_flush r' h = forget k <$> wr_flush r h ->
  (flush_work r' h <= flush_work r h)%nat.
Proof.
  intros Hu Hf. unfold flush_work.
  assert (forall ks : list string,
    (size (universe r' ∖ list_to_set ks) <= size (universe r ∖ list_to_set ks))%nat) as Hs
    by (intros ks; apply subseteq_size; set_solver).
  destruct Hf as [->| ->]; destruct (wr_flush r h) as [[todo grouped ks|todo ks]|]; simpl; try lia;
    specialize (Hs ks); lia.
Qed.

(** A step that is one goroutine's. *)
Lemma work_lt g k r r' : universe r' ⊆ universe r ->
  (forall h, h <> g -> wr_flush r' h = wr_flush r h \/ wr_flush r' h = forget k <$> wr_flush r h) ->
  (pc_work r' (flush_cost r) + flush_work r' g < pc_work r (flush_cost r) + flush_work r g)%nat ->
  (writer_work r' < writer_work r)%nat.
Proof.
  intros Hu Hf Hlt. pose proof (pc_work_le r' _ _ (flush_cost_le r r' Hu)) as Hp.
  assert (forall h, h <> g -> (flush_work r' h <= flush_work r h)%nat) as Hw
    by (intros h Hne; apply (flush_work_le k); auto).
  unfold writer_work. destruct g.
  - pose proof (Hw Ticker ltac:(done)). pose proof (Hw Stopper ltac:(done)). pose proof (Hw Forcer ltac:(done)). lia.
  - pose proof (Hw Receiver ltac:(done)). pose proof (Hw Stopper ltac:(done)). pose proof (Hw Forcer ltac:(done)). lia.
  - pose proof (Hw Receiver ltac:(done)). pose proof (Hw Ticker ltac:(done)). pose proof (Hw Forcer ltac:(done)). lia.
  - pose proof (Hw Receiver ltac:(done)). pose proof (Hw Ticker ltac:(done)). pose proof (Hw Stopper ltac:(done)). lia.
Qed.

(** A step of the flush of [g] that leaves everyone else where they are. *)
Lemma flush_work_lt g fl r : (flush_work (with_flush g (Some fl) r) g < flush_work r g)%nat ->
  (writer_work (with_flush g (Some fl) r) < writer_work r)%nat.
Proof.
  intros Hlt. apply (work_lt g ""); [done| |].
  - intros h Hne. left. cbn. by rewrite decide_False.
  - change (pc_work (with_flush g (Some fl) r)) with (pc_work r). lia.
Qed.

Lemma size_visit (U : gset string) ks k : k ∈ U -> k ∉ ks ->
  size (U ∖ list_to_set ks) = S (size (U ∖ list_to_set (ks ++ [k]))).
Proof.
  intros HU Hk. rewrite list_to_set_app_L, list_to_set_singleton.
  replace (U ∖ list_to_set ks) with ({[k]} ∪ (U ∖ (list_to_set ks ∪ {[k]})) : gset string).
  - rewrite size_union by set_solver. by rewrite size_singleton.
  - apply set_eq. intros k'. destruct (decide (k' = k)); set_solver.
Qed.

Lemma size_group_push (g : gmap string (list BatchItem)) t i : (size (group_push g t i) <= size g + 1)%nat.
Proof. unfold group_push. rewrite map_size_insert. destruct (g !! t); simpl; lia. Qed.

Lemma flush_step_work g e r r' : writer_ok r -> flush_step g e r = Some r' ->
  (writer_work r' < writer_work r)%nat.
Proof.
  intros Hr Hstep. unfold flush_step in Hstep.
  destruct (wr_flush r g) as [[todo grouped ks|[|[table items] todo] ks]|] eqn:Hg; [| | |done].
  - destruct e as [| | | | | | | | | |h k|h| |]; try (by destruct todo).
    + assert ((if decide (k ∈ ks) then None
               else item ← Map_Load (bw_buffers (wr_w r)) k;
                    let '(s, _) := group_item tableList (grouped, ks) k item in
                    Some (with_flush g (Some (Collecting (filter (fun k' => k' <> k) todo) s.1 s.2)) r)) =
              Some r') as E by (by destruct todo).
      destruct (decide (k ∈ ks)) as [|Hk]; [done|].
      destruct (Map_Load (bw_buffers (wr_w r)) k) as [item|] eqn:Ei; [|done].
      cbn [mbind option_bind] in E. unfold group_item in E. rewrite decide_True in E by apply TableName_listed.
      injection E as <-. apply flush_work_lt. unfold flush_work. cbn [wr_flush with_flush with_flushes].
      rewrite decide_True, Hg by done. set (r' := with_flush _ _ _).
      change (universe r') with (universe r). cbn [fst snd]. rewrite (size_visit (universe r) ks k), length_app by
        (done || (apply elem_of_union_l, elem_of_dom; by exists item)).
      pose proof (size_group_push grouped (TableName item) item). simpl. lia.
    + destruct todo; [|done]. injection Hstep as <-. apply flush_work_lt. unfold flush_work.
      cbn [wr_flush with_flush with_flushes]. rewrite decide_True, Hg, length_go_range by done. lia.
  - destruct ks as [|k ks], e; try done; injection Hstep as <-.
    + assert (flushing r g) as Hat by (apply (wo_flushing r Hr); eauto).
      apply (work_lt g ""); [|intros h Hne; left; destruct g; cbn; by rewrite decide_False|].
      { unfold universe, held. destruct g; cbn in *; rewrite ?Hat; done. }
      unfold flush_work. rewrite Hg.
      replace (wr_flush (end_flush g r) g) with (@None flush_state) by (destruct g; cbn; by rewrite decide_True).
      unfold pc_work. destruct g; cbn in *; rewrite ?Hat; try lia.
      destruct Hat as [-> | ->]; lia.
    + apply (work_lt g k).
      * unfold universe. rewrite buffered_delete. unfold held, buffered. cbn. set_solver.
      * intros h Hne. right. cbn. by rewrite decide_False.
      * unfold flush_work. cbn. rewrite decide_True, Hg by done. unfold pc_work. cbn. lia.
  - destruct e; try done. injection Hstep as <-. apply (work_lt g "").
    + done.
    + intros h Hne. left. cbn. by rewrite decide_False.
    + unfold flush_work. cbn. rewrite decide_True, Hg by done. unfold pc_work. cbn. lia.
Qed.

(** A step that is no flush's. *)
Lemma pc_step r r' : universe r' ⊆ universe r -> wr_flush r' = wr_flush r ->
  (pc_work r' (flush_cost r) < pc_work r (flush_cost r))%nat -> (writer_work r' < writer_work r)%nat.
Proof.
  intros Hu Hf Hlt. apply (work_lt Receiver "" r r' Hu); [intros h _; left; by rewrite Hf|].
  pose proof (flush_work_le "" r r' Receiver Hu ltac:(left; by rewrite Hf)). lia.
Qed.

(** A step that starts a flush. *)
Lemma start_flush_work g r0 r : writer_ok r0 -> ~ flushing r0 g -> universe r = universe r0 ->
  wr_flush r = wr_flush r0 ->
  (pc_work r (flush_cost r0) + flush_cost r0 <= pc_work r0 (flush_cost r0))%nat ->
  (writer_work (start_flush g r) < writer_work r0)%nat.
Proof.
  intros Hr Hn Hu Hf Hle. pose proof (flush_idle r0 g Hr Hn) as Hg.
  assert (universe (start_flush g r) = universe r0) as Hu' by exact Hu.
  apply (work_lt g ""); [by rewrite Hu'|intros h Hne; left; cbn; by rewrite decide_False, Hf|].
  unfold flush_work. cbn [wr_flush start_flush with_flush with_flushes]. rewrite decide_True, Hg by done.
  rewrite map_size_empty. fold (start_flush g r). change (pc_work (start_flush g r)) with (pc_work r).
  pose proof (subseteq_size (universe (start_flush g r) ∖ list_to_set []) (universe r0) ltac:(set_solver)).
  unfold flush_cost in *. simpl in *. lia.
Qed.

(** Each step of the writer's own leaves less to do. *)
Lemma own_step_work r e r' : writer_ok r -> own_step e -> wr_exec r e = Some r' ->
  (writer_work r' < writer_work r)%nat.
Proof.
  intros Hr Ho He. destruct e as [item| | | | | | | | | |g k|g|g dao|g]; try done; cbn [wr_exec] in He;
    try (by apply (flush_step_work g) in He).
  - unfold take_step in He.
    destruct (wr_receiver r) eqn:Er, (bw_queue (wr_w r)) as [|i q] eqn:Eq; try done; injection He as <-;
      apply pc_step; rewrite ?Er; try done; unfold universe, held, pc_work; cbn; rewrite ?Er, ?Eq; cbn;
      (set_solver || lia).
  - assert (forall i, DedupKey i ∈ universe r -> universe (put_item r i) ⊆ universe r) as Hput.
    { intros i Hi. unfold universe. replace (buffered (put_item r i)) with (<[DedupKey i := i]> (buffered r))
        by (symmetry; apply Map_data_Store). rewrite dom_insert_L. unfold universe in *. cbn in *. set_solver. }
    unfold store_step in He. destruct (wr_receiver r) as [|i| | | |i|] eqn:Er; try done; injection He as <-;
      (apply pc_step; [|done|unfold pc_work; cbn; rewrite Er; lia]);
      (transitivity (universe (put_item r i)); [|apply Hput]); unfold universe, held; cbn; rewrite Er; set_solver.
  - unfold check_step in He. destruct (wr_receiver r) eqn:Er; try done. destruct (_ <=? _); injection He as <-.
    + apply start_flush_work; [done|by cbn; rewrite Er|unfold universe, held; cbn; by rewrite Er|done|].
      unfold pc_work. cbn. rewrite Er. unfold flush_cost. lia.
    + apply pc_step; [unfold universe, held; cbn; by rewrite Er|done|]. unfold pc_work. cbn. rewrite Er. lia.
  - destruct (wr_receiver r) eqn:Er; try done. destruct (wr_done r); [|done]. injection He as <-.
    apply pc_step; [unfold universe, held; cbn; by rewrite Er|done|]. unfold pc_work. cbn. rewrite Er. lia.
  - destruct (wr_ticker r) eqn:Et; try done. destruct (wr_done r); [|done]. injection He as <-.
    apply start_flush_work; [done|cbn; rewrite Et; by intros []|done..|].
    unfold pc_work. cbn. rewrite Et. unfold flush_cost. lia.
  - destruct (wr_stopper r) eqn:Es; try done. destruct (wr_receiver r) eqn:Er; try done.
    destruct (wr_ticker r) eqn:Et; try done. injection He as <-.
    apply start_flush_work; [done|by cbn; rewrite Es|done..|].
    unfold pc_work. cbn. rewrite Es. unfold flush_cost. lia.
Qed.

(** Hence their steps are bounded, and [Stop] returns. *)
Lemma own_run_bounded evs : forall r r', writer_ok r -> Forall own_step evs -> wr_exec_all r evs = Some r' ->
  (length evs + writer_work r' <= writer_work r)%nat.
Proof.
  induction evs as [|e evs IH]; intros r r' Hr Ho He; [by injection He as <-|].
  rewrite wr_exec_all_cons in He. apply Forall_cons in Ho as [Hoe Ho].
  destruct (wr_exec r e) as [r1|] eqn:E; [|done].
  pose proof (own_step_work r e r1 Hr Hoe E).
  pose proof (IH r1 r' ltac:(by apply (wr_exec_ok r e)) Ho He). simpl. lia.
Qed.

(** What a step of a flush leaves alone. *)
Lemma flush_step_frame g e r r' : flush_step g e r = Some r' ->
  wr_accepted r' = wr_accepted r /\ bw_queue (wr_w r') = bw_queue (wr_w r) /\
  (wr_stopper r' = wr_stopper r \/ wr_stopper r' = SDone) /\
  (wr_receiver r' = RDone -> wr_receiver r = RDone).
Proof.
  intros He. unfold flush_step in He.
  destruct (wr_flush r g) as [[[|k0 todo] grouped ks|[|[table items] todo] [|k0 ks]]|], e; try done;
    try (injection He as <-; destruct g; cbn; split_and!; (done || auto); done).
  all: destruct (decide _); [done|]; destruct (Map_Load _ _); [|done]; cbn in He.
  all: destruct (decide _); injection He as <-; cbn; auto.
Qed.

Lemma stop_persists r e r' : own_step e -> wr_stopper r <> SIdle -> wr_exec r e = Some r' -> wr_stopper r' <> SIdle.
Proof.
  intros Ho Hs He.
  destruct e as [item| | | | | | | | | |g k|g|g dao|g]; try done; cbn [wr_exec] in He;
    try (by apply (flush_step_frame g) in He as (_ & _ & [E|E] & _); congruence);
    unfold take_step, store_step, check_step in He;
    repeat case_match; simplify_eq/=; done.
Qed.

Lemma stop_returns n : forall r, (writer_work r <= n)%nat -> writer_ok r -> wr_stopper r <> SIdle ->
  exists evs r', Forall own_step evs /\ wr_exec_all r evs = Some r' /\ wr_stopper r' = SDone.
Proof.
  induction n as [|n IH]; intros r Hn Hr Hs; destruct (wr_stopper r) eqn:Es; try done;
    try (exists [], r; by repeat split);
    destruct (stop_progresses r Hr ltac:(congruence) ltac:(congruence)) as (e & Ho & [r1 He]);
    pose proof (own_step_work r e r1 Hr Ho He) as Hlt; try lia.
  all: destruct (IH r1 ltac:(lia) ltac:(by apply (wr_exec_ok r e)) ltac:(apply (stop_persists r e); [..|done];
         congruence)) as (evs & r' & Hos & Hes & Hd).
  all: exists (e :: evs), r'; split; [by constructor|split; [|done]]; by rewrite wr_exec_all_cons, He.
Qed.

(** ** Without a producer *)

Definition no_add (e : writer_event) : Prop := match e with WAdd _ => False | _ => True end.

(** The receive loop leaves with the queue empty. *)
Definition drained r : Prop := wr_receiver r = RDone -> bw_queue (wr_w r) = [].

Lemma no_add_step r e r' : no_add e -> drained r -> wr_exec r e = Some r' ->
  drained r' /\ wr_accepted r' = wr_accepted r.
Proof.
  unfold drained. intros Hn Hd He.
  destruct e as [item| | | | | | | | | |g k|g|g dao|g]; try done; cbn [wr_exec] in He;
    try (by apply (flush_step_frame g) in He as (Ea & Eq & _ & Er); rewrite Eq; auto);
    unfold take_step, store_step, check_step in He;
    repeat case_match; simplify_eq/=; (done || auto).
Qed.

Lemma no_add_run evs : forall r r', Forall no_add evs -> drained r -> wr_exec_all r evs = Some r' ->
  drained r' /\ wr_accepted r' = wr_accepted r.
Proof.
  induction evs as [|e evs IH]; intros r r' Hn Hd He; [by injection He as <-|].
  rewrite wr_exec_all_cons in He. apply Forall_cons in Hn as [Hne Hn].
  destruct (wr_exec r e) as [r1|] eqn:E; [|done].
  destruct (no_add_step r e r1 Hne Hd E) as [Hd1 Ha].
  destruct (IH r1 r' Hn Hd1 He) as [Hd' Ha']. split; [done|congruence].
Qed.

(** When [Stop] has returned. *)
Lemma stopped_latest k r : writer_ok r -> key_ok k r -> wr_stopper r = SDone ->
  or_else (last_with k (bw_queue (wr_w r))) (last_with k (written (wr_log r))) = last_with k (wr_accepted r).
Proof.
  intros Hr Hk Hs. pose proof (wo_stopped r Hr) as Hst. unfold stopped_ok in Hst. rewrite Hs in Hst.
  destruct Hst as (Er & _ & Eb). rewrite <- (ko_latest k r Hk). unfold latest, held. rewrite Er, Eb, lookup_empty.
  done.
Qed.
End work.

(** ** A flush that nothing interrupts *)
Section uninterrupted.
Context `{MapRange}.

Lemma visits_run g l : forall r todo grouped ks,
  wr_flush r g = Some (Collecting todo grouped ks) -> NoDup (ks ++ l.*1) ->
  (forall k, k ∈ todo -> k ∈ l.*1) -> (forall k i, (k, i) ∈ l -> buffered r !! k = Some i) ->
  let s := range_list (group_item tableList) (grouped, ks) l in
  exists r', wr_exec_all r (WVisit g <$> l.*1) = Some r' /\
    wr_flush r' g = Some (Collecting [] s.1 s.2) /\ wr_w r' = wr_w r /\ wr_log r' = wr_log r.
Proof.
  induction l as [|[k i] l IH]; intros r todo grouped ks Hg Hnd Htodo Hl s.
  { exists r. split; [done|]. destruct todo as [|k todo]; [done|]. exfalso.
    by apply (not_elem_of_nil k), Htodo; left. }
  assert (k ∉ ks) as Hk.
  { intros Hin. apply NoDup_app in Hnd as (_ & Hnd & _). apply (Hnd k Hin). by left. }
  set (r1 := with_flush g (Some (Collecting (filter (fun k' => k' <> k) todo)
    (group_push grouped (TableName i) i) (ks ++ [k]))) r).
  assert (wr_exec r (WVisit g k) = Some r1) as E.
  { cbn [wr_exec]. unfold flush_step. rewrite Hg, decide_False by done. unfold Map_Load.
    change (map_data _) with (buffered r). rewrite (Hl k i) by left. cbn [mbind option_bind].
    unfold group_item. rewrite decide_True by apply TableName_listed. by destruct todo. }
  destruct (IH r1 (filter (fun k' => k' <> k) todo) (group_push grouped (TableName i) i) (ks ++ [k]))
    as (r' & He & Hf & Hw & Hlog).
  - cbn. by rewrite decide_True.
  - by rewrite <- app_assoc.
  - intros k' [Hne Hin]%list_elem_of_filter. apply Htodo in Hin. by apply elem_of_cons in Hin as [|].
  - intros k' i' Hin. apply Hl. by right.
  - exists r'. subst s. cbn [range_list group_item]. rewrite decide_True by apply TableName_listed.
    split; [|done]. cbn [fmap list_fmap fst]. by rewrite wr_exec_all_cons, E.
Qed.

Lemma upserts_run g dao ks todo : forall r, wr_flush r g = Some (Upserting todo ks) ->
  exists r', wr_exec_all r (replicate (length todo) (WUpsert g dao)) = Some r' /\
    wr_flush r' g = Some (Upserting [] ks) /\ wr_w r' = wr_w r /\
    wr_log r' = wr_log r ++ map (fun '(table, items) => batchUpsert dao table items) todo.
Proof.
  induction todo as [|[t items] todo IH]; intros r Hg.
  { exists r. by rewrite app_nil_r. }
  set (r1 := with_upsert (batchUpsert dao t items) (with_flush g (Some (Upserting todo ks)) r)).
  assert (wr_exec r (WUpsert g dao) = Some r1) as E by (cbn [wr_exec]; unfold flush_step; by rewrite Hg).
  destruct (IH r1) as (r' & He & Hf & Hw & Hl); [cbn; by rewrite decide_True|].
  exists r'. cbn [length replicate]. rewrite wr_exec_all_cons, E. split; [done|]. split; [done|]. split; [done|].
  rewrite Hl. cbn. by rewrite <- app_assoc.
Qed.

Lemma deletes_run g ks : forall r, wr_flush r g = Some (Upserting [] ks) ->
  exists r', wr_exec_all r (replicate (S (length ks)) (WDelete g)) = Some r' /\
    wr_w r' = flush_delete (wr_w r) ks /\ wr_log r' = wr_log r.
Proof.
  induction ks as [|k ks IH]; intros r Hg.
  { exists (end_flush g r). split.
    - cbn [length replicate]. rewrite wr_exec_all_cons. cbn [wr_exec]. unfold flush_step. by rewrite Hg.
    - destruct g; cbn; split; try done; by destruct (wr_w r). }
  set (r1 := delete_key k (with_flush g (Some (Upserting [] ks)) r)).
  assert (wr_exec r (WDelete g) = Some r1) as E by (cbn [wr_exec]; unfold flush_step; by rewrite Hg).
  destruct (IH r1) as (r' & He & Hw & Hl); [cbn; by rewrite decide_True|].
  exists r'. change (replicate (S (length (k :: ks))) (WDelete g))
    with (WDelete g :: replicate (S (length ks)) (WDelete g)). by rewrite wr_exec_all_cons, E.
Qed.

(** [flushAll] of BatchWriter is the flush of one goroutine, begun here, with
    no step of another between its own. *)
Theorem flush_uninterrupted g dao r :
  let '(upserts, ks) := flush_collect dao (wr_w r) tableList in
  exists r',
    wr_exec_all (start_flush g r)
      ((WVisit g <$> (go_range (buffered r)).*1) ++ [WCollected g] ++
       replicate (length upserts) (WUpsert g dao) ++ replicate (S (length ks)) (WDelete g)) = Some r' /\
    wr_w r' = (flushAll dao (wr_w r)).1 /\ wr_log r' = wr_log r ++ (flushAll dao (wr_w r)).2.
Proof.
  unfold flushAll, flush. rewrite decide_False by done. unfold flush_collect, Map_Range.
  change (map_data (bw_buffers (wr_w r))) with (buffered r).
  destruct (visits_run g (go_range (buffered r)) (start_flush g r) (map_to_list (buffered r)).*1 ∅ [])
    as (r1 & E1 & Hf1 & Hw1 & Hl1).
  - cbn. by rewrite decide_True.
  - apply NoDup_fst_go_range.
  - intros k ([k' i] & -> & Hi)%list_elem_of_fmap. apply list_elem_of_fmap. exists (k', i). split; [done|].
    by rewrite go_range_perm.
  - intros k i Hi. by apply elem_of_go_range.
  - destruct (range_list _ _ _) as [grouped ks]. cbn [fst snd] in *.
    set (r2 := with_flush g (Some (Upserting (go_range grouped) ks)) r1).
    assert (wr_exec_all r1 [WCollected g] = Some r2) as E2.
    { rewrite wr_exec_all_cons. cbn [wr_exec]. unfold flush_step. by rewrite Hf1. }
    destruct (upserts_run g dao ks (go_range grouped) r2) as (r3 & E3 & Hf3 & Hw3 & Hl3);
      [cbn; by rewrite decide_True|].
    destruct (deletes_run g ks r3 Hf3) as (r4 & E4 & Hw4 & Hl4).
    exists r4. rewrite length_map, !wr_exec_all_app, E1. cbn [mbind option_bind].
    rewrite wr_exec_all_app, E2. cbn [mbind option_bind]. rewrite wr_exec_all_app, E3.
    cbn [mbind option_bind]. split; [exact E4|]. rewrite Hw4, Hl4, Hw3, Hl3. cbn. by rewrite Hw1, Hl1.
Qed.
End uninterrupted.

(** ** Deciding [calm] *)
Section calmb.
Context `{MapRange}.

Definition free_of (k : string) (o : option flush_state) : bool :=
  match o with Some fl => bool_decide (k ∉ flush_keys fl) | None => true end.

Definition calm_stepb (k : string) (r : writer_run) (e : writer_event) : bool :=
  match e with
  | WStore => bool_decide (Forall (fun i => DedupKey i <> k) (held r)) ||
      forallb (fun g => free_of k (wr_flush r g)) [Receiver; Ticker; Stopper; Forcer]
  | _ => true
  end.

Fixpoint calmb (k : string) (r : writer_run) (evs : list writer_event) : bool :=
  match evs with
  | [] => true
  | e :: evs => calm_stepb k r e && match wr_exec r e with Some r' => calmb k r' evs | None => true end
  end.

Lemma calmb_ok k evs : forall r, calmb k r evs = true -> calm k r evs.
Proof.
  induction evs as [|e evs IH]; intros r; [done|]. cbn [calmb calm]. intros [Hs Hc]%andb_prop. split.
  - destruct e; try done. intros item Hin Ek g fl Hg. unfold calm_stepb in Hs. apply orb_prop in Hs as [Hs|Hs].
    + apply bool_decide_eq_true, Forall_forall with (x := item) in Hs; done.
    + rewrite forallb_forall in Hs. specialize (Hs g ltac:(destruct g; simpl; tauto)).
      unfold free_of in Hs. rewrite Hg in Hs. by apply bool_decide_eq_true in Hs.
  - destruct (wr_exec r e); auto.
Qed.
End calmb.

(** ** The configuration *)

Lemma config_step `{MapRange} r e r' : wr_exec r e = Some r' -> bw_config (wr_w r') = bw_config (wr_w r).
Proof.
  intros He. destruct e as [item| | | | | | | | | |g k|g|g dao|g]; cbn [wr_exec] in He.
  { unfold BatchWriter_Add in He. destruct (_ <? _); by injection He as <-. }
  1-9: unfold take_step, store_step, check_step in He; by repeat case_match; simplify_eq/=.
  all: unfold flush_step in He;
    destruct (wr_flush r g) as [[[|k0 todo] grouped ks|[|[table items] todo] [|k0 ks]]|]; try done;
    try (injection He as <-; by destruct g).
  all: destruct (decide _); [done|]; destruct (Map_Load _ _); [|done]; cbn in He.
  all: by destruct (decide _); injection He as <-.
Qed.

Lemma config_run `{MapRange} evs : forall r r', wr_exec_all r evs = Some r' ->
  bw_config (wr_w r') = bw_config (wr_w r).
Proof.
  induction evs as [|e evs IH]; intros r r' He; [by injection He as <-|].
  rewrite wr_exec_all_cons in He. destruct (wr_exec r e) as [r1|] eqn:E; [|done].
  rewrite (IH r1 r' He). by apply (config_step r e).
Qed.

(** ** What the writer promises *)

(** C21. Last write wins, however producers, the receive loop, the ticker's
    flushes, [Stop] and [GracefulShutdown]'s forced flush interleave, where a step
    is a method of the buffers' map, a channel operation or a database call.
    Every upsert is one database call with all the items of its table.  For
    every key of which no item is stored while a flush is between visiting the key
    and deleting it ([calm]; otherwise an update is lost,
    [concurrent_update_lost]), the last item accepted is still queued, in the
    receive loop's hand or buffered, or else is the last of its key handed to
    the database (which may have refused it).  Once [Stop] is called, the steps
    other than [Add], ticks and the forced flush are bounded in number and can
    lead to its return; then nothing is buffered, and if nothing was added from
    before the receive loop ended, nothing is queued and the last item accepted
    of each such key is the last handed to the database. *)
Theorem writer_last_write_wins `{MapRange} cfg evs r :
  wr_exec_all (wr_start cfg) evs = Some r ->
  Forall (fun u => exists dao, upsert_ok dao u) (wr_log r) /\
  (forall k, calm k (wr_start cfg) evs -> latest r k = last_with k (wr_accepted r)) /\
  (wr_stopper r = SDone -> buffered r = ∅ /\ held r = []) /\
  (wr_stopper r <> SIdle ->
     (forall evs' r', Forall own_step evs' -> wr_exec_all r evs' = Some r' -> (length evs' <= writer_work r)%nat) /\
     exists evs' r', Forall own_step evs' /\ wr_exec_all r evs' = Some r' /\ wr_stopper r' = SDone) /\
  (wr_receiver r <> RDone -> forall evs' r',
     Forall no_add evs' -> wr_exec_all r evs' = Some r' -> wr_stopper r' = SDone ->
     bw_queue (wr_w r') = [] /\ wr_accepted r' = wr_accepted r /\
     forall k, calm k (wr_start cfg) (evs ++ evs') ->
       last_with k (written (wr_log r')) = last_with k (wr_accepted r)).
Proof.
  intros He. pose proof (wr_runs_ok evs _ r (wr_start_ok cfg) He) as Hr. split; [apply (wo_log r Hr)|].
  split; [|split; [|split]].
  - intros k Hc. by apply (wr_runs_key k evs _ r (wr_start_ok cfg) (wr_start_key k cfg) Hc He).
  - intros Hs. pose proof (wo_stopped r Hr) as Hst. unfold stopped_ok in Hst. rewrite Hs in Hst.
    destruct Hst as (Er & _ & Eb). split; [done|]. unfold held. by rewrite Er.
  - intros Hs. split; [|by apply (stop_returns (writer_work r))].
    intros evs' r' Ho He'. pose proof (own_run_bounded evs' r r' Hr Ho He'). lia.
  - intros Hd evs' r' Hn He' Hs.
    assert (wr_exec_all (wr_start cfg) (evs ++ evs') = Some r') as Hall by (by rewrite wr_exec_all_app, He).
    pose proof (wr_runs_ok _ _ r' (wr_start_ok cfg) Hall) as Hr'.
    destruct (no_add_run evs' r r' Hn (fun Hx => False_ind _ (Hd Hx)) He') as [Hdr Ha].
    assert (bw_queue (wr_w r') = []) as Hq.
    { pose proof (wo_stopped r' Hr') as Hst. unfold stopped_ok in Hst. rewrite Hs in Hst. apply Hdr, Hst. }
    split; [done|]. split; [done|]. intros k Hc.
    pose proof (wr_runs_key k _ _ r' (wr_start_ok cfg) (wr_start_key k cfg) Hc Hall) as Hk.
    pose proof (stopped_latest k r' Hr' Hk Hs) as Hl. rewrite Hq, Ha in Hl. exact Hl.
Qed.

(** C40. Bounds of every run of the writer's goroutines and producers, where one
    step is a method of the buffers' map, a channel operation or a database
    call: the configuration never changes and the queue never exceeds its [MaxQueueSize];
    the counter [Len] reads is the number of buffered entries; fewer than
    [BatchSize] are buffered whenever the receive loop waits for or holds an
    item, and at most [BatchSize] while it tests the counter or flushes; [Add] is
    refused with [ErrQueueFull], changing nothing, exactly when the queue is
    full, and otherwise only appends the item. *)
Theorem writer_bounded `{MapRange} cfg evs r :
  wr_exec_all (wr_start cfg) evs = Some r ->
  let w := wr_w r in
  let queued := Z.of_nat (length (bw_queue w)) in
  let entries := Z.of_nat (base.size (buffered r)) in
  bw_config w = bw_config (NewBatchWriter cfg) /\
  queued <= MaxQueueSize (bw_config w) /\
  Map_Len (bw_buffers w) = entries /\
  match wr_receiver r with
  | RLoop | RHold _ => entries < BatchSize (bw_config w)
  | RCheck | RFlushing => entries <= BatchSize (bw_config w)
  | _ => True
  end /\
  forall item,
    (queued = MaxQueueSize (bw_config w) -> BatchWriter_Add w item = (w, ErrQueueFull)) /\
    (queued < MaxQueueSize (bw_config w) ->
       let '(w', err) := BatchWriter_Add w item in
       err = nil_error /\ bw_queue w' = bw_queue w ++ [item] /\
       bw_buffers w' = bw_buffers w /\ bw_config w' = bw_config w).
Proof.
  intros He w queued entries. pose proof (wr_runs_ok evs _ r (wr_start_ok cfg) He) as Hr.
  assert (Map_Len (bw_buffers w) = entries) as El by apply (wo_wf r Hr).
  split; [by apply (config_run evs _ _ He)|]. split; [apply (wo_queue r Hr)|]. split; [done|].
  split; [by rewrite <- El; apply (wo_bound r Hr)|]. intros item. unfold BatchWriter_Add. fold queued.
  split; intros Hq.
  - by rewrite (proj2 (Z.ltb_ge _ _)) by lia.
  - by rewrite (proj2 (Z.ltb_lt _ _)) by lia.
Qed.

(** *** Runs *)

Definition row (value : string) : HlPositionCache :=
  mkHlPositionCache "0xab" "[]" "0.000000" "[]" value "0" "0" "0" 1.
Definition row_item (value : string) : BatchItem := PositionCacheItem "0xab" (row value).
Definition ref_item (oid : Z) : BatchItem :=
  OrderAggregationItem (mkAggRef (Pos.of_nat (Z.to_nat oid)) oid "0xab" "Open Long").

(** A writer of two entries a batch and a queue of two. *)
Definition small_config : option BatchWriterConfig := Some (mkBatchWriterConfig 2 0 2).

(** The receive loop stores an order while the ticker is writing a position. *)
Definition busy_events : list writer_event :=
  [WAdd (row_item "1"); WTake; WStore; WCheck;
   WTick; WVisit Ticker "pc:0xab"; WCollected Ticker;
   WAdd (row_item "2"); WAdd (ref_item 7); WAdd (ref_item 8);      (* the last is refused *)
   WUpsert Ticker (fun _ => nil_error); WDelete Ticker; WDelete Ticker;
   WTake; WStore; WCheck; WTake; WStore; WCheck;                   (* two entries: it flushes *)
   WVisit Receiver "oa:7:0xab:Open Long"; WStop].
(** [Stop] then drains, and everyone flushes. *)
Definition stopping_events : list writer_event :=
  [WTickerDone; WVisit Receiver "pc:0xab"; WCollected Receiver; WVisit Ticker "pc:0xab"; WForce;
   WUpsert Receiver (fun _ => nil_error); WUpsert Receiver (fun _ => Some "locked");
   WDelete Receiver; WDelete Receiver; WDelete Receiver;
   WCollected Forcer; WDelete Forcer;
   WSeeDone; WTake; WCollected Ticker; WUpsert Ticker (fun _ => nil_error); WDelete Ticker; WDelete Ticker;
   WJoined; WCollected Stopper; WDelete Stopper].

Definition run_of (evs : list writer_event) : writer_run :=
  default (wr_start None) (wr_exec_all (H := listing_order) (wr_start small_config) evs).

Lemma run_of_some evs :
  bool_decide (is_Some (wr_exec_all (H := listing_order) (wr_start small_config) evs)) = true ->
  wr_exec_all (H := listing_order) (wr_start small_config) evs = Some (run_of evs).
Proof. intros [r E]%bool_decide_eq_true. unfold run_of. by rewrite E. Qed.

Lemma busy_run :
  wr_exec_all (H := listing_order) (wr_start small_config) busy_events = Some (run_of busy_events).
Proof. apply run_of_some. vm_compute. reflexivity. Qed.

Lemma wr_exec_all_then `{MapRange} r r1 evs1 evs2 :
  wr_exec_all r evs1 = Some r1 -> wr_exec_all r1 evs2 = wr_exec_all r (evs1 ++ evs2).
Proof. intros E. by rewrite wr_exec_all_app, E. Qed.

Lemma stopping_run : wr_exec_all (H := listing_order) (run_of busy_events) stopping_events =
  Some (run_of (busy_events ++ stopping_events)).
Proof.
  exact (eq_trans (wr_exec_all_then (H := listing_order) _ _ _ _ busy_run)
    (run_of_some (busy_events ++ stopping_events) ltac:(vm_compute; reflexivity))).
Qed.

Lemma busy_run_at :
  wr_receiver (run_of busy_events) = RFlushing /\ wr_stopper (run_of busy_events) = SWaiting.
Proof. split; vm_compute; reflexivity. Qed.

Lemma stopping_run_at : wr_stopper (run_of (busy_events ++ stopping_events)) = SDone.
Proof. vm_compute. reflexivity. Qed.

Lemma stopping_calm : calm (H := listing_order) "pc:0xab" (wr_start small_config) (busy_events ++ stopping_events).
Proof. apply calmb_ok. vm_compute. reflexivity. Qed.

Lemma stopping_no_add : Forall no_add stopping_events.
Proof. repeat constructor. Qed.

Lemma writer_last_write_wins_witness :
  bw_queue (wr_w (run_of (busy_events ++ stopping_events))) = [] /\
  last_with "pc:0xab" (written (wr_log (run_of (busy_events ++ stopping_events)))) =
    last_with "pc:0xab" (wr_accepted (run_of busy_events)) /\
  exists evs r, Forall own_step evs /\ wr_exec_all (H := listing_order) (run_of busy_events) evs = Some r /\
    wr_stopper r = SDone.
Proof.
  destruct (writer_last_write_wins (H := listing_order) small_config _ _ busy_run) as (_ & _ & _ & Hs & Hn).
  destruct busy_run_at as [Er Es]. rewrite Er in Hn. rewrite Es in Hs.
  destruct (Hn ltac:(discriminate) _ _ stopping_no_add stopping_run stopping_run_at) as (Hq & _ & Hk).
  split; [exact Hq|]. split; [exact (Hk _ stopping_calm)|]. apply Hs. discriminate.
Defined.

(** The queue full, one entry buffered. *)
Lemma full_run : wr_exec_all (H := listing_order) (wr_start small_config) (take 9 busy_events) =
  Some (run_of (take 9 busy_events)).
Proof. apply run_of_some. vm_compute. reflexivity. Qed.

Lemma full_run_at :
  Z.of_nat (length (bw_queue (wr_w (run_of (take 9 busy_events))))) =
    MaxQueueSize (bw_config (wr_w (run_of (take 9 busy_events)))) /\
  Z.of_nat (base.size (buffered (run_of (take 9 busy_events)))) = 1.
Proof. split; vm_compute; reflexivity. Qed.

Lemma writer_bounded_witness :
  BatchWriter_Add (wr_w (run_of (take 9 busy_events))) (ref_item 8) =
    (wr_w (run_of (take 9 busy_events)), ErrQueueFull) /\
  Map_Len (bw_buffers (wr_w (run_of (take 9 busy_events)))) = 1.
Proof.
  destruct (writer_bounded (H := listing_order) small_config _ _ full_run) as (_ & _ & Hl & _ & Ha).
  destruct full_run_at as [Hf H1]. split; [exact (proj1 (Ha (ref_item 8)) Hf)|]. rewrite Hl. exact H1.
Defined.

(** An item stored while a flush holds its key: the flush writes the item it
    collected and deletes the newer one, which is lost. *)
Definition losing_events : list writer_event :=
  [WAdd (row_item "1"); WTake; WStore; WCheck;
   WTick; WVisit Ticker "pc:0xab"; WCollected Ticker;
   WAdd (row_item "2"); WTake; WStore; WCheck;
   WUpsert Ticker (fun _ => nil_error); WDelete Ticker; WDelete Ticker].

Example concurrent_update_lost :
  let MR := listing_order in
  let r := run_of losing_events in
  wr_exec_all (wr_start small_config) losing_events = Some r /\
  wr_accepted r = [row_item "1"; row_item "2"] /\
  bw_queue (wr_w r) = [] /\ held r = [] /\ buffered r = ∅ /\ written (wr_log r) = [row_item "1"] /\
  calmb "pc:0xab" (wr_start small_config) losing_events = false.
Proof. split; [apply run_of_some|repeat split]; vm_compute; reflexivity. Qed.
