(* ===== verification/Messages.v ===== *)
(** * internal/processor: messages, the status tracker and the message queue

    The messages the managers enqueue (message.go), the tracker of orders that
    ended before any of their fills arrived (status_tracker.go), the processor
    of position messages (position_processor.go) and the asynchronous queue in
    front of a processor (message_queue.go).  A processor is known to the queue
    by the interface [MessageHandler] only. *)

From Stdlib Require Import ZArith Lia.
From stdpp Require Import gmap strings list sorting.
From S2P Require Import Prelude GoStrings Models ConcurrentMap GoCache BatchWriter.
Local Open Scope Z_scope.

(** ** Messages (message.go) *)

(** An [interface{}] field: a value of the type the handler asserts, or
    something else. *)
Inductive boxed (A : Type) : Type :=
| Boxed (a : A)
| OtherValue.
Arguments Boxed {A} a.
Arguments OtherValue {A}.

(** [*PositionCacheData] holds one pointer. *)
Record PositionCacheData := mkPositionCacheData {
  pcd_Cache : HlPositionCache;
}.

Inductive Message : Type :=
| OrderFillMessage (Address : string) (Fill : boxed WsOrderFill) (Direction : string)
| OrderUpdateMessage (Address : string) (Oid : Z) (Status : string) (Direction : string)
| PositionUpdateMessage (Address : string) (Data : boxed PositionCacheData).

Definition Message_Type (m : Message) : string :=
  match m with
  | OrderFillMessage _ _ _ => "order_fill"
  | OrderUpdateMessage _ _ _ _ => "order_update"
  | PositionUpdateMessage _ _ => "position_update"
  end.

Definition NewPositionCacheMessage (addr : string) (cache : HlPositionCache) : Message :=
  PositionUpdateMessage addr (Boxed (mkPositionCacheData cache)).

(** What a processor offers the queue: [HandleMessage] on its state, at an
    instant. *)
Class MessageHandler (S : Type) :=
  HandleMessage : Z -> S -> Message -> outcome (S * error).

(** ** Terminal statuses that came early (status_tracker.go) *)
Section statusTracker.
Context `{GC : GoCache string}.

Record statusTracker := mkStatusTracker {
  st_cache : gc_t string;
}.

Definition NewOrderStatusTracker (ttl : Z) : statusTracker := mkStatusTracker (gc_New ttl).

Definition MarkStatus (t : statusTracker) (now : Z) (address : string) (oid : Z)
    (status : string) : statusTracker :=
  let key := key_s_d address oid in
  mkStatusTracker (gc_Set (st_cache t) now key status).

Definition GetStatus (t : statusTracker) (now : Z) (address : string) (oid : Z)
    : string * bool :=
  let key := key_s_d address oid in
  match gc_Get (st_cache t) now key with
  | Some val => (val, true)
  | None => (EmptyString, false)
  end.

Definition statusTracker_Remove (t : statusTracker) (address : string) (oid : Z)
    : statusTracker :=
  let key := key_s_d address oid in
  mkStatusTracker (gc_Delete (st_cache t) key).

Definition statusTracker_Clear (t : statusTracker) : statusTracker :=
  mkStatusTracker (gc_Flush (st_cache t)).

(** The time a status is remembered. *)
Definition st_ttl (t : statusTracker) : Z := gc_ttl (st_cache t).

Lemma st_ttl_MarkStatus t now a o s : st_ttl (MarkStatus t now a o s) = st_ttl t.
Proof. apply gc_ttl_Set. Qed.

Lemma st_ttl_Remove t a o : st_ttl (statusTracker_Remove t a o) = st_ttl t.
Proof. apply gc_ttl_Delete. Qed.

Lemma GetStatus_MarkStatus t now later a o s :
  0 < st_ttl t -> now <= later <= now + st_ttl t ->
  GetStatus (MarkStatus t now a o s) later a o = (s, true).
Proof.
  intros Ht Hl. unfold GetStatus, MarkStatus. simpl. by rewrite gc_Get_Set_live.
Qed.

Lemma GetStatus_MarkStatus_other t now later a o s a' o' :
  dash_free a -> dash_free a' -> (a, o) <> (a', o') ->
  GetStatus (MarkStatus t now a o s) later a' o' = GetStatus t later a' o'.
Proof.
  intros Ha Ha' Hne. unfold GetStatus, MarkStatus. simpl. rewrite gc_Get_Set_other; [done|].
  intros E. apply Hne. by apply key_s_d_inj in E as [-> ->].
Qed.

Lemma GetStatus_Remove t later a o :
  GetStatus (statusTracker_Remove t a o) later a o = (EmptyString, false).
Proof. unfold GetStatus. simpl. by rewrite gc_Get_Delete, decide_True. Qed.
End statusTracker.
Arguments statusTracker {GC}.

(** The status tracker is a map from orders to their last status with a
    lifetime: a marked status is found until its time ends and no longer,
    removal forgets it at once, [Clear] forgets all, and another order is not
    affected. *)
Theorem statusTracker_spec `{GC : GoCache string} (t : statusTracker) now later a o s :
  0 < st_ttl t -> now <= later -> dash_free a ->
  (later <= now + st_ttl t -> GetStatus (MarkStatus t now a o s) later a o = (s, true)) /\
  (now + st_ttl t < later ->
     GetStatus (MarkStatus t now a o s) later a o = (EmptyString, false)) /\
  GetStatus (statusTracker_Remove t a o) later a o = (EmptyString, false) /\
  GetStatus (statusTracker_Clear t) later a o = (EmptyString, false) /\
  forall a' o', dash_free a' -> (a, o) <> (a', o') ->
    GetStatus (MarkStatus t now a o s) later a' o' = GetStatus t later a' o' /\
    GetStatus (statusTracker_Remove t a o) later a' o' = GetStatus t later a' o'.
Proof.
  intros Ht Hl Ha. split_and!.
  - intros He. by apply GetStatus_MarkStatus.
  - intros He. unfold GetStatus, MarkStatus. simpl. by rewrite gc_Get_Set_expired.
  - apply GetStatus_Remove.
  - unfold GetStatus. simpl. by rewrite gc_Get_Flush.
  - intros a' o' Ha' Hne. split; [by apply GetStatus_MarkStatus_other|].
    unfold GetStatus. simpl. rewrite gc_Get_Delete, decide_False; [done|].
    intros E. apply Hne. by apply key_s_d_inj in E as [-> ->].
Qed.

Lemma statusTracker_spec_witness :
  let GC := reference_go_cache in
  GetStatus (MarkStatus (NewOrderStatusTracker (10 * Minute)) 0 "0xab" 7 "filled")
    Second "0xab" 7 = ("filled", true).
Proof.
  intros GC.
  refine (proj1 (statusTracker_spec (GC := GC) (NewOrderStatusTracker (10 * Minute))
    0 Second "0xab" 7 "filled" _ _ _) _); done.
Defined.

(** ** Position messages (position_processor.go) *)

(** The processor holds a pointer to the batch writer, nil or not. *)
Record PositionProcessor := mkPositionProcessor {
  pp_batchWriter : option BatchWriter;
}.

Definition NewPositionProcessor (bw : option BatchWriter) : PositionProcessor :=
  mkPositionProcessor bw.

Definition handlePositionUpdate (p : PositionProcessor) (Address : string)
    (Data : boxed PositionCacheData) : PositionProcessor * error :=
  match pp_batchWriter p with
  | None => (p, nil_error)
  | Some batchWriter =>
      match Data with
      | OtherValue => (p, nil_error)
      | Boxed data =>
          let item := PositionCacheItem Address (pcd_Cache data) in
          let '(batchWriter, err) := BatchWriter_Add batchWriter item in
          (mkPositionProcessor (Some batchWriter), err)
      end
  end.

#[export] Instance PositionProcessor_HandleMessage : MessageHandler PositionProcessor :=
  fun _ p msg =>
    match msg with
    | PositionUpdateMessage Address Data => Ret (handlePositionUpdate p Address Data)
    | _ => Ret (p, nil_error)
    end.

(** ** The queue (message_queue.go) *)
Section MessageQueue.
Context {S : Type} `{MessageHandler S}.

(** The queue with the state of the handler it points to. *)
Record MessageQueue := mkMessageQueue {
  mq_queue : list Message;
  mq_cap : Z;
  mq_handler : S;
}.

Definition NewMessageQueue (size : Z) (handler : S) : MessageQueue :=
  mkMessageQueue [] (if size <=? 0 then 10000 else size) handler.

Definition MessageQueue_Size (q : MessageQueue) : Z := Z.of_nat (length (mq_queue q)).

Definition SetHandler (q : MessageQueue) (handler : S) : MessageQueue :=
  mkMessageQueue (mq_queue q) (mq_cap q) handler.

(** When the channel is full the caller handles the message itself. *)
Definition Enqueue (now : Z) (q : MessageQueue) (msg : Message)
    : outcome (MessageQueue * error) :=
  if MessageQueue_Size q <? mq_cap q
  then Ret (mkMessageQueue (mq_queue q ++ [msg]) (mq_cap q) (mq_handler q), nil_error)
  else '(h, err) ← HandleMessage now (mq_handler q) msg;
       Ret (mkMessageQueue (mq_queue q) (mq_cap q) h, err).

(** One round of the worker: the handler's error is logged only. *)
Definition worker (now : Z) (q : MessageQueue) : outcome MessageQueue :=
  match mq_queue q with
  | [] => Ret q
  | msg :: rest =>
      '(h, _) ← HandleMessage now (mq_handler q) msg;
      Ret (mkMessageQueue rest (mq_cap q) h)
  end.

(** [Stop]: the worker may still take [n] messages before its [select] picks
    the closed [done]; what is left is never handled. *)
Definition MessageQueue_Stop (now : Z) (n : nat) (q : MessageQueue) : outcome MessageQueue :=
  Nat.iter n (fun o => q ← o; worker now q) (Ret q).

(** Producers and the worker, in any order. *)
Inductive mq_event : Type :=
| MqEnqueue (msg : Message)
| MqWork.

Definition mq_exec (now : Z) (q : MessageQueue) (e : mq_event) : outcome MessageQueue :=
  match e with
  | MqEnqueue msg => '(q, _) ← Enqueue now q msg; Ret q
  | MqWork => worker now q
  end.

Definition mq_run (now : Z) (q : MessageQueue) (evs : list mq_event) : outcome MessageQueue :=
  fold_left (fun o e => q ← o; mq_exec now q e) evs (Ret q).

Definition enqueued (evs : list mq_event) : list Message :=
  omap (fun e => match e with MqEnqueue msg => Some msg | MqWork => None end) evs.
End MessageQueue.
Arguments MessageQueue : clear implicits.

(** The handler that records what it handled: what the queue itself
    guarantees is stated with it. *)
#[export] Instance recorder : MessageHandler (list Message) :=
  fun _ handled msg => Ret (handled ++ [msg], nil_error).

Definition mq_state_ok (cap : Z) (sent : list Message) (q : MessageQueue (list Message)) : Prop :=
  mq_cap q = cap /\ MessageQueue_Size q <= cap /\ mq_handler q ++ mq_queue q ≡ₚ sent.

Lemma mq_exec_ok cap sent now q e :
  mq_state_ok cap sent q ->
  exists q', mq_exec now q e = Ret q' /\ mq_state_ok cap (sent ++ enqueued [e]) q' /\
    (mq_handler q ++ mq_queue q = sent ->
     MessageQueue_Size q < cap ->
     mq_handler q' ++ mq_queue q' = sent ++ enqueued [e]).
Proof.
  destruct q as [queue c h]. unfold mq_state_ok, MessageQueue_Size.
  intros (<- & Hs & Hp). simpl in *. destruct e as [msg|]; simpl.
  - unfold Enqueue, MessageQueue_Size. simpl.
    destruct (Z.ltb_spec (Z.of_nat (length queue)) c) as [Hlt|Hge]; simpl;
      (eexists; split; [reflexivity|]); unfold MessageQueue_Size; simpl.
    + rewrite length_app. simpl. split_and!; [done|lia|by rewrite app_assoc, Hp|].
      intros <- _. by rewrite app_assoc.
    + split_and!; [done|lia| |lia].
      rewrite <- Hp, <- !app_assoc. apply Permutation_app_head, Permutation_app_comm.
  - rewrite app_nil_r. destruct queue as [|msg queue]; cbn [worker mq_queue];
      (eexists; split; [reflexivity|]); unfold MessageQueue_Size; simpl in *; [done|].
    rewrite <- app_assoc. simpl. split_and!; [done|lia|done|done].
Qed.

Lemma mq_run_snoc {S} `{MessageHandler S} now (q : MessageQueue S) evs e :
  mq_run now q (evs ++ [e]) = q' ← mq_run now q evs; mq_exec now q' e.
Proof. unfold mq_run. by rewrite fold_left_app_snoc. Qed.

Lemma enqueued_app l1 l2 : enqueued (l1 ++ l2) = enqueued l1 ++ enqueued l2.
Proof. apply omap_app. Qed.

(** The queue neither loses nor repeats a message, and holds at most its
    capacity: after any run of producers and worker, the messages handled and
    those still queued are exactly those enqueued. *)
Theorem MessageQueue_conserves now size evs :
  exists q, mq_run now (NewMessageQueue size []) evs = Ret q /\
    MessageQueue_Size q <= mq_cap q /\
    mq_handler q ++ mq_queue q ≡ₚ enqueued evs.
Proof.
  set (cap := if size <=? 0 then 10000 else size).
  assert (exists q, mq_run now (NewMessageQueue size []) evs = Ret q /\
            mq_state_ok cap (enqueued evs) q) as (q & Hr & Hc & Hs & Hp).
  { induction evs as [|e evs IH] using rev_ind.
    - eexists. split; [reflexivity|]. unfold mq_state_ok, MessageQueue_Size. simpl.
      split_and!; try done. subst cap. case_match; lia.
    - destruct IH as (q & Hr & Hok). rewrite mq_run_snoc, Hr.
      destruct (mq_exec_ok cap (enqueued evs) now q e Hok) as (q' & He & Hok' & _).
      exists q'. by rewrite enqueued_app. }
  exists q. split_and!; [done|by rewrite Hc|done].
Qed.

(** While the channel never fills up the queue is first-in first-out: the
    messages are handled in the order in which they were enqueued. *)
Theorem MessageQueue_fifo now size evs :
  (forall pre q, pre `prefix_of` evs ->
     mq_run now (NewMessageQueue size []) pre = Ret q -> MessageQueue_Size q < mq_cap q) ->
  exists q, mq_run now (NewMessageQueue size []) evs = Ret q /\
    mq_handler q ++ mq_queue q = enqueued evs.
Proof.
  set (cap := if size <=? 0 then 10000 else size). intros Hroom.
  assert (exists q, mq_run now (NewMessageQueue size []) evs = Ret q /\
            mq_state_ok cap (enqueued evs) q /\
            mq_handler q ++ mq_queue q = enqueued evs) as (q & Hr & _ & Hp); [|by exists q].
  induction evs as [|e evs IH] using rev_ind.
  - eexists. split; [reflexivity|]. unfold mq_state_ok, MessageQueue_Size. simpl.
    split_and!; try done. subst cap. case_match; lia.
  - destruct IH as (q & Hr & Hok & Hp).
    { intros pre q Hpre. apply Hroom. by apply prefix_app_r. }
    rewrite mq_run_snoc, Hr, enqueued_app.
    destruct (mq_exec_ok cap (enqueued evs) now q e Hok) as (q' & He & Hok' & Ho).
    exists q'. split_and!; [done|done|]. apply Ho; [done|].
    destruct Hok as (<- & _). by apply (Hroom evs), Hr; apply prefix_app_r.
Qed.

Definition two_messages : list Message :=
  [OrderFillMessage "0xab" OtherValue "Buy"; OrderUpdateMessage "0xab" 1 "filled" "Buy"].

Lemma MessageQueue_fifo_witness :
  exists q, mq_run 0 (NewMessageQueue 3 []) (map MqEnqueue two_messages) = Ret q /\
    mq_handler q ++ mq_queue q = two_messages.
Proof.
  apply (MessageQueue_fifo 0 3 (map MqEnqueue two_messages)).
  intros pre q [suf E] Hr. cbv [two_messages map] in E.
  destruct pre as [|e1 [|e2 [|e3 pre]]]; cbn [app] in E; simplify_eq;
    vm_compute in Hr; simplify_eq; reflexivity.
Defined.

Lemma mq_run_fill now cap l :
  Z.of_nat (length l) <= cap ->
  mq_run now (mkMessageQueue [] cap []) (map MqEnqueue l) = Ret (mkMessageQueue l cap []).
Proof.
  induction l as [|x l IH] using rev_ind; intros Hl; [done|].
  rewrite length_app in Hl. simpl in Hl.
  rewrite map_app. cbn [map]. rewrite mq_run_snoc, IH by lia. cbn.
  unfold Enqueue, MessageQueue_Size. cbn. by rewrite (proj2 (Z.ltb_lt _ _)) by lia.
Qed.

(** On a full channel a message is handled at once by its producer, before
    the messages that were enqueued earlier and still wait. *)
Theorem MessageQueue_overtakes now size msgs m :
  Z.of_nat (length msgs) = mq_cap (NewMessageQueue size (@nil Message)) ->
  exists q, mq_run now (NewMessageQueue size []) (map MqEnqueue (msgs ++ [m])) = Ret q /\
    mq_handler q = [m] /\ mq_queue q = msgs.
Proof.
  unfold NewMessageQueue. generalize (if size <=? 0 then 10000 else size). simpl.
  intros cap Hl. rewrite map_app. cbn [map].
  rewrite mq_run_snoc, mq_run_fill by lia. cbn.
  unfold Enqueue, MessageQueue_Size. cbn. rewrite (proj2 (Z.ltb_ge _ _)) by lia. cbn.
  by eexists.
Qed.

Lemma MessageQueue_overtakes_witness :
  exists q, mq_run 0 (NewMessageQueue 2 [])
      (map MqEnqueue (two_messages ++ [OrderUpdateMessage "0xab" 1 "canceled" "Buy"])) = Ret q /\
    mq_handler q = [OrderUpdateMessage "0xab" 1 "canceled" "Buy"] /\ mq_queue q = two_messages.
Proof. apply MessageQueue_overtakes. reflexivity. Defined.
