(* ===== verification/OrderProcessor.v ===== *)
(** * internal/processor/order_processor.go

    The aggregation of an order's fills into one signal.  Fills and status
    updates change the pending orders and request flushes; the flush processor
    takes the requests and publishes each order's signal; a scanner requests
    the flush of orders that no status ever ended.

    Pending orders are objects behind pointers: the map holds locations of the
    heap [op_heap], and the batch writer's items hold the same location.  Each
    handler takes the reading of the clock; what the NATS publisher answers to
    a publication is an argument of [flushOrder]. *)

From Stdlib Require Import ZArith Lia Ascii.
From stdpp Require Import gmap strings list.
From S2P Require Import Prelude Float64 GoStrings Models ConcurrentMap GoCache Caches MarketCaches.
From S2P Require Import BatchWriter Messages.
Local Open Scope Z_scope.

(** [PendingOrder]: its two cache pointers are those of the processor. *)
Record PendingOrder := mkPendingOrder {
  po_seenTids : Map Z unit;
  po_Aggregation : OrderAggregation;
  po_FirstFillTime : Z;
}.

Record flushKey := mkFlushKey {
  fk_key : string;
  fk_trigger : string;
  fk_status : string;
}.

#[export] Instance flushKey_eq_dec : EqDecision flushKey.
Proof. solve_decision. Defined.

(** [PendingOrderCache] is a concurrent map of pointers. *)
Definition PendingOrderCache : Type := Map string loc.
Definition NewPendingOrderCache : PendingOrderCache := Map_zero.
Definition PendingOrderCache_Get (c : PendingOrderCache) (key : string) : option loc :=
  Map_Load c key.
Definition PendingOrderCache_Delete (c : PendingOrderCache) (key : string)
    : PendingOrderCache := Map_Delete c key.
Definition PendingOrderCache_Len (c : PendingOrderCache) : Z := Map_Len c.
Definition PendingOrderCache_LoadOrStore (c : PendingOrderCache) (key : string) (order : loc)
    : PendingOrderCache * (loc * bool) := Map_LoadOrStore c key order.
Definition PendingOrderCache_Set (c : PendingOrderCache) (key : string) (order : loc)
    : PendingOrderCache := Map_Store c key order.
Definition PendingOrderCache_Range `{MapRange} {S : Type} (c : PendingOrderCache)
    (f : S -> string -> loc -> S * bool) (s : S) : S := Map_Range c f s.
Definition PendingOrderCache_Clear (c : PendingOrderCache) : PendingOrderCache := Map_Clear c.

(** The record an [OrderAggregationItem] points to, as the batch writer reads it. *)
Definition agg_ref (l : loc) (agg : OrderAggregation) : AggRef :=
  mkAggRef l (agg_Oid agg) (agg_Address agg) (agg_Direction agg).

Section order_processor.
Context `{MapRange} `{Cast} `{GS : GoCache string} `{DD : DedupCacheInterface}.

Record OrderProcessor := mkOrderProcessor {
  op_pendingOrders : PendingOrderCache;
  op_heap : gmap loc PendingOrder;            (* what the pointers point to *)
  op_batchWriter : option BatchWriter;
  op_deduper : option dd_t;
  op_symbolCache : SymbolCache;
  op_positionBalanceCache : option PositionBalanceCache;
  op_pairCategoryCache : PairCategoryCache;
  op_timeout : Z;
  op_flushChan : list flushKey;
  op_statusTracker : statusTracker;
  op_published : list (string * HlAddressSignal);  (* accepted by NATS, with the key flushed *)
  op_rows : list HlAddressSignal;             (* given to dao.Signal().Create *)
}.

Definition NewOrderProcessor (batchWriter : option BatchWriter) (deduper : option dd_t)
    (symbolCache : SymbolCache) (positionBalanceCache : option PositionBalanceCache)
    (pairCategoryCache : PairCategoryCache) : OrderProcessor :=
  mkOrderProcessor NewPendingOrderCache ∅ batchWriter deduper symbolCache
    positionBalanceCache pairCategoryCache (5 * Minute) []
    (NewOrderStatusTracker (10 * Minute)) [] [].

Definition flushChan_cap : Z := 1000.

(** Updates of one field. *)
Definition with_pending (p : OrderProcessor) pendingOrders heap : OrderProcessor :=
  mkOrderProcessor pendingOrders heap (op_batchWriter p) (op_deduper p) (op_symbolCache p)
    (op_positionBalanceCache p) (op_pairCategoryCache p) (op_timeout p) (op_flushChan p)
    (op_statusTracker p) (op_published p) (op_rows p).
Definition with_batchWriter (p : OrderProcessor) w : OrderProcessor :=
  mkOrderProcessor (op_pendingOrders p) (op_heap p) w (op_deduper p) (op_symbolCache p)
    (op_positionBalanceCache p) (op_pairCategoryCache p) (op_timeout p) (op_flushChan p)
    (op_statusTracker p) (op_published p) (op_rows p).
Definition with_deduper (p : OrderProcessor) d : OrderProcessor :=
  mkOrderProcessor (op_pendingOrders p) (op_heap p) (op_batchWriter p) d (op_symbolCache p)
    (op_positionBalanceCache p) (op_pairCategoryCache p) (op_timeout p) (op_flushChan p)
    (op_statusTracker p) (op_published p) (op_rows p).
Definition with_balances (p : OrderProcessor) c : OrderProcessor :=
  mkOrderProcessor (op_pendingOrders p) (op_heap p) (op_batchWriter p) (op_deduper p)
    (op_symbolCache p) c (op_pairCategoryCache p) (op_timeout p) (op_flushChan p)
    (op_statusTracker p) (op_published p) (op_rows p).
Definition SetTimeout (p : OrderProcessor) (timeout : Z) : OrderProcessor :=
  mkOrderProcessor (op_pendingOrders p) (op_heap p) (op_batchWriter p) (op_deduper p)
    (op_symbolCache p) (op_positionBalanceCache p) (op_pairCategoryCache p) timeout
    (op_flushChan p) (op_statusTracker p) (op_published p) (op_rows p).
Definition with_flushChan (p : OrderProcessor) ch : OrderProcessor :=
  mkOrderProcessor (op_pendingOrders p) (op_heap p) (op_batchWriter p) (op_deduper p)
    (op_symbolCache p) (op_positionBalanceCache p) (op_pairCategoryCache p) (op_timeout p)
    ch (op_statusTracker p) (op_published p) (op_rows p).
Definition with_statusTracker (p : OrderProcessor) t : OrderProcessor :=
  mkOrderProcessor (op_pendingOrders p) (op_heap p) (op_batchWriter p) (op_deduper p)
    (op_symbolCache p) (op_positionBalanceCache p) (op_pairCategoryCache p) (op_timeout p)
    (op_flushChan p) t (op_published p) (op_rows p).
Definition log_published (p : OrderProcessor) key signal : OrderProcessor :=
  mkOrderProcessor (op_pendingOrders p) (op_heap p) (op_batchWriter p) (op_deduper p)
    (op_symbolCache p) (op_positionBalanceCache p) (op_pairCategoryCache p) (op_timeout p)
    (op_flushChan p) (op_statusTracker p) (op_published p ++ [(key, signal)]) (op_rows p).
Definition log_row (p : OrderProcessor) signal : OrderProcessor :=
  mkOrderProcessor (op_pendingOrders p) (op_heap p) (op_batchWriter p) (op_deduper p)
    (op_symbolCache p) (op_positionBalanceCache p) (op_pairCategoryCache p) (op_timeout p)
    (op_flushChan p) (op_statusTracker p) (op_published p) (op_rows p ++ [signal]).

(** ** Pure parts *)

Definition orderKey (address : string) (oid : Z) (direction : string) : string :=
  key_s_d_s address oid direction.

Definition isSpotDir (dir : string) : bool :=
  bool_decide (dir = "Buy") || bool_decide (dir = "Sell").

(** The symbol, or the text of the error. *)
Definition convertSymbol (p : OrderProcessor) (coin dir : string) : string + string :=
  if isSpotDir dir then
    match GetSpotSymbol (op_symbolCache p) coin with
    | Some symbol => inl symbol
    | None => inr ("spot coin not found: " +:+ coin)
    end
  else
    let cleanCoin :=
      if contains_char ":" coin then
        match split_char ":" coin with
        | [dex; name] => if decide (dex = "xyz") then name else coin
        | _ => coin
        end
      else coin in
    match GetPerpSymbol (op_symbolCache p) cleanCoin with
    | Some symbol => inl symbol
    | None => inr ("perp coin not found: " +:+ cleanCoin)
    end.

Definition weighted_step (acc : float64 * float64) (f : WsOrderFill) : float64 * float64 :=
  let '(totalSize, totalValue) := acc in
  let sz := ToFloat64 (fill_Sz f) in
  let px := ToFloat64 (fill_Px f) in
  (fadd totalSize sz, fadd totalValue (fmul sz px)).

Definition calculateWeightedAvg (fills : list WsOrderFill) : float64 * float64 :=
  let '(totalSize, totalValue) := fold_left weighted_step fills (f0, f0) in
  if feqb totalSize f0 then (f0, f0) else (totalSize, fdiv totalValue totalSize).

Definition calculatePositionRate (p : OrderProcessor) (address assetType : string)
    (price size : float64) : float64 :=
  match op_positionBalanceCache p with
  | None => f100
  | Some c =>
      let balance := if decide (assetType = "spot") then GetSpotTotal c address
                     else GetAccountValue c address in
      match balance with
      | None => f100
      | Some totalBalance =>
          if fleb totalBalance f0 then f100
          else fmul (fdiv (fmul price size) totalBalance) f100
      end
  end.

Definition calculateCloseRate (p : OrderProcessor) (direction assetType address symbol : string)
    (size : float64) : outcome float64 :=
  if decide (direction <> "close") then Ret f0
  else match op_positionBalanceCache p with
  | None => Ret f0
  | Some c =>
      position ← (if decide (assetType = "spot")
                  then GetSpotBalance c address (trim_suffix symbol "USDC")
                  else GetFuturesPosition c address symbol);
      Ret (match position with
           | None => f0
           | Some currentPosition =>
               if fleb currentPosition f0 then f0
               else if fgtb size currentPosition then f1
               else fdiv size currentPosition
           end)
  end.

(** direction, side and asset type of a signal *)
Definition direction_table (Direction : string) : option (string * string * string) :=
  if decide (Direction = "Open Long") then Some ("open", "LONG", "futures")
  else if decide (Direction = "Open Short") then Some ("open", "SHORT", "futures")
  else if decide (Direction = "Close Long") then Some ("close", "LONG", "futures")
  else if decide (Direction = "Close Short") then Some ("close", "SHORT", "futures")
  else if decide (Direction = "Buy") then Some ("open", "LONG", "spot")
  else if decide (Direction = "Sell") then Some ("close", "LONG", "spot")
  else None.

Definition buildSignal (p : OrderProcessor) (agg : OrderAggregation)
    : outcome (option HlAddressSignal) :=
  match agg_Fills agg with
  | [] => Ret None
  | firstFill :: _ =>
      match direction_table (agg_Direction agg) with
      | None => Ret None
      | Some (direction, side, assetType) =>
          let positionRate := calculatePositionRate p (agg_Address agg) assetType
                                (agg_WeightedAvgPx agg) (agg_TotalSize agg) in
          closeRate ← calculateCloseRate p direction assetType (agg_Address agg)
                        (agg_Symbol agg) (agg_TotalSize agg);
          let coinType := GetCoinType (op_pairCategoryCache p) (agg_Symbol agg) in
          Ret (Some (mkHlAddressSignal (agg_Address agg) assetType (agg_Symbol agg)
                       coinType direction side positionRate closeRate
                       (agg_TotalSize agg) (agg_WeightedAvgPx agg) (fill_Time firstFill)))
      end
  end.

(** ** Effects *)

Definition persistOrder (p : OrderProcessor) (l : loc) (agg : OrderAggregation)
    : OrderProcessor :=
  match op_batchWriter p with
  | None => p
  | Some w => with_batchWriter p
                (Some (fst (BatchWriter_Add w (OrderAggregationItem (agg_ref l agg)))))
  end.

Definition triggerFlush (p : OrderProcessor) (key trigger status : string) : OrderProcessor :=
  if Z.of_nat (length (op_flushChan p)) <? flushChan_cap
  then with_flushChan p (op_flushChan p ++ [mkFlushKey key trigger status])
  else p.

(** The new record of [LoadOrStore]'s argument: its [seenTids] is empty. *)
Definition new_pending (now : Z) (Address : string) (fill : WsOrderFill)
    (Direction symbol : string) : PendingOrder :=
  mkPendingOrder Map_zero
    (mkOrderAggregation (fill_Oid fill) Address Direction symbol [fill]
       (ToFloat64 (fill_Sz fill)) (ToFloat64 (fill_Px fill)) "open" (Unix now) false now now)
    now.

(** The loaded record after a fill with a new tid. *)
Definition append_fill (now : Z) (pending : PendingOrder) (seenTids : Map Z unit)
    (fill : WsOrderFill) : PendingOrder :=
  let agg := po_Aggregation pending in
  let Fills := agg_Fills agg ++ [fill] in
  let '(TotalSize, WeightedAvgPx) := calculateWeightedAvg Fills in
  mkPendingOrder seenTids
    (mkOrderAggregation (agg_Oid agg) (agg_Address agg) (agg_Direction agg) (agg_Symbol agg)
       Fills TotalSize WeightedAvgPx (agg_OrderStatus agg) (Unix now) (agg_SignalSent agg)
       (agg_CreatedAt agg) now)
    (po_FirstFillTime pending).

(** What a fill does to the pending order of its key: [None] when the fill is
    skipped (the order was already sent, or the tid is a duplicate). *)
Definition record_fill (p : OrderProcessor) (now : Z) (key Address : string)
    (fill : WsOrderFill) (Direction symbol : string)
    : outcome (option (OrderProcessor * loc * PendingOrder)) :=
  match PendingOrderCache_Get (op_pendingOrders p) key with
  | None =>
      let pending := new_pending now Address fill Direction symbol in
      let l := fresh (dom (op_heap p)) in
      Ret (Some (with_pending p (fst (Map_LoadOrStore (op_pendingOrders p) key l))
                              (<[l := pending]> (op_heap p)), l, pending))
  | Some l =>
      match op_heap p !! l with
      | None => Panic
      | Some pending =>
          if agg_SignalSent (po_Aggregation pending) then Ret None
          else
            let '(seenTids, (_, tidLoaded)) :=
              Map_LoadOrStore (po_seenTids pending) (fill_Tid fill) tt in
            if (tidLoaded : bool) then Ret None
            else
              let pending := append_fill now pending seenTids fill in
              Ret (Some (with_pending p (op_pendingOrders p)
                                      (<[l := pending]> (op_heap p)), l, pending))
      end
  end.

Definition handleOrderFill (now : Z) (p : OrderProcessor) (Address : string)
    (Fill : boxed WsOrderFill) (Direction : string) : outcome (OrderProcessor * error) :=
  match Fill with
  | OtherValue => Ret (p, Some "invalid fill type")
  | Boxed fill =>
      let key := orderKey Address (fill_Oid fill) Direction in
      if match op_deduper p with
         | Some d => dd_IsSeen d now Address (fill_Oid fill) Direction
         | None => false
         end then Ret (p, nil_error)
      else
        let '(preMarkedStatus, shouldFlushImmediately) :=
          GetStatus (op_statusTracker p) now Address (fill_Oid fill) in
        let symbol := match convertSymbol p (fill_Coin fill) (fill_Dir fill) with
                      | inl symbol => symbol | inr _ => fill_Coin fill end in
        r ← record_fill p now key Address fill Direction symbol;
        match r with
        | None => Ret (p, nil_error)
        | Some (p, l, pending) =>
            let p := persistOrder p l (po_Aggregation pending) in
            if shouldFlushImmediately && bool_decide (preMarkedStatus <> EmptyString)
               && negb (agg_SignalSent (po_Aggregation pending))
            then
              let p := triggerFlush p key "status" preMarkedStatus in
              Ret (with_statusTracker p
                     (statusTracker_Remove (op_statusTracker p) Address (fill_Oid fill)),
                   nil_error)
            else Ret (p, nil_error)
        end
  end.

Definition all_directions : list string :=
  ["Open Long"; "Open Short"; "Close Long"; "Close Short"; "Buy"; "Sell"].

(** The loop's body, and the [else] branch: flush if the order is pending. *)
Definition update_direction (address : string) (oid : Z) (status : string)
    (p : OrderProcessor) (dir : string) : OrderProcessor :=
  let key := orderKey address oid dir in
  match PendingOrderCache_Get (op_pendingOrders p) key with
  | None => p
  | Some _ =>
      let p := triggerFlush p key "status" status in
      with_statusTracker p (statusTracker_Remove (op_statusTracker p) address oid)
  end.

Definition UpdateStatus (now : Z) (p : OrderProcessor) (address : string) (oid : Z)
    (status direction : string) : OrderProcessor :=
  if bool_decide (status = "open") || bool_decide (status = "triggered") then p
  else
    let p := with_statusTracker p (MarkStatus (op_statusTracker p) now address oid status) in
    if decide (direction = EmptyString)
    then fold_left (update_direction address oid status) all_directions p
    else update_direction address oid status p direction.

#[export] Instance OrderProcessor_HandleMessage : MessageHandler OrderProcessor :=
  fun now p msg =>
    match msg with
    | OrderFillMessage Address Fill Direction => handleOrderFill now p Address Fill Direction
    | OrderUpdateMessage Address Oid Status Direction =>
        Ret (UpdateStatus now p Address Oid Status Direction, nil_error)
    | PositionUpdateMessage _ _ => Ret (p, nil_error)
    end.

(** [flushOrder] up to the publication. *)
Definition flush_begin (p : OrderProcessor) (key : string)
    : outcome (option (loc * HlAddressSignal)) :=
  match PendingOrderCache_Get (op_pendingOrders p) key with
  | None => Ret None
  | Some l =>
      match op_heap p !! l with
      | None => Panic
      | Some pending =>
          if agg_SignalSent (po_Aggregation pending) then Ret None
          else
            signal ← buildSignal p (po_Aggregation pending);
            Ret (match signal with Some signal => Some (l, signal) | None => None end)
      end
  end.

Definition mark_sent (now : Z) (status : string) (agg : OrderAggregation) : OrderAggregation :=
  mkOrderAggregation (agg_Oid agg) (agg_Address agg) (agg_Direction agg) (agg_Symbol agg)
    (agg_Fills agg) (agg_TotalSize agg) (agg_WeightedAvgPx agg) status (agg_LastFillTime agg)
    true (agg_CreatedAt agg) now.

(** [flushOrder] from a publication that NATS accepted. *)
Definition flush_commit (now : Z) (p : OrderProcessor) (key status : string) (l : loc)
    (signal : HlAddressSignal) : outcome OrderProcessor :=
  match op_heap p !! l with
  | None => Panic
  | Some pending =>
      let p := log_published p key signal in
      let agg := mark_sent now status (po_Aggregation pending) in
      let p := with_deduper p
        ((fun d => dd_Mark d now (agg_Address agg) (agg_Oid agg) (agg_Direction agg))
           <$> op_deduper p) in
      let p := persistOrder p l agg in
      let p := with_pending p (PendingOrderCache_Delete (op_pendingOrders p) key)
                 (<[l := mkPendingOrder (Map_Clear (po_seenTids pending)) agg
                           (po_FirstFillTime pending)]> (op_heap p)) in
      Ret (log_row p signal)
  end.

Definition flushOrder (now : Z) (publish : HlAddressSignal -> error) (p : OrderProcessor)
    (key trigger status : string) : outcome OrderProcessor :=
  begun ← flush_begin p key;
  match begun with
  | None => Ret p
  | Some (l, signal) =>
      match publish signal with
      | Some _ => Ret p
      | None => flush_commit now p key status l signal
      end
  end.

(** One round of the flush processor, with the task it submits run to its end
    (the pool runs up to 30 tasks at once: [concurrent_flushes_publish_twice]
    interleaves two of them). *)
Definition flushProcessor (now : Z) (publish : HlAddressSignal -> error) (p : OrderProcessor)
    : outcome OrderProcessor :=
  match op_flushChan p with
  | [] => Ret p
  | req :: rest =>
      flushOrder now publish (with_flushChan p rest) (fk_key req) (fk_trigger req)
        (fk_status req)
  end.

Definition timed_out (p : OrderProcessor) (now : Z) (l : loc) : bool :=
  match op_heap p !! l with
  | Some pending => negb (agg_SignalSent (po_Aggregation pending)) &&
                    (po_FirstFillTime pending <? now - op_timeout p)
  | None => false
  end.

Definition scanTimeoutOrders (now : Z) (p : OrderProcessor) : OrderProcessor :=
  Map_Range (op_pendingOrders p)
    (fun p' key l =>
       (if timed_out p now l then triggerFlush p' key "timeout" "filled" else p', true)) p.

Definition ActiveCount (p : OrderProcessor) : Z := PendingOrderCache_Len (op_pendingOrders p).
End order_processor.
Arguments OrderProcessor {GS DD}.
