(* ===== verification/OrderRuns.v ===== *)
(** * Runs of the order processor

    The invariant of the pending orders, its preservation by every handler,
    and what holds in every run of messages, flushes and scans: no handler
    panics, and an order's signal is published at most once per
    deduplication window. *)

From Stdlib Require Import ZArith Lia.
From stdpp Require Import gmap strings list.
From S2P Require Import Prelude Float64 GoStrings Models ConcurrentMap GoCache Caches MarketCaches.
From S2P Require Import BatchWriter Messages OrderProcessor.
Local Open Scope Z_scope.

Section invariant.
Context `{MapRange} `{Cast} `{GS : GoCache string} `{DD : DedupCacheInterface}.

(** The addresses whose messages reach the processor. *)
Context (watched : string -> Prop) (watched_free : forall a, watched a -> dash_free a).
Implicit Types p : OrderProcessor.

(** The caches the processor only reads. *)
Definition op_market p :=
  (op_positionBalanceCache p, op_symbolCache p, op_pairCategoryCache p).

(** What the flush requests, the tracker, the writer and the rows are not. *)
Definition op_core p :=
  (op_pendingOrders p, op_heap p, op_deduper p, op_market p, op_published p).

Lemma persistOrder_core p l agg : op_core (persistOrder p l agg) = op_core p.
Proof. unfold persistOrder. by destruct (op_batchWriter p). Qed.

Lemma triggerFlush_core p key trigger status :
  op_core (triggerFlush p key trigger status) = op_core p.
Proof. unfold triggerFlush. by case_match. Qed.

Lemma update_direction_core a o s p dir : op_core (update_direction a o s p dir) = op_core p.
Proof.
  unfold update_direction. case_match; [|done].
  rewrite <- (triggerFlush_core p (orderKey a o dir) "status" s). done.
Qed.

Lemma UpdateStatus_core now p a o s dir : op_core (UpdateStatus now p a o s dir) = op_core p.
Proof.
  unfold UpdateStatus. destruct (_ || _); [done|]. set (p' := with_statusTracker p _).
  change (op_core p) with (op_core p'). case_decide; [|apply update_direction_core].
  apply (fold_left_inv (fun q => op_core q = op_core p')); [done|].
  intros q d _ <-. apply update_direction_core.
Qed.

Lemma range_list_inv {S K V} (P : S -> Prop) (f : S -> K -> V -> S * bool) l : forall s,
  P s -> (forall s k v, P s -> P (f s k v).1) -> P (range_list f s l).
Proof.
  induction l as [|[k v] l IH]; intros s Hs Hf; simpl; [done|].
  specialize (Hf s k v Hs) as Hk. destruct (f s k v) as [s' []]; [by apply IH|done].
Qed.

Lemma scanTimeoutOrders_core now p : op_core (scanTimeoutOrders now p) = op_core p.
Proof.
  unfold scanTimeoutOrders, Map_Range.
  apply (range_list_inv (fun q => op_core q = op_core p)); [done|].
  intros q key l Hq. simpl. case_match; [by rewrite triggerFlush_core|done].
Qed.

(** The invariant of the pending orders. *)
Record op_ok p : Prop := {
  op_ok_pending : forall key l, map_data (op_pendingOrders p) !! key = Some l ->
    exists po, op_heap p !! l = Some po /\
      let agg := po_Aggregation po in
      key = orderKey (agg_Address agg) (agg_Oid agg) (agg_Direction agg) /\
      watched (agg_Address agg) /\ agg_Fills agg <> [] /\ agg_SignalSent agg = false;
  op_ok_counter : Map_wf (op_pendingOrders p);
  op_ok_balances : forall c, op_positionBalanceCache p = Some c -> PositionBalanceCache_wf c;
}.

Lemma op_ok_core p p' : op_core p' = op_core p -> op_ok p -> op_ok p'.
Proof.
  intros E [H1 H2 H3]. injection E as E1 E2 _ E4 _ _ _.
  constructor; rewrite ?E1, ?E2, ?E4; done.
Qed.

Lemma heap_fresh p : op_heap p !! fresh (dom (op_heap p)) = None.
Proof. apply not_elem_of_dom_1, is_fresh. Qed.

Lemma record_fill_ok p now a fill dir symbol :
  op_ok p -> watched a ->
  exists r, record_fill p now (orderKey a (fill_Oid fill) dir) a fill dir symbol = Ret r /\
  match r with
  | None => True
  | Some (p', l, pending) =>
      op_ok p' /\ op_market p' = op_market p /\
      op_deduper p' = op_deduper p /\ op_published p' = op_published p /\
      (forall key, key <> orderKey a (fill_Oid fill) dir ->
         map_data (op_pendingOrders p') !! key = map_data (op_pendingOrders p) !! key)
  end.
Proof.
  intros [Hp Hc Hb] Ha. unfold record_fill, PendingOrderCache_Get, Map_Load.
  set (key := orderKey a (fill_Oid fill) dir).
  destruct (map_data (op_pendingOrders p) !! key) as [l|] eqn:El.
  - destruct (Hp key l El) as (po & Eh & Ek & Hd & Hf & Hs). rewrite Eh, Hs.
    destruct (Map_LoadOrStore _ _ _) as [tids [u []]]; [by exists None|].
    eexists. split; [reflexivity|]. simpl. split_and!; try done. constructor; try done.
    simpl. intros key' l' El'. destruct (decide (l = l')) as [<-|Hne].
    + rewrite lookup_insert_eq. eexists. split; [reflexivity|].
      destruct (Hp _ _ El') as (po' & Eh' & Ek' & _). rewrite Eh in Eh'.
      injection Eh' as <-. unfold append_fill.
      destruct (calculateWeightedAvg _). simpl. split_and!; try done. by destruct (agg_Fills _).
    + rewrite lookup_insert_ne by done. by apply Hp.
  - eexists. split; [reflexivity|]. simpl.
    unfold Map_LoadOrStore. rewrite El. simpl. split_and!; try done.
    + constructor; try done; simpl.
      * intros key' l'. destruct (decide (key = key')) as [<-|Hne].
        -- rewrite lookup_insert_eq. intros [= <-]. rewrite lookup_insert_eq.
           eexists. by split; [reflexivity|].
        -- rewrite lookup_insert_ne by done. intros El'.
           destruct (Hp _ _ El') as (po & Eh & Hrest). exists po. split; [|done].
           rewrite lookup_insert_ne; [done|]. intros <-.
           by rewrite heap_fresh in Eh.
      * unfold Map_wf in *. simpl. rewrite size_insert_None by done. lia.
    + intros key' Hne. by rewrite lookup_insert_ne.
Qed.
Lemma op_core_fields p p' : op_core p' = op_core p ->
  op_pendingOrders p' = op_pendingOrders p /\ op_market p' = op_market p /\
  op_deduper p' = op_deduper p /\ op_published p' = op_published p.
Proof. intros E. injection E as E1 _ E3 E4 E5 E6 E7. unfold op_market. by rewrite E1, E3, E4, E5, E6, E7. Qed.

(** What a handler other than a flush does to the core: it stays well formed,
    and a key may appear only when its order has not been seen. *)
Definition core_grows now p p' : Prop :=
  op_ok p' /\ op_market p' = op_market p /\
  op_deduper p' = op_deduper p /\ op_published p' = op_published p /\
  forall key, map_data (op_pendingOrders p') !! key <> map_data (op_pendingOrders p) !! key ->
    exists a o r, watched a /\ key = orderKey a o r /\
      forall d, op_deduper p = Some d -> dd_IsSeen d now a o r = false.

Lemma core_grows_same now p p' : op_ok p -> op_core p' = op_core p -> core_grows now p p'.
Proof.
  intros Hp E. destruct (op_core_fields _ _ E) as (E1 & E2 & E3 & E4).
  split_and!; [by eapply op_ok_core|done..|]. intros key Hne. by rewrite E1 in Hne.
Qed.

Lemma core_grows_core now p p1 p' :
  core_grows now p p1 -> op_core p' = op_core p1 -> core_grows now p p'.
Proof.
  intros (H1 & H2 & H3 & H4 & H5) E. destruct (op_core_fields _ _ E) as (E1 & E2 & E3 & E4).
  split_and!; [by eapply op_ok_core|congruence..|]. intros key. rewrite E1. apply H5.
Qed.

Lemma handleOrderFill_ok now p a F dir :
  op_ok p -> watched a ->
  exists p' err, handleOrderFill now p a F dir = Ret (p', err) /\ core_grows now p p'.
Proof.
  intros Hp Ha. unfold handleOrderFill.
  assert (core_grows now p p) as Hpp by by apply core_grows_same.
  destruct F as [fill|]; [|by eexists _, _].
  destruct (match op_deduper p with Some _ => _ | None => _ end) eqn:Hseen; [by eexists _, _|].
  destruct (GetStatus _ _ _ _) as [st found].
  set (symbol := match convertSymbol _ _ _ with inl _ => _ | inr _ => _ end).
  destruct (record_fill_ok p now a fill dir symbol Hp Ha) as (r & -> & Hr).
  destruct r as [[[p1 l] pending]|]; [|by eexists _, _]. cbn [mbind outcome_bind].
  assert (core_grows now p p1) as Hg.
  { destruct Hr as (H1 & H2 & H3 & H4 & H5). split_and!; [done..|]. intros key Hne.
    exists a, (fill_Oid fill), dir. split; [done|]. split.
    - destruct (decide (key = orderKey a (fill_Oid fill) dir)); [done|]. by destruct Hne; apply H5.
    - intros d Hd. by rewrite Hd in Hseen. }
  destruct (_ && _); eexists _, _; (split; [reflexivity|]);
    eapply core_grows_core; try exact Hg; [|apply persistOrder_core].
  transitivity (op_core (persistOrder p1 l (po_Aggregation pending)));
    [|apply persistOrder_core].
  rewrite <- (triggerFlush_core (persistOrder p1 l (po_Aggregation pending))
                (orderKey a (fill_Oid fill) dir) "status" st). done.
Qed.

Definition message_ok (msg : Message) : Prop :=
  match msg with OrderFillMessage a _ _ => watched a | _ => True end.

Lemma HandleMessage_ok now p msg :
  op_ok p ->
  message_ok msg ->
  exists p' err, HandleMessage now p msg = Ret (p', err) /\ core_grows now p p'.
Proof.
  intros Hp Ha. destruct msg as [a F dir|a o s dir|a D]; unfold HandleMessage; simpl.
  - by apply handleOrderFill_ok.
  - eexists _, _. split; [reflexivity|]. apply core_grows_same; [done|].
    apply UpdateStatus_core.
  - eexists _, _. split; [reflexivity|]. by apply core_grows_same.
Qed.

Lemma buildSignal_total p agg :
  op_ok p -> exists o, buildSignal p agg = Ret o /\
    forall s, o = Some s -> sig_Address s = agg_Address agg.
Proof.
  intros [_ _ Hb]. unfold buildSignal, calculateCloseRate.
  destruct (agg_Fills agg); [by eexists|].
  destruct (direction_table _) as [[[dir side] asset]|]; [|by eexists].
  case_decide; [eexists; split; [done|by intros s [= <-]]|].
  destruct (op_positionBalanceCache p) as [c|];
    [|eexists; split; [done|by intros s [= <-]]]. specialize (Hb c eq_refl).
  case_decide.
  - destruct (GetSpotBalance_total c (agg_Address agg) (trim_suffix (agg_Symbol agg) "USDC") Hb)
      as [x ->]. eexists. split; [done|by intros s [= <-]].
  - destruct (GetFuturesPosition_total c (agg_Address agg) (agg_Symbol agg) Hb) as [x ->].
    eexists. split; [done|by intros s [= <-]].
Qed.

Lemma flush_begin_ok p key :
  op_ok p ->
  flush_begin p key = Ret None \/
  exists l signal, flush_begin p key = Ret (Some (l, signal)) /\
    map_data (op_pendingOrders p) !! key = Some l /\
    exists o r, key = orderKey (sig_Address signal) o r /\ watched (sig_Address signal).
Proof.
  intros Hp. unfold flush_begin, PendingOrderCache_Get, Map_Load.
  destruct (map_data _ !! key) as [l|] eqn:El; [|by left].
  destruct (op_ok_pending p Hp key l El) as (po & -> & Ek & Hw & _ & ->).
  destruct (buildSignal_total p (po_Aggregation po) Hp) as ([s|] & -> & Hs); [right|by left].
  eexists _, _. rewrite (Hs s eq_refl). split_and!; [done..|]. by eexists _, _.
Qed.

Lemma flush_commit_ok now p key status l signal :
  op_ok p -> map_data (op_pendingOrders p) !! key = Some l ->
  exists p' a o r, flush_commit now p key status l signal = Ret p' /\
    op_ok p' /\ op_market p' = op_market p /\ watched a /\ key = orderKey a o r /\
    op_deduper p' = (fun d => dd_Mark d now a o r) <$> op_deduper p /\
    op_published p' = op_published p ++ [(key, signal)] /\
    map_data (op_pendingOrders p') = delete key (map_data (op_pendingOrders p)).
Proof.
  intros [Hp Hc Hb] El. destruct (Hp key l El) as (po & Eh & Ek & Hd & Hf & Hs).
  unfold flush_commit. rewrite Eh.
  set (p1 := persistOrder _ _ _).
  assert (op_core p1 = (op_pendingOrders p, op_heap p,
    (fun d => dd_Mark d now (agg_Address (po_Aggregation po)) (agg_Oid (po_Aggregation po))
       (agg_Direction (po_Aggregation po))) <$> op_deduper p, op_market p,
    op_published p ++ [(key, signal)])) as E by (subst p1; by rewrite persistOrder_core).
  clearbody p1. injection E as E1 E2 E3 E4 E5 E6 E7.
  eexists _, (agg_Address (po_Aggregation po)), (agg_Oid (po_Aggregation po)),
    (agg_Direction (po_Aggregation po)).
  split; [reflexivity|]. simpl. unfold PendingOrderCache_Delete.
  rewrite E3, E7, Map_data_Delete, E1. split_and!; try done;
    [|unfold op_market; simpl; congruence]. constructor; simpl.
  - intros key' l'. unfold PendingOrderCache_Delete.
    rewrite Map_data_Delete, lookup_delete_Some. intros [Hne El'].
    destruct (Hp _ _ El') as (po' & Eh' & Ek' & Hrest). exists po'. split; [|done].
    rewrite lookup_insert_ne; [by rewrite E2|]. intros <-. rewrite Eh in Eh'.
    injection Eh' as <-. congruence.
  - by apply Map_Delete_wf.
  - rewrite E4. done.
Qed.
(** ** Runs *)

(** The steps of a run, each with the instant at which it happens: a message
    from the queue, a flush request served with the publisher's answer, a scan,
    and the position manager's update of the shared balance cache. *)
Inductive op_event : Type :=
| OpMessage (msg : Message)
| OpFlush (publish : HlAddressSignal -> error)
| OpScan
| OpBalances (address : string) (spotTotal accountValue : float64)
    (balances : list SpotBalanceItem) (positions : list PositionItem).

Definition op_exec (now : Z) p (e : op_event) : outcome OrderProcessor :=
  match e with
  | OpMessage msg => '(p, _) ← HandleMessage now p msg; Ret p
  | OpFlush publish => flushProcessor now publish p
  | OpScan => Ret (scanTimeoutOrders now p)
  | OpBalances address st av b pos =>
      Ret (with_balances p ((fun c =>
             PositionBalanceCache_Set c address st av (Some b) (Some pos))
             <$> op_positionBalanceCache p))
  end.

Fixpoint op_run p (evs : list (Z * op_event)) : outcome OrderProcessor :=
  match evs with
  | [] => Ret p
  | (now, e) :: evs => p ← op_exec now p e; op_run p evs
  end.

(** The clock does not go back, and stops at [t_end]. *)
Fixpoint clock_until (t_end now : Z) (evs : list (Z * op_event)) : Prop :=
  match evs with
  | [] => True
  | (t, _) :: evs => now <= t <= t_end /\ clock_until t_end t evs
  end.

Definition address_ok (e : Z * op_event) : Prop :=
  match e.2 with OpMessage msg => message_ok msg | _ => True end.

(** What was published is for a watched address, is seen until [t_end] and no
    longer pending. *)
Definition sent_ok (t_end now : Z) p : Prop :=
  NoDup (op_published p).*1 /\
  exists d, op_deduper p = Some d /\ 0 < dd_window d /\ t_end <= now + dd_window d /\
  forall key signal, (key, signal) ∈ op_published p ->
    map_data (op_pendingOrders p) !! key = None /\
    let a := sig_Address signal in
    exists o r, key = orderKey a o r /\ watched a /\
      forall t, now <= t <= t_end -> dd_IsSeen d t a o r = true.

Lemma sent_ok_later t_end now now' p :
  sent_ok t_end now p -> now <= now' -> sent_ok t_end now' p.
Proof.
  intros (Hnd & d & Hd & Hw & Ht & Hs) Hl. split; [done|]. exists d.
  split_and!; [done..|lia|]. intros key s Hk. destruct (Hs key s Hk) as (H1 & o & r & H2 & H3 & H4).
  split; [done|]. exists o, r. split_and!; [done..|]. intros t Htt. apply H4. lia.
Qed.

Lemma orderKey_inj a o r a' o' r' :
  watched a -> watched a' -> orderKey a o r = orderKey a' o' r' -> (a, o, r) = (a', o', r').
Proof.
  intros ??%watched_free E. by apply key_s_d_s_inj in E as (-> & -> & ->); [|apply watched_free|].
Qed.

Lemma sent_ok_grows t_end now p p' :
  sent_ok t_end now p -> now <= t_end -> core_grows now p p' -> sent_ok t_end now p'.
Proof.
  intros (Hnd & d & Hd & Hw & Ht & Hs) Hle (_ & _ & Ed & Ep & Hg).
  rewrite <- Ep in *. rewrite <- Ed in Hd. split; [done|]. exists d. split_and!; [done..|].
  intros key s Hk. destruct (Hs key s Hk) as (Hn & o & r & Ek & Ha & Hseen).
  split; [|by exists o, r].
  destruct (decide (map_data (op_pendingOrders p') !! key = map_data (op_pendingOrders p) !! key))
    as [->|Hne]; [done|].
  destruct (Hg key Hne) as (a' & o' & r' & Ha' & Ek' & Hns). rewrite Ek in Ek'.
  apply orderKey_inj in Ek'; [|done..]. simplify_eq.
  specialize (Hns d ltac:(congruence)). rewrite Hseen in Hns; [done|lia].
Qed.

Lemma sent_ok_flush t_end now p p' key l a o r signal :
  sent_ok t_end now p -> now <= t_end ->
  map_data (op_pendingOrders p) !! key = Some l ->
  a = sig_Address signal -> watched a -> key = orderKey a o r ->
  op_deduper p' = (fun d => dd_Mark d now a o r) <$> op_deduper p ->
  op_published p' = op_published p ++ [(key, signal)] ->
  map_data (op_pendingOrders p') = delete key (map_data (op_pendingOrders p)) ->
  sent_ok t_end now p'.
Proof.
  intros (Hnd & d & Hd & Hw & Ht & Hs) Hle El -> Ha Ek Ed Ep Em.
  rewrite Hd in Ed. unfold sent_ok. rewrite Ep, Ed, Em, fmap_app.
  split.
  - apply NoDup_app. split_and!; [done| |apply NoDup_singleton].
    intros k ([k' s] & -> & Hk)%list_elem_of_fmap Hke%list_elem_of_singleton. simpl in Hke. subst k'.
    destruct (Hs key s Hk) as [Hn _]. congruence.
  - eexists. split; [reflexivity|]. rewrite dd_window_Mark. split_and!; [done..|].
    intros k s [Hk|Hk%list_elem_of_singleton]%elem_of_app.
    + destruct (Hs k s Hk) as (Hn & o' & r' & Ek' & Ha' & Hseen).
      split; [apply lookup_delete_None; by right|]. exists o', r'. split_and!; [done..|].
      intros t Htt. rewrite dd_IsSeen_Mark_other; [by apply Hseen|by apply watched_free..|].
      intros E. assert (k = key) as -> by congruence. congruence.
    + injection Hk as -> ->. split; [apply lookup_delete_eq|]. exists o, r.
      split_and!; [done..|]. intros t Htt. apply dd_IsSeen_Mark; [done|lia].
Qed.

Lemma op_exec_ok t_end now p e :
  op_ok p -> sent_ok t_end now p -> now <= t_end -> address_ok (now, e) ->
  exists p', op_exec now p e = Ret p' /\ op_ok p' /\ sent_ok t_end now p' /\
    match e with OpBalances _ _ _ _ _ => True | _ => op_market p' = op_market p end.
Proof.
  intros Hp Hs Ht Ha. destruct e as [msg|publish| |a st av b pos]; cbn [op_exec].
  - destruct (HandleMessage_ok now p msg Hp) as (p' & err & -> & Hg).
    { exact Ha. }
    exists p'. split_and!; [done|apply Hg|by eapply sent_ok_grows|apply Hg].
  - unfold flushProcessor. destruct (op_flushChan p) as [|req rest]; [by exists p|].
    set (p1 := with_flushChan p rest).
    assert (op_ok p1) as Hp1 by by apply (op_ok_core p).
    assert (sent_ok t_end now p1) as Hs1 by done. unfold flushOrder.
    destruct (flush_begin_ok p1 (fk_key req) Hp1)
      as [->|(l & signal & -> & El & o' & r' & Ek' & Hw)];
      cbn [mbind outcome_bind]; [by exists p1|].
    destruct (publish signal); [by exists p1|].
    destruct (flush_commit_ok now p1 (fk_key req) (fk_status req) l signal Hp1 El)
      as (p' & a & o & r & -> & Hp' & Hmk & Hd & Ek & E1 & E2 & E3).
    exists p'. split_and!; [done..| |done].
    assert ((sig_Address signal, o', r') = (a, o, r)) as [= Ea _ _]
      by (apply orderKey_inj; [done..|congruence]).
    by eapply sent_ok_flush.
  - eexists. split; [reflexivity|]. pose proof (scanTimeoutOrders_core now p) as E.
    split; [by eapply op_ok_core|]. split; [|by apply op_core_fields in E as (_ & -> & _)].
    eapply sent_ok_grows; [done..|]. by apply core_grows_same.
  - eexists. split; [reflexivity|]. split; [|by split].
    destruct Hp as [H1 H2 H3]. constructor; try done. simpl. intros c Hc.
    destruct (op_positionBalanceCache p) as [c'|]; [|done]. simplify_eq/=.
    apply PositionBalanceCache_Set_wf. by apply H3.
Qed.

Lemma op_run_ok t_end evs : forall now p,
  op_ok p -> sent_ok t_end now p -> clock_until t_end now evs -> Forall address_ok evs ->
  exists p', op_run p evs = Ret p' /\ op_ok p' /\ NoDup (op_published p').*1.
Proof.
  induction evs as [|[t e] evs IH]; intros now p Hp Hs Hc Ha; simpl.
  - exists p. split_and!; [done..|apply Hs].
  - destruct Hc as [Ht Hc]. inversion Ha as [|? ? Ha1 Ha2]; subst.
    destruct (op_exec_ok t_end t p e) as (p1 & -> & Hp1 & Hs1 & _); [done| |lia|done|].
    { eapply sent_ok_later; [done|lia]. }
    cbn [mbind outcome_bind]. by eapply IH.
Qed.

Lemma op_ok_new bw d sc bc pc :
  (forall c, bc = Some c -> PositionBalanceCache_wf c) ->
  op_ok (NewOrderProcessor bw d sc bc pc).
Proof.
  intros Hb. constructor; simpl; [|done|done]. intros key l.
  by rewrite lookup_empty.
Qed.
End invariant.

(** C2. No order is signalled twice: in every run of fills, status updates,
    flushes (each completed before the next begins), scans and balance
    updates that fits in one deduplication window, no handler panics and the
    keys of the published signals are pairwise distinct, whatever the database
    and the publisher answer; and the counter of active orders is exact. *)
Theorem signal_at_most_once
    `{MapRange} `{Cast} `{GS : GoCache string} `{DD : DedupCacheInterface}
    bw d sc bc pc t0 evs :
  (forall c, bc = Some c -> PositionBalanceCache_wf c) ->
  0 < dd_window d ->
  clock_until (t0 + dd_window d) t0 evs ->
  Forall (address_ok dash_free) evs ->
  exists p, op_run (NewOrderProcessor bw (Some d) sc bc pc) evs = Ret p /\
    NoDup (op_published p).*1 /\
    ActiveCount p = Z.of_nat (size (map_data (op_pendingOrders p))).
Proof.
  intros Hb Hw Hc Ha.
  destruct (op_run_ok dash_free (fun _ Ha => Ha) (t0 + dd_window d) evs t0 (NewOrderProcessor bw (Some d) sc bc pc))
    as (p & Hr & Hok & Hnd); [by apply op_ok_new| |done..|].
  - split; [apply NoDup_nil_2|]. exists d. split_and!; [done..|lia|].
    intros key s Hk. by apply not_elem_of_nil in Hk.
  - exists p. split_and!; [done..|]. apply (op_ok_counter _ p Hok).
Qed.

(** ** A concrete processor, for the witnesses *)

#[export] Existing Instance listing_order | 100.
#[export] Existing Instance reference_cast | 100.
#[export] Existing Instance reference_go_cache | 100.

Definition sample_symbols : SymbolCache := SetPerpSymbol NewSymbolCache "BTC" "BTCUSDC".

Definition sample_deduper : dd_t :=
  exist _ (NewOrderDeduper 0) (NewOrderDeduper_wf 0).

Definition sample_balances : PositionBalanceCache :=
  PositionBalanceCache_Set NewPositionBalanceCache "0xab" f0 (float64_of_Z 1000)
    (Some []) (Some [mkPositionItem "BTCUSDC" "4" None "0" (mkLeverageItem "cross" 5)
                       "0" "0" "0"]).

Definition sample_processor : OrderProcessor :=
  NewOrderProcessor (Some (NewBatchWriter None)) (Some sample_deduper) sample_symbols
    (Some sample_balances) NewPairCategoryCache.

Definition sample_fill (tid : Z) (dir sz px : string) : WsOrderFill :=
  mkWsOrderFill "BTC" px sz "B" 1700 "0" dir "0" "0xhash" 42 true "0" tid None "USDC" None.

Definition sample_message (tid : Z) (sz px : string) : Message :=
  OrderFillMessage "0xab" (Boxed (sample_fill tid "Close Long" sz px)) "Close Long".

(** Two fills of an order, its final status, a flush NATS refuses, the same
    order's late fill, a timeout scan and flushes. *)
Definition sample_run : list (Z * op_event) :=
  [(1 * Second, OpMessage (sample_message 1 "1" "100"));
   (2 * Second, OpMessage (sample_message 2 "1" "300"));
   (3 * Second, OpMessage (OrderUpdateMessage "0xab" 42 "filled" "Close Long"));
   (4 * Second, OpFlush (fun _ => Some "nats: timeout"));
   (400 * Second, OpScan);
   (401 * Second, OpFlush (fun _ => nil_error));
   (402 * Second, OpMessage (sample_message 3 "1" "100"));
   (403 * Second, OpFlush (fun _ => nil_error))].

Example sample_run_signal :
  match op_run sample_processor sample_run with
  | Ret p => map (fun '(key, s) => (key, sig_Size s, sig_Price s, sig_CloseRate s, sig_Direction s))
               (op_published p)
             = [("0xab-42-Close Long", float64_of_Z 2, float64_of_Z 200,
                 fdiv f1 (float64_of_Z 2), "close")]
  | Panic => False
  end.
Proof. vm_compute. reflexivity. Qed.

Lemma sample_balances_wf c :
  op_positionBalanceCache sample_processor = Some c -> PositionBalanceCache_wf c.
Proof. intros [= <-]. apply PositionBalanceCache_Set_wf, NewPositionBalanceCache_wf. Qed.

Lemma signal_at_most_once_witness :
  exists p, op_run sample_processor sample_run = Ret p /\ NoDup (op_published p).*1 /\
    ActiveCount p = Z.of_nat (size (map_data (op_pendingOrders p))).
Proof.
  apply (signal_at_most_once (Some (NewBatchWriter None)) sample_deduper sample_symbols
           (Some sample_balances) NewPairCategoryCache 0 sample_run).
  - exact sample_balances_wf.
  - reflexivity.
  - vm_compute. repeat split; discriminate.
  - repeat constructor.
Defined.
