(* ===== verification/OrderSignals.v ===== *)
(** * What the order processor computes and when it flushes

    The signal of an order (direction table, position and close rates), the
    aggregation of its fills, the rendezvous of fills and terminal statuses,
    the timeout scan, and the concurrency of flushes. *)

From Stdlib Require Import ZArith Lia.
From Stdlib Require Import Floats.SpecFloat.
From stdpp Require Import gmap strings list.
From S2P Require Import Prelude Float64 GoStrings Models ConcurrentMap GoCache Caches MarketCaches.
From S2P Require Import BatchWriter Messages OrderProcessor OrderRuns.
Local Open Scope Z_scope.

Section facts.
Context `{MapRange} `{Cast} `{GS : GoCache string} `{DD : DedupCacheInterface}.
Implicit Types p : OrderProcessor.

(** ** Aggregation *)

(** The aggregate of a non-empty list of fills, as the code defines it: the
    first fill's own numbers, then the weighted average of all. *)
Definition aggregate (fills : list WsOrderFill) : float64 * float64 :=
  match fills with
  | [f] => (ToFloat64 (fill_Sz f), ToFloat64 (fill_Px f))
  | _ => calculateWeightedAvg fills
  end.

(** A sequence of fills of one order, recorded one after the other. *)
Fixpoint record_fills p (now : Z) (a dir : string) (fills : list WsOrderFill)
    : outcome OrderProcessor :=
  match fills with
  | [] => Ret p
  | f :: fills =>
      '(p, _) ← handleOrderFill now p a (Boxed f) dir;
      record_fills p now a dir fills
  end.

Definition unseen p (now : Z) a o dir : Prop :=
  match op_deduper p with Some d => dd_IsSeen d now a o dir = false | None => True end.

Definition unmarked p (now : Z) a o : Prop :=
  GetStatus (op_statusTracker p) now a o = (EmptyString, false).

Lemma unseen_test p now a o dir :
  unseen p now a o dir ->
  match op_deduper p with Some d => dd_IsSeen d now a o dir | None => false end = false.
Proof. unfold unseen. by destruct (op_deduper p). Qed.

(** What [handleOrderFill] is on an unmarked order. *)
Lemma handleOrderFill_unmarked p now a f dir :
  unseen p now a (fill_Oid f) dir -> unmarked p now a (fill_Oid f) ->
  exists symbol, forall r,
    record_fill p now (orderKey a (fill_Oid f) dir) a f dir symbol = Ret r ->
    handleOrderFill now p a (Boxed f) dir =
      Ret (match r with
           | None => p
           | Some (p', l, pending) => persistOrder p' l (po_Aggregation pending)
           end, nil_error).
Proof.
  intros Hs Hm. unfold handleOrderFill. rewrite (unseen_test _ _ _ _ _ Hs), Hm.
  set (symbol := match convertSymbol _ _ _ with inl _ => _ | inr _ => _ end).
  exists symbol. intros r ->. simpl. by destruct r as [[[p' l] pending]|].
Qed.

(** What the tracker and the deduper are not touched by. *)
Lemma persistOrder_side p l agg :
  op_core (persistOrder p l agg) = op_core p /\
  op_statusTracker (persistOrder p l agg) = op_statusTracker p /\
  op_flushChan (persistOrder p l agg) = op_flushChan p.
Proof. unfold persistOrder. by destruct (op_batchWriter p). Qed.

(** The pending order of a key: its record, with the tids seen. *)
Definition pending_at p key l (fills : list WsOrderFill) (tids : list Z) : Prop :=
  map_data (op_pendingOrders p) !! key = Some l /\
  exists po, op_heap p !! l = Some po /\
    agg_Fills (po_Aggregation po) = fills /\
    (agg_TotalSize (po_Aggregation po), agg_WeightedAvgPx (po_Aggregation po)) = aggregate fills /\
    agg_SignalSent (po_Aggregation po) = false /\
    agg_OrderStatus (po_Aggregation po) = "open" /\
    forall tid, is_Some (map_data (po_seenTids po) !! tid) <-> tid ∈ tids.

(** The state of a processor besides the order under a key. *)
Definition same_side p p' : Prop :=
  op_deduper p' = op_deduper p /\ op_statusTracker p' = op_statusTracker p /\
  op_flushChan p' = op_flushChan p /\ op_published p' = op_published p.

Lemma persist_pending p p1 l agg key fills tids :
  pending_at p1 key l fills tids -> same_side p p1 ->
  pending_at (persistOrder p1 l agg) key l fills tids /\ same_side p (persistOrder p1 l agg).
Proof.
  intros Hp Hs. destruct (persistOrder_side p1 l agg) as (E & E2 & E3).
  injection E as E4 E5 E6 _ _ _ E8.
  unfold pending_at, same_side in *. by rewrite E2, E3, E4, E5, E6, E8.
Qed.

Lemma record_fill_new p now a f dir symbol :
  map_data (op_pendingOrders p) !! orderKey a (fill_Oid f) dir = None ->
  exists p' l po, record_fill p now (orderKey a (fill_Oid f) dir) a f dir symbol = Ret (Some (p', l, po)) /\
    pending_at p' (orderKey a (fill_Oid f) dir) l [f] [] /\ same_side p p' /\
    op_heap p !! l = None /\ (forall l', l' <> l -> op_heap p' !! l' = op_heap p !! l').
Proof.
  intros Hn. set (key := orderKey _ _ _) in *. unfold record_fill, PendingOrderCache_Get, Map_Load.
  rewrite Hn. eexists _, _, _. split; [reflexivity|]. unfold Map_LoadOrStore. rewrite Hn. simpl.
  split; [split; [apply lookup_insert_eq|]|].
  - eexists. simpl. rewrite lookup_insert_eq. split; [reflexivity|]. split_and!; try done.
    intros tid. simpl. rewrite lookup_empty. split; [by intros []|set_solver].
  - split; [done|]. split; [apply heap_fresh|]. intros l' Hl. by rewrite lookup_insert_ne.
Qed.

Lemma record_fill_more p now a f dir symbol l fills tids :
  pending_at p (orderKey a (fill_Oid f) dir) l fills tids -> fills <> [] ->
  exists r, record_fill p now (orderKey a (fill_Oid f) dir) a f dir symbol = Ret r /\
  match r with
  | None => fill_Tid f ∈ tids
  | Some (p', l', _) => l' = l /\ fill_Tid f ∉ tids /\ same_side p p' /\
      pending_at p' (orderKey a (fill_Oid f) dir) l (fills ++ [f]) (fill_Tid f :: tids) /\
      (forall l', l' <> l -> op_heap p' !! l' = op_heap p !! l')
  end.
Proof.
  intros (El & po & Eh & Ef & Eagg & Esent & Est & Etids) Hne. set (key := orderKey _ _ _) in *.
  unfold record_fill, PendingOrderCache_Get, Map_Load. rewrite El, Eh, Esent.
  specialize (Etids (fill_Tid f)) as Et. unfold Map_LoadOrStore.
  destruct (map_data (po_seenTids po) !! fill_Tid f) as [u|] eqn:Eseen; eexists; (split; [reflexivity|]).
  { apply Et. by eexists. }
  split; [done|]. split; [intros Hin; apply Et in Hin; by destruct Hin|]. split; [done|].
  split; [|intros l' Hl; simpl; by rewrite lookup_insert_ne].
  split; [done|]. eexists. simpl. rewrite lookup_insert_eq. split; [reflexivity|]. unfold append_fill. rewrite Ef.
  destruct (calculateWeightedAvg (fills ++ [f])) as [ts px] eqn:Ew. simpl. split_and!; try done.
  - rewrite <- Ew. unfold aggregate. destruct fills as [|f1 [|f2 fills]]; done.
  - intros tid. rewrite lookup_insert_is_Some', Etids. set_solver.
Qed.

Lemma first_fill_pending p now a f dir :
  unseen p now a (fill_Oid f) dir -> unmarked p now a (fill_Oid f) ->
  map_data (op_pendingOrders p) !! orderKey a (fill_Oid f) dir = None ->
  exists p' l, handleOrderFill now p a (Boxed f) dir = Ret (p', nil_error) /\
    pending_at p' (orderKey a (fill_Oid f) dir) l [f] [] /\ same_side p p'.
Proof.
  intros Hs Hm Hn. destruct (handleOrderFill_unmarked p now a f dir Hs Hm) as [symbol Hr].
  destruct (record_fill_new p now a f dir symbol Hn) as (p' & l & po & E & Hp & Hside & _).
  rewrite (Hr _ E). eexists _, l. split; [reflexivity|]. by apply persist_pending.
Qed.

Lemma next_fill_pending p now a f dir l fills tids :
  unseen p now a (fill_Oid f) dir -> unmarked p now a (fill_Oid f) ->
  pending_at p (orderKey a (fill_Oid f) dir) l fills tids -> fills <> [] ->
  exists p', handleOrderFill now p a (Boxed f) dir = Ret (p', nil_error) /\
    same_side p p' /\
    pending_at p' (orderKey a (fill_Oid f) dir) l
      (if decide (fill_Tid f ∈ tids) then fills else fills ++ [f]) (fill_Tid f :: tids).
Proof.
  intros Hs Hm Hp Hne. destruct (handleOrderFill_unmarked p now a f dir Hs Hm) as [symbol Hr].
  destruct (record_fill_more p now a f dir symbol l fills tids Hp Hne) as ([[[p' l'] po]|] & E & Hcase);
    rewrite (Hr _ E); (eexists; split; [reflexivity|]).
  - destruct Hcase as (-> & Hn & Hside & Hp' & _). rewrite decide_False by done.
    apply and_comm. by apply persist_pending.
  - rewrite decide_True by done. split; [done|]. destruct Hp as (El & po & Eh & Ef & Eagg & Esent & Est & Etids).
    split; [done|]. exists po. split_and!; [done..|]. intros tid. rewrite Etids. set_solver.
Qed.

(** Fills of the order, none with a tid seen twice after the first fill. *)
Fixpoint keep_new (tids : list Z) (fills : list WsOrderFill) : list WsOrderFill :=
  match fills with
  | [] => []
  | f :: fills =>
      if decide (fill_Tid f ∈ tids) then keep_new (fill_Tid f :: tids) fills
      else f :: keep_new (fill_Tid f :: tids) fills
  end.

Lemma record_fills_pending now a dir oid rest : forall p l fills tids,
  unseen p now a oid dir -> unmarked p now a oid ->
  pending_at p (orderKey a oid dir) l fills tids -> fills <> [] ->
  Forall (fun f => fill_Oid f = oid) rest ->
  exists p' tids', record_fills p now a dir rest = Ret p' /\ same_side p p' /\
    pending_at p' (orderKey a oid dir) l (fills ++ keep_new tids rest) tids'.
Proof.
  induction rest as [|f rest IH]; intros p l fills tids Hs Hm Hp Hne Ho; cbn [record_fills keep_new].
  { exists p, tids. rewrite app_nil_r. done. }
  inversion Ho as [|? ? <- Ho']; subst.
  destruct (next_fill_pending p now a f dir l fills tids Hs Hm Hp Hne)
    as (p1 & -> & Hside & Hp1). cbn [mbind outcome_bind].
  destruct Hside as (D1 & D2 & D3 & D4).
  destruct (IH p1 l _ _ ltac:(by unfold unseen; rewrite D1)
    ltac:(by unfold unmarked; rewrite D2) Hp1) as (p' & tids' & -> & (F1 & F2 & F3 & F4) & Hp');
    [by case_decide; destruct fills|done|].
  exists p', tids'. split; [done|]. split; [split_and!; congruence|].
  case_decide; by rewrite <- ?app_assoc in Hp'.
Qed.
Lemma keep_new_all rest : forall tids,
  NoDup (map fill_Tid rest) -> (forall f, f ∈ rest -> fill_Tid f ∉ tids) ->
  keep_new tids rest = rest.
Proof.
  induction rest as [|f rest IH]; intros tids Hnd Hn; [done|]. cbn [keep_new].
  apply NoDup_cons in Hnd as [Hf Hnd]. rewrite decide_False by (apply Hn; left).
  f_equal. apply IH; [done|]. intros g Hg [E|Hin]%elem_of_cons.
  - apply Hf. rewrite <- E. by apply list_elem_of_fmap_2.
  - by apply (Hn g); [right|].
Qed.

Lemma record_fills_from_new p now a dir f rest :
  unseen p now a (fill_Oid f) dir -> unmarked p now a (fill_Oid f) ->
  map_data (op_pendingOrders p) !! orderKey a (fill_Oid f) dir = None ->
  Forall (fun g => fill_Oid g = fill_Oid f) rest ->
  exists p' l tids, record_fills p now a dir (f :: rest) = Ret p' /\ same_side p p' /\
    pending_at p' (orderKey a (fill_Oid f) dir) l (f :: keep_new [] rest) tids.
Proof.
  intros Hs Hm Hn Ho. cbn [record_fills].
  destruct (first_fill_pending p now a f dir Hs Hm Hn) as (p1 & l & -> & Hp1 & Hside).
  cbn [mbind outcome_bind]. destruct Hside as (D1 & D2 & D3 & D4).
  destruct (record_fills_pending now a dir (fill_Oid f) rest p1 l [f] [])
    as (p' & tids' & Hr & (F1 & F2 & F3 & F4) & Hp');
    [by unfold unseen; rewrite D1|by unfold unmarked; rewrite D2|done|done|done|].
  exists p', l, tids'. split; [done|]. split; [split_and!; congruence|done].
Qed.

Lemma record_fills_ok now a dir fills : forall p,
  op_ok dash_free p -> dash_free a ->
  exists p', record_fills p now a dir fills = Ret p' /\ op_ok dash_free p'.
Proof.
  induction fills as [|f fills IH]; intros p Hp Ha; cbn [record_fills]; [by exists p|].
  destruct (handleOrderFill_ok _ now p a (Boxed f) dir Hp Ha) as (p1 & err & -> & Hg).
  cbn [mbind outcome_bind]. apply IH; [apply Hg|done].
Qed.

(** ** Flush requests *)

Lemma triggerFlush_chan p key trigger status :
  (length (op_flushChan p) <= 1000)%nat ->
  op_flushChan (triggerFlush p key trigger status) =
  take 1000 (op_flushChan p ++ [mkFlushKey key trigger status]).
Proof.
  intros Hl. unfold triggerFlush, flushChan_cap.
  destruct (Z.ltb_spec (Z.of_nat (length (op_flushChan p))) 1000) as [Hlt|Hge]; simpl.
  - rewrite take_ge; [done|]. rewrite length_app. simpl. lia.
  - rewrite take_app_le by lia. rewrite take_ge by lia. done.
Qed.

Lemma take_snoc_more {A} n (l : list A) r : take n (take n l ++ r) = take n (l ++ r).
Proof.
  destruct (decide (length l <= n)%nat) as [Hl|Hl].
  - by rewrite (take_ge l n) by lia.
  - rewrite !take_app_le by (rewrite ?length_take; lia). by rewrite take_take, Nat.min_id.
Qed.

(** The requests a list of directions makes for an order. *)
Definition status_requests p a oid status dirs : list flushKey :=
  omap (fun dir => match map_data (op_pendingOrders p) !! orderKey a oid dir with
                   | Some _ => Some (mkFlushKey (orderKey a oid dir) "status" status)
                   | None => None end) dirs.

Lemma update_direction_chan p a oid status dir :
  (length (op_flushChan p) <= 1000)%nat ->
  op_flushChan (update_direction a oid status p dir) =
    take 1000 (op_flushChan p ++ status_requests p a oid status [dir]).
Proof.
  intros Hl. unfold update_direction, PendingOrderCache_Get, Map_Load.
  unfold status_requests. simpl.
  destruct (map_data (op_pendingOrders p) !! orderKey a oid dir); simpl;
    [by apply triggerFlush_chan|]. rewrite app_nil_r, take_ge by lia. done.
Qed.

Lemma update_directions_chan a oid status dirs : forall p,
  (length (op_flushChan p) <= 1000)%nat ->
  op_flushChan (fold_left (update_direction a oid status) dirs p) =
    take 1000 (op_flushChan p ++ status_requests p a oid status dirs).
Proof.
  induction dirs as [|dir dirs IH]; intros p Hl; simpl.
  { rewrite app_nil_r, take_ge by lia. done. }
  set (p1 := update_direction a oid status p dir).
  pose proof (update_direction_chan p a oid status dir Hl) as Hc. fold p1 in Hc.
  rewrite IH by (rewrite Hc, length_take; lia). rewrite Hc, take_snoc_more, <- app_assoc.
  assert (op_pendingOrders p1 = op_pendingOrders p) as E.
  { pose proof (update_direction_core a oid status p dir) as E. by injection E. }
  unfold status_requests. rewrite E. simpl.
  by destruct (map_data (op_pendingOrders p) !! orderKey a oid dir).
Qed.

(** Fills of an order and direction leave the other pending orders alone. *)
Lemma handleOrderFill_other now p a f dir p' err k :
  handleOrderFill now p a (Boxed f) dir = Ret (p', err) -> k <> orderKey a (fill_Oid f) dir ->
  map_data (op_pendingOrders p') !! k = map_data (op_pendingOrders p) !! k.
Proof.
  unfold handleOrderFill. intros Hr Hk.
  destruct (match op_deduper p with Some _ => _ | None => _ end); [by injection Hr as <- <-|].
  destruct (GetStatus _ _ _ _) as [st found].
  set (symbol := match convertSymbol _ _ _ with inl _ => _ | inr _ => _ end) in Hr.
  assert (forall p1 l po, record_fill p now (orderKey a (fill_Oid f) dir) a f dir symbol =
            Ret (Some (p1, l, po)) ->
          map_data (op_pendingOrders p1) !! k = map_data (op_pendingOrders p) !! k) as Hrec.
  { intros p1 l po. unfold record_fill, PendingOrderCache_Get, Map_Load.
    destruct (map_data (op_pendingOrders p) !! orderKey _ _ _) as [l0|] eqn:El.
    - destruct (op_heap p !! l0) as [po0|]; [|done].
      destruct (agg_SignalSent _); [done|].
      destruct (Map_LoadOrStore _ _ _) as [tids [u []]]; [done|]. by intros [= <- _ _].
    - unfold Map_LoadOrStore. rewrite El. intros [= <- _ _]. simpl. by rewrite lookup_insert_ne. }
  destruct (record_fill _ _ _ _ _ _ _) as [[[[p1 l] po]|]|]; [| |done];
    cbn [mbind outcome_bind] in Hr; [|by injection Hr as <- <-].
  rewrite <- (Hrec p1 l po eq_refl).
  assert (forall q, op_core q = op_core p1 -> map_data (op_pendingOrders q) !! k =
            map_data (op_pendingOrders p1) !! k) as Hcore
    by (intros q Eq; by apply op_core_fields in Eq as [-> _]).
  destruct (_ && _); injection Hr as <- <-; apply Hcore; [|apply persistOrder_core].
  rewrite <- (persistOrder_core p1 l (po_Aggregation po)).
  exact (triggerFlush_core _ _ _ _).
Qed.

Lemma record_fills_other now a dir oid fills : forall p p' k,
  Forall (fun g => fill_Oid g = oid) fills -> record_fills p now a dir fills = Ret p' ->
  k <> orderKey a oid dir -> map_data (op_pendingOrders p') !! k = map_data (op_pendingOrders p) !! k.
Proof.
  induction fills as [|f fills IH]; intros p p' k Ho Hr Hk; cbn [record_fills] in Hr.
  { by injection Hr as <-. }
  inversion Ho as [|? ? Ef Ho']; subst.
  destruct (handleOrderFill now p a (Boxed f) dir) as [[p1 err]|] eqn:E; [|done].
  cbn [mbind outcome_bind] in Hr. rewrite (IH p1 p' k Ho' Hr Hk).
  by eapply handleOrderFill_other.
Qed.

(** One direction of the order is pending: the only request. *)
Lemma status_requests_one p a oid status dir l :
  dir ∈ all_directions -> map_data (op_pendingOrders p) !! orderKey a oid dir = Some l ->
  (forall d, d ∈ all_directions -> d <> dir ->
     map_data (op_pendingOrders p) !! orderKey a oid d = None) ->
  status_requests p a oid status all_directions = [mkFlushKey (orderKey a oid dir) "status" status].
Proof.
  intros Hin Hl Hn. unfold status_requests. apply (omap_one _ _ dir); [| |by rewrite Hl|].
  - apply (bool_decide_unpack _). vm_compute. exact I.
  - done.
  - intros d Hd Hne. by rewrite (Hn d Hd Hne).
Qed.

Definition terminal (status : string) : Prop := status <> "open" /\ status <> "triggered".

Lemma terminal_test status :
  terminal status -> bool_decide (status = "open") || bool_decide (status = "triggered") = false.
Proof. intros [H1 H2]. by rewrite !bool_decide_false. Qed.

Lemma scan_chan now p l : forall q,
  (length (op_flushChan q) <= 1000)%nat ->
  op_flushChan (range_list (fun p' key l =>
    (if timed_out p now l then triggerFlush p' key "timeout" "filled" else p', true)) q l) =
  take 1000 (op_flushChan q ++
    omap (fun '(key, l) => if timed_out p now l
                           then Some (mkFlushKey key "timeout" "filled") else None) l).
Proof.
  induction l as [|[key l] rest IH]; intros q Hq; simpl.
  { rewrite app_nil_r, take_ge by lia. done. }
  destruct (timed_out p now l); [|by apply IH].
  pose proof (triggerFlush_chan q key "timeout" "filled" Hq) as Hc.
  rewrite IH by (rewrite Hc, length_take; lia). rewrite Hc, take_snoc_more, <- app_assoc. done.
Qed.
End facts.

(** ** Theorems *)

Section theorems.
Context `{MapRange} `{Cast} `{GS : GoCache string} `{DD : DedupCacheInterface}.
Implicit Types p : OrderProcessor.

(** Aggregation: fills of an order that is new, unmarked and unseen leave
    one pending order with the first fill and then every fill whose tid was
    not recorded before, in order of arrival; its size and price are the
    first fill's own, or the sum and the weighted average of all fills kept;
    with distinct tids no fill is dropped.  Nothing is published or requested. *)
Theorem fills_aggregate p now a dir f rest :
  unseen p now a (fill_Oid f) dir -> unmarked p now a (fill_Oid f) ->
  map_data (op_pendingOrders p) !! orderKey a (fill_Oid f) dir = None ->
  Forall (fun g => fill_Oid g = fill_Oid f) rest ->
  (exists p' l tids, record_fills p now a dir (f :: rest) = Ret p' /\ same_side p p' /\
    pending_at p' (orderKey a (fill_Oid f) dir) l (f :: keep_new [] rest) tids) /\
  (NoDup (map fill_Tid rest) -> keep_new [] rest = rest).
Proof.
  intros. split; [by apply record_fills_from_new|].
  intros Hnd. apply keep_new_all; [done|]. set_solver.
Qed.

(** The tid of an order's first fill is not recorded: the same fill
    delivered again is counted a second time, and only the third delivery is
    recognised as a duplicate. *)
Theorem first_fill_counted_twice p now a dir f :
  unseen p now a (fill_Oid f) dir -> unmarked p now a (fill_Oid f) ->
  map_data (op_pendingOrders p) !! orderKey a (fill_Oid f) dir = None ->
  exists p' l tids, record_fills p now a dir [f; f; f] = Ret p' /\
    pending_at p' (orderKey a (fill_Oid f) dir) l [f; f] tids.
Proof.
  intros Hs Hm Hn.
  destruct (record_fills_from_new p now a dir f [f; f] Hs Hm Hn)
    as (p' & l & tids & Hr & _ & Hp'); [by repeat constructor|].
  exists p', l, tids. split; [done|]. cbn [keep_new] in Hp'.
  by rewrite decide_False, decide_True in Hp' by set_solver.
Qed.

(** A terminal status that arrives before the order's first fill is not
    lost: it requests nothing by itself, and while the tracker remembers it
    the first fill, once recorded, requests the flush with that status and
    clears the mark. *)
Theorem early_status_flushes p t1 t2 a status direction f dir :
  let oid := fill_Oid f in
  0 < st_ttl (op_statusTracker p) -> t1 <= t2 <= t1 + st_ttl (op_statusTracker p) ->
  terminal status -> status <> EmptyString ->
  (forall d, map_data (op_pendingOrders p) !! orderKey a oid d = None) ->
  unseen p t2 a oid dir -> Z.of_nat (length (op_flushChan p)) < flushChan_cap ->
  let p1 := UpdateStatus t1 p a oid status direction in
  exists p2 l, handleOrderFill t2 p1 a (Boxed f) dir = Ret (p2, nil_error) /\
    op_flushChan p1 = op_flushChan p /\
    op_flushChan p2 = op_flushChan p ++ [mkFlushKey (orderKey a oid dir) "status" status] /\
    map_data (op_pendingOrders p2) !! orderKey a oid dir = Some l /\
    GetStatus (op_statusTracker p2) t2 a oid = (EmptyString, false).
Proof.
  intros oid Httl Ht Hterm Hne Hnone Hun Hroom p1. subst oid.
  set (q := with_statusTracker p (MarkStatus (op_statusTracker p) t1 a (fill_Oid f) status)).
  assert (p1 = q) as ->.
  { subst p1. unfold UpdateStatus. rewrite (terminal_test _ Hterm). fold q.
    assert (forall d, update_direction a (fill_Oid f) status q d = q) as Hd.
    { intros d. unfold update_direction, PendingOrderCache_Get, Map_Load. simpl.
      by rewrite Hnone. }
    case_decide; [|by apply Hd]. unfold all_directions. simpl. by rewrite !Hd. }
  unfold handleOrderFill. change (op_deduper q) with (op_deduper p).
  rewrite (unseen_test _ _ _ _ _ Hun). subst q. cbn [op_statusTracker with_statusTracker].
  rewrite GetStatus_MarkStatus by lia.
  unfold record_fill, PendingOrderCache_Get, Map_Load. cbn [op_pendingOrders with_statusTracker].
  rewrite Hnone. cbn [mbind outcome_bind]. rewrite bool_decide_true by done. simpl.
  unfold triggerFlush.
  match goal with |- context [persistOrder ?x ?l ?a] =>
    destruct (persistOrder_side x l a) as (Ec & Et & Ef);
    set (p3 := persistOrder x l a) in *; clearbody p3
  end.
  simpl in Ec, Et, Ef. injection Ec as E1 _ _ _ _ _ _. rewrite Ef, (proj2 (Z.ltb_lt _ _) Hroom).
  eexists _, _. split; [reflexivity|]. simpl. split_and!; [done|done| |apply GetStatus_Remove].
  rewrite E1. unfold Map_LoadOrStore. rewrite Hnone. apply lookup_insert_eq.
Qed.

(** After that first request the status is forgotten, so a fill that opens
    a second pending order of the same oid (the other direction of a reversed
    order) is recorded but requests no flush. *)
Theorem status_forgotten_after_first_direction p now a f dir :
  unseen p now a (fill_Oid f) dir ->
  map_data (op_pendingOrders p) !! orderKey a (fill_Oid f) dir = None ->
  let p1 := with_statusTracker p (statusTracker_Remove (op_statusTracker p) a (fill_Oid f)) in
  exists p2 l, handleOrderFill now p1 a (Boxed f) dir = Ret (p2, nil_error) /\
    pending_at p2 (orderKey a (fill_Oid f) dir) l [f] [] /\
    op_flushChan p2 = op_flushChan p.
Proof.
  intros Hun Hn p1.
  destruct (first_fill_pending p1 now a f dir) as (p2 & l & Hr & Hp & _ & _ & Hc & _);
    [done|apply GetStatus_Remove|done|]. by exists p2, l.
Qed.

(** A terminal status requests a flush of exactly the pending orders it
    concerns (of the direction it names, or of every known direction), in the
    order of the directions, as far as the channel has room; [open] and
    [triggered] change nothing. *)
Theorem UpdateStatus_requests now p a oid status direction :
  (length (op_flushChan p) <= 1000)%nat ->
  let p' := UpdateStatus now p a oid status direction in
  (terminal status ->
     op_flushChan p' = take 1000 (op_flushChan p ++
       status_requests p a oid status
         (if decide (direction = EmptyString) then all_directions else [direction]))) /\
  (~ terminal status -> p' = p) /\
  op_core p' = op_core p.
Proof.
  intros Hl p'. subst p'. split_and!; [| |apply UpdateStatus_core].
  - intros Ht. unfold UpdateStatus. rewrite (terminal_test _ Ht).
    set (q := with_statusTracker p _).
    case_decide; [exact (update_directions_chan a oid status all_directions q Hl)|].
    exact (update_direction_chan q a oid status direction Hl).
  - intros Ht. unfold UpdateStatus, terminal in *.
    destruct (decide (status = "open")) as [->|H1]; [done|].
    destruct (decide (status = "triggered")) as [->|H2]; [done|]. by destruct Ht.
Qed.

(** The scan requests a flush, as [filled], of every pending order that is
    unsent and whose first fill is older than the timeout, of no other, and
    changes nothing else; requests beyond the channel's capacity are dropped. *)
Theorem scanTimeoutOrders_requests now p :
  (length (op_flushChan p) <= 1000)%nat ->
  let p' := scanTimeoutOrders now p in
  exists requests,
    op_flushChan p' = take 1000 (op_flushChan p ++ requests) /\
    op_core p' = op_core p /\
    forall req, req ∈ requests <->
      exists key l po, map_data (op_pendingOrders p) !! key = Some l /\
        op_heap p !! l = Some po /\ agg_SignalSent (po_Aggregation po) = false /\
        po_FirstFillTime po < now - op_timeout p /\
        req = mkFlushKey key "timeout" "filled".
Proof.
  intros Hl p'. eexists. split; [by apply scan_chan|].
  split; [apply scanTimeoutOrders_core|]. intros req. rewrite list_elem_of_omap. split.
  - intros ([key l] & Hin%elem_of_go_range & Hr). unfold timed_out in Hr.
    destruct (op_heap p !! l) as [po|] eqn:Eh; [|done].
    destruct (agg_SignalSent (po_Aggregation po)) eqn:Es; [done|]. simpl in Hr.
    destruct (Z.ltb_spec (po_FirstFillTime po) (now - op_timeout p)); [|done].
    simplify_eq. by exists key, l, po.
  - intros (key & l & po & El & Eh & Es & Hlt & ->). exists (key, l).
    rewrite elem_of_go_range. split; [done|]. unfold timed_out.
    by rewrite Eh, Es, (proj2 (Z.ltb_lt _ _) Hlt).
Qed.

Lemma elem_of_all_directions d :
  d ∈ all_directions <->
  d = "Open Long" \/ d = "Open Short" \/ d = "Close Long" \/ d = "Close Short" \/
  d = "Buy" \/ d = "Sell".
Proof. unfold all_directions. set_solver. Qed.

(** What the direction table says, one row at a time. *)
Definition table_ok (dir : string) (row : string * string * string) : Prop :=
  let '(direction, side, asset) := row in
  (direction = if decide (dir ∈ ["Close Long"; "Close Short"; "Sell"]) then "close" else "open") /\
  (side = if decide (dir ∈ ["Open Short"; "Close Short"]) then "SHORT" else "LONG") /\
  (asset = if decide (dir ∈ ["Buy"; "Sell"]) then "spot" else "futures").

Lemma direction_table_spec dir :
  match direction_table dir with
  | Some row => dir ∈ all_directions /\ table_ok dir row
  | None => dir ∉ all_directions
  end.
Proof.
  unfold direction_table.
  repeat case_decide; rewrite elem_of_all_directions; subst;
    try (split; [tauto|vm_compute; done]). tauto.
Qed.

(** What the signal [s] of an aggregation with first fill [f] says. *)
Definition signal_of p agg (f : WsOrderFill) (s : HlAddressSignal) : Prop :=
  table_ok (agg_Direction agg) (sig_Direction s, sig_Side s, sig_AssetType s) /\
  sig_Address s = agg_Address agg /\ sig_Symbol s = agg_Symbol agg /\
  sig_Size s = agg_TotalSize agg /\ sig_Price s = agg_WeightedAvgPx agg /\
  sig_Timestamp s = fill_Time f /\
  sig_CoinType s = GetCoinType (op_pairCategoryCache p) (agg_Symbol agg) /\
  (sig_Direction s = "open" -> sig_CloseRate s = f0) /\
  (op_positionBalanceCache p = None -> sig_PositionRate s = f100) /\
  (forall c b, op_positionBalanceCache p = Some c ->
     (if decide (sig_AssetType s = "spot") then GetSpotTotal c (agg_Address agg)
      else GetAccountValue c (agg_Address agg)) = b ->
     sig_PositionRate s =
       match b with
       | Some total => if fleb total f0 then f100 else
           fmul (fdiv (fmul (agg_WeightedAvgPx agg) (agg_TotalSize agg)) total) f100
       | None => f100
       end).

Lemma buildSignal_none p agg :
  agg_Fills agg = [] \/ agg_Direction agg ∉ all_directions -> buildSignal p agg = Ret None.
Proof.
  pose proof (direction_table_spec (agg_Direction agg)) as Hd. unfold buildSignal.
  intros [-> | Hn]; [done|]. destruct (agg_Fills agg); [done|].
  destruct (direction_table _) as [row|]; [|done]. by destruct Hd.
Qed.

Lemma buildSignal_some p agg f fills :
  op_ok dash_free p -> agg_Fills agg = f :: fills -> agg_Direction agg ∈ all_directions ->
  exists s, buildSignal p agg = Ret (Some s) /\ signal_of p agg f s.
Proof.
  intros Hp Ef Hin. pose proof (direction_table_spec (agg_Direction agg)) as Hd.
  destruct (buildSignal_total _ p agg Hp) as (o & Ho & _). unfold buildSignal in *.
  rewrite Ef in *. destruct (direction_table _) as [[[direction side] asset]|]; [|done].
  destruct Hd as [_ Hd].
  destruct (calculateCloseRate _ _ _ _ _ _) as [rate|] eqn:Er; [|done].
  cbn [mbind outcome_bind] in *. eexists. split; [reflexivity|]. unfold signal_of. simpl.
  split; [exact Hd|]. split_and!; try done.
  - unfold calculateCloseRate in Er. intros ->. by simplify_eq/=.
  - intros Hc. unfold calculatePositionRate. by rewrite Hc.
  - intros c b Hc <-. unfold calculatePositionRate. rewrite Hc. by destruct (decide _).
Qed.

(** C39. The signal of an aggregation: none for an order without fills or of an
    unknown direction; else one with the aggregation's address, symbol, size
    and price, the time of the first fill, the table's direction, side and
    asset type, the symbol's coin type, a close rate of 0 unless it closes, and
    a position rate of price * size / balance * 100 (the balance being the spot
    total for a spot order and the account value for a futures one), or 100
    when there is no balance cache, or the balance is unknown or not positive.
    The comment of the database model, a test and the design document say
    otherwise (findings). *)
Theorem buildSignal_spec p agg :
  op_ok dash_free p ->
  (agg_Fills agg = [] \/ agg_Direction agg ∉ all_directions -> buildSignal p agg = Ret None) /\
  (forall f fills, agg_Fills agg = f :: fills -> agg_Direction agg ∈ all_directions ->
   exists s, buildSignal p agg = Ret (Some s) /\ signal_of p agg f s).
Proof.
  intros Hp. split; [apply buildSignal_none|]. intros f fills. by apply buildSignal_some.
Qed.

(** The position a close order is compared with, as the cache knows it. *)
Definition close_position p (assetType address symbol : string) : outcome (option float64) :=
  match op_positionBalanceCache p with
  | None => Ret None
  | Some c => if decide (assetType = "spot")
              then GetSpotBalance c address (trim_suffix symbol "USDC")
              else GetFuturesPosition c address symbol
  end.

Lemma calculateCloseRate_close p asset a symbol size :
  calculateCloseRate p "close" asset a symbol size =
    position ← close_position p asset a symbol;
    Ret (match position with
         | None => f0
         | Some x => if fleb x f0 then f0 else if fgtb size x then f1 else fdiv size x
         end).
Proof.
  unfold calculateCloseRate, close_position. simpl.
  by destruct (op_positionBalanceCache p).
Qed.

Lemma close_position_valid `{!CastLaws _} p asset a symbol x :
  close_position p asset a symbol = Ret (Some x) -> f64_valid x.
Proof.
  unfold close_position. destruct (op_positionBalanceCache p) as [c|]; [|done].
  case_decide; unfold GetSpotBalance, GetFuturesPosition;
    (destruct (Map_Load _ _) as [[l|]|]; [|done..]);
    (destruct (list_find _ _) as [[i y]|]; [|done]); intros [= <-]; apply ToFloat64_valid.
Qed.

(** The close rate is a fraction: between 0 and 1, and finite, for every
    order of a finite size of at least 0 and every known position that is a
    finite number, the quotient of size and position rounded to nearest; 1
    when the size exceeds the position, 0 when the position is not positive. *)
Theorem calculateCloseRate_unit `{!CastLaws _} p direction asset a symbol size :
  (forall c, op_positionBalanceCache p = Some c -> PositionBalanceCache_wf c) ->
  f64_valid size -> f64_finite size -> fleb f0 size = true ->
  (forall x, close_position p asset a symbol = Ret (Some x) -> f64_finite x) ->
  exists rate, calculateCloseRate p direction asset a symbol size = Ret rate /\
    fleb f0 rate = true /\ fleb rate f1 = true /\ f64_finite rate /\
    (forall x, direction = "close" -> close_position p asset a symbol = Ret (Some x) ->
       fgtb x f0 = true -> fgtb size x = true -> rate = f1).
Proof.
  intros Hb Hv Hf Hsize Hx.
  assert (fleb f0 f0 = true /\ fleb f0 f1 = true /\ f64_finite f0) as (Z1 & Z2 & Z3) by done.
  assert (fleb f1 f1 = true /\ f64_finite f1) as (O1 & O2) by (rewrite f1_eq; done).
  destruct (decide (direction = "close")) as [->|Hne].
  2:{ exists f0. unfold calculateCloseRate. by rewrite decide_True. }
  rewrite calculateCloseRate_close.
  assert (exists o, close_position p asset a symbol = Ret o) as [o Ho].
  { unfold close_position. destruct (op_positionBalanceCache p) as [c|]; [|by eexists].
    specialize (Hb c eq_refl).
    case_decide; [by apply GetSpotBalance_total|by apply GetFuturesPosition_total]. }
  rewrite Ho in *. cbn [mbind outcome_bind]. destruct o as [x|]; [|by exists f0].
  specialize (Hx x eq_refl). pose proof (close_position_valid _ _ _ _ _ Ho) as Hxv.
  assert (forall y, f64_finite y -> fleb y f0 = false -> fgtb y f0 = true) as Hpos.
  { intros [[]| | |[] ? ?]; done. }
  destruct (fleb x f0) eqn:E0.
  { exists f0. split_and!; [done..|]. intros y _ [= <-] Hy.
    clear -E0 Hx Hy. by destruct x as [[]| | |[] ? ?]. }
  destruct (fgtb size x) eqn:E1; [by exists f1|].
  destruct (fdiv_unit_interval size x) as (R1 & R2 & R3); [done..|by apply Hpos|done|].
  eexists. split; [reflexivity|]. split_and!; [done..|]. intros y _ [= <-] _. by rewrite E1.
Qed.

(** The close rate of an order that closes a short is always 0: the
    exchange reports a short position as a negative size, which the comparison
    with 0 takes for no position. *)
Theorem close_short_rate_zero p a symbol size x :
  close_position p "futures" a symbol = Ret (Some x) -> fltb x f0 = true ->
  calculateCloseRate p "close" "futures" a symbol size = Ret f0.
Proof.
  intros Hx Hneg. rewrite calculateCloseRate_close, Hx. cbn [mbind outcome_bind].
  assert (fleb x f0 = true) as ->; [|done]. by destruct x as [[]|[]| |[] ? ?].
Qed.

(** A flush that publishes nothing changes nothing, so the order stays
    pending: when NATS refuses the signal, when the direction is unknown (such
    an order is never removed), and when the order is not pending. *)
Theorem flushOrder_keeps_unsent now publish p key trigger status :
  op_ok dash_free p ->
  (forall signal, publish signal <> nil_error) \/
  (forall l po, map_data (op_pendingOrders p) !! key = Some l -> op_heap p !! l = Some po ->
     agg_Direction (po_Aggregation po) ∉ all_directions) \/
  map_data (op_pendingOrders p) !! key = None ->
  flushOrder now publish p key trigger status = Ret p.
Proof.
  intros Hp Hcase. unfold flushOrder.
  destruct (flush_begin_ok _ p key Hp) as [-> | (l & signal & E & El & _)]; [done|]. rewrite E.
  destruct Hcase as [Hpub|[Hdir|Hnone]]; [| |congruence].
  - cbn [mbind outcome_bind]. specialize (Hpub signal). by destruct (publish signal).
  - exfalso. unfold flush_begin, PendingOrderCache_Get, Map_Load in E. rewrite El in E.
    destruct (op_ok_pending _ p Hp key l El) as (po & Eh & _ & _ & _ & Es).
    rewrite Eh, Es in E.
    rewrite (buildSignal_none p (po_Aggregation po)) in E; [done|right; eauto].
Qed.

(** Two flushes of one order that both begin before either commits (the
    pool runs up to 30 at once) publish its signal twice, while one after the
    other publish it once. *)
Theorem concurrent_flushes_publish_twice now p key status status' l signal :
  op_ok dash_free p -> flush_begin p key = Ret (Some (l, signal)) ->
  exists p1 p2, flush_commit now p key status l signal = Ret p1 /\
    flush_commit now p1 key status' l signal = Ret p2 /\
    op_published p2 = op_published p ++ [(key, signal); (key, signal)] /\
    flush_begin p1 key = Ret None.
Proof.
  intros Hp E. destruct (flush_begin_ok _ p key Hp) as [E'|(l' & s' & E' & El & _)]; [congruence|].
  rewrite E in E'. simplify_eq.
  destruct (flush_commit_ok _ now p key status l' s' Hp El)
    as (p1 & a & o & r & Hc & Hp1 & _ & _ & _ & _ & Epub & Em).
  assert (is_Some (op_heap p1 !! l')) as [po1 Eh1].
  { unfold flush_commit in Hc. destruct (op_heap p !! l') as [po|]; [|done].
    injection Hc as <-. simpl. rewrite lookup_insert_eq. by eexists. }
  exists p1. unfold flush_commit at 2. rewrite Eh1. eexists. split; [done|].
  split; [reflexivity|]. simpl. split.
  - match goal with |- op_published (persistOrder ?x ?l ?g) = _ =>
      destruct (persistOrder_side x l g) as (Ec & _) end.
    simpl in Ec. injection Ec as _ _ _ _ _ _ ->. by rewrite Epub, <- app_assoc.
  - unfold flush_begin, PendingOrderCache_Get, Map_Load. by rewrite Em, lookup_delete_eq.
Qed.

Lemma flush_begin_pending p key l fills tids :
  op_ok dash_free p -> pending_at p key l fills tids -> fills <> [] ->
  (exists a o dir, dash_free a /\ key = orderKey a o dir /\ dir ∈ all_directions) ->
  exists signal, flush_begin p key = Ret (Some (l, signal)) /\
    (sig_Size signal, sig_Price signal) = aggregate fills /\
    exists o dir, key = orderKey (sig_Address signal) o dir /\ dash_free (sig_Address signal).
Proof.
  intros Hp (El & po & Eh & Ef & Eagg & Esent & _) Hne (a & o & dir & Ha & -> & Hin).
  destruct (op_ok_pending _ p Hp _ l El) as (po' & Eh' & Ek & Hd & _).
  rewrite Eh in Eh'. injection Eh' as <-.
  pose proof (orderKey_inj _ (fun _ H => H) _ _ _ _ _ _ Ha Hd Ek) as E. injection E as Ea Eo Ed.
  destruct fills as [|f fills]; [done|].
  destruct (buildSignal_some p (po_Aggregation po) f fills Hp Ef ltac:(congruence))
    as (s & Hs & _ & E1 & _ & E2 & E3 & _).
  exists s. unfold flush_begin, PendingOrderCache_Get, Map_Load. rewrite El, Eh, Esent, Hs.
  split; [done|]. rewrite E2, E3, E1. split; [done|]. by exists o, dir; rewrite <- Ea.
Qed.

(** The life of an order: fills of a new order, then a terminal status of the
    order (which names no direction), then one round of the flush processor
    with a publisher that accepts. *)
Lemma order_life p now a dir status f rest :
  op_ok dash_free p -> dash_free a -> dir ∈ all_directions -> op_flushChan p = [] ->
  unseen p now a (fill_Oid f) dir -> unmarked p now a (fill_Oid f) ->
  (forall d, d ∈ all_directions ->
     map_data (op_pendingOrders p) !! orderKey a (fill_Oid f) d = None) ->
  Forall (fun g => fill_Oid g = fill_Oid f) rest -> terminal status ->
  exists p1 p2 signal, record_fills p now a dir (f :: rest) = Ret p1 /\
    flushProcessor now (fun _ => nil_error)
      (UpdateStatus now p1 a (fill_Oid f) status EmptyString) = Ret p2 /\
    op_published p2 = op_published p ++ [(orderKey a (fill_Oid f) dir, signal)] /\
    sig_Address signal = a /\
    (sig_Size signal, sig_Price signal) = aggregate (f :: keep_new [] rest) /\
    map_data (op_pendingOrders p2) !! orderKey a (fill_Oid f) dir = None.
Proof.
  intros Hp Ha Hin Hch Hs Hm Hn Ho Hterm. set (key := orderKey a (fill_Oid f) dir).
  destruct (record_fills_from_new p now a dir f rest Hs Hm (Hn dir Hin) Ho)
    as (p1 & l & tids & Hr & (_ & _ & Hc1 & Hpub1) & Hp1).
  destruct (record_fills_ok now a dir (f :: rest) p Hp Ha) as (p1' & Hr' & Hok1).
  rewrite Hr in Hr'. injection Hr' as <-. exists p1.
  set (p2 := UpdateStatus now p1 a (fill_Oid f) status EmptyString).
  pose proof (UpdateStatus_core now p1 a (fill_Oid f) status EmptyString) as Hcore.
  fold p2 in Hcore.
  assert (op_flushChan p2 = [mkFlushKey key "status" status]) as Hc2.
  { subst p2. unfold UpdateStatus. rewrite (terminal_test _ Hterm), decide_True by done.
    rewrite update_directions_chan by (simpl; rewrite Hc1, Hch; simpl; lia).
    rewrite (status_requests_one _ a (fill_Oid f) status dir l); [|done|apply Hp1|].
    { simpl. by rewrite Hc1, Hch. }
    intros d Hd Hne. simpl. rewrite (record_fills_other now a dir (fill_Oid f) (f :: rest) p p1);
      [by apply Hn|by constructor|done|].
    intros E. apply (orderKey_inj dash_free (fun _ H => H)) in E; [|done..].
    apply Hne. by injection E. }
  assert (op_ok dash_free p2) as Hok2 by by apply (op_ok_core _ p1).
  unfold flushProcessor. rewrite Hc2. set (q := with_flushChan p2 []).
  assert (op_ok dash_free q) as Hokq by by apply (op_ok_core _ p2).
  injection Hcore as E1 E2 _ _ _ _ E5.
  assert (pending_at q key l (f :: keep_new [] rest) tids) as Hpq.
  { unfold pending_at, q. simpl. by rewrite E1, E2. }
  destruct (flush_begin_pending q key l _ tids Hokq Hpq ltac:(done))
    as (signal & Hb & Hsz & Hsa); [by exists a, (fill_Oid f), dir|].
  destruct (flush_commit_ok _ now q key status l signal Hokq (proj1 Hpq))
    as (p3 & a' & o' & r' & Hc & _ & _ & _ & _ & _ & Hpub & Hm3).
  exists p3, signal. unfold flushOrder. cbn [fk_key fk_status]. rewrite Hb.
  cbn [mbind outcome_bind]. split_and!; try done.
  - rewrite Hpub. unfold q. simpl. by rewrite E5, Hpub1.
  - destruct Hsa as (o2 & d2 & E & Hw). by apply (orderKey_inj dash_free (fun _ H => H)) in E
      as [= ->].
  - rewrite Hm3. apply lookup_delete_eq.
Qed.
End theorems.

(** ** Witnesses *)

Definition fill1 : WsOrderFill := sample_fill 1 "Close Long" "1" "100".
Definition fill2 : WsOrderFill := sample_fill 2 "Close Long" "1" "300".

Lemma sample_ok : op_ok dash_free sample_processor.
Proof. apply op_ok_new. exact sample_balances_wf. Defined.

Lemma fills_aggregate_witness :
  exists p' l tids,
    record_fills sample_processor Second "0xab" "Close Long" [fill1; fill2] = Ret p' /\
    pending_at p' "0xab-42-Close Long" l [fill1; fill2] tids.
Proof.
  destruct (fills_aggregate sample_processor Second "0xab" "Close Long" fill1 [fill2])
    as ((p' & l & tids & Hr & _ & Hp) & _); [reflexivity..|by repeat constructor|].
  by exists p', l, tids.
Defined.

Lemma first_fill_counted_twice_witness :
  exists p' l tids,
    record_fills sample_processor Second "0xab" "Close Long" [fill1; fill1; fill1] = Ret p' /\
    pending_at p' "0xab-42-Close Long" l [fill1; fill1] tids.
Proof. apply (first_fill_counted_twice sample_processor); reflexivity. Defined.

Lemma early_status_flushes_witness :
  let p1 := UpdateStatus 0 sample_processor "0xab" 42 "canceled" EmptyString in
  exists p2, handleOrderFill Second p1 "0xab" (Boxed fill1) "Close Long" = Ret (p2, nil_error) /\
    op_flushChan p2 = [mkFlushKey "0xab-42-Close Long" "status" "canceled"].
Proof.
  intros p1.
  destruct (early_status_flushes sample_processor 0 Second "0xab" "canceled" EmptyString fill1
    "Close Long") as (p2 & l & Hr & _ & Hc & _); try reflexivity; try done.
  by exists p2.
Defined.

Lemma status_forgotten_after_first_direction_witness :
  let p1 := with_statusTracker sample_processor
    (statusTracker_Remove (op_statusTracker sample_processor) "0xab" 42) in
  exists p2, handleOrderFill Second p1 "0xab" (Boxed fill1) "Open Short" = Ret (p2, nil_error) /\
    op_flushChan p2 = [].
Proof.
  intros p1.
  destruct (status_forgotten_after_first_direction sample_processor Second "0xab" fill1
    "Open Short") as (p2 & l & Hr & _ & Hc); [reflexivity..|]. by exists p2.
Defined.

(** The sample processor with one pending order. *)
Definition pending_processor : OrderProcessor :=
  match record_fills sample_processor Second "0xab" "Close Long" [fill1; fill2] with
  | Ret p => p | Panic => sample_processor end.

Lemma pending_ok : op_ok dash_free pending_processor.
Proof.
  destruct (record_fills_ok Second "0xab" "Close Long" [fill1; fill2] sample_processor sample_ok
    eq_refl) as (p' & Hr & Hok).
  unfold pending_processor. by rewrite Hr.
Defined.

Lemma UpdateStatus_requests_witness :
  op_flushChan (UpdateStatus Second pending_processor "0xab" 42 "filled" EmptyString) =
    [mkFlushKey "0xab-42-Close Long" "status" "filled"].
Proof.
  assert (length (op_flushChan pending_processor) <= 1000)%nat as Hl
    by (vm_compute; repeat constructor).
  rewrite (proj1 (UpdateStatus_requests Second pending_processor "0xab" 42 "filled" EmptyString Hl));
    [vm_compute; reflexivity|by split].
Defined.

Lemma scanTimeoutOrders_requests_witness :
  exists requests,
    op_flushChan (scanTimeoutOrders (10 * Minute) pending_processor) = take 1000 requests /\
    mkFlushKey "0xab-42-Close Long" "timeout" "filled" ∈ requests.
Proof.
  assert (length (op_flushChan pending_processor) <= 1000)%nat as Hl
    by (vm_compute; repeat constructor).
  destruct (scanTimeoutOrders_requests (10 * Minute) pending_processor Hl)
    as (reqs & Hc & _ & Hr).
  exists reqs. split; [exact Hc|]. apply Hr.
  exists "0xab-42-Close Long", 1%positive. eexists.
  split; [vm_compute; reflexivity|]. split; [vm_compute; reflexivity|].
  split; [vm_compute; reflexivity|]. split; [vm_compute; reflexivity|reflexivity].
Defined.

Definition sample_aggregation : OrderAggregation :=
  mkOrderAggregation 42 "0xab" "Close Long" "BTCUSDC" [fill1] f1 f100 "open" 0 false 0 0.

Lemma buildSignal_spec_witness :
  exists s, buildSignal sample_processor sample_aggregation = Ret (Some s) /\
    sig_Timestamp s = 1700.
Proof.
  destruct (proj2 (buildSignal_spec sample_processor sample_aggregation sample_ok)
    fill1 [] eq_refl) as (s & Hs & _ & _ & _ & _ & _ & Ht & _);
    [apply elem_of_all_directions; tauto|]. by exists s.
Defined.

Lemma calculateCloseRate_unit_witness :
  exists rate, calculateCloseRate sample_processor "close" "futures" "0xab" "BTCUSDC" f1 = Ret rate /\
    fleb rate f1 = true.
Proof.
  destruct (calculateCloseRate_unit (CastLaws0 := reference_cast_laws) sample_processor "close"
    "futures" "0xab" "BTCUSDC" f1) as (rate & Hr & _ & Hl & _);
    [exact sample_balances_wf|vm_compute; reflexivity|vm_compute; exact I
    |vm_compute; reflexivity| |by exists rate].
  intros x Hx. vm_compute in Hx. injection Hx as <-. exact I.
Defined.

Definition short_processor : OrderProcessor :=
  with_balances sample_processor (Some (PositionBalanceCache_Set sample_balances "0xab" f0 f100
    (Some []) (Some [mkPositionItem "BTCUSDC" "-4" None "0" (mkLeverageItem "cross" 5)
                       "0" "0" "0"]))).

Lemma close_short_rate_zero_witness :
  calculateCloseRate short_processor "close" "futures" "0xab" "BTCUSDC" f1 = Ret f0.
Proof.
  apply (close_short_rate_zero short_processor "0xab" "BTCUSDC" f1 (float64_of_Z (-4)));
    vm_compute; reflexivity.
Defined.

Lemma flushOrder_keeps_unsent_witness :
  flushOrder Second (fun _ => Some "nats: timeout") pending_processor "0xab-42-Close Long"
    "status" "filled" = Ret pending_processor.
Proof. apply flushOrder_keeps_unsent; [exact pending_ok|left; discriminate]. Defined.

Lemma concurrent_flushes_publish_twice_witness :
  exists signal p1 p2 l,
    flush_commit Second pending_processor "0xab-42-Close Long" "filled" l signal = Ret p1 /\
    flush_commit Second p1 "0xab-42-Close Long" "filled" l signal = Ret p2 /\
    (op_published p2).*1 = ["0xab-42-Close Long"; "0xab-42-Close Long"].
Proof.
  destruct (flush_begin pending_processor "0xab-42-Close Long") as [[[l s]|]|] eqn:E;
    [|vm_compute in E; discriminate..].
  destruct (concurrent_flushes_publish_twice Second pending_processor "0xab-42-Close Long"
    "filled" "filled" l s pending_ok E) as (p1 & p2 & H1 & H2 & H3 & _).
  exists s, p1, p2, l. split; [done|]. split; [done|]. by rewrite H3.
Defined.
