(* ===== verification/OrderHistory.v ===== *)
(** * What the order processor promises, as an abstract machine

    A tracker remembers, per order direction, the fills that make up its open
    order, and the orders it has closed with their fills.  A fill opens an
    order, adds to it or is dropped; a flush may close an open order; nothing
    else matters.  The order processor (order_processor.go), with its pointers,
    caches, counters, flush requests and deduper, implements this machine, so
    that each signal is accounted for by the messages before it. *)

From Stdlib Require Import ZArith Lia.
From stdpp Require Import gmap strings list.
From S2P Require Import Prelude Float64 GoStrings Models ConcurrentMap GoCache Caches MarketCaches.
From S2P Require Import BatchWriter Messages OrderProcessor OrderRuns OrderSignals.
Local Open Scope Z_scope.

(** ** The specification *)

Record tracker := mkTracker {
  tk_open : gmap string (list WsOrderFill);
  tk_done : list (string * list WsOrderFill);
}.

Definition no_orders : tracker := mkTracker ∅ [].

(** A fill of an order: the first opens it; a later one is added unless its
    trade id is that of a later fill already there. *)
Definition add_fill (order : option (list WsOrderFill)) (f : WsOrderFill) : option (list WsOrderFill) :=
  match order with
  | None => Some [f]
  | Some fills => Some (if decide (fill_Tid f ∈ map fill_Tid (tail fills)) then fills else fills ++ [f])
  end.

Definition is_done (t : tracker) (key : string) : Prop := key ∈ (tk_done t).*1.

#[export] Instance is_done_dec t key : Decision (is_done t key).
Proof. unfold is_done. apply _. Defined.

(** [known]: an order signalled in an earlier life of the service. *)
Definition tracker_fill (known : bool) (key : string) (f : WsOrderFill) (t : tracker) : tracker :=
  if known then t
  else if decide (is_done t key) then t
  else mkTracker (partial_alter (fun order => add_fill order f) key (tk_open t)) (tk_done t).

Section history.
Context `{MapRange} `{Cast} `{GS : GoCache string} `{DD : DedupCacheInterface}.
Implicit Types p : OrderProcessor.

(** The steps of the machine at an event of the processor's run; [d] is the
    deduper the run starts with. *)
Inductive tracker_step (d : dd_t) (now : Z) : op_event -> tracker -> tracker -> Prop :=
| tracker_takes a f dir t :
    tracker_step d now (OpMessage (OrderFillMessage a (Boxed f) dir)) t
      (tracker_fill (dd_IsSeen d now a (fill_Oid f) dir) (orderKey a (fill_Oid f) dir) f t)
| tracker_closes publish key fills t :
    tk_open t !! key = Some fills ->
    tracker_step d now (OpFlush publish) t (mkTracker (delete key (tk_open t)) (tk_done t ++ [(key, fills)]))
| tracker_idles e t :
    (forall a f dir, e <> OpMessage (OrderFillMessage a (Boxed f) dir)) -> tracker_step d now e t t.

Inductive tracker_run (d : dd_t) : list (Z * op_event) -> tracker -> Prop :=
| tracker_starts : tracker_run d [] no_orders
| tracker_goes evs now e t t' :
    tracker_run d evs t -> tracker_step d now e t t' -> tracker_run d (evs ++ [(now, e)]) t'.

(** ** What the machine does, in terms of the messages *)

(** The fills of an order direction among the messages, without those that
    come while the order counts as signalled in an earlier life. *)
Definition fill_of (d : dd_t) (key : string) (e : Z * op_event) : option WsOrderFill :=
  match e.2 with
  | OpMessage (OrderFillMessage a (Boxed f) dir) =>
      if decide (orderKey a (fill_Oid f) dir = key)
      then if dd_IsSeen d e.1 a (fill_Oid f) dir then None else Some f
      else None
  | _ => None
  end.
Definition fills_of (d : dd_t) (key : string) (evs : list (Z * op_event)) : list WsOrderFill :=
  omap (fill_of d key) evs.

Definition kept (fills : list WsOrderFill) : option (list WsOrderFill) :=
  match fills with [] => None | f :: rest => Some (f :: keep_new [] rest) end.

Lemma keep_new_snoc f rest : forall tids,
  keep_new tids (rest ++ [f]) = keep_new tids rest ++
    (if decide (fill_Tid f ∈ tids ++ map fill_Tid (keep_new tids rest)) then [] else [f]).
Proof.
  induction rest as [|g rest IH]; intros tids; cbn [keep_new app map].
  { rewrite app_nil_r. by destruct (decide _). }
  assert (Hsame : forall P Q : Prop, (P <-> Q) -> forall {DP : Decision P} {DQ : Decision Q} (x y : list WsOrderFill),
    (if decide P then x else y) = (if decide Q then x else y)).
  { intros P Q HPQ DP DQ x y. destruct (decide P), (decide Q); tauto. }
  destruct (decide (fill_Tid g ∈ tids)) as [Hg|Hg]; rewrite IH; [|simpl; f_equal];
    f_equal; apply Hsame; cbn [map]; rewrite ?elem_of_app, ?elem_of_cons, ?elem_of_app;
    intuition congruence.
Qed.

Lemma kept_snoc f fills : kept (fills ++ [f]) = add_fill (kept fills) f.
Proof.
  destruct fills as [|g rest]; [done|]. cbn [app kept add_fill tail]. rewrite keep_new_snoc.
  cbn [app]. destruct (decide _); [by rewrite app_nil_r|done].
Qed.

Lemma fills_of_snoc d key evs now e :
  fills_of d key (evs ++ [(now, e)]) = fills_of d key evs ++ option_list (fill_of d key (now, e)).
Proof. unfold fills_of. rewrite omap_app. simpl. by destruct (fill_of d key (now, e)). Qed.

(** The machine is accounted for by the messages: an order it closed has the
    fills that came before the flush, an open one those of the whole run. *)
Record accounted (d : dd_t) (evs : list (Z * op_event)) (t : tracker) : Prop := {
  ac_open : forall key, ~ is_done t key -> tk_open t !! key = kept (fills_of d key evs);
  ac_closed : forall key, is_done t key -> tk_open t !! key = None;
  ac_done : forall key fills, (key, fills) ∈ tk_done t ->
    exists before now publish after, evs = before ++ (now, OpFlush publish) :: after /\
      kept (fills_of d key before) = Some fills;
  ac_once : NoDup (tk_done t).*1;
}.

Lemma accounted_more d evs e key fills :
  (exists before now publish after, evs = before ++ (now, OpFlush publish) :: after /\
    kept (fills_of d key before) = Some fills) ->
  exists before now publish after, evs ++ [e] = before ++ (now, OpFlush publish) :: after /\
    kept (fills_of d key before) = Some fills.
Proof.
  intros (before & now & publish & after & -> & Hk). exists before, now, publish, (after ++ [e]).
  by rewrite <- app_assoc.
Qed.

Lemma is_done_snoc t key k fills : 
  is_done (mkTracker (delete k (tk_open t)) (tk_done t ++ [(k, fills)])) key <-> is_done t key \/ key = k.
Proof. unfold is_done. cbn [tk_done]. rewrite fmap_app, elem_of_app. simpl. by rewrite list_elem_of_singleton. Qed.

Lemma accounted_fill d evs now a f dir t : accounted d evs t ->
  accounted d (evs ++ [(now, OpMessage (OrderFillMessage a (Boxed f) dir))])
    (tracker_fill (dd_IsSeen d now a (fill_Oid f) dir) (orderKey a (fill_Oid f) dir) f t).
Proof.
  intros [Ho Hc Hd Hn]. set (k := orderKey a (fill_Oid f) dir).
  assert (Hof : forall key, fill_of d key (now, OpMessage (OrderFillMessage a (Boxed f) dir)) =
    if decide (k = key) then if dd_IsSeen d now a (fill_Oid f) dir then None else Some f else None) by done.
  split; unfold tracker_fill.
  - intros key Hnd. rewrite fills_of_snoc, Hof.
    destruct (dd_IsSeen d now a (fill_Oid f) dir).
    { rewrite (Ho key Hnd). by destruct (decide _); rewrite app_nil_r. }
    destruct (decide (is_done t k)) as [Hk|Hk].
    { rewrite (Ho key Hnd), decide_False, app_nil_r by by intros <-. done. }
    cbn [tk_open]. destruct (decide (k = key)) as [<-|Hne].
    + rewrite lookup_partial_alter_eq, (Ho k Hk). by rewrite (kept_snoc f).
    + rewrite lookup_partial_alter_ne, app_nil_r by done. by apply Ho.
  - intros key Hk. destruct (dd_IsSeen _ _ _ _ _); [by apply Hc|].
    destruct (decide (is_done t k)); [by apply Hc|]. cbn [tk_open].
    rewrite lookup_partial_alter_ne; [by apply Hc|]. by intros <-.
  - intros key fills Hin. apply accounted_more. apply Hd.
    by destruct (dd_IsSeen _ _ _ _ _); [|destruct (decide (is_done t k))].
  - by destruct (dd_IsSeen _ _ _ _ _); [|destruct (decide (is_done t k))].
Qed.

Lemma fill_of_other d key now e :
  (forall a f dir, e <> OpMessage (OrderFillMessage a (Boxed f) dir)) -> fill_of d key (now, e) = None.
Proof.
  intros He. unfold fill_of. simpl. destruct e as [[a [f|] dir|? ? ? ?|? ?]| | |]; try done.
  by destruct (He a f dir).
Qed.

Lemma accounted_idle d evs now e t :
  (forall a f dir, e <> OpMessage (OrderFillMessage a (Boxed f) dir)) ->
  accounted d evs t -> accounted d (evs ++ [(now, e)]) t.
Proof.
  intros He [Ho Hc Hd Hn]. split; [|done| |done].
  - intros key Hk. rewrite fills_of_snoc, fill_of_other by done. cbn [option_list].
    rewrite app_nil_r. by apply Ho.
  - intros key fills Hin. by apply accounted_more, Hd.
Qed.

Lemma accounted_close d evs now publish key fills t :
  tk_open t !! key = Some fills -> accounted d evs t ->
  accounted d (evs ++ [(now, OpFlush publish)]) (mkTracker (delete key (tk_open t)) (tk_done t ++ [(key, fills)])).
Proof.
  intros Hk [Ho Hc Hd Hn].
  assert (~ is_done t key) as Hnk by (intros Hx; rewrite (Hc key Hx) in Hk; done).
  split.
  - intros k. rewrite is_done_snoc. intros Hnd. cbn [tk_open]. rewrite lookup_delete_ne by (intros ->; tauto).
    rewrite fills_of_snoc, fill_of_other by done. cbn [option_list]. rewrite app_nil_r. apply Ho. tauto.
  - intros k. rewrite is_done_snoc. intros Hx. cbn [tk_open]. apply lookup_delete_None.
    destruct (decide (key = k)); [by left|right]. apply Hc. destruct Hx; [done|congruence].
  - intros k fs. cbn [tk_done]. intros [Hin|Hin%list_elem_of_singleton]%elem_of_app.
    + by apply accounted_more, Hd.
    + injection Hin as -> ->. exists evs, now, publish, []. split; [done|]. by rewrite <- Ho.
  - cbn [tk_done]. rewrite fmap_app. apply NoDup_app. split; [done|]. split.
    + intros k Hin Hx%list_elem_of_singleton. simpl in Hx. subst k. by apply Hnk.
    + apply NoDup_singleton.
Qed.

Lemma tracker_accounted d evs t : tracker_run d evs t -> accounted d evs t.
Proof.
  induction 1 as [|evs now e t t' _ IH Hs].
  { split; [intros key _; apply lookup_empty|by intros key ?%not_elem_of_nil
    |by intros key fills ?%not_elem_of_nil|apply NoDup_nil_2]. }
  destruct Hs; [by apply accounted_fill|by apply accounted_close|by apply accounted_idle].
Qed.

(** ** The processor implements the machine *)

(** The pending order of a key, as the machine sees it. *)
Definition order_open p (key : string) (order : option (list WsOrderFill)) : Prop :=
  match order with
  | None => map_data (op_pendingOrders p) !! key = None
  | Some fills => fills <> [] /\ exists l, pending_at p key l fills (map fill_Tid (tail fills))
  end.

Lemma order_open_ext p p' key order :
  op_pendingOrders p' = op_pendingOrders p -> op_heap p' = op_heap p ->
  order_open p key order -> order_open p' key order.
Proof. unfold order_open, pending_at. by intros -> ->. Qed.

Lemma order_open_core p p' key order :
  op_core p' = op_core p -> order_open p key order -> order_open p' key order.
Proof. intros E. injection E as E1 E2 _ _ _ _ _. by apply order_open_ext. Qed.

(** Another order's record is behind another pointer. *)
Lemma other_pointer p key key' l l' fills fills' tids tids' : op_ok dash_free p ->
  pending_at p key l fills tids -> pending_at p key' l' fills' tids' -> key' <> key -> l' <> l.
Proof.
  intros Hp (El & _) (El' & _) Hne ->.
  destruct (op_ok_pending _ p Hp _ _ El) as (po & Eh & Ek & _).
  destruct (op_ok_pending _ p Hp _ _ El') as (po' & Eh' & Ek' & _). simplify_eq.
Qed.

Lemma order_open_frame p p' key key' order l : op_ok dash_free p ->
  map_data (op_pendingOrders p') !! key' = map_data (op_pendingOrders p) !! key' ->
  (op_heap p !! l = None \/ exists fills tids, pending_at p key l fills tids) ->
  (forall l', l' <> l -> op_heap p' !! l' = op_heap p !! l') -> key' <> key ->
  order_open p key' order -> order_open p' key' order.
Proof.
  intros Hp Em Hl Hheap Hne. destruct order as [fills|]; cbn [order_open]; [|by rewrite Em].
  intros (Hn & l' & Hpend). split; [done|]. exists l'.
  assert (l' <> l) as Hll.
  { destruct Hl as [Hl|(fs & tids & Hl)]; [|by eapply other_pointer].
    destruct Hpend as (_ & po & Eh & _). congruence. }
  destruct Hpend as (El & po & Eh & Hrest). split; [by rewrite Em|]. exists po. by rewrite Hheap.
Qed.

(** A fill of an order not seen before. *)
Lemma handleOrderFill_records now p a f dir : unseen p now a (fill_Oid f) dir ->
  exists symbol, forall r, record_fill p now (orderKey a (fill_Oid f) dir) a f dir symbol = Ret r ->
    exists p', handleOrderFill now p a (Boxed f) dir = Ret (p', nil_error) /\
      op_core p' = op_core (match r with None => p | Some (p1, _, _) => p1 end).
Proof.
  intros Hs. unfold handleOrderFill. rewrite (unseen_test _ _ _ _ _ Hs).
  destruct (GetStatus _ _ _ _) as [st found].
  set (symbol := match convertSymbol _ _ _ with inl _ => _ | inr _ => _ end). exists symbol.
  intros r ->. destruct r as [[[p1 l] po]|]; cbn [mbind outcome_bind]; [|by eexists].
  destruct (_ && _); eexists; (split; [reflexivity|]); [|apply persistOrder_core].
  rewrite <- (persistOrder_core p1 l (po_Aggregation po)). exact (triggerFlush_core _ _ _ _).
Qed.

Lemma fill_taken now p a f dir order :
  op_ok dash_free p -> unseen p now a (fill_Oid f) dir ->
  order_open p (orderKey a (fill_Oid f) dir) order ->
  exists p', handleOrderFill now p a (Boxed f) dir = Ret (p', nil_error) /\
    order_open p' (orderKey a (fill_Oid f) dir) (add_fill order f) /\
    forall key order', key <> orderKey a (fill_Oid f) dir -> order_open p key order' -> order_open p' key order'.
Proof.
  intros Hp Hs Ho. destruct (handleOrderFill_records now p a f dir Hs) as (symbol & Hr).
  destruct order as [fills|]; cbn [order_open] in Ho.
  - destruct Ho as (Hne & l & Hpend).
    destruct (record_fill_more p now a f dir symbol l fills _ Hpend Hne) as (r & E & Hcase).
    destruct (Hr r E) as (p' & Hrun & Hcore). exists p'. split; [done|]. cbn [add_fill].
    destruct r as [[[p1 l1] po]|].
    + destruct Hcase as (-> & Hnew & _ & Hp1 & Hheap). split.
      * apply (order_open_core p1 p' _ _ Hcore). rewrite decide_False by done.
        split; [by destruct fills|]. exists l. destruct Hp1 as (El & po1 & Eh & E1 & E2 & E3 & E4 & E5).
        split; [done|]. exists po1. split_and!; [done..|]. intros tid. rewrite E5.
        destruct fills as [|g fills]; [done|]. cbn [tail app]. rewrite map_app. set_solver.
      * intros key order' Hk Hoth. apply (order_open_frame p p' (orderKey a (fill_Oid f) dir) key order' l Hp); [|by eauto| |exact Hk|exact Hoth].
        -- by apply (handleOrderFill_other now p a f dir p' nil_error).
        -- injection Hcore as _ E2 _ _ _ _ _. by rewrite E2.
    + rewrite decide_True by done. split; [apply (order_open_core p p' _ _ Hcore); split; [done|by exists l]|].
      intros key order' _. by apply order_open_core.
  - destruct (record_fill_new p now a f dir symbol Ho) as (p1 & l & po & E & Hp1 & _ & Hfresh & Hheap).
    destruct (Hr _ E) as (p' & Hrun & Hcore). exists p'. split; [done|]. split.
    + apply (order_open_core p1 p' _ _ Hcore). split; [done|by exists l].
    + intros key order' Hk Hoth. apply (order_open_frame p p' (orderKey a (fill_Oid f) dir) key order' l Hp); [|by eauto| |exact Hk|exact Hoth].
      * by apply (handleOrderFill_other now p a f dir p' nil_error).
      * injection Hcore as _ E2 _ _ _ _ _. by rewrite E2.
Qed.

(** The signal of an order with these fills. *)
Definition signal_for (fills : list WsOrderFill) (s : HlAddressSignal) : Prop :=
  (sig_Size s, sig_Price s) = aggregate fills /\ Some (sig_Timestamp s) = fill_Time <$> head fills.

Lemma flush_begin_signal p key l signal fills :
  flush_begin p key = Ret (Some (l, signal)) -> order_open p key (Some fills) -> signal_for fills signal.
Proof.
  intros Hb (Hne & l' & El & po & Eh & Ef & Eagg & Esent & _).
  unfold flush_begin, PendingOrderCache_Get, Map_Load in Hb. rewrite El, Eh, Esent in Hb.
  destruct (buildSignal p (po_Aggregation po)) as [[s|]|] eqn:Es; [|done..]. injection Hb as <- <-.
  unfold signal_for. rewrite <- Eagg. unfold buildSignal in Es. rewrite Ef in Es.
  destruct fills as [|f rest]; [done|]. destruct (direction_table _) as [[[? ?] ?]|]; [|done].
  destruct (calculateCloseRate _ _ _ _ _ _); [|done]. by injection Es as <-.
Qed.

Lemma flush_commit_heap now p key status l signal p' :
  flush_commit now p key status l signal = Ret p' ->
  forall l', l' <> l -> op_heap p' !! l' = op_heap p !! l'.
Proof.
  unfold flush_commit. destruct (op_heap p !! l) as [po|]; [|done]. intros [= <-] l' Hl.
  cbn [op_heap log_row with_pending]. rewrite lookup_insert_ne by done.
  match goal with |- context [persistOrder ?q ?x ?g] =>
    pose proof (persistOrder_core q x g) as E; injection E as _ -> _ _ _ _ _ end. done.
Qed.

Record tracks (d : dd_t) p (t : tracker) : Prop := {
  tr_open : forall key, order_open p key (tk_open t !! key);
  tr_done : Forall2 (fun sent closed => sent.1 = closed.1 /\ signal_for closed.2 sent.2)
              (op_published p) (tk_done t);
  tr_seen : forall d', op_deduper p = Some d' -> forall a o r now, dash_free a ->
    ~ is_done t (orderKey a o r) -> dd_IsSeen d' now a o r = dd_IsSeen d now a o r;
}.

Lemma tracks_keys d p t : tracks d p t -> (tk_done t).*1 = (op_published p).*1.
Proof. intros [_ Hd _]. induction Hd as [|e e' l l' [E _] _ IH]; [done|]. rewrite !fmap_cons, E. by f_equal. Qed.

(** A step that leaves the orders, the deduper and what was sent alone. *)
Lemma tracks_ext d p p' t : tracks d p t ->
  op_pendingOrders p' = op_pendingOrders p -> op_heap p' = op_heap p ->
  op_deduper p' = op_deduper p -> op_published p' = op_published p -> tracks d p' t.
Proof.
  intros [Ho Hd Hs] E1 E2 E3 E4. split; [|by rewrite E4|by rewrite E3].
  intros key. by apply (order_open_ext p).
Qed.

Lemma tracks_core d p p' t : tracks d p t -> op_core p' = op_core p -> tracks d p' t.
Proof. intros Ht E. injection E as E1 E2 E3 _ _ _ E7. by apply (tracks_ext d p). Qed.

(** Whether the deduper knows an order, for the machine. *)
Lemma seen_by_tracker d p t t_end now a o r d' :
  tracks d p t -> sent_ok dash_free t_end now p -> now <= t_end -> dash_free a ->
  op_deduper p = Some d' ->
  dd_IsSeen d' now a o r = dd_IsSeen d now a o r || bool_decide (is_done t (orderKey a o r)).
Proof.
  intros Ht (_ & d2 & Hd & _ & _ & Hsent) Hle Ha Hd'. rewrite Hd in Hd'. injection Hd' as ->.
  destruct (bool_decide_reflect (is_done t (orderKey a o r))) as [Hk|Hk].
  - rewrite orb_true_r. unfold is_done in Hk. rewrite (tracks_keys d p t Ht) in Hk.
    apply list_elem_of_fmap in Hk as ([key s] & Ek & Hin). simpl in Ek. subst key.
    destruct (Hsent _ _ Hin) as (_ & o' & r' & Ek & Hw & Hseen).
    apply (orderKey_inj dash_free (fun _ H => H)) in Ek as [= -> -> ->]; [|done..].
    apply Hseen. lia.
  - rewrite orb_false_r. by apply (tr_seen d p t Ht).
Qed.

Lemma tracks_fill d p t t_end now a f dir :
  op_ok dash_free p -> sent_ok dash_free t_end now p -> tracks d p t -> now <= t_end -> dash_free a ->
  exists p', handleOrderFill now p a (Boxed f) dir = Ret (p', nil_error) /\
    tracks d p' (tracker_fill (dd_IsSeen d now a (fill_Oid f) dir) (orderKey a (fill_Oid f) dir) f t).
Proof.
  intros Hp Hsent Ht Hle Ha. pose proof Hsent as (_ & d' & Hd & _).
  pose proof (seen_by_tracker d p t t_end now a (fill_Oid f) dir d' Ht Hsent Hle Ha Hd) as Hseen.
  destruct (dd_IsSeen d' now a (fill_Oid f) dir) eqn:E.
  { exists p. split; [unfold handleOrderFill; by rewrite Hd, E|]. unfold tracker_fill.
    destruct (dd_IsSeen d now a (fill_Oid f) dir); [done|].
    destruct (bool_decide_reflect (is_done t (orderKey a (fill_Oid f) dir))); [by rewrite decide_True|done]. }
  symmetry in Hseen. apply orb_false_iff in Hseen as [Hnew Hopen]. apply bool_decide_eq_false in Hopen.
  destruct (fill_taken now p a f dir (tk_open t !! orderKey a (fill_Oid f) dir) Hp)
    as (p' & Hrun & Hkey & Hothers); [by unfold unseen; rewrite Hd|apply Ht|].
  exists p'. split; [done|]. unfold tracker_fill. rewrite Hnew, decide_False by done.
  destruct (handleOrderFill_ok dash_free now p a (Boxed f) dir Hp Ha) as (p2 & err & Hrun2 & _ & _ & Ed & Ep & _).
  rewrite Hrun in Hrun2. injection Hrun2 as <- <-. destruct Ht as [Ho Hdone Hs].
  split; [|by rewrite Ep|by rewrite Ed]. intros key. cbn [tk_open].
  destruct (decide (key = orderKey a (fill_Oid f) dir)) as [->|Hne].
  - by rewrite lookup_partial_alter_eq.
  - rewrite lookup_partial_alter_ne by done. by apply Hothers.
Qed.

Lemma tracks_flush d now p t key status l signal :
  op_ok dash_free p -> tracks d p t -> flush_begin p key = Ret (Some (l, signal)) ->
  map_data (op_pendingOrders p) !! key = Some l ->
  exists p' fills, flush_commit now p key status l signal = Ret p' /\ tk_open t !! key = Some fills /\
    tracks d p' (mkTracker (delete key (tk_open t)) (tk_done t ++ [(key, fills)])).
Proof.
  intros Hp Ht Hb El. pose proof (tr_open d p t Ht key) as Hkey.
  destruct (tk_open t !! key) as [fills|] eqn:Ek; cbn [order_open] in Hkey; [|congruence].
  destruct (flush_commit_ok dash_free now p key status l signal Hp El)
    as (p' & a & o & r & Hc & _ & _ & Ha & -> & Ed & Epub & Em).
  exists p', fills. split; [done|]. split; [done|].
  destruct Ht as [Ho Hdone Hs]. split; cbn [tk_open tk_done].
  - intros k. destruct (decide (k = orderKey a o r)) as [->|Hne].
    { rewrite lookup_delete_eq. simpl. by rewrite Em, lookup_delete_eq. }
    rewrite lookup_delete_ne by done.
    apply (order_open_frame p p' (orderKey a o r) k _ l Hp); [|right| |done|apply Ho].
    + by rewrite Em, lookup_delete_ne.
    + destruct Hkey as (_ & l' & Hpend). pose proof Hpend as (El' & _). rewrite El in El'.
      injection El' as <-. by eauto.
    + by apply (flush_commit_heap now p (orderKey a o r) status l signal).
  - rewrite Epub. apply Forall2_app; [done|]. constructor; [|constructor]. split; [done|].
    by apply (flush_begin_signal p (orderKey a o r) l).
  - intros d' Hd' a' o' r' now' Ha'. rewrite is_done_snoc. intros Hn. rewrite Ed in Hd'.
    destruct (op_deduper p) as [d2|] eqn:Ed2; [|done]. injection Hd' as <-.
    rewrite dd_IsSeen_Mark_other; [by apply Hs; tauto|done..|]. intros E. apply Hn. right. congruence.
Qed.

(** Each event of a run is a step of the machine. *)
Lemma op_exec_tracks d t_end now p t e :
  op_ok dash_free p -> sent_ok dash_free t_end now p -> tracks d p t -> now <= t_end ->
  address_ok dash_free (now, e) ->
  exists p' t', op_exec now p e = Ret p' /\ tracker_step d now e t t' /\ tracks d p' t'.
Proof.
  intros Hp Hs Ht Hle Ha. destruct e as [msg|publish| |a st av b pos]; cbn [op_exec].
  - destruct msg as [a [f|] dir|a o s dir|a D].
    + destruct (tracks_fill d p t t_end now a f dir Hp Hs Ht Hle Ha) as (p' & Hrun & Ht').
      unfold HandleMessage, OrderProcessor_HandleMessage. rewrite Hrun. cbn [mbind outcome_bind].
      eexists _, _. split; [reflexivity|]. split; [constructor|exact Ht'].
    + exists p, t. by split; [|split; [constructor|]].
    + eexists _, t. split; [reflexivity|]. split; [by constructor|].
      apply (tracks_core d p); [done|]. apply UpdateStatus_core.
    + exists p, t. by split; [|split; [constructor|]].
  - unfold flushProcessor. destruct (op_flushChan p) as [|req rest].
    { exists p, t. by split; [|split; [constructor|]]. }
    set (p1 := with_flushChan p rest). assert (op_ok dash_free p1) as Hp1 by by apply (op_ok_core _ p).
    assert (tracks d p1 t) as Ht1 by by apply (tracks_core d p). unfold flushOrder.
    destruct (flush_begin_ok dash_free p1 (fk_key req) Hp1) as [->|(l & signal & Hb & El & _)].
    { exists p1, t. by split; [|split; [constructor|]]. }
    rewrite Hb. cbn [mbind outcome_bind]. destruct (publish signal).
    { exists p1, t. by split; [|split; [constructor|]]. }
    destruct (tracks_flush d now p1 t (fk_key req) (fk_status req) l signal Hp1 Ht1 Hb El)
      as (p' & fills & Hc & Ek & Ht'). exists p'. eexists. split; [done|]. by split; [constructor|].
  - eexists _, t. split; [reflexivity|]. split; [by constructor|].
    apply (tracks_core d p); [done|]. apply scanTimeoutOrders_core.
  - eexists _, t. split; [reflexivity|]. split; [by constructor|]. by apply (tracks_ext d p).
Qed.

Lemma op_run_tracks d t_end evs : forall before now p t,
  op_ok dash_free p -> sent_ok dash_free t_end now p -> tracks d p t -> tracker_run d before t ->
  clock_until t_end now evs -> Forall (address_ok dash_free) evs ->
  exists p' t', op_run p evs = Ret p' /\ tracker_run d (before ++ evs) t' /\ tracks d p' t'.
Proof.
  induction evs as [|[at_ e] evs IH]; intros before now p t Hp Hs Ht Hrun Hc Ha; cbn [op_run].
  { exists p, t. by rewrite app_nil_r. }
  destruct Hc as [Hle Hc]. inversion Ha as [|? ? Ha1 Ha2]; subst.
  assert (sent_ok dash_free t_end at_ p) as Hs' by (eapply sent_ok_later; [done|lia]).
  destruct (op_exec_tracks d t_end at_ p t e) as (p1 & t1 & E & Hstep & Ht1); [done..|lia|done|].
  destruct (op_exec_ok dash_free (fun _ H => H) t_end at_ p e) as (p1' & E' & Hp1 & Hs1 & _); [done..|lia|done|].
  rewrite E in E'. injection E' as <-. rewrite E. cbn [mbind outcome_bind].
  destruct (IH (before ++ [(at_, e)]) at_ p1 t1) as (p' & t' & Hr & Htr & Ht'); [done..| |done|done|].
  - by econstructor.
  - exists p', t'. by rewrite <- app_assoc in Htr.
Qed.

Lemma tracks_new d bw sc bc pc : tracks d (NewOrderProcessor bw (Some d) sc bc pc) no_orders.
Proof.
  split; [intros key; apply lookup_empty|constructor|]. intros d' [= <-] *. done.
Qed.

(** C3. Every signal is accounted for by the messages, and every message by a
    signal or a pending order.  In every run within one deduplication window, of
    handlers, scans and flushes in any order, each completed before the next
    begins (two overlapping flushes of one order publish it twice,
    concurrent_flushes_publish_twice), each order direction is published at most
    once, by a flush, with the time of the first and the size and price of all
    the fills of that direction handled before that flush (those with a repeated
    trade id dropped); and a direction not published is pending with all its
    fills, when it had some.  Addresses hold no dash, and fills of orders that the
    deduper knew at the start do not count. *)
Theorem signals_accounted bw d sc bc pc t0 evs :
  (forall c, bc = Some c -> PositionBalanceCache_wf c) ->
  0 < dd_window d -> clock_until (t0 + dd_window d) t0 evs -> Forall (address_ok dash_free) evs ->
  exists p, op_run (NewOrderProcessor bw (Some d) sc bc pc) evs = Ret p /\
    NoDup (op_published p).*1 /\
    (forall key signal, (key, signal) ∈ op_published p ->
       exists before now publish after f rest,
         evs = before ++ (now, OpFlush publish) :: after /\
         fills_of d key before = f :: rest /\
         (sig_Size signal, sig_Price signal) = aggregate (f :: keep_new [] rest) /\
         sig_Timestamp signal = fill_Time f) /\
    (forall key, key ∉ (op_published p).*1 ->
       match fills_of d key evs with
       | [] => map_data (op_pendingOrders p) !! key = None
       | f :: rest => exists l tids, pending_at p key l (f :: keep_new [] rest) tids
       end).
Proof.
  intros Hb Hw Hc Ha.
  destruct (op_run_tracks d (t0 + dd_window d) evs [] t0 (NewOrderProcessor bw (Some d) sc bc pc) no_orders)
    as (p & t & Hr & Hrun & Ht); [by apply op_ok_new| |apply tracks_new|constructor|done..|].
  { split; [apply NoDup_nil_2|]. exists d. split_and!; [done..|lia|].
    intros key s Hk. by apply not_elem_of_nil in Hk. }
  apply tracker_accounted in Hrun as [Hopen Hclosed Hdone Honce]. cbn [app] in *.
  pose proof (tracks_keys d p t Ht) as Hkeys.
  exists p. split; [done|]. split; [by rewrite <- Hkeys|]. split.
  - intros key signal Hin. apply list_elem_of_lookup in Hin as [i Hi].
    destruct (Forall2_lookup_l _ _ _ _ _ (tr_done d p t Ht) Hi) as ([key' fills] & Hi' & Ek & Hsz & Htime).
    simpl in Ek. subst key'. apply list_elem_of_lookup_2 in Hi'.
    destruct (Hdone key fills Hi') as (before & now & publish & after & -> & Hk).
    destruct (fills_of d key before) as [|f rest] eqn:Ef; [done|]. injection Hk as <-.
    exists before, now, publish, after, f, rest. split; [done|]. split; [done|]. split; [done|].
    by injection Htime.
  - intros key Hn. rewrite <- Hkeys in Hn. pose proof (tr_open d p t Ht key) as Ho.
    rewrite (Hopen key Hn) in Ho. destruct (fills_of d key evs) as [|f rest]; [done|].
    destruct Ho as (_ & l & Hp). by eexists _, _.
Qed.
End history.

(** ** Witness *)

Lemma signals_accounted_witness :
  exists p, op_run sample_processor sample_run = Ret p /\
    forall key signal, (key, signal) ∈ op_published p ->
      exists before now publish after f rest,
        sample_run = before ++ (now, OpFlush publish) :: after /\
        fills_of sample_deduper key before = f :: rest /\
        (sig_Size signal, sig_Price signal) = aggregate (f :: keep_new [] rest) /\
        sig_Timestamp signal = fill_Time f.
Proof.
  destruct (signals_accounted (Some (NewBatchWriter None)) sample_deduper sample_symbols
    (Some sample_balances) NewPairCategoryCache 0 sample_run) as (p & Hr & _ & Hp & _).
  - exact sample_balances_wf.
  - reflexivity.
  - vm_compute. repeat split; discriminate.
  - repeat constructor.
  - exists p. split; [exact Hr|exact Hp].
Defined.
