(* ===== verification/WsPool.v ===== *)
(** * internal/ws: subscriptions, connections, the pool and the dispatcher

    types.go, pool.go, pool_manager.go, dispatcher.go, and of client.go the
    parts that decide whether a command is sent.  Connections are objects
    behind pointers: the pool and every subscription hold locations of the
    heap [pm_heap].  What the network answers (to a dial, to a written frame)
    and what gjson reads from a message are arguments; a closure given as a
    callback is a value of the parameter [Callback]. *)

From Stdlib Require Import ZArith Lia Ascii.
From stdpp Require Import gmap strings list.
From S2P Require Import Prelude GoStrings.
Local Open Scope Z_scope.

(** ** types.go *)

Abbreviation Channel := string (only parsing).
Definition ChannelWebData2 : Channel := "webData2".
Definition ChannelUserFills : Channel := "userFills".
Definition ChannelOrderUpdates : Channel := "orderUpdates".
Definition ChannelAllMids : Channel := "allMids".
Definition ChannelL2Book : Channel := "l2Book".
Definition ChannelTrades : Channel := "trades".
Definition ChannelCandle : Channel := "candle".
Definition ChannelBbo : Channel := "bbo".
Definition ChannelSpotAssetCtxs : Channel := "spotAssetCtxs".

Record Subscription := mkSubscription {
  sub_Channel : Channel;
  sub_User : string;
  sub_Coin : string;
}.

#[export] Instance Subscription_eq_dec : EqDecision Subscription.
Proof. solve_decision. Defined.

Definition Subscription_Key (s : Subscription) : string :=
  if decide (sub_User s <> EmptyString) then sub_Channel s +:+ ":" +:+ sub_User s
  else if decide (sub_Coin s <> EmptyString) then sub_Channel s +:+ ":" +:+ sub_Coin s
  else sub_Channel s.

(** [json.RawMessage] is kept as its text. *)
Record WsMessage := mkWsMessage {
  msg_Channel : Channel;
  msg_Data : string;
}.

(** ** client.go and pool.go *)

(** A JSON command written to the socket. *)
Inductive WsCommand : Type :=
| CmdSubscribe (sub : Subscription)
| CmdUnsubscribe (sub : Subscription).

#[export] Instance WsCommand_eq_dec : EqDecision WsCommand.
Proof. solve_decision. Defined.

(** The client of a wrapper is connected while its [conn] is not nil; the
    commands written are kept in order. *)
Record ConnectionWrapper := mkConnectionWrapper {
  cw_connected : bool;
  cw_written : list WsCommand;
  cw_subscriptions : gmap string Subscription;
}.

Definition NewConnectionWrapper (connected : bool) (written : list WsCommand)
    : ConnectionWrapper := mkConnectionWrapper connected written ∅.

Definition SubscriptionCount (cw : ConnectionWrapper) : Z := Z.of_nat (size (cw_subscriptions cw)).
Definition HasSubscription (cw : ConnectionWrapper) (key : string) : bool :=
  bool_decide (is_Some (cw_subscriptions cw !! key)).
Definition GetSubscription (cw : ConnectionWrapper) (key : string) : option Subscription :=
  cw_subscriptions cw !! key.
Definition AddSubscription (cw : ConnectionWrapper) (key : string) (sub : Subscription)
    : ConnectionWrapper :=
  mkConnectionWrapper (cw_connected cw) (cw_written cw) (<[key := sub]> (cw_subscriptions cw)).
Definition RemoveSubscription (cw : ConnectionWrapper) (key : string) : ConnectionWrapper :=
  mkConnectionWrapper (cw_connected cw) (cw_written cw) (delete key (cw_subscriptions cw)).
Definition GetSubscriptionKeys `{MapRange} (cw : ConnectionWrapper) : list string :=
  (go_range (cw_subscriptions cw)).*1.
Definition GetAllSubscriptions (cw : ConnectionWrapper) : gmap string Subscription :=
  cw_subscriptions cw.

Definition Client_Close (cw : ConnectionWrapper) : ConnectionWrapper :=
  mkConnectionWrapper false (cw_written cw) (cw_subscriptions cw).

(** [writeJSONWithDeadline]: refused on a closed connection; otherwise the
    frame is written and the network answers. *)
Definition writeJSONWithDeadline (net : WsCommand -> error) (cw : ConnectionWrapper)
    (cmd : WsCommand) : ConnectionWrapper * error :=
  if cw_connected cw then
    match net cmd with
    | None => (mkConnectionWrapper true (cw_written cw ++ [cmd]) (cw_subscriptions cw), nil_error)
    | Some err => (cw, Some err)
    end
  else (cw, Some "connection closed").

Definition Client_Subscribe net cw (sub : Subscription) :=
  writeJSONWithDeadline net cw (CmdSubscribe sub).
Definition Client_Unsubscribe net cw (sub : Subscription) :=
  writeJSONWithDeadline net cw (CmdUnsubscribe sub).

(** ** pool_manager.go *)
Section pool.
Context {Callback : Type} `{MapRange}.

Record subscriptionInfo := mkSubscriptionInfo {
  info_subscription : Subscription;
  info_callbacks : gmap Z Callback;
  info_connection : loc;
}.

Record PoolManager := mkPoolManager {
  pm_connections : list loc;
  pm_heap : gmap loc ConnectionWrapper;
  pm_maxConnections : Z;
  pm_maxSubscriptions : Z;
  pm_subscriptions : gmap string subscriptionInfo;
  pm_callbackIDSeq : Z;
  pm_started : bool;
  pm_reconnectBackoff : Z;
}.

Record SubscriptionHandle := mkSubscriptionHandle {
  sh_id : Z;
  sh_key : string;
}.

Definition NewPoolManager (maxConns maxSubs : Z) : PoolManager :=
  mkPoolManager [] ∅ maxConns maxSubs ∅ 0 false 0.

Definition with_conns (pm : PoolManager) connections heap : PoolManager :=
  mkPoolManager connections heap (pm_maxConnections pm) (pm_maxSubscriptions pm)
    (pm_subscriptions pm) (pm_callbackIDSeq pm) (pm_started pm) (pm_reconnectBackoff pm).
Definition with_subs (pm : PoolManager) subscriptions : PoolManager :=
  mkPoolManager (pm_connections pm) (pm_heap pm) (pm_maxConnections pm)
    (pm_maxSubscriptions pm) subscriptions (pm_callbackIDSeq pm) (pm_started pm)
    (pm_reconnectBackoff pm).
Definition with_seq (pm : PoolManager) seq : PoolManager :=
  mkPoolManager (pm_connections pm) (pm_heap pm) (pm_maxConnections pm)
    (pm_maxSubscriptions pm) (pm_subscriptions pm) seq (pm_started pm) (pm_reconnectBackoff pm).
Definition with_started (pm : PoolManager) started : PoolManager :=
  mkPoolManager (pm_connections pm) (pm_heap pm) (pm_maxConnections pm)
    (pm_maxSubscriptions pm) (pm_subscriptions pm) (pm_callbackIDSeq pm) started
    (pm_reconnectBackoff pm).
Definition with_backoff (pm : PoolManager) backoff : PoolManager :=
  mkPoolManager (pm_connections pm) (pm_heap pm) (pm_maxConnections pm)
    (pm_maxSubscriptions pm) (pm_subscriptions pm) (pm_callbackIDSeq pm) (pm_started pm) backoff.

(** The object a pointer of the pool refers to; every pointer the pool holds
    was allocated. *)
Definition deref (pm : PoolManager) (l : loc) : outcome ConnectionWrapper :=
  match pm_heap pm !! l with Some cw => Ret cw | None => Panic end.
Definition set_conn (pm : PoolManager) (l : loc) (cw : ConnectionWrapper) : PoolManager :=
  with_conns pm (pm_connections pm) (<[l := cw]> (pm_heap pm)).
Definition IsConnectedAt (pm : PoolManager) (l : loc) : bool :=
  match pm_heap pm !! l with Some cw => cw_connected cw | None => false end.
Definition CountAt (pm : PoolManager) (l : loc) : Z :=
  match pm_heap pm !! l with Some cw => SubscriptionCount cw | None => 0 end.

Definition ConnectionCount (pm : PoolManager) : Z := Z.of_nat (length (pm_connections pm)).
Definition PoolManager_IsConnected (pm : PoolManager) : bool :=
  existsb (IsConnectedAt pm) (pm_connections pm).
Definition PoolManager_SubscriptionCount (pm : PoolManager) : Z :=
  Z.of_nat (size (pm_subscriptions pm)).

Definition PoolManager_MaxConnections (pm : PoolManager) : Z := pm_maxConnections pm.
Definition PoolManager_MaxSubscriptions (pm : PoolManager) : Z := pm_maxSubscriptions pm.

(** [GetStats]: connections, subscriptions they carry, started. *)
Definition PoolManager_GetStats (pm : PoolManager) : Z * Z * bool :=
  (Z.of_nat (length (pm_connections pm)),
   fold_left (fun subCount l => subCount + CountAt pm l) (pm_connections pm) 0, pm_started pm).

(** The wrapper of a new client, or the error of the dial; not appended here. *)
Definition createConnectionLocked (dial : error) (pm : PoolManager)
    : PoolManager * (loc + string) :=
  match dial with
  | Some err => (pm, inr ("connection failed: " +:+ err))
  | None =>
      let l := fresh (dom (pm_heap pm)) in
      (set_conn pm l (NewConnectionWrapper true []), inl l)
  end.

Definition PoolManager_Start (dial : error) (pm : PoolManager) : PoolManager * error :=
  if pm_started pm then (pm, nil_error)
  else match createConnectionLocked dial pm with
       | (pm, inr err) => (pm, Some err)
       | (pm, inl l) =>
           (with_started (with_conns pm (pm_connections pm ++ [l]) (pm_heap pm)) true, nil_error)
       end.

Definition PoolManager_Close (pm : PoolManager) : PoolManager :=
  let heap := fold_left (fun heap l => alter Client_Close l heap) (pm_connections pm) (pm_heap pm) in
  with_started (with_conns pm [] heap) false.

(** The loop of [leastLoadedConnection]; its counter starts at the largest int. *)
Definition least_step (pm : PoolManager) (acc : Z * option loc) (l : loc) : Z * option loc :=
  let '(minCount, selected) := acc in
  if IsConnectedAt pm l then
    let count := CountAt pm l in
    if count <? minCount then (count, Some l) else acc
  else acc.

Definition leastLoadedConnection (pm : PoolManager) : option loc :=
  match pm_connections pm with
  | [] => None
  | first :: _ =>
      match (fold_left (least_step pm) (pm_connections pm) (int64_max, None)).2 with
      | Some selected => Some selected
      | None => Some first
      end
  end.

(** A connection, [None] for a nil one, or an error. *)
Definition acquireConnection (dial : error) (pm : PoolManager)
    : PoolManager * (option loc + string) :=
  match list_find (fun l => IsConnectedAt pm l && (CountAt pm l <? pm_maxSubscriptions pm))
          (pm_connections pm) with
  | Some (_, l) => (pm, inl (Some l))
  | None =>
      if ConnectionCount pm <? pm_maxConnections pm then
        match createConnectionLocked dial pm with
        | (pm, inl l) => (pm, inl (Some l))
        | (pm, inr err) => (pm, inr err)
        end
      else (pm, inl (leastLoadedConnection pm))
  end.

Definition add_callback (info : subscriptionInfo) (handleID : Z) (callback : Callback)
    : subscriptionInfo :=
  mkSubscriptionInfo (info_subscription info) (<[handleID := callback]> (info_callbacks info))
    (info_connection info).

(** [Subscribe] after the connection is acquired: the registration (step 3)
    and the network command (step 4). *)
Definition subscribe_on (net : WsCommand -> error) (pm : PoolManager) (conn : option loc)
    (sub : Subscription) (handleID : Z) (callback : Callback)
    : outcome (PoolManager * (SubscriptionHandle + string)) :=
  let key := Subscription_Key sub in
  match pm_subscriptions pm !! key with
  | Some info =>
      Ret (with_subs pm (<[key := add_callback info handleID callback]> (pm_subscriptions pm)),
           inl (mkSubscriptionHandle handleID key))
  | None =>
      match conn with
      | None => Panic
      | Some l =>
          let pm' := with_subs pm
            (<[key := mkSubscriptionInfo sub {[handleID := callback]} l]> (pm_subscriptions pm)) in
          cw ← deref pm' l;
          let '(cw, err) :=
            if cw_connected cw then Client_Subscribe net cw sub else (cw, nil_error) in
          match err with
          | Some err => Ret (with_subs (set_conn pm' l cw) (delete key (pm_subscriptions pm')), inr err)
          | None =>
              Ret (set_conn pm' l (AddSubscription cw key sub),
                   inl (mkSubscriptionHandle handleID key))
          end
      end
  end.

Definition PoolManager_Subscribe (dial : error) (net : WsCommand -> error) (pm : PoolManager)
    (sub : Subscription) (callback : Callback)
    : outcome (PoolManager * (SubscriptionHandle + string)) :=
  let key := Subscription_Key sub in
  let handleID := pm_callbackIDSeq pm + 1 in
  let pm := with_seq pm handleID in
  match pm_subscriptions pm !! key with
  | Some info =>
      Ret (with_subs pm (<[key := add_callback info handleID callback]> (pm_subscriptions pm)),
           inl (mkSubscriptionHandle handleID key))
  | None =>
      match acquireConnection dial pm with
      | (pm, inr err) => Ret (pm, inr err)
      | (pm, inl conn) => subscribe_on net pm conn sub handleID callback
      end
  end.

Definition unsubscribe (net : WsCommand -> error) (pm : PoolManager) (key : string)
    (handleID : Z) : outcome PoolManager :=
  match pm_subscriptions pm !! key with
  | None => Ret pm
  | Some info =>
      let conn := info_connection info in
      let sub := info_subscription info in
      let pm := with_subs pm (delete key (pm_subscriptions pm)) in
      cw ← deref pm conn;
      if cw_connected cw then
        let '(cw, _) := Client_Unsubscribe net cw sub in
        Ret (set_conn pm conn (RemoveSubscription cw key))
      else Ret pm
  end.

Definition Handle_Unsubscribe net (pm : PoolManager) (sh : SubscriptionHandle)
    : outcome PoolManager := unsubscribe net pm (sh_key sh) (sh_id sh).

(** ** Repair *)

(** One key of [migrateAndResubscribe]; an error of the command is logged only. *)
Definition migrate_key (net : WsCommand -> error) (oldConn newConn : loc) (pm : PoolManager)
    (key : string) : PoolManager :=
  match pm_subscriptions pm !! key with
  | None => pm
  | Some info =>
      if decide (info_connection info <> oldConn) then pm
      else
        let pm := with_subs pm (<[key := mkSubscriptionInfo (info_subscription info)
                     (info_callbacks info) newConn]> (pm_subscriptions pm)) in
        let pm := with_conns pm (pm_connections pm)
          (alter (fun cw => AddSubscription cw key (info_subscription info)) newConn (pm_heap pm)) in
        with_conns pm (pm_connections pm)
          (alter (fun cw => fst (Client_Subscribe net cw (info_subscription info))) newConn
             (pm_heap pm))
  end.

Definition migrateAndResubscribe (net : WsCommand -> error) (pm : PoolManager)
    (oldConn newConn : loc) : PoolManager :=
  match pm_heap pm !! oldConn with
  | None => pm
  | Some cw => fold_left (migrate_key net oldConn newConn) (GetSubscriptionKeys cw) pm
  end.

(** The body of the loop of [repairConnections] at index [i]; [dial i] is the
    answer to the dial. *)
Definition repair_at (dial : nat -> error) (net : WsCommand -> error) (pm : PoolManager)
    (i : nat) (cw : loc) : PoolManager * error :=
  if IsConnectedAt pm cw then (pm, nil_error)
  else
    let pm := with_conns pm (pm_connections pm) (alter Client_Close cw (pm_heap pm)) in
    match dial i with
    | Some err => (pm, Some ("dial error: " +:+ err))
    | None =>
        let l := fresh (dom (pm_heap pm)) in
        let pm := set_conn pm l (NewConnectionWrapper true []) in
        let pm := with_conns pm (<[i := l]> (pm_connections pm)) (pm_heap pm) in
        (migrateAndResubscribe net pm cw l, nil_error)
    end.

Fixpoint repair_loop dial net (pm : PoolManager) (i : nat) (snapshot : list loc)
    : PoolManager * error :=
  match snapshot with
  | [] => (pm, nil_error)
  | cw :: snapshot =>
      match repair_at dial net pm i cw with
      | (pm, Some err) => (pm, Some err)
      | (pm, None) => repair_loop dial net pm (S i) snapshot
      end
  end.

Definition repairConnections dial net (pm : PoolManager) : PoolManager * error :=
  repair_loop dial net pm 0 (pm_connections pm).

Definition initialBackoff : Z := 1 * Second.
Definition maxBackoff : Z := 300 * Second.

(** [pm.reconnectBackoff *= 2], capped. *)
Definition next_backoff (b : Z) : Z :=
  let b := b * 2 in if b >? maxBackoff then maxBackoff else b.

(** One turn of the loop of [handleDisconnect], after its sleep. *)
Definition reconnect_attempt net (dial : nat -> error) (pm : PoolManager)
    : PoolManager * error :=
  match repairConnections dial net pm with
  | (pm, None) => (with_backoff pm initialBackoff, nil_error)
  | (pm, Some err) => (with_backoff pm (next_backoff (pm_reconnectBackoff pm)), Some err)
  end.

(** [handleDisconnect]: the attempts' dial answers are a list; [None] when the
    list ends before an attempt succeeds (the loop goes on).  The second result
    is the backoff each attempt waited on (jittered by half to three halves). *)
Fixpoint reconnect_loop net (pm : PoolManager) (attempts : list (nat -> error))
    : option (PoolManager * list Z) :=
  match attempts with
  | [] => None
  | dial :: attempts =>
      let waited := pm_reconnectBackoff pm in
      match reconnect_attempt net dial pm with
      | (pm, None) => Some (pm, [waited])
      | (pm, Some _) =>
          match reconnect_loop net pm attempts with
          | Some (pm, waits) => Some (pm, waited :: waits)
          | None => None
          end
      end
  end.

Definition handleDisconnect net (pm : PoolManager) (attempts : list (nat -> error)) :=
  let pm := if decide (pm_reconnectBackoff pm = 0) then with_backoff pm initialBackoff else pm in
  reconnect_loop net pm attempts.

(** ** dispatcher.go

    The result of a dispatch is the list of callbacks run with the message
    (Dispatcher.v runs them).
    [gjson_user] is [gjson.Get(data, "user").String()]. *)
Context (gjson_user : string -> string).

Definition getCallbacksByKey (pm : PoolManager) (key : string) : list Callback :=
  match pm_subscriptions pm !! key with
  | None => []
  | Some info => (go_range (info_callbacks info)).*2
  end.

Definition dispatchToKey (pm : PoolManager) (key : string) : list Callback :=
  getCallbacksByKey pm key.

Definition broadcastToChannel (pm : PoolManager) (channel : Channel) : list Callback :=
  concat (map (fun '(key, info) =>
    if has_prefix key (channel +:+ ":") then (go_range (info_callbacks info)).*2 else [])
    (go_range (pm_subscriptions pm))).

Definition dispatchWebData2 (pm : PoolManager) (msg : WsMessage) : list Callback :=
  let user := gjson_user (msg_Data msg) in
  if decide (user = EmptyString) then broadcastToChannel pm ChannelWebData2
  else dispatchToKey pm (ChannelWebData2 +:+ ":" +:+ user).

Definition dispatchUserFills (pm : PoolManager) (msg : WsMessage) : list Callback :=
  let user := gjson_user (msg_Data msg) in
  if decide (user = EmptyString) then broadcastToChannel pm ChannelUserFills
  else dispatchToKey pm (ChannelUserFills +:+ ":" +:+ user).

Definition dispatchGeneric (pm : PoolManager) (msg : WsMessage) : list Callback :=
  dispatchToKey pm (msg_Channel msg).

Definition Dispatch (pm : PoolManager) (msg : WsMessage) : list Callback :=
  let channel := msg_Channel msg in
  if decide (channel = ChannelWebData2) then dispatchWebData2 pm msg
  else if decide (channel = ChannelUserFills) then dispatchUserFills pm msg
  else if decide (channel = ChannelOrderUpdates) then broadcastToChannel pm ChannelOrderUpdates
  else dispatchGeneric pm msg.
End pool.
Arguments subscriptionInfo Callback : clear implicits.
Arguments PoolManager Callback : clear implicits.

(** ** The invariant of the pool *)
Section invariant.
Context {Callback : Type} `{MapRange}.
Implicit Types pm : PoolManager Callback.

Record pool_ok pm : Prop := {
  pool_conns : forall l, l ∈ pm_connections pm -> is_Some (pm_heap pm !! l);
  pool_subs : forall key info, pm_subscriptions pm !! key = Some info ->
    key = Subscription_Key (info_subscription info) /\
    exists cw, pm_heap pm !! info_connection info = Some cw /\
      cw_subscriptions cw !! key = Some (info_subscription info);
}.

Lemma NewPoolManager_ok a b : pool_ok (NewPoolManager a b).
Proof. constructor; simpl; [set_solver|]. intros key info. by rewrite lookup_empty. Qed.

Lemma fresh_conn pm : pm_heap pm !! fresh (dom (pm_heap pm)) = None.
Proof. apply not_elem_of_dom_1, is_fresh. Qed.

(** Changing one object without forgetting its registrations. *)
Lemma set_conn_ok pm l cw' :
  pool_ok pm ->
  (forall cw, pm_heap pm !! l = Some cw ->
     forall key sub, cw_subscriptions cw !! key = Some sub ->
     cw_subscriptions cw' !! key = Some sub) ->
  pool_ok (set_conn pm l cw').
Proof.
  intros [Hc Hs] Hk. constructor; simpl.
  - intros l' Hl'. apply lookup_insert_is_Some'. right. by apply Hc.
  - intros key info Hi. destruct (Hs key info Hi) as (Ek & cw & Eh & Er). split; [done|].
    destruct (decide (l = info_connection info)) as [->|Hne].
    + rewrite lookup_insert_eq. eexists. split; [done|]. by eapply Hk.
    + rewrite lookup_insert_ne by done. by exists cw.
Qed.

Lemma create_ok dial pm pm' r :
  pool_ok pm -> createConnectionLocked dial pm = (pm', r) ->
  pool_ok pm' /\ pm_connections pm' = pm_connections pm /\
  pm_subscriptions pm' = pm_subscriptions pm /\
  match r with
  | inl l => pm_heap pm !! l = None /\ pm_heap pm' = <[l := NewConnectionWrapper true []]> (pm_heap pm)
  | inr _ => pm' = pm
  end.
Proof.
  unfold createConnectionLocked. intros Hp. destruct dial as [err|]; intros [= <- <-]; [done|].
  split_and!; try done; [|apply fresh_conn].
  apply set_conn_ok; [done|]. intros cw Hcw. by rewrite fresh_conn in Hcw.
Qed.

Lemma writeJSON_keeps net cw cmd :
  cw_subscriptions (writeJSONWithDeadline net cw cmd).1 = cw_subscriptions cw /\
  cw_connected (writeJSONWithDeadline net cw cmd).1 = cw_connected cw.
Proof.
  unfold writeJSONWithDeadline. destruct (cw_connected cw) eqn:E; [|done].
  by destruct (net cmd).
Qed.

Lemma pool_ok_ext pm pm' :
  pm_connections pm' = pm_connections pm -> pm_heap pm' = pm_heap pm ->
  pm_subscriptions pm' = pm_subscriptions pm -> pool_ok pm -> pool_ok pm'.
Proof. intros E1 E2 E3 [Hc Hs]. constructor; rewrite ?E1, ?E2, ?E3; done. Qed.

(** Registering a subscription on an allocated connection. *)
Lemma register_ok pm l cw sub callbacks :
  pool_ok pm -> pm_heap pm !! l = Some cw ->
  pool_ok (set_conn (with_subs pm (<[Subscription_Key sub :=
      mkSubscriptionInfo sub callbacks l]> (pm_subscriptions pm))) l
    (AddSubscription cw (Subscription_Key sub) sub)).
Proof.
  intros [Hc Hs] Hl. constructor; simpl.
  - intros l' Hl'. apply lookup_insert_is_Some'. right. by apply Hc.
  - intros key info. destruct (decide (Subscription_Key sub = key)) as [<-|Hne].
    + rewrite lookup_insert_eq. intros [= <-]. simpl. split; [done|].
      rewrite lookup_insert_eq. eexists. split; [done|]. apply lookup_insert_eq.
    + rewrite lookup_insert_ne by done. intros Hi.
      destruct (Hs key info Hi) as (Ek & cw' & Eh & Er). split; [done|].
      destruct (decide (l = info_connection info)) as [->|Hne'].
      * rewrite lookup_insert_eq. eexists. split; [done|]. simpl.
        rewrite lookup_insert_ne by done. congruence.
      * rewrite lookup_insert_ne by done. by exists cw'.
Qed.

Lemma with_seq_ok pm n : pool_ok pm -> pool_ok (with_seq pm n).
Proof. by apply pool_ok_ext. Qed.

Lemma add_callback_ok pm key info id cb :
  pool_ok pm -> pm_subscriptions pm !! key = Some info ->
  pool_ok (with_subs pm (<[key := add_callback info id cb]> (pm_subscriptions pm))).
Proof.
  intros [Hc Hs] Hi. constructor; simpl; [done|]. intros key' info'.
  destruct (decide (key = key')) as [<-|Hne].
  - rewrite lookup_insert_eq. intros [= <-]. apply (Hs key info Hi).
  - rewrite lookup_insert_ne by done. apply Hs.
Qed.

Lemma drop_sub_ok pm key : pool_ok pm -> pool_ok (with_subs pm (delete key (pm_subscriptions pm))).
Proof.
  intros [Hc Hs]. constructor; simpl; [done|]. intros key' info' [_ Hi]%lookup_delete_Some.
  by apply Hs.
Qed.

(** Where [acquireConnection] finds its connection. *)
Lemma acquire_ok dial pm pm' r :
  pool_ok pm -> acquireConnection dial pm = (pm', r) ->
  pool_ok pm' /\ pm_connections pm' = pm_connections pm /\
  pm_subscriptions pm' = pm_subscriptions pm /\
  match r with
  | inl (Some l) => is_Some (pm_heap pm' !! l)
  | inl None => pm_connections pm = [] /\ pm_maxConnections pm <= 0
  | inr _ => dial <> nil_error
  end.
Proof.
  unfold acquireConnection. intros Hp.
  destruct (list_find _ _) as [[i l]|] eqn:Ef.
  - intros [= <- <-]. split_and!; try done.
    apply list_find_Some in Ef as (Hi & _). by eapply pool_conns, list_elem_of_lookup_2.
  - destruct (Z.ltb_spec (ConnectionCount pm) (pm_maxConnections pm)) as [Hlt|Hge].
    + destruct (createConnectionLocked dial pm) as [pm1 [l|err]] eqn:Ec; intros [= <- <-];
        destruct (create_ok _ _ _ _ Hp Ec) as (H1 & H2 & H3 & H4); split_and!; try done.
      * destruct H4 as [_ ->]. rewrite lookup_insert_eq. by eexists.
      * intros ->. by unfold createConnectionLocked in Ec.
    + intros [= <- <-]. split_and!; try done. unfold leastLoadedConnection.
      unfold ConnectionCount in Hge.
      destruct (pm_connections pm) as [|first rest] eqn:Econ; [done|].
      assert (forall cs acc, (forall x, acc.2 = Some x -> x ∈ first :: rest) ->
        (forall x, x ∈ cs -> x ∈ first :: rest) ->
        forall x, (fold_left (least_step pm) cs acc).2 = Some x -> x ∈ first :: rest) as Hfold.
      { induction cs as [|c cs IH]; intros acc Hacc Hcs; [done|]. simpl. apply IH; [|set_solver].
        intros x. destruct acc as [m s]. unfold least_step.
        destruct (IsConnectedAt pm c); [|apply Hacc].
        destruct (_ <? _); [|apply Hacc]. simpl. intros [= <-]. set_solver. }
      destruct ((fold_left _ _ _).2) as [x|] eqn:Ex.
      * apply pool_conns; [done|]. rewrite Econ. eapply Hfold, Ex; [done|set_solver].
      * apply pool_conns; [done|]. rewrite Econ. left.
Qed.

Definition pool_result (r : outcome (PoolManager Callback * (SubscriptionHandle + string)))
    (P : PoolManager Callback -> SubscriptionHandle + string -> Prop) : Prop :=
  match r with Ret (pm, h) => P pm h | Panic => False end.

Lemma set_conn_after pm l cw sub callbacks net :
  pool_ok pm -> pm_heap pm !! l = Some cw ->
  let cw' := if cw_connected cw then (Client_Subscribe net cw sub).1 else cw in
  pool_ok (set_conn (with_subs pm (<[Subscription_Key sub :=
      mkSubscriptionInfo sub callbacks l]> (pm_subscriptions pm))) l
    (AddSubscription cw' (Subscription_Key sub) sub)).
Proof.
  intros Hp Hl cw'.
  assert (cw_subscriptions cw' = cw_subscriptions cw) as E.
  { subst cw'. destruct (cw_connected cw); [|done]. apply writeJSON_keeps. }
  assert (pool_ok (set_conn pm l cw')) as Hp'.
  { apply set_conn_ok; [done|]. intros c Hc. rewrite Hl in Hc. injection Hc as <-.
    by rewrite E. }
  pose proof (register_ok (set_conn pm l cw') l cw' sub callbacks Hp'
                (lookup_insert_eq _ _ _)) as Hr.
  eapply pool_ok_ext, Hr; simpl; [done| |done]. by rewrite insert_insert_eq.
Qed.

Lemma subscribe_on_ok net pm l sub id cb :
  pool_ok pm -> pm_subscriptions pm !! Subscription_Key sub = None ->
  is_Some (pm_heap pm !! l) ->
  pool_result (subscribe_on net pm (Some l) sub id cb) (fun pm' r =>
    pool_ok pm' /\ pm_connections pm' = pm_connections pm /\
    match r with
    | inl h => h = mkSubscriptionHandle id (Subscription_Key sub) /\
        pm_subscriptions pm' = <[Subscription_Key sub :=
          mkSubscriptionInfo sub {[id := cb]} l]> (pm_subscriptions pm) /\
        (IsConnectedAt pm l = true -> exists cw, pm_heap pm' !! l = Some cw /\
           CmdSubscribe sub ∈ cw_written cw)
    | inr _ => pm_subscriptions pm' = pm_subscriptions pm
    end).
Proof.
  intros Hp Hn [cw Hl]. unfold subscribe_on. rewrite Hn. unfold deref. simpl. rewrite Hl.
  cbn [mbind outcome_bind].
  pose proof (set_conn_after pm l cw sub {[id := cb]} net Hp Hl) as Hok. cbn zeta in Hok.
  unfold IsConnectedAt. rewrite Hl.
  destruct (cw_connected cw) eqn:Econ.
  - unfold Client_Subscribe, writeJSONWithDeadline in *. rewrite Econ in *.
    destruct (net (CmdSubscribe sub)) as [err|] eqn:Enet; simpl in *.
    + split_and!; try done; [|by rewrite delete_insert_id].
      rewrite delete_insert_id by done. eapply (pool_ok_ext (set_conn pm l cw)); try done.
      apply set_conn_ok; [done|]. intros c Hc. rewrite Hl in Hc. by injection Hc as <-.
    + split_and!; try done. intros _. eexists. rewrite lookup_insert_eq.
      split; [done|]. simpl. set_solver.
  - simpl. by split_and!.
Qed.

(** [find_conn] of the repair and dispatch lemmas: moving subscriptions. *)
Definition move_info (old new : loc) (info : subscriptionInfo Callback) : subscriptionInfo Callback :=
  if decide (info_connection info = old)
  then mkSubscriptionInfo (info_subscription info) (info_callbacks info) new else info.

(** Migrating one key, spelled out on the three parts of the pool. *)
Lemma migrate_key_parts net old new pm key :
  pm_connections (migrate_key net old new pm key) = pm_connections pm /\
  (forall k, pm_subscriptions (migrate_key net old new pm key) !! k =
     if decide (k = key) then move_info old new <$> pm_subscriptions pm !! k
     else pm_subscriptions pm !! k) /\
  (forall l, l <> new -> pm_heap (migrate_key net old new pm key) !! l = pm_heap pm !! l) /\
  forall cw, pm_heap pm !! new = Some cw -> cw_connected cw = true ->
    exists cw', pm_heap (migrate_key net old new pm key) !! new = Some cw' /\
      cw_connected cw' = true /\ cw_written cw `prefix_of` cw_written cw' /\
      (forall k sub, k <> key -> cw_subscriptions cw !! k = Some sub ->
         cw_subscriptions cw' !! k = Some sub) /\
      (forall info, pm_subscriptions pm !! key = Some info ->
         if decide (info_connection info = old) then
           cw_subscriptions cw' !! key = Some (info_subscription info) /\
           (net (CmdSubscribe (info_subscription info)) = nil_error ->
            CmdSubscribe (info_subscription info) ∈ cw_written cw')
         else cw_subscriptions cw' !! key = cw_subscriptions cw !! key).
Proof.
  unfold migrate_key. destruct (pm_subscriptions pm !! key) as [info|] eqn:Ei.
  2:{ split_and!; try done; [|intros cw Hcw Hc; by exists cw].
      intros k. case_decide as Hk; [subst k; by rewrite Ei|done]. }
  case_decide as Hc.
  - split_and!; try done.
    + intros k. case_decide as Hk; [subst k|done]. rewrite Ei. simpl.
      unfold move_info. by rewrite decide_False.
    + intros cw Hcw Hcon. exists cw. split_and!; try done. intros info' [= <-].
      by rewrite decide_False.
  - split; [done|]. split; [|split].
    + intros k. simpl. case_decide as Hk.
      * subst k. rewrite Ei, lookup_insert_eq. simpl. unfold move_info. by rewrite decide_True.
      * by rewrite lookup_insert_ne.
    + intros l Hl. simpl. by rewrite !lookup_alter_ne.
    + intros cw Hcw Hcon. simpl. rewrite !lookup_alter_eq, Hcw. simpl.
      set (cw1 := AddSubscription cw key (info_subscription info)).
      destruct (writeJSON_keeps net cw1 (CmdSubscribe (info_subscription info))) as [Es Econ].
      eexists. split; [reflexivity|]. unfold Client_Subscribe. rewrite Econ, Es.
      split; [done|]. split; [|split].
      * unfold writeJSONWithDeadline. subst cw1. simpl. rewrite Hcon.
        destruct (net _); simpl; [done|]. by apply prefix_app_r.
      * intros k sub Hk Hsub. subst cw1. simpl. by rewrite lookup_insert_ne.
      * intros info' [= <-]. rewrite decide_True by done. subst cw1. simpl.
        split; [apply lookup_insert_eq|]. intros Hnet. unfold writeJSONWithDeadline. simpl.
        rewrite Hcon, Hnet. simpl. set_solver.
Qed.

Lemma move_info_twice old new info : old <> new ->
  move_info old new (move_info old new info) = move_info old new info.
Proof.
  intros Hne. unfold move_info.
  destruct (decide (info_connection info = old)) as [E|E]; simpl;
    [by rewrite decide_False|by rewrite decide_False].
Qed.

Lemma migrate_keys_parts net old new keys : forall pm cw,
  old <> new -> pm_heap pm !! new = Some cw -> cw_connected cw = true -> NoDup keys ->
  let pm' := fold_left (migrate_key net old new) keys pm in
  pm_connections pm' = pm_connections pm /\
  (forall k, pm_subscriptions pm' !! k =
     if decide (k ∈ keys) then move_info old new <$> pm_subscriptions pm !! k
     else pm_subscriptions pm !! k) /\
  (forall l, l <> new -> pm_heap pm' !! l = pm_heap pm !! l) /\
  exists cw', pm_heap pm' !! new = Some cw' /\ cw_connected cw' = true /\
    cw_written cw `prefix_of` cw_written cw' /\
    (forall k sub, k ∉ keys -> cw_subscriptions cw !! k = Some sub ->
       cw_subscriptions cw' !! k = Some sub) /\
    (forall k info, k ∈ keys -> pm_subscriptions pm !! k = Some info ->
       info_connection info = old ->
       cw_subscriptions cw' !! k = Some (info_subscription info) /\
       (net (CmdSubscribe (info_subscription info)) = nil_error ->
        CmdSubscribe (info_subscription info) ∈ cw_written cw')).
Proof.
  induction keys as [|key keys IH]; intros pm cw Hne Hcw Hcon Hnd pm'.
  { subst pm'. simpl. split_and!; try done. exists cw. split_and!; try done. set_solver. }
  apply NoDup_cons in Hnd as [Hkey Hnd].
  destruct (migrate_key_parts net old new pm key) as (P1 & P2 & P3 & P4).
  destruct (P4 cw Hcw Hcon) as (cw1 & Hcw1 & Hcon1 & Hpre1 & Hkeep1 & Hnew1).
  destruct (IH (migrate_key net old new pm key) cw1 Hne Hcw1 Hcon1 Hnd)
    as (Q1 & Q2 & Q3 & cw2 & Hcw2 & Hcon2 & Hpre2 & Hkeep2 & Hnew2).
  subst pm'. cbn [fold_left]. split; [congruence|]. split; [|split].
  - intros k. rewrite Q2, P2. destruct (decide (k = key)) as [->|Hk].
    + rewrite (decide_False (P := key ∈ keys)) by done. by rewrite decide_True by set_solver.
    + destruct (decide (k ∈ keys)); [by rewrite decide_True by set_solver|].
      by rewrite decide_False by set_solver.
  - intros l Hl. by rewrite Q3, P3.
  - exists cw2. split; [done|]. split; [done|]. split; [by etrans|]. split.
    + intros k sub Hk Hsub. apply Hkeep2; [set_solver|]. apply Hkeep1; [set_solver|done].
    + intros k info [->|Hk]%elem_of_cons Hi Hio.
      * specialize (Hnew1 info Hi). rewrite decide_True in Hnew1 by done.
        destruct Hnew1 as [N1 N2]. split; [by apply Hkeep2|].
        intros Hn. eapply elem_of_prefix; [by apply N2|done].
      * apply Hnew2; [done| |done]. rewrite P2, decide_False; [done|]. by intros ->.
Qed.

(** The subscription a key had, wherever its connection went. *)
Definition same_sub (info info' : subscriptionInfo Callback) : Prop :=
  info_subscription info' = info_subscription info /\ info_callbacks info' = info_callbacks info.

(** One repaired position: the connection there is now connected, exactly the
    subscriptions of the old one moved to it, registered and sent again. *)
Definition repaired net pm pm' (i : nat) (old new : loc) : Prop :=
  pm_connections pm' = <[i := new]> (pm_connections pm) /\
  (forall k, pm_subscriptions pm' !! k = move_info old new <$> pm_subscriptions pm !! k) /\
  (forall l, l <> new -> IsConnectedAt pm' l = IsConnectedAt pm l) /\
  IsConnectedAt pm' new = true /\
  (forall k info, pm_subscriptions pm !! k = Some info -> info_connection info = old ->
     net (CmdSubscribe (info_subscription info)) = nil_error ->
     exists cw, pm_heap pm' !! new = Some cw /\
       CmdSubscribe (info_subscription info) ∈ cw_written cw).

(** The subscriptions on a connection are among its keys, so migrating these
    moves all of them. *)
Lemma conn_keys_cover pm old cwo k info :
  pool_ok pm -> pm_heap pm !! old = Some cwo -> pm_subscriptions pm !! k = Some info ->
  info_connection info = old -> k ∈ GetSubscriptionKeys (Client_Close cwo).
Proof.
  intros Hp Hold Hi Hio. destruct (pool_subs pm Hp k info Hi) as (_ & cw & Hc & Hr).
  rewrite Hio, Hold in Hc. injection Hc as <-. unfold GetSubscriptionKeys.
  apply list_elem_of_fmap. exists (k, info_subscription info). split; [done|].
  by apply elem_of_go_range.
Qed.

Lemma migrated_subs pm pm2 old new cwo :
  pool_ok pm -> pm_heap pm !! old = Some cwo ->
  (forall k, pm_subscriptions pm2 !! k =
     if decide (k ∈ GetSubscriptionKeys (Client_Close cwo))
     then move_info old new <$> pm_subscriptions pm !! k else pm_subscriptions pm !! k) ->
  forall k, pm_subscriptions pm2 !! k = move_info old new <$> pm_subscriptions pm !! k.
Proof.
  intros Hp Hold Hs k. rewrite Hs. case_decide as Hk; [done|]. simpl.
  destruct (pm_subscriptions pm !! k) as [info|] eqn:Ei; [|done]. simpl. unfold move_info.
  rewrite decide_False; [done|]. intros E. by apply Hk, (conn_keys_cover pm old cwo k info).
Qed.

(** The pool after the connection [old] at [i] was replaced by [new]. *)
Lemma replaced_ok pm pm2 i old new cw' :
  pool_ok pm -> pm_heap pm !! new = None -> pm_connections pm2 = <[i := new]> (pm_connections pm) ->
  (forall k, pm_subscriptions pm2 !! k = move_info old new <$> pm_subscriptions pm !! k) ->
  (forall l, l <> new -> pm_heap pm2 !! l = alter Client_Close old (pm_heap pm) !! l) ->
  pm_heap pm2 !! new = Some cw' ->
  (forall k info, pm_subscriptions pm !! k = Some info -> info_connection info = old ->
     cw_subscriptions cw' !! k = Some (info_subscription info)) ->
  pool_ok pm2.
Proof.
  intros Hp Hnew Q1 Hsubs Q3 Hcw' Qn. constructor.
  - intros l. rewrite Q1. intros [j Hj]%list_elem_of_lookup.
    destruct (decide (l = new)) as [->|Hl]; [by rewrite Hcw'|].
    rewrite Q3 by done. apply lookup_alter_is_Some.
    apply (pool_conns pm Hp). destruct (decide (i = j)) as [->|Hij].
    + apply list_lookup_insert_Some in Hj as [(_ & E & _)|[? _]]; [congruence|done].
    + rewrite list_lookup_insert_ne in Hj by done. by eapply list_elem_of_lookup_2.
  - intros k info. rewrite Hsubs. intros (info0 & Hi & ->)%fmap_Some_1.
    destruct (pool_subs pm Hp k info0 Hi) as (Ek & cw & Hc & Hr). unfold move_info.
    case_decide as Hio; simpl; (split; [done|]).
    + exists cw'. split; [done|]. by eapply Qn.
    + assert (info_connection info0 <> new) as Hn by congruence.
      exists cw. rewrite Q3 by done. by rewrite lookup_alter_ne.
Qed.

Lemma repair_at_ok dial net pm i old :
  pool_ok pm -> old ∈ pm_connections pm -> IsConnectedAt pm old = false -> dial i = nil_error ->
  exists pm' new, repair_at dial net pm i old = (pm', nil_error) /\
    pm_heap pm !! new = None /\ repaired net pm pm' i old new /\ pool_ok pm'.
Proof.
  intros Hp Hin Hcon Hdial. destruct (pool_conns pm Hp old Hin) as [cwo Hold].
  unfold repair_at. rewrite Hcon, Hdial. cbn zeta.
  set (heap1 := alter Client_Close old (pm_heap pm)).
  set (new := fresh (dom (pm_heap (with_conns pm (pm_connections pm) heap1)))).
  assert (pm_heap pm !! new = None) as Hnew.
  { pose proof (fresh_conn (with_conns pm (pm_connections pm) heap1)) as Hf. fold new in Hf.
    simpl in Hf. subst heap1. by apply lookup_alter_None in Hf. }
  assert (old <> new) as Hne by congruence.
  set (pm1 := with_conns (set_conn (with_conns pm (pm_connections pm) heap1) new
    (NewConnectionWrapper true [])) (<[i := new]> (pm_connections pm))
    (<[new := NewConnectionWrapper true []]> heap1)).
  assert (pm_heap pm1 = <[new := NewConnectionWrapper true []]> heap1) as Eh by done.
  set (keys := GetSubscriptionKeys (Client_Close cwo)).
  assert (migrateAndResubscribe net pm1 old new = fold_left (migrate_key net old new) keys pm1) as Em.
  { unfold migrateAndResubscribe. rewrite Eh, lookup_insert_ne by done. subst heap1.
    by rewrite lookup_alter_eq, Hold. }
  change (migrateAndResubscribe net _ old new) with (migrateAndResubscribe net pm1 old new).
  rewrite Em.
  destruct (migrate_keys_parts net old new keys pm1 (NewConnectionWrapper true []) Hne)
    as (Q1 & Q2 & Q3 & cw' & Hcw' & Hcon' & _ & _ & Qn);
    [rewrite Eh; apply lookup_insert_eq|done|apply NoDup_fst_go_range|].
  set (pm2 := fold_left _ keys pm1) in *.
  assert (forall k info, pm_subscriptions pm !! k = Some info ->
            info_connection info = old -> k ∈ keys) as Hkeys
    by (intros k info; by apply conn_keys_cover).
  assert (forall k, pm_subscriptions pm2 !! k = move_info old new <$> pm_subscriptions pm !! k) as Hsubs
    by by apply (migrated_subs pm pm2 old new cwo).
  exists pm2, new. split; [done|]. split; [done|]. split.
  - split; [by rewrite Q1|]. split; [done|]. split; [|split].
    + intros l Hl. unfold IsConnectedAt at 1. rewrite Q3, Eh, lookup_insert_ne by done.
      subst heap1. destruct (decide (l = old)) as [->|Hlo].
      * by rewrite lookup_alter_eq, Hold, Hcon.
      * by rewrite lookup_alter_ne by done.
    + unfold IsConnectedAt. by rewrite Hcw'.
    + intros k info Hi Hio Hnet. exists cw'. split; [done|]. by eapply Qn; eauto.
  - apply (replaced_ok pm pm2 i old new cw'); try done.
    + intros l Hl. by rewrite Q3, Eh, lookup_insert_ne.
    + intros k info Hi Hio. eapply Qn; eauto.
Qed.

(** The loop, from position [length done] on. *)
Lemma repair_loop_ok dial net snapshot : forall pm done pm',
  pool_ok pm -> pm_connections pm = done ++ snapshot ->
  (forall l, l ∈ done -> IsConnectedAt pm l = true) ->
  repair_loop dial net pm (length done) snapshot = (pm', nil_error) ->
  pool_ok pm' /\ length (pm_connections pm') = length (pm_connections pm) /\
  (forall l, l ∈ pm_connections pm' -> IsConnectedAt pm' l = true) /\
  (forall k, is_Some (pm_subscriptions pm' !! k) <-> is_Some (pm_subscriptions pm !! k)) /\
  (forall k info, pm_subscriptions pm !! k = Some info ->
     exists info', pm_subscriptions pm' !! k = Some info' /\ same_sub info info' /\
       (info_connection info ∈ pm_connections pm ->
        info_connection info' ∈ pm_connections pm') /\
       (info_connection info ∉ pm_connections pm ->
        info_connection info' = info_connection info)).
Proof.
  induction snapshot as [|cw snapshot IH]; intros pm dn pm' Hp Hc Hd Hr; cbn [repair_loop] in Hr.
  { injection Hr as <-. rewrite app_nil_r in Hc. rewrite Hc. split_and!; try done.
    intros k info Hi. by exists info. }
  destruct (IsConnectedAt pm cw) eqn:Econ.
  { unfold repair_at in Hr. rewrite Econ in Hr.
    rewrite <- (last_length dn cw) in Hr.
    apply (IH pm (dn ++ [cw])); [done|by rewrite <- app_assoc| |done].
    intros l [Hl| ->%list_elem_of_singleton]%elem_of_app; [by apply Hd|done]. }
  destruct (dial (length dn)) as [err|] eqn:Edial.
  { unfold repair_at in Hr. by rewrite Econ, Edial in Hr. }
  destruct (repair_at_ok dial net pm (length dn) cw Hp) as (pm1 & new & E1 & Hnew & Hrep & Hp1);
    [rewrite Hc; set_solver|done|done|].
  rewrite E1 in Hr. destruct Hrep as (R1 & R2 & R3 & R4 & _).
  assert (pm_connections pm1 = (dn ++ [new]) ++ snapshot) as Hc1.
  { rewrite R1, Hc, insert_app_r_alt, Nat.sub_diag by done. by rewrite <- app_assoc. }
  assert (forall l, l ∈ pm_connections pm -> l <> new) as Hnn.
  { intros l Hl ->. destruct (pool_conns pm Hp new Hl). congruence. }
  rewrite <- (last_length dn new) in Hr.
  destruct (IH pm1 (dn ++ [new]) pm' Hp1 Hc1) as (I1 & I2 & I3 & I4 & I5); [|done|].
  { intros l [Hl| ->%list_elem_of_singleton]%elem_of_app; [|done].
    rewrite R3; [by apply Hd|]. apply Hnn. rewrite Hc. set_solver. }
  split; [done|]. split; [rewrite I2, Hc1, Hc, !length_app; simpl; lia|]. split; [done|].
  split; [intros k; by rewrite I4, R2, fmap_is_Some|].
  intros k info Hi.
  destruct (I5 k (move_info cw new info)) as (info' & Hi' & [Hs1 Hs2] & Hmem & Hout);
    [by rewrite R2, Hi|].
  exists info'. split; [done|].
  unfold move_info in *. case_decide as Hm; simpl in *.
  - split; [done|]. split; [intros _; apply Hmem; rewrite Hc1; set_solver|].
    intros Hno. destruct Hno. rewrite Hc, Hm. set_solver.
  - split; [done|]. split.
    + intros Hin. apply Hmem. rewrite Hc1. rewrite Hc in Hin. set_solver.
    + intros Hno. apply Hout. rewrite Hc1. rewrite Hc in Hno.
      assert (info_connection info <> new) as Hnew'.
      { destruct (pool_subs pm Hp k info Hi) as (_ & c & Hcc & _). congruence. }
      set_solver.
Qed.

Lemma repair_loop_succeeds dial net snapshot : forall pm dn,
  pool_ok pm -> pm_connections pm = dn ++ snapshot -> (forall i, dial i = nil_error) ->
  exists pm', repair_loop dial net pm (length dn) snapshot = (pm', nil_error).
Proof.
  induction snapshot as [|cw snapshot IH]; intros pm dn Hp Hc Hd; cbn [repair_loop]; [by eexists|].
  destruct (IsConnectedAt pm cw) eqn:Econ.
  { unfold repair_at. rewrite Econ. rewrite <- (last_length dn cw).
    apply IH; [done|by rewrite <- app_assoc|done]. }
  destruct (repair_at_ok dial net pm (length dn) cw Hp) as (pm1 & new & E1 & Hnew & Hrep & Hp1);
    [rewrite Hc; set_solver|done|done|].
  rewrite E1. rewrite <- (last_length dn new). apply IH; [done| |done].
  destruct Hrep as (-> & _). rewrite Hc, insert_app_r_alt, Nat.sub_diag by done.
  by rewrite <- app_assoc.
Qed.
End invariant.

(** ** What the pool promises *)
Section theorems.
Context {Callback : Type} `{MapRange}.
Implicit Types pm : PoolManager Callback.

(** What a subscription leaves: the callback under its key, or nothing. *)
Definition subscribe_post pm (sub : Subscription) (cb : Callback) (pm' : PoolManager Callback)
    (r : SubscriptionHandle + string) : Prop :=
  let key := Subscription_Key sub in
  pool_ok pm' /\
  match r with
  | inl h => h = mkSubscriptionHandle (pm_callbackIDSeq pm + 1) key /\
      (exists info, pm_subscriptions pm' !! key = Some info /\
         info_callbacks info !! sh_id h = Some cb /\
         forall id, id <> sh_id h -> info_callbacks info !! id =
           (pm_subscriptions pm !! key) ≫= fun old => info_callbacks old !! id) /\
      forall key', key' <> key -> pm_subscriptions pm' !! key' = pm_subscriptions pm !! key'
  | inr _ => pm_subscriptions pm' = pm_subscriptions pm
  end.

Lemma Subscribe_post dial net pm sub cb :
  pool_ok pm -> 0 < pm_maxConnections pm ->
  pool_result (PoolManager_Subscribe dial net pm sub cb) (subscribe_post pm sub cb).
Proof.
  intros Hp Hmax. unfold subscribe_post. set (key := Subscription_Key sub).
  unfold PoolManager_Subscribe. fold key.
  set (pm1 := with_seq pm (pm_callbackIDSeq pm + 1)).
  assert (pool_ok pm1) as Hp1 by by apply with_seq_ok.
  change (pm_subscriptions pm1) with (pm_subscriptions pm).
  destruct (pm_subscriptions pm !! key) as [info|] eqn:Ei.
  - simpl. split; [by apply (add_callback_ok pm1)|]. split; [done|]. split.
    + exists (add_callback info (pm_callbackIDSeq pm + 1) cb). rewrite lookup_insert_eq.
      split; [done|]. simpl. split; [apply lookup_insert_eq|]. intros id Hid.
      by rewrite lookup_insert_ne.
    + intros key' Hk. by rewrite lookup_insert_ne.
  - destruct (acquireConnection dial pm1) as [pm2 [[l|]|err]] eqn:Ea;
      destruct (acquire_ok _ _ _ _ Hp1 Ea) as (Hp2 & Ec & Es & Hr); [| |by simpl].
    + pose proof (subscribe_on_ok net pm2 l sub (pm_callbackIDSeq pm + 1) cb Hp2) as Hs.
      rewrite Es in Hs. specialize (Hs Ei Hr).
      destruct (subscribe_on _ _ _ _ _ _) as [[pm3 [h|err]]|]; [| |done]; simpl in *.
      * destruct Hs as (Hp3 & _ & -> & E3 & _). split; [done|]. split; [done|]. rewrite E3. split.
        -- eexists. rewrite lookup_insert_eq. split; [done|]. simpl.
           split; [apply lookup_insert_eq|]. intros id Hid. by rewrite lookup_singleton_ne.
        -- intros key' Hk. by rewrite lookup_insert_ne.
      * destruct Hs as (Hp3 & _ & E3). by split.
    + simpl in Hr. destruct Hr as [_ Hr]. lia.
Qed.

(** C23. [Subscribe] keeps the pool well formed, never panics on a pool that may
    hold a connection, and either registers the callback under the
    subscription's key with the handle it returns, leaving every other
    subscription as it was, or reports an error and leaves all
    subscriptions as they were (a failed command is rolled back). *)
Theorem Subscribe_spec dial net pm sub cb :
  pool_ok pm -> 0 < pm_maxConnections pm ->
  exists pm' r, PoolManager_Subscribe dial net pm sub cb = Ret (pm', r) /\
    subscribe_post pm sub cb pm' r.
Proof.
  intros Hp Hmax. pose proof (Subscribe_post dial net pm sub cb Hp Hmax) as Hs.
  destruct (PoolManager_Subscribe _ _ _ _ _) as [[pm' r]|]; [by exists pm', r|done].
Qed.

(** C11. Repair: when every connection that was down could be dialled,
    [repairConnections] reports success; the pool then has the same number of
    connections, all connected; every subscription survives with its
    callbacks; those of the pool's connections are on connections of the pool
    again (and registered there, the pool staying well formed), and those
    elsewhere have not moved. *)
Theorem repair_restores dial net pm :
  pool_ok pm ->
  ((forall i, dial i = nil_error) -> exists pm', repairConnections dial net pm = (pm', nil_error)) /\
  forall pm', repairConnections dial net pm = (pm', nil_error) ->
    pool_ok pm' /\ length (pm_connections pm') = length (pm_connections pm) /\
    (forall l, l ∈ pm_connections pm' -> IsConnectedAt pm' l = true) /\
    (forall k, is_Some (pm_subscriptions pm' !! k) <-> is_Some (pm_subscriptions pm !! k)) /\
    (forall k info, pm_subscriptions pm !! k = Some info ->
       exists info', pm_subscriptions pm' !! k = Some info' /\ same_sub info info' /\
         (info_connection info ∈ pm_connections pm ->
          info_connection info' ∈ pm_connections pm') /\
         (info_connection info ∉ pm_connections pm ->
          info_connection info' = info_connection info)).
Proof.
  intros Hp. split.
  - intros Hd. by apply (repair_loop_succeeds dial net (pm_connections pm) pm []).
  - intros pm' Hr. apply (repair_loop_ok dial net (pm_connections pm) pm [] pm'); try done.
    set_solver.
Qed.

(** A repaired connection resends: the subscriptions of a connection that
    was down are written to its replacement, when the network accepts them. *)
Theorem repair_resubscribes dial net pm i old :
  pool_ok pm -> old ∈ pm_connections pm -> IsConnectedAt pm old = false -> dial i = nil_error ->
  exists pm' new, repair_at dial net pm i old = (pm', nil_error) /\
    pm_heap pm !! new = None /\ IsConnectedAt pm' new = true /\
    forall k info, pm_subscriptions pm !! k = Some info -> info_connection info = old ->
      (exists info', pm_subscriptions pm' !! k = Some info' /\ info_connection info' = new) /\
      (net (CmdSubscribe (info_subscription info)) = nil_error ->
       exists cw, pm_heap pm' !! new = Some cw /\
         CmdSubscribe (info_subscription info) ∈ cw_written cw).
Proof.
  intros Hp Hin Hc Hd.
  destruct (repair_at_ok dial net pm i old Hp Hin Hc Hd)
    as (pm' & new & E & Hn & (R1 & R2 & R3 & R4 & R5) & Hp').
  exists pm', new. split_and!; try done. intros k info Hi Hio. split; [|by apply (R5 k)].
  exists (mkSubscriptionInfo (info_subscription info) (info_callbacks info) new).
  split; [|done]. rewrite R2, Hi. simpl. unfold move_info. by rewrite decide_True.
Qed.

(** [Subscribe] never adds to the pool's connections: when all of them are
    full and the limit is not reached it opens a connection that the pool does
    not list, so the limit does not bound the open connections and repair does
    not find the new one. *)
Theorem Subscribe_leaks_connection net pm sub cb :
  pool_ok pm -> pm_subscriptions pm !! Subscription_Key sub = None ->
  (forall cmd, net cmd = nil_error) ->
  (forall l, l ∈ pm_connections pm -> pm_maxSubscriptions pm <= CountAt pm l) ->
  ConnectionCount pm < pm_maxConnections pm ->
  pool_result (PoolManager_Subscribe nil_error net pm sub cb) (fun pm' r =>
    pm_connections pm' = pm_connections pm /\
    exists l info, pm_heap pm !! l = None /\ IsConnectedAt pm' l = true /\
      l ∉ pm_connections pm' /\
      pm_subscriptions pm' !! Subscription_Key sub = Some info /\ info_connection info = l).
Proof.
  intros Hp Hn Hnet Hfull Hlim. unfold PoolManager_Subscribe.
  set (pm1 := with_seq pm (pm_callbackIDSeq pm + 1)).
  change (pm_subscriptions pm1) with (pm_subscriptions pm). rewrite Hn.
  assert (pool_ok pm1) as Hp1 by by apply with_seq_ok.
  unfold acquireConnection.
  assert (list_find (fun l => IsConnectedAt pm1 l && (CountAt pm1 l <? pm_maxSubscriptions pm1))
            (pm_connections pm1) = None) as ->.
  { apply list_find_None, Forall_forall. intros l Hl [_ Hlt]%andb_prop_elim.
    specialize (Hfull l Hl). apply Is_true_true, Z.ltb_lt in Hlt.
    change (CountAt pm1 l) with (CountAt pm l) in Hlt. simpl in Hlt. lia. }
  change (ConnectionCount pm1) with (ConnectionCount pm).
  rewrite (proj2 (Z.ltb_lt (ConnectionCount pm) (pm_maxConnections pm1))) by done.
  destruct (createConnectionLocked nil_error pm1) as [pm2 [l|err]] eqn:Ec; [|done].
  destruct (create_ok _ _ _ _ Hp1 Ec) as (Hp2 & E1 & E2 & Hl & Eh).
  assert (IsConnectedAt pm2 l = true) as Hcon.
  { unfold IsConnectedAt. by rewrite Eh, lookup_insert_eq. }
  unfold subscribe_on. rewrite E2. change (pm_subscriptions pm1) with (pm_subscriptions pm).
  rewrite Hn. unfold deref. simpl. rewrite Eh, lookup_insert_eq. simpl.
  unfold Client_Subscribe, writeJSONWithDeadline. simpl. rewrite Hnet. simpl.
  split; [done|]. exists l. eexists. rewrite lookup_insert_eq. split; [done|].
  split; [unfold IsConnectedAt; simpl; by rewrite lookup_insert_eq|].
  split; [|done]. rewrite E1. intros Hin. destruct (pool_conns pm1 Hp1 l Hin). congruence.
Qed.

(** Cancelling one handle cancels the whole subscription: afterwards no
    callback of its key is left, whatever other handles it had. *)
Theorem unsubscribe_drops_every_callback net pm sh :
  pool_ok pm ->
  exists pm', Handle_Unsubscribe net pm sh = Ret pm' /\ pool_ok pm' /\
    getCallbacksByKey pm' (sh_key sh) = [] /\
    forall key, key <> sh_key sh -> pm_subscriptions pm' !! key = pm_subscriptions pm !! key.
Proof.
  intros Hp. unfold Handle_Unsubscribe, unsubscribe.
  destruct (pm_subscriptions pm !! sh_key sh) as [info|] eqn:Ei.
  2:{ exists pm. unfold getCallbacksByKey. by rewrite Ei. }
  destruct (pool_subs pm Hp _ _ Ei) as (Ek & cw & Hcw & Hr).
  unfold deref. simpl. rewrite Hcw. cbn [mbind outcome_bind].
  set (pm1 := with_subs pm (delete (sh_key sh) (pm_subscriptions pm))).
  assert (pool_ok pm1) as Hp1 by by apply drop_sub_ok.
  assert (forall pm2, pm_subscriptions pm2 = pm_subscriptions pm1 ->
    getCallbacksByKey pm2 (sh_key sh) = [] /\
    forall key, key <> sh_key sh -> pm_subscriptions pm2 !! key = pm_subscriptions pm !! key) as Hq.
  { intros pm2 E. unfold getCallbacksByKey. rewrite E. subst pm1. simpl.
    rewrite lookup_delete_eq. split; [done|]. intros key Hk. by rewrite lookup_delete_ne. }
  destruct (cw_connected cw) eqn:Ec.
  2:{ exists pm1. split; [done|]. split; [done|]. by apply Hq. }
  destruct (writeJSON_keeps net cw (CmdUnsubscribe (info_subscription info))) as [Es _].
  unfold Client_Unsubscribe. destruct (writeJSONWithDeadline _ _ _) as [cw' err]. simpl in Es.
  eexists. split; [reflexivity|]. split; [|by apply Hq].
  destruct Hp1 as [Hc1 Hs1]. constructor; simpl.
  - intros l Hl. apply lookup_insert_is_Some'. right. by apply (pool_conns pm Hp).
  - intros key info' Hi'. destruct (Hs1 key info' Hi') as (Ek' & c & Hc & Hrr). split; [done|].
    simpl in Hi'. apply lookup_delete_Some in Hi' as [Hne _].
    destruct (decide (info_connection info = info_connection info')) as [E|Hne'].
    + rewrite E, lookup_insert_eq. eexists. split; [done|]. simpl.
      rewrite lookup_delete_ne, Es by done. simpl in Hc. congruence.
    + rewrite lookup_insert_ne by done. by exists c.
Qed.

Lemma migrate_backoff net pm old new :
  pm_reconnectBackoff (migrateAndResubscribe net pm old new) = pm_reconnectBackoff pm.
Proof.
  unfold migrateAndResubscribe. destruct (pm_heap pm !! old); [|done].
  apply (fold_left_inv (fun q => pm_reconnectBackoff q = pm_reconnectBackoff pm)); [done|].
  intros q k _ <-. unfold migrate_key. destruct (pm_subscriptions q !! k); [|done].
  by case_decide.
Qed.

Lemma close_conn_ok pm l :
  pool_ok pm -> pool_ok (with_conns pm (pm_connections pm) (alter Client_Close l (pm_heap pm))).
Proof.
  intros [Hc Hs]. constructor; simpl.
  - intros l' Hl'. apply lookup_alter_is_Some. by apply Hc.
  - intros key info Hi. destruct (Hs key info Hi) as (Ek & cw & Hcw & Hr). split; [done|].
    destruct (decide (l = info_connection info)) as [->|Hne].
    + rewrite lookup_alter_eq, Hcw. by eexists.
    + rewrite lookup_alter_ne by done. by exists cw.
Qed.

Lemma repair_loop_keeps dial net snapshot : forall pm dn,
  pool_ok pm -> pm_connections pm = dn ++ snapshot ->
  let pm' := (repair_loop dial net pm (length dn) snapshot).1 in
  pool_ok pm' /\ pm_reconnectBackoff pm' = pm_reconnectBackoff pm /\
  forall k, info_callbacks <$> pm_subscriptions pm' !! k =
            info_callbacks <$> pm_subscriptions pm !! k.
Proof.
  induction snapshot as [|cw snapshot IH]; intros pm dn Hp Hc; cbn [repair_loop]; [done|].
  destruct (IsConnectedAt pm cw) eqn:Econ.
  { unfold repair_at. rewrite Econ. rewrite <- (last_length dn cw).
    apply IH; [done|by rewrite <- app_assoc]. }
  destruct (dial (length dn)) as [err|] eqn:Edial.
  { unfold repair_at. rewrite Econ, Edial. split; [by apply close_conn_ok|done]. }
  destruct (repair_at_ok dial net pm (length dn) cw Hp) as (pm1 & new & E1 & Hnew & Hrep & Hp1);
    [rewrite Hc; set_solver|done|done|].
  assert (pm_reconnectBackoff pm1 = pm_reconnectBackoff pm) as Eb.
  { unfold repair_at in E1. rewrite Econ, Edial in E1. injection E1 as <-.
    by rewrite migrate_backoff. }
  destruct Hrep as (Ec & Es & _). rewrite E1, <- Eb. rewrite <- (last_length dn new).
  destruct (IH pm1 (dn ++ [new]) Hp1) as (I1 & I2 & I3).
  { rewrite Ec, Hc, insert_app_r_alt, Nat.sub_diag by done. by rewrite <- app_assoc. }
  split; [done|]. split; [done|]. intros k. rewrite I3, Es.
  destruct (pm_subscriptions pm !! k) as [info|]; [|done]. simpl. unfold move_info.
  by case_decide.
Qed.

Definition backoff_at (j : Z) : Z := Z.min maxBackoff (2 ^ j * initialBackoff).

Lemma next_backoff_at j : 0 <= j -> next_backoff (backoff_at j) = backoff_at (j + 1).
Proof.
  intros Hj. unfold next_backoff, backoff_at, maxBackoff, initialBackoff, Second.
  rewrite Z.pow_add_r by lia. change (2 ^ 1) with 2.
  pose proof (Z.pow_pos_nonneg 2 j ltac:(lia) Hj).
  destruct (Z.gtb_spec (Z.min (300 * 1000000000) (2 ^ j * (1 * 1000000000)) * 2)
              (300 * 1000000000)); lia.
Qed.

Lemma reconnect_loop_spec net attempts : forall pm j,
  pool_ok pm -> 0 <= j -> pm_reconnectBackoff pm = backoff_at j ->
  (Exists (fun dial => forall i, dial i = nil_error) attempts ->
   is_Some (reconnect_loop net pm attempts)) /\
  forall pm' waits, reconnect_loop net pm attempts = Some (pm', waits) ->
    pool_ok pm' /\ pm_reconnectBackoff pm' = initialBackoff /\
    forall n w, waits !! n = Some w -> w = backoff_at (j + Z.of_nat n).
Proof.
  induction attempts as [|dial attempts IH]; intros pm j Hp Hj Hb; cbn [reconnect_loop].
  { split; [by intros ?%Exists_nil|done]. }
  unfold reconnect_attempt.
  destruct (repair_loop_keeps dial net (pm_connections pm) pm [] Hp eq_refl) as (Hp1 & Eb & _).
  pose proof (repair_loop_succeeds dial net (pm_connections pm) pm [] Hp eq_refl) as Hsucc.
  simpl in Hp1, Eb, Hsucc. change (repair_loop dial net pm 0 (pm_connections pm))
    with (repairConnections dial net pm) in *.
  destruct (repairConnections dial net pm) as [pm1 [err|]] eqn:Er; simpl in Hp1, Eb.
  2:{ split; [done|]. intros pm' waits [= <- <-]. split; [by eapply pool_ok_ext, Hp1|].
      split; [done|]. intros [|n] w; [|done]. intros [= <-]. by rewrite Z.add_0_r. }
  set (pm2 := with_backoff pm1 (next_backoff (pm_reconnectBackoff pm1))).
  assert (pool_ok pm2) as Hp2 by by eapply pool_ok_ext, Hp1.
  destruct (IH pm2 (j + 1) Hp2 ltac:(lia)) as [IH1 IH2].
  { subst pm2. simpl. by rewrite Eb, Hb, next_backoff_at. }
  split.
  - intros [Hd|Hex]%Exists_cons; [by destruct (Hsucc Hd)|].
    destruct (IH1 Hex) as [[pm' waits] ->]. by eexists.
  - intros pm' waits. destruct (reconnect_loop net pm2 attempts) as [[pm3 ws]|]; [|done].
    intros [= <- <-]. destruct (IH2 pm3 ws eq_refl) as (H1 & H2 & H3). split; [done|].
    split; [done|]. intros [|n] w.
    + intros [= <-]. by rewrite Z.add_0_r.
    + intros Hn. rewrite (H3 n w Hn). f_equal. lia.
Qed.

(** Reconnection backs off exponentially and ends: the n-th attempt waits
    on 2^n seconds, at most 300; as soon as one attempt can dial, the loop
    ends, with the backoff reset to one second and a well-formed pool. *)
Theorem reconnect_backoff net pm attempts :
  pool_ok pm -> pm_reconnectBackoff pm = 0 \/ pm_reconnectBackoff pm = initialBackoff ->
  (Exists (fun dial => forall i, dial i = nil_error) attempts ->
   is_Some (handleDisconnect net pm attempts)) /\
  forall pm' waits, handleDisconnect net pm attempts = Some (pm', waits) ->
    pool_ok pm' /\ pm_reconnectBackoff pm' = initialBackoff /\
    forall n w, waits !! n = Some w -> w = Z.min (300 * Second) (2 ^ Z.of_nat n * Second).
Proof.
  intros Hp Hb. unfold handleDisconnect.
  set (pm1 := if decide _ then _ else pm).
  assert (pool_ok pm1 /\ pm_reconnectBackoff pm1 = backoff_at 0) as [Hp1 Hb1].
  { subst pm1. case_decide as H0.
    - split; [by eapply pool_ok_ext, Hp|done].
    - split; [done|]. destruct Hb as [Hb|Hb]; [done|]. by rewrite Hb. }
  destruct (reconnect_loop_spec net attempts pm1 0 Hp1 ltac:(lia) Hb1) as [H1 H2].
  split; [done|]. intros pm' waits Hr. destruct (H2 pm' waits Hr) as (P1 & P2 & P3).
  split; [done|]. split; [done|exact P3].
Qed.

(** ** Dispatch *)

(** The callbacks of all subscriptions on a channel. *)
Definition callbacks_on pm (P : string -> bool) : list Callback :=
  concat (map (fun '(key, info) =>
    if P key then (map_to_list (info_callbacks info)).*2 else [])
    (map_to_list (pm_subscriptions pm))).

(** C24. Routing: fills and account data go to the callbacks of the user's own
    subscription of that channel and to no other; order updates, and messages
    without a user, go to every subscription of the channel; each callback
    runs once. *)
Theorem Dispatch_routes gjson_user pm msg :
  let user := gjson_user (msg_Data msg) in
  (forall channel, channel = ChannelUserFills \/ channel = ChannelWebData2 ->
     msg_Channel msg = channel ->
     (user <> EmptyString ->
        Dispatch gjson_user pm msg ≡ₚ
          match pm_subscriptions pm !! Subscription_Key (mkSubscription channel user EmptyString) with
          | Some info => (map_to_list (info_callbacks info)).*2
          | None => []
          end) /\
     (user = EmptyString ->
        Dispatch gjson_user pm msg ≡ₚ
          callbacks_on pm (fun key => has_prefix key (channel +:+ ":")))) /\
  (msg_Channel msg = ChannelOrderUpdates ->
     Dispatch gjson_user pm msg ≡ₚ
       callbacks_on pm (fun key => has_prefix key (ChannelOrderUpdates +:+ ":"))).
Proof.
  intros user.
  assert (forall channel, broadcastToChannel pm channel ≡ₚ
            callbacks_on pm (fun key => has_prefix key (channel +:+ ":"))) as Hb.
  { intros channel. unfold broadcastToChannel, callbacks_on.
    transitivity (concat (map (fun '(key, info) =>
      if has_prefix key (channel +:+ ":") then (go_range (info_callbacks info)).*2 else [])
      (map_to_list (pm_subscriptions pm)))).
    - apply Permutation_concat, Permutation_map, go_range_perm.
    - induction (map_to_list (pm_subscriptions pm)) as [|[key info] l IH]; simpl; [done|].
      rewrite IH. case_match; [|done]. by rewrite go_range_perm. }
  assert (forall key, dispatchToKey pm key ≡ₚ
    match pm_subscriptions pm !! key with
    | Some info => (map_to_list (info_callbacks info)).*2 | None => [] end) as Hk.
  { intros key. unfold dispatchToKey, getCallbacksByKey.
    destruct (pm_subscriptions pm !! key); [|done]. by rewrite go_range_perm. }
  split.
  - intros channel [-> | ->] Ech; unfold Dispatch; rewrite Ech;
      unfold dispatchUserFills, dispatchWebData2; fold user; simpl;
      (split; intros Hu; [rewrite decide_False by done|rewrite decide_True by done; apply Hb]);
      rewrite Hk; unfold Subscription_Key; simpl; by rewrite decide_True.
  - intros Ech. unfold Dispatch. rewrite Ech. simpl. apply Hb.
Qed.

(** A message of any other channel is looked up under the channel's name
    alone, so a subscription for one coin (l2Book, trades, candle, bbo) is
    never given a message of its channel. *)
Theorem coin_subscription_never_dispatched gjson_user pm msg sub info :
  pool_ok pm ->
  pm_subscriptions pm !! Subscription_Key sub = Some info ->
  sub_User sub = EmptyString -> sub_Coin sub <> EmptyString ->
  sub_Channel sub ∉ [ChannelWebData2; ChannelUserFills; ChannelOrderUpdates] ->
  msg_Channel msg = sub_Channel sub ->
  (forall key info', pm_subscriptions pm !! key = Some info' -> key = Subscription_Key sub) ->
  Dispatch gjson_user pm msg = [].
Proof.
  intros Hp Hi Hu Hc Hch Hm Honly. unfold Dispatch. rewrite Hm.
  rewrite !decide_False by set_solver.
  unfold dispatchGeneric, dispatchToKey, getCallbacksByKey. rewrite Hm.
  destruct (pm_subscriptions pm !! sub_Channel sub) as [info'|] eqn:E; [|done].
  exfalso. specialize (Honly _ _ E). unfold Subscription_Key in Honly.
  rewrite Hu, decide_False, decide_True in Honly by (done || by intros []).
  apply (f_equal String.length) in Honly. rewrite !string_length_append in Honly.
  simpl in Honly. lia.
Qed.
End theorems.

(** ** What a manager relies on

    The managers see the pool through this interface: a subscription either
    registers the callback or changes nothing, cancelling a handle touches no
    other key, and neither ever fails to return. *)
Class SubscriptionPool (Callback : Type) := {
  pool_t : Type;
  pool_handle : Type;
  pool_Subscribe : pool_t -> Subscription -> Callback -> outcome (pool_t * (pool_handle + string));
  pool_Unsubscribe : pool_t -> pool_handle -> outcome pool_t;
  pool_callbacks : pool_t -> string -> list Callback;
  pool_handle_key : pool_handle -> string;
  pool_wf : pool_t -> Prop;
  pool_Subscribe_spec : forall p sub cb, pool_wf p ->
    exists p' r, pool_Subscribe p sub cb = Ret (p', r) /\ pool_wf p' /\
      (forall key, key <> Subscription_Key sub -> pool_callbacks p' key ≡ₚ pool_callbacks p key) /\
      match r with
      | inl h => pool_handle_key h = Subscription_Key sub /\
                 cb ∈ pool_callbacks p' (Subscription_Key sub)
      | inr _ => forall key, pool_callbacks p' key ≡ₚ pool_callbacks p key
      end;
  pool_Unsubscribe_spec : forall p h, pool_wf p ->
    exists p', pool_Unsubscribe p h = Ret p' /\ pool_wf p' /\
      pool_callbacks p' (pool_handle_key h) = [] /\
      forall key, key <> pool_handle_key h -> pool_callbacks p' key ≡ₚ pool_callbacks p key;
}.
Arguments pool_t Callback {_}.
Arguments pool_handle Callback {_}.

Lemma Subscribe_maxConnections {Callback} `{MapRange} dial net (pm pm' : PoolManager Callback) sub cb r :
  PoolManager_Subscribe dial net pm sub cb = Ret (pm', r) ->
  pm_maxConnections pm' = pm_maxConnections pm.
Proof.
  unfold PoolManager_Subscribe. destruct (pm_subscriptions _ !! _) as [info|];
    [by intros [= <- _]|].
  destruct (acquireConnection dial _) as [pm2 [conn|err]] eqn:Ea.
  - assert (pm_maxConnections pm2 = pm_maxConnections pm) as <-.
    { unfold acquireConnection, createConnectionLocked in Ea.
      destruct (list_find _ _) as [[? ?]|]; [by injection Ea as <- _|].
      destruct (_ <? _); [destruct dial|]; by injection Ea as <- _. }
    unfold subscribe_on, deref. destruct (pm_subscriptions pm2 !! _); [by intros [= <- _]|].
    destruct conn as [l|]; [|done]. destruct (pm_heap _ !! l) as [cw|]; [|done].
    cbn [mbind outcome_bind]. destruct (if cw_connected cw then _ else _) as [cw' [err|]];
      by intros [= <- _].
  - unfold acquireConnection, createConnectionLocked in Ea.
    destruct (list_find _ _) as [[? ?]|]; [done|].
    destruct (_ <? _); [|done]. destruct dial; injection Ea as <- _; by intros [= <- _].
Qed.

Lemma unsubscribe_maxConnections {Callback} net (pm pm' : PoolManager Callback) key id :
  unsubscribe net pm key id = Ret pm' -> pm_maxConnections pm' = pm_maxConnections pm.
Proof.
  unfold unsubscribe, deref. destruct (pm_subscriptions pm !! key) as [info|]; [|by intros [= <-]].
  simpl. destruct (pm_heap pm !! _) as [cw|]; [|done]. cbn [mbind outcome_bind].
  destruct (cw_connected cw); [|by intros [= <-]].
  destruct (Client_Unsubscribe _ _ _). by intros [= <-].
Qed.

(** The pool manager implements the interface, whatever the network answers. *)
#[export] Program Instance PoolManager_SubscriptionPool {Callback} `{MapRange}
    (dial : error) (net : WsCommand -> error) : SubscriptionPool Callback := {|
  pool_t := PoolManager Callback;
  pool_handle := SubscriptionHandle;
  pool_Subscribe := PoolManager_Subscribe dial net;
  pool_Unsubscribe := Handle_Unsubscribe net;
  pool_callbacks := getCallbacksByKey;
  pool_handle_key := sh_key;
  pool_wf := fun pm => pool_ok pm /\ 0 < pm_maxConnections pm;
|}.
Next Obligation.
  intros Callback HR dial net pm sub cb [Hp Hm].
  pose proof (Subscribe_post dial net pm sub cb Hp Hm) as Hs.
  destruct (PoolManager_Subscribe dial net pm sub cb) as [[pm' r]|] eqn:E; [|done].
  apply Subscribe_maxConnections in E. exists pm', r. destruct Hs as [Hp' Hr].
  split; [done|]. split; [split; [done|by rewrite E]|]. unfold getCallbacksByKey.
  destruct r as [h|err].
  - destruct Hr as (-> & (info & Hi & Hc & _) & Ho). split.
    + intros key Hk. by rewrite Ho.
    + split; [done|]. simpl in *. rewrite Hi. apply list_elem_of_fmap.
      eexists (_, cb). split; [done|]. by apply elem_of_go_range.
  - rewrite Hr. by split.
Qed.
Next Obligation.
  intros Callback HR dial net pm sh [Hp Hm].
  destruct (unsubscribe_drops_every_callback net pm sh Hp) as (pm' & E & Hp' & Hc & Ho).
  exists pm'. split; [done|].
  apply (unsubscribe_maxConnections net pm pm' (sh_key sh) (sh_id sh)) in E.
  split; [split; [done|by rewrite E]|]. split; [done|]. intros key Hk.
  unfold getCallbacksByKey. by rewrite Ho.
Qed.

(** ** Witnesses: a pool of callbacks named by integers *)

#[local] Existing Instance listing_order.

Definition net_ok (cmd : WsCommand) : error := nil_error.

Definition fills_sub (user : string) : Subscription :=
  mkSubscription ChannelUserFills user EmptyString.

(** A started pool of at most two connections with one subscription each. *)
Definition small_pool : PoolManager Z := (PoolManager_Start nil_error (NewPoolManager 2 1)).1.

Definition subscribed_pool : PoolManager Z :=
  match PoolManager_Subscribe nil_error net_ok small_pool (fills_sub "0xab") 7 with
  | Ret (pm, _) => pm | Panic => small_pool end.

Definition dropped_pool : PoolManager Z :=
  set_conn subscribed_pool 1%positive
    (Client_Close (default (NewConnectionWrapper true []) (pm_heap subscribed_pool !! 1%positive))).

Lemma small_pool_ok : pool_ok small_pool.
Proof.
  constructor.
  - intros l [->|Hl]%elem_of_cons; [by eexists|]. by apply not_elem_of_nil in Hl.
  - intros key info Hi.
    change (pm_subscriptions small_pool) with (∅ : gmap string (subscriptionInfo Z)) in Hi.
    rewrite lookup_empty in Hi. discriminate.
Defined.

Lemma Subscribe_spec_witness :
  exists info, pm_subscriptions subscribed_pool !! "userFills:0xab" = Some info /\
    info_callbacks info !! 1 = Some 7.
Proof.
  destruct (Subscribe_spec nil_error net_ok small_pool (fills_sub "0xab") 7 small_pool_ok eq_refl)
    as (pm & r & E & _ & Hr). unfold subscribed_pool. rewrite E. destruct r as [h|err].
  - destruct Hr as (-> & (info & Hi & Hc & _) & _). by exists info.
  - vm_compute in E. discriminate.
Defined.

Lemma subscribed_pool_ok : pool_ok subscribed_pool.
Proof.
  destruct (subscribe_on_ok net_ok (with_seq small_pool 1) 1%positive (fills_sub "0xab") 1 7
    (with_seq_ok _ _ small_pool_ok) eq_refl) as (Hp & _); [by eexists|].
  eapply pool_ok_ext, Hp; reflexivity.
Qed.

Lemma dropped_pool_ok : pool_ok dropped_pool.
Proof.
  apply set_conn_ok; [exact subscribed_pool_ok|]. intros cw Hcw key sub Hs.
  vm_compute in Hcw. injection Hcw as <-. exact Hs.
Qed.

Lemma repair_restores_witness :
  exists pm', repairConnections (fun _ => nil_error) net_ok dropped_pool = (pm', nil_error) /\
    pool_ok pm' /\ forall l, l ∈ pm_connections pm' -> IsConnectedAt pm' l = true.
Proof.
  destruct (repair_restores (fun _ => nil_error) net_ok dropped_pool dropped_pool_ok)
    as [Hex Hall].
  destruct (Hex (fun _ => eq_refl)) as [pm' Hr]. exists pm'. split; [exact Hr|].
  destruct (Hall pm' Hr) as (Hp & _ & Hc & _). by split.
Defined.

Lemma repair_resubscribes_witness :
  exists pm' new, repair_at (fun _ => nil_error) net_ok dropped_pool 0 1%positive
      = (pm', nil_error) /\ IsConnectedAt pm' new = true.
Proof.
  destruct (repair_resubscribes (fun _ => nil_error) net_ok dropped_pool 0 1%positive
    dropped_pool_ok) as (pm' & new & Hr & _ & Hc & _); [left|reflexivity|reflexivity|].
  exists pm', new. split; [exact Hr|exact Hc].
Defined.

Lemma Subscribe_leaks_connection_witness :
  exists pm' r, PoolManager_Subscribe nil_error net_ok subscribed_pool (fills_sub "0xcd") 8
      = Ret (pm', r) /\ pm_connections pm' = pm_connections subscribed_pool.
Proof.
  pose proof (Subscribe_leaks_connection net_ok subscribed_pool (fills_sub "0xcd") 8
    subscribed_pool_ok eq_refl (fun _ => eq_refl)) as Hs.
  destruct (PoolManager_Subscribe _ _ _ _ _) as [[pm r]|].
  - exists pm, r. split; [reflexivity|]. apply Hs; [|reflexivity].
    intros l [->|Hl]%elem_of_cons; [vm_compute; discriminate|]. by apply not_elem_of_nil in Hl.
  - exfalso. apply Hs; [|reflexivity].
    intros l [->|Hl]%elem_of_cons; [vm_compute; discriminate|]. by apply not_elem_of_nil in Hl.
Defined.

Lemma unsubscribe_drops_every_callback_witness :
  exists pm', Handle_Unsubscribe net_ok subscribed_pool (mkSubscriptionHandle 99 "userFills:0xab")
      = Ret pm' /\ getCallbacksByKey pm' "userFills:0xab" = [].
Proof.
  destruct (unsubscribe_drops_every_callback net_ok subscribed_pool
    (mkSubscriptionHandle 99 "userFills:0xab") subscribed_pool_ok) as (pm' & Hu & _ & Hc & _).
  exists pm'. split; [exact Hu|exact Hc].
Defined.

Lemma reconnect_backoff_witness :
  is_Some (handleDisconnect net_ok dropped_pool [fun _ => Some "refused"; fun _ => nil_error]).
Proof.
  apply (reconnect_backoff net_ok dropped_pool
    [fun _ => Some "refused"; fun _ => nil_error] dropped_pool_ok).
  - left. reflexivity.
  - right. left. done.
Defined.

Definition book_pool : PoolManager Z :=
  match PoolManager_Subscribe nil_error net_ok small_pool
          (mkSubscription ChannelL2Book EmptyString "BTC") 7 with
  | Ret (pm, _) => pm | Panic => small_pool end.

Lemma book_pool_ok : pool_ok book_pool.
Proof.
  destruct (subscribe_on_ok net_ok (with_seq small_pool 1) 1%positive
    (mkSubscription ChannelL2Book EmptyString "BTC") 1 7
    (with_seq_ok _ _ small_pool_ok) eq_refl) as (Hp & _); [by eexists|].
  eapply pool_ok_ext, Hp; reflexivity.
Qed.

Lemma coin_subscription_never_dispatched_witness :
  Dispatch (fun _ => EmptyString) book_pool (mkWsMessage ChannelL2Book "{}") = [].
Proof.
  eapply (coin_subscription_never_dispatched _ book_pool _
    (mkSubscription ChannelL2Book EmptyString "BTC")); try reflexivity; try done.
  - exact book_pool_ok.
  - intros H. repeat (apply elem_of_cons in H as [H|H]; [discriminate|]).
    by apply not_elem_of_nil in H.
  - intros key info' Hi.
    change (pm_subscriptions book_pool) with
      (<["l2Book:BTC" := mkSubscriptionInfo (mkSubscription ChannelL2Book EmptyString "BTC")
          {[1 := 7]} 1%positive]> (∅ : gmap string (subscriptionInfo Z))) in Hi.
    apply lookup_insert_Some in Hi as [[<- _]|[_ Hi]]; [reflexivity|].
    rewrite lookup_empty in Hi. discriminate.
Defined.
