(* ===== verification/Dispatcher.v ===== *)
(** * internal/ws/dispatcher.go: the dispatcher and its goroutine pool

    WsPool computes which callbacks a message reaches ([Dispatch]); this file
    runs them.  Each connection has one read goroutine, which hands its messages
    to the dispatcher one at a time; [executeCallbacks] submits the callbacks to
    a pool of goroutines, or runs one itself when the submission fails.  The
    pool (github.com/panjf2000/ants) is the class [AntsPool]. *)

From Stdlib Require Import ZArith Lia.
From stdpp Require Import gmap strings list.
From S2P Require Import Prelude Models WsPool.
Local Open Scope Z_scope.

(** ** ants

    A pool made without options: [Submit] starts a task when a worker is free,
    waits for one when all are busy, and fails only on a pool that was
    released, even if it was waiting. *)
Inductive submit_result (P : Type) : Type :=
| Submitted (p : P)
| SubmitBlocks
| SubmitFails (err : string).
Arguments Submitted {P} p.
Arguments SubmitBlocks {P}.
Arguments SubmitFails {P} err.

Class AntsPool (T : Type) := {
  ap_t : Type;
  ap_NewPool : Z -> ap_t;
  ap_Submit : ap_t -> T -> submit_result ap_t;
  ap_Release : ap_t -> ap_t;
  ap_Return : nat -> ap_t -> ap_t;            (* the i-th running task returns *)
  ap_size : ap_t -> Z;
  ap_running : ap_t -> list T;
  ap_closed : ap_t -> bool;
  ap_NewPool_ok : forall n, ap_size (ap_NewPool n) = n /\ ap_running (ap_NewPool n) = [] /\
    ap_closed (ap_NewPool n) = false;
  ap_Submit_ok : forall p t,
    match ap_Submit p t with
    | Submitted p' => ap_closed p = false /\ Z.of_nat (length (ap_running p)) < ap_size p /\
        ap_running p' = ap_running p ++ [t] /\ ap_size p' = ap_size p /\ ap_closed p' = false
    | SubmitBlocks => ap_closed p = false /\ ap_size p <= Z.of_nat (length (ap_running p))
    | SubmitFails _ => ap_closed p = true
    end;
  ap_Release_ok : forall p, ap_running (ap_Release p) = ap_running p /\
    ap_size (ap_Release p) = ap_size p /\ ap_closed (ap_Release p) = true;
  ap_Return_ok : forall i p, ap_running (ap_Return i p) = delete i (ap_running p) /\
    ap_size (ap_Return i p) = ap_size p /\ ap_closed (ap_Return i p) = ap_closed p;
}.
Arguments ap_t T {_}.

Section dispatcher.
Context {Callback : Type} `{MapRange}.
Context (gjson_user : string -> string).

Definition task : Type := Callback * WsMessage.
Context `{!AntsPool task}.

(** ** The dispatcher *)

Definition pool_size (poolSize : Z) : Z := if poolSize <=? 0 then 1000 else poolSize.

Definition NewDispatcher (poolSize : Z) : ap_t task := ap_NewPool (pool_size poolSize).

Definition Dispatcher_Close (pool : ap_t task) : ap_t task := ap_Release pool.

(** The call of [Dispatch] a read goroutine is in: the callbacks
    [executeCallbacks] has not reached, and the one it runs itself. *)
Record dispatch_call := mkCall {
  dc_todo : list task;
  dc_sync : option task;
}.
Definition idle : dispatch_call := mkCall [] None.

(** A turn of the loop of [executeCallbacks]; none while [Submit] waits. *)
Definition execute_next (pool : ap_t task) (c : dispatch_call) : option (ap_t task * dispatch_call) :=
  match c with
  | mkCall (t :: todo) None =>
      match ap_Submit pool t with
      | Submitted pool => Some (pool, mkCall todo None)
      | SubmitFails _ => Some (pool, mkCall todo (Some t))
      | SubmitBlocks => None
      end
  | _ => None
  end.

(** ** Runs

    The state of the pool and of the read goroutines; ghosts: the tasks in the
    order they were collected, started and finished, with their goroutine. *)
Record disp_run := mkDispRun {
  dr_pool : ap_t task;
  dr_calls : list dispatch_call;
  dr_collected : list (nat * task);
  dr_started : list (nat * task);
  dr_finished : list task;
}.

Definition start_run (poolSize : Z) (readers : nat) : disp_run :=
  mkDispRun (NewDispatcher poolSize) (replicate readers idle) [] [] [].

Inductive disp_event : Type :=
| EvMessage (i : nat) (pm : PoolManager Callback) (msg : WsMessage)
| EvExecute (i : nat)              (* a turn of the loop of the i-th reader *)
| EvSyncReturn (i : nat)           (* the callback the i-th reader runs returns *)
| EvReturn (j : nat)               (* a task of the pool returns *)
| EvClose.

Definition is_call (e : disp_event) : bool :=
  match e with EvMessage _ _ _ | EvClose => true | _ => false end.

Definition disp_exec (r : disp_run) (e : disp_event) : option disp_run :=
  match e with
  | EvMessage i pm msg =>
      match dr_calls r !! i with
      | Some (mkCall [] None) =>
          let tasks := (fun cb => (cb, msg)) <$> Dispatch gjson_user pm msg in
          Some (mkDispRun (dr_pool r) (<[i := mkCall tasks None]> (dr_calls r))
                  (dr_collected r ++ map (pair i) tasks) (dr_started r) (dr_finished r))
      | _ => None
      end
  | EvExecute i =>
      c ← dr_calls r !! i;
      t ← head (dc_todo c);
      '(pool, c') ← execute_next (dr_pool r) c;
      Some (mkDispRun pool (<[i := c']> (dr_calls r)) (dr_collected r)
              (dr_started r ++ [(i, t)]) (dr_finished r))
  | EvSyncReturn i =>
      c ← dr_calls r !! i;
      t ← dc_sync c;
      Some (mkDispRun (dr_pool r) (<[i := mkCall (dc_todo c) None]> (dr_calls r))
              (dr_collected r) (dr_started r) (dr_finished r ++ [t]))
  | EvReturn j =>
      t ← ap_running (dr_pool r) !! j;
      Some (mkDispRun (ap_Return j (dr_pool r)) (dr_calls r) (dr_collected r) (dr_started r)
              (dr_finished r ++ [t]))
  | EvClose =>
      Some (mkDispRun (Dispatcher_Close (dr_pool r)) (dr_calls r) (dr_collected r)
              (dr_started r) (dr_finished r))
  end.

Definition disp_run_all (r : disp_run) (evs : list disp_event) : option disp_run :=
  foldl (fun o e => r ← o; disp_exec r e) (Some r) evs.

(** ** What is left to do *)

Definition call_work (c : dispatch_call) : nat :=
  (2 * length (dc_todo c) + (if dc_sync c then 1 else 0))%nat.

Definition disp_work (r : disp_run) : nat :=
  (sum_list_with call_work (dr_calls r) + length (ap_running (dr_pool r)))%nat.

(** Nothing moves unless a message or [Close] comes. *)
Definition disp_quiet (r : disp_run) : Prop :=
  forall e, is_call e = false -> disp_exec r e = None.

Definition of_reader (i : nat) (l : list (nat * task)) : list task :=
  map snd (filter (fun it => it.1 = i) l).
End dispatcher.
Arguments task Callback : clear implicits.
Arguments dispatch_call Callback : clear implicits.
Arguments disp_run Callback {_}.
Arguments disp_event Callback : clear implicits.

(** ** The invariant *)

Section invariant.
Context {Callback : Type} `{MapRange} (gjson_user : string -> string).
Context `{!AntsPool (task Callback)}.
Implicit Types (r : disp_run Callback) (c : dispatch_call Callback).

Definition todo_of r (i : nat) : list (task Callback) := from_option dc_todo [] (dr_calls r !! i).

Record disp_ok (size : Z) r : Prop := {
  do_size : ap_size (dr_pool r) = size;
  do_running : Z.of_nat (length (ap_running (dr_pool r))) <= size;
  do_order : forall i, of_reader i (dr_started r) ++ todo_of r i = of_reader i (dr_collected r);
  do_started : map snd (dr_started r) ≡ₚ
    dr_finished r ++ ap_running (dr_pool r) ++ omap dc_sync (dr_calls r);
  do_sync : ap_closed (dr_pool r) = false -> Forall (fun c => dc_sync c = None) (dr_calls r);
}.

Lemma of_reader_app i l1 l2 : @of_reader Callback i (l1 ++ l2) = of_reader i l1 ++ of_reader i l2.
Proof. unfold of_reader. by rewrite filter_app, map_app. Qed.

Lemma of_reader_pairs i j tasks :
  @of_reader Callback i (map (pair j) tasks) = if decide (j = i) then tasks else [].
Proof.
  unfold of_reader. induction tasks as [|t tasks IH]; cbn [map]; [by case_decide|].
  rewrite filter_cons. cbn [fst]. case_decide; cbn [map snd]; [by rewrite IH|done].
Qed.

Lemma todo_of_insert pool calls collected started finished i j c c' :
  calls !! i = Some c ->
  todo_of (mkDispRun pool (<[i := c']> calls) collected started finished) j =
  if decide (i = j) then dc_todo c' else from_option dc_todo [] (calls !! j).
Proof.
  intros Hc. unfold todo_of. cbn [dr_calls]. case_decide as Hij.
  - subst j. rewrite list_lookup_insert_eq by (by eapply lookup_lt_Some). done.
  - by rewrite list_lookup_insert_ne.
Qed.

Lemma disp_start_ok poolSize readers : disp_ok (pool_size poolSize) (start_run poolSize readers).
Proof.
  unfold start_run, NewDispatcher.
  destruct (ap_NewPool_ok (pool_size poolSize)) as (Es & Er & Ec).
  split; cbn [dr_pool dr_calls dr_collected dr_started dr_finished].
  - exact Es.
  - rewrite Er. unfold pool_size. cbn. destruct (poolSize <=? 0) eqn:E; lia.
  - intros i. unfold todo_of. cbn. destruct (replicate readers idle !! i) as [c|] eqn:E; [|done].
    by apply lookup_replicate in E as [-> _].
  - rewrite Er. cbn. by induction readers.
  - intros _. by apply Forall_replicate.
Qed.

Lemma disp_message_ok size r i pm msg r' :
  disp_ok size r -> disp_exec gjson_user r (EvMessage i pm msg) = Some r' -> disp_ok size r'.
Proof.
  intros [Hs Hr Ho Hst Hsy]. cbn [disp_exec].
  destruct (dr_calls r !! i) as [[[|] [|]]|] eqn:Ec; try done. intros [= <-].
  set (tasks := (fun cb => (cb, msg)) <$> Dispatch gjson_user pm msg).
  split; cbn [dr_pool dr_calls dr_collected dr_started dr_finished]; [done..| | |].
  - intros j. rewrite (todo_of_insert _ _ _ _ _ i j _ _ Ec), of_reader_app, of_reader_pairs.
    specialize (Ho j). unfold todo_of in Ho. case_decide as Hij; [subst j|by rewrite app_nil_r].
    rewrite Ec in Ho. cbn in Ho. rewrite app_nil_r in Ho. by rewrite Ho.
  - pose proof (omap_insert dc_sync _ i _ (mkCall tasks None) Ec) as Hp. cbn in Hp. by rewrite Hp.
  - intros Hcl. apply Forall_insert; [by apply Hsy|done].
Qed.

(** What a turn of the loop does to the pool and the call. *)
Lemma execute_next_cases (pool pool' : ap_t (task Callback)) (c c' : dispatch_call Callback) :
  execute_next pool c = Some (pool', c') ->
  exists t todo, c = mkCall (t :: todo) None /\
    (ap_closed pool = false /\ ap_closed pool' = false /\ c' = mkCall todo None /\
     Z.of_nat (length (ap_running pool)) < ap_size pool /\ ap_size pool' = ap_size pool /\
     ap_running pool' = ap_running pool ++ [t] \/
     ap_closed pool = true /\ c' = mkCall todo (Some t) /\ pool' = pool).
Proof.
  destruct c as [[|t todo] [u|]]; try done. cbn [execute_next].
  pose proof (ap_Submit_ok pool t) as Hs. destruct (ap_Submit pool t) as [p| |err]; try done.
  - intros [= <- <-]. exists t, todo. split; [done|]. left. naive_solver.
  - intros [= <- <-]. exists t, todo. split; [done|]. by right.
Qed.

Lemma disp_execute_ok size r i r' :
  disp_ok size r -> disp_exec gjson_user r (EvExecute i) = Some r' ->
  disp_ok size r' /\ disp_work r = S (disp_work r').
Proof.
  intros [Hs Hr Ho Hst Hsy]. cbn [disp_exec].
  destruct (dr_calls r !! i) as [c|] eqn:Ec; [|done]. cbn [mbind option_bind].
  destruct (head (dc_todo c)) as [t|] eqn:Et; [|done]. cbn [mbind option_bind].
  destruct (execute_next (dr_pool r) c) as [[pool c']|] eqn:Ex; [|done]. intros [= <-].
  apply execute_next_cases in Ex as (t' & todo & -> & Hcase). cbn in Et. injection Et as ->.
  pose proof (omap_insert dc_sync _ i _ c' Ec) as Hp. cbn in Hp.
  pose proof (sum_list_with_insert call_work _ i _ c' Ec) as Hw. unfold disp_work, call_work in *.
  assert (dc_todo c' = todo) as Etodo by by destruct Hcase as [(_ & _ & -> & _)|(_ & -> & _)].
  split; [split|]; cbn [dr_pool dr_calls dr_collected dr_started dr_finished].
  - destruct Hcase as [(_ & _ & _ & _ & -> & _)|(_ & _ & ->)]; done.
  - destruct Hcase as [(_ & _ & _ & ? & _ & ->)|(_ & _ & ->)]; [rewrite length_app; cbn|]; lia.
  - intros j. rewrite (todo_of_insert _ _ _ _ _ i j _ _ Ec), of_reader_app.
    specialize (Ho j). unfold todo_of in Ho. rewrite Etodo.
    change [(i, t)] with (map (pair i) [t]). rewrite of_reader_pairs. case_decide as Hij.
    + subst j. rewrite Ec in Ho. by rewrite <- app_assoc.
    + by rewrite app_nil_r.
  - rewrite map_app, Hst. cbn [map snd].
    destruct Hcase as [(_ & _ & -> & _ & _ & ->)|(_ & -> & ->)]; cbn in Hp; rewrite Hp; solve_Permutation.
  - intros Hcl. apply Forall_insert; [apply Hsy|].
    + destruct Hcase as [(? & _)|(? & _ & ->)]; congruence.
    + destruct Hcase as [(_ & _ & -> & _)|(? & _ & ->)]; [done|congruence].
  - destruct Hcase as [(_ & _ & -> & _ & _ & ->)|(_ & -> & ->)]; cbn in *; rewrite ?length_app; cbn; lia.
Qed.

Lemma disp_sync_return_ok size r i r' :
  disp_ok size r -> disp_exec gjson_user r (EvSyncReturn i) = Some r' ->
  disp_ok size r' /\ disp_work r = S (disp_work r').
Proof.
  intros [Hs Hr Ho Hst Hsy]. cbn [disp_exec].
  destruct (dr_calls r !! i) as [[todo sync]|] eqn:Ec; [|done]. cbn [mbind option_bind dc_todo dc_sync].
  destruct sync as [t|]; [|done]. intros [= <-].
  pose proof (omap_insert dc_sync _ i _ (mkCall todo None) Ec) as Hp. cbn in Hp.
  pose proof (sum_list_with_insert call_work _ i _ (mkCall todo None) Ec) as Hw.
  unfold disp_work. unfold call_work at 2 4 in Hw. cbn [dc_todo dc_sync] in Hw.
  split; [split|]; cbn [dr_pool dr_calls dr_collected dr_started dr_finished]; [done..| | | |lia].
  - intros j. rewrite (todo_of_insert _ _ _ _ _ i j _ _ Ec). specialize (Ho j). unfold todo_of in Ho.
    case_decide as Hij; [subst j; by rewrite Ec in Ho|done].
  - rewrite Hst, <- Hp. solve_Permutation.
  - intros Hcl. specialize (Hsy Hcl). rewrite Forall_lookup in Hsy. discriminate (Hsy _ _ Ec).
Qed.

Lemma disp_return_ok size r j r' :
  disp_ok size r -> disp_exec gjson_user r (EvReturn j) = Some r' ->
  disp_ok size r' /\ disp_work r = S (disp_work r').
Proof.
  intros [Hs Hr Ho Hst Hsy]. cbn [disp_exec].
  destruct (ap_running (dr_pool r) !! j) as [t|] eqn:Et; [|done]. intros [= <-].
  destruct (ap_Return_ok j (dr_pool r)) as (Er & Es & Ecl).
  pose proof (delete_Permutation _ _ _ Et) as Hp.
  pose proof (Permutation_length Hp) as Hl. cbn in Hl. unfold disp_work.
  split; [split|]; cbn [dr_pool dr_calls dr_collected dr_started dr_finished]; rewrite ?Er, ?Es, ?Ecl;
    [done|lia|done| |done|lia].
  rewrite Hst. clear - Hp. revert Hp. generalize (delete j (ap_running (dr_pool r))) as rest.
  intros rest ->. solve_Permutation.
Qed.

Lemma disp_close_ok size r : disp_ok size r ->
  disp_ok size (mkDispRun (Dispatcher_Close (dr_pool r)) (dr_calls r) (dr_collected r) (dr_started r) (dr_finished r)).
Proof.
  intros [Hs Hr Ho Hst Hsy]. unfold Dispatcher_Close. destruct (ap_Release_ok (dr_pool r)) as (Er & Es & Ec).
  split; cbn [dr_pool dr_calls dr_collected dr_started dr_finished]; rewrite ?Er, ?Es, ?Ec; try done.
Qed.
Lemma disp_exec_ok size r e r' :
  disp_ok size r -> disp_exec gjson_user r e = Some r' ->
  disp_ok size r' /\ (is_call e = false -> disp_work r = S (disp_work r')).
Proof.
  intros Hr. destruct e as [i pm msg|i|i|j|].
  - intros E. split; [by eapply disp_message_ok|done].
  - intros E. by apply (disp_execute_ok size r i r' Hr) in E as [? ?].
  - intros E. by apply (disp_sync_return_ok size r i r' Hr) in E as [? ?].
  - intros E. by apply (disp_return_ok size r j r' Hr) in E as [? ?].
  - intros [= <-]. split; [by apply disp_close_ok|done].
Qed.

Lemma disp_run_cons r e evs : disp_run_all gjson_user r (e :: evs) =
  match disp_exec gjson_user r e with Some r1 => disp_run_all gjson_user r1 evs | None => None end.
Proof.
  unfold disp_run_all. cbn [foldl mbind option_bind].
  destruct (disp_exec gjson_user r e) as [r1|]; [done|]. by induction evs.
Qed.

Lemma disp_run_all_ok size evs : forall r r',
  disp_ok size r -> disp_run_all gjson_user r evs = Some r' ->
  disp_ok size r' /\
  (Forall (fun e => is_call e = false) evs -> disp_work r = (length evs + disp_work r')%nat).
Proof.
  induction evs as [|e evs IH]; intros r r' Hr.
  { intros [= <-]. done. }
  rewrite disp_run_cons. destruct (disp_exec gjson_user r e) as [r1|] eqn:E; [|done].
  intros Hrun. destruct (disp_exec_ok size r e r1 Hr E) as [Hr1 Hw].
  destruct (IH r1 r' Hr1 Hrun) as [Hr' Hw']. split; [done|].
  intros Hall. inversion Hall as [|? ? He Hevs]; subst. rewrite (Hw He), (Hw' Hevs). done.
Qed.

(** ** Progress *)

Lemma sum_positive {A} (f : A -> nat) l :
  sum_list_with f l <> 0%nat -> exists i x, l !! i = Some x /\ f x <> 0%nat.
Proof.
  induction l as [|x l IH]; cbn; [done|]. intros Hs.
  destruct (decide (f x = 0%nat)) as [Hx|Hx]; [|by exists 0%nat, x].
  destruct IH as (i & y & Hi & Hy); [lia|]. by exists (S i), y.
Qed.

(** While something is left, somebody moves: a task of the pool returns, a
    reader's own callback returns, or, with a free worker, a reader goes on. *)
Lemma disp_progress size r : 0 < size -> disp_ok size r -> disp_work r <> 0%nat ->
  exists e r', is_call e = false /\ disp_exec gjson_user r e = Some r'.
Proof.
  intros Hpos [Hs _ _ _ _]. unfold disp_work.
  destruct (ap_running (dr_pool r)) as [|t running] eqn:Er.
  2:{ intros _. exists (EvReturn 0). cbn. rewrite Er. by eexists. }
  intros Hw. destruct (sum_positive call_work (dr_calls r)) as (i & [todo sync] & Hi & Hc).
  { cbn [length] in Hw. lia. }
  destruct sync as [t|].
  { exists (EvSyncReturn i). cbn. rewrite Hi. by eexists. }
  destruct todo as [|t todo]; [done|].
  exists (EvExecute i). cbn. rewrite Hi. cbn.
  pose proof (ap_Submit_ok (dr_pool r) t) as Hsub.
  destruct (ap_Submit (dr_pool r) t) as [p| |err]; [by eexists| |by eexists].
  rewrite Er, Hs in Hsub. cbn in Hsub. lia.
Qed.

Lemma disp_quiet_work size r : 0 < size -> disp_ok size r ->
  disp_quiet gjson_user r <-> disp_work r = 0%nat.
Proof.
  intros Hpos Hr. split.
  - intros Hq. destruct (decide (disp_work r = 0%nat)) as [|Hw]; [done|exfalso].
    destruct (disp_progress size r Hpos Hr Hw) as (e & r' & He & E). by rewrite (Hq e He) in E.
  - intros Hw e He. destruct (disp_exec gjson_user r e) as [r'|] eqn:E; [|done].
    destruct (disp_exec_ok size r e r' Hr E) as [_ Hs]. by rewrite (Hs He) in Hw.
Qed.

(** From every state the goroutines can come to a state where nothing moves. *)
Lemma disp_settles size r : 0 < size -> disp_ok size r ->
  exists evs r', Forall (fun e => is_call e = false) evs /\
    disp_run_all gjson_user r evs = Some r' /\ disp_quiet gjson_user r'.
Proof.
  intros Hpos. remember (disp_work r) as n eqn:En. revert r En.
  induction n as [|n IH]; intros r En Hr.
  { exists [], r. split_and!; [done|done|]. by apply (disp_quiet_work size). }
  destruct (disp_progress size r Hpos Hr) as (e & r1 & He & E); [congruence|].
  destruct (disp_exec_ok size r e r1 Hr E) as [Hr1 Hw].
  destruct (IH r1) as (evs & r' & Hevs & Hrun & Hq); [by rewrite (Hw He) in En; injection En|done|].
  exists (e :: evs), r'. split_and!; [by constructor| |done]. by rewrite disp_run_cons, E.
Qed.

(** What is left when nothing moves. *)
Lemma disp_quiet_ok size r : 0 < size -> disp_ok size r -> disp_quiet gjson_user r ->
  (forall i, of_reader i (dr_started r) = of_reader i (dr_collected r)) /\
  dr_finished r ≡ₚ map snd (dr_started r).
Proof.
  intros Hpos Hr Hq. apply (disp_quiet_work size r Hpos Hr) in Hq as Hw.
  destruct Hr as [_ _ Ho Hst _]. unfold disp_work in Hw.
  assert (forall c, c ∈ dr_calls r -> dc_todo c = [] /\ dc_sync c = None) as Hidle.
  { intros [todo sync] Hc. apply list_elem_of_lookup in Hc as [i Hi].
    pose proof (sum_list_with_insert call_work _ _ _ idle Hi) as Hs. cbn in Hs.
    destruct todo, sync; cbn in *; (done || lia). }
  split.
  - intros i. rewrite <- Ho. unfold todo_of. destruct (dr_calls r !! i) as [c|] eqn:Ec; cbn.
    + destruct (Hidle c) as [-> _]; [by eapply list_elem_of_lookup_2|]. by rewrite app_nil_r.
    + by rewrite app_nil_r.
  - rewrite Hst. destruct (ap_running (dr_pool r)); [|cbn in Hw; lia].
    rewrite (omap_none dc_sync), app_nil_r; [done|]. intros c Hc. by apply Hidle.
Qed.

Lemma pool_size_pos poolSize : 0 < pool_size poolSize.
Proof. unfold pool_size. destruct (poolSize <=? 0) eqn:E; lia. Qed.

(** C25. Every callback a message reached runs exactly once: whatever messages
    the read goroutines dispatch, however they, the pool's workers and [Close]
    interleave, at most [poolSize] callbacks (1000 when it is not positive) run
    in the pool at a time; each goroutine starts the callbacks of its messages
    in the order it collected them; what was started is running or has
    returned.  Without further messages the goroutines take at most [disp_work]
    steps, from every state there is a run to one where nothing moves, and
    there every callback collected has been started and has returned, also
    when the dispatcher was closed meanwhile. *)
Theorem dispatcher_runs_all poolSize readers evs r :
  disp_run_all gjson_user (start_run poolSize readers) evs = Some r ->
  Z.of_nat (length (ap_running (dr_pool r))) <= (if poolSize <=? 0 then 1000 else poolSize) /\
  (forall i, of_reader i (dr_started r) ++ todo_of r i = of_reader i (dr_collected r)) /\
  map snd (dr_started r) ≡ₚ dr_finished r ++ ap_running (dr_pool r) ++ omap dc_sync (dr_calls r) /\
  (forall evs' r', Forall (fun e => is_call e = false) evs' ->
     disp_run_all gjson_user r evs' = Some r' -> (length evs' <= disp_work r)%nat) /\
  (exists evs' r', Forall (fun e => is_call e = false) evs' /\
     disp_run_all gjson_user r evs' = Some r' /\ disp_quiet gjson_user r') /\
  (disp_quiet gjson_user r ->
     (forall i, of_reader i (dr_started r) = of_reader i (dr_collected r)) /\
     dr_finished r ≡ₚ map snd (dr_started r)).
Proof.
  intros Hrun. pose proof (pool_size_pos poolSize) as Hpos.
  destruct (disp_run_all_ok _ evs _ r (disp_start_ok poolSize readers) Hrun) as [Hr _].
  split_and!.
  - apply Hr.
  - apply Hr.
  - apply Hr.
  - intros evs' r' Hall Hrun'. destruct (disp_run_all_ok _ evs' r r' Hr Hrun') as [_ Hw].
    rewrite (Hw Hall). lia.
  - by apply (disp_settles (pool_size poolSize)).
  - by apply (disp_quiet_ok (pool_size poolSize)).
Qed.

(** ** When a reader runs a callback itself *)

Lemma disp_exec_open r e r' : e <> EvClose -> disp_exec gjson_user r e = Some r' ->
  ap_closed (dr_pool r) = false -> ap_closed (dr_pool r') = false.
Proof.
  intros He E Ho. destruct e as [i pm msg|i|i|j|]; cbn [disp_exec] in E.
  - destruct (dr_calls r !! i) as [[[|] [|]]|]; try done. by injection E as <-.
  - destruct (dr_calls r !! i) as [c|]; [|done]. cbn [mbind option_bind] in E.
    destruct (head (dc_todo c)) as [t|]; [|done]. cbn [mbind option_bind] in E.
    destruct (execute_next (dr_pool r) c) as [[pool c']|] eqn:Ex; [|done]. injection E as <-.
    apply execute_next_cases in Ex as (t' & todo & _ & [(_ & Hc & _)|(Hc & _ & ->)]); [done|congruence].
  - destruct (dr_calls r !! i) as [c|]; [|done]. cbn [mbind option_bind] in E.
    destruct (dc_sync c) as [t|]; [|done]. by injection E as <-.
  - destruct (ap_running (dr_pool r) !! j) as [t|]; [|done]. injection E as <-.
    destruct (ap_Return_ok j (dr_pool r)) as (_ & _ & Hc). cbn. congruence.
  - done.
Qed.

(** Only after [Close]: a full pool makes the reader wait, whatever the comment
    says. *)
Lemma sync_only_after_Close evs : forall size r r',
  disp_ok size r -> ap_closed (dr_pool r) = false -> EvClose ∉ evs ->
  disp_run_all gjson_user r evs = Some r' -> Forall (fun c => dc_sync c = None) (dr_calls r').
Proof.
  induction evs as [|e evs IH]; intros size r r' Hr Ho Hn.
  { intros [= <-]. by apply Hr. }
  rewrite disp_run_cons. destruct (disp_exec gjson_user r e) as [r1|] eqn:E; [|done].
  apply not_elem_of_cons in Hn as [Hne Hn].
  apply (IH size); [by eapply disp_exec_ok|by eapply disp_exec_open|done].
Qed.

Lemma full_pool_waits size r i t todo :
  disp_ok size r -> ap_closed (dr_pool r) = false ->
  Z.of_nat (length (ap_running (dr_pool r))) = size ->
  dr_calls r !! i = Some (mkCall (t :: todo) None) -> disp_exec gjson_user r (EvExecute i) = None.
Proof.
  intros [Hs _ _ _ _] Ho Hfull Hi. cbn. rewrite Hi. cbn.
  pose proof (ap_Submit_ok (dr_pool r) t) as Hsub.
  destruct (ap_Submit (dr_pool r) t) as [p| |err]; [lia|done|congruence].
Qed.
End invariant.

(** ** An executable pool *)

Record list_pool (T : Type) := mkListPool { lp_size : Z; lp_running : list T; lp_closed : bool }.
Arguments mkListPool {T}.
Arguments lp_size {T}.
Arguments lp_running {T}.
Arguments lp_closed {T}.

#[export] Instance list_ants (T : Type) : AntsPool T.
Proof.
  refine {|
    ap_t := list_pool T;
    ap_NewPool := fun n => mkListPool n [] false;
    ap_Submit := fun p t =>
      if lp_closed p then SubmitFails "this pool has been closed"
      else if Z.of_nat (length (lp_running p)) <? lp_size p
      then Submitted (mkListPool (lp_size p) (lp_running p ++ [t]) false) else SubmitBlocks;
    ap_Release := fun p => mkListPool (lp_size p) (lp_running p) true;
    ap_Return := fun i p => mkListPool (lp_size p) (delete i (lp_running p)) (lp_closed p);
    ap_size := lp_size; ap_running := lp_running; ap_closed := lp_closed;
  |}; try done.
  intros [size running []] t; cbn; [done|]. destruct (_ <? _) eqn:E; cbn; [split_and!; (done || lia)|lia].
Defined.

#[local] Existing Instance listing_order.

(** Two messages of one user, a pool of one worker that is busy with the first:
    the reader waits with the second, and runs its callback itself once the
    dispatcher is closed. *)
Definition fills_pool : PoolManager string :=
  with_subs (NewPoolManager 1 1)
    {[ChannelUserFills +:+ ":0xab" :=
        mkSubscriptionInfo (mkSubscription ChannelUserFills "0xab" EmptyString)
          {[1 := "on fills"]} 1%positive]}.
Definition first_fills : WsMessage := mkWsMessage ChannelUserFills "1".
Definition second_fills : WsMessage := mkWsMessage ChannelUserFills "2".
Definition of_0xab (_ : string) : string := "0xab".

Definition busy_events : list (disp_event string) :=
  [EvMessage 0 fills_pool first_fills; EvExecute 0; EvMessage 0 fills_pool second_fills].
Definition closing_calls : list (disp_event string) :=
  [EvClose; EvExecute 0; EvReturn 0; EvSyncReturn 0].

Example busy_reader_waits :
  disp_run_all of_0xab (start_run 1 1) (busy_events ++ [EvExecute 0]) = None.
Proof. vm_compute. reflexivity. Qed.

Definition closed_run : disp_run string :=
  default (start_run 1 1) (disp_run_all of_0xab (start_run 1 1) (busy_events ++ closing_calls)).

Lemma dispatcher_runs_all_witness :
  disp_run_all of_0xab (start_run 1 1) (busy_events ++ closing_calls) = Some closed_run /\
  dr_finished closed_run = [("on fills", first_fills); ("on fills", second_fills)] /\
  (forall i, of_reader i (dr_started closed_run) ++ todo_of closed_run i =
     of_reader i (dr_collected closed_run)).
Proof.
  assert (disp_run_all of_0xab (start_run 1 1) (busy_events ++ closing_calls) = Some closed_run) as E
    by (vm_compute; reflexivity).
  destruct (dispatcher_runs_all of_0xab 1 1 (busy_events ++ closing_calls) closed_run E) as (_ & Ho & _).
  split; [exact E|]. split; [vm_compute; reflexivity|exact Ho].
Defined.

(** With two workers the second message can be done before the first. *)
Example messages_overtake :
  dr_finished <$> disp_run_all of_0xab (start_run 2 1)
    (busy_events ++ [EvExecute 0; EvReturn 1; EvReturn 0]) =
  Some [("on fills", second_fills); ("on fills", first_fills)].
Proof. vm_compute. reflexivity. Qed.
