(* ===== verification/SubscriptionManager.v ===== *)
(** * internal/manager/subscription_manager.go

    The manager of order fills and order updates: it subscribes addresses
    through the pool (interface [SubscriptionPool]), splits the fills of
    reversed orders, and feeds the message queue of the order processor.  The
    callbacks it registers are values naming the closure and the address it
    captures.  The deduper is shared with the order processor, unless
    [SetDeduper] replaced the manager's own pointer.  Parsing of the JSON
    payloads is an argument. *)

From Stdlib Require Import ZArith Lia Ascii.
From stdpp Require Import gmap strings list.
From S2P Require Import Prelude Float64 GoStrings Models ConcurrentMap GoCache Caches MarketCaches.
From S2P Require Import BatchWriter Messages OrderProcessor OrderRuns WsPool.
Local Open Scope Z_scope.

Definition DirOpenLong : string := "Open Long".
Definition DirOpenShort : string := "Open Short".
Definition DirCloseLong : string := "Close Long".
Definition DirCloseShort : string := "Close Short".
Definition DirLongToShort : string := "Long > Short".
Definition DirShortToLong : string := "Short > Long".
Definition DirBuy : string := "Buy".
Definition DirSell : string := "Sell".

(** The closures the managers give to the pool. *)
Inductive ManagerCallback : Type :=
| OnUserFills (addr : string)
| OnOrderUpdates (addr : string)
| OnWebData2 (addr : string).

#[export] Instance ManagerCallback_eq_dec : EqDecision ManagerCallback.
Proof. solve_decision. Defined.

(** ** Reversed orders *)
Section split.
Context `{Cast}.

Definition getReverseDirections (dir : string) : string * string :=
  if decide (dir = DirLongToShort) then (DirCloseLong, DirOpenShort)
  else if decide (dir = DirShortToLong) then (DirCloseShort, DirOpenLong)
  else (EmptyString, EmptyString).

Definition cloneFillWithDirection (fill : WsOrderFill) (dir sz : string) : WsOrderFill :=
  mkWsOrderFill (fill_Coin fill) (fill_Px fill) sz (fill_Side fill) (fill_Time fill)
    (fill_StartPosition fill) dir (fill_ClosedPnl fill) (fill_Hash fill) (fill_Oid fill)
    (fill_Crossed fill) (fill_Fee fill) (fill_Tid fill) (fill_Liquidation fill)
    (fill_FeeToken fill) (fill_BuilderFee fill).

Definition addReversedFills (grouped : gmap string (list WsOrderFill)) (fill : WsOrderFill)
    : gmap string (list WsOrderFill) :=
  let '(closeDir, openDir) := getReverseDirections (fill_Dir fill) in
  let sz := ToFloat64 (fill_Sz fill) in
  let startPos := ToFloat64 (fill_StartPosition fill) in
  let closeSize := fabs startPos in
  let openSize := math_Max (fsub sz closeSize) f0 in
  let grouped := group_push grouped closeDir
                   (cloneFillWithDirection fill closeDir (ToString closeSize)) in
  group_push grouped openDir (cloneFillWithDirection fill openDir (ToString openSize)).

Definition split_step (grouped : gmap string (list WsOrderFill)) (fill : WsOrderFill)
    : gmap string (list WsOrderFill) :=
  if decide (fill_Dir fill = DirLongToShort \/ fill_Dir fill = DirShortToLong)
  then addReversedFills grouped fill
  else group_push grouped (fill_Dir fill) fill.

Definition splitReversedOrder (fills : list WsOrderFill) : gmap string (list WsOrderFill) :=
  fold_left split_step fills ∅.
End split.

(** ** The manager *)
Section manager.
Context `{MapRange} `{Cast} `{GS : GoCache string} `{DD : DedupCacheInterface}
  `{SP : SubscriptionPool ManagerCallback}.

Record SubscriptionManager := mkSubscriptionManager {
  sm_poolManager : option (pool_t ManagerCallback);
  sm_addresses : Map string unit;
  sm_subs : gmap string (pool_handle ManagerCallback);
  sm_messageQueue : MessageQueue OrderProcessor;
  sm_deduper : option dd_t;            (* [None]: the processor's own *)
  sm_oidToAddress : Map Z string;
}.

Definition NewSubscriptionManager (poolManager : option (pool_t ManagerCallback))
    (symbolCache : SymbolCache) (positionBalanceCache : option PositionBalanceCache)
    (pairCategoryCache : PairCategoryCache) (batchWriter : option BatchWriter)
    (deduper : dd_t) : SubscriptionManager :=
  let orderProcessor := NewOrderProcessor batchWriter (Some deduper) symbolCache
                          positionBalanceCache pairCategoryCache in
  mkSubscriptionManager poolManager Map_zero ∅ (NewMessageQueue 10000 orderProcessor) None
    Map_zero.

Definition with_queue (m : SubscriptionManager) q : SubscriptionManager :=
  mkSubscriptionManager (sm_poolManager m) (sm_addresses m) (sm_subs m) q (sm_deduper m)
    (sm_oidToAddress m).
Definition with_oids (m : SubscriptionManager) oids : SubscriptionManager :=
  mkSubscriptionManager (sm_poolManager m) (sm_addresses m) (sm_subs m) (sm_messageQueue m)
    (sm_deduper m) oids.
Definition with_addresses (m : SubscriptionManager) addresses : SubscriptionManager :=
  mkSubscriptionManager (sm_poolManager m) addresses (sm_subs m) (sm_messageQueue m)
    (sm_deduper m) (sm_oidToAddress m).
Definition with_pool (m : SubscriptionManager) pool subs : SubscriptionManager :=
  mkSubscriptionManager pool (sm_addresses m) subs (sm_messageQueue m) (sm_deduper m)
    (sm_oidToAddress m).

Definition SetDeduper (m : SubscriptionManager) (deduper : dd_t) : SubscriptionManager :=
  mkSubscriptionManager (sm_poolManager m) (sm_addresses m) (sm_subs m) (sm_messageQueue m)
    (Some deduper) (sm_oidToAddress m).

Definition GetDeduper (m : SubscriptionManager) : option dd_t :=
  match sm_deduper m with
  | Some d => Some d
  | None => op_deduper (mq_handler (sm_messageQueue m))
  end.

(** [m.deduper.IsSeen] *)
Definition sm_IsSeen (m : SubscriptionManager) (now : Z) (user : string) (oid : Z) (dir : string)
    : bool :=
  match GetDeduper m with Some d => dd_IsSeen d now user oid dir | None => false end.

(** ** Subscribing addresses *)

Definition subscribeAddress (m : SubscriptionManager) (addr : string)
    : outcome (SubscriptionManager * error) :=
  match sm_poolManager m with
  | None => Ret (m, Some "pool manager is nil")
  | Some pool =>
      '(pool, fills) ← pool_Subscribe pool (mkSubscription ChannelUserFills addr EmptyString)
                         (OnUserFills addr);
      match fills with
      | inr err => Ret (with_pool m (Some pool) (sm_subs m),
                        Some ("failed to subscribe userFills: " +:+ err))
      | inl fillsHandle =>
          '(pool, updates) ← pool_Subscribe pool (mkSubscription ChannelOrderUpdates addr EmptyString)
                               (OnOrderUpdates addr);
          match updates with
          | inr err =>
              pool ← pool_Unsubscribe pool fillsHandle;
              Ret (with_pool m (Some pool) (sm_subs m),
                   Some ("failed to subscribe orderUpdates: " +:+ err))
          | inl updatesHandle =>
              Ret (with_pool m (Some pool)
                     (<[addr +:+ "-updates" := updatesHandle]>
                       (<[addr +:+ "-fills" := fillsHandle]> (sm_subs m))), nil_error)
          end
      end
  end.

Definition SubscribeAddress (m : SubscriptionManager) (addr : string)
    : outcome (SubscriptionManager * error) :=
  let '(addresses, (_, loaded)) := Map_LoadOrStore (sm_addresses m) addr tt in
  let m := with_addresses m addresses in
  if (loaded : bool) then Ret (m, nil_error) else subscribeAddress m addr.

(** Unsubscribing one handle, if the map has it. *)
Definition drop_handle (m : SubscriptionManager) (key : string) : outcome SubscriptionManager :=
  match sm_subs m !! key, sm_poolManager m with
  | Some sub, Some pool =>
      pool ← pool_Unsubscribe pool sub;
      Ret (with_pool m (Some pool) (delete key (sm_subs m)))
  | _, _ => Ret m
  end.

(** The closure of the [Range] deletes every oid: its parameter [addr] hides
    the address that is unsubscribed. *)
Definition UnsubscribeAddress (m : SubscriptionManager) (addr : string)
    : outcome (SubscriptionManager * error) :=
  match Map_LoadAndDelete (sm_addresses m) addr with
  | (_, None) => Ret (m, nil_error)
  | (addresses, Some _) =>
      let m := with_addresses m addresses in
      m ← drop_handle m (addr +:+ "-fills");
      m ← drop_handle m (addr +:+ "-updates");
      Ret (with_oids m
             (Map_Range (sm_oidToAddress m)
                (fun oids oid (addr : string) => (Map_Delete oids oid, true))
                (sm_oidToAddress m)), nil_error)
  end.

Definition Addresses (m : SubscriptionManager) : list string :=
  Map_Range (sm_addresses m) (fun result addr _ => (result ++ [addr], true)) [].

Definition AddressCount (m : SubscriptionManager) : Z := Map_Len (sm_addresses m).

(** ** Messages *)

(** [xyz:BTC] is kept, other [dex:coin] names are not. *)
Definition coin_kept (coin : string) : bool :=
  if contains_char ":" coin
  then bool_decide (nth 0 (split_char ":" coin) EmptyString = "xyz")
  else true.

(** A fill is handled when it is at most 30 minutes old (in milliseconds). *)
Definition fill_kept (now : Z) (fill : WsOrderFill) : bool :=
  negb (int64 (UnixMilli now - fill_Time fill) >? 30 * 60 * 1000) &&
  coin_kept (fill_Coin fill).

Definition convertToOrderFillMessage (user : string) (fill : WsOrderFill) (dir : string)
    : Message := OrderFillMessage user (Boxed fill) dir.

(** [messageQueue.Enqueue(msg)]; its error is logged only. *)
Definition sm_Enqueue (now : Z) (m : SubscriptionManager) (msg : Message)
    : outcome SubscriptionManager :=
  '(q, _) ← Enqueue now (sm_messageQueue m) msg; Ret (with_queue m q).

(** The innermost loop's body. *)
Definition send_fill (now : Z) (user dir : string) (o : outcome SubscriptionManager)
    (fill : WsOrderFill) : outcome SubscriptionManager :=
  m ← o;
  if sm_IsSeen m now user (fill_Oid fill) dir then Ret m
  else sm_Enqueue now m (convertToOrderFillMessage user fill dir).

Definition send_direction (now : Z) (user : string) (o : outcome SubscriptionManager)
    (group : string * list WsOrderFill) : outcome SubscriptionManager :=
  fold_left (send_fill now user group.1) group.2 o.

Definition send_order (now : Z) (user : string) (o : outcome SubscriptionManager)
    (group : Z * list WsOrderFill) : outcome SubscriptionManager :=
  m ← o;
  let m := with_oids m (Map_Store (sm_oidToAddress m) group.1 user) in
  fold_left (send_direction now user) (go_range (splitReversedOrder group.2)) (Ret m).

Definition order_groups (now : Z) (fills : list WsOrderFill) : gmap Z (list WsOrderFill) :=
  group_by fill_Oid (filter (fun fill => fill_kept now fill = true) fills).

Definition handleWsOrderFills (now : Z) (m : SubscriptionManager) (orders : WsOrderFills)
    : outcome SubscriptionManager :=
  fold_left (send_order now (fills_User orders))
    (go_range (order_groups now (fills_Fills orders))) (Ret m).

(** One order of [handleWsOrderUpdates], with its early [continue]s. *)
Definition send_update (now : Z) (user : string) (o : outcome SubscriptionManager)
    (wsOrder : WsOrder) : outcome SubscriptionManager :=
  m ← o;
  let order := wo_Order wsOrder in
  if negb (coin_kept (bo_Coin order)) then Ret m
  else match Map_Load (sm_oidToAddress m) (bo_Oid order) with
  | None => Ret m
  | Some addr =>
      if decide (user <> addr) then Ret m
      else if bool_decide (wo_Status wsOrder = "open") ||
              bool_decide (wo_Status wsOrder = "triggered") then Ret m
      else match Map_Load (sm_addresses m) addr with
      | None => Ret m
      | Some _ =>
          m ← sm_Enqueue now m
                (OrderUpdateMessage addr (bo_Oid order) (wo_Status wsOrder) EmptyString);
          Ret (with_oids m (Map_Delete (sm_oidToAddress m) (bo_Oid order)))
      end
  end.

Definition handleWsOrderUpdates (now : Z) (m : SubscriptionManager) (user : string)
    (orders : list WsOrder) : outcome SubscriptionManager :=
  fold_left (send_update now user) orders (Ret m).

(** The two closures given to the pool, on a message's data. *)
Context (Unmarshal_fills : string -> WsOrderFills + string).
Context (Unmarshal_orders : string -> list WsOrder + string).

Definition run_callback (now : Z) (m : SubscriptionManager) (cb : ManagerCallback)
    (msg : WsMessage) : outcome SubscriptionManager :=
  match cb with
  | OnUserFills addr =>
      match Unmarshal_fills (msg_Data msg) with
      | inr _ => Ret m
      | inl fills => if decide (addr <> fills_User fills) then Ret m
                     else handleWsOrderFills now m fills
      end
  | OnOrderUpdates addr =>
      match Unmarshal_orders (msg_Data msg) with
      | inr _ => Ret m
      | inl orders => handleWsOrderUpdates now m addr orders
      end
  | OnWebData2 _ => Ret m
  end.

(** [getSpotSymbol], [getPerpSymbol] *)
Definition getSpotSymbol (symbolCache : SymbolCache) (coin : string) : string + string :=
  match GetSpotSymbol symbolCache coin with
  | Some symbol => inl symbol
  | None => inr ("spot coin not found: " +:+ coin)
  end.

Definition getPerpSymbol (symbolCache : SymbolCache) (coin : string) : string + string :=
  let cleanCoin :=
    if contains_char ":" coin then
      match split_char ":" coin with
      | [dex; name] => if decide (dex = "xyz") then name else coin
      | _ => coin
      end
    else coin in
  match GetPerpSymbol symbolCache cleanCoin with
  | Some symbol => inl symbol
  | None => inr ("perp coin not found: " +:+ cleanCoin)
  end.

(** ** Closing *)

(** [Close] after the queue and the processor stopped: every handle is cancelled. *)
Definition cancel_all (m : SubscriptionManager) : outcome SubscriptionManager :=
  match sm_poolManager m with
  | None => Ret (with_pool m None ∅)
  | Some pool =>
      pool ← fold_left (fun o kh => pool ← o; pool_Unsubscribe pool (kh.2))
               (go_range (sm_subs m)) (Ret pool);
      Ret (with_pool m (Some pool) ∅)
  end.
End manager.
Arguments SubscriptionManager {GS DD SP}.

(** ** Splitting *)
Section split_facts.
Context `{Cast}.

(** What one fill becomes: itself, or the closing and the opening part. *)
Definition split_fill (fill : WsOrderFill) : list (string * WsOrderFill) :=
  if decide (fill_Dir fill = DirLongToShort \/ fill_Dir fill = DirShortToLong) then
    let '(closeDir, openDir) := getReverseDirections (fill_Dir fill) in
    let closeSize := fabs (ToFloat64 (fill_StartPosition fill)) in
    let openSize := math_Max (fsub (ToFloat64 (fill_Sz fill)) closeSize) f0 in
    [(closeDir, cloneFillWithDirection fill closeDir (ToString closeSize));
     (openDir, cloneFillWithDirection fill openDir (ToString openSize))]
  else [(fill_Dir fill, fill)].

Lemma split_step_lookup g fill dir :
  default [] (split_step g fill !! dir) =
  default [] (g !! dir) ++ (filter (fun df => df.1 = dir) (split_fill fill)).*2.
Proof.
  unfold split_step, split_fill, addReversedFills. case_decide.
  - destruct (getReverseDirections (fill_Dir fill)) as [c o].
    rewrite !group_push_lookup, <- app_assoc. f_equal.
    rewrite !filter_cons. simpl. by repeat case_decide.
  - rewrite group_push_lookup, filter_cons. simpl. by case_decide.
Qed.

Lemma splitReversedOrder_lookup fills dir :
  default [] (splitReversedOrder fills !! dir) =
  (filter (fun df => df.1 = dir) (concat (map split_fill fills))).*2.
Proof.
  unfold splitReversedOrder.
  assert (forall g, default [] (fold_left split_step fills g !! dir) =
    default [] (g !! dir) ++ (filter (fun df => df.1 = dir) (concat (map split_fill fills))).*2)
    as Hg; [|by rewrite Hg].
  induction fills as [|f fills IH]; intros g; simpl; [by rewrite app_nil_r|].
  by rewrite IH, split_step_lookup, filter_app, fmap_app, app_assoc.
Qed.

(** A part keeps the order, tid, time and coin of its fill. *)
Lemma split_fill_same f dir g :
  (dir, g) ∈ split_fill f ->
  fill_Oid g = fill_Oid f /\ fill_Tid g = fill_Tid f /\ fill_Time g = fill_Time f /\
  fill_Coin g = fill_Coin f /\ fill_Px g = fill_Px f /\ fill_Dir g = dir.
Proof.
  unfold split_fill. case_decide.
  - destruct (getReverseDirections (fill_Dir f)) as [c o].
    intros [E|[E|Hn]%elem_of_cons]%elem_of_cons; [by simplify_eq..|by apply not_elem_of_nil in Hn].
  - intros [E|Hn]%elem_of_cons; [by simplify_eq|by apply not_elem_of_nil in Hn].
Qed.
End split_facts.

(** C37. Splitting: a direction's fills are, in order, the fills of that
    direction and the parts of reversed fills that belong to it; a reversed
    fill becomes one closing part of size |startPosition| and one opening part
    of size max(sz - |startPosition|, 0), with the directions of its reversal;
    every part keeps the order id, trade id, time, coin and price. *)
Theorem splitReversedOrder_spec `{Cast} fills :
  (forall dir, default [] (splitReversedOrder fills !! dir) =
     (filter (fun df => df.1 = dir) (concat (map split_fill fills))).*2) /\
  (forall f, fill_Dir f <> DirLongToShort -> fill_Dir f <> DirShortToLong ->
     split_fill f = [(fill_Dir f, f)]) /\
  (forall f, fill_Dir f = DirLongToShort \/ fill_Dir f = DirShortToLong ->
     exists close open, split_fill f = [(fill_Dir close, close); (fill_Dir open, open)] /\
       (fill_Dir close, fill_Dir open) =
         (if decide (fill_Dir f = DirLongToShort) then (DirCloseLong, DirOpenShort)
          else (DirCloseShort, DirOpenLong)) /\
       let closeSize := fabs (ToFloat64 (fill_StartPosition f)) in
       let openSize := math_Max (fsub (ToFloat64 (fill_Sz f)) closeSize) f0 in
       fill_Sz close = ToString closeSize /\ fill_Sz open = ToString openSize /\
       (openSize = f0 \/ fgtb openSize f0 = true \/ openSize = SpecFloat.S754_nan)) /\
  (forall f dir g, (dir, g) ∈ split_fill f ->
     fill_Oid g = fill_Oid f /\ fill_Tid g = fill_Tid f /\ fill_Time g = fill_Time f /\
     fill_Coin g = fill_Coin f /\ fill_Px g = fill_Px f /\ fill_Dir g = dir).
Proof.
  split; [apply splitReversedOrder_lookup|]. split; [|split; [|apply split_fill_same]].
  - intros f H1 H2. unfold split_fill. rewrite decide_False; [done|]. by intros [?|?].
  - intros f Hf. unfold split_fill. rewrite decide_True by done.
    assert (forall x, math_Max x f0 = f0 \/ fgtb (math_Max x f0) f0 = true \/
              math_Max x f0 = SpecFloat.S754_nan) as Hmax.
    { intros [[]|[]| |[] m e]; unfold math_Max, f0; auto. }
    destruct Hf as [E|E]; rewrite E;
      [change (getReverseDirections DirLongToShort) with (DirCloseLong, DirOpenShort)
      |change (getReverseDirections DirShortToLong) with (DirCloseShort, DirOpenLong)];
      eexists (cloneFillWithDirection f _ _), (cloneFillWithDirection f _ _);
      (split; [reflexivity|]); (split; [done|]);
      split_and!; try done; apply Hmax.
Qed.

(** ** What a batch of fills sends *)
Section sending.
Context `{MapRange} `{Cast} `{GS : GoCache string} `{DD : DedupCacheInterface}
  `{SP : SubscriptionPool ManagerCallback}.
Implicit Types m : SubscriptionManager.

Definition sm_room m : Z := mq_cap (sm_messageQueue m) - MessageQueue_Size (sm_messageQueue m).

(** The manager with messages appended to its queue. *)
Definition append_msgs m (msgs : list Message) : SubscriptionManager :=
  with_queue m (mkMessageQueue (mq_queue (sm_messageQueue m) ++ msgs)
                  (mq_cap (sm_messageQueue m)) (mq_handler (sm_messageQueue m))).

Lemma append_msgs_nil m : append_msgs m [] = m.
Proof. unfold append_msgs. rewrite app_nil_r. by destruct m as [? ? ? [] ? ?]. Qed.

Lemma append_msgs_app m l1 l2 : append_msgs (append_msgs m l1) l2 = append_msgs m (l1 ++ l2).
Proof. unfold append_msgs, with_queue. simpl. by rewrite app_assoc. Qed.

Lemma sm_room_append m l : sm_room (append_msgs m l) = sm_room m - Z.of_nat (length l).
Proof. unfold sm_room, MessageQueue_Size. simpl. rewrite length_app. lia. Qed.

Lemma sm_Enqueue_room now m msg :
  0 < sm_room m -> sm_Enqueue now m msg = Ret (append_msgs m [msg]).
Proof.
  unfold sm_room, sm_Enqueue, Enqueue. intros Hr.
  by rewrite (proj2 (Z.ltb_lt _ _)) by lia.
Qed.

Lemma sm_IsSeen_append m l now a o d : sm_IsSeen (append_msgs m l) now a o d = sm_IsSeen m now a o d.
Proof. done. Qed.

Definition unseen_fill now m user dir (fill : WsOrderFill) : Prop :=
  sm_IsSeen m now user (fill_Oid fill) dir = false.

#[export] Instance unseen_fill_dec now m user dir fill : Decision (unseen_fill now m user dir fill).
Proof. unfold unseen_fill. apply _. Defined.

(** The messages of one direction's fills, of one order's, of a batch's. *)
Definition direction_msgs now m user (group : string * list WsOrderFill) : list Message :=
  (fun fill => convertToOrderFillMessage user fill group.1) <$>
    filter (unseen_fill now m user group.1) group.2.

Definition order_msgs now m user (group : Z * list WsOrderFill) : list Message :=
  concat (map (direction_msgs now m user) (go_range (splitReversedOrder group.2))).

Definition batch_msgs now m (orders : WsOrderFills) : list Message :=
  concat (map (order_msgs now m (fills_User orders))
    (go_range (order_groups now (fills_Fills orders)))).

Lemma send_direction_room now user group : forall m,
  Z.of_nat (length (direction_msgs now m user group)) <= sm_room m ->
  send_direction now user (Ret m) group = Ret (append_msgs m (direction_msgs now m user group)).
Proof.
  destruct group as [dir fs]. unfold send_direction, direction_msgs. simpl.
  induction fs as [|f fs IH]; intros m Hr; simpl; [by rewrite append_msgs_nil|].
  rewrite filter_cons in Hr. rewrite filter_cons.
  destruct (decide (unseen_fill now m user dir f)) as [Hu|Hu]; unfold unseen_fill in Hu.
  - rewrite Hu. csimpl in Hr. csimpl. rewrite sm_Enqueue_room by lia. rewrite IH.
    + by rewrite append_msgs_app.
    + rewrite sm_room_append.
      cut (Z.of_nat (length ((fun fill => convertToOrderFillMessage user fill dir) <$>
             filter (unseen_fill now m user dir) fs)) <= sm_room m - 1); [done|lia].
  - apply not_false_iff_true in Hu. rewrite Hu. by apply IH.
Qed.

Lemma send_directions_room now user groups : forall m,
  Z.of_nat (length (concat (map (direction_msgs now m user) groups))) <= sm_room m ->
  fold_left (send_direction now user) groups (Ret m) =
  Ret (append_msgs m (concat (map (direction_msgs now m user) groups))).
Proof.
  induction groups as [|g groups IH]; intros m Hr; simpl in *; [by rewrite append_msgs_nil|].
  rewrite length_app in Hr. rewrite send_direction_room by lia. rewrite IH.
  - by rewrite append_msgs_app.
  - rewrite sm_room_append.
    cut (Z.of_nat (length (concat (map (direction_msgs now m user) groups)))
         <= sm_room m - Z.of_nat (length (direction_msgs now m user g))); [done|lia].
Qed.

Definition store_oids m user (oids : list Z) : SubscriptionManager :=
  with_oids m (fold_left (fun ids oid => Map_Store ids oid user) oids (sm_oidToAddress m)).

Lemma send_orders_room now user groups : forall m,
  Z.of_nat (length (concat (map (order_msgs now m user) groups))) <= sm_room m ->
  fold_left (send_order now user) groups (Ret m) =
  Ret (append_msgs (store_oids m user groups.*1) (concat (map (order_msgs now m user) groups))).
Proof.
  induction groups as [|g groups IH]; intros m Hr; cbn [map concat fold_left] in *.
  { rewrite append_msgs_nil. by destruct m. }
  rewrite length_app in Hr.
  set (m1 := with_oids m (Map_Store (sm_oidToAddress m) g.1 user)).
  assert (send_order now user (Ret m) g = Ret (append_msgs m1 (order_msgs now m user g))) as ->.
  { unfold send_order. cbn [mbind outcome_bind]. fold m1.
    rewrite send_directions_room; [done|].
    change (sm_room m1) with (sm_room m).
    change (concat (map (direction_msgs now m1 user) (go_range (splitReversedOrder g.2))))
      with (order_msgs now m user g). lia. }
  rewrite IH.
  - f_equal. unfold append_msgs, store_oids, with_queue, with_oids. simpl.
    by rewrite <- app_assoc.
  - rewrite sm_room_append. change (sm_room m1) with (sm_room m).
    change (Z.of_nat (length (concat (map (order_msgs now m user) groups)))
      <= sm_room m - Z.of_nat (length (order_msgs now m user g))). lia.
Qed.

(** The order and direction a message is about. *)
Definition msg_about (oid : Z) (dir : string) (msg : Message) : Prop :=
  match msg with
  | OrderFillMessage _ (Boxed f) d => fill_Oid f = oid /\ d = dir
  | _ => False
  end.

#[export] Instance msg_about_dec oid dir msg : Decision (msg_about oid dir msg).
Proof. destruct msg as [? [f|] d| |]; simpl; apply _. Defined.

Lemma direction_msgs_about now m user group oid dir :
  (forall f, f ∈ group.2 -> fill_Oid f = oid) -> group.1 = dir ->
  filter (msg_about oid dir) (direction_msgs now m user group) = direction_msgs now m user group.
Proof.
  intros Ho Hd. unfold direction_msgs.
  assert (forall l : list WsOrderFill, (forall f, f ∈ l -> fill_Oid f = oid) ->
    filter (msg_about oid dir) ((fun fill => convertToOrderFillMessage user fill group.1) <$> l)
    = (fun fill => convertToOrderFillMessage user fill group.1) <$> l) as Hl.
  { induction l as [|f l IH]; intros Hf; [done|]. csimpl.
    rewrite filter_cons_True by (simpl; split; [apply Hf; left|done]).
    f_equal. apply IH. intros g Hg. apply Hf. by right. }
  apply Hl. intros f [_ Hf]%list_elem_of_filter. by apply Ho.
Qed.

Lemma elem_of_direction_msgs now m user group msg :
  msg ∈ direction_msgs now m user group <->
  exists f, f ∈ group.2 /\ unseen_fill now m user group.1 f /\
            msg = convertToOrderFillMessage user f group.1.
Proof.
  unfold direction_msgs. rewrite list_elem_of_fmap. setoid_rewrite list_elem_of_filter.
  naive_solver.
Qed.

Lemma split_oids fills dir fs f oid :
  (forall g, g ∈ fills -> fill_Oid g = oid) ->
  splitReversedOrder fills !! dir = Some fs -> f ∈ fs -> fill_Oid f = oid.
Proof.
  intros Ho Hs Hf. pose proof (splitReversedOrder_lookup fills dir) as E.
  rewrite Hs in E. simpl in E. rewrite E in Hf.
  apply list_elem_of_fmap in Hf as ([d g] & -> & [_ Hin]%list_elem_of_filter).
  apply list_elem_of_In, in_concat in Hin as (part & Hp & Hg).
  apply in_map_iff in Hp as (src & <- & Hsrc).
  apply list_elem_of_In, split_fill_same in Hg as [Eg _]. simpl. rewrite Eg.
  by apply Ho, list_elem_of_In.
Qed.

Lemma order_groups_oid now fills oid fs f :
  order_groups now fills !! oid = Some fs -> f ∈ fs -> fill_Oid f = oid.
Proof.
  intros Hfs Hf.
  destruct (group_by_groups fill_Oid (filter (fun f => fill_kept now f = true) fills) oid fs Hfs)
    as [_ Hall].
  rewrite Forall_forall in Hall. by apply Hall.
Qed.

(** A message of an order's group is about that order. *)
Lemma order_msgs_about now m user oid' fs msg oid dir :
  (forall f, f ∈ fs -> fill_Oid f = oid') ->
  msg ∈ order_msgs now m user (oid', fs) -> msg_about oid dir msg -> oid' = oid.
Proof.
  intros Ho Hin Habout. unfold order_msgs in Hin. simpl in Hin.
  apply list_elem_of_In, in_concat in Hin as (part & Hp & Hg).
  apply in_map_iff in Hp as ([d gs] & <- & Hd%list_elem_of_In%elem_of_go_range).
  apply list_elem_of_In, elem_of_direction_msgs in Hg as (f & Hf & _ & ->).
  simpl in *. rewrite <- (split_oids fs d gs f oid' Ho Hd Hf). by destruct Habout.
Qed.

Lemma order_msgs_filter now m user oid fs dir :
  (forall f, f ∈ fs -> fill_Oid f = oid) ->
  filter (msg_about oid dir) (order_msgs now m user (oid, fs)) =
  direction_msgs now m user (dir, default [] (splitReversedOrder fs !! dir)).
Proof.
  intros Ho. unfold order_msgs. simpl.
  rewrite (filter_concat_range _ _ _ dir).
  - destruct (splitReversedOrder fs !! dir) as [gs|] eqn:E; [|done]. simpl.
    apply direction_msgs_about; [|done]. intros f Hf. by eapply split_oids.
  - intros d gs msg Hd Hin Habout.
    apply elem_of_direction_msgs in Hin as (f & _ & _ & ->). by destruct Habout.
Qed.

(** The messages about one order and direction, in one list. *)
Lemma batch_msgs_about now m orders oid dir :
  filter (msg_about oid dir) (batch_msgs now m orders) =
  direction_msgs now m (fills_User orders)
    (dir, default [] (splitReversedOrder
            (filter (fun f => fill_Oid f = oid)
               (filter (fun f => fill_kept now f = true) (fills_Fills orders))) !! dir)).
Proof.
  unfold batch_msgs. rewrite (filter_concat_range _ _ _ oid).
  - rewrite <- group_by_lookup. unfold order_groups.
    destruct (group_by fill_Oid _ !! oid) as [fs|] eqn:E; [|done]. simpl.
    apply order_msgs_filter. intros f. by apply (order_groups_oid now (fills_Fills orders)).
  - intros oid' fs msg Hfs Hin. apply (order_msgs_about now m (fills_User orders) oid' fs); [|done].
    intros f. by apply (order_groups_oid now (fills_Fills orders)).
Qed.

Lemma batch_msgs_fills now m orders msg :
  msg ∈ batch_msgs now m orders ->
  exists f dir, msg = OrderFillMessage (fills_User orders) (Boxed f) dir /\
    unseen_fill now m (fills_User orders) dir f.
Proof.
  intros Hin. apply list_elem_of_In, in_concat in Hin as (part & Hp & Hg).
  apply in_map_iff in Hp as ([oid fs] & <- & _).
  apply in_concat in Hg as (part & Hp & Hg). apply in_map_iff in Hp as ([dir gs] & <- & _).
  apply list_elem_of_In, elem_of_direction_msgs in Hg as (f & _ & Hu & ->).
  by exists f, dir.
Qed.

Lemma store_oids_lookup (user : string) (oids : list Z) : forall (ids : Map Z string) (oid : Z),
  Map_Load (fold_left (fun ids oid => Map_Store ids oid user) oids ids) oid =
  if decide (oid ∈ oids) then Some user else Map_Load ids oid.
Proof.
  induction oids as [|x oids IH]; intros ids oid; cbn [fold_left]; [done|].
  rewrite IH, Map_Load_Store. repeat case_decide; set_solver.
Qed.
End sending.

(** C6. A batch of fills is turned into messages: with room in the queue, the
    messages of a user's batch are appended to it, nothing else of the queue
    and its processor changes, and for every order and direction the messages
    are, in order of arrival, the recent fills of admitted coins of that order,
    split, without those the deduper has seen; every such order's id is mapped
    to the user, and no other id. *)
Theorem handleWsOrderFills_sends
    `{MapRange} `{Cast} `{GS : GoCache string} `{DD : DedupCacheInterface}
    `{SP : SubscriptionPool ManagerCallback} now (m : SubscriptionManager) orders :
  let user := fills_User orders in
  let kept := filter (fun f => fill_kept now f = true) (fills_Fills orders) in
  exists msgs,
    (forall oid dir, filter (msg_about oid dir) msgs =
       (fun f => OrderFillMessage user (Boxed f) dir) <$>
         filter (unseen_fill now m user dir)
           (filter (fun df => df.1 = dir)
              (concat (map split_fill (filter (fun f => fill_Oid f = oid) kept)))).*2) /\
    (forall msg, msg ∈ msgs -> exists oid dir, msg_about oid dir msg) /\
    (Z.of_nat (length msgs) <= sm_room m ->
     exists m', handleWsOrderFills now m orders = Ret m' /\
       mq_queue (sm_messageQueue m') = mq_queue (sm_messageQueue m) ++ msgs /\
       mq_handler (sm_messageQueue m') = mq_handler (sm_messageQueue m) /\
       sm_addresses m' = sm_addresses m /\
       forall oid, Map_Load (sm_oidToAddress m') oid =
         if decide (oid ∈ fill_Oid <$> kept) then Some user else Map_Load (sm_oidToAddress m) oid).
Proof.
  intros user kept. exists (batch_msgs now m orders). split; [|split].
  - intros oid dir. rewrite batch_msgs_about. unfold direction_msgs. simpl.
    by rewrite splitReversedOrder_lookup.
  - intros msg Hin. destruct (batch_msgs_fills now m orders msg Hin) as (f & dir & -> & _).
    by exists (fill_Oid f), dir.
  - intros Hr. unfold handleWsOrderFills. rewrite send_orders_room by done.
    eexists. split; [reflexivity|]. simpl. split; [done|]. split; [done|]. split; [done|].
    intros oid. rewrite store_oids_lookup.
    assert (oid ∈ (go_range (order_groups now (fills_Fills orders))).*1 <->
            oid ∈ fill_Oid <$> kept) as Hin.
    { rewrite <- (group_by_is_Some fill_Oid kept oid), list_elem_of_fmap. split.
      - intros ([k fs] & -> & Hk%elem_of_go_range). by exists fs.
      - intros [fs Hfs]. exists (oid, fs). split; [done|]. by apply elem_of_go_range. }
    case_decide; case_decide; tauto.
Qed.

(** ** Updates, subscriptions *)
Section updates.
Context `{MapRange} `{Cast} `{GS : GoCache string} `{DD : DedupCacheInterface}
  `{SP : SubscriptionPool ManagerCallback}.
Implicit Types m : SubscriptionManager.

(** An update the manager acts on. *)
Definition update_due m user (wsOrder : WsOrder) : Prop :=
  coin_kept (bo_Coin (wo_Order wsOrder)) = true /\
  Map_Load (sm_oidToAddress m) (bo_Oid (wo_Order wsOrder)) = Some user /\
  wo_Status wsOrder <> "open" /\ wo_Status wsOrder <> "triggered" /\
  is_Some (Map_Load (sm_addresses m) user).

Lemma send_update_skip now m user wsOrder :
  ~ update_due m user wsOrder -> send_update now user (Ret m) wsOrder = Ret m.
Proof.
  intros Hn. unfold send_update. cbn [mbind outcome_bind].
  destruct (coin_kept _) eqn:Ec; [|done]. simpl.
  destruct (Map_Load (sm_oidToAddress m) _) as [addr|] eqn:Eo; [|done].
  case_decide as Hu; [done|]. subst addr.
  destruct (decide (wo_Status wsOrder = "open")) as [Es|Es].
  { by rewrite bool_decide_true. }
  rewrite bool_decide_false by done.
  destruct (decide (wo_Status wsOrder = "triggered")) as [Et|Et].
  { by rewrite bool_decide_true. }
  rewrite bool_decide_false by done. simpl.
  destruct (Map_Load (sm_addresses m) user) as [u|] eqn:Ea; [|done].
  destruct Hn. split_and!; [done..|by exists u].
Qed.

Lemma send_update_due now m user wsOrder :
  update_due m user wsOrder -> 0 < sm_room m ->
  send_update now user (Ret m) wsOrder =
    let oid := bo_Oid (wo_Order wsOrder) in
    let m' := append_msgs m [OrderUpdateMessage user oid (wo_Status wsOrder) EmptyString] in
    Ret (with_oids m' (Map_Delete (sm_oidToAddress m) oid)).
Proof.
  intros (Hc & Ho & Hn1 & Hn2 & [u Ha]) Hr. unfold send_update. cbn [mbind outcome_bind].
  rewrite Hc, Ho. simpl. rewrite decide_False by (intros Hne; by apply Hne).
  rewrite !bool_decide_false by done. simpl. rewrite Ha.
  rewrite sm_Enqueue_room by done. done.
Qed.

(** With a full queue the processor handles the message. *)
Lemma send_update_full now m user wsOrder p err :
  let oid := bo_Oid (wo_Order wsOrder) in
  update_due m user wsOrder -> sm_room m <= 0 ->
  HandleMessage now (mq_handler (sm_messageQueue m))
    (OrderUpdateMessage user oid (wo_Status wsOrder) EmptyString) = Ret (p, err) ->
  send_update now user (Ret m) wsOrder =
    Ret (with_oids (with_queue m (mkMessageQueue (mq_queue (sm_messageQueue m))
                                    (mq_cap (sm_messageQueue m)) p))
           (Map_Delete (sm_oidToAddress m) oid)).
Proof.
  intros oid (Hc & Ho & Hn1 & Hn2 & [u Ha]) Hr Hp. unfold send_update. cbn [mbind outcome_bind].
  rewrite Hc, Ho. simpl. rewrite decide_False by (intros Hne; by apply Hne).
  rewrite !bool_decide_false by done. simpl. rewrite Ha.
  unfold sm_Enqueue, Enqueue. rewrite (proj2 (Z.ltb_ge _ _)) by (unfold sm_room in Hr; lia).
  fold oid. by rewrite Hp.
Qed.

Lemma handleWsOrderUpdates_unmapped now user orders : forall m,
  (forall o, o ∈ orders ->
     Map_Load (sm_oidToAddress m) (bo_Oid (wo_Order o)) <> Some user) ->
  handleWsOrderUpdates now m user orders = Ret m.
Proof.
  unfold handleWsOrderUpdates. induction orders as [|o orders IH]; intros m Hn; [done|].
  cbn [fold_left]. rewrite send_update_skip.
  - apply IH. intros o' Ho'. apply Hn. by right.
  - intros (_ & Ho & _). by apply (Hn o); [left|].
Qed.
End updates.

(** C36. Order updates are isolated by address and act once: an update is
    forwarded exactly when its coin is admitted, its order id was mapped to
    this very user by a fill, its status is neither open nor triggered and the
    user is subscribed; in every other case nothing changes.  A forwarded update, one
    without a direction, is enqueued when the message queue has room; when the
    queue is full the processor handles it on the spot, the queue staying as it
    is.  Either way the order id is unmapped and no other, so that a second
    update of the order is not forwarded. *)
Theorem order_updates_isolated
    `{MapRange} `{Cast} `{GS : GoCache string} `{DD : DedupCacheInterface}
    `{SP : SubscriptionPool ManagerCallback} now (m : SubscriptionManager) user o :
  let oid := bo_Oid (wo_Order o) in
  let msg := OrderUpdateMessage user oid (wo_Status o) EmptyString in
  let q := sm_messageQueue m in
  let acted m' :=
    (forall oid', Map_Load (sm_oidToAddress m') oid' =
       if decide (oid = oid') then None else Map_Load (sm_oidToAddress m) oid') /\
    handleWsOrderUpdates now m' user [o] = Ret m' in
  (~ update_due m user o -> handleWsOrderUpdates now m user [o] = Ret m) /\
  (update_due m user o -> 0 < sm_room m ->
   exists m', handleWsOrderUpdates now m user [o] = Ret m' /\
     mq_queue (sm_messageQueue m') = mq_queue q ++ [msg] /\
     mq_handler (sm_messageQueue m') = mq_handler q /\ acted m') /\
  (update_due m user o -> sm_room m <= 0 -> forall p err,
   HandleMessage now (mq_handler q) msg = Ret (p, err) ->
   exists m', handleWsOrderUpdates now m user [o] = Ret m' /\
     mq_queue (sm_messageQueue m') = mq_queue q /\
     mq_handler (sm_messageQueue m') = p /\ acted m').
Proof.
  intros oid msg q acted.
  assert (forall m', sm_oidToAddress m' = Map_Delete (sm_oidToAddress m) oid -> acted m') as Hacted.
  { intros m' E.
    assert (forall oid', Map_Load (sm_oidToAddress m') oid' =
      if decide (oid = oid') then None else Map_Load (sm_oidToAddress m) oid') as Hm
      by (intros; rewrite E; apply Map_Load_Delete).
    split; [exact Hm|]. apply send_update_skip. intros (_ & Ho & _).
    fold oid in Ho. rewrite Hm, decide_True in Ho; done. }
  split; [apply send_update_skip|]. split; intros Hd Hr.
  - unfold handleWsOrderUpdates. cbn [fold_left]. rewrite send_update_due by done.
    eexists. split; [reflexivity|]. split; [done|]. split; [done|]. by apply Hacted.
  - intros p err Hp. unfold handleWsOrderUpdates. cbn [fold_left].
    rewrite (send_update_full _ _ _ _ _ _ Hd Hr Hp).
    eexists. split; [reflexivity|]. split; [done|]. split; [done|]. by apply Hacted.
Qed.

(** An update that arrives before any fill of its order is dropped: the
    order id has no address yet, so no status is recorded for the fills that
    follow (they wait for the timeout scan). *)
Theorem update_before_fill_dropped
    `{MapRange} `{Cast} `{GS : GoCache string} `{DD : DedupCacheInterface}
    `{SP : SubscriptionPool ManagerCallback} now (m : SubscriptionManager) user orders :
  (forall o, o ∈ orders -> Map_Load (sm_oidToAddress m) (bo_Oid (wo_Order o)) = None) ->
  handleWsOrderUpdates now m user orders = Ret m.
Proof.
  intros Hn. apply handleWsOrderUpdates_unmapped. intros o Ho. by rewrite Hn.
Qed.

(** Unsubscribing one address forgets the order ids of all: afterwards no
    id is mapped, and the updates of every other address are dropped. *)
Theorem UnsubscribeAddress_forgets_all
    `{MapRange} `{Cast} `{GS : GoCache string} `{DD : DedupCacheInterface}
    `{SP : SubscriptionPool ManagerCallback} (m m' : SubscriptionManager) addr err :
  is_Some (Map_Load (sm_addresses m) addr) ->
  UnsubscribeAddress m addr = Ret (m', err) ->
  (forall oid, Map_Load (sm_oidToAddress m') oid = None) /\
  forall now user orders, handleWsOrderUpdates now m' user orders = Ret m'.
Proof.
  intros [u Ha] Hu.
  assert (forall (oids : Map Z string) oid,
    Map_Load (Map_Range oids (fun oids oid (_ : string) => (Map_Delete oids oid, true)) oids) oid
    = None) as Hall.
  { intros oids oid. unfold Map_Range.
    assert (forall l (s : Map Z string), range_list
      (fun oids oid (_ : string) => (Map_Delete oids oid, true)) s l
      = fold_left Map_Delete l.*1 s) as E.
    { induction l as [|[k v] l IH]; intros s; [done|]. apply IH. }
    rewrite E. unfold Map_Load. rewrite Map_data_Delete_list. case_decide as Hin; [done|].
    destruct (map_data oids !! oid) as [a|] eqn:Eo; [|done].
    destruct Hin. apply list_elem_of_fmap. exists (oid, a). split; [done|].
    by apply elem_of_go_range. }
  assert (forall oid, Map_Load (sm_oidToAddress m') oid = None) as Hnone.
  { unfold UnsubscribeAddress, Map_LoadAndDelete in Hu. unfold Map_Load in Ha.
    rewrite Ha in Hu. simpl in Hu.
    destruct (drop_handle _ (addr +:+ "-fills")) as [m1|]; [|done]. simpl in Hu.
    destruct (drop_handle m1 (addr +:+ "-updates")) as [m2|]; [|done]. simpl in Hu.
    injection Hu as <- <-. apply Hall. }
  split; [done|]. intros now user orders. apply handleWsOrderUpdates_unmapped.
  intros o _. by rewrite Hnone.
Qed.

(** C38. Subscribing an address: with a well-formed pool the call returns; on
    success the pool runs both callbacks of the address for its keys; on an
    error no callback is left in the pool, yet the address stays marked, so
    that calling again reports success and subscribes nothing. *)
Theorem SubscribeAddress_outcomes
    `{MapRange} `{Cast} `{GS : GoCache string} `{DD : DedupCacheInterface}
    `{SP : SubscriptionPool ManagerCallback} (m : SubscriptionManager) pool addr :
  sm_poolManager m = Some pool -> pool_wf pool -> addr <> EmptyString ->
  Map_Load (sm_addresses m) addr = None ->
  (forall key, key ∈ ["userFills:" +:+ addr; "orderUpdates:" +:+ addr] ->
     pool_callbacks pool key = []) ->
  exists m' pool' err, SubscribeAddress m addr = Ret (m', err) /\
    sm_poolManager m' = Some pool' /\ pool_wf pool' /\
    (err = nil_error ->
       OnUserFills addr ∈ pool_callbacks pool' ("userFills:" +:+ addr) /\
       OnOrderUpdates addr ∈ pool_callbacks pool' ("orderUpdates:" +:+ addr)) /\
    (err <> nil_error ->
       (forall key, pool_callbacks pool' key ≡ₚ pool_callbacks pool key) /\
       exists m'', SubscribeAddress m' addr = Ret (m'', nil_error) /\
         sm_poolManager m'' = Some pool').
Proof.
  intros Hpool Hwf Haddr Ha Hempty. unfold Map_Load in Ha.
  set (m1 := with_addresses m (mkMap (map_length (sm_addresses m) + 1)
                                 (<[addr := tt]> (map_data (sm_addresses m))))).
  assert (SubscribeAddress m addr = subscribeAddress m1 addr) as ->.
  { unfold SubscribeAddress, Map_LoadOrStore. by rewrite Ha. }
  assert (forall q : SubscriptionManager, map_data (sm_addresses q) !! addr = Some tt ->
    SubscribeAddress q addr = Ret (with_addresses q (sm_addresses q), nil_error)) as Hagain.
  { intros q Hq. unfold SubscribeAddress, Map_LoadOrStore. by rewrite Hq. }
  assert (forall ch, Subscription_Key (mkSubscription ch addr EmptyString) = ch +:+ ":" +:+ addr)
    as Hkey by (intros ch; unfold Subscription_Key; simpl; by rewrite decide_True).
  unfold subscribeAddress. change (sm_poolManager m1) with (sm_poolManager m). rewrite Hpool.
  destruct (pool_Subscribe_spec pool (mkSubscription ChannelUserFills addr EmptyString)
    (OnUserFills addr) Hwf) as (p1 & r1 & -> & Hwf1 & Ho1 & Hr1).
  cbn [mbind outcome_bind]. rewrite Hkey in *.
  destruct r1 as [h1|e1].
  2:{ eexists _, p1, _. split; [reflexivity|]. split; [done|]. split; [done|]. split; [done|].
      intros _. split; [done|]. eexists. rewrite Hagain; [by split|]. simpl. apply lookup_insert_eq. }
  destruct Hr1 as [Hk1 Hc1].
  destruct (pool_Subscribe_spec p1 (mkSubscription ChannelOrderUpdates addr EmptyString)
    (OnOrderUpdates addr) Hwf1) as (p2 & r2 & -> & Hwf2 & Ho2 & Hr2).
  cbn [mbind outcome_bind]. rewrite Hkey in *.
  destruct r2 as [h2|e2].
  - destruct Hr2 as [Hk2 Hc2]. eexists _, p2, _. split; [reflexivity|]. split; [done|].
    split; [done|]. split; [|done]. intros _. split; [|exact Hc2].
    change ("userFills:" +:+ addr) with (ChannelUserFills +:+ ":" +:+ addr).
    rewrite Ho2; [exact Hc1|discriminate].
  - destruct (pool_Unsubscribe_spec p2 h1 Hwf2) as (p3 & -> & Hwf3 & Hc3 & Ho3).
    cbn [mbind outcome_bind]. eexists _, p3, _. split; [reflexivity|]. split; [done|].
    split; [done|]. split; [done|]. intros _. split.
    + intros key. destruct (decide (key = pool_handle_key h1)) as [->|Hne].
      * rewrite Hc3, Hk1. rewrite Hempty; [done|]. left.
      * rewrite Ho3, Hr2 by done. apply Ho1. by rewrite <- Hk1.
    + eexists. rewrite Hagain; [by split|]. simpl. apply lookup_insert_eq.
Qed.

(** ** Witnesses *)

Definition sample_net (cmd : WsCommand) : error :=
  match cmd with CmdSubscribe sub =>
    if decide (sub_Channel sub = ChannelOrderUpdates) then Some "write: broken pipe" else nil_error
  | CmdUnsubscribe _ => nil_error end.

(** A pool whose network refuses the subscription to order updates. *)
#[local] Instance sample_SubscriptionPool : SubscriptionPool ManagerCallback :=
  PoolManager_SubscriptionPool nil_error sample_net.

Definition sample_pool : pool_t ManagerCallback :=
  (PoolManager_Start nil_error (NewPoolManager 2 10)).1.

Definition sample_manager : SubscriptionManager :=
  NewSubscriptionManager (Some sample_pool) sample_symbols (Some sample_balances)
    NewPairCategoryCache (Some (NewBatchWriter None)) sample_deduper.

Definition reversed_fill : WsOrderFill :=
  mkWsOrderFill "BTC" "100" "5" "A" 1700 "2" DirLongToShort "0" "0xhash" 42 true "0" 9 None
    "USDC" None.

Definition mapped_manager : SubscriptionManager :=
  match handleWsOrderFills (2 * Second) sample_manager
          (mkWsOrderFills false "0xab" [reversed_fill]) with
  | Ret m => with_addresses m (Map_Store (sm_addresses m) "0xab" tt)
  | Panic => sample_manager end.

Definition filled_update : WsOrder :=
  mkWsOrder (mkWsBasicOrder "BTC" "A" "100" "0" 42 1700 "5" None) "filled" 1800.

Example reversed_fill_messages :
  map (fun msg => match msg with
       | OrderFillMessage a (Boxed f) d => (a, d, fill_Sz f, fill_Dir f) | _ => ("", "", "", "") end)
    (mq_queue (sm_messageQueue mapped_manager)) =
  [("0xab", "Open Short", "3", "Open Short");
   ("0xab", "Close Long", "2", "Close Long")].
Proof. vm_compute. reflexivity. Qed.

Lemma order_updates_isolated_witness :
  exists m', handleWsOrderUpdates (3 * Second) mapped_manager "0xab" [filled_update] = Ret m' /\
    handleWsOrderUpdates (3 * Second) m' "0xab" [filled_update] = Ret m'.
Proof.
  destruct (proj1 (proj2 (order_updates_isolated (3 * Second) mapped_manager "0xab" filled_update)))
    as (m' & Hr & _ & _ & _ & Hagain).
  - split; [reflexivity|]. split; [vm_compute; reflexivity|]. split; [discriminate|].
    split; [discriminate|]. exists tt. vm_compute. reflexivity.
  - vm_compute. reflexivity.
  - exists m'. split; [exact Hr|exact Hagain].
Defined.

Lemma update_before_fill_dropped_witness :
  handleWsOrderUpdates (3 * Second) sample_manager "0xab" [filled_update] = Ret sample_manager.
Proof. apply update_before_fill_dropped. intros o _. reflexivity. Defined.

Lemma UnsubscribeAddress_forgets_all_witness :
  exists m' err, UnsubscribeAddress mapped_manager "0xab" = Ret (m', err) /\
    Map_Load (sm_oidToAddress m') 42 = None.
Proof.
  assert (match UnsubscribeAddress mapped_manager "0xab" with
          | Ret _ => True | Panic => False end) as HE by (vm_compute; exact I).
  destruct (UnsubscribeAddress mapped_manager "0xab") as [[m' err]|] eqn:E; [|destruct HE].
  exists m', err. split; [reflexivity|].
  refine (proj1 (UnsubscribeAddress_forgets_all mapped_manager m' "0xab" err _ E) 42).
  exists tt. vm_compute. reflexivity.
Defined.

Lemma sample_pool_wf : pool_wf sample_pool.
Proof.
  split; [|reflexivity]. constructor.
  - intros l [->|Hl]%elem_of_cons; [by eexists|]. by apply not_elem_of_nil in Hl.
  - intros key info Hi.
    change (pm_subscriptions sample_pool) with
      (∅ : gmap string (subscriptionInfo ManagerCallback)) in Hi.
    rewrite lookup_empty in Hi. discriminate.
Qed.

Lemma SubscribeAddress_outcomes_witness :
  exists m' m'' err, SubscribeAddress sample_manager "0xab" = Ret (m', err) /\
    err <> nil_error /\ SubscribeAddress m' "0xab" = Ret (m'', nil_error).
Proof.
  destruct (SubscribeAddress_outcomes sample_manager sample_pool "0xab" eq_refl sample_pool_wf)
    as (m' & pool' & err & Hr & _ & _ & _ & He); [discriminate|reflexivity|reflexivity|].
  assert (match SubscribeAddress sample_manager "0xab" with
          | Ret (_, Some _) => True | _ => False end) as HE by (vm_compute; exact I).
  assert (err <> nil_error) as Hne.
  { intros ->. rewrite Hr in HE. exact HE. }
  destruct (He Hne) as (_ & m'' & Hr2 & _). exists m', m'', err.
  split; [exact Hr|]. split; [exact Hne|exact Hr2].
Defined.
