(* ===== verification/SdkTypes.v ===== *)
(** * pkg/go-hyperliquid/types.go and name_alias.go

    The metadata the exchange publishes, the orders a client sends and the
    responses to queries and actions.  Named string types ([Tif], [Tpsl],
    [OrderSide], [OrderStatusValue]) are strings. *)

From Stdlib Require Import ZArith.
From stdpp Require Import base gmap strings list.
From S2P Require Import Prelude Float64 Models.
Local Open Scope Z_scope.

(** ** name_alias.go *)

Definition mainnetAliasMap : gmap string string := list_to_map
  [("UBTC", "BTC"); ("UETH", "ETH"); ("USOL", "SOL"); ("UFART", "FARTCOIN");
   ("USDT0", "USDT"); ("HPENGU", "PENGU"); ("XAUT0", "XAUT"); ("UPUMP", "PUMP");
   ("PUMP", "PUMP-26"); ("UUUSPX", "SPX"); ("UBONK", "BONK"); ("WMNT", "MNT");
   ("UXPL", "XPL"); ("UDZ", "2Z")].

Definition testnetAliasMap : gmap string string := list_to_map
  [("UNIT", "BTC"); ("UETH", "ETH"); ("USOL", "SOL"); ("UFART", "FARTCOIN");
   ("TZERO", "USDT"); ("UPUMP", "PUMP"); ("USPXS", "SPX"); ("UXPL", "XPL");
   ("UDZ", "2Z")].

Definition MainnetToAlias (name : string) : string := default name (mainnetAliasMap !! name).
Definition TestnetToAlias (name : string) : string := default name (testnetAliasMap !! name).

(** ** Constants *)

Definition TifAlo : string := "Alo".
Definition TifIoc : string := "Ioc".
Definition TifGtc : string := "Gtc".
Definition GroupingNA : string := "na".
Definition GroupingNormalTpsl : string := "normalTpsl".
Definition GroupingPositionTpls : string := "positionTpsl".
Definition TakeProfit : string := "tp".
Definition StopLoss : string := "sl".
Definition SideAsk : string := "A".
Definition SideBid : string := "B".
Definition OrderSideAsk : string := "A".
Definition OrderSideBid : string := "B".
Definition OrderQueryStatusSuccess : string := "order".
Definition OrderQueryStatusError : string := "unknownOid".

(** The constants of type [OrderStatusValue], in the order of the source. *)
Definition order_status_values : list string :=
  ["open"; "filled"; "canceled"; "triggered"; "rejected"; "marginCanceled";
   "vaultWithdrawalCanceled"; "openInterestCapCanceled"; "selfTradeCanceled";
   "reduceOnlyCanceled"; "siblingFilledCanceled"; "delistedCanceled"; "liquidatedCanceled";
   "scheduledCancel"; "tickRejected"; "minTradeNtlRejected"; "perpMarginRejected";
   "reduceOnlyRejected"; "badAloPxRejected"; "iocCancelRejected"; "badTriggerPxRejected";
   "marketOrderNoLiquidityRejected"; "positionIncreaseAtOpenInterestCapRejected";
   "positionFlipAtOpenInterestCapRejected"; "tooAggressiveAtOpenInterestCapRejected";
   "openInterestIncreaseRejected"; "insufficientSpotBalanceRejected"; "oracleRejected";
   "perpMaxPositionRejected"].

(** ** Structs *)

Record AssetInfo := mkAssetInfo {
  asset_Name : string; asset_SzDecimals : Z; asset_MaxLeverage : Z;
  asset_MarginTableId : Z; asset_OnlyIsolated : bool; asset_IsDelisted : bool;
}.

Record MarginTier := mkMarginTier {
  tier_LowerBound : string; tier_MaxLeverage : Z;
}.

Record MarginTable := mkMarginTable {
  mtable_ID : Z; mtable_Description : string; mtable_MarginTiers : list MarginTier;
}.

Record Meta := mkMeta {
  meta_Universe : list AssetInfo; meta_MarginTables : list MarginTable;
}.

Record AssetCtx := mkAssetCtx {
  actx_Funding : string; actx_OpenInterest : string; actx_PrevDayPx : string;
  actx_DayNtlVlm : string; actx_Premium : string; actx_OraclePx : string;
  actx_MarkPx : string; actx_MidPx : string; actx_ImpactPxs : list string;
  actx_DayBaseVlm : string;
}.

Record SpotAssetInfo := mkSpotAssetInfo {
  spot_Name : string; spot_Tokens : list Z; spot_Index : Z;
  spot_IsCanonical : bool;
}.

Record EvmContract := mkEvmContract {
  evm_Address : string; evm_EvmExtraWeiDecimals : Z;
}.

Record SpotTokenInfo := mkSpotTokenInfo {
  token_Name : string; token_SzDecimals : Z; token_WeiDecimals : Z;
  token_Index : Z; token_TokenID : string; token_IsCanonical : bool;
  token_EvmContract : option EvmContract; token_FullName : option string;
}.

Record SpotMeta := mkSpotMeta {
  spotmeta_Universe : list SpotAssetInfo; spotmeta_Tokens : list SpotTokenInfo;
}.

Record LimitOrderType := mkLimitOrderType {
  limit_Tif : string;
}.

Record TriggerOrderType := mkTriggerOrderType {
  trigger_TriggerPx : float64; trigger_IsMarket : bool; trigger_Tpsl : string;
}.

Record OrderType := mkOrderType {
  otype_Limit : option LimitOrderType; otype_Trigger : option TriggerOrderType;
}.

Record BuilderInfo := mkBuilderInfo {
  builder_Builder : string; builder_Fee : Z;
}.

Record PerpDexSchemaInput := mkPerpDexSchemaInput {
  schema_FullName : string; schema_CollateralToken : Z;
  schema_OracleUpdater : option string;
}.

Record OpenOrder := mkOpenOrder {
  oo_Coin : string; oo_LimitPx : float64; oo_Oid : Z; oo_Side : string;
  oo_Size : float64; oo_Timestamp : Z;
}.

Record FrontendOpenOrder := mkFrontendOpenOrder {
  foo_Coin : string; foo_IsPositionTpSl : bool; foo_IsTrigger : bool;
  foo_LimitPx : float64; foo_Oid : Z; foo_OrderType : string; foo_OrigSz : float64;
  foo_ReduceOnly : bool; foo_Side : string; foo_Sz : float64; foo_Timestamp : Z;
  foo_TriggerCondition : string; foo_TriggerPx : string;
}.

Record QueriedOrder := mkQueriedOrder {
  qo_Coin : string; qo_Side : string; qo_LimitPx : string; qo_Sz : string;
  qo_Oid : Z; qo_Timestamp : Z; qo_TriggerCondition : string; qo_IsTrigger : bool;
  qo_TriggerPx : string; qo_IsPositionTpsl : bool; qo_ReduceOnly : bool;
  qo_OrderType : string; qo_OrigSz : string; qo_Tif : string;
  qo_Cloid : option string;
}.

Record OrderQueryResponse := mkOrderQueryResponse {
  oqr_Order : QueriedOrder; oqr_Status : string; oqr_StatusTimestamp : Z;
}.

Record OrderQueryResult := mkOrderQueryResult {
  oq_Status : string; oq_Order : OrderQueryResponse;
}.

Record Fill := mkFill {
  ufill_ClosedPnl : string; ufill_Coin : string; ufill_Crossed : bool;
  ufill_Dir : string; ufill_Hash : string; ufill_Oid : Z; ufill_Price : string;
  ufill_Side : string; ufill_StartPosition : string; ufill_Size : string;
  ufill_Time : Z; ufill_Fee : string; ufill_FeeToken : string;
  ufill_BuilderFee : string; ufill_Tid : Z;
}.

Record FundingHistory := mkFundingHistory {
  fund_Coin : string; fund_FundingRate : string; fund_Premium : string;
  fund_Time : Z;
}.

Record UserFundingHistory := mkUserFundingHistory {
  ufund_User : string; ufund_Type : string; ufund_StartTime : Z; ufund_EndTime : Z;
}.

Record UserVolume := mkUserVolume {
  uvol_Date : string; uvol_Exchange : string; uvol_UserAdd : string;
  uvol_UserCross : string;
}.

Record MMTier := mkMMTier {
  mm_Add : string; mm_MakerFractionCutoff : string;
}.

Record VIPTier := mkVIPTier {
  vip_Add : string; vip_Cross : string; vip_NtlCutoff : string;
}.

Record Tiers := mkTiers {
  tiers_MM : list MMTier; tiers_VIP : list VIPTier;
}.

Record FeeSchedule := mkFeeSchedule {
  fees_Add : string; fees_Cross : string; fees_ReferralDiscount : string;
  fees_Tiers : Tiers;
}.

Record UserFees := mkUserFees {
  ufees_ActiveReferralDiscount : string; ufees_DailyUserVolume : list UserVolume;
  ufees_FeeSchedule : FeeSchedule; ufees_UserAddRate : string;
  ufees_UserCrossRate : string; ufees_UserSpotCrossRate : string;
  ufees_UserSpotAddRate : string;
}.

Record UserActiveAssetData := mkUserActiveAssetData {
  uad_User : string; uad_Coin : string; uad_Leverage : Leverage;
  uad_MaxTradeSzs : list string; uad_AvailableToTrade : list string;
  uad_MarkPx : string;
}.

Record StakingSummary := mkStakingSummary {
  ssum_Delegated : string; ssum_Undelegated : string;
  ssum_TotalPendingWithdrawal : string; ssum_NPendingWithdrawals : Z;
}.

Record StakingDelegation := mkStakingDelegation {
  sdel_Validator : string; sdel_Amount : string; sdel_LockedUntilTimestamp : Z;
}.

Record StakingReward := mkStakingReward {
  srew_Time : Z; srew_Source : string; srew_TotalAmount : string;
}.

Record ReferralState := mkReferralState {
  ref_ReferralCode : string; ref_Referrer : string; ref_Referred : list string;
}.

Record SubAccount := mkSubAccount {
  sub_Name : string; sub_User : string; sub_Permissions : list string;
}.

Record MultiSigSigner := mkMultiSigSigner {
  msig_User : string; msig_Threshold : Z;
}.

Record TransferResponse := mkTransferResponse {
  tr_Status : string; tr_TxHash : string; tr_Error : string;
}.

Record ApprovalResponse := mkApprovalResponse {
  apr_Status : string; apr_TxHash : string; apr_Error : string;
}.

Record CreateVaultResponse := mkCreateVaultResponse {
  cvr_Status : string; cvr_Data : string; cvr_Error : string;
}.

Record CreateSubAccountResponse := mkCreateSubAccountResponse {
  csr_Status : string; csr_Data : option SubAccount; csr_Error : string;
}.

Record SetReferrerResponse := mkSetReferrerResponse {
  srr_Status : string; srr_Error : string;
}.

Record ScheduleCancelResponse := mkScheduleCancelResponse {
  scr_Status : string; scr_Error : string;
}.

Record AgentApprovalResponse := mkAgentApprovalResponse {
  aar_Status : string; aar_TxHash : string; aar_Error : string;
}.

Record MultiSigConversionResponse := mkMultiSigConversionResponse {
  mcr_Status : string; mcr_TxHash : string; mcr_Error : string;
}.

Record SpotDeployResponse := mkSpotDeployResponse {
  sdr_Status : string; sdr_TxHash : string; sdr_Error : string;
}.

Record ValidatorResponse := mkValidatorResponse {
  vr_Status : string; vr_TxHash : string; vr_Error : string;
}.

Record MultiSigResponse := mkMultiSigResponse {
  msr_Status : string; msr_TxHash : string; msr_Error : string;
}.

Record TxStatus := mkTxStatus {
  tx_Coin : string; tx_Status : string;
}.

(** The embedded [Meta] with the asset contexts, and the spot counterpart. *)
Record MetaAndAssetCtxs := mkMetaAndAssetCtxs { mac_Meta : Meta; mac_Ctxs : list AssetCtx }.
Record SpotMetaAndAssetCtxs := mkSpotMetaAndAssetCtxs {
  smac_Meta : SpotMeta; smac_Ctxs : list SpotAssetCtx;
}.

Record UserState := mkUserState {
  us_AssetPositions : list AssetPosition; us_CrossMarginSummary : MarginSummary;
  us_MarginSummary : MarginSummary; us_Withdrawable : string;
}.

Record SpotUserState := mkSpotUserState { sus_Balances : list SpotBalance }.

(** [Data.Statuses] of the struct. *)
Record PerpDeployResponse := mkPerpDeployResponse {
  pdr_Status : string; pdr_Statuses : list TxStatus;
}.

(** exchange_orders.go *)
Record OrderStatusResting := mkOrderStatusResting {
  resting_Oid : Z; resting_ClientID : option string; resting_Status : string;
}.

Record OrderStatusFilled := mkOrderStatusFilled {
  filled_TotalSz : string; filled_AvgPx : string; filled_Oid : Z;
}.

Record OrderStatus := mkOrderStatus {
  ostatus_Resting : option OrderStatusResting; ostatus_Filled : option OrderStatusFilled;
  ostatus_Error : option string;
}.

Record CancelRequest := mkCancelRequest {
  creq_Coin : string; creq_Oid : Z;
}.

Record CancelByCloidRequest := mkCancelByCloidRequest {
  ccreq_Coin : string; ccreq_Cloid : string;
}.

Record Cloid := mkCloid {
  cloid_Value : string;
}.

Definition Cloid_ToRaw (c : Cloid) : string := cloid_Value c.

Record BulkOrderResponse := mkBulkOrderResponse {
  bor_Status : string; bor_Data : list OrderStatus; bor_Error : string;
}.

Record CancelResponse := mkCancelResponse {
  cr_Status : string; cr_Data : option OpenOrder; cr_Error : string;
}.

Record BulkCancelResponse := mkBulkCancelResponse {
  bcr_Status : string; bcr_Data : list OpenOrder; bcr_Error : string;
}.

Record ModifyResponse := mkModifyResponse {
  mr_Status : string; mr_Data : list OrderStatus; mr_Error : string;
}.

(** [s[i]] *)
Definition go_index {A} (l : list A) (i : Z) : outcome A :=
  if 0 <=? i then match l !! Z.to_nat i with Some x => Ret x | None => Panic end else Panic.
