(* ===== verification/SymbolLoader.v ===== *)
(** * internal/symbol/loader.go

    The loader fills the symbol cache from the exchange's metadata.  The two
    metadata requests are arguments (their result or an error); reading an
    index outside a slice panics. *)

From Stdlib Require Import ZArith Lia Ascii.
From stdpp Require Import gmap strings list.
From S2P Require Import Prelude Float64 GoStrings Models ConcurrentMap GoCache Caches MarketCaches.
From S2P Require Import BatchWriter Messages OrderProcessor SdkTypes.
Local Open Scope Z_scope.

(** ** loader.go *)

(** The name and symbol of one spot asset, [None] when it is skipped. *)
Definition spot_entry (tokens : list SpotTokenInfo) (spotInfo : SpotAssetInfo)
    : outcome (option (string * string)) :=
  let spotTokenLen := Z.of_nat (length tokens) in
  if Z.of_nat (length (spot_Tokens spotInfo)) <? 2 then Ret None
  else
    base ← go_index (spot_Tokens spotInfo) 0;
    quote ← go_index (spot_Tokens spotInfo) 1;
    if (spotTokenLen <=? quote) || (spotTokenLen <=? base) then Ret None
    else
      baseToken ← go_index tokens base;
      quoteToken ← go_index tokens quote;
      let quoteCoin := token_Name quoteToken in
      let baseCoin := MainnetToAlias (token_Name baseToken) in
      Ret (Some (spot_Name spotInfo, baseCoin +:+ quoteCoin)).

Definition buildSpotCache (c : SymbolCache) (spotMeta : SpotMeta) : outcome SymbolCache :=
  fold_left (fun o spotInfo =>
    c ← o;
    entry ← spot_entry (spotmeta_Tokens spotMeta) spotInfo;
    Ret (match entry with
         | Some (name, symbol) => SetSpotSymbol c name symbol
         | None => c
         end)) (spotmeta_Universe spotMeta) (Ret c).

Definition clean_name (name : string) : string :=
  let cleanName :=
    if contains_char ":" name then
      match split_char ":" name with
      | [dex; coin] => if decide (dex = "xyz") then coin else name
      | _ => name
      end
    else name in
  MainnetToAlias cleanName.

Definition perp_step (c : SymbolCache) (assetInfo : AssetInfo) : SymbolCache :=
  let cleanName := clean_name (asset_Name assetInfo) in
  let symbol := cleanName +:+ "USDC" in
  let c := SetPerpSymbol c cleanName symbol in
  if decide (asset_Name assetInfo <> cleanName)
  then SetPerpSymbol c (asset_Name assetInfo) symbol
  else c.

Definition buildPerpCache (c : SymbolCache) (perpMeta : list Meta) : SymbolCache :=
  fold_left (fun c meta => fold_left perp_step (meta_Universe meta) c) perpMeta c.

Definition loadMeta (c : SymbolCache) (spotMeta : SpotMeta + string)
    (perpMeta : list Meta + string) : outcome (SymbolCache * error) :=
  match spotMeta with
  | inr err => Ret (c, Some err)
  | inl spotMeta =>
      c ← buildSpotCache c spotMeta;
      match perpMeta with
      | inr err => Ret (c, Some err)
      | inl perpMeta => Ret (buildPerpCache c perpMeta, nil_error)
      end
  end.

(** The loader's counts, read back from the statistics. *)
Definition getSpotCount (c : SymbolCache) : Z :=
  default 0 (snd <$> (snd <$> list_find (fun kv => kv.1 = "spot_name_to_symbol_count") (SymbolCache_Stats c))).
Definition getPerpCount (c : SymbolCache) : Z :=
  default 0 (snd <$> (snd <$> list_find (fun kv => kv.1 = "perp_name_to_symbol_count") (SymbolCache_Stats c))).

(** ** What the cache holds afterwards *)

(** The pairs an asset stores, in order. *)
Definition perp_entries (assetInfo : AssetInfo) : list (string * string) :=
  let name := asset_Name assetInfo in
  let symbol := clean_name name +:+ "USDC" in
  if decide (name <> clean_name name) then [(clean_name name, symbol); (name, symbol)]
  else [(clean_name name, symbol)].

Definition store_perp (c : SymbolCache) (e : string * string) : SymbolCache :=
  SetPerpSymbol c e.1 e.2.
Definition store_spot (c : SymbolCache) (e : string * string) : SymbolCache :=
  SetSpotSymbol c e.1 e.2.

Definition all_perps (perpMeta : list Meta) : list AssetInfo := concat (map meta_Universe perpMeta).

Lemma buildPerpCache_entries perpMeta : forall c,
  buildPerpCache c perpMeta =
  fold_left store_perp (concat (map perp_entries (all_perps perpMeta))) c.
Proof.
  assert (forall assets c, fold_left perp_step assets c =
    fold_left store_perp (concat (map perp_entries assets)) c) as Ha.
  { induction assets as [|a assets IH]; intros c; simpl; [done|].
    rewrite fold_left_app, IH. f_equal. unfold perp_step, perp_entries.
    by case_decide. }
  unfold all_perps. induction perpMeta as [|meta perpMeta IH]; intros c; simpl; [done|].
  unfold buildPerpCache in *. simpl. rewrite IH, Ha, map_app, concat_app, fold_left_app. done.
Qed.

(** A name's symbol is the one stored last for it. *)
Definition last_entry (name : string) (entries : list (string * string)) : option string :=
  snd <$> last (filter (fun e => e.1 = name) entries).

Lemma last_entry_snoc name entries e :
  last_entry name (entries ++ [e]) =
  if decide (e.1 = name) then Some e.2 else last_entry name entries.
Proof.
  unfold last_entry. rewrite filter_app, filter_cons, filter_nil.
  case_decide; [by rewrite last_snoc|by rewrite app_nil_r].
Qed.

Lemma store_perp_lookup entries c name :
  GetPerpSymbol (fold_left store_perp entries c) name =
  or_else (last_entry name entries) (GetPerpSymbol c name).
Proof.
  induction entries as [|e entries IH] using rev_ind; [done|].
  rewrite fold_left_app_snoc, last_entry_snoc. unfold store_perp at 1, GetPerpSymbol, SetPerpSymbol.
  simpl. rewrite Map_Load_Store. unfold GetPerpSymbol in IH. case_decide; [done|]. by rewrite IH.
Qed.

Lemma store_perp_wf entries c : SymbolCache_wf c -> SymbolCache_wf (fold_left store_perp entries c).
Proof. intros Hc. apply fold_left_inv; [done|]. intros c' e _. unfold store_perp. auto with hlm. Qed.

Lemma last_entry_elem name entries s :
  last_entry name entries = Some s -> (name, s) ∈ entries.
Proof.
  unfold last_entry. intros ([n s'] & E & ->)%fmap_Some_1. simpl.
  apply last_Some_elem_of, list_elem_of_filter in E as [En Hin]. simpl in En. by subst n.
Qed.

Lemma last_entry_is_Some name s entries :
  (name, s) ∈ entries -> is_Some (last_entry name entries).
Proof.
  intros Hin. unfold last_entry. apply fmap_is_Some, last_is_Some. intros E.
  assert ((name, s) ∈ filter (fun e => e.1 = name) entries) as Hf
    by by apply list_elem_of_filter.
  rewrite E in Hf. by apply not_elem_of_nil in Hf.
Qed.

(** Loading the perpetuals: every name of the metadata, and every clean
    name, has a symbol afterwards; each symbol loaded is a clean name of some
    asset followed by USDC, the one stored last when names collide; names that
    no asset stores keep what they had; both directions stay coherent. *)
Theorem buildPerpCache_spec c perpMeta :
  SymbolCache_wf c ->
  let c' := buildPerpCache c perpMeta in
  let entries := concat (map perp_entries (all_perps perpMeta)) in
  SymbolCache_wf c' /\
  (forall name, GetPerpSymbol c' name = or_else (last_entry name entries) (GetPerpSymbol c name)) /\
  (forall a, a ∈ all_perps perpMeta ->
     exists b s, b ∈ all_perps perpMeta /\ GetPerpSymbol c' (asset_Name a) = Some s /\
       s = clean_name (asset_Name b) +:+ "USDC" /\
       is_Some (GetPerpSymbol c' (clean_name (asset_Name a))) /\
       is_Some (GetPerpName c' s)).
Proof.
  intros Hc c' entries. subst c'. rewrite buildPerpCache_entries. fold entries.
  pose proof (store_perp_wf entries c Hc) as Hwf.
  split; [done|]. split; [intros name; apply store_perp_lookup|].
  intros a Ha.
  assert (forall n, (n = asset_Name a \/ n = clean_name (asset_Name a)) ->
    exists s, (n, s) ∈ entries) as Hent.
  { intros n Hn. exists (clean_name (asset_Name a) +:+ "USDC"). unfold entries.
    apply list_elem_of_In, in_concat. exists (perp_entries a). split.
    - apply in_map, list_elem_of_In, Ha.
    - unfold perp_entries. apply list_elem_of_In.
      destruct Hn as [-> | ->]; case_decide as Hd; try set_solver.
      destruct (decide (asset_Name a = clean_name (asset_Name a))) as [<-|]; set_solver. }
  assert (forall n, (n = asset_Name a \/ n = clean_name (asset_Name a)) ->
    exists s, GetPerpSymbol (fold_left store_perp entries c) n = Some s /\ (n, s) ∈ entries) as Hget.
  { intros n Hn. destruct (Hent n Hn) as [s Hs]. rewrite store_perp_lookup.
    destruct (last_entry_is_Some n s entries Hs) as [s' Hs']. exists s'. rewrite Hs'.
    split; [done|]. by apply last_entry_elem. }
  destruct (Hget (asset_Name a) ltac:(by left)) as (s & Hs & Hin).
  destruct (Hget (clean_name (asset_Name a)) ltac:(by right)) as (s2 & Hs2 & _).
  apply list_elem_of_In, in_concat in Hin as (part & Hp & Hin).
  apply in_map_iff in Hp as (b & <- & Hb). exists b, s.
  split; [by apply list_elem_of_In|]. split; [done|]. split.
  - apply list_elem_of_In in Hin. unfold perp_entries in Hin.
    case_decide; set_solver.
  - split; [by eexists|]. destruct Hwf as (_ & _ & H3 & _). by apply (H3 _ _ Hs).
Qed.

Lemma store_spot_names entries c n s :
  (n, s) ∈ entries ->
  let c' := fold_left store_spot entries c in
  is_Some (GetSpotSymbol c' n) /\ is_Some (GetSpotName c' s).
Proof.
  induction entries as [|e entries IH] using rev_ind; [by intros ?%not_elem_of_nil|].
  intros Hin. rewrite fold_left_app_snoc. set (c1 := fold_left store_spot entries c) in *.
  clearbody c1. unfold store_spot, GetSpotSymbol, GetSpotName in *. simpl. rewrite !Map_Load_Store.
  apply elem_of_app in Hin as [Hin| <-%list_elem_of_singleton].
  - destruct (IH Hin) as [H1 H2]. split; case_decide; done.
  - simpl. rewrite !decide_True by done. split; by eexists.
Qed.

(** The entry of an asset whose token indices are in range. *)
Lemma spot_entry_total tokens a :
  Forall (fun i => 0 <= i) (spot_Tokens a) -> exists e, spot_entry tokens a = Ret e /\
    (forall base quote rest tb tq, spot_Tokens a = base :: quote :: rest ->
       tokens !! Z.to_nat base = Some tb -> tokens !! Z.to_nat quote = Some tq ->
       e = Some (spot_Name a, MainnetToAlias (token_Name tb) +:+ token_Name tq)).
Proof.
  intros Hpos. unfold spot_entry. destruct (spot_Tokens a) as [|base [|quote rest]] eqn:Et;
    simpl; [by eexists..|].
  inversion Hpos as [|? ? Hb Hpos']; subst. inversion Hpos' as [|? ? Hq _]; subst.
  rewrite (proj2 (Z.ltb_ge _ _)) by lia.
  cbn -[Z.leb]. unfold go_index. rewrite !(proj2 (Z.leb_le 0 _)) by done.
  destruct (Z.leb_spec (Z.of_nat (length tokens)) quote) as [Hl|Hl];
    [|destruct (Z.leb_spec (Z.of_nat (length tokens)) base) as [Hl2|Hl2]]; cbn [orb].
  - eexists. split; [done|]. intros ? ? ? tb tq [= <- <- <-] _ Hq'.
    apply lookup_lt_Some in Hq'. lia.
  - eexists. split; [done|]. intros ? ? ? tb tq [= <- <- <-] Hb' _.
    apply lookup_lt_Some in Hb'. lia.
  - destruct (lookup_lt_is_Some_2 tokens (Z.to_nat base) ltac:(lia)) as [tb Htb].
    destruct (lookup_lt_is_Some_2 tokens (Z.to_nat quote) ltac:(lia)) as [tq Htq].
    rewrite Htb, Htq. cbn [mbind outcome_bind]. eexists. split; [done|].
    intros ? ? ? tb' tq' [= <- <- <-] Hb' Hq'. congruence.
Qed.

(** Loading the spot pairs: when no token index is negative the load does
    not panic and keeps the cache coherent, and every pair whose two tokens
    are listed gets a symbol, the alias of the base followed by the quote, that
    can be looked up in both directions. *)
Theorem buildSpotCache_spec c spotMeta :
  SymbolCache_wf c ->
  Forall (fun a => Forall (fun i => 0 <= i) (spot_Tokens a)) (spotmeta_Universe spotMeta) ->
  exists c', buildSpotCache c spotMeta = Ret c' /\ SymbolCache_wf c' /\
    forall a base quote rest tb tq, a ∈ spotmeta_Universe spotMeta ->
      spot_Tokens a = base :: quote :: rest ->
      spotmeta_Tokens spotMeta !! Z.to_nat base = Some tb ->
      spotmeta_Tokens spotMeta !! Z.to_nat quote = Some tq ->
      is_Some (GetSpotSymbol c' (spot_Name a)) /\
      is_Some (GetSpotName c' (MainnetToAlias (token_Name tb) +:+ token_Name tq)).
Proof.
  destruct spotMeta as [universe tokens]. simpl. intros Hc Hpos.
  assert (exists entries, buildSpotCache c (mkSpotMeta universe tokens) =
            Ret (fold_left store_spot entries c) /\
    forall a base quote rest tb tq, a ∈ universe ->
      spot_Tokens a = base :: quote :: rest ->
      tokens !! Z.to_nat base = Some tb -> tokens !! Z.to_nat quote = Some tq ->
      (spot_Name a, MainnetToAlias (token_Name tb) +:+ token_Name tq) ∈ entries)
    as (entries & Hb & Hent).
  { unfold buildSpotCache. simpl. clear Hc. revert c.
    induction Hpos as [|a universe Ha _ IH]; intros c; cbn [fold_left].
    { exists []. split; [done|]. intros a base quote rest tb tq Hin.
      by apply not_elem_of_nil in Hin. }
    destruct (spot_entry_total tokens a Ha) as (e & He & Hspec).
    cbn [mbind outcome_bind]. rewrite He. cbn [mbind outcome_bind].
    destruct (IH (match e with Some (n, s) => SetSpotSymbol c n s | None => c end))
      as (entries & Hr & Hin).
    exists (option_list e ++ entries). split.
    - rewrite Hr, fold_left_app. by destruct e as [[n s]|].
    - intros a' base quote rest tb tq [->|Ha']%elem_of_cons Ht Hb Hq.
      + rewrite (Hspec base quote rest tb tq Ht Hb Hq). left.
      + apply elem_of_app. right. by eapply Hin. }
  eexists. split; [exact Hb|]. split.
  - apply fold_left_inv; [done|]. intros c' e _. unfold store_spot. auto with hlm.
  - intros a base quote rest tb tq Ha Ht Hb' Hq.
    exact (store_spot_names entries c _ _ (Hent a base quote rest tb tq Ha Ht Hb' Hq)).
Qed.

(** ** Witnesses *)

Definition sample_perps : list Meta :=
  [mkMeta [mkAssetInfo "BTC" 5 50 0 false false; mkAssetInfo "xyz:GOLD" 2 20 0 true false;
           mkAssetInfo "PUMP" 0 10 0 false false] []].

Definition sample_spots : SpotMeta :=
  mkSpotMeta [mkSpotAssetInfo "@142" [1; 0] 142 false; mkSpotAssetInfo "@9" [7; 0] 9 false]
    [mkSpotTokenInfo "USDC" 8 8 0 "0x6d" true None None;
     mkSpotTokenInfo "UBTC" 5 10 1 "0x8f" false None None].

Example sample_loaded :
  match loadMeta NewSymbolCache (inl sample_spots) (inl sample_perps) with
  | Ret (c, _) => (map (GetPerpSymbol c) ["BTC"; "GOLD"; "xyz:GOLD"; "PUMP"],
                   GetSpotSymbol c "@142", GetSpotName c "BTCUSDC", getPerpCount c)
  | Panic => ([], None, None, 0) end =
  ([Some "BTCUSDC"; Some "GOLDUSDC"; Some "GOLDUSDC"; Some "PUMP-26USDC"],
   Some "BTCUSDC", Some "@142", 5).
Proof. vm_compute. reflexivity. Qed.

Lemma buildPerpCache_spec_witness :
  SymbolCache_wf (buildPerpCache NewSymbolCache sample_perps).
Proof. apply (buildPerpCache_spec NewSymbolCache sample_perps NewSymbolCache_wf). Defined.

Lemma buildSpotCache_spec_witness :
  exists c', buildSpotCache NewSymbolCache sample_spots = Ret c' /\ SymbolCache_wf c'.
Proof.
  destruct (buildSpotCache_spec NewSymbolCache sample_spots NewSymbolCache_wf)
    as (c' & Hr & Hwf & _); [repeat constructor; discriminate|]. by exists c'.
Defined.
