(* ===== verification/PositionManager.v ===== *)
(** * internal/manager/position_manager.go

    The manager of account data: it subscribes addresses through the pool,
    keeps the spot prices, turns every account message into a row for the
    batch writer (through its own message queue) and into the balance cache
    the order processor reads. *)

From Stdlib Require Import ZArith Lia Ascii.
From stdpp Require Import gmap strings list.
From S2P Require Import Prelude Float64 GoStrings GoFmt Models ConcurrentMap GoCache Caches.
From S2P Require Import MarketCaches BatchWriter Messages OrderProcessor WsPool.
From S2P Require Import SubscriptionManager SdkTypes SymbolLoader.
Local Open Scope Z_scope.

Definition isStableCoin (coin : string) : bool :=
  bool_decide (coin = "USDC") || bool_decide (coin = "USDH") || bool_decide (coin = "USDT").

Section manager.
Context `{MapRange} `{Cast} `{SP : SubscriptionPool ManagerCallback}.

Record PositionManager := mkPositionManager {
  pom_poolManager : option (pool_t ManagerCallback);
  pom_addresses : gmap string bool;
  pom_subs : gmap string (pool_handle ManagerCallback);
  pom_priceCache : PriceCache;
  pom_symbolCache : option SymbolCache;       (* a pointer that may be nil *)
  pom_positionBalanceCache : PositionBalanceCache;
  pom_messageQueue : MessageQueue PositionProcessor;
  pom_messagesReceived : gmap string Z;
  pom_messagesFiltered : Z;
}.

Definition NewPositionManager (poolManager : option (pool_t ManagerCallback))
    (priceCache : PriceCache) (symbolCache : option SymbolCache)
    (batchWriter : option BatchWriter) : PositionManager :=
  mkPositionManager poolManager ∅ ∅ priceCache symbolCache NewPositionBalanceCache
    (NewMessageQueue 1000 (NewPositionProcessor batchWriter)) ∅ 0.

Definition pom_with_subs (m : PositionManager) pool addresses subs : PositionManager :=
  mkPositionManager pool addresses subs (pom_priceCache m) (pom_symbolCache m)
    (pom_positionBalanceCache m) (pom_messageQueue m) (pom_messagesReceived m)
    (pom_messagesFiltered m).
Definition pom_with_prices (m : PositionManager) prices : PositionManager :=
  mkPositionManager (pom_poolManager m) (pom_addresses m) (pom_subs m) prices
    (pom_symbolCache m) (pom_positionBalanceCache m) (pom_messageQueue m)
    (pom_messagesReceived m) (pom_messagesFiltered m).
Definition pom_with_balances (m : PositionManager) balances queue : PositionManager :=
  mkPositionManager (pom_poolManager m) (pom_addresses m) (pom_subs m) (pom_priceCache m)
    (pom_symbolCache m) balances queue (pom_messagesReceived m) (pom_messagesFiltered m).
Definition pom_with_counts (m : PositionManager) received filtered : PositionManager :=
  mkPositionManager (pom_poolManager m) (pom_addresses m) (pom_subs m) (pom_priceCache m)
    (pom_symbolCache m) (pom_positionBalanceCache m) (pom_messageQueue m) received filtered.

(** ** Prices and balances *)

Definition set_spot_price (prices : PriceCache) (ctx : SpotAssetCtx) : PriceCache :=
  let priceStr := default (sac_MarkPx ctx) (sac_MidPx ctx) in
  SetSpotPrice prices (sac_Coin ctx) (ToFloat64 priceStr).

Definition base_coins : list string := ["USDC"; "USDT"; "USDH"].

(** The loop over the quote coins: it ends at the first pair the symbol cache
    knows, priced or not. *)
Fixpoint add_priced (symbols : SymbolCache) (prices : PriceCache) (coin : string)
    (total spotTotalUSD : float64) (bases : list string) : float64 :=
  match bases with
  | [] => spotTotalUSD
  | base :: bases =>
      match GetSpotName symbols (coin +:+ base) with
      | None => add_priced symbols prices coin total spotTotalUSD bases
      | Some assetName =>
          match GetSpotPrice prices assetName with
          | Some midPx => fadd spotTotalUSD (fmul total midPx)
          | None => spotTotalUSD
          end
      end
  end.

(** One balance: skipped when its total is 0; a nil symbol cache panics. *)
Definition balance_step (symbols : option SymbolCache) (prices : PriceCache)
    (o : outcome (float64 * list SpotBalanceItem)) (balance : SpotBalance)
    : outcome (float64 * list SpotBalanceItem) :=
  '(spotTotalUSD, spotBalances) ← o;
  if feqb (ToFloat64 (sb_Total balance)) f0 then Ret (spotTotalUSD, spotBalances)
  else
    let coin := MainnetToAlias (sb_Coin balance) in
    let spotBalances := spotBalances ++
      [mkSpotBalanceItem coin (sb_Total balance) (sb_Hold balance) (sb_EntryNtl balance)] in
    let total := ToFloat64 (sb_Total balance) in
    if isStableCoin coin then Ret (fadd spotTotalUSD (fmul total f1), spotBalances)
    else
      match symbols with
      | None => Panic
      | Some symbols =>
          Ret (add_priced symbols prices coin total spotTotalUSD base_coins, spotBalances)
      end.

(** The total and the items of the spot state; a nil state leaves a nil slice. *)
Definition spot_balances (symbols : option SymbolCache) (prices : PriceCache)
    (state : option (list SpotBalance)) : outcome (float64 * option (list SpotBalanceItem)) :=
  match state with
  | None => Ret (f0, None)
  | Some balances =>
      '(spotTotalUSD, items) ← fold_left (balance_step symbols prices) balances (Ret (f0, []));
      Ret (spotTotalUSD, Some items)
  end.

(** ** Positions *)

(** The coin of a position as it is stored, [None] when it is skipped. *)
Definition position_coin (symbols : option SymbolCache) (coin : string) : option string :=
  if decide (coin = EmptyString) then None
  else
    let coin :=
      if contains_char ":" coin then
        match split_char ":" coin with
        | [dex; name] => if decide (dex = "xyz") then Some name else None
        | _ => None
        end
      else Some coin in
    match coin with
    | None => None
    | Some coin =>
        let coin := MainnetToAlias coin in
        Some (match symbols with
              | Some symbols => default coin (GetPerpSymbol symbols coin)
              | None => coin +:+ "USDC"
              end)
    end.

Definition position_item (symbols : option SymbolCache) (p : Position) : option PositionItem :=
  match position_coin symbols (pos_Coin p) with
  | None => None
  | Some coin =>
      Some (mkPositionItem coin (pos_Szi p) (pos_EntryPx p) (pos_UnrealizedPnl p)
              (mkLeverageItem (lev_Type (pos_Leverage p)) (lev_Value (pos_Leverage p)))
              (pos_MarginUsed p) (pos_PositionValue p) (pos_ReturnOnEquity p))
  end.

(** The summary used: the cross-margin one, else the other, else a zero value. *)
Definition margin_summary (state : ClearinghouseState) : MarginSummary :=
  match ch_CrossMarginSummary state with
  | Some s => s
  | None => default MarginSummary_zero (ch_MarginSummary state)
  end.

(** ** An account message *)

Definition processPositionCache (now : Z) (m : PositionManager) (addr : string)
    (webdata2 : WebData2) : outcome PositionManager :=
  '(spotTotalUSD, spotBalances) ←
    spot_balances (pom_symbolCache m) (pom_priceCache m) (ss_Balances <$> wd_SpotState webdata2);
  let spotBalancesJSON := json_slice SpotBalanceItem_json spotBalances in
  match wd_ClearinghouseState webdata2 with
  | None => Panic                       (* state.CrossMarginSummary *)
  | Some state =>
      let marginSummary := margin_summary state in
      let futuresPositions :=
        Some (omap (position_item (pom_symbolCache m)) (map ap_Position (ch_AssetPositions state))) in
      let futuresPositionsJSON := json_slice PositionItem_json futuresPositions in
      let message := NewPositionCacheMessage addr
        (mkHlPositionCache addr spotBalancesJSON (format_f 6 spotTotalUSD)
           futuresPositionsJSON (ms_AccountValue marginSummary)
           (ms_TotalMarginUsed marginSummary) (ms_TotalNtlPos marginSummary)
           (ch_Withdrawable state) now) in
      '(queue, _) ← Enqueue now (pom_messageQueue m) message;
      let accountValue := ToFloat64 (ms_AccountValue marginSummary) in
      Ret (pom_with_balances m
             (PositionBalanceCache_Set (pom_positionBalanceCache m) addr spotTotalUSD
                accountValue (Some (default [] spotBalances)) (Some (default [] futuresPositions)))
             queue)
  end.

Definition handleWebData2 (now : Z) (m : PositionManager) (webdata2 : WebData2)
    : outcome PositionManager :=
  let m := pom_with_prices m
             (fold_left set_spot_price (wd_SpotAssetCtxs webdata2) (pom_priceCache m)) in
  processPositionCache now m (wd_User webdata2) webdata2.

(** The closure given to the pool, on a message's data. *)
Context (Unmarshal_webdata2 : string -> WebData2 + string).

Definition OnWebData2_callback (now : Z) (m : PositionManager) (addr : string) (msg : WsMessage)
    : outcome PositionManager :=
  match Unmarshal_webdata2 (msg_Data msg) with
  | inr _ => Ret m
  | inl webdata2 =>
      if decide (wd_User webdata2 <> addr)
      then Ret (pom_with_counts m (pom_messagesReceived m) (pom_messagesFiltered m + 1))
      else
        let m := pom_with_counts m
          (<[addr := default 0 (pom_messagesReceived m !! addr) + 1]> (pom_messagesReceived m))
          (pom_messagesFiltered m) in
        handleWebData2 now m webdata2
  end.

(** ** Subscribing *)

Definition pom_subscribeAddress (m : PositionManager) (addr : string)
    : outcome (PositionManager * error) :=
  match pom_poolManager m with
  | None => Ret (m, nil_error)
  | Some pool =>
      '(pool, r) ← pool_Subscribe pool (mkSubscription ChannelWebData2 addr EmptyString)
                     (OnWebData2 addr);
      match r with
      | inr err => Ret (pom_with_subs m (Some pool) (pom_addresses m) (pom_subs m), Some err)
      | inl handle => Ret (pom_with_subs m (Some pool) (pom_addresses m)
                             (<[addr := handle]> (pom_subs m)), nil_error)
      end
  end.

Definition pom_SubscribeAddress (m : PositionManager) (addr : string)
    : outcome (PositionManager * error) :=
  if (default false (pom_addresses m !! addr) : bool) then Ret (m, nil_error)
  else pom_subscribeAddress
         (pom_with_subs m (pom_poolManager m) (<[addr := true]> (pom_addresses m)) (pom_subs m))
         addr.

Definition pom_unsubscribeAddress (m : PositionManager) (addr : string)
    : outcome (PositionManager * error) :=
  match pom_subs m !! addr, pom_poolManager m with
  | Some handle, Some pool =>
      pool ← pool_Unsubscribe pool handle;
      let m := pom_with_subs m (Some pool) (pom_addresses m) (delete addr (pom_subs m)) in
      Ret (pom_with_balances m (PositionBalanceCache_Delete (pom_positionBalanceCache m) addr)
             (pom_messageQueue m), nil_error)
  | _, _ => Ret (m, nil_error)
  end.

Definition pom_UnsubscribeAddress (m : PositionManager) (addr : string)
    : outcome (PositionManager * error) :=
  if (default false (pom_addresses m !! addr) : bool) then
    pom_unsubscribeAddress
      (pom_with_subs m (pom_poolManager m) (delete addr (pom_addresses m)) (pom_subs m)) addr
  else Ret (m, nil_error).

Definition pom_Addresses (m : PositionManager) : list string := (go_range (pom_addresses m)).*1.

(** [GetStats]: the addresses monitored, the messages filtered, and a copy of
    the count of each address. *)
Definition pom_GetStats (m : PositionManager) : Z * Z * gmap string Z :=
  (Z.of_nat (size (pom_addresses m)), pom_messagesFiltered m,
   fold_left (fun stats kv => <[kv.1 := kv.2]> stats) (go_range (pom_messagesReceived m)) ∅).
End manager.
Arguments PositionManager {SP}.

Section facts.
Context `{MapRange} `{Cast} `{SP : SubscriptionPool ManagerCallback}.
Implicit Types m : PositionManager.

(** What one unit of a coin is worth: 1 for a stable coin, otherwise the spot
    price of the first of its pairs the symbol cache knows. *)
Definition coin_value (symbols : SymbolCache) (prices : PriceCache) (coin : string)
    : option float64 :=
  if isStableCoin coin then Some f1
  else head (omap (fun base => GetSpotName symbols (coin +:+ base)) base_coins)
         ≫= GetSpotPrice prices.

Definition held (b : SpotBalance) : bool := negb (feqb (ToFloat64 (sb_Total b)) f0).

Definition add_value symbols prices (usd : float64) (b : SpotBalance) : float64 :=
  match coin_value symbols prices (MainnetToAlias (sb_Coin b)) with
  | Some px => fadd usd (fmul (ToFloat64 (sb_Total b)) px)
  | None => usd
  end.

Definition balance_item (b : SpotBalance) : SpotBalanceItem :=
  mkSpotBalanceItem (MainnetToAlias (sb_Coin b)) (sb_Total b) (sb_Hold b) (sb_EntryNtl b).

Lemma add_priced_value symbols prices coin total usd bases :
  add_priced symbols prices coin total usd bases =
  match head (omap (fun base => GetSpotName symbols (coin +:+ base)) bases)
          ≫= GetSpotPrice prices with
  | Some px => fadd usd (fmul total px)
  | None => usd
  end.
Proof.
  induction bases as [|base bases IH]; [done|]. cbn [add_priced omap list_omap].
  by destruct (GetSpotName symbols (coin +:+ base)).
Qed.

Lemma balance_fold_spec symbols prices balances : forall usd items,
  fold_left (balance_step (Some symbols) prices) balances (Ret (usd, items)) =
  Ret (fold_left (add_value symbols prices) (filter held balances) usd,
       items ++ map balance_item (filter held balances)).
Proof.
  induction balances as [|b balances IH]; intros usd items; cbn [fold_left].
  { by rewrite app_nil_r. }
  rewrite filter_cons. unfold balance_step at 2. cbn [mbind outcome_bind].
  destruct (feqb (ToFloat64 (sb_Total b)) f0) eqn:Eb.
  { rewrite decide_False by (unfold held; rewrite Eb; simpl; tauto). apply IH. }
  rewrite decide_True by (unfold held; by rewrite Eb). cbn [fold_left map].
  unfold add_value at 2, coin_value.
  destruct (isStableCoin _); [by rewrite IH, <- app_assoc|].
  by rewrite add_priced_value, IH, <- app_assoc.
Qed.

Lemma spot_balances_spec symbols prices state :
  spot_balances (Some symbols) prices state =
  Ret (fold_left (add_value symbols prices) (filter held (default [] state)) f0,
       map balance_item ∘ filter held <$> state).
Proof.
  destruct state as [balances|]; [|done]. unfold spot_balances. by rewrite balance_fold_spec.
Qed.

(** The price the contexts of a message give a coin, if any: of its last context. *)
Definition latest_price (ctxs : list SpotAssetCtx) (coin : string) : option float64 :=
  (fun ctx => ToFloat64 (default (sac_MarkPx ctx) (sac_MidPx ctx))) <$>
    last (filter (fun ctx => sac_Coin ctx = coin) ctxs).

Lemma set_spot_prices_lookup ctxs : forall prices coin,
  GetSpotPrice (fold_left set_spot_price ctxs prices) coin =
  or_else (latest_price ctxs coin) (GetSpotPrice prices coin).
Proof.
  induction ctxs as [|ctx ctxs IH] using rev_ind; intros prices coin; [done|].
  rewrite fold_left_app. cbn [fold_left]. unfold latest_price, set_spot_price at 1.
  rewrite filter_app, filter_cons, filter_nil. unfold GetSpotPrice, SetSpotPrice at 1.
  cbn [spotCache]. rewrite Map_Load_Store. destruct (decide (sac_Coin ctx = coin)) as [<-|Hc].
  - by rewrite last_snoc.
  - rewrite app_nil_r. apply IH.
Qed.

Lemma default_items state :
  default [] (map balance_item ∘ filter held <$> state) =
  map balance_item (filter held (default [] state)).
Proof. by destruct state. Qed.

(** Every admitted position is found under the symbol of its coin. *)
Lemma position_found symbols positions p coin :
  p ∈ positions -> position_coin symbols (pos_Coin p) = Some coin ->
  exists r, list_find (fun item => pi_Coin item = coin) (omap (position_item symbols) positions)
            = Some r.
Proof.
  intros Hp Hcoin. destruct (list_find _ _) as [r|] eqn:E; [by eexists|]. exfalso.
  apply list_find_None in E. rewrite Forall_forall in E.
  refine (E (mkPositionItem coin _ _ _ _ _ _ _) _ eq_refl).
  apply list_elem_of_omap. exists p. split; [done|]. unfold position_item. by rewrite Hcoin.
Qed.

Lemma Enqueue_position_total now (q : MessageQueue PositionProcessor) msg :
  exists q' err, Enqueue now q msg = Ret (q', err) /\
    (MessageQueue_Size q < mq_cap q -> mq_queue q' = mq_queue q ++ [msg]).
Proof.
  unfold Enqueue. destruct (Z.ltb_spec (MessageQueue_Size q) (mq_cap q)).
  - eexists _, _. by split.
  - destruct msg as [a F d|a o s d|a D]; cbn [HandleMessage PositionProcessor_HandleMessage].
    + eexists _, _. split; [reflexivity|lia].
    + eexists _, _. split; [reflexivity|lia].
    + destruct (handlePositionUpdate (mq_handler q) a D) as [p err].
      eexists _, _. split; [reflexivity|lia].
Qed.
End facts.

(** C22. An account message with a clearinghouse state: the handler returns; the
    spot prices are those of the message where it has one, of the older ones
    elsewhere; the balance cache stays well formed and holds, for the user,
    the account value of the margin summary, the spot balances and positions
    admitted, and the spot total: the sum over the balances that are not zero
    of the amount times the value of the coin at these prices.  What the cache
    says of other users (account value, spot total, balances, positions) is
    unchanged.  With room in the queue, one row is enqueued for the database:
    the user, the JSON of those balances, that total with six decimals, the
    JSON of those positions, the account value, margin used and notional
    position of the same summary, the amount withdrawable, and the time. *)
Theorem handleWebData2_updates
    `{MapRange} `{Cast} `{SP : SubscriptionPool ManagerCallback}
    now (m : PositionManager) wd state symbols :
  pom_symbolCache m = Some symbols ->
  PositionBalanceCache_wf (pom_positionBalanceCache m) ->
  wd_ClearinghouseState wd = Some state ->
  let user := wd_User wd in
  let summary := margin_summary state in
  let balances := filter held (default [] (ss_Balances <$> wd_SpotState wd)) in
  exists m' total row, handleWebData2 now m wd = Ret m' /\
    let c := pom_positionBalanceCache m' in
    let prices := pom_priceCache m' in
    (forall coin, GetSpotPrice prices coin =
       or_else (latest_price (wd_SpotAssetCtxs wd) coin) (GetSpotPrice (pom_priceCache m) coin)) /\
    total = fold_left (add_value symbols prices) balances f0 /\
    (forall coin, GetSpotBalance c user coin =
       Ret ((fun i => ToFloat64 (sbi_Total i.2)) <$>
              list_find (fun item => sbi_Coin item = coin) (map balance_item balances))) /\
    PositionBalanceCache_wf c /\
    GetSpotTotal c user = Some total /\
    GetAccountValue c user = Some (ToFloat64 (ms_AccountValue summary)) /\
    (forall coin, GetFuturesPosition c user coin =
       Ret ((fun i => ToFloat64 (pi_Szi i.2)) <$>
              list_find (fun item => pi_Coin item = coin)
                (omap (position_item (Some symbols)) (map ap_Position (ch_AssetPositions state))))) /\
    (forall p coin, p ∈ map ap_Position (ch_AssetPositions state) ->
       position_coin (Some symbols) (pos_Coin p) = Some coin ->
       exists size, GetFuturesPosition c user coin = Ret (Some size)) /\
    (forall a, a <> user ->
       GetAccountValue c a = GetAccountValue (pom_positionBalanceCache m) a /\
       GetSpotTotal c a = GetSpotTotal (pom_positionBalanceCache m) a /\
       (forall coin, GetSpotBalance c a coin = GetSpotBalance (pom_positionBalanceCache m) a coin) /\
       (forall coin, GetFuturesPosition c a coin =
                     GetFuturesPosition (pom_positionBalanceCache m) a coin)) /\
    (pc_Address row = user /\ pc_SpotTotalUSD row = format_f 6 total /\
     pc_SpotBalances row =
       json_slice SpotBalanceItem_json (map balance_item ∘ filter held <$> (ss_Balances <$> wd_SpotState wd)) /\
     pc_FuturesPositions row = json_slice PositionItem_json
       (Some (omap (position_item (Some symbols)) (map ap_Position (ch_AssetPositions state)))) /\
     pc_AccountValue row = ms_AccountValue summary /\
     pc_TotalMarginUsed row = ms_TotalMarginUsed summary /\
     pc_TotalNtlPos row = ms_TotalNtlPos summary /\
     pc_Withdrawable row = ch_Withdrawable state /\ pc_UpdatedAt row = now) /\
    (MessageQueue_Size (pom_messageQueue m) < mq_cap (pom_messageQueue m) ->
     mq_queue (pom_messageQueue m') =
       mq_queue (pom_messageQueue m) ++ [NewPositionCacheMessage user row]).
Proof.
  intros Hsym Hwf Hst user summary balances. unfold handleWebData2, processPositionCache.
  set (m1 := pom_with_prices m _). change (pom_symbolCache m1) with (pom_symbolCache m).
  rewrite Hsym, Hst, spot_balances_spec. cbn [mbind outcome_bind]. fold user summary balances.
  set (total := fold_left _ balances f0).
  set (positions := omap (position_item (Some symbols)) (map ap_Position (ch_AssetPositions state))).
  match goal with |- context [NewPositionCacheMessage user ?r] => set (row := r) end.
  destruct (Enqueue_position_total now (pom_messageQueue m1) (NewPositionCacheMessage user row))
    as (q & err & -> & Hq).
  cbn [mbind outcome_bind]. eexists _, total, row. split; [reflexivity|]. cbn zeta.
  rewrite default_items. fold balances.
  cbn [pom_positionBalanceCache pom_with_balances pom_messageQueue pom_priceCache].
  split; [intros coin; apply set_spot_prices_lookup|]. split; [reflexivity|].
  split; [intros coin; apply GetSpotBalance_Set|].
  split; [by apply PositionBalanceCache_Set_wf|].
  rewrite GetSpotTotal_Set, GetAccountValue_Set, !decide_True by done.
  split; [done|]. split; [done|]. split; [intros coin; apply GetFuturesPosition_Set|].
  split; [|split; [|by split]].
  - intros p coin Hp Hcoin. destruct (position_found _ _ _ _ Hp Hcoin) as [r Hr].
    simpl default. rewrite GetFuturesPosition_Set. fold positions in Hr. rewrite Hr. by eexists.
  - intros a Ha. rewrite GetSpotTotal_Set, GetAccountValue_Set, !decide_False by done.
    split; [done|]. split; [done|].
    by split; intros coin; [apply GetSpotBalance_Set_other|apply GetFuturesPosition_Set_other].
Qed.

(** An account message without a clearinghouse state panics: the handler
    reads the state's margin summary before it checks the pointer. *)
Theorem handleWebData2_panics_without_state
    `{MapRange} `{Cast} `{SP : SubscriptionPool ManagerCallback} now (m : PositionManager) wd :
  wd_ClearinghouseState wd = None -> handleWebData2 now m wd = Panic.
Proof.
  intros Hst. unfold handleWebData2, processPositionCache. rewrite Hst.
  by destruct (spot_balances _ _ _) as [[t items]|].
Qed.

(** ** Witnesses *)

#[local] Existing Instance listing_order.
#[local] Existing Instance reference_cast.
#[local] Instance sample_pool_instance : SubscriptionPool ManagerCallback :=
  PoolManager_SubscriptionPool nil_error (fun _ => nil_error).

Definition sample_position_manager : PositionManager :=
  NewPositionManager None NewPriceCache
    (Some (SetSpotSymbol (SetPerpSymbol NewSymbolCache "BTC" "BTCUSDC") "@142" "BTCUSDC"))
    (Some (NewBatchWriter None)).

Definition sample_state : ClearinghouseState :=
  mkClearinghouseState (Some (mkMarginSummary "1000" "10" "20" "0")) None "5" "500"
    [mkAssetPosition (mkPosition "BTC" (Some "90") (mkLeverage "cross" 3 None) None "10" "20" "0"
       "-2" "1") "oneWay"] 1700.

Definition sample_webdata : WebData2 :=
  mkWebData2 (Some sample_state) "0xab"
    (Some (mkSpotState [mkSpotBalance "UBTC" 197 "0" "2" "100"; mkSpotBalance "USDC" 0 "0" "50" "0"]))
    [mkSpotAssetCtx "1" "2" "99" (Some "100") "98" "21" "@142" "21"].

Example sample_total :
  match handleWebData2 Second sample_position_manager sample_webdata with
  | Ret m => GetSpotTotal (pom_positionBalanceCache m) "0xab"
  | Panic => None end = Some (float64_of_Z 250).
Proof. vm_compute. reflexivity. Qed.

Lemma handleWebData2_updates_witness :
  exists m', handleWebData2 Second sample_position_manager sample_webdata = Ret m' /\
    GetAccountValue (pom_positionBalanceCache m') "0xab" = Some (ToFloat64 "1000").
Proof.
  destruct (handleWebData2_updates Second sample_position_manager sample_webdata sample_state _
    eq_refl NewPositionBalanceCache_wf eq_refl) as (m' & total & row & Hr & _ & _ & _ & _ & _ & Ha & _).
  exists m'. split; [exact Hr|exact Ha].
Defined.

Lemma handleWebData2_panics_without_state_witness :
  handleWebData2 Second sample_position_manager (mkWebData2 None "0xab" None []) = Panic.
Proof. apply handleWebData2_panics_without_state. reflexivity. Defined.
