(* ===== verification/AddressLoader.v ===== *)
(** * internal/address/loader.go

    The loader reads the active addresses from the database at intervals and
    tells the subscribers which addresses to subscribe and, after a grace
    period, to unsubscribe.  What the database returned is an argument; the
    result is the state with the calls made, in order (a subscriber's error is
    logged only). *)

From Stdlib Require Import ZArith Lia.
From stdpp Require Import gmap strings list.
From S2P Require Import Prelude.
Local Open Scope Z_scope.

(** [dao.ActiveAddress().ListDistinctAddresses()] *)
Inductive db_answer : Type :=
| DbRows (addresses : list string)
| DbRecordNotFound
| DbError (err : string).

(** A call on the subscriber of that index. *)
Inductive sub_call : Type :=
| CallSubscribe (subscriber : nat) (addr : string)
| CallUnsubscribe (subscriber : nat) (addr : string).

#[export] Instance sub_call_eq_dec : EqDecision sub_call.
Proof. solve_decision. Defined.

Section loader.
Context `{MapRange}.

Record AddressLoader := mkAddressLoader {
  al_subscribers : nat;                   (* how many *)
  al_interval : Z;
  al_removeGrace : Z;
  al_lastAddrs : gmap string bool;
  al_pendingRemove : gmap string Z;       (* when the address was first missing *)
}.

Definition NewAddressLoader (subscribers : nat) (interval removeGrace : Z) : AddressLoader :=
  mkAddressLoader subscribers interval removeGrace ∅ ∅.

(** [m[addr]] of a [map[string]bool]. *)
Definition listed (m : gmap string bool) (addr : string) : bool := default false (m !! addr).

Definition address_set (addresses : list string) : gmap string bool :=
  fold_left (fun result addr => <[addr := true]> result) addresses ∅.

Definition loadActiveAddresses (answer : db_answer) : gmap string bool + string :=
  match answer with
  | DbRows addresses => inl (address_set addresses)
  | DbRecordNotFound => inl ∅
  | DbError err => inr err
  end.

(** The three loops over maps: additions and recoveries, disappearances, and
    expired graces. *)
Definition add_step (last : gmap string bool) (s : list string * gmap string Z)
    (entry : string * bool) : list string * gmap string Z :=
  let '(toAdd, pending) := s in
  let addr := entry.1 in
  (if listed last addr then toAdd else toAdd ++ [addr], delete addr pending).

Definition missing_step (now : Z) (addrs : gmap string bool) (pending : gmap string Z)
    (entry : string * bool) : gmap string Z :=
  let addr := entry.1 in
  if listed addrs addr then pending
  else match pending !! addr with Some _ => pending | None => <[addr := now]> pending end.

Definition expire_step (now grace : Z) (s : list string * gmap string Z)
    (entry : string * Z) : list string * gmap string Z :=
  let '(toUnsubscribe, pending) := s in
  let '(addr, since) := entry in
  if grace <=? now - since then (toUnsubscribe ++ [addr], delete addr pending) else s.

Definition sync_state (now : Z) (l : AddressLoader) (addrs : gmap string bool)
    : AddressLoader * list string * list string :=
  let '(toAdd, pending) :=
    fold_left (add_step (al_lastAddrs l)) (go_range addrs) ([], al_pendingRemove l) in
  let pending := fold_left (missing_step now addrs) (go_range (al_lastAddrs l)) pending in
  let '(toUnsubscribe, pending) :=
    fold_left (expire_step now (al_removeGrace l)) (go_range pending) ([], pending) in
  let lastAddrs :=
    fold_left (fun last (entry : string * Z) => <[entry.1 := true]> last) (go_range pending) addrs in
  (mkAddressLoader (al_subscribers l) (al_interval l) (al_removeGrace l) lastAddrs pending,
   toAdd, toUnsubscribe).

Definition loadAndSync (now : Z) (l : AddressLoader) (answer : db_answer)
    : AddressLoader * list sub_call * error :=
  match loadActiveAddresses answer with
  | inr err => (l, [], Some err)
  | inl addrs =>
      let '(l', toAdd, toUnsubscribe) := sync_state now l addrs in
      (l',
       concat (map (fun addr => map (fun i => CallSubscribe i addr) (seq 0 (al_subscribers l))) toAdd) ++
       concat (map (fun addr => map (fun i => CallUnsubscribe i addr) (seq 0 (al_subscribers l)))
                 toUnsubscribe), nil_error)
  end.

(** A run of the periodic reload: the answers with their instants. *)
Fixpoint reload (l : AddressLoader) (answers : list (Z * db_answer))
    : AddressLoader * list (Z * list sub_call) :=
  match answers with
  | [] => (l, [])
  | (now, answer) :: answers =>
      let '(l, calls, _) := loadAndSync now l answer in
      let '(l, log) := reload l answers in
      (l, (now, calls) :: log)
  end.

(** ** The goroutine *)

(** [lr_running]: the goroutine of [periodicReload]; [lr_cancelled]: the
    loader's context; [lr_log]: the calls made, with the instants. *)
Record loader_run := mkLoaderRun {
  lr_loader : AddressLoader;
  lr_running : bool;
  lr_cancelled : bool;
  lr_log : list (Z * list sub_call);
}.

Definition new_loader_run (l : AddressLoader) : loader_run := mkLoaderRun l false false [].

Definition AddressLoader_Start (now : Z) (answer : db_answer) (r : loader_run) : loader_run * error :=
  match loadAndSync now (lr_loader r) answer with
  | (l, calls, Some err) => (mkLoaderRun l (lr_running r) (lr_cancelled r) (lr_log r ++ [(now, calls)]), Some err)
  | (l, calls, None) => (mkLoaderRun l true (lr_cancelled r) (lr_log r ++ [(now, calls)]), nil_error)
  end.

Inductive loader_event : Type :=
| LoaderTick (now : Z) (answer : db_answer)
| LoaderLeaves                                     (* ctx.Done() is received *)
| LoaderStop.

Definition loader_exec (r : loader_run) (e : loader_event) : option loader_run :=
  match e with
  | LoaderTick now answer =>
      if lr_running r then
        let '(l, calls, _) := loadAndSync now (lr_loader r) answer in
        Some (mkLoaderRun l true (lr_cancelled r) (lr_log r ++ [(now, calls)]))
      else None
  | LoaderLeaves =>
      if lr_running r && lr_cancelled r
      then Some (mkLoaderRun (lr_loader r) false true (lr_log r)) else None
  | LoaderStop => Some (mkLoaderRun (lr_loader r) (lr_running r) true (lr_log r))
  end.

Definition loader_exec_all (r : loader_run) (evs : list loader_event) : option loader_run :=
  fold_left (fun o e => r ← o; loader_exec r e) evs (Some r).

(** The instants and answers of the ticks. *)
Definition ticks (evs : list loader_event) : list (Z * db_answer) :=
  omap (fun e => match e with LoaderTick now answer => Some (now, answer) | _ => None end) evs.

(** Whether subscriber [i] watches the address, as the calls made say. *)
Definition call_effect (i : nat) (a : string) (watched : bool) (c : sub_call) : bool :=
  match c with
  | CallSubscribe j x => if decide (i = j /\ x = a) then true else watched
  | CallUnsubscribe j x => if decide (i = j /\ x = a) then false else watched
  end.

Definition subscribed (calls : list sub_call) (i : nat) (a : string) : bool :=
  fold_left (call_effect i a) calls false.

Definition answer_lists (answer : db_answer) (a : string) : Prop :=
  match answer with DbRows addresses => a ∈ addresses | _ => False end.

Definition answer_ok (answer : db_answer) : Prop :=
  match answer with DbError _ => False | _ => True end.

(** The database, read at [t], did not list the address, nor did any later
    answer of the history. *)
Definition absent_since (hist : list (Z * db_answer)) (t : Z) (a : string) : Prop :=
  exists before answer after,
    hist = before ++ (t, answer) :: after /\ answer_ok answer /\ ~ answer_lists answer a /\
    Forall (fun e => ~ answer_lists e.2 a) after.

(** ** Runs of the goroutine *)

Lemma reload_snoc l answers now answer :
  reload l (answers ++ [(now, answer)]) =
  let '(l', log) := reload l answers in
  let '(l'', calls, _) := loadAndSync now l' answer in
  (l'', log ++ [(now, calls)]).
Proof.
  revert l. induction answers as [|[now0 answer0] answers IH]; intros l; cbn [reload app].
  { by destruct (loadAndSync now l answer) as [[l' calls] err]. }
  destruct (loadAndSync now0 l answer0) as [[l' calls] err]. rewrite IH.
  destruct (reload l' answers) as [l1 log]. by destruct (loadAndSync now l1 answer) as [[l2 calls2] err2].
Qed.

(** What the goroutine does is [reload] over the answers of its ticks, whenever
    [Stop] is called; after it has left, nothing is called any more. *)
Lemma loader_run_reloads evs : forall l r, loader_exec_all (mkLoaderRun l true false []) evs = Some r ->
  (lr_loader r, lr_log r) = reload l (ticks evs).
Proof.
  induction evs as [|e evs IH] using rev_ind; intros l r; unfold loader_exec_all, ticks.
  { by intros [= <-]. }
  rewrite fold_left_app_snoc, omap_app.
  change (fold_left _ evs _) with (loader_exec_all (mkLoaderRun l true false []) evs).
  destruct (loader_exec_all _ evs) as [r0|] eqn:E; [|done]. cbn [mbind option_bind].
  specialize (IH l r0 E). destruct e as [now answer| |]; cbn [loader_exec omap list_omap]; rewrite ?app_nil_r.
  - destruct (lr_running r0); [|done]. rewrite reload_snoc. unfold ticks in IH. rewrite <- IH.
    destruct (loadAndSync now (lr_loader r0) answer) as [[l' calls] err]. by intros [= <-].
  - destruct (_ && _); [|done]. by intros [= <-].
  - by intros [= <-].
Qed.

Lemma loader_left r evs r' : lr_running r = false -> loader_exec_all r evs = Some r' ->
  lr_log r' = lr_log r /\ lr_loader r' = lr_loader r.
Proof.
  intros Hr. enough (H0 : forall r', loader_exec_all r evs = Some r' ->
    lr_running r' = false /\ lr_log r' = lr_log r /\ lr_loader r' = lr_loader r) by by intros (_ & ? & ?)%H0.
  induction evs as [|e evs IH] using rev_ind; intros r1; unfold loader_exec_all; [by intros [= <-]|].
  rewrite fold_left_app_snoc. change (fold_left _ evs _) with (loader_exec_all r evs).
  destruct (loader_exec_all r evs) as [r0|]; [|done]. destruct (IH r0 eq_refl) as (Hr0 & Hl & Ha).
  destruct e; simpl; rewrite ?Hr0; [done|done|]. by intros [= <-].
Qed.

(** ** One synchronisation *)

Lemma address_set_listed addresses a : listed (address_set addresses) a = true <-> a ∈ addresses.
Proof.
  unfold address_set, listed.
  assert (forall m : gmap string bool, (forall x, m !! x <> Some false) ->
    default false (fold_left (fun result addr => <[addr := true]> result) addresses m !! a) = true
    <-> a ∈ addresses \/ m !! a = Some true) as Hm.
  { induction addresses as [|x xs IH]; intros m Hf; simpl.
    - destruct (m !! a) as [[]|] eqn:E; simpl; set_solver.
    - rewrite IH.
      + rewrite lookup_insert_Some. destruct (decide (x = a)); set_solver.
      + intros y. rewrite lookup_insert_Some. intros [[_ ?]|[_ Hy]]; [done|]. by apply (Hf y). }
  rewrite Hm by (intros x; by rewrite lookup_empty). rewrite lookup_empty. naive_solver.
Qed.

Lemma add_fold last entries : forall toAdd pending,
  let '(toAdd', pending') := fold_left (add_step last) entries (toAdd, pending) in
  toAdd' = toAdd ++ filter (fun a => listed last a = false) entries.*1 /\
  forall a, pending' !! a = if decide (a ∈ entries.*1) then None else pending !! a.
Proof.
  induction entries as [|[x b] entries IH]; intros toAdd pending.
  { split; [by rewrite app_nil_r|]. intros a.
    by destruct (decide (a ∈ _)) as [[]%not_elem_of_nil|]. }
  cbn [fold_left add_step fst].
  specialize (IH (if listed last x then toAdd else toAdd ++ [x]) (delete x pending)).
  destruct (fold_left _ entries _) as [toAdd' pending']. destruct IH as [-> IH]. csimpl. split.
  - rewrite filter_cons. destruct (decide (listed last x = false)) as [Ex|Ex].
    + by rewrite Ex, <- app_assoc.
    + by apply not_false_is_true in Ex as ->.
  - intros a. rewrite IH, lookup_delete.
    destruct (decide (x = a)) as [->|Hx].
    + rewrite (decide_True (P := a ∈ a :: entries.*1)) by left. by case_decide.
    + destruct (decide (a ∈ entries.*1)); [by rewrite decide_True by (by right)|].
      rewrite decide_False; [done|]. by intros [->|?]%elem_of_cons.
Qed.

Lemma missing_fold now addrs entries : forall pending a,
  fold_left (missing_step now addrs) entries pending !! a =
  or_else (pending !! a)
    (if decide (a ∈ entries.*1 /\ listed addrs a = false) then Some now else None).
Proof.
  induction entries as [|[x b] entries IH]; intros pending a; cbn [fold_left].
  { rewrite decide_False by set_solver. by destruct (pending !! a). }
  rewrite IH. unfold missing_step. csimpl.
  destruct (listed addrs x) eqn:Ex; [|destruct (pending !! x) eqn:Ep].
  - f_equal. destruct (decide (x = a)) as [->|Hx].
    + by rewrite !decide_False by (rewrite Ex; naive_solver).
    + repeat case_decide; set_solver.
  - destruct (decide (x = a)) as [->|Hx]; [by rewrite Ep|].
    f_equal. repeat case_decide; set_solver.
  - destruct (decide (x = a)) as [->|Hx].
    + rewrite lookup_insert_eq, Ep. simpl. rewrite decide_True; [done|]. split; [left|done].
    + rewrite lookup_insert_ne by done. f_equal. repeat case_decide; set_solver.
Qed.

Lemma expire_fold now grace entries : forall out pending,
  let '(out', pending') := fold_left (expire_step now grace) entries (out, pending) in
  let expired := (filter (fun e => grace <= now - e.2) entries).*1 in
  out' = out ++ expired /\
  forall a, pending' !! a = if decide (a ∈ expired) then None else pending !! a.
Proof.
  induction entries as [|[x since] entries IH]; intros out pending.
  { split; [by rewrite app_nil_r|]. intros a.
    by destruct (decide (a ∈ _)) as [[]%not_elem_of_nil|]. }
  cbn [fold_left expire_step]. rewrite filter_cons. cbn [snd].
  destruct (Z.leb_spec grace (now - since)) as [Hle|Hgt].
  - rewrite decide_True by done. specialize (IH (out ++ [x]) (delete x pending)).
    destruct (fold_left _ entries _) as [out' pending']. destruct IH as [-> IH]. csimpl.
    rewrite <- app_assoc. split; [done|]. intros a. rewrite IH, lookup_delete.
    destruct (decide (x = a)) as [->|Hx].
    + rewrite (decide_True (P := a ∈ a :: _)) by left. by case_decide.
    + destruct (decide (a ∈ (filter (fun e => grace <= now - e.2) entries).*1));
        [by rewrite decide_True by (by right)|].
      rewrite decide_False; [done|]. by intros [->|?]%elem_of_cons.
  - rewrite decide_False by lia. apply IH.
Qed.

Lemma mark_fold entries : forall (last : gmap string bool) a,
  listed (fold_left (fun last (entry : string * Z) => <[entry.1 := true]> last) entries last) a =
  bool_decide (a ∈ entries.*1) || listed last a.
Proof.
  induction entries as [|[x s] entries IH]; intros last a; cbn [fold_left].
  { rewrite bool_decide_false; [done|]. apply not_elem_of_nil. }
  rewrite IH. csimpl. unfold listed at 1. rewrite lookup_insert.
  destruct (decide (x = a)) as [->|Hx].
  - rewrite (bool_decide_eq_true_2 (a ∈ a :: _)) by left. by rewrite orb_true_r.
  - f_equal. apply bool_decide_ext. set_solver.
Qed.

Lemma mark_all_true entries : forall (last : gmap string bool),
  (forall a, last !! a <> Some false) -> forall a,
  fold_left (fun last (entry : string * Z) => <[entry.1 := true]> last) entries last !! a <> Some false.
Proof.
  induction entries as [|[x s] entries IH]; intros last Hl; cbn [fold_left]; [done|].
  apply IH. intros a. rewrite lookup_insert. case_decide; [done|apply Hl].
Qed.

Lemma elem_of_go_range_fst {V} (m : gmap string V) a : a ∈ (go_range m).*1 <-> is_Some (m !! a).
Proof.
  rewrite list_elem_of_fmap. split.
  - intros ([k v] & -> & Hk%elem_of_go_range). by exists v.
  - intros [v Hv]. exists (a, v). split; [done|]. by apply elem_of_go_range.
Qed.

(** A map whose entries are all [true], as the loader's are. *)
Definition all_true (m : gmap string bool) : Prop := forall a, m !! a <> Some false.

Lemma all_true_listed m a : all_true m -> is_Some (m !! a) <-> listed m a = true.
Proof.
  intros Hm. unfold listed. specialize (Hm a). destruct (m !! a) as [[]|]; simpl; naive_solver.
Qed.

Lemma address_set_all_true addresses : all_true (address_set addresses).
Proof.
  unfold address_set.
  assert (forall m : gmap string bool, all_true m ->
    all_true (fold_left (fun result addr => <[addr := true]> result) addresses m)) as Hm.
  { induction addresses as [|x xs IH]; intros m Hm; [exact Hm|]. apply IH. intros y.
    rewrite lookup_insert. case_decide; [discriminate|apply Hm]. }
  apply Hm. intros y. by rewrite lookup_empty.
Qed.

(** The loader's state between synchronisations. *)
Definition loader_ok (l : AddressLoader) : Prop :=
  all_true (al_lastAddrs l) /\
  forall a, is_Some (al_pendingRemove l !! a) -> listed (al_lastAddrs l) a = true.

(** Since when an address is missing, as the synchronisation sees it. *)
Definition missing_since (now : Z) (l : AddressLoader) (addrs : gmap string bool) (a : string)
    : option Z :=
  if listed addrs a then None
  else or_else (al_pendingRemove l !! a)
         (if listed (al_lastAddrs l) a then Some now else None).

(** The addresses on their way out, after the loop over the last ones. *)
Lemma missing_after now l addrs p1 a : all_true (al_lastAddrs l) -> all_true addrs ->
  (forall b, p1 !! b = if decide (b ∈ (go_range addrs).*1) then None else al_pendingRemove l !! b) ->
  fold_left (missing_step now addrs) (go_range (al_lastAddrs l)) p1 !! a = missing_since now l addrs a.
Proof.
  intros Htrue Haddrs Hp1. unfold missing_since. rewrite missing_fold, Hp1.
  assert (forall m : gmap string bool, all_true m ->
    a ∈ (go_range m).*1 <-> listed m a = true) as Hin.
  { intros m Hm. by rewrite elem_of_go_range_fst, all_true_listed. }
  destruct (decide (a ∈ (go_range addrs).*1)) as [Ha|Ha].
  - apply Hin in Ha as ->; [|done]. simpl. by rewrite decide_False by (by intros [_ ?]).
  - rewrite (Hin addrs), not_true_iff_false in Ha by done. rewrite Ha. f_equal.
    destruct (decide (a ∈ (go_range (al_lastAddrs l)).*1 /\ false = false)) as [[Hl _]|Hl].
    + apply Hin in Hl as ->; done.
    + rewrite (Hin (al_lastAddrs l)) in Hl by done.
      destruct (listed (al_lastAddrs l) a); [naive_solver|done].
Qed.

(** Those whose grace period is over. *)
Lemma expired_elem now grace (pending : gmap string Z) a :
  a ∈ (filter (fun e => grace <= now - e.2) (go_range pending)).*1 <->
  exists since, pending !! a = Some since /\ grace <= now - since.
Proof.
  rewrite list_elem_of_fmap. split.
  - intros ([k s] & -> & [Hg Hk%elem_of_go_range]%list_elem_of_filter). by exists s.
  - intros (s & Hs & Hg). exists (a, s). split; [done|]. apply list_elem_of_filter.
    split; [done|]. by apply elem_of_go_range.
Qed.

Lemma sync_state_spec now l addrs :
  loader_ok l -> all_true addrs ->
  let '(l', toAdd, toUnsubscribe) := sync_state now l addrs in
  loader_ok l' /\ al_removeGrace l' = al_removeGrace l /\ al_subscribers l' = al_subscribers l /\
  NoDup toAdd /\ NoDup toUnsubscribe /\
  (forall a, a ∈ toAdd <-> listed addrs a = true /\ listed (al_lastAddrs l) a = false) /\
  (forall a, a ∈ toUnsubscribe <->
     exists since, missing_since now l addrs a = Some since /\ al_removeGrace l <= now - since) /\
  (forall a, al_pendingRemove l' !! a =
     match missing_since now l addrs a with
     | Some since => if decide (al_removeGrace l <= now - since) then None else Some since
     | None => None end) /\
  (forall a, listed (al_lastAddrs l') a = listed addrs a || bool_decide (is_Some (al_pendingRemove l' !! a))).
Proof.
  intros [Htrue Hpend] Haddrs. unfold sync_state.
  pose proof (add_fold (al_lastAddrs l) (go_range addrs) [] (al_pendingRemove l)) as Hadd.
  destruct (fold_left (add_step _) _ _) as [toAdd p1]. destruct Hadd as [-> Hp1].
  set (p2 := fold_left (missing_step now addrs) (go_range (al_lastAddrs l)) p1).
  pose proof (expire_fold now (al_removeGrace l) (go_range p2) [] p2) as Hexp.
  destruct (fold_left (expire_step _ _) _ _) as [toUn p3]. destruct Hexp as [-> Hp3].
  assert (forall a, p2 !! a = missing_since now l addrs a) as Hp2.
  { intros a. by apply missing_after. }
  assert (forall a, a ∈ (filter (fun e => al_removeGrace l <= now - e.2) (go_range p2)).*1 <->
    exists since, missing_since now l addrs a = Some since /\ al_removeGrace l <= now - since) as Hun.
  { intros a. rewrite expired_elem. by setoid_rewrite Hp2. }
  assert (forall a, p3 !! a =
     match missing_since now l addrs a with
     | Some since => if decide (al_removeGrace l <= now - since) then None else Some since
     | None => None end) as Hp3'.
  { intros a. rewrite Hp3, Hp2.
    destruct (decide (a ∈ _)) as [(s & Hs & Hg)%Hun|Hin].
    - rewrite Hs. destruct (decide (al_removeGrace l <= now - s)); done.
    - destruct (missing_since now l addrs a) as [s|] eqn:Es; [|done]. rewrite decide_False; [done|].
      intros Hg. apply Hin, Hun. by exists s. }
  assert (forall a, a ∈ (go_range p3).*1 <-> is_Some (p3 !! a)) as Hr
    by (intros a; apply elem_of_go_range_fst).
  simpl. split_and!; try done.
  - split; simpl; [exact (mark_all_true _ _ Haddrs)|]. intros a Ha. rewrite mark_fold.
    by rewrite bool_decide_eq_true_2 by by apply Hr.
  - apply NoDup_filter, NoDup_fst_go_range.
  - eapply sublist_NoDup; [apply (NoDup_fst_go_range p2)|]. apply fmap_sublist, sublist_filter.
  - intros a. rewrite list_elem_of_filter, elem_of_go_range_fst, all_true_listed by done. tauto.
  - intros a. rewrite mark_fold, orb_comm. f_equal. by apply bool_decide_ext.
Qed.

(** ** The calls of one synchronisation *)

Lemma subscribe_row i a x js watched :
  fold_left (call_effect i a) (map (fun j => CallSubscribe j x) js) watched =
  if decide (i ∈ js /\ x = a) then true else watched.
Proof.
  revert watched. induction js as [|j js IH]; intros watched; cbn [map fold_left].
  { by destruct (decide _) as [[[]%not_elem_of_nil _]|]. }
  rewrite IH. simpl call_effect.
  repeat case_decide; try done; set_solver.
Qed.

Lemma unsubscribe_row i a x js watched :
  fold_left (call_effect i a) (map (fun j => CallUnsubscribe j x) js) watched =
  if decide (i ∈ js /\ x = a) then false else watched.
Proof.
  revert watched. induction js as [|j js IH]; intros watched; cbn [map fold_left].
  { by destruct (decide _) as [[[]%not_elem_of_nil _]|]. }
  rewrite IH. simpl call_effect.
  repeat case_decide; try done; set_solver.
Qed.

Lemma subscribe_all n i a xs watched : (i < n)%nat ->
  fold_left (call_effect i a)
    (concat (map (fun addr => map (fun j => CallSubscribe j addr) (seq 0 n)) xs)) watched =
  bool_decide (a ∈ xs) || watched.
Proof.
  intros Hi. revert watched. induction xs as [|x xs IH]; intros watched; cbn [map concat].
  { rewrite bool_decide_eq_false_2; [done|]. apply not_elem_of_nil. }
  rewrite fold_left_app, subscribe_row, IH.
  assert (i ∈ seq 0 n) by (apply elem_of_seq; lia).
  destruct (decide (i ∈ seq 0 n /\ x = a)) as [[_ ->]|Hx].
  - by rewrite (bool_decide_eq_true_2 (a ∈ a :: xs)), orb_true_r by left.
  - f_equal. apply bool_decide_ext. set_solver.
Qed.

Lemma unsubscribe_all n i a xs watched : (i < n)%nat ->
  fold_left (call_effect i a)
    (concat (map (fun addr => map (fun j => CallUnsubscribe j addr) (seq 0 n)) xs)) watched =
  negb (bool_decide (a ∈ xs)) && watched.
Proof.
  intros Hi. revert watched. induction xs as [|x xs IH]; intros watched; cbn [map concat].
  { rewrite bool_decide_eq_false_2; [done|]. apply not_elem_of_nil. }
  rewrite fold_left_app, unsubscribe_row, IH.
  assert (i ∈ seq 0 n) by (apply elem_of_seq; lia).
  destruct (decide (i ∈ seq 0 n /\ x = a)) as [[_ ->]|Hx].
  - by rewrite (bool_decide_eq_true_2 (a ∈ a :: xs)), andb_false_r by left.
  - f_equal. f_equal. apply bool_decide_ext. set_solver.
Qed.

Lemma elem_of_subscribe_all n i a xs :
  (CallSubscribe i a ∈ concat (map (fun addr => map (fun j => CallSubscribe j addr) (seq 0 n)) xs) <->
   (i < n)%nat /\ a ∈ xs) /\
  CallSubscribe i a ∉ concat (map (fun addr => map (fun j => CallUnsubscribe j addr) (seq 0 n)) xs).
Proof.
  rewrite !(list_elem_of_In (A := sub_call)), !in_concat. setoid_rewrite in_map_iff.
  split; [split|].
  - intros (ys & (x & <- & Hx) & (j & [= -> ->] & Hj)%in_map_iff).
    apply in_seq in Hj. split; [lia|]. by rewrite list_elem_of_In.
  - intros [Hi Ha%list_elem_of_In]. eexists. split; [exists a; split; [reflexivity|done]|].
    apply in_map_iff. exists i. split; [done|]. apply in_seq. lia.
  - intros (ys & (x & <- & Hx) & (j & [=] & Hj)%in_map_iff).
Qed.

Lemma elem_of_unsubscribe_all n i a xs :
  (CallUnsubscribe i a ∈ concat (map (fun addr => map (fun j => CallUnsubscribe j addr) (seq 0 n)) xs) <->
   (i < n)%nat /\ a ∈ xs) /\
  CallUnsubscribe i a ∉ concat (map (fun addr => map (fun j => CallSubscribe j addr) (seq 0 n)) xs).
Proof.
  rewrite !(list_elem_of_In (A := sub_call)), !in_concat. setoid_rewrite in_map_iff.
  split; [split|].
  - intros (ys & (x & <- & Hx) & (j & [= -> ->] & Hj)%in_map_iff).
    apply in_seq in Hj. split; [lia|]. by rewrite list_elem_of_In.
  - intros [Hi Ha%list_elem_of_In]. eexists. split; [exists a; split; [reflexivity|done]|].
    apply in_map_iff. exists i. split; [done|]. apply in_seq. lia.
  - intros (ys & (x & <- & Hx) & (j & [=] & Hj)%in_map_iff).
Qed.
(** ** Runs of the periodic reload *)

Lemma absent_since_grow hist t a e :
  absent_since hist t a -> ~ answer_lists e.2 a -> absent_since (hist ++ [e]) t a.
Proof.
  intros (before & answer & after & -> & Hok & Hno & Hall) He.
  exists before, answer, (after ++ [e]). split; [by rewrite <- app_assoc|].
  split; [done|]. split; [done|]. apply Forall_app. split; [done|]. by constructor.
Qed.

Lemma absent_since_now hist t a answer :
  answer_ok answer -> ~ answer_lists answer a -> absent_since (hist ++ [(t, answer)]) t a.
Proof. intros Hok Hno. by exists hist, answer, []. Qed.

Record run_inv (n : nat) (grace : Z) (hist : list (Z * db_answer)) (log : list sub_call)
    (l : AddressLoader) : Prop := {
  ri_ok : loader_ok l;
  ri_subscribers : al_subscribers l = n;
  ri_grace : al_removeGrace l = grace;
  ri_watched : forall i a, (i < n)%nat -> subscribed log i a = listed (al_lastAddrs l) a;
  ri_absent : forall a since, al_pendingRemove l !! a = Some since -> absent_since hist since a;
}.

(** What the calls of one reload may be, after the calls of [log]. *)
Definition calls_justified (n : nat) (grace : Z) (hist : list (Z * db_answer)) (now : Z)
    (answer : db_answer) (log calls : list sub_call) : Prop :=
  forall i a,
    (CallSubscribe i a ∈ calls -> answer_lists answer a /\ subscribed log i a = false) /\
    (CallUnsubscribe i a ∈ calls -> subscribed log i a = true /\
       exists t0, absent_since (hist ++ [(now, answer)]) t0 a /\ grace <= now - t0).

Lemma loadActiveAddresses_listed answer addrs :
  loadActiveAddresses answer = inl addrs ->
  answer_ok answer /\ all_true addrs /\ forall a, listed addrs a = true <-> answer_lists answer a.
Proof.
  destruct answer as [addresses| |err]; intros [= <-]; (split; [exact I|]).
  - split; [apply address_set_all_true|]. intros a. apply address_set_listed.
  - split; [intros a; by rewrite lookup_empty|]. intros a. unfold listed. by rewrite lookup_empty.
Qed.

(** An address on its way out was listed once, and not since then. *)
Lemma missing_since_absent n grace hist log l now answer addrs a since :
  run_inv n grace hist log l -> answer_ok answer ->
  (forall b, listed addrs b = true <-> answer_lists answer b) ->
  missing_since now l addrs a = Some since ->
  listed addrs a = false /\ listed (al_lastAddrs l) a = true /\
  absent_since (hist ++ [(now, answer)]) since a.
Proof.
  intros [Hok _ _ _ Habs] Haok Hl. unfold missing_since. destruct (listed addrs a) eqn:Ea; [done|].
  assert (~ answer_lists answer a) as Hno by (rewrite <- Hl, Ea; done).
  destruct (al_pendingRemove l !! a) as [s|] eqn:Ep.
  - intros [= <-]. split; [done|]. split; [apply Hok; by exists s|].
    apply absent_since_grow; [by apply Habs|done].
  - simpl. destruct (listed (al_lastAddrs l) a) eqn:Ela; [|done]. intros [= <-].
    split; [done|]. split; [done|]. by apply absent_since_now.
Qed.

Lemma loadAndSync_step n grace hist log l now answer :
  run_inv n grace hist log l ->
  let '(l', calls, _) := loadAndSync now l answer in
  run_inv n grace (hist ++ [(now, answer)]) (log ++ calls) l' /\
  calls_justified n grace hist now answer log calls.
Proof.
  intros Hinv. pose proof Hinv as [Hok Hn Hg Hw Habs]. unfold loadAndSync.
  destruct (loadActiveAddresses answer) as [addrs|err] eqn:El.
  2:{ destruct answer; try discriminate El. rewrite app_nil_r. split; [split; try done|].
      - intros a since Ha%Habs. apply absent_since_grow; [done|]. intros [].
      - intros i a. split; intros []%not_elem_of_nil. }
  apply loadActiveAddresses_listed in El as (Haok & Haddrs & Hl).
  pose proof (sync_state_spec now l addrs Hok Haddrs) as Hs.
  destruct (sync_state now l addrs) as [[l' toAdd] toUn]. rewrite Hn.
  destruct Hs as (Hok' & Hg' & Hn' & _ & _ & Hadd & Hun & Hpend & Hlast).
  assert (forall a since, missing_since now l addrs a = Some since ->
    listed addrs a = false /\ listed (al_lastAddrs l) a = true /\
    absent_since (hist ++ [(now, answer)]) since a) as Hms.
  { intros a since. by apply (missing_since_absent n grace hist log). }
  split; [split; try congruence; try done|].
  - intros i a Hi. unfold subscribed.
    rewrite !fold_left_app, unsubscribe_all, subscribe_all by done. fold (subscribed log i a).
    rewrite Hw, Hlast by done.
    destruct (bool_decide_reflect (a ∈ toAdd)) as [[Ha1 Ha2]%Hadd|Hna];
      destruct (bool_decide_reflect (a ∈ toUn)) as [(s & Hs & Hgs)%Hun|Hnu]; simpl.
    + apply Hms in Hs as (? & _). congruence.
    + by rewrite Ha1.
    + apply Hms in Hs as Hs'. destruct Hs' as (-> & _ & _).
      rewrite bool_decide_eq_false_2; [done|]. rewrite Hpend, Hs, decide_True by done. by intros [].
    + assert (~ (listed addrs a = true /\ listed (al_lastAddrs l) a = false)) as Hna'
        by (by rewrite <- Hadd).
      rewrite Hpend. unfold missing_since in *. destruct (listed addrs a) eqn:Ea.
      { by destruct (listed (al_lastAddrs l) a); [|naive_solver]. }
      destruct (al_pendingRemove l !! a) as [s|] eqn:Ep; simpl.
      * destruct Hok as [_ Hpl]. rewrite (Hpl a) by (by exists s).
        rewrite decide_False; [done|]. intros Hgs. apply Hnu, Hun. exists s. by rewrite Ea, Ep.
      * destruct (listed (al_lastAddrs l) a) eqn:Ela; [|done].
        rewrite decide_False; [done|]. intros Hgs. apply Hnu, Hun. exists now. by rewrite Ea, Ep, Ela.
  - intros a since. rewrite Hpend. destruct (missing_since now l addrs a) as [s|] eqn:Es; [|done].
    case_decide; [done|]. intros [= <-]. by apply Hms.
  - intros i a. rewrite !elem_of_app. split.
    + intros [[Hi [Ha1 Ha2]%Hadd]%elem_of_subscribe_all|[]%elem_of_subscribe_all].
      rewrite Hw by done. split; [by apply Hl|done].
    + intros [[]%elem_of_unsubscribe_all|[Hi (s & Hs & Hgs)%Hun]%elem_of_unsubscribe_all].
      apply Hms in Hs as (_ & Hla & Hab). rewrite Hw by done.
      split; [done|]. exists s. split; [done|lia].
Qed.

Lemma reload_inv n grace : forall answers hist log0 l,
  run_inv n grace hist log0 l ->
  let '(l', log) := reload l answers in
  run_inv n grace (hist ++ answers) (log0 ++ concat log.*2) l' /\
  forall k now calls, log !! k = Some (now, calls) ->
    exists answer, answers !! k = Some (now, answer) /\
      calls_justified n grace (hist ++ take k answers) now answer
        (log0 ++ concat (take k log).*2) calls.
Proof.
  induction answers as [|[now answer] answers IH]; intros hist log0 l Hinv; cbn [reload].
  { rewrite !app_nil_r. split; [done|]. intros k now calls Hk. by rewrite lookup_nil in Hk. }
  pose proof (loadAndSync_step n grace hist log0 l now answer Hinv) as Hstep.
  destruct (loadAndSync now l answer) as [[l1 calls] err]. destruct Hstep as [Hinv1 Hj].
  specialize (IH _ _ _ Hinv1). destruct (reload l1 answers) as [l' log].
  destruct IH as [IH1 IH2]. csimpl. split.
  - by rewrite <- !app_assoc in IH1.
  - intros [|k] now' calls' Hk; simpl in Hk |- *.
    + injection Hk as <- <-. exists answer. by rewrite !app_nil_r.
    + destruct (IH2 k now' calls' Hk) as (answer' & Ha & Hc). exists answer'. split; [done|].
      by rewrite <- !app_assoc in Hc.
Qed.

(** C16. Over any sequence of periodic reloads (the database answering with
    rows, with "record not found" or with an error), the loader subscribes an
    address only when the database lists it and no subscription is in force,
    unsubscribes it only when it is subscribed and every answer read during
    at least the grace period failed to list it, and its [lastAddrs] is at
    all times the set of addresses every subscriber was told to watch. *)
Theorem reload_grace n interval grace answers :
  let '(l, log) := reload (NewAddressLoader n interval grace) answers in
  (forall i a, (i < n)%nat -> subscribed (concat log.*2) i a = listed (al_lastAddrs l) a) /\
  forall k now calls, log !! k = Some (now, calls) ->
    exists answer, answers !! k = Some (now, answer) /\
      calls_justified n grace (take k answers) now answer (concat (take k log).*2) calls.
Proof.
  assert (run_inv n grace [] [] (NewAddressLoader n interval grace)) as Hinv.
  { split; try done. split; intros a; simpl; [by rewrite lookup_empty|].
    rewrite lookup_empty. by intros []. }
  pose proof (reload_inv n grace answers _ _ _ Hinv) as Hr.
  destruct (reload _ answers) as [l log]. destruct Hr as [Hr1 Hr2].
  split; [apply Hr1|exact Hr2].
Qed.
End loader.

(** Two subscribers, a grace of 600 s and reloads every 300 s: ["b"]
    disappears, the database fails once, ["b"] is unsubscribed 600 s after the
    first answer without it. *)
Definition sample_answers : list (Z * db_answer) :=
  [(0, DbRows ["a"; "b"]%string); (300, DbRows ["a"]%string); (600, DbError "timeout");
   (900, DbRows ["a"]%string)].

Lemma reload_grace_witness :
  let '(l, log) := reload (H := listing_order) (NewAddressLoader 2 300 600) sample_answers in
  log !! 3%nat = Some (900, [CallUnsubscribe 0 "b"; CallUnsubscribe 1 "b"]) /\
  listed (al_lastAddrs l) "b" = false /\ listed (al_lastAddrs l) "a" = true /\
  exists t0, absent_since sample_answers t0 "b" /\ 600 <= 900 - t0.
Proof.
  pose proof (reload_grace (H := listing_order) 2 300 600 sample_answers) as Hr.
  destruct (reload (H := listing_order) (NewAddressLoader 2 300 600) sample_answers) as [l log] eqn:E.
  vm_compute in E. injection E as <- <-. destruct Hr as [_ Hr].
  split; [reflexivity|]. split; [reflexivity|]. split; [reflexivity|].
  destruct (Hr 3%nat 900 _ eq_refl) as (answer & [= <-] & Hj).
  destruct (Hj 0%nat "b"%string) as [_ Hun]. apply Hun. left.
Defined.
