(* ===== verification/NetworkPool.v ===== *)
(** * The pool on a network, and the callbacks it holds

    A pool whose network answers each request anew (a script of answers), as an
    instance of the managers' interface; and the invariance, under every
    operation of internal/ws/pool_manager.go, of a property of the registered
    callbacks. *)

From Stdlib Require Import ZArith Lia.
From stdpp Require Import gmap strings list.
From S2P Require Import Prelude GoStrings WsPool.
Local Open Scope Z_scope.

(** What the network answers while one request of the pool runs. *)
Record network := mkNetwork {
  net_dial : error;
  net_write : WsCommand -> error;
}.

(** The answers that are left when a script ends: none gets through. *)
Definition network_down : network :=
  mkNetwork (Some "dial: network is unreachable") (fun _ => Some "write: broken pipe").

Definition next_network (script : list network) : network * list network :=
  match script with [] => (network_down, []) | n :: script => (n, script) end.

(** ** Properties of the callbacks *)
Section holds.
Context {Callback : Type} `{MapRange} (P : Callback -> Prop).
Implicit Types pm : PoolManager Callback.

Definition pool_holds pm : Prop :=
  forall key info id cb, pm_subscriptions pm !! key = Some info ->
    info_callbacks info !! id = Some cb -> P cb.

Lemma pool_holds_callbacks pm pm' :
  (forall key, info_callbacks <$> pm_subscriptions pm' !! key =
               info_callbacks <$> pm_subscriptions pm !! key) ->
  pool_holds pm -> pool_holds pm'.
Proof.
  intros E Hp key info' id cb Hi Hc. specialize (E key). rewrite Hi in E. simpl in E.
  destruct (pm_subscriptions pm !! key) as [info|] eqn:Ei; [|done].
  apply (Hp key info id cb Ei). simpl in E. congruence.
Qed.

Lemma pool_holds_elem pm key cb :
  pool_holds pm -> cb ∈ getCallbacksByKey pm key -> P cb.
Proof.
  unfold getCallbacksByKey. intros Hp. destruct (pm_subscriptions pm !! key) as [info|] eqn:Ei;
    [|by intros ?%not_elem_of_nil].
  intros ([id cb'] & -> & Hin%elem_of_go_range)%list_elem_of_fmap. by eapply Hp.
Qed.

Lemma broadcast_holds pm channel :
  pool_holds pm -> Forall P (broadcastToChannel pm channel).
Proof.
  intros Hp. apply Forall_forall. intros cb Hin. unfold broadcastToChannel in Hin.
  apply list_elem_of_In, in_concat in Hin as (part & Hpart & Hcb).
  apply in_map_iff in Hpart as ([key info] & <- & Hk%list_elem_of_In%elem_of_go_range).
  destruct (has_prefix _ _); [|done]. apply list_elem_of_In, list_elem_of_fmap in Hcb
    as ([id cb'] & -> & Hin%elem_of_go_range). by eapply Hp.
Qed.

(** The callbacks a message is given to are registered ones. *)
Lemma Dispatch_holds gjson_user pm msg :
  pool_holds pm -> Forall P (Dispatch gjson_user pm msg).
Proof.
  intros Hp.
  assert (forall key, Forall P (dispatchToKey pm key)) as Hk.
  { intros key. apply Forall_forall. intros cb. by apply pool_holds_elem. }
  unfold Dispatch, dispatchWebData2, dispatchUserFills, dispatchGeneric.
  repeat case_decide; by auto using broadcast_holds.
Qed.

Lemma Subscribe_holds dial net pm sub cb pm' r :
  pool_ok pm -> 0 < pm_maxConnections pm -> pool_holds pm -> P cb ->
  PoolManager_Subscribe dial net pm sub cb = Ret (pm', r) -> pool_holds pm'.
Proof.
  intros Hok Hmax Hp Hcb Hs.
  pose proof (Subscribe_post dial net pm sub cb Hok Hmax) as Hpost. rewrite Hs in Hpost.
  destruct Hpost as [_ Hr]. destruct r as [h|err].
  - destruct Hr as (_ & (info & Hi & Hh & Ho) & Hother). intros key info' id cb' Hi' Hc'.
    destruct (decide (key = Subscription_Key sub)) as [->|Hk].
    + rewrite Hi in Hi'. injection Hi' as <-.
      destruct (decide (id = sh_id h)) as [->|Hid]; [congruence|].
      rewrite (Ho id Hid) in Hc'. apply bind_Some in Hc' as (old & Hold & Hc').
      by eapply Hp.
    + rewrite Hother in Hi' by done. by eapply Hp.
  - eapply pool_holds_callbacks, Hp. intros key. by rewrite Hr.
Qed.

Lemma unsubscribe_holds net pm sh pm' :
  pool_ok pm -> pool_holds pm -> Handle_Unsubscribe net pm sh = Ret pm' -> pool_holds pm'.
Proof.
  intros Hok Hp Hu. destruct (unsubscribe_drops_every_callback net pm sh Hok)
    as (pm1 & E & _ & Hnone & Hother). rewrite Hu in E. injection E as <-.
  intros key info id cb Hi Hc. destruct (decide (key = sh_key sh)) as [->|Hk].
  - assert (cb ∈ getCallbacksByKey pm' (sh_key sh)) as Hin.
    { unfold getCallbacksByKey. rewrite Hi. apply list_elem_of_fmap. exists (id, cb).
      split; [done|]. by apply elem_of_go_range. }
    rewrite Hnone in Hin. by apply not_elem_of_nil in Hin.
  - rewrite Hother in Hi by done. by eapply Hp.
Qed.

Lemma repair_maxConnections dial net snapshot : forall pm i,
  pm_maxConnections (repair_loop dial net pm i snapshot).1 = pm_maxConnections pm.
Proof.
  induction snapshot as [|cw snapshot IH]; intros pm i; cbn [repair_loop]; [done|].
  assert (pm_maxConnections (repair_at dial net pm i cw).1 = pm_maxConnections pm) as E.
  { unfold repair_at. destruct (IsConnectedAt pm cw); [done|]. destruct (dial i); [done|].
    cbn [fst]. unfold migrateAndResubscribe. destruct (_ !! cw); [|done].
    apply (fold_left_inv (fun q => pm_maxConnections q = pm_maxConnections pm)); [done|].
    intros q k _ <-. unfold migrate_key. destruct (pm_subscriptions q !! k); [|done].
    by case_decide. }
  destruct (repair_at dial net pm i cw) as [pm1 [err|]]; [done|]. by rewrite IH.
Qed.

(** A turn of the reconnect loop, whether or not it succeeds. *)
Lemma reconnect_attempt_holds net dial pm :
  pool_ok pm -> pool_holds pm ->
  let pm' := (reconnect_attempt net dial pm).1 in
  pool_ok pm' /\ pool_holds pm' /\ pm_maxConnections pm' = pm_maxConnections pm.
Proof.
  intros Hok Hp. unfold reconnect_attempt.
  destruct (repair_loop_keeps dial net (pm_connections pm) pm [] Hok eq_refl) as (Hok1 & _ & Hc).
  pose proof (repair_maxConnections dial net (pm_connections pm) pm 0) as Hm.
  change (repair_loop dial net pm (length []) (pm_connections pm))
    with (repairConnections dial net pm) in *.
  change (repair_loop dial net pm 0 (pm_connections pm))
    with (repairConnections dial net pm) in Hm.
  destruct (repairConnections dial net pm) as [pm1 [err|]]; simpl in *;
    (split; [by eapply pool_ok_ext, Hok1|]); (split; [by apply (pool_holds_callbacks pm)|done]).
Qed.
End holds.

(** ** The pool with a script of answers *)
Section scripted.
Context {Callback : Type} `{MapRange}.

Definition scripted_pool : Type := PoolManager Callback * list network.

Definition Scripted_Subscribe (p : scripted_pool) (sub : Subscription) (cb : Callback)
    : outcome (scripted_pool * (SubscriptionHandle + string)) :=
  let '(pm, script) := p in
  let '(n, script) := next_network script in
  '(pm, r) ← PoolManager_Subscribe (net_dial n) (net_write n) pm sub cb;
  Ret ((pm, script), r).

Definition Scripted_Unsubscribe (p : scripted_pool) (h : SubscriptionHandle)
    : outcome scripted_pool :=
  let '(pm, script) := p in
  let '(n, script) := next_network script in
  pm ← Handle_Unsubscribe (net_write n) pm h;
  Ret (pm, script).

(** It keeps the interface's promises, whatever the answers. *)
#[export] Program Instance Scripted_SubscriptionPool : SubscriptionPool Callback := {|
  pool_t := scripted_pool;
  pool_handle := SubscriptionHandle;
  pool_Subscribe := Scripted_Subscribe;
  pool_Unsubscribe := Scripted_Unsubscribe;
  pool_callbacks p := getCallbacksByKey p.1;
  pool_handle_key := sh_key;
  pool_wf p := pool_ok p.1 /\ 0 < pm_maxConnections p.1;
|}.
Next Obligation.
  intros [pm script] sub cb Hp. unfold Scripted_Subscribe.
  destruct (next_network script) as [n rest].
  destruct (@pool_Subscribe_spec _ (PoolManager_SubscriptionPool (net_dial n) (net_write n))
    pm sub cb Hp) as (pm' & r & E & Hrest). simpl in E. rewrite E.
  by exists (pm', rest), r.
Qed.
Next Obligation.
  intros [pm script] h Hp. unfold Scripted_Unsubscribe.
  destruct (next_network script) as [n rest].
  destruct (@pool_Unsubscribe_spec _ (PoolManager_SubscriptionPool (net_dial n) (net_write n))
    pm h Hp) as (pm' & E & Hrest). simpl in E. rewrite E.
  by exists (pm', rest).
Qed.

(** What a scripted pool keeps: it is well formed and its callbacks satisfy [P]. *)
Definition scripted_ok (P : Callback -> Prop) (p : scripted_pool) : Prop :=
  pool_ok p.1 /\ 0 < pm_maxConnections p.1 /\ pool_holds P p.1.

Lemma Scripted_Subscribe_ok P p sub cb :
  scripted_ok P p -> P cb ->
  returns (Scripted_Subscribe p sub cb) (fun r => scripted_ok P r.1).
Proof.
  intros (Hok & Hmax & Hp) Hcb.
  destruct (@pool_Subscribe_spec _ Scripted_SubscriptionPool p sub cb) as (p' & r & E & [Hok' Hmax'] & _); [done|].
  exists (p', r). split; [exact E|]. split; [done|]. split; [done|]. simpl in *.
  destruct p as [pm script]. unfold Scripted_Subscribe in E.
  destruct (next_network script) as [n rest].
  destruct (PoolManager_Subscribe _ _ _ _ _) as [[pm' r']|] eqn:Es; [|done].
  injection E as <- <-. exact (Subscribe_holds P _ _ pm sub cb pm' r' Hok Hmax Hp Hcb Es).
Qed.

Lemma Scripted_Unsubscribe_ok P p h :
  scripted_ok P p -> returns (Scripted_Unsubscribe p h) (scripted_ok P).
Proof.
  intros (Hok & Hmax & Hp).
  destruct (@pool_Unsubscribe_spec _ Scripted_SubscriptionPool p h) as (p' & E & [Hok' Hmax'] & _); [done|].
  exists p'. split; [exact E|]. split; [done|]. split; [done|]. simpl in *.
  destruct p as [pm script]. unfold Scripted_Unsubscribe in E.
  destruct (next_network script) as [n rest].
  destruct (Handle_Unsubscribe _ _ _) as [pm'|] eqn:Eu; [|done].
  injection E as <-. exact (unsubscribe_holds P _ pm h pm' Hok Hp Eu).
Qed.

(** A connection that is lost, and a turn of the reconnect loop. *)
Lemma lost_connection_ok P pm script l :
  scripted_ok P (pm, script) ->
  scripted_ok P (with_conns pm (pm_connections pm) (alter Client_Close l (pm_heap pm)), script).
Proof. intros (Hok & Hmax & Hp). split; [by apply close_conn_ok|]. by split. Qed.

Lemma reconnect_attempt_ok P pm script net dial :
  scripted_ok P (pm, script) ->
  scripted_ok P ((reconnect_attempt net dial pm).1, script).
Proof.
  intros (Hok & Hmax & Hp).
  destruct (reconnect_attempt_holds P net dial pm Hok Hp) as (H1 & H2 & H3).
  split; [done|]. split; [|done]. simpl in *. by rewrite H3.
Qed.

Lemma with_backoff_ok P pm script b :
  scripted_ok P (pm, script) -> scripted_ok P (with_backoff pm b, script).
Proof. intros (Hok & Hmax & Hp). split; [by eapply pool_ok_ext, Hok|]. by split. Qed.
End scripted.
Arguments scripted_pool Callback : clear implicits.
