(* ===== verification/Service.v ===== *)
(** * cmd/hl_monitor/main.go: the running service

    The managers as [main] connects them, and the steps of their goroutines.
    [main] gives the same pool, batch writer, symbol cache and balance cache to
    both managers: a component that runs leaves the shared objects in its own
    record, and [share_subs] and [share_positions] let the other one see them.
    The dispatcher's workers run the callbacks of a message as tasks, in any
    order; the flushes of orders run one at a time. *)

From Stdlib Require Import ZArith Lia Ascii.
From stdpp Require Import gmap strings list.
From S2P Require Import Prelude Float64 GoStrings Models ConcurrentMap GoCache Caches MarketCaches.
From S2P Require Import BatchWriter Messages OrderProcessor OrderRuns WsPool SubscriptionManager.
From S2P Require Import SdkTypes SymbolLoader PositionManager AddressLoader NetworkPool.
Local Open Scope Z_scope.

Section service.
Context `{MapRange} `{Cast} `{GS : GoCache string} `{DD : DedupCacheInterface}.

(** Parsing: [gjson.Get(data, "user")] and [json.Unmarshal] of the payloads. *)
Context (gjson_user : string -> string).
Context (Unmarshal_fills : string -> WsOrderFills + string).
Context (Unmarshal_orders : string -> list WsOrder + string).
Context (Unmarshal_webdata2 : string -> WebData2 + string).

Record Service := mkService {
  sv_subs : SubscriptionManager (SP := Scripted_SubscriptionPool);
  sv_positions : PositionManager (SP := Scripted_SubscriptionPool);
  sv_loader : AddressLoader;
  sv_tasks : list (ManagerCallback * WsMessage);   (* submitted to the dispatcher's workers *)
  sv_writes : list Upsert;                         (* what the batch writer wrote *)
}.

Definition sv_processor (s : Service) : OrderProcessor := mq_handler (sm_messageQueue (sv_subs s)).

(** [main] once the pool is started and the symbols are loaded. *)
Definition NewService (pool : scripted_pool ManagerCallback) (symbolCache : SymbolCache)
    (batchWriter : BatchWriter) (pairCategoryCache : PairCategoryCache) (deduper : dd_t)
    (reloadInterval removeGrace : Z) : Service :=
  let posManager := NewPositionManager (Some pool) NewPriceCache (Some symbolCache)
                      (Some batchWriter) in
  let positionBalanceCache := pom_positionBalanceCache posManager in
  let subManager := NewSubscriptionManager (Some pool) symbolCache (Some positionBalanceCache)
                      pairCategoryCache (Some batchWriter) deduper in
  mkService subManager posManager (NewAddressLoader 2 reloadInterval removeGrace) [] [].

(** ** The shared objects *)

Definition with_handler (m : SubscriptionManager (SP := Scripted_SubscriptionPool))
    (p : OrderProcessor) : SubscriptionManager (SP := Scripted_SubscriptionPool) :=
  with_queue m (SetHandler (sm_messageQueue m) p).

Definition share_subs (s : Service) (m : SubscriptionManager) : Service :=
  let pm := sv_positions s in
  let pm := pom_with_subs pm (sm_poolManager m) (pom_addresses pm) (pom_subs pm) in
  let writer := op_batchWriter (mq_handler (sm_messageQueue m)) in
  let queue := SetHandler (pom_messageQueue pm) (mkPositionProcessor writer) in
  mkService m (pom_with_balances pm (pom_positionBalanceCache pm) queue)
    (sv_loader s) (sv_tasks s) (sv_writes s).

Definition share_positions (s : Service) (pm : PositionManager) : Service :=
  let m := with_pool (sv_subs s) (pom_poolManager pm) (sm_subs (sv_subs s)) in
  let p := with_balances (mq_handler (sm_messageQueue m)) (Some (pom_positionBalanceCache pm)) in
  let p := with_batchWriter p (pp_batchWriter (mq_handler (pom_messageQueue pm))) in
  mkService (with_handler m p) pm (sv_loader s) (sv_tasks s) (sv_writes s).

Definition with_processor (s : Service) (p : OrderProcessor) : Service :=
  share_subs s (with_handler (sv_subs s) p).

Definition with_tasks (s : Service) tasks : Service :=
  mkService (sv_subs s) (sv_positions s) (sv_loader s) tasks (sv_writes s).

(** What the program means by sharing: both managers hold the same objects. *)
Definition shared (s : Service) : Prop :=
  pom_poolManager (sv_positions s) = sm_poolManager (sv_subs s) /\
  op_positionBalanceCache (sv_processor s) = Some (pom_positionBalanceCache (sv_positions s)) /\
  pp_batchWriter (mq_handler (pom_messageQueue (sv_positions s))) =
    op_batchWriter (sv_processor s) /\
  pom_symbolCache (sv_positions s) = Some (op_symbolCache (sv_processor s)).

(** ** Steps *)

(** A call of the address loader: subscriber 0 is the subscription manager,
    1 the position manager; their errors are logged only. *)
Definition loader_call (o : outcome Service) (c : sub_call) : outcome Service :=
  s ← o;
  match c with
  | CallSubscribe 0 addr => '(m, _) ← SubscribeAddress (sv_subs s) addr; Ret (share_subs s m)
  | CallSubscribe _ addr =>
      '(pm, _) ← pom_SubscribeAddress (sv_positions s) addr; Ret (share_positions s pm)
  | CallUnsubscribe 0 addr => '(m, _) ← UnsubscribeAddress (sv_subs s) addr; Ret (share_subs s m)
  | CallUnsubscribe _ addr =>
      '(pm, _) ← pom_UnsubscribeAddress (sv_positions s) addr; Ret (share_positions s pm)
  end.

Definition reload_step (now : Z) (s : Service) (answer : db_answer) : outcome Service :=
  let '(loader, calls, _) := loadAndSync now (sv_loader s) answer in
  fold_left loader_call calls
    (Ret (mkService (sv_subs s) (sv_positions s) loader (sv_tasks s) (sv_writes s))).

(** A message read from a connection: its callbacks become tasks. *)
Definition receive_step (s : Service) (msg : WsMessage) : Service :=
  match sm_poolManager (sv_subs s) with
  | None => s
  | Some (pm, _) =>
      with_tasks s (sv_tasks s ++ map (fun cb => (cb, msg)) (Dispatch gjson_user pm msg))
  end.

Definition run_task (now : Z) (s : Service) (cb : ManagerCallback) (msg : WsMessage)
    : outcome Service :=
  match cb with
  | OnWebData2 addr =>
      pm ← OnWebData2_callback Unmarshal_webdata2 now (sv_positions s) addr msg;
      Ret (share_positions s pm)
  | _ =>
      m ← run_callback Unmarshal_fills Unmarshal_orders now (sv_subs s) cb msg;
      Ret (share_subs s m)
  end.

(** A step on the pool alone. *)
Definition pool_step (f : PoolManager ManagerCallback -> PoolManager ManagerCallback)
    (s : Service) : Service :=
  let m := sv_subs s in
  share_subs s (with_pool m ((fun '(pm, script) => (f pm, script)) <$> sm_poolManager m)
                  (sm_subs m)).

(** One turn of [handleDisconnect]. *)
Definition disconnect_turn (net : WsCommand -> error) (dial : nat -> error)
    (pm : PoolManager ManagerCallback) : PoolManager ManagerCallback :=
  let pm := if decide (pm_reconnectBackoff pm = 0) then with_backoff pm initialBackoff else pm in
  (reconnect_attempt net dial pm).1.

(** A step of the batch writer's goroutines. *)
Definition writer_step (f : BatchWriter -> BatchWriter * list Upsert) (s : Service) : Service :=
  match op_batchWriter (sv_processor s) with
  | None => s
  | Some w =>
      let '(w, log) := f w in
      let s := with_processor s (with_batchWriter (sv_processor s) (Some w)) in
      mkService (sv_subs s) (sv_positions s) (sv_loader s) (sv_tasks s) (sv_writes s ++ log)
  end.

(** The periodic reloads of the symbol and the category caches. *)
Definition with_symbols (s : Service) (c : SymbolCache) : Service :=
  let p := sv_processor s in
  let p := mkOrderProcessor (op_pendingOrders p) (op_heap p) (op_batchWriter p) (op_deduper p) c
    (op_positionBalanceCache p) (op_pairCategoryCache p) (op_timeout p) (op_flushChan p)
    (op_statusTracker p) (op_published p) (op_rows p) in
  let pm := sv_positions s in
  let pm := mkPositionManager (pom_poolManager pm) (pom_addresses pm) (pom_subs pm)
    (pom_priceCache pm) (Some c) (pom_positionBalanceCache pm) (pom_messageQueue pm)
    (pom_messagesReceived pm) (pom_messagesFiltered pm) in
  mkService (with_handler (sv_subs s) p) pm (sv_loader s) (sv_tasks s) (sv_writes s).

Definition with_pairs (s : Service) (c : PairCategoryCache) : Service :=
  let p := sv_processor s in
  with_processor s (mkOrderProcessor (op_pendingOrders p) (op_heap p) (op_batchWriter p)
    (op_deduper p) (op_symbolCache p) (op_positionBalanceCache p) c (op_timeout p)
    (op_flushChan p) (op_statusTracker p) (op_published p) (op_rows p)).

Inductive sv_event : Type :=
| SvReload (answer : db_answer)              (* the address loader's timer *)
| SvReceive (msg : WsMessage)                (* a connection's reader *)
| SvTask (i : nat)                           (* a dispatcher worker runs the i-th task *)
| SvWork                                     (* the worker of the order queue *)
| SvPositionWork                             (* the worker of the position queue *)
| SvFlush (publish : HlAddressSignal -> error)
| SvScan
| SvDrop (l : loc)                           (* a connection is lost *)
| SvReconnect (net : WsCommand -> error) (dial : nat -> error)
| SvStore (dao : DaoCall -> error)           (* the batch writer receives an item *)
| SvTick (dao : DaoCall -> error)            (* its ticker *)
| SvSymbols (spotMeta : SpotMeta + string) (perpMeta : list Meta + string)
| SvPairs (ListAll : list PairConfig + string).

Definition sv_exec (now : Z) (s : Service) (e : sv_event) : outcome Service :=
  match e with
  | SvReload answer => reload_step now s answer
  | SvReceive msg => Ret (receive_step s msg)
  | SvTask i =>
      match sv_tasks s !! i with
      | None => Ret s
      | Some (cb, msg) => run_task now (with_tasks s (delete i (sv_tasks s))) cb msg
      end
  | SvWork =>
      q ← worker now (sm_messageQueue (sv_subs s)); Ret (share_subs s (with_queue (sv_subs s) q))
  | SvPositionWork =>
      q ← worker now (pom_messageQueue (sv_positions s));
      Ret (share_positions s (pom_with_balances (sv_positions s)
             (pom_positionBalanceCache (sv_positions s)) q))
  | SvFlush publish =>
      p ← flushProcessor now publish (sv_processor s); Ret (with_processor s p)
  | SvScan => Ret (with_processor s (scanTimeoutOrders now (sv_processor s)))
  | SvDrop l =>
      Ret (pool_step (fun pm => with_conns pm (pm_connections pm)
                                  (alter Client_Close l (pm_heap pm))) s)
  | SvReconnect net dial => Ret (pool_step (disconnect_turn net dial) s)
  | SvStore dao => Ret (writer_step (receive dao) s)
  | SvTick dao => Ret (writer_step (flushAll dao) s)
  | SvSymbols spotMeta perpMeta =>
      '(c, _) ← loadMeta (op_symbolCache (sv_processor s)) spotMeta perpMeta;
      Ret (with_symbols s c)
  | SvPairs ListAll =>
      Ret (with_pairs s (PairCategoryCache_Load (op_pairCategoryCache (sv_processor s)) ListAll).1)
  end.

Fixpoint sv_run (s : Service) (evs : list (Z * sv_event)) : outcome Service :=
  match evs with
  | [] => Ret s
  | (now, e) :: evs => s ← sv_exec now s e; sv_run s evs
  end.
End service.

(** ** The invariant *)
Section invariant.
Context `{MapRange} `{Cast} `{GS : GoCache string} `{DD : DedupCacheInterface}.
Context (gjson_user : string -> string).
Context (Unmarshal_fills : string -> WsOrderFills + string).
Context (Unmarshal_orders : string -> list WsOrder + string).
Context (Unmarshal_webdata2 : string -> WebData2 + string).
Context (watched : string -> Prop) (watched_free : forall a, watched a -> dash_free a).
Context (t_end : Z).

Abbreviation manager := (SubscriptionManager (SP := Scripted_SubscriptionPool)).
Abbreviation positions := (PositionManager (SP := Scripted_SubscriptionPool)).

Definition callback_ok (cb : ManagerCallback) : Prop :=
  match cb with OnUserFills a | OnOrderUpdates a | OnWebData2 a => watched a end.

(** An account message of the exchange has a clearinghouse state. *)
Definition message_complete (msg : WsMessage) : Prop :=
  forall wd, Unmarshal_webdata2 (msg_Data msg) = inl wd -> is_Some (wd_ClearinghouseState wd).

Definition pool_part (pool : option (scripted_pool ManagerCallback)) : Prop :=
  forall p, pool = Some p -> scripted_ok callback_ok p.

(** The order processor at an instant, with the caches [mk] it reads. *)
Definition processor_ok now mk (p : OrderProcessor) : Prop :=
  op_ok watched p /\ sent_ok watched t_end now p /\ op_market p = mk.

Definition subs_ok now mk (m : manager) : Prop :=
  pool_part (sm_poolManager m) /\ Forall (message_ok watched) (mq_queue (sm_messageQueue m)) /\
  processor_ok now mk (mq_handler (sm_messageQueue m)).

(** *** The order side *)
Section orders.
Context (now : Z) (mk : option PositionBalanceCache * SymbolCache * PairCategoryCache).
Hypothesis (Hnow : now <= t_end).

Lemma HandleMessage_keeps p msg :
  processor_ok now mk p -> message_ok watched msg ->
  returns (HandleMessage now p msg) (fun r => processor_ok now mk r.1).
Proof using watched_free Hnow.
  intros (Hok & Hs & Hmk) Hmsg.
  destruct (HandleMessage_ok watched now p msg Hok Hmsg) as (p' & err & -> & Hg).
  apply returns_ret. split; [apply Hg|]. split; [by eapply sent_ok_grows|].
  simpl. by destruct Hg as (_ & -> & _).
Qed.

Lemma sm_Enqueue_keeps m msg :
  subs_ok now mk m -> message_ok watched msg -> returns (sm_Enqueue now m msg) (subs_ok now mk).
Proof using watched_free Hnow.
  intros (Hpool & Hq & Hp) Hmsg. unfold sm_Enqueue, Enqueue. case_match.
  - apply returns_ret. split; [done|]. split; [|done]. simpl. by apply Forall_app_2; [|constructor].
  - destruct (HandleMessage_keeps _ msg Hp Hmsg) as ([p' err] & -> & Hp').
    apply returns_ret. by split.
Qed.

Lemma with_oids_keeps m oids : subs_ok now mk m -> subs_ok now mk (with_oids m oids).
Proof. done. Qed.

Lemma handleWsOrderFills_keeps m orders :
  subs_ok now mk m -> watched (fills_User orders) ->
  returns (handleWsOrderFills now m orders) (subs_ok now mk).
Proof using watched_free Hnow.
  intros Hm Hw. unfold handleWsOrderFills. apply returns_fold_left; [|done].
  intros m1 [oid fills] _ Hm1. unfold send_order. cbn [mbind outcome_bind].
  apply returns_fold_left; [|done]. intros m2 [dir fs] _ Hm2. unfold send_direction.
  apply returns_fold_left; [|done]. intros m3 fill _ Hm3. unfold send_fill.
  cbn [mbind outcome_bind]. destruct (sm_IsSeen _ _ _ _ _); [by apply returns_ret|].
  by apply sm_Enqueue_keeps.
Qed.

Lemma handleWsOrderUpdates_keeps m user orders :
  subs_ok now mk m -> returns (handleWsOrderUpdates now m user orders) (subs_ok now mk).
Proof using watched_free Hnow.
  intros Hm. unfold handleWsOrderUpdates. apply returns_fold_left; [|done].
  intros m1 o _ Hm1. unfold send_update. cbn [mbind outcome_bind].
  repeat (case_match || case_decide); try by apply returns_ret.
  all: eapply returns_bind; [by apply sm_Enqueue_keeps|intros m2 Hm2; by apply returns_ret].
Qed.

Lemma run_callback_keeps m cb msg :
  subs_ok now mk m -> callback_ok cb ->
  returns (run_callback Unmarshal_fills Unmarshal_orders now m cb msg) (subs_ok now mk).
Proof using watched_free Hnow.
  intros Hm Hcb. unfold run_callback. destruct cb as [a|a|a]; [| |by apply returns_ret].
  - destruct (Unmarshal_fills _) as [fills|]; [|by apply returns_ret].
    case_decide as Ha; [by apply returns_ret|]. subst a.
    by apply handleWsOrderFills_keeps.
  - destruct (Unmarshal_orders _) as [orders|]; [|by apply returns_ret].
    by apply handleWsOrderUpdates_keeps.
Qed.

Lemma worker_keeps m :
  subs_ok now mk m ->
  returns (worker now (sm_messageQueue m)) (fun q => subs_ok now mk (with_queue m q)).
Proof using watched_free Hnow.
  intros (Hpool & Hq & Hp). unfold worker. destruct (mq_queue _) as [|msg rest] eqn:Eq.
  - apply returns_ret. split; [done|]. simpl. by rewrite Eq.
  - inversion Hq as [|? ? Hmsg Hrest]; subst.
    destruct (HandleMessage_keeps _ msg Hp Hmsg) as ([p' err] & -> & Hp').
    by apply returns_ret.
Qed.
End orders.

(** *** Subscribing *)

Lemma pool_part_None : pool_part None.
Proof. by intros p Hp. Qed.

Lemma pool_part_Some p : scripted_ok callback_ok p -> pool_part (Some p).
Proof. by intros ? p' [= <-]. Qed.

Lemma with_pool_keeps now mk m pool subs :
  subs_ok now mk m -> pool_part pool -> subs_ok now mk (with_pool m pool subs).
Proof. by intros (_ & Hq & Hp) Hpool. Qed.

Lemma subscribeAddress_keeps now mk m addr :
  subs_ok now mk m -> watched addr ->
  returns (subscribeAddress m addr) (fun r => subs_ok now mk r.1).
Proof.
  intros Hm Ha. unfold subscribeAddress.
  destruct (sm_poolManager m) as [pool|] eqn:Ep; [|by apply returns_ret].
  eapply returns_bind; [apply (Scripted_Subscribe_ok callback_ok); [by apply Hm|done]|].
  intros [p1 [h1|err]] Hp1; [|by apply returns_ret, with_pool_keeps, pool_part_Some].
  eapply returns_bind; [apply (Scripted_Subscribe_ok callback_ok); [exact Hp1|done]|].
  intros [p2 [h2|err]] Hp2; [apply returns_ret, with_pool_keeps, pool_part_Some; done|].
  eapply returns_bind; [by apply (Scripted_Unsubscribe_ok callback_ok)|].
  intros p3 Hp3. apply returns_ret, with_pool_keeps, pool_part_Some; done.
Qed.

Lemma SubscribeAddress_keeps now mk m addr :
  subs_ok now mk m -> watched addr ->
  returns (SubscribeAddress m addr) (fun r => subs_ok now mk r.1).
Proof.
  intros Hm Ha. unfold SubscribeAddress. destruct (Map_LoadOrStore _ _ _) as [addresses [u []]];
    [by apply returns_ret|by apply subscribeAddress_keeps].
Qed.

Lemma drop_handle_keeps now mk m key :
  subs_ok now mk m -> returns (drop_handle m key) (subs_ok now mk).
Proof.
  intros Hm. unfold drop_handle. destruct (sm_subs m !! key); [|by apply returns_ret].
  destruct (sm_poolManager m) as [pool|] eqn:Ep; [|by apply returns_ret].
  eapply returns_bind; [apply (Scripted_Unsubscribe_ok callback_ok); by apply Hm|].
  intros pool1 Hp. apply returns_ret, with_pool_keeps, pool_part_Some; done.
Qed.

Lemma UnsubscribeAddress_keeps now mk m addr :
  subs_ok now mk m -> returns (UnsubscribeAddress m addr) (fun r => subs_ok now mk r.1).
Proof.
  intros Hm. unfold UnsubscribeAddress. destruct (Map_LoadAndDelete _ _) as [addresses [u|]];
    [|by apply returns_ret].
  eapply returns_bind; [by apply drop_handle_keeps|]. intros m1 Hm1.
  eapply returns_bind; [by apply drop_handle_keeps|]. intros m2 Hm2. by apply returns_ret.
Qed.

(** *** The position side *)

Definition positions_ok (pm : positions) : Prop :=
  pool_part (pom_poolManager pm) /\ PositionBalanceCache_wf (pom_positionBalanceCache pm) /\
  is_Some (pom_symbolCache pm).

Lemma positions_ok_env pm pm' :
  pom_poolManager pm' = pom_poolManager pm ->
  pom_positionBalanceCache pm' = pom_positionBalanceCache pm ->
  pom_symbolCache pm' = pom_symbolCache pm -> positions_ok pm -> positions_ok pm'.
Proof. unfold positions_ok. by intros -> -> ->. Qed.

Lemma Position_HandleMessage_total now (p : PositionProcessor) msg :
  exists r, HandleMessage now p msg = Ret r.
Proof. destruct msg; by eexists. Qed.

Lemma Position_Enqueue_returns now (q : MessageQueue PositionProcessor) msg :
  returns (Enqueue now q msg) (fun _ => True).
Proof.
  unfold Enqueue. case_match; [by apply returns_ret|].
  destruct (Position_HandleMessage_total now (mq_handler q) msg) as [[h err] ->].
  by apply returns_ret.
Qed.

Lemma Position_worker_returns now (q : MessageQueue PositionProcessor) :
  returns (worker now q) (fun _ => True).
Proof.
  unfold worker. destruct (mq_queue q) as [|msg rest]; [by apply returns_ret|].
  destruct (Position_HandleMessage_total now (mq_handler q) msg) as [[h err] ->].
  by apply returns_ret.
Qed.

Lemma OnWebData2_keeps now pm addr msg :
  positions_ok pm -> message_complete msg ->
  returns (OnWebData2_callback Unmarshal_webdata2 now pm addr msg)
    (fun pm' => positions_ok pm' /\ pom_symbolCache pm' = pom_symbolCache pm).
Proof.
  intros (Hpool & Hb & [symbols Hs]) Hmsg. unfold OnWebData2_callback.
  destruct (Unmarshal_webdata2 _) as [wd|] eqn:Ew;
    [|apply returns_ret; split; [by split_and!|done]].
  case_decide; [apply returns_ret; split; [by split_and!|done]|].
  unfold handleWebData2, processPositionCache. simpl. rewrite Hs, spot_balances_spec.
  cbn [mbind outcome_bind]. destruct (Hmsg wd Ew) as [state ->].
  eapply returns_bind; [apply Position_Enqueue_returns|]. intros [queue err] _.
  apply returns_ret. split; [|done]. split; [done|]. split; [by apply PositionBalanceCache_Set_wf|].
  simpl. by rewrite Hs.
Qed.

Lemma pom_SubscribeAddress_keeps pm addr :
  positions_ok pm -> watched addr ->
  returns (pom_SubscribeAddress pm addr)
    (fun r => positions_ok r.1 /\ pom_symbolCache r.1 = pom_symbolCache pm).
Proof.
  intros Hpm Ha. unfold pom_SubscribeAddress. case_match; [by apply returns_ret|].
  unfold pom_subscribeAddress. simpl. destruct Hpm as (Hpool & Hb & Hs).
  destruct (pom_poolManager pm) as [pool|] eqn:Ep; [|apply returns_ret; by split_and!].
  eapply returns_bind; [apply (Scripted_Subscribe_ok callback_ok); [by apply Hpool|done]|].
  intros [pool1 [h|err]] Hp1; apply returns_ret; (split; [|done]);
    (split; [by apply pool_part_Some|done]).
Qed.

Lemma pom_UnsubscribeAddress_keeps pm addr :
  positions_ok pm ->
  returns (pom_UnsubscribeAddress pm addr)
    (fun r => positions_ok r.1 /\ pom_symbolCache r.1 = pom_symbolCache pm).
Proof.
  intros (Hpool & Hb & Hs). unfold pom_UnsubscribeAddress.
  case_match; [|by apply returns_ret]. unfold pom_unsubscribeAddress.
  cbn [pom_subs pom_with_subs pom_poolManager].
  destruct (pom_subs pm !! addr); [|by apply returns_ret].
  destruct (pom_poolManager pm) as [pool|] eqn:Ep; [|apply returns_ret; by split_and!].
  eapply returns_bind; [apply (Scripted_Unsubscribe_ok callback_ok); by apply Hpool|].
  intros pool1 Hp1. apply returns_ret. split; [|done]. split; [by apply pool_part_Some|].
  split; [by apply PositionBalanceCache_Delete_wf|done].
Qed.

(** *** The service *)

Record sv_ok now (s : Service) : Prop := {
  sv_ok_subs : subs_ok now (op_market (sv_processor s)) (sv_subs s);
  sv_ok_positions : positions_ok (sv_positions s);
  sv_ok_shared : shared s;
  sv_ok_loader : loader_ok (sv_loader s);
  sv_ok_tasks : Forall (fun t => callback_ok t.1 /\ message_complete t.2) (sv_tasks s);
}.

Lemma sv_ok_later now now' s : sv_ok now s -> now <= now' -> sv_ok now' s.
Proof.
  intros [(H1 & H2 & H3 & H4 & H5) ? ? ? ?] Hl. constructor; try done.
  split; [done|]. split; [done|]. split; [done|]. split; [by eapply sent_ok_later|done].
Qed.

Lemma share_subs_ok now s m mk :
  sv_ok now s -> subs_ok now mk m -> mk.1 = (op_market (sv_processor s)).1 ->
  sv_ok now (share_subs s m).
Proof.
  intros [Hm Hpm (_ & Hb & _ & Hsy) Hl Ht] Hm' Emk.
  rewrite <- (proj2 (proj2 (proj2 (proj2 Hm')))) in Emk. injection Emk as E1 E2.
  constructor; [| | |done|done].
  - destruct Hm' as (? & ? & ? & ? & _). by split_and!.
  - split; [|apply Hpm]. apply Hm'.
  - split; [done|]. unfold sv_processor in *. simpl. rewrite E1, E2. by split_and!.
Qed.

Lemma share_positions_ok now s pm :
  sv_ok now s -> positions_ok pm -> pom_symbolCache pm = pom_symbolCache (sv_positions s) ->
  sv_ok now (share_positions s pm).
Proof.
  intros [(_ & Hq & [Hp Hc Hb] & Hs & _) _ (_ & _ & _ & Hsy) Hl Ht] Hpm Esy.
  constructor; [|done| |done|done].
  - split; [apply Hpm|]. split; [done|]. split; [|by split]. constructor; [done|done|].
    simpl. intros c [= <-]. apply Hpm.
  - split; [done|]. split; [done|]. split; [done|]. exact (eq_trans Esy Hsy).
Qed.

Lemma with_processor_ok now s p :
  sv_ok now s -> processor_ok now (op_market (sv_processor s)) p ->
  sv_ok now (with_processor s p).
Proof.
  intros Hs Hp. eapply share_subs_ok; [done| |reflexivity].
  by destruct (sv_ok_subs _ _ Hs) as (? & ? & _).
Qed.

(** A change of the processor that none of its invariants depends on. *)
Lemma processor_ok_core now p p' :
  op_core p' = op_core p -> processor_ok now (op_market p) p -> processor_ok now (op_market p) p'.
Proof.
  intros E (Hok & Hs & _). destruct (op_core_fields _ _ E) as (E1 & E2 & E3 & E4).
  split; [by eapply op_ok_core|]. split; [|done]. unfold sent_ok in *. by rewrite E1, E3, E4.
Qed.

Lemma op_event_ok now s e :
  sv_ok now s -> now <= t_end -> address_ok watched (now, e) ->
  match e with OpBalances _ _ _ _ _ => False | _ => True end ->
  returns (op_exec now (sv_processor s) e) (processor_ok now (op_market (sv_processor s))).
Proof using watched_free.
  intros Hs Hn Ha He. destruct (sv_ok_subs _ _ Hs) as (_ & _ & Hok & Hsent & _).
  destruct (op_exec_ok watched watched_free t_end now _ e Hok Hsent Hn Ha)
    as (p' & E & H1 & H2 & H3). exists p'. split; [done|]. by destruct e.
Qed.

(** *** Steps *)

(** What a step is allowed to bring from outside. *)
Definition event_ok (e : sv_event) : Prop :=
  match e with
  | SvReload answer => forall a, answer_lists answer a -> watched a
  | SvReceive msg => message_complete msg
  | SvSymbols (inl spotMeta) _ =>
      Forall (fun a => Forall (fun i => 0 <= i) (spot_Tokens a)) (spotmeta_Universe spotMeta)
  | _ => True
  end.

Definition call_ok (c : sub_call) : Prop :=
  match c with CallSubscribe _ a => watched a | CallUnsubscribe _ _ => True end.

Lemma loader_call_ok now s c :
  sv_ok now s -> call_ok c -> returns (loader_call (Ret s) c) (sv_ok now).
Proof.
  intros Hs Hc. unfold loader_call. cbn [mbind outcome_bind].
  pose proof (sv_ok_subs _ _ Hs) as Hm. pose proof (sv_ok_positions _ _ Hs) as Hpm.
  destruct c as [[|i] a|[|i] a].
  - eapply returns_bind; [by apply SubscribeAddress_keeps|]. intros [m err] Hm'.
    by eapply returns_ret, share_subs_ok.
  - eapply returns_bind; [by apply pom_SubscribeAddress_keeps|]. intros [pm err] [Hpm' E].
    by apply returns_ret, share_positions_ok.
  - eapply returns_bind; [by apply UnsubscribeAddress_keeps|]. intros [m err] Hm'.
    by eapply returns_ret, share_subs_ok.
  - eapply returns_bind; [by apply pom_UnsubscribeAddress_keeps|]. intros [pm err] [Hpm' E].
    by apply returns_ret, share_positions_ok.
Qed.

Lemma loadAndSync_ok now l answer :
  loader_ok l -> (forall a, answer_lists answer a -> watched a) ->
  let '(l', calls, _) := loadAndSync now l answer in loader_ok l' /\ Forall call_ok calls.
Proof.
  intros Hl Ha. unfold loadAndSync, loadActiveAddresses.
  assert (forall addrs, all_true addrs -> (forall a, listed addrs a = true -> watched a) ->
    let '(l', toAdd, toUnsubscribe) := sync_state now l addrs in
    loader_ok l' /\ Forall watched toAdd) as Hsync.
  { intros addrs Ht Hw. pose proof (sync_state_spec now l addrs Hl Ht) as Hs.
    destruct (sync_state now l addrs) as [[l' toAdd] toUn].
    destruct Hs as (H1 & _ & _ & _ & _ & H2 & _). split; [done|]. apply Forall_forall.
    intros a Hin. apply Hw. by apply H2. }
  assert (forall n toAdd toUn, Forall watched toAdd -> Forall call_ok
    (concat (map (fun addr => map (fun i => CallSubscribe i addr) (seq 0 n)) toAdd) ++
     concat (map (fun addr => map (fun i => CallUnsubscribe i addr) (seq 0 n)) toUn))) as Hcalls.
  { intros n toAdd toUn Hw. apply Forall_app. split; apply Forall_concat, Forall_map.
    - eapply Forall_impl; [exact Hw|]. intros a Haw. apply Forall_map, Forall_forall. by intros.
    - apply Forall_forall. intros a _. apply Forall_map, Forall_forall. by intros. }
  destruct answer as [addresses| |err]; [| |by split; [|constructor]].
  - specialize (Hsync (address_set addresses) (address_set_all_true _)).
    destruct (sync_state now l _) as [[l' toAdd] toUn].
    destruct Hsync as [H1 H2]; [|by split; [|apply Hcalls]].
    intros a Hin%address_set_listed. by apply Ha.
  - specialize (Hsync ∅ (fun a => ltac:(by rewrite lookup_empty))).
    destruct (sync_state now l _) as [[l' toAdd] toUn].
    destruct Hsync as [H1 H2]; [|by split; [|apply Hcalls]].
    intros a. unfold listed. by rewrite lookup_empty.
Qed.

Lemma reload_step_ok now s answer :
  sv_ok now s -> (forall a, answer_lists answer a -> watched a) ->
  returns (reload_step now s answer) (sv_ok now).
Proof.
  intros Hs Ha. unfold reload_step.
  pose proof (loadAndSync_ok now _ _ (sv_ok_loader _ _ Hs) Ha) as Hl.
  destruct (loadAndSync _ _ _) as [[l calls] err]. destruct Hl as [Hl Hc].
  apply returns_fold_left; [|by destruct Hs].
  intros s' c Hin Hs'. apply loader_call_ok; [done|].
  rewrite Forall_forall in Hc. by apply Hc.
Qed.

Lemma receive_step_ok now s msg :
  sv_ok now s -> message_complete msg -> sv_ok now (receive_step gjson_user s msg).
Proof.
  intros [Hm Hpm Hsh Hl Ht] Hmsg. unfold receive_step.
  destruct (sm_poolManager (sv_subs s)) as [[pm script]|] eqn:Ep; [|done].
  constructor; try done. simpl. apply Forall_app. split; [done|]. apply Forall_map.
  destruct (proj1 Hm _ Ep) as (_ & _ & Hh).
  eapply Forall_impl; [by apply (Dispatch_holds callback_ok)|]. by intros cb Hcb.
Qed.

Lemma run_task_ok now s cb msg :
  sv_ok now s -> now <= t_end -> callback_ok cb -> message_complete msg ->
  returns (run_task Unmarshal_fills Unmarshal_orders Unmarshal_webdata2 now s cb msg) (sv_ok now).
Proof using watched_free.
  intros Hs Hn Hcb Hmsg.
  assert (returns (m ← run_callback Unmarshal_fills Unmarshal_orders now (sv_subs s) cb msg;
                   Ret (share_subs s m)) (sv_ok now)) as Hsubs.
  { eapply returns_bind; [by apply run_callback_keeps; [|apply Hs|]|].
    intros m Hm. by eapply returns_ret, share_subs_ok. }
  destruct cb as [a|a|a]; [exact Hsubs|exact Hsubs|]. unfold run_task.
  eapply returns_bind; [by apply OnWebData2_keeps; [apply Hs|]|].
  intros pm [Hpm E]. by apply returns_ret, share_positions_ok.
Qed.

Lemma pool_step_ok now s f :
  sv_ok now s ->
  (forall pm script, scripted_ok callback_ok (pm, script) -> scripted_ok callback_ok (f pm, script)) ->
  sv_ok now (pool_step f s).
Proof.
  intros Hs Hf. eapply share_subs_ok; [done| |reflexivity].
  apply with_pool_keeps; [apply Hs|]. intros p.
  destruct (sm_poolManager (sv_subs s)) as [[pm script]|] eqn:Ep; [|done]. intros [= <-].
  apply Hf. by apply (sv_ok_subs _ _ Hs).
Qed.

Lemma disconnect_turn_ok net dial pm script :
  scripted_ok callback_ok (pm, script) ->
  scripted_ok callback_ok (disconnect_turn net dial pm, script).
Proof.
  intros Hp. apply reconnect_attempt_ok. case_decide; [by apply with_backoff_ok|done].
Qed.

Lemma writer_step_ok now s f : sv_ok now s -> sv_ok now (writer_step f s).
Proof.
  intros Hs. unfold writer_step. destruct (op_batchWriter (sv_processor s)) as [w|]; [|done].
  destruct (f w) as [w' log].
  assert (sv_ok now (with_processor s (with_batchWriter (sv_processor s) (Some w')))) as [].
  { apply with_processor_ok; [done|]. apply processor_ok_core; [done|].
    by destruct (sv_ok_subs _ _ Hs) as (_ & _ & ?). }
  by constructor.
Qed.

Lemma with_symbols_ok now s c : sv_ok now s -> sv_ok now (with_symbols s c).
Proof.
  intros [(Hpool & Hq & [Hp Hc Hb] & Hs & _) (Hpp & Hbw & _) (Hsh & Hbal & Hw & _) Hl Ht].
  constructor; [| |done..].
  - split; [done|]. split; [done|]. split; [by constructor|split; [exact Hs|reflexivity]].
  - split; [done|]. split; [done|]. by exists c.
Qed.

Lemma with_pairs_ok now s c : sv_ok now s -> sv_ok now (with_pairs s c).
Proof.
  intros Hs. destruct (sv_ok_subs _ _ Hs) as (Hpool & Hq & [Hp Hc Hb] & Hsent & _).
  apply (share_subs_ok now s _ ((op_market (sv_processor s)).1, c)); [done| |reflexivity].
  split; [done|]. split; [done|]. split; [by constructor|split; [exact Hsent|reflexivity]].
Qed.

Lemma loadMeta_returns c spotMeta perpMeta :
  event_ok (SvSymbols spotMeta perpMeta) -> returns (loadMeta c spotMeta perpMeta) (fun _ => True).
Proof.
  intros He. unfold loadMeta. destruct spotMeta as [spotMeta|err]; [|by apply returns_ret].
  eapply (returns_bind _ _ (fun _ => True)); [|intros c' _; destruct perpMeta; by apply returns_ret].
  unfold buildSpotCache. apply returns_fold_left; [|done]. intros c' a Ha _.
  simpl in He. rewrite Forall_forall in He.
  destruct (spot_entry_total (spotmeta_Tokens spotMeta) a (He a Ha)) as (e & Ee & _).
  cbn [mbind outcome_bind]. rewrite Ee. by apply returns_ret.
Qed.

Lemma sv_exec_ok now s e :
  sv_ok now s -> now <= t_end -> event_ok e ->
  returns (sv_exec gjson_user Unmarshal_fills Unmarshal_orders Unmarshal_webdata2 now s e)
    (sv_ok now).
Proof using watched_free.
  intros Hs Hn He. destruct e as [answer|msg|i| | |publish| |l|net dial|dao|dao|spot perp|rows];
    cbn [sv_exec].
  - by apply reload_step_ok.
  - by apply returns_ret, receive_step_ok.
  - destruct (sv_tasks s !! i) as [[cb msg]|] eqn:Et; [|by apply returns_ret].
    pose proof (sv_ok_tasks _ _ Hs) as Hts.
    destruct (proj1 (Forall_lookup _ _) Hts i _ Et) as [Hcb Hmsg]. apply run_task_ok; try done.
    destruct Hs as [? ? ? ? ?]. constructor; try done. by apply Forall_delete.
  - eapply returns_bind; [by apply worker_keeps; [|apply Hs]|].
    intros q Hq. eapply returns_ret, share_subs_ok; [done|exact Hq|reflexivity].
  - eapply returns_bind; [apply Position_worker_returns|]. intros q _.
    apply returns_ret, share_positions_ok; [done| |done].
    apply (positions_ok_env (sv_positions s)); [done..|apply Hs].
  - eapply returns_bind; [by apply (op_event_ok now s (OpFlush publish) Hs Hn)|].
    intros p Hp. by apply returns_ret, with_processor_ok.
  - destruct (op_event_ok now s OpScan Hs Hn I I) as (p & [= <-] & Hp).
    by apply returns_ret, with_processor_ok.
  - apply returns_ret, pool_step_ok; [done|]. intros. by apply lost_connection_ok.
  - apply returns_ret, pool_step_ok; [done|]. intros. by apply disconnect_turn_ok.
  - by apply returns_ret, writer_step_ok.
  - by apply returns_ret, writer_step_ok.
  - eapply returns_bind; [by apply loadMeta_returns|]. intros [c err] _.
    by apply returns_ret, with_symbols_ok.
  - by apply returns_ret, with_pairs_ok.
Qed.

Fixpoint sv_clock (now : Z) (evs : list (Z * sv_event)) : Prop :=
  match evs with
  | [] => True
  | (t, _) :: evs => now <= t <= t_end /\ sv_clock t evs
  end.

Lemma sv_run_ok evs : forall now s,
  sv_ok now s -> sv_clock now evs -> Forall (fun e => event_ok e.2) evs ->
  returns (sv_run gjson_user Unmarshal_fills Unmarshal_orders Unmarshal_webdata2 s evs)
    (fun s' => exists now', sv_ok now' s').
Proof using watched_free.
  induction evs as [|[t e] evs IH]; intros now s Hs Hc He; cbn [sv_run].
  - apply returns_ret. by exists now.
  - destruct Hc as [Ht Hc]. inversion He as [|? ? He1 He2]; subst.
    eapply returns_bind; [apply (sv_exec_ok t); [by eapply sv_ok_later, Ht|lia|done]|].
    intros s' Hs'. by eapply IH.
Qed.
End invariant.

Lemma NewService_ok `{MapRange} `{Cast} `{GS : GoCache string} `{DD : DedupCacheInterface}
    Unmarshal_webdata2 watched pool symbolCache w pairs (d : dd_t) interval grace t0 :
  pool_ok pool.1 -> 0 < pm_maxConnections pool.1 -> pm_subscriptions pool.1 = ∅ ->
  0 < dd_window d ->
  sv_ok Unmarshal_webdata2 watched (t0 + dd_window d) t0
    (NewService pool symbolCache w pairs d interval grace).
Proof.
  intros Hp Hmax Hsub Hw.
  assert (scripted_ok (callback_ok watched) pool) as Hpool.
  { split; [done|]. split; [done|]. intros key info id cb. by rewrite Hsub, lookup_empty. }
  constructor; [| | |split; [done|]|constructor].
  - split; [by apply pool_part_Some|]. split; [constructor|].
    split; [apply op_ok_new; intros c [= <-]; apply NewPositionBalanceCache_wf|]. split; [|done].
    split; [apply NoDup_nil_2|]. exists d. split; [done|]. split; [done|]. split; [lia|].
    intros key signal Hk. by apply not_elem_of_nil in Hk.
  - split; [by apply pool_part_Some|]. split; [apply NewPositionBalanceCache_wf|by eexists].
  - by split.
  - simpl. intros a. by rewrite lookup_empty; intros [? ?].
Qed.

(** C1. The running service, from the pool's sockets to NATS: in every run that
    fits in one deduplication window, the events being address reloads, messages
    received, callbacks in any order, both queues' workers, flushes, scans,
    connections lost and repaired, writes and metadata reloads, whatever the
    network, the database and NATS answer.  Conditions: a listed address has no
    dash, spot metadata no negative token index, and a received webData2 has a
    clearinghouse state (the handler panics on one without, a finding); messages
    have any content otherwise.  Each event completes before the next begins, so
    that two flushes of one order do not overlap (they would publish it twice,
    concurrent_flushes_publish_twice), nor a flush of the batch writer its
    receive loop.  Then no step panics, the two managers keep sharing their
    objects, the published orders are pairwise distinct, and every signal is for
    an address that the database listed. *)
Theorem service_signals
    `{MapRange} `{Cast} `{GS : GoCache string} `{DD : DedupCacheInterface}
    gjson_user Unmarshal_fills Unmarshal_orders Unmarshal_webdata2
    pool symbolCache w pairs (d : dd_t) interval grace t0 evs :
  pool_ok pool.1 -> 0 < pm_maxConnections pool.1 -> pm_subscriptions pool.1 = ∅ ->
  0 < dd_window d -> sv_clock (t0 + dd_window d) t0 evs ->
  Forall (fun e => event_ok Unmarshal_webdata2 dash_free e.2) evs ->
  exists s,
    sv_run gjson_user Unmarshal_fills Unmarshal_orders Unmarshal_webdata2
      (NewService pool symbolCache w pairs d interval grace) evs = Ret s /\
    shared s /\
    NoDup (op_published (sv_processor s)).*1 /\
    forall key signal, (key, signal) ∈ op_published (sv_processor s) ->
      (exists oid dir, key = orderKey (sig_Address signal) oid dir) /\
      exists t answer, (t, SvReload answer) ∈ evs /\ answer_lists answer (sig_Address signal).
Proof.
  intros Hp Hmax Hsub Hw Hc He.
  set (watched a := dash_free a /\
    exists t answer, (t, SvReload answer) ∈ evs /\ answer_lists answer a).
  destruct (sv_run_ok gjson_user Unmarshal_fills Unmarshal_orders Unmarshal_webdata2 watched
    (fun a Ha => proj1 Ha) (t0 + dd_window d) evs t0
    (NewService pool symbolCache w pairs d interval grace)) as (s & Hr & now' & Hs);
    [by apply NewService_ok|done| |].
  { rewrite Forall_forall in *. intros [t e] Hin. specialize (He _ Hin).
    destruct e; try exact He. simpl in *. intros a Ha. split; [by apply He|]. by eexists _, _. }
  exists s. split; [exact Hr|]. split; [apply Hs|].
  destruct (sv_ok_subs _ _ _ _ _ Hs) as (_ & _ & _ & (Hnd & d' & _ & _ & _ & Hpub) & _).
  split; [exact Hnd|]. intros key signal Hin.
  destruct (Hpub key signal Hin) as (_ & o & r & Ek & [_ Hl] & _).
  split; [by exists o, r|exact Hl].
Qed.

(** ** A run of the service *)

Definition sample_network : network := mkNetwork nil_error (fun _ => nil_error).

Definition sample_script : scripted_pool ManagerCallback :=
  ((PoolManager_Start nil_error (NewPoolManager 2 10)).1,
   [sample_network; sample_network; sample_network]).

Definition sample_service : Service :=
  NewService sample_script sample_symbols (NewBatchWriter None) NewPairCategoryCache
    sample_deduper Minute Hour.

(** The texts of the messages stand for the values they parse to. *)
Definition sample_fills (data : string) : WsOrderFills + string :=
  inl (mkWsOrderFills false "0xab"
    [sample_fill 1 "Close Long" "1" "100"; sample_fill 2 "Close Long" "1" "300"]).
Definition sample_orders (data : string) : list WsOrder + string := inl [filled_update].
Definition sample_webdata2 (data : string) : WebData2 + string :=
  inl (mkWebData2 (Some (mkClearinghouseState None None "0" "0"
         [mkAssetPosition (mkPosition "BTC" None (mkLeverage "cross" 5 None) None "0" "0" "0" "4" "0")
            "oneWay"] 1)) "0xab" None []).

Definition sample_events : list (Z * sv_event) :=
  [(1 * Second, SvReload (DbRows ["0xab"]));
   (2 * Second, SvReceive (mkWsMessage ChannelUserFills "{}"));
   (2 * Second, SvReceive (mkWsMessage ChannelWebData2 "{}"));
   (2 * Second, SvReceive (mkWsMessage ChannelOrderUpdates "{}"));
   (3 * Second, SvTask 1); (3 * Second, SvTask 0); (3 * Second, SvTask 0);
   (4 * Second, SvWork); (4 * Second, SvPositionWork); (5 * Second, SvWork);
   (5 * Second, SvDrop 1%positive);
   (6 * Second, SvReconnect (fun _ => nil_error) (fun _ => nil_error));
   (6 * Second, SvStore (fun _ => nil_error));
   (7 * Second, SvWork); (8 * Second, SvFlush (fun _ => nil_error));
   (9 * Second, SvTick (fun _ => nil_error));
   (10 * Second, SvReceive (mkWsMessage ChannelUserFills "{}")); (10 * Second, SvTask 0);
   (11 * Second, SvWork); (12 * Second, SvFlush (fun _ => nil_error))].

Example sample_service_signal :
  match sv_run (fun _ => "0xab") sample_fills sample_orders sample_webdata2
          sample_service sample_events with
  | Ret s => map (fun '(key, g) => (key, sig_Size g, sig_Price g, sig_CloseRate g))
               (op_published (sv_processor s))
             = [("0xab-42-Close Long", float64_of_Z 2, float64_of_Z 200,
                 fdiv f1 (float64_of_Z 2))]
  | Panic => False
  end.
Proof. vm_compute. reflexivity. Qed.

Lemma service_signals_witness :
  exists s, sv_run (fun _ => "0xab") sample_fills sample_orders sample_webdata2
      sample_service sample_events = Ret s /\
    shared s /\ NoDup (op_published (sv_processor s)).*1.
Proof.
  destruct (service_signals (fun _ => "0xab") sample_fills sample_orders sample_webdata2
    sample_script sample_symbols (NewBatchWriter None) NewPairCategoryCache sample_deduper
    Minute Hour 0 sample_events) as (s & Hr & Hsh & Hnd & _).
  - apply sample_pool_wf.
  - reflexivity.
  - reflexivity.
  - reflexivity.
  - vm_compute. repeat split; discriminate.
  - repeat apply Forall_cons_2; try exact I; try apply Forall_nil_2;
      try (intros wd [= <-]; by eexists).
    intros a [->|Ha]%elem_of_cons; [vm_compute; reflexivity|by apply not_elem_of_nil in Ha].
  - exists s. split; [exact Hr|]. split; [exact Hsh|exact Hnd].
Defined.
