(* ===== verification/FillsToSignal.v ===== *)
(** * From a batch of fills to a published signal

    The subscription manager, its queue and the order processor together: the
    fills of a message and the terminal update that follows become one signal. *)

From Stdlib Require Import ZArith Lia Ascii.
From stdpp Require Import gmap strings list.
From S2P Require Import Prelude Float64 GoStrings Models ConcurrentMap GoCache Caches MarketCaches.
From S2P Require Import BatchWriter Messages OrderProcessor OrderRuns OrderSignals WsPool.
From S2P Require Import SubscriptionManager.
Local Open Scope Z_scope.

Section grouping.
Context `{MapRange}.

Lemma go_range_singleton `{Countable K} {V} (k : K) (v : V) :
  go_range ({[k := v]} : gmap K V) = [(k, v)].
Proof.
  apply Permutation_singleton_r. rewrite go_range_perm. by rewrite map_to_list_singleton.
Qed.

(** A list whose elements all have one key is one group. *)
Lemma group_by_one `{Countable K} {A} (f : A -> K) (l : list A) k :
  l <> [] -> Forall (fun x => f x = k) l -> group_by f l = {[k := l]}.
Proof.
  intros Hne Hl. apply map_eq. intros k'. pose proof (group_by_lookup f l k') as Hd.
  pose proof (group_by_is_Some f l k') as Hs. destruct (decide (k = k')) as [<-|Hk].
  - rewrite lookup_singleton_eq. destruct Hs as [_ Hs].
    destruct Hs as [g Hg].
    { destruct l as [|x l]; [done|]. inversion Hl; subst. left. }
    rewrite Hg in *. f_equal. simpl in Hd. by rewrite filter_all in Hd.
  - rewrite lookup_singleton_ne by done. apply eq_None_not_Some. intros Hg%Hs.
    apply list_elem_of_fmap in Hg as (x & -> & Hx). rewrite Forall_forall in Hl.
    by apply Hk, eq_sym, Hl.
Qed.
End grouping.

Section fills.
Context `{MapRange} `{Cast} `{GS : GoCache string} `{DD : DedupCacheInterface}
  `{SP : SubscriptionPool ManagerCallback}.
Implicit Types m : SubscriptionManager.

Lemma splitReversedOrder_plain fills :
  Forall (fun f => fill_Dir f <> DirLongToShort /\ fill_Dir f <> DirShortToLong) fills ->
  splitReversedOrder fills = group_by fill_Dir fills.
Proof.
  unfold splitReversedOrder, group_by. generalize (∅ : gmap string (list WsOrderFill)).
  induction fills as [|f fills IH]; intros g Hf; [done|]. inversion Hf as [|? ? [H1 H2] Hf']; subst.
  cbn [fold_left]. unfold split_step at 2. rewrite decide_False by (by intros [?|?]). by apply IH.
Qed.

Lemma plain_direction dir :
  dir ∈ all_directions -> dir <> DirLongToShort /\ dir <> DirShortToLong.
Proof.
  intros Hd. split; intros ->; revert Hd; apply (bool_decide_unpack _); vm_compute; exact I.
Qed.

(** The messages of a batch that has one order and one direction. *)
Lemma batch_msgs_one now m orders f rest dir :
  filter (fun g => fill_kept now g = true) (fills_Fills orders) = f :: rest ->
  Forall (fun g => fill_Oid g = fill_Oid f /\ fill_Dir g = dir) (f :: rest) ->
  dir ∈ all_directions -> sm_IsSeen m now (fills_User orders) (fill_Oid f) dir = false ->
  batch_msgs now m orders =
    map (fun g => OrderFillMessage (fills_User orders) (Boxed g) dir) (f :: rest) /\
  go_range (order_groups now (fills_Fills orders)) = [(fill_Oid f, f :: rest)].
Proof.
  intros Hk Hall Hin Hseen.
  assert (go_range (order_groups now (fills_Fills orders)) = [(fill_Oid f, f :: rest)]) as Hg.
  { unfold order_groups. rewrite Hk. rewrite (group_by_one _ _ (fill_Oid f)); [|done|].
    - apply go_range_singleton.
    - eapply Forall_impl; [exact Hall|]. by intros g [? _]. }
  split; [|done]. unfold batch_msgs. rewrite Hg. cbn [map concat]. rewrite app_nil_r.
  unfold order_msgs. cbn [snd]. rewrite splitReversedOrder_plain.
  - rewrite (group_by_one _ _ dir); [|done|by eapply Forall_impl; [exact Hall|]; intros g [_ ?]].
    rewrite go_range_singleton. cbn [map concat]. rewrite app_nil_r. unfold direction_msgs.
    cbn [fst snd]. rewrite filter_all; [done|]. eapply Forall_impl; [exact Hall|].
    intros g [E _]. unfold unseen_fill. by rewrite E.
  - eapply Forall_impl; [exact Hall|]. intros g [_ ->]. by apply plain_direction.
Qed.

(** The worker on the fills of one order is [record_fills]. *)
Lemma mq_work_fills now a dir fills : forall (p : OrderProcessor) p' cap later,
  record_fills p now a dir fills = Ret p' ->
  mq_run now (mkMessageQueue (map (fun g => OrderFillMessage a (Boxed g) dir) fills ++ later) cap p)
    (repeat MqWork (length fills)) = Ret (mkMessageQueue later cap p').
Proof.
  induction fills as [|f fills IH]; intros p p' cap later Hr; cbn [record_fills] in Hr.
  { by injection Hr as <-. }
  destruct (handleOrderFill now p a (Boxed f) dir) as [[p1 err]|] eqn:E; [|done].
  cbn [mbind outcome_bind] in Hr. unfold mq_run. cbn [length repeat fold_left map app].
  cbn [mbind outcome_bind mq_exec worker mq_queue mq_handler]. unfold HandleMessage at 1.
  cbn [OrderProcessor_HandleMessage]. rewrite E. cbn [mbind outcome_bind mq_cap].
  by apply IH.
Qed.

(** C7. From the websocket to NATS, with the pipeline idle: the message queue is
    empty and has room for the whole batch and one message more, no flush is
    requested, and none of the order's directions is pending, seen (by the deduper
    that manager and processor share) or marked.
    A batch of recent fills of one order of a subscribed user, in one direction,
    and then the order's terminal update, put one message per fill and one for
    the update into the queue; when the worker has handled them, and nothing
    else, a round of the flush processor with a publisher that accepts publishes
    exactly one signal, for this user, of the size and the price that aggregate
    the fills (those with a repeated trade id dropped), and the order is no
    longer pending. *)
Theorem fills_reach_signal now m orders f rest dir o :
  let user := fills_User orders in
  let p := mq_handler (sm_messageQueue m) in
  let key := orderKey user (fill_Oid f) dir in
  op_ok dash_free p -> op_flushChan p = [] -> mq_queue (sm_messageQueue m) = [] ->
  Z.of_nat (length (f :: rest)) < mq_cap (sm_messageQueue m) ->
  sm_deduper m = None -> dash_free user -> is_Some (Map_Load (sm_addresses m) user) ->
  filter (fun g => fill_kept now g = true) (fills_Fills orders) = f :: rest ->
  Forall (fun g => fill_Oid g = fill_Oid f /\ fill_Dir g = dir) (f :: rest) ->
  dir ∈ all_directions ->
  unseen p now user (fill_Oid f) dir -> unmarked p now user (fill_Oid f) ->
  (forall d, d ∈ all_directions ->
     map_data (op_pendingOrders p) !! orderKey user (fill_Oid f) d = None) ->
  bo_Oid (wo_Order o) = fill_Oid f -> coin_kept (bo_Coin (wo_Order o)) = true ->
  terminal (wo_Status o) ->
  exists m1 m2 q p2 signal,
    handleWsOrderFills now m orders = Ret m1 /\
    handleWsOrderUpdates now m1 user [o] = Ret m2 /\
    mq_run now (sm_messageQueue m2) (repeat MqWork (S (length (f :: rest)))) = Ret q /\
    mq_queue q = [] /\
    flushProcessor now (fun _ => nil_error) (mq_handler q) = Ret p2 /\
    op_published p2 = op_published p ++ [(key, signal)] /\ sig_Address signal = user /\
    (sig_Size signal, sig_Price signal) = aggregate (f :: keep_new [] rest) /\
    map_data (op_pendingOrders p2) !! key = None.
Proof.
  intros user p key Hp Hch Hq Hroom Hd Hfree Hsub Hk Hall Hin Hs Hm Hn Ho Hc Ht.
  destruct (batch_msgs_one now m orders f rest dir) as [Hb Hg]; [done..| |].
  { unfold sm_IsSeen, GetDeduper. rewrite Hd. exact (unseen_test p now user _ _ Hs). }
  assert (Z.of_nat (length (batch_msgs now m orders)) < sm_room m) as Hlen.
  { rewrite Hb, length_map. unfold sm_room, MessageQueue_Size. rewrite Hq. simpl length at 2. lia. }
  destruct (order_life p now user dir (wo_Status o) f rest Hp Hfree Hin Hch Hs Hm Hn)
    as (p1 & p2 & signal & Hr & Hf & Hpub & Ha & Hagg & Hnone); [|done|].
  { apply Forall_inv_tail in Hall. eapply Forall_impl; [exact Hall|]. by intros g [? _]. }
  set (msgs := map (fun g => OrderFillMessage user (Boxed g) dir) (f :: rest)) in *.
  set (m1 := append_msgs (store_oids m user [fill_Oid f]) msgs).
  assert (handleWsOrderFills now m orders = Ret m1) as Hfills.
  { unfold handleWsOrderFills. rewrite send_orders_room by (fold (batch_msgs now m orders); lia).
    fold (batch_msgs now m orders). rewrite Hb, Hg. done. }
  exists m1. do 2 eexists. exists p2, signal. split; [exact Hfills|]. split.
  { unfold handleWsOrderUpdates. cbn [fold_left]. apply send_update_due.
    - split; [done|]. rewrite Ho. split; [|split_and!; [apply Ht..|done]].
      unfold m1. cbn [append_msgs with_queue sm_oidToAddress store_oids with_oids].
      rewrite store_oids_lookup, decide_True; [done|left].
    - unfold m1. rewrite sm_room_append. change (sm_room (store_oids m user [fill_Oid f]))
        with (sm_room m). rewrite Hb in Hlen. by apply Z.lt_0_sub. }
  cbn [sm_messageQueue append_msgs with_queue with_oids mq_queue store_oids mq_cap mq_handler m1].
  rewrite Hq. split.
  { change (repeat MqWork (S (length (f :: rest)))) with
      (MqWork :: repeat MqWork (length (f :: rest))).
    rewrite repeat_cons, mq_run_snoc.
    rewrite (mq_work_fills now user dir (f :: rest) p p1); [reflexivity|done]. }
  split; [done|]. cbn [mq_handler]. rewrite Ho. by split_and!.
Qed.
End fills.

(** ** A witness *)

#[local] Existing Instance listing_order.
#[local] Existing Instance reference_cast.
#[local] Existing Instance reference_go_cache.
#[local] Instance any_pool : SubscriptionPool ManagerCallback :=
  PoolManager_SubscriptionPool nil_error net_ok.

Definition subscribed_manager : SubscriptionManager :=
  with_addresses
    (NewSubscriptionManager None sample_symbols (Some sample_balances) NewPairCategoryCache
       (Some (NewBatchWriter None)) sample_deduper)
    (Map_Store Map_zero "0xab" tt).

Definition two_fills : WsOrderFills := mkWsOrderFills false "0xab" [fill1; fill2].

Lemma fills_reach_signal_witness :
  exists m1 m2 q p2 signal,
    handleWsOrderFills (2 * Second) subscribed_manager two_fills = Ret m1 /\
    handleWsOrderUpdates (2 * Second) m1 "0xab" [filled_update] = Ret m2 /\
    mq_run (2 * Second) (sm_messageQueue m2) (repeat MqWork 3) = Ret q /\
    flushProcessor (2 * Second) (fun _ => nil_error) (mq_handler q) = Ret p2 /\
    op_published p2 = [("0xab-42-Close Long", signal)] /\
    (sig_Size signal, sig_Price signal) = (float64_of_Z 2, float64_of_Z 200).
Proof.
  destruct (fills_reach_signal (2 * Second) subscribed_manager two_fills fill1 [fill2]
    "Close Long" filled_update) as (m1 & m2 & q & p2 & s & H1 & H2 & H3 & _ & H4 & H5 & _ & H6 & _).
  - exact sample_ok.
  - reflexivity.
  - reflexivity.
  - reflexivity.
  - reflexivity.
  - reflexivity.
  - exists tt. vm_compute. reflexivity.
  - vm_compute. reflexivity.
  - by repeat constructor.
  - apply elem_of_all_directions. tauto.
  - vm_compute. reflexivity.
  - vm_compute. reflexivity.
  - intros d _. reflexivity.
  - reflexivity.
  - reflexivity.
  - split; discriminate.
  - exists m1, m2, q, p2, s. split; [exact H1|]. split; [exact H2|]. split; [exact H3|].
    split; [exact H4|]. split; [exact H5|]. rewrite H6. vm_compute. reflexivity.
Defined.
