(* ===== verification/Dao.v ===== *)
(** * internal/dao: the database tables

    The queries of the service over an interface [Table]: what a table of the
    MySQL database (behind gorm) does with a statement that succeeds, with the
    rows in the order of the primary key; a statement that fails changes
    nothing.  A condition of the code's query builder is a boolean function of
    the row. *)

From Stdlib Require Import ZArith Lia.
From Stdlib Require Import Sorting.Sorted.
From stdpp Require Import gmap strings list sorting.
From S2P Require Import Prelude Float64 GoStrings Models.
Local Open Scope Z_scope.

(** [INSERT ... ON DUPLICATE KEY UPDATE], one row after the other: a row that
    conflicts with a stored one assigns columns to it. *)
Fixpoint upsert_row {Row} (conflict : Row -> Row -> bool) (assign : Row -> Row -> Row)
    (rows : list Row) (row : Row) : list Row :=
  match rows with
  | [] => [row]
  | old :: rows =>
      if conflict old row then assign old row :: rows
      else old :: upsert_row conflict assign rows row
  end.

Class Table (Row : Type) := {
  tb_t : Type;
  tb_rows : tb_t -> list Row;
  tb_next : tb_t -> Z;                    (* the AUTO_INCREMENT counter *)
  tb_Find : tb_t -> (Row -> bool) -> list Row + string;
  (* ORDER BY the primary key, LIMIT, OFFSET *)
  tb_Page : tb_t -> (Row -> bool) -> nat -> nat -> list Row + string;
  tb_Count : tb_t -> Z + string;
  tb_Insert : tb_t -> (Z -> Row) -> tb_t * error;
  tb_Update : tb_t -> (Row -> bool) -> (Row -> Row) -> tb_t * error;
  tb_Upsert : tb_t -> (Row -> Row -> bool) -> (Row -> Row -> Row) -> list Row -> tb_t * error;
  tb_Delete : tb_t -> (Row -> bool) -> tb_t * (Z + string);
  tb_Find_ok : forall d w rows, tb_Find d w = inl rows -> rows ≡ₚ filter (fun r => w r = true) (tb_rows d);
  tb_Page_ok : forall d w limit offset rows, tb_Page d w limit offset = inl rows ->
    rows = take limit (drop offset (filter (fun r => w r = true) (tb_rows d)));
  tb_Count_ok : forall d n, tb_Count d = inl n -> n = Z.of_nat (length (tb_rows d));
  tb_Insert_ok : forall d mk d', tb_Insert d mk = (d', None) ->
    tb_rows d' = tb_rows d ++ [mk (tb_next d)] /\ tb_next d < tb_next d';
  tb_Insert_err : forall d mk d' err, tb_Insert d mk = (d', Some err) ->
    tb_rows d' = tb_rows d /\ tb_next d <= tb_next d';
  tb_Update_ok : forall d w f d', tb_Update d w f = (d', None) ->
    tb_rows d' = map (fun r => if w r then f r else r) (tb_rows d) /\ tb_next d' = tb_next d;
  tb_Update_err : forall d w f d' err, tb_Update d w f = (d', Some err) ->
    tb_rows d' = tb_rows d /\ tb_next d' = tb_next d;
  tb_Upsert_ok : forall d conflict assign rows d', tb_Upsert d conflict assign rows = (d', None) ->
    tb_rows d' = fold_left (upsert_row conflict assign) rows (tb_rows d);
  tb_Upsert_err : forall d conflict assign rows d' err,
    tb_Upsert d conflict assign rows = (d', Some err) -> tb_rows d' = tb_rows d;
  tb_Delete_ok : forall d w d' n, tb_Delete d w = (d', inl n) ->
    tb_rows d' = filter (fun r => w r = false) (tb_rows d) /\
    n = Z.of_nat (length (filter (fun r => w r = true) (tb_rows d))) /\ tb_next d' = tb_next d;
  tb_Delete_err : forall d w d' err, tb_Delete d w = (d', inr err) ->
    tb_rows d' = tb_rows d /\ tb_next d' = tb_next d;
}.
Arguments tb_t Row {_}.

(** gorm's [First]: the first row by the primary key. *)
Definition ErrRecordNotFound : string := "record not found".

Definition tb_First `{Table Row} (d : tb_t Row) (w : Row -> bool) : Row + string :=
  match tb_Page d w 1 0 with
  | inr err => inr err
  | inl [] => inr ErrRecordNotFound
  | inl (row :: _) => inl row
  end.

(** ** order_aggregation.go *)
Section order_aggregation.
Context `{Table OrderAggregation}.
Implicit Types d : tb_t OrderAggregation.

Definition OrderAggregation_Create d (agg : OrderAggregation) : tb_t OrderAggregation * error :=
  tb_Insert d (fun _ => agg).

Definition by_oid (oid : Z) (r : OrderAggregation) : bool := agg_Oid r =? oid.

Definition OrderAggregation_Get d (oid : Z) : OrderAggregation + string :=
  tb_First d (by_oid oid).

Definition GetPending d : list OrderAggregation + string :=
  tb_Find d (fun r => negb (agg_SignalSent r)).

Definition GetTimeout d (beforeTimestamp : Z) : list OrderAggregation + string :=
  tb_Find d (fun r => negb (agg_SignalSent r) && (agg_LastFillTime r <? beforeTimestamp)).

(** [Update] of one column also sets [updated_at]. *)
Definition set_status (now : Z) (status : string) (r : OrderAggregation) : OrderAggregation :=
  mkOrderAggregation (agg_Oid r) (agg_Address r) (agg_Direction r) (agg_Symbol r) (agg_Fills r)
    (agg_TotalSize r) (agg_WeightedAvgPx r) status (agg_LastFillTime r) (agg_SignalSent r)
    (agg_CreatedAt r) now.
Definition set_sent (now : Z) (r : OrderAggregation) : OrderAggregation :=
  mkOrderAggregation (agg_Oid r) (agg_Address r) (agg_Direction r) (agg_Symbol r) (agg_Fills r)
    (agg_TotalSize r) (agg_WeightedAvgPx r) (agg_OrderStatus r) (agg_LastFillTime r) true
    (agg_CreatedAt r) now.

Definition OrderAggregation_UpdateStatus (now : Z) d (oid : Z) (status : string)
    : tb_t OrderAggregation * error := tb_Update d (by_oid oid) (set_status now status).

Definition MarkSignalSent (now : Z) d (oid : Z) : tb_t OrderAggregation * error :=
  tb_Update d (by_oid oid) (set_sent now).

(** gorm's [Updates] with a struct: the fields that are not zero, and
    [updated_at]. *)
Definition nonzero {A} `{EqDecision A} (zero new old : A) : A :=
  if decide (new = zero) then old else new.

Definition update_columns (now : Z) (new old : OrderAggregation) : OrderAggregation :=
  mkOrderAggregation (nonzero 0 (agg_Oid new) (agg_Oid old))
    (nonzero EmptyString (agg_Address new) (agg_Address old))
    (nonzero EmptyString (agg_Direction new) (agg_Direction old))
    (nonzero EmptyString (agg_Symbol new) (agg_Symbol old))
    (nonzero [] (agg_Fills new) (agg_Fills old))
    (if feqb (agg_TotalSize new) f0 then agg_TotalSize old else agg_TotalSize new)
    (if feqb (agg_WeightedAvgPx new) f0 then agg_WeightedAvgPx old else agg_WeightedAvgPx new)
    (nonzero EmptyString (agg_OrderStatus new) (agg_OrderStatus old))
    (nonzero 0 (agg_LastFillTime new) (agg_LastFillTime old))
    (agg_SignalSent new || agg_SignalSent old)
    (nonzero 0 (agg_CreatedAt new) (agg_CreatedAt old)) now.

Definition OrderAggregation_Update (now : Z) d (agg : OrderAggregation)
    : tb_t OrderAggregation * error :=
  tb_Update d (by_oid (agg_Oid agg)) (update_columns now agg).

(** The rows deleted, or an error: the rows affected are 0 then. *)
Definition OrderAggregation_DeleteOld d (beforeTimestamp : Z)
    : tb_t OrderAggregation * Z * error :=
  match tb_Delete d (fun r => agg_UpdatedAt r <? beforeTimestamp * Second) with
  | (d, inr err) => (d, 0, Some err)
  | (d, inl n) => (d, n, nil_error)
  end.

Definition GetSentOrdersSince d (since : Z) : list OrderAggregation + string :=
  tb_Find d (fun r => agg_SignalSent r && (Unix since <=? agg_LastFillTime r)).

(** The unique index of the table, and the columns an upsert assigns. *)
Definition same_order (old new : OrderAggregation) : bool :=
  (agg_Oid old =? agg_Oid new) && bool_decide (agg_Address old = agg_Address new) &&
  bool_decide (agg_Direction old = agg_Direction new).

Definition assign_order (old new : OrderAggregation) : OrderAggregation :=
  mkOrderAggregation (agg_Oid old) (agg_Address old) (agg_Direction old) (agg_Symbol new)
    (agg_Fills new) (agg_TotalSize new) (agg_WeightedAvgPx new) (agg_OrderStatus new)
    (agg_LastFillTime new) (agg_SignalSent new) (agg_CreatedAt old) (agg_UpdatedAt new).

Definition OrderAggregation_BatchUpsert d (aggs : list OrderAggregation)
    : tb_t OrderAggregation * error := tb_Upsert d same_order assign_order aggs.
End order_aggregation.

(** ** position.go *)
Section position.
Context `{Table HlPositionCache}.
Implicit Types d : tb_t HlPositionCache.

Definition same_address (old new : HlPositionCache) : bool :=
  bool_decide (pc_Address old = pc_Address new).

Definition assign_position (old new : HlPositionCache) : HlPositionCache :=
  mkHlPositionCache (pc_Address old) (pc_SpotBalances new) (pc_SpotTotalUSD new)
    (pc_FuturesPositions new) (pc_AccountValue new) (pc_TotalMarginUsed new)
    (pc_TotalNtlPos new) (pc_Withdrawable new) (pc_UpdatedAt new).

Definition UpsertPositionCache d (cache : HlPositionCache) : tb_t HlPositionCache * error :=
  tb_Upsert d same_address assign_position [cache].

Definition Position_BatchUpsertPositionCache d (caches : list HlPositionCache)
    : tb_t HlPositionCache * error := tb_Upsert d same_address assign_position caches.

Definition GetPositionCache d (address : string) : HlPositionCache + string :=
  tb_First d (fun r => bool_decide (pc_Address r = address)).
End position.

(** ** pair_config.go, active_address.go, watch_address.go *)

Definition PairConfig_ListAll `{Table PairConfig} (d : tb_t PairConfig)
    : list PairConfig + string := tb_Find d (fun _ => true).

Record HlActiveAddress := mkHlActiveAddress {
  aa_ID : Z;
  aa_ServerID : Z;
  aa_Address : string;
  aa_CreatedAt : Z;
  aa_UpdatedAt : Z;
}.

(** Rows with a [DeletedAt] are invisible to queries. *)
Record HlWatchAddress := mkHlWatchAddress {
  wa_ID : Z;
  wa_PlayerID : Z;
  wa_Address : string;
  wa_Nickname : string;
  wa_IsSystem : bool;
  wa_CreatedAt : Z;
  wa_UpdatedAt : Z;
  wa_DeletedAt : option Z;
}.

(** SELECT DISTINCT of a column. *)
Definition distinct {Row} (f : Row -> string) (answer : list Row + string)
    : list string + string :=
  match answer with inl rows => inl (remove_dups (map f rows)) | inr err => inr err end.

Definition ActiveAddress_ListDistinctAddresses `{Table HlActiveAddress}
    (d : tb_t HlActiveAddress) : list string + string :=
  distinct aa_Address (tb_Find d (fun _ => true)).

Definition WatchAddress_ListDistinctAddresses `{Table HlWatchAddress}
    (d : tb_t HlWatchAddress) : list string + string :=
  distinct wa_Address (tb_Find d (fun r => bool_decide (wa_DeletedAt r = None))).

(** ** signal.go *)

(** [models.HlAddressSignal], the row of a signal. *)
Record DbAddressSignal := mkDbAddressSignal {
  das_ID : Z;
  das_Address : string;
  das_PositionRate : float64;
  das_CloseRate : float64;
  das_Symbol : string;
  das_CoinType : string;
  das_AssetType : string;
  das_Direction : string;
  das_Side : string;
  das_Price : float64;
  das_Size : float64;
  das_CreatedAt : Z;
  das_ExpiredAt : Z;
}.

(** [Time.AddDate(0, 0, days)] in UTC. *)
Definition AddDays (t days : Z) : Z := t + days * (24 * Hour).

Section signal.
Context `{Table DbAddressSignal}.
Implicit Types d : tb_t DbAddressSignal.

Definition signal_row (now : Z) (s : HlAddressSignal) (id : Z) : DbAddressSignal :=
  mkDbAddressSignal id (sig_Address s) (sig_PositionRate s) (sig_CloseRate s) (sig_Symbol s)
    (sig_CoinType s) (sig_AssetType s) (sig_Direction s) (sig_Side s) (sig_Price s) (sig_Size s)
    now (AddDays now 7).

Definition Signal_Create (now : Z) d (natsSignal : HlAddressSignal)
    : tb_t DbAddressSignal * error := tb_Insert d (signal_row now natsSignal).

Definition Signal_DeleteOld d (before : Z) : tb_t DbAddressSignal * Z * error :=
  match tb_Delete d (fun r => das_CreatedAt r <? before) with
  | (d, inr err) => (d, 0, Some err)
  | (d, inl n) => (d, n, nil_error)
  end.

Definition Signal_Count d : Z + string := tb_Count d.

(** [Scan] into a [uint]: no row leaves it 0. *)
Definition scan_id (rows : list DbAddressSignal) : Z :=
  match rows with row :: _ => das_ID row | [] => 0 end.

Definition DeleteOldest d (limit : Z) : tb_t DbAddressSignal * Z * error :=
  if limit <=? 0 then (d, 0, nil_error)
  else
    match tb_Page d (fun _ => true) 1 0 with
    | inr err => (d, 0, Some err)
    | inl rows =>
        let oldestID := scan_id rows in
        match tb_Page d (fun r => oldestID <=? das_ID r) 1 (Z.to_nat (limit - 1)) with
        | inr err => (d, 0, Some err)
        | inl rows =>
            let cutoffID := scan_id rows in
            match tb_Delete d (fun r => das_ID r <=? cutoffID) with
            | (d, inr err) => (d, 0, Some err)
            | (d, inl n) => (d, n, nil_error)
            end
        end
    end.
End signal.

(** ** Upserts by a key *)
Section keyed_upserts.
Context {Row K : Type} `{EqDecision K} (key : Row -> K).
Context (conflict : Row -> Row -> bool) (assign : Row -> Row -> Row).
Context (conflict_key : forall old new, conflict old new = true <-> key old = key new).
Context (assign_key : forall old new, key old = key new -> key (assign old new) = key new).

(** The row of a key, and the rows an upsert of [new] can leave for its key. *)
Definition row_at (rows : list Row) (k : K) : option Row :=
  head (filter (fun r => key r = k) rows).

Definition holds_row (rows : list Row) (new : Row) : Prop :=
  exists row, row_at rows (key new) = Some row /\
    (row = new \/ exists old, key old = key new /\ row = assign old new).

Lemma row_at_key rows k row : row_at rows k = Some row -> key row = k /\ row ∈ rows.
Proof.
  unfold row_at. intros Hr%head_Some_elem_of. by apply list_elem_of_filter in Hr.
Qed.

Lemma row_at_upsert rows new k :
  row_at (upsert_row conflict assign rows new) k =
  if decide (key new = k) then Some (match row_at rows k with
                                     | Some old => assign old new | None => new end)
  else row_at rows k.
Proof.
  unfold row_at. induction rows as [|old rows IH]; simpl.
  { rewrite filter_cons. by case_decide. }
  destruct (conflict old new) eqn:E.
  - apply conflict_key in E as E'. rewrite !filter_cons, (assign_key _ _ E'), E'.
    by case_decide.
  - assert (key old <> key new) as Hne by (rewrite <- conflict_key; congruence).
    rewrite !filter_cons. destruct (decide (key old = k)) as [Hk|Hk]; simpl.
    + rewrite decide_False; [done|congruence].
    + rewrite IH. done.
Qed.

Lemma upsert_keys rows new :
  (key new ∈ map key rows /\ map key (upsert_row conflict assign rows new) = map key rows) \/
  (key new ∉ map key rows /\
   map key (upsert_row conflict assign rows new) = map key rows ++ [key new]).
Proof.
  induction rows as [|old rows IH]; cbn [upsert_row map].
  { right. by split; [apply not_elem_of_nil|]. }
  destruct (conflict old new) eqn:E; cbn [map].
  - apply conflict_key in E as E'. left. rewrite (assign_key _ _ E'), E'. by split; [left|].
  - assert (key new <> key old) as Hne.
    { intros Hk. symmetry in Hk. apply conflict_key in Hk. congruence. }
    destruct IH as [[Hin ->]|[Hin ->]]; [left; by split; [right|]|right].
    split; [|done]. by intros [?|?]%elem_of_cons.
Qed.

Lemma upserts_keys_unique news : forall rows,
  NoDup (map key rows) -> NoDup (map key (fold_left (upsert_row conflict assign) news rows)).
Proof.
  induction news as [|new news IH]; intros rows Hnd; simpl; [done|]. apply IH.
  destruct (upsert_keys rows new) as [[_ ->]|[Hin ->]]; [done|].
  apply NoDup_app. split_and!; [done| |apply NoDup_singleton].
  by intros k Hk ->%list_elem_of_singleton.
Qed.

Lemma upserts_keys_elem k news : forall rows,
  k ∈ map key (fold_left (upsert_row conflict assign) news rows) ->
  k ∈ map key rows \/ k ∈ map key news.
Proof.
  induction news as [|new news IH]; intros rows; simpl; [by left|].
  intros [Hk|Hk]%IH; [|by right; right].
  destruct (upsert_keys rows new) as [[_ E]|[_ E]]; rewrite E in Hk; [by left|].
  apply elem_of_app in Hk as [?|?%list_elem_of_singleton]; [by left|]. right. subst. left.
Qed.

Lemma holds_row_upsert rows new : holds_row (upsert_row conflict assign rows new) new.
Proof.
  unfold holds_row. rewrite row_at_upsert, decide_True by done.
  eexists. split; [reflexivity|].
  destruct (row_at rows (key new)) as [old|] eqn:E; [right|by left].
  exists old. split; [|done]. by apply row_at_key in E as [? _].
Qed.

Lemma holds_row_other rows new other :
  key other <> key new -> holds_row rows new ->
  holds_row (upsert_row conflict assign rows other) new.
Proof.
  intros Hne (row & Hr & Ha). exists row. by rewrite row_at_upsert, decide_False.
Qed.

(** Upserts that bring a version of each key: the table then holds those
    versions, and what it held for the other keys. *)
Lemma holds_row_upserts news new : forall rows,
  new ∈ news \/ holds_row rows new ->
  (forall new', new' ∈ news -> key new' = key new -> new' = new) ->
  holds_row (fold_left (upsert_row conflict assign) news rows) new.
Proof.
  induction news as [|n news IH]; intros rows Hin Hun; simpl.
  { destruct Hin as [Hin|Hin]; [by apply elem_of_nil in Hin|done]. }
  apply IH; [|intros n' Hn'; apply Hun; by right].
  destruct (decide (key n = key new)) as [Hk|Hk].
  - rewrite (Hun n) by (done || left). right. apply holds_row_upsert.
  - destruct Hin as [[->|Hin]%elem_of_cons|Hin]; [done|by left|].
    right. by apply holds_row_other.
Qed.

Lemma row_at_upserts news k : forall rows,
  row_at (fold_left (upsert_row conflict assign) news rows) k =
  fold_left (fun o new => Some (match o with Some old => assign old new | None => new end))
    (filter (fun new => key new = k) news) (row_at rows k).
Proof.
  induction news as [|n news IH]; intros rows; simpl; [done|].
  rewrite IH, row_at_upsert, filter_cons. by case_decide.
Qed.
End keyed_upserts.

(** The key of an order's row. *)
Definition order_id (r : OrderAggregation) : Z * string * string :=
  (agg_Oid r, agg_Address r, agg_Direction r).

Lemma same_order_id old new : same_order old new = true <-> order_id old = order_id new.
Proof.
  unfold same_order, order_id. rewrite !andb_true_iff, Z.eqb_eq, !bool_decide_eq_true.
  split; [by intros [[-> ->] ->]|by intros [= -> -> ->]].
Qed.

Lemma assign_order_id old new :
  order_id old = order_id new -> order_id (assign_order old new) = order_id new.
Proof. done. Qed.

Lemma same_address_eq old new :
  same_address old new = true <-> pc_Address old = pc_Address new.
Proof. apply bool_decide_eq_true. Qed.

Lemma assign_position_same old new :
  pc_Address old = pc_Address new -> assign_position old new = new.
Proof. intros E. unfold assign_position. rewrite E. by destruct new. Qed.

(** ** What the queries do *)
Section signal_facts.
Context `{Table DbAddressSignal}.
Implicit Types d : tb_t DbAddressSignal.

(** The rows have increasing identifiers below the counter. *)
Definition signals_ok d : Prop :=
  StronglySorted (fun a b => das_ID a < das_ID b) (tb_rows d) /\
  Forall (fun r => 0 < das_ID r < tb_next d) (tb_rows d) /\ 0 < tb_next d.

Lemma StronglySorted_filter {A} (R : A -> A -> Prop) (w : A -> bool) b l :
  StronglySorted R l -> StronglySorted R (filter (fun x => w x = b) l).
Proof.
  induction 1 as [|x l Hs IH Hx]; [constructor|]. rewrite filter_cons.
  case_decide; [|done]. constructor; [done|]. by apply Forall_filter_keeps.
Qed.

Lemma signals_ok_filter d d' (w : DbAddressSignal -> bool) b :
  signals_ok d -> tb_rows d' = filter (fun r => w r = b) (tb_rows d) -> tb_next d' = tb_next d ->
  signals_ok d'.
Proof.
  intros (Hs & Hf & Hn) E En. unfold signals_ok. rewrite E, En.
  split; [by apply StronglySorted_filter|]. split; [by apply Forall_filter_keeps|done].
Qed.

Lemma signals_ok_same d d' :
  signals_ok d -> tb_rows d' = tb_rows d -> tb_next d' = tb_next d -> signals_ok d'.
Proof. unfold signals_ok. by intros ? -> ->. Qed.

Lemma Signal_Create_ok now d s :
  signals_ok d -> signals_ok (Signal_Create now d s).1.
Proof.
  intros (Hs & Hf & Hn). unfold Signal_Create.
  destruct (tb_Insert d (signal_row now s)) as [d' [err|]] eqn:E; simpl.
  - apply tb_Insert_err in E as [Er En]. unfold signals_ok. rewrite Er. split; [done|].
    split; [|lia]. eapply Forall_impl; [exact Hf|]. simpl. lia.
  - apply tb_Insert_ok in E as [Er En]. unfold signals_ok. rewrite Er. split; [|split; [|lia]].
    + apply StronglySorted_app_2; [|done|by repeat constructor]. intros a b Ha Hb.
      apply list_elem_of_singleton in Hb as ->. simpl. rewrite Forall_forall in Hf.
      by apply Hf.
    + apply Forall_app. split; [eapply Forall_impl; [exact Hf|]; simpl; lia|].
      repeat constructor; simpl; lia.
Qed.

(** Deleting up to the [k]-th identifier drops the first [k + 1] rows. *)
Lemma delete_up_to (rows : list DbAddressSignal) : forall k r,
  StronglySorted (fun a b => das_ID a < das_ID b) rows -> rows !! k = Some r ->
  filter (fun x => (das_ID x <=? das_ID r) = false) rows = drop (S k) rows /\
  filter (fun x => (das_ID x <=? das_ID r) = true) rows = take (S k) rows.
Proof.
  induction rows as [|x rows IH]; intros k r Hs Hk; [done|].
  apply StronglySorted_inv in Hs as [Hs Hx]. rewrite Forall_forall in Hx. rewrite !filter_cons.
  destruct k as [|k]; simpl in Hk.
  - injection Hk as ->. rewrite Z.leb_refl. rewrite decide_False, decide_True by done. cbn [drop take].
    assert (forall y, y ∈ rows -> (das_ID y <=? das_ID r) = false) as Hall.
    { intros y Hy. apply Z.leb_gt. by apply Hx. }
    split.
    + rewrite filter_all; [done|]. by apply Forall_forall.
    + f_equal. apply filter_none, Forall_forall. intros y Hy. by rewrite (Hall y Hy).
  - assert (das_ID x <= das_ID r) as Hle.
    { apply list_elem_of_lookup_2 in Hk. specialize (Hx r Hk). lia. }
    rewrite (proj2 (Z.leb_le _ _) Hle). rewrite decide_False, decide_True by done.
    destruct (IH k r Hs Hk) as [-> ->]. done.
Qed.

(** [DeleteOldest] deletes the oldest rows, as many as asked for; more rows
    than there are, none. *)
Lemma DeleteOldest_spec d limit d' n :
  signals_ok d -> DeleteOldest d limit = (d', n, nil_error) ->
  signals_ok d' /\
  (0 < limit <= Z.of_nat (length (tb_rows d)) ->
     tb_rows d' = drop (Z.to_nat limit) (tb_rows d) /\ n = limit) /\
  (limit <= 0 \/ Z.of_nat (length (tb_rows d)) < limit -> tb_rows d' = tb_rows d /\ n = 0).
Proof.
  intros Hok Hr. pose proof Hok as (Hs & Hf & Hn). unfold DeleteOldest in Hr.
  destruct (Z.leb_spec limit 0) as [Hl|Hl].
  { injection Hr as <- <-. split; [done|]. split; [lia|done]. }
  destruct (tb_Page d (fun _ => true) 1 0) as [first|err] eqn:E1; [|done].
  apply tb_Page_ok in E1. rewrite filter_all in E1 by by apply Forall_forall.
  set (oldest := scan_id first) in Hr.
  destruct (tb_Page d _ 1 (Z.to_nat (limit - 1))) as [second|err] eqn:E2; [|done].
  apply tb_Page_ok in E2. rewrite filter_all in E2.
  2:{ apply Forall_forall. intros r Hin. apply Z.leb_le. subst oldest. rewrite E1.
      destruct (tb_rows d) as [|x rows]; [by apply not_elem_of_nil in Hin|]. simpl.
      apply StronglySorted_inv in Hs as [_ Hx]. apply elem_of_cons in Hin as [->|Hin]; [lia|].
      rewrite Forall_forall in Hx. by apply Z.lt_le_incl, Hx. }
  destruct (tb_Delete d _) as [d1 [k|err]] eqn:E3; [|done]. injection Hr as <- <-.
  apply tb_Delete_ok in E3 as (Er & Ek & En).
  split; [exact (signals_ok_filter d d1 (fun r => das_ID r <=? scan_id second) false Hok Er En)|].
  destruct (tb_rows d !! Z.to_nat (limit - 1)) as [r|] eqn:Elk.
  - apply lookup_lt_Some in Elk as Hlt. split; [intros _|lia].
    assert (scan_id second = das_ID r) as Ec.
    { rewrite E2. rewrite <- (take_drop_middle _ _ _ Elk) at 1.
      rewrite drop_app_ge by (rewrite length_take; lia).
      rewrite length_take, Nat.min_l by lia. by rewrite Nat.sub_diag. }
    rewrite Ec in Er, Ek. destruct (delete_up_to _ _ _ Hs Elk) as [D1 D2].
    rewrite D1 in Er. rewrite D2, length_take in Ek.
    replace (S (Z.to_nat (limit - 1))) with (Z.to_nat limit) in * by lia.
    split; [done|]. lia.
  - apply lookup_ge_None in Elk as Hge. split; [lia|intros _].
    assert (scan_id second = 0) as Ec by (rewrite E2, drop_ge; done).
    rewrite Ec in Er, Ek.
    assert (Forall (fun x => (das_ID x <=? 0) = false) (tb_rows d)) as Hpos.
    { eapply Forall_impl; [exact Hf|]. simpl. intros x ?. apply Z.leb_gt. lia. }
    rewrite filter_all in Er by done. split; [done|]. rewrite Ek.
    rewrite filter_none; [done|]. eapply Forall_impl; [exact Hpos|]. simpl. by intros x ->.
Qed.

Lemma DeleteOldest_err d limit d' n err :
  DeleteOldest d limit = (d', n, Some err) ->
  tb_rows d' = tb_rows d /\ tb_next d' = tb_next d.
Proof.
  unfold DeleteOldest. destruct (limit <=? 0); [done|].
  destruct (tb_Page _ _ _ _) as [first|e1]; [|by intros [= <- _ _]].
  destruct (tb_Page _ _ _ _) as [second|e2]; [|by intros [= <- _ _]].
  destruct (tb_Delete d _) as [d1 [k|e3]] eqn:E3; [done|]. intros [= <- _ _].
  by apply tb_Delete_err in E3.
Qed.
End signal_facts.

(** ** A table that never fails, for the witnesses *)

#[export] Program Instance reference_table {Row} : Table Row | 100 := {|
  tb_t := Z * list Row;
  tb_rows d := d.2;
  tb_next d := d.1;
  tb_Find d w := inl (filter (fun r => w r = true) d.2);
  tb_Page d w limit offset := inl (take limit (drop offset (filter (fun r => w r = true) d.2)));
  tb_Count d := inl (Z.of_nat (length d.2));
  tb_Insert d mk := ((d.1 + 1, d.2 ++ [mk d.1]), nil_error);
  tb_Update d w f := ((d.1, map (fun r => if w r then f r else r) d.2), nil_error);
  tb_Upsert d conflict assign rows :=
    ((d.1, fold_left (upsert_row conflict assign) rows d.2), nil_error);
  tb_Delete d w := ((d.1, filter (fun r => w r = false) d.2),
                    inl (Z.of_nat (length (filter (fun r => w r = true) d.2))));
|}.
Next Obligation. intros Row d w rows [= <-]. done. Qed.
Next Obligation. intros Row d w limit offset rows [= <-]. done. Qed.
Next Obligation. intros Row d n [= <-]. done. Qed.
Next Obligation. intros Row d mk d' [= <-]. simpl. split; [done|lia]. Qed.
Next Obligation. done. Qed.
Next Obligation. intros Row d w f d' [= <-]. done. Qed.
Next Obligation. done. Qed.
Next Obligation. intros Row d conflict assign rows d' [= <-]. done. Qed.
Next Obligation. done. Qed.
Next Obligation. intros Row d w d' n [= <- <-]. done. Qed.
Next Obligation. done. Qed.
