(* ===== verification/GenFields.v ===== *)
(** * internal/dal/gen: the generated query structs

    One struct per table, with the fields that name its columns, and gen.go's
    [Query] that holds them all.  gorm and gorm.io/gen are the class [Gorm].
    The six structs are instances of the class [Generated], for which the
    methods that are the same text in every file ([query_Table], [As],
    [GetFieldByName], [clone], [replaceDB]) are defined once. *)

From stdpp Require Import gmap strings list.
From S2P Require Import Prelude Columns.

(** ** Field expressions

    gorm.io/gen/field: a field is known by what it was made from. *)

Inductive field_kind : Type :=
| KAsterisk | KUint | KUint8 | KInt | KInt64 | KString | KFloat64 | KBool | KTime | KField.

Record field_expr := mkField {
  fe_kind : field_kind;
  fe_table : string;
  fe_column : string;
}.

Definition NewAsterisk (table : string) : field_expr := mkField KAsterisk table "*".
Definition NewUint : string -> string -> field_expr := mkField KUint.
Definition NewUint8 : string -> string -> field_expr := mkField KUint8.
Definition NewInt : string -> string -> field_expr := mkField KInt.
Definition NewInt64 : string -> string -> field_expr := mkField KInt64.
Definition NewString : string -> string -> field_expr := mkField KString.
Definition NewFloat64 : string -> string -> field_expr := mkField KFloat64.
Definition NewBool : string -> string -> field_expr := mkField KBool.
Definition NewTime : string -> string -> field_expr := mkField KTime.
Definition NewField : string -> string -> field_expr := mkField KField.

#[export] Instance field_kind_eq_dec : EqDecision field_kind.
Proof. solve_decision. Defined.
#[export] Instance field_expr_eq_dec : EqDecision field_expr.
Proof. solve_decision. Defined.

(** ** gorm and gorm.io/gen

    [gorm_DB] is a handle, whose statements go to a connection pool (that of a
    transaction, inside one); [gen_DO] is a statement under construction.
    [gorm_Transaction] hands its function a handle on a transaction, and keeps
    what it did when it returns no error and the commit does not fail. *)
Class Gorm := {
  gorm_DB : Type;
  gorm_Pool : Type;
  gorm_World : Type;                 (* what the server stores *)
  gen_DOOption : Type;
  gen_DO : Type;
  db_ConnPool : gorm_DB -> gorm_Pool;
  gorm_Transaction : gorm_DB -> (gorm_DB -> gorm_World -> gorm_World * error) ->
    gorm_World -> gorm_World * error;
  do_zero : gen_DO;
  do_UseDB : gorm_DB -> list gen_DOOption -> gen_DO -> gen_DO;
  do_UseModel : string -> gen_DO -> gen_DO;      (* the model's TableName *)
  do_UseTable : string -> gen_DO -> gen_DO;
  do_As : string -> gen_DO -> gen_DO;
  do_ReplaceConnPool : gorm_Pool -> gen_DO -> gen_DO;
  do_ReplaceDB : gorm_DB -> gen_DO -> gen_DO;
  do_TableName : gen_DO -> string;
  do_ConnPool : gen_DO -> gorm_Pool;
  OrderExpr : field_expr -> bool;                (* implements the interface *)
  do_TableName_UseModel : forall t d, do_TableName (do_UseModel t d) = t;
  do_ConnPool_ReplaceConnPool : forall p d, do_ConnPool (do_ReplaceConnPool p d) = p;
  do_ConnPool_ReplaceDB : forall db d, do_ConnPool (do_ReplaceDB db d) = db_ConnPool db;
  OrderExpr_field : forall f, fe_kind f <> KAsterisk -> OrderExpr f = true;
  gorm_Transaction_ok : forall db fc w w', gorm_Transaction db fc w = (w', None) ->
    exists tx, fc tx w = (w', None);
  gorm_Transaction_err : forall db fc w w' err, gorm_Transaction db fc w = (w', Some err) -> w' = w;
}.

(** ** A generated struct *)

Class Generated `{Gorm} (Q : Type) := {
  q_model : string;                               (* the model's TableName *)
  q_columns : list (field_kind * string);         (* the model's columns *)
  q_new : gorm_DB -> list gen_DOOption -> Q;
  q_do : Q -> gen_DO;
  q_with_do : gen_DO -> Q -> Q;
  q_ALL : Q -> field_expr;
  q_fields : Q -> list field_expr;
  q_fieldMap : Q -> gmap string field_expr;
  updateTableName : string -> Q -> Q;
}.

Section methods.
Context `{Generated Q}.
Implicit Types q : Q.

Definition query_Table (newTableName : string) q : Q :=
  updateTableName newTableName (q_with_do (do_UseTable newTableName (q_do q)) q).

Definition As (alias : string) q : Q :=
  updateTableName alias (q_with_do (do_As alias (q_do q)) q).

Definition GetFieldByName q (fieldName : string) : option field_expr * bool :=
  match q_fieldMap q !! fieldName with
  | None => (None, false)
  | Some f => if OrderExpr f then (Some f, true) else (None, false)
  end.

Definition clone (db : gorm_DB) q : Q :=
  q_with_do (do_ReplaceConnPool (db_ConnPool db) (q_do q)) q.

Definition replaceDB (db : gorm_DB) q : Q := q_with_do (do_ReplaceDB db (q_do q)) q.
End methods.

(** A map filled by assignments, in their order. *)
Definition fill_map (entries : list (string * field_expr)) : gmap string field_expr :=
  foldl (fun m kv => <[kv.1 := kv.2]> m) ∅ entries.

(** ** The six structs *)
Section structs.
Context `{G : Gorm}.

(** *** hl_active_addresses.gen.go *)

Record hlActiveAddress := mk_hlActiveAddress {
  qaa_do : gen_DO;
  qaa_ALL : field_expr;
  qaa_ID : field_expr;
  qaa_ServerID : field_expr;
  qaa_Address : field_expr;
  qaa_CreatedAt : field_expr;
  qaa_UpdatedAt : field_expr;
  qaa_fieldMap : gmap string field_expr;
}.

Definition hlActiveAddress_fillFieldMap (q : hlActiveAddress) : hlActiveAddress :=
  mk_hlActiveAddress (qaa_do q) (qaa_ALL q)
    (qaa_ID q) (qaa_ServerID q) (qaa_Address q) (qaa_CreatedAt q) (qaa_UpdatedAt q)
    (fill_map [
      ("id", qaa_ID q); ("server_id", qaa_ServerID q); ("address", qaa_Address q);
      ("created_at", qaa_CreatedAt q); ("updated_at", qaa_UpdatedAt q)]).

Definition newHlActiveAddress (db : gorm_DB) (opts : list gen_DOOption) : hlActiveAddress :=
  let dao := do_UseModel HlActiveAddress_TableName (do_UseDB db opts do_zero) in
  let tableName := do_TableName dao in
  hlActiveAddress_fillFieldMap (mk_hlActiveAddress dao (NewAsterisk tableName)
    (NewInt64 tableName "id") (NewInt tableName "server_id") (NewString tableName "address")
    (NewTime tableName "created_at") (NewTime tableName "updated_at")
    ∅).

Definition hlActiveAddress_updateTableName (table : string) (q : hlActiveAddress) : hlActiveAddress :=
  hlActiveAddress_fillFieldMap (mk_hlActiveAddress (qaa_do q) (NewAsterisk table)
    (NewInt64 table "id") (NewInt table "server_id") (NewString table "address")
    (NewTime table "created_at") (NewTime table "updated_at")
    (qaa_fieldMap q)).

(** [models.HlActiveAddress], the struct the code was generated from. *)
Definition HlActiveAddress_columns : list (field_kind * string) := [
  (KInt64, "id"); (KInt, "server_id"); (KString, "address"); (KTime, "created_at");
  (KTime, "updated_at")].

#[export] Instance hlActiveAddress_generated : Generated hlActiveAddress := {|
  q_model := HlActiveAddress_TableName;
  q_columns := HlActiveAddress_columns;
  q_new := newHlActiveAddress;
  q_do := qaa_do;
  q_with_do := fun dao q => mk_hlActiveAddress dao (qaa_ALL q)
    (qaa_ID q) (qaa_ServerID q) (qaa_Address q) (qaa_CreatedAt q) (qaa_UpdatedAt q) (qaa_fieldMap q);
  q_ALL := qaa_ALL;
  q_fields := fun q => [
    qaa_ID q; qaa_ServerID q; qaa_Address q; qaa_CreatedAt q; qaa_UpdatedAt q];
  q_fieldMap := qaa_fieldMap;
  updateTableName := hlActiveAddress_updateTableName;
|}.

(** *** hl_address_signals.gen.go *)

Record hlAddressSignal := mk_hlAddressSignal {
  qas_do : gen_DO;
  qas_ALL : field_expr;
  qas_ID : field_expr;
  qas_Address : field_expr;
  qas_PositionRate : field_expr;
  qas_CloseRate : field_expr;
  qas_Symbol : field_expr;
  qas_CoinType : field_expr;
  qas_AssetType : field_expr;
  qas_Direction : field_expr;
  qas_Side : field_expr;
  qas_Price : field_expr;
  qas_Size : field_expr;
  qas_CreatedAt : field_expr;
  qas_ExpiredAt : field_expr;
  qas_fieldMap : gmap string field_expr;
}.

Definition hlAddressSignal_fillFieldMap (q : hlAddressSignal) : hlAddressSignal :=
  mk_hlAddressSignal (qas_do q) (qas_ALL q)
    (qas_ID q) (qas_Address q) (qas_PositionRate q) (qas_CloseRate q) (qas_Symbol q)
    (qas_CoinType q) (qas_AssetType q) (qas_Direction q) (qas_Side q) (qas_Price q)
    (qas_Size q) (qas_CreatedAt q) (qas_ExpiredAt q)
    (fill_map [
      ("id", qas_ID q); ("address", qas_Address q); ("position_rate", qas_PositionRate q);
      ("close_rate", qas_CloseRate q); ("symbol", qas_Symbol q); ("coin_type", qas_CoinType q);
      ("asset_type", qas_AssetType q); ("direction", qas_Direction q); ("side", qas_Side q);
      ("price", qas_Price q); ("size", qas_Size q); ("created_at", qas_CreatedAt q);
      ("expired_at", qas_ExpiredAt q)]).

Definition newHlAddressSignal (db : gorm_DB) (opts : list gen_DOOption) : hlAddressSignal :=
  let dao := do_UseModel HlAddressSignal_TableName (do_UseDB db opts do_zero) in
  let tableName := do_TableName dao in
  hlAddressSignal_fillFieldMap (mk_hlAddressSignal dao (NewAsterisk tableName)
    (NewUint tableName "id") (NewString tableName "address")
    (NewFloat64 tableName "position_rate") (NewFloat64 tableName "close_rate")
    (NewString tableName "symbol") (NewString tableName "coin_type")
    (NewString tableName "asset_type") (NewString tableName "direction")
    (NewString tableName "side") (NewFloat64 tableName "price") (NewFloat64 tableName "size")
    (NewTime tableName "created_at") (NewTime tableName "expired_at")
    ∅).

Definition hlAddressSignal_updateTableName (table : string) (q : hlAddressSignal) : hlAddressSignal :=
  hlAddressSignal_fillFieldMap (mk_hlAddressSignal (qas_do q) (NewAsterisk table)
    (NewUint table "id") (NewString table "address") (NewFloat64 table "position_rate")
    (NewFloat64 table "close_rate") (NewString table "symbol") (NewString table "coin_type")
    (NewString table "asset_type") (NewString table "direction") (NewString table "side")
    (NewFloat64 table "price") (NewFloat64 table "size") (NewTime table "created_at")
    (NewTime table "expired_at")
    (qas_fieldMap q)).

(** [models.HlAddressSignal], the struct the code was generated from. *)
Definition HlAddressSignal_columns : list (field_kind * string) := [
  (KUint, "id"); (KString, "address"); (KFloat64, "position_rate"); (KFloat64, "close_rate");
  (KString, "symbol"); (KString, "coin_type"); (KString, "asset_type"); (KString, "direction");
  (KString, "side"); (KFloat64, "price"); (KFloat64, "size"); (KTime, "created_at");
  (KTime, "expired_at")].

#[export] Instance hlAddressSignal_generated : Generated hlAddressSignal := {|
  q_model := HlAddressSignal_TableName;
  q_columns := HlAddressSignal_columns;
  q_new := newHlAddressSignal;
  q_do := qas_do;
  q_with_do := fun dao q => mk_hlAddressSignal dao (qas_ALL q)
    (qas_ID q) (qas_Address q) (qas_PositionRate q) (qas_CloseRate q) (qas_Symbol q)
    (qas_CoinType q) (qas_AssetType q) (qas_Direction q) (qas_Side q) (qas_Price q)
    (qas_Size q) (qas_CreatedAt q) (qas_ExpiredAt q) (qas_fieldMap q);
  q_ALL := qas_ALL;
  q_fields := fun q => [
    qas_ID q; qas_Address q; qas_PositionRate q; qas_CloseRate q; qas_Symbol q; qas_CoinType q;
    qas_AssetType q; qas_Direction q; qas_Side q; qas_Price q; qas_Size q; qas_CreatedAt q;
    qas_ExpiredAt q];
  q_fieldMap := qas_fieldMap;
  updateTableName := hlAddressSignal_updateTableName;
|}.

(** *** hl_position_cache.gen.go *)

Record hlPositionCache := mk_hlPositionCache {
  qpc_do : gen_DO;
  qpc_ALL : field_expr;
  qpc_ID : field_expr;
  qpc_Address : field_expr;
  qpc_SpotBalances : field_expr;
  qpc_SpotTotalUSD : field_expr;
  qpc_FuturesPositions : field_expr;
  qpc_AccountValue : field_expr;
  qpc_TotalMarginUsed : field_expr;
  qpc_TotalNtlPos : field_expr;
  qpc_Withdrawable : field_expr;
  qpc_UpdatedAt : field_expr;
  qpc_fieldMap : gmap string field_expr;
}.

Definition hlPositionCache_fillFieldMap (q : hlPositionCache) : hlPositionCache :=
  mk_hlPositionCache (qpc_do q) (qpc_ALL q)
    (qpc_ID q) (qpc_Address q) (qpc_SpotBalances q) (qpc_SpotTotalUSD q)
    (qpc_FuturesPositions q) (qpc_AccountValue q) (qpc_TotalMarginUsed q) (qpc_TotalNtlPos q)
    (qpc_Withdrawable q) (qpc_UpdatedAt q)
    (fill_map [
      ("id", qpc_ID q); ("address", qpc_Address q); ("spot_balances", qpc_SpotBalances q);
      ("spot_total_usd", qpc_SpotTotalUSD q); ("futures_positions", qpc_FuturesPositions q);
      ("account_value", qpc_AccountValue q); ("total_margin_used", qpc_TotalMarginUsed q);
      ("total_ntl_pos", qpc_TotalNtlPos q); ("withdrawable", qpc_Withdrawable q);
      ("updated_at", qpc_UpdatedAt q)]).

Definition newHlPositionCache (db : gorm_DB) (opts : list gen_DOOption) : hlPositionCache :=
  let dao := do_UseModel HlPositionCache_TableName (do_UseDB db opts do_zero) in
  let tableName := do_TableName dao in
  hlPositionCache_fillFieldMap (mk_hlPositionCache dao (NewAsterisk tableName)
    (NewUint tableName "id") (NewString tableName "address")
    (NewString tableName "spot_balances") (NewString tableName "spot_total_usd")
    (NewString tableName "futures_positions") (NewString tableName "account_value")
    (NewString tableName "total_margin_used") (NewString tableName "total_ntl_pos")
    (NewString tableName "withdrawable") (NewTime tableName "updated_at")
    ∅).

Definition hlPositionCache_updateTableName (table : string) (q : hlPositionCache) : hlPositionCache :=
  hlPositionCache_fillFieldMap (mk_hlPositionCache (qpc_do q) (NewAsterisk table)
    (NewUint table "id") (NewString table "address") (NewString table "spot_balances")
    (NewString table "spot_total_usd") (NewString table "futures_positions")
    (NewString table "account_value") (NewString table "total_margin_used")
    (NewString table "total_ntl_pos") (NewString table "withdrawable")
    (NewTime table "updated_at")
    (qpc_fieldMap q)).

(** [models.HlPositionCache], the struct the code was generated from. *)
Definition HlPositionCache_columns : list (field_kind * string) := [
  (KUint, "id"); (KString, "address"); (KString, "spot_balances"); (KString, "spot_total_usd");
  (KString, "futures_positions"); (KString, "account_value"); (KString, "total_margin_used");
  (KString, "total_ntl_pos"); (KString, "withdrawable"); (KTime, "updated_at")].

#[export] Instance hlPositionCache_generated : Generated hlPositionCache := {|
  q_model := HlPositionCache_TableName;
  q_columns := HlPositionCache_columns;
  q_new := newHlPositionCache;
  q_do := qpc_do;
  q_with_do := fun dao q => mk_hlPositionCache dao (qpc_ALL q)
    (qpc_ID q) (qpc_Address q) (qpc_SpotBalances q) (qpc_SpotTotalUSD q)
    (qpc_FuturesPositions q) (qpc_AccountValue q) (qpc_TotalMarginUsed q) (qpc_TotalNtlPos q)
    (qpc_Withdrawable q) (qpc_UpdatedAt q) (qpc_fieldMap q);
  q_ALL := qpc_ALL;
  q_fields := fun q => [
    qpc_ID q; qpc_Address q; qpc_SpotBalances q; qpc_SpotTotalUSD q; qpc_FuturesPositions q;
    qpc_AccountValue q; qpc_TotalMarginUsed q; qpc_TotalNtlPos q; qpc_Withdrawable q;
    qpc_UpdatedAt q];
  q_fieldMap := qpc_fieldMap;
  updateTableName := hlPositionCache_updateTableName;
|}.

(** *** hl_watch_addresses.gen.go *)

Record hlWatchAddress := mk_hlWatchAddress {
  qwa_do : gen_DO;
  qwa_ALL : field_expr;
  qwa_ID : field_expr;
  qwa_PlayerID : field_expr;
  qwa_Address : field_expr;
  qwa_Nickname : field_expr;
  qwa_IsSystem : field_expr;
  qwa_CreatedAt : field_expr;
  qwa_UpdatedAt : field_expr;
  qwa_DeletedAt : field_expr;
  qwa_fieldMap : gmap string field_expr;
}.

Definition hlWatchAddress_fillFieldMap (q : hlWatchAddress) : hlWatchAddress :=
  mk_hlWatchAddress (qwa_do q) (qwa_ALL q)
    (qwa_ID q) (qwa_PlayerID q) (qwa_Address q) (qwa_Nickname q) (qwa_IsSystem q)
    (qwa_CreatedAt q) (qwa_UpdatedAt q) (qwa_DeletedAt q)
    (fill_map [
      ("id", qwa_ID q); ("player_id", qwa_PlayerID q); ("address", qwa_Address q);
      ("nickname", qwa_Nickname q); ("is_system", qwa_IsSystem q);
      ("created_at", qwa_CreatedAt q); ("updated_at", qwa_UpdatedAt q);
      ("deleted_at", qwa_DeletedAt q)]).

Definition newHlWatchAddress (db : gorm_DB) (opts : list gen_DOOption) : hlWatchAddress :=
  let dao := do_UseModel HlWatchAddress_TableName (do_UseDB db opts do_zero) in
  let tableName := do_TableName dao in
  hlWatchAddress_fillFieldMap (mk_hlWatchAddress dao (NewAsterisk tableName)
    (NewUint tableName "id") (NewUint tableName "player_id") (NewString tableName "address")
    (NewString tableName "nickname") (NewBool tableName "is_system")
    (NewTime tableName "created_at") (NewTime tableName "updated_at")
    (NewField tableName "deleted_at")
    ∅).

Definition hlWatchAddress_updateTableName (table : string) (q : hlWatchAddress) : hlWatchAddress :=
  hlWatchAddress_fillFieldMap (mk_hlWatchAddress (qwa_do q) (NewAsterisk table)
    (NewUint table "id") (NewUint table "player_id") (NewString table "address")
    (NewString table "nickname") (NewBool table "is_system") (NewTime table "created_at")
    (NewTime table "updated_at") (NewField table "deleted_at")
    (qwa_fieldMap q)).

(** [models.HlWatchAddress], the struct the code was generated from. *)
Definition HlWatchAddress_columns : list (field_kind * string) := [
  (KUint, "id"); (KUint, "player_id"); (KString, "address"); (KString, "nickname");
  (KBool, "is_system"); (KTime, "created_at"); (KTime, "updated_at"); (KField, "deleted_at")].

#[export] Instance hlWatchAddress_generated : Generated hlWatchAddress := {|
  q_model := HlWatchAddress_TableName;
  q_columns := HlWatchAddress_columns;
  q_new := newHlWatchAddress;
  q_do := qwa_do;
  q_with_do := fun dao q => mk_hlWatchAddress dao (qwa_ALL q)
    (qwa_ID q) (qwa_PlayerID q) (qwa_Address q) (qwa_Nickname q) (qwa_IsSystem q)
    (qwa_CreatedAt q) (qwa_UpdatedAt q) (qwa_DeletedAt q) (qwa_fieldMap q);
  q_ALL := qwa_ALL;
  q_fields := fun q => [
    qwa_ID q; qwa_PlayerID q; qwa_Address q; qwa_Nickname q; qwa_IsSystem q; qwa_CreatedAt q;
    qwa_UpdatedAt q; qwa_DeletedAt q];
  q_fieldMap := qwa_fieldMap;
  updateTableName := hlWatchAddress_updateTableName;
|}.

(** *** hl_order_aggregation.gen.go *)

Record orderAggregation := mk_orderAggregation {
  qoa_do : gen_DO;
  qoa_ALL : field_expr;
  qoa_ID : field_expr;
  qoa_Oid : field_expr;
  qoa_Address : field_expr;
  qoa_Direction : field_expr;
  qoa_Symbol : field_expr;
  qoa_Fills : field_expr;
  qoa_TotalSize : field_expr;
  qoa_WeightedAvgPx : field_expr;
  qoa_OrderStatus : field_expr;
  qoa_LastFillTime : field_expr;
  qoa_SignalSent : field_expr;
  qoa_CreatedAt : field_expr;
  qoa_UpdatedAt : field_expr;
  qoa_fieldMap : gmap string field_expr;
}.

Definition orderAggregation_fillFieldMap (q : orderAggregation) : orderAggregation :=
  mk_orderAggregation (qoa_do q) (qoa_ALL q)
    (qoa_ID q) (qoa_Oid q) (qoa_Address q) (qoa_Direction q) (qoa_Symbol q) (qoa_Fills q)
    (qoa_TotalSize q) (qoa_WeightedAvgPx q) (qoa_OrderStatus q) (qoa_LastFillTime q)
    (qoa_SignalSent q) (qoa_CreatedAt q) (qoa_UpdatedAt q)
    (fill_map [
      ("id", qoa_ID q); ("oid", qoa_Oid q); ("address", qoa_Address q);
      ("direction", qoa_Direction q); ("symbol", qoa_Symbol q); ("fills", qoa_Fills q);
      ("total_size", qoa_TotalSize q); ("weighted_avg_px", qoa_WeightedAvgPx q);
      ("order_status", qoa_OrderStatus q); ("last_fill_time", qoa_LastFillTime q);
      ("signal_sent", qoa_SignalSent q); ("created_at", qoa_CreatedAt q);
      ("updated_at", qoa_UpdatedAt q)]).

Definition newOrderAggregation (db : gorm_DB) (opts : list gen_DOOption) : orderAggregation :=
  let dao := do_UseModel OrderAggregation_TableName (do_UseDB db opts do_zero) in
  let tableName := do_TableName dao in
  orderAggregation_fillFieldMap (mk_orderAggregation dao (NewAsterisk tableName)
    (NewInt64 tableName "id") (NewInt64 tableName "oid") (NewString tableName "address")
    (NewString tableName "direction") (NewString tableName "symbol")
    (NewField tableName "fills") (NewFloat64 tableName "total_size")
    (NewFloat64 tableName "weighted_avg_px") (NewString tableName "order_status")
    (NewInt64 tableName "last_fill_time") (NewBool tableName "signal_sent")
    (NewTime tableName "created_at") (NewTime tableName "updated_at")
    ∅).

Definition orderAggregation_updateTableName (table : string) (q : orderAggregation) : orderAggregation :=
  orderAggregation_fillFieldMap (mk_orderAggregation (qoa_do q) (NewAsterisk table)
    (NewInt64 table "id") (NewInt64 table "oid") (NewString table "address")
    (NewString table "direction") (NewString table "symbol") (NewField table "fills")
    (NewFloat64 table "total_size") (NewFloat64 table "weighted_avg_px")
    (NewString table "order_status") (NewInt64 table "last_fill_time")
    (NewBool table "signal_sent") (NewTime table "created_at") (NewTime table "updated_at")
    (qoa_fieldMap q)).

(** [models.OrderAggregation], the struct the code was generated from. *)
Definition OrderAggregation_columns : list (field_kind * string) := [
  (KInt64, "id"); (KInt64, "oid"); (KString, "address"); (KString, "direction");
  (KString, "symbol"); (KField, "fills"); (KFloat64, "total_size");
  (KFloat64, "weighted_avg_px"); (KString, "order_status"); (KInt64, "last_fill_time");
  (KBool, "signal_sent"); (KTime, "created_at"); (KTime, "updated_at")].

#[export] Instance orderAggregation_generated : Generated orderAggregation := {|
  q_model := OrderAggregation_TableName;
  q_columns := OrderAggregation_columns;
  q_new := newOrderAggregation;
  q_do := qoa_do;
  q_with_do := fun dao q => mk_orderAggregation dao (qoa_ALL q)
    (qoa_ID q) (qoa_Oid q) (qoa_Address q) (qoa_Direction q) (qoa_Symbol q) (qoa_Fills q)
    (qoa_TotalSize q) (qoa_WeightedAvgPx q) (qoa_OrderStatus q) (qoa_LastFillTime q)
    (qoa_SignalSent q) (qoa_CreatedAt q) (qoa_UpdatedAt q) (qoa_fieldMap q);
  q_ALL := qoa_ALL;
  q_fields := fun q => [
    qoa_ID q; qoa_Oid q; qoa_Address q; qoa_Direction q; qoa_Symbol q; qoa_Fills q;
    qoa_TotalSize q; qoa_WeightedAvgPx q; qoa_OrderStatus q; qoa_LastFillTime q;
    qoa_SignalSent q; qoa_CreatedAt q; qoa_UpdatedAt q];
  q_fieldMap := qoa_fieldMap;
  updateTableName := orderAggregation_updateTableName;
|}.

(** *** pair_configs.gen.go *)

Record pairConfig := mk_pairConfig {
  qcf_do : gen_DO;
  qcf_ALL : field_expr;
  qcf_ID : field_expr;
  qcf_Symbol : field_expr;
  qcf_Platform : field_expr;
  qcf_Category : field_expr;
  qcf_fieldMap : gmap string field_expr;
}.

Definition pairConfig_fillFieldMap (q : pairConfig) : pairConfig :=
  mk_pairConfig (qcf_do q) (qcf_ALL q)
    (qcf_ID q) (qcf_Symbol q) (qcf_Platform q) (qcf_Category q)
    (fill_map [
      ("id", qcf_ID q); ("symbol", qcf_Symbol q); ("platform", qcf_Platform q);
      ("category", qcf_Category q)]).

Definition newPairConfig (db : gorm_DB) (opts : list gen_DOOption) : pairConfig :=
  let dao := do_UseModel PairConfig_TableName (do_UseDB db opts do_zero) in
  let tableName := do_TableName dao in
  pairConfig_fillFieldMap (mk_pairConfig dao (NewAsterisk tableName)
    (NewUint tableName "id") (NewString tableName "symbol") (NewString tableName "platform")
    (NewUint8 tableName "category")
    ∅).

Definition pairConfig_updateTableName (table : string) (q : pairConfig) : pairConfig :=
  pairConfig_fillFieldMap (mk_pairConfig (qcf_do q) (NewAsterisk table)
    (NewUint table "id") (NewString table "symbol") (NewString table "platform")
    (NewUint8 table "category")
    (qcf_fieldMap q)).

(** [models.PairConfig], the struct the code was generated from. *)
Definition PairConfig_columns : list (field_kind * string) := [
  (KUint, "id"); (KString, "symbol"); (KString, "platform"); (KUint8, "category")].

#[export] Instance pairConfig_generated : Generated pairConfig := {|
  q_model := PairConfig_TableName;
  q_columns := PairConfig_columns;
  q_new := newPairConfig;
  q_do := qcf_do;
  q_with_do := fun dao q => mk_pairConfig dao (qcf_ALL q)
    (qcf_ID q) (qcf_Symbol q) (qcf_Platform q) (qcf_Category q) (qcf_fieldMap q);
  q_ALL := qcf_ALL;
  q_fields := fun q => [
    qcf_ID q; qcf_Symbol q; qcf_Platform q; qcf_Category q];
  q_fieldMap := qcf_fieldMap;
  updateTableName := pairConfig_updateTableName;
|}.

(** ** gen.go *)

Record Query := mkQuery {
  q_db : option gorm_DB;
  q_HlActiveAddress : hlActiveAddress;
  q_HlAddressSignal : hlAddressSignal;
  q_HlPositionCache : hlPositionCache;
  q_HlWatchAddress : hlWatchAddress;
  q_OrderAggregation : orderAggregation;
  q_PairConfig : pairConfig;
}.

Definition Use (db : gorm_DB) (opts : list gen_DOOption) : Query :=
  mkQuery (Some db) (newHlActiveAddress db opts) (newHlAddressSignal db opts)
    (newHlPositionCache db opts) (newHlWatchAddress db opts) (newOrderAggregation db opts)
    (newPairConfig db opts).

Definition Available (q : Query) : bool := match q_db q with Some _ => true | None => false end.

Definition Query_clone (db : gorm_DB) (q : Query) : Query :=
  mkQuery (Some db) (clone db (q_HlActiveAddress q)) (clone db (q_HlAddressSignal q))
    (clone db (q_HlPositionCache q)) (clone db (q_HlWatchAddress q))
    (clone db (q_OrderAggregation q)) (clone db (q_PairConfig q)).

Definition ReplaceDB (db : gorm_DB) (q : Query) : Query :=
  mkQuery (Some db) (replaceDB db (q_HlActiveAddress q)) (replaceDB db (q_HlAddressSignal q))
    (replaceDB db (q_HlPositionCache q)) (replaceDB db (q_HlWatchAddress q))
    (replaceDB db (q_OrderAggregation q)) (replaceDB db (q_PairConfig q)).

(** A [Query] without a handle panics. *)
Definition Query_Transaction (q : Query) (fc : Query -> gorm_World -> gorm_World * error)
    (w : gorm_World) : outcome (gorm_World * error) :=
  match q_db q with
  | None => Panic
  | Some db => Ret (gorm_Transaction db (fun tx => fc (Query_clone tx q)) w)
  end.
End structs.

(** ** What a generated struct keeps *)

(** Its fields are the model's columns, of one table. *)
Record names `{Generated Q} (table : string) (q : Q) : Prop := mkNames {
  names_ALL : q_ALL q = NewAsterisk table;
  names_fields : q_fields q = map (fun kc => mkField kc.1 table kc.2) q_columns;
  names_map : q_fieldMap q = fill_map (map (fun kc => (kc.2, mkField kc.1 table kc.2)) q_columns);
}.

Class GeneratedLaws `{G : Gorm} Q `{!Generated Q} : Prop := {
  columns_distinct : NoDup (q_columns (Q := Q)).*2;
  columns_kinds : Forall (fun kc => kc.1 <> KAsterisk) (q_columns (Q := Q));
  new_names : forall db opts, names (q_model (Q := Q)) (q_new (Q := Q) db opts);
  update_names : forall table (q : Q), names table (updateTableName table q);
  with_do_names : forall table d (q : Q), names table q -> names table (q_with_do d q);
  do_with_do : forall d (q : Q), q_do (q_with_do d q) = d;
}.

Ltac generated_laws :=
  constructor;
    [ apply (bool_decide_unpack _); vm_compute; exact I
    | repeat (constructor; [discriminate|]); constructor
    | intros; constructor; cbn; rewrite ?do_TableName_UseModel; reflexivity
    | intros; constructor; reflexivity
    | by intros ? ? ? []; constructor
    | reflexivity ].

Section instances.
Context `{G : Gorm}.

#[export] Instance hlActiveAddress_laws : GeneratedLaws hlActiveAddress.
Proof. generated_laws. Qed.
#[export] Instance hlAddressSignal_laws : GeneratedLaws hlAddressSignal.
Proof. generated_laws. Qed.
#[export] Instance hlPositionCache_laws : GeneratedLaws hlPositionCache.
Proof. generated_laws. Qed.
#[export] Instance hlWatchAddress_laws : GeneratedLaws hlWatchAddress.
Proof. generated_laws. Qed.
#[export] Instance orderAggregation_laws : GeneratedLaws orderAggregation.
Proof. generated_laws. Qed.
#[export] Instance pairConfig_laws : GeneratedLaws pairConfig.
Proof. generated_laws. Qed.
End instances.

(** ** Looking a field up by its column *)

Lemma fill_map_lookup entries c f :
  NoDup entries.*1 -> fill_map entries !! c = Some f <-> (c, f) ∈ entries.
Proof.
  unfold fill_map. induction entries as [|[c' f'] entries IH] using rev_ind; intros Hnd.
  { cbn. rewrite lookup_empty, elem_of_nil. done. }
  rewrite fmap_app in Hnd. apply NoDup_app in Hnd as (Hnd & Hdisj & _).
  rewrite foldl_app, elem_of_app, list_elem_of_singleton. cbn [foldl fst snd].
  destruct (decide (c = c')) as [->|Hne].
  - rewrite lookup_insert_eq. split; [by intros [= ->]; right|].
    intros [Hin|[= ->]]; [|done]. exfalso. apply (Hdisj c'); [|by apply list_elem_of_singleton].
    by apply (list_elem_of_fmap_2 fst) in Hin.
  - rewrite lookup_insert_ne, IH by done. split; [by left|]. by intros [?|[= -> _]].
Qed.

Section lookups.
Context `{GeneratedLaws Q}.

Lemma GetFieldByName_names table (q : Q) c : names table q ->
  (exists k, (k, c) ∈ q_columns (Q := Q) /\ GetFieldByName q c = (Some (mkField k table c), true)) \/
  (c ∉ (q_columns (Q := Q)).*2 /\ GetFieldByName q c = (None, false)).
Proof.
  intros [_ _ Em]. unfold GetFieldByName. rewrite Em. set (entries := map _ _).
  assert (NoDup entries.*1) as Hnd.
  { pose proof columns_distinct as Hc. unfold entries. by rewrite <- list_fmap_compose. }
  destruct (fill_map entries !! c) as [f|] eqn:E.
  - left. apply (fill_map_lookup entries c f Hnd) in E. unfold entries in E.
    apply list_elem_of_fmap_1 in E as ([k c'] & [= -> ->] & Hin). exists k. split; [done|].
    rewrite OrderExpr_field; [done|]. pose proof columns_kinds as Hk.
    rewrite Forall_forall in Hk. exact (Hk (k, c') Hin).
  - right. split; [|done]. intros Hin. apply list_elem_of_fmap_1 in Hin as ([k c'] & -> & Hin).
    cbn in E. assert ((c', mkField k table c') ∈ entries) as Hentry
      by by apply (list_elem_of_fmap_2 (fun kc => (kc.2, mkField kc.1 table kc.2)) _ (k, c')).
    apply (fill_map_lookup entries c' _ Hnd) in Hentry. congruence.
Qed.
End lookups.

(** ** Chains of calls *)

Inductive gen_call `{Gorm} : Type :=
| CallTable (newTableName : string)
| CallAs (alias : string)
| CallClone (db : gorm_DB)
| CallReplaceDB (db : gorm_DB).

Definition gen_apply `{Generated Q} (q : Q) (c : gen_call) : Q :=
  match c with
  | CallTable n => query_Table n q
  | CallAs a => As a q
  | CallClone db => clone db q
  | CallReplaceDB db => replaceDB db q
  end.

(** The name the last [Table] or [As] of a chain gave. *)
Definition last_name `{Gorm} (table : string) (calls : list gen_call) : string :=
  foldl (fun t c => match c with CallTable n | CallAs n => n | _ => t end) table calls.

Lemma gen_apply_names `{GeneratedLaws Q} calls : forall table (q : Q),
  names table q -> names (last_name table calls) (foldl gen_apply q calls).
Proof.
  induction calls as [|c calls IH]; intros table q Hq; [done|]. cbn [foldl last_name].
  apply IH. destruct c; cbn [gen_apply].
  1, 2: apply update_names.
  all: by apply with_do_names.
Qed.

(** ** Theorems *)

(** Whatever renamings, clones and changes of database a generated query
    struct has been through, all its fields name one table, the one the last
    [Table] or [As] gave it (at first the model's own), its fields are the
    columns of the model in their order and types, and [GetFieldByName] finds
    under a column's name that column's field of that table, and nothing under
    any other name. *)
Theorem generated_fields `{GeneratedLaws Q} db opts calls :
  let q := foldl gen_apply (q_new (Q := Q) db opts) calls in
  let table := last_name (q_model (Q := Q)) calls in
  q_ALL q = NewAsterisk table /\
  q_fields q = map (fun kc => mkField kc.1 table kc.2) q_columns /\
  forall c,
    match GetFieldByName q c with
    | (Some f, true) => exists k, (k, c) ∈ q_columns (Q := Q) /\ f = mkField k table c
    | (Some _, false) => False
    | (None, ok) => ok = false /\ c ∉ (q_columns (Q := Q)).*2
    end.
Proof.
  intros q table.
  assert (names table q) as Hq by (apply gen_apply_names, new_names).
  split; [apply Hq|]. split; [apply Hq|]. intros c.
  destruct (GetFieldByName_names table q c Hq) as [(k & Hin & ->)|[Hn ->]]; [by exists k|done].
Qed.

Section transactions.
Context `{G : Gorm}.

(** Every statement of a query goes to one connection pool. *)
Definition on_pool (pool : gorm_Pool) (q : Query) : Prop :=
  Forall (fun d => do_ConnPool d = pool)
    [q_do (q_HlActiveAddress q); q_do (q_HlAddressSignal q); q_do (q_HlPositionCache q);
     q_do (q_HlWatchAddress q); q_do (q_OrderAggregation q); q_do (q_PairConfig q)].

Lemma clone_on_pool tx q : on_pool (db_ConnPool tx) (Query_clone tx q).
Proof. repeat constructor; cbn; apply do_ConnPool_ReplaceConnPool. Qed.

Lemma ReplaceDB_on_pool db q : on_pool (db_ConnPool db) (ReplaceDB db q).
Proof. repeat constructor; cbn; apply do_ConnPool_ReplaceDB. Qed.

(** A transaction is all or nothing, and its function gets a query all of
    whose statements go to the transaction. *)
Lemma Query_Transaction_atomic q fc w db : q_db q = Some db ->
  exists w' err, Query_Transaction q fc w = Ret (w', err) /\
    match err with
    | Some _ => w' = w
    | None => exists tx, fc (Query_clone tx q) w = (w', None) /\
                on_pool (db_ConnPool tx) (Query_clone tx q)
    end.
Proof.
  intros Edb. unfold Query_Transaction. rewrite Edb.
  destruct (gorm_Transaction db (fun tx => fc (Query_clone tx q)) w) as [w' [err|]] eqn:E;
    eexists _, _; (split; [reflexivity|]).
  - by eapply gorm_Transaction_err.
  - apply gorm_Transaction_ok in E as [tx Htx]. exists tx. split; [done|apply clone_on_pool].
Qed.
End transactions.

(** ** An executable instance

    A statement is the names it was given and its pool, a pool a number. *)
Record plain_DO := mkPlainDO { pd_model : string; pd_table : string; pd_pool : nat }.

#[export] Instance plain_gorm : Gorm.
Proof.
  refine {|
    gorm_DB := nat; gorm_Pool := nat; gorm_World := list string; gen_DOOption := unit;
    gen_DO := plain_DO;
    db_ConnPool := id;
    gorm_Transaction := fun db fc w => match fc (S db) w with (w', None) => (w', None) | (_, err) => (w, err) end;
    do_zero := mkPlainDO EmptyString EmptyString 0;
    do_UseDB := fun db _ d => mkPlainDO (pd_model d) (pd_table d) db;
    do_UseModel := fun t d => mkPlainDO t t (pd_pool d);
    do_UseTable := fun t d => mkPlainDO (pd_model d) t (pd_pool d);
    do_As := fun t d => mkPlainDO (pd_model d) t (pd_pool d);
    do_ReplaceConnPool := fun p d => mkPlainDO (pd_model d) (pd_table d) p;
    do_ReplaceDB := fun p d => mkPlainDO (pd_model d) (pd_table d) p;
    do_TableName := pd_model;
    do_ConnPool := pd_pool;
    OrderExpr := fun f => negb (bool_decide (fe_kind f = KAsterisk));
  |}; try done.
  - intros f Hf. by rewrite bool_decide_false.
  - intros db fc w w' E. exists (S db). destruct (fc (S db) w) as [? [?|]]; congruence.
  - intros db fc w w' err. destruct (fc (S db) w) as [? [?|]]; congruence.
Defined.

Lemma generated_fields_witness :
  let q := As "o" (newOrderAggregation (G := plain_gorm) 7 []) in
  GetFieldByName q "oid" = (Some (mkField KInt64 "o" "oid"), true) /\
  match GetFieldByName q "oid" with
  | (Some f, true) => exists k, (k, "oid") ∈ OrderAggregation_columns /\ f = mkField k "o" "oid"
  | (Some _, false) => False
  | (None, ok) => ok = false /\ "oid" ∉ OrderAggregation_columns.*2
  end.
Proof.
  split; [vm_compute; reflexivity|].
  destruct (generated_fields (Q := orderAggregation) (7 : gorm_DB (Gorm := plain_gorm)) [] [CallAs "o"]) as (_ & _ & Hf).
  exact (Hf "oid").
Defined.
