(* ===== verification/GenQueries.v ===== *)
(** * internal/dal/gen and internal/dao: statements

    The methods of the generated [Do] structs that are more than a call of
    gorm.io/gen's method of the same name (the guards of [Create] and [Save],
    the loops of [Joins] and [Preload], [FindInBatch], [FindByPage],
    [ScanByPage]), over the class [Statements]; and the conditions and column
    lists of internal/dao as the expressions it builds from the generated
    fields, over the class [Sql] of the comparisons MySQL makes. *)

From Stdlib Require Import ZArith Lia.
From Stdlib Require Import FunctionalExtensionality.
From stdpp Require Import gmap strings list.
From S2P Require Import Prelude Float64 GoStrings Models Columns Dao GenFields.
Local Open Scope Z_scope.

(** ** Statements

    What a statement selects ([st_rows], without its page), and the page set by
    [Offset] and [Limit], each of which replaces the earlier one.  gorm writes
    an OFFSET only when it is positive and a LIMIT only when it is not
    negative; [Count] of a statement without a page counts its rows. *)
Definition page {Row} (offset limit : Z) (rows : list Row) : list Row :=
  let rest := drop (Z.to_nat offset) rows in
  if limit <? 0 then rest else take (Z.to_nat limit) rest.

(** Handing batches to a function until it fails. *)
Fixpoint run_batches {Row S} (fc : list Row -> Z -> S -> S * error) (n : Z)
    (batches : list (list Row)) (s : S) : S * error :=
  match batches with
  | [] => (s, nil_error)
  | b :: batches =>
      match fc b n s with
      | (s, None) => run_batches fc (n + 1) batches s
      | (s, err) => (s, err)
      end
  end.

Class Statements (Row : Type) := {
  st_t : Type;                       (* gen.DO *)
  st_World : Type;                   (* what the server stores *)
  st_Relation : Type;                (* field.RelationField *)
  st_rows : st_t -> st_World -> list Row;
  st_offset : st_t -> Z;
  st_limit : st_t -> Z;
  st_Offset : Z -> st_t -> st_t;
  st_Limit : Z -> st_t -> st_t;
  st_Joins : st_Relation -> st_t -> st_t;
  st_Preload : st_Relation -> st_t -> st_t;
  st_Find : st_t -> st_World -> list Row * error;
  st_Scan : st_t -> st_World -> list Row * error;
  st_Count : st_t -> st_World -> Z * error;
  st_Create : st_t -> list Row -> st_World -> st_World * error;
  st_Save : st_t -> list Row -> st_World -> st_World * error;
  (* the function gets the batch through the buffer *)
  st_FindInBatches : forall S, st_t -> st_World -> Z -> (list Row -> Z -> S -> S * error) -> S -> S * error;
  st_Offset_spec : forall n d w,
    st_rows (st_Offset n d) w = st_rows d w /\ st_offset (st_Offset n d) = n /\
    st_limit (st_Offset n d) = st_limit d;
  st_Limit_spec : forall n d w,
    st_rows (st_Limit n d) w = st_rows d w /\ st_offset (st_Limit n d) = st_offset d /\
    st_limit (st_Limit n d) = n;
  st_Find_ok : forall d w rows, st_Find d w = (rows, None) ->
    rows = page (st_offset d) (st_limit d) (st_rows d w);
  st_Scan_ok : forall d w rows, st_Scan d w = (rows, None) ->
    rows = page (st_offset d) (st_limit d) (st_rows d w);
  st_Count_ok : forall d w n, st_Count d w = (n, None) -> st_offset d <= 0 -> st_limit d < 0 ->
    n = Z.of_nat (length (st_rows d w));
  st_FindInBatches_ok : forall S d w size fc (s s' : S) err, 0 < size ->
    st_FindInBatches S d w size fc s = (s', err) ->
    exists batches rest err', st_rows d w = concat batches ++ rest /\
      run_batches fc 1 batches s = (s', err') /\
      (err = None -> err' = None /\ rest = []) /\ (err' <> None -> err = err');
}.
Arguments st_t Row {_}.
Arguments st_World Row {_}.
Arguments st_Relation Row {_}.

Section methods.
Context {Row : Type} `{!Statements Row}.
Implicit Types h : st_t Row.

Definition gen_Create h (values : list Row) (w : st_World Row) : st_World Row * error :=
  match values with [] => (w, nil_error) | _ => st_Create h values w end.

Definition gen_Save h (values : list Row) (w : st_World Row) : st_World Row * error :=
  match values with [] => (w, nil_error) | _ => st_Save h values w end.

Definition gen_Joins h (fields : list (st_Relation Row)) : st_t Row :=
  foldl (fun h f => st_Joins f h) h fields.

Definition gen_Preload h (fields : list (st_Relation Row)) : st_t Row :=
  foldl (fun h f => st_Preload f h) h fields.

(** The deferred [append] runs whatever [fc] returns. *)
Definition FindInBatch h (w : st_World Row) (batchSize : Z) {S} (fc : Z -> S -> S * error) (s : S)
    : list Row * error * S :=
  let '((results, s), err) :=
    st_FindInBatches (list Row * S) h w batchSize
      (fun buf batch '(results, s) =>
         let '(s, err) := fc batch s in ((results ++ buf, s), err)) ([], s) in
  (results, err, s).

(** The rows are read at one moment and may be counted at a later one. *)
Definition FindByPage h (w_find w_count : st_World Row) (offset limit : Z)
    : list Row * Z * error :=
  match st_Find (st_Limit limit (st_Offset offset h)) w_find with
  | (result, Some err) => (result, 0, Some err)
  | (result, None) =>
      let size := Z.of_nat (length result) in
      if (0 <? limit) && (0 <? size) && (size <? limit) then (result, size + offset, nil_error)
      else
        let '(count, err) := st_Count (st_Limit (-1) (st_Offset (-1) h)) w_count in
        (result, count, err)
  end.

(** [result] keeps what it held when [Count] fails. *)
Definition ScanByPage h (w_count w_scan : st_World Row) (result : list Row) (offset limit : Z)
    : list Row * Z * error :=
  match st_Count h w_count with
  | (count, Some err) => (result, count, Some err)
  | (count, None) =>
      let '(result, err) := st_Scan (st_Limit limit (st_Offset offset h)) w_scan in
      (result, count, err)
  end.
End methods.

(** ** Pages *)
Section pages.
Context {Row : Type} `{!Statements Row}.
Implicit Types h : st_t Row.

Lemma st_page_spec offset limit h w :
  st_rows (st_Limit limit (st_Offset offset h)) w = st_rows h w /\
  st_offset (st_Limit limit (st_Offset offset h)) = offset /\
  st_limit (st_Limit limit (st_Offset offset h)) = limit.
Proof.
  destruct (st_Offset_spec offset h w) as (E1 & E2 & _).
  destruct (st_Limit_spec limit (st_Offset offset h) w) as (-> & -> & ->). done.
Qed.

(** A page that is not empty and not full is the last one. *)
Lemma page_last offset limit (rows : list Row) :
  0 < Z.of_nat (length (page offset limit rows)) < limit ->
  Z.of_nat (length (page offset limit rows)) + Z.max 0 offset = Z.of_nat (length rows).
Proof.
  unfold page. destruct (limit <? 0) eqn:E; [lia|]. rewrite length_take, length_drop. lia.
Qed.

(** A page and the number of all rows, at the price of one query when the
    page is the last one: for a statement the server answers, [FindByPage] with
    an offset that is not negative returns the rows of the page and the number
    of rows the statement selects without it, as the table was when the page
    was read or, when a second query was needed, at that query; it is needed
    only for a page that is empty or full, or when there is no limit. *)
Theorem FindByPage_counts h w_find w_count offset limit result count :
  0 <= offset -> FindByPage h w_find w_count offset limit = (result, count, None) ->
  result = page offset limit (st_rows h w_find) /\
  (count = Z.of_nat (length (st_rows h w_find)) /\ 0 < Z.of_nat (length result) < limit \/
   count = Z.of_nat (length (st_rows h w_count)) /\ ~ (0 < Z.of_nat (length result) < limit)).
Proof.
  intros Ho. unfold FindByPage.
  destruct (st_page_spec offset limit h w_find) as (Er & Eo & El).
  destruct (st_Find _ w_find) as [rows [err|]] eqn:Ef; [done|].
  apply st_Find_ok in Ef. rewrite Er, Eo, El in Ef. subst rows.
  destruct (_ && _ && _) eqn:Eb.
  - intros [= <- <-]. split; [done|]. left.
    assert (0 < Z.of_nat (length (page offset limit (st_rows h w_find))) < limit) as Hl by lia.
    split; [|done]. apply page_last in Hl. lia.
  - destruct (st_Count _ w_count) as [n [err|]] eqn:Ec; [done|]. intros [= <- <-].
    split; [done|]. right. destruct (st_page_spec (-1) (-1) h w_count) as (Er' & Eo' & El').
    apply st_Count_ok in Ec; [|lia..]. rewrite Er' in Ec. split; [done|lia].
Qed.

(** With a negative offset, which gorm takes for none, the count of a last page
    is too small by it. *)
Lemma FindByPage_negative_offset h w w' offset limit result count :
  offset < 0 -> FindByPage h w w' offset limit = (result, count, None) ->
  0 < Z.of_nat (length result) < limit -> count = Z.of_nat (length (st_rows h w)) + offset.
Proof.
  intros Ho. unfold FindByPage. destruct (st_page_spec offset limit h w) as (Er & Eo & El).
  destruct (st_Find _ w) as [rows [err|]] eqn:Ef; [done|].
  apply st_Find_ok in Ef. rewrite Er, Eo, El in Ef. subst rows.
  intros E Hl. destruct (_ && _ && _) eqn:Eb.
  - injection E as <- <-. apply page_last in Hl. lia.
  - destruct (st_Count _ w') as [n [err|]]; [done|]. injection E as <- <-. lia.
Qed.

Lemma ScanByPage_counts h w_count w_scan old offset limit result count :
  st_offset h <= 0 -> st_limit h < 0 ->
  ScanByPage h w_count w_scan old offset limit = (result, count, None) ->
  result = page offset limit (st_rows h w_scan) /\ count = Z.of_nat (length (st_rows h w_count)).
Proof.
  intros Ho Hl. unfold ScanByPage. destruct (st_Count h w_count) as [n [err|]] eqn:Ec; [done|].
  destruct (st_Scan _ w_scan) as [rows err] eqn:Es. intros [= -> -> ->].
  destruct (st_page_spec offset limit h w_scan) as (Er & Eo & El).
  apply st_Scan_ok in Es. rewrite Er, Eo, El in Es. by apply st_Count_ok in Ec.
Qed.

(** *** FindInBatch *)

Lemma run_batches_collects {S} (fc : Z -> S -> S * error) batches : forall n acc (s : S) results s' err,
  run_batches (fun (buf : list Row) batch '(results, s) =>
      let '(s, err) := fc batch s in ((results ++ buf, s), err)) n batches (acc, s) = ((results, s'), err) ->
  exists rest, acc ++ concat batches = results ++ rest /\ (err = None -> rest = []).
Proof.
  induction batches as [|b batches IH]; intros n acc s results s' err; cbn [run_batches concat].
  { intros [= <- _ <-]. by exists []. }
  destruct (fc n s) as [s1 [e|]].
  - intros [= <- _ <-]. exists (concat batches). by rewrite app_assoc.
  - intros E. destruct (IH _ _ _ _ _ _ E) as (rest & Ea & Hr). exists rest.
    split; [by rewrite app_assoc|done].
Qed.

(** What [FindInBatch] returns are rows of the statement, from the first one:
    those of the batches its function saw, the failing one included; all of
    them when there is no error. *)
Lemma FindInBatch_collects h w size {S} (fc : Z -> S -> S * error) s results err s' :
  0 < size -> FindInBatch h w size fc s = (results, err, s') ->
  exists rest, st_rows h w = results ++ rest /\ (err = None -> rest = []).
Proof.
  intros Hs. unfold FindInBatch.
  destruct (st_FindInBatches _ h w size _ _) as [[results1 s1] err1] eqn:E. intros [= -> -> ->].
  apply st_FindInBatches_ok in E as (batches & rest & err' & Er & Hrun & Hnone & _); [|done].
  apply run_batches_collects in Hrun as (rest' & Ec & Hr'). rewrite app_nil_l in Ec.
  exists (rest' ++ rest). split; [by rewrite Er, Ec, app_assoc|].
  intros He. destruct (Hnone He) as [He' ->]. by rewrite (Hr' He').
Qed.
End pages.

(** ** Conditions on columns

    The values of the columns the statements of internal/dao compare, and what
    the code relies on of MySQL's comparisons. *)

Inductive sql_value : Type :=
| VInt (n : Z)
| VString (s : string)
| VBool (b : bool)
| VTime (t : Z)
| VFloat (x : float64)
| VFills (fills : list WsOrderFill).

Inductive sql_op : Type := OpEq | OpLt | OpLte | OpGte | OpIs.

Class Sql := {
  sql_holds : sql_op -> sql_value -> sql_value -> bool;
  sql_eq_int : forall a b, sql_holds OpEq (VInt a) (VInt b) = (a =? b);
  sql_eq_string : forall a b, sql_holds OpEq (VString a) (VString b) = bool_decide (a = b);
  sql_is_bool : forall a b, sql_holds OpIs (VBool a) (VBool b) = eqb a b;
  sql_lt_int : forall a b, sql_holds OpLt (VInt a) (VInt b) = (a <? b);
  sql_lt_time : forall a b, sql_holds OpLt (VTime a) (VTime b) = (a <? b);
  sql_lte_int : forall a b, sql_holds OpLte (VInt a) (VInt b) = (a <=? b);
  sql_gte_int : forall a b, sql_holds OpGte (VInt a) (VInt b) = (b <=? a);
}.

(** A condition of the builder: [Field.Op(value)]. *)
Record condition := Cond { cond_field : field_expr; cond_op : sql_op; cond_value : sql_value }.
Definition Eq (f : field_expr) : sql_value -> condition := Cond f OpEq.
Definition Lt (f : field_expr) : sql_value -> condition := Cond f OpLt.
Definition Lte (f : field_expr) : sql_value -> condition := Cond f OpLte.
Definition Gte (f : field_expr) : sql_value -> condition := Cond f OpGte.
Definition Is (f : field_expr) (b : bool) : condition := Cond f OpIs (VBool b).

(** The columns of a row; row ids of tables whose rows have none in the model
    are left out. *)
Class Columns (Row : Type) := row_columns : Row -> list (string * sql_value).

Definition column_value `{Columns Row} (r : Row) (c : string) : option sql_value :=
  snd <$> head (filter (fun kv => kv.1 = c) (row_columns r)).

(** [Where]: all the conditions hold. *)
Definition Where `{Sql, Columns Row} (conds : list condition) (r : Row) : bool :=
  forallb (fun c => match column_value r (fe_column (cond_field c)) with
                    | Some v => sql_holds (cond_op c) v (cond_value c)
                    | None => false
                    end) conds.

#[export] Instance OrderAggregation_row : Columns OrderAggregation := fun r =>
  [("oid", VInt (agg_Oid r)); ("address", VString (agg_Address r));
   ("direction", VString (agg_Direction r)); ("symbol", VString (agg_Symbol r));
   ("fills", VFills (agg_Fills r)); ("total_size", VFloat (agg_TotalSize r));
   ("weighted_avg_px", VFloat (agg_WeightedAvgPx r)); ("order_status", VString (agg_OrderStatus r));
   ("last_fill_time", VInt (agg_LastFillTime r)); ("signal_sent", VBool (agg_SignalSent r));
   ("created_at", VTime (agg_CreatedAt r)); ("updated_at", VTime (agg_UpdatedAt r))].

#[export] Instance HlPositionCache_row : Columns HlPositionCache := fun r =>
  [("address", VString (pc_Address r)); ("spot_balances", VString (pc_SpotBalances r));
   ("spot_total_usd", VString (pc_SpotTotalUSD r));
   ("futures_positions", VString (pc_FuturesPositions r));
   ("account_value", VString (pc_AccountValue r));
   ("total_margin_used", VString (pc_TotalMarginUsed r));
   ("total_ntl_pos", VString (pc_TotalNtlPos r)); ("withdrawable", VString (pc_Withdrawable r));
   ("updated_at", VTime (pc_UpdatedAt r))].

#[export] Instance DbAddressSignal_row : Columns DbAddressSignal := fun r =>
  [("id", VInt (das_ID r)); ("address", VString (das_Address r));
   ("position_rate", VFloat (das_PositionRate r)); ("close_rate", VFloat (das_CloseRate r));
   ("symbol", VString (das_Symbol r)); ("coin_type", VString (das_CoinType r));
   ("asset_type", VString (das_AssetType r)); ("direction", VString (das_Direction r));
   ("side", VString (das_Side r)); ("price", VFloat (das_Price r)); ("size", VFloat (das_Size r));
   ("created_at", VTime (das_CreatedAt r)); ("expired_at", VTime (das_ExpiredAt r))].

#[export] Instance PairConfig_row : Columns PairConfig := fun r =>
  [("symbol", VString (cfg_Symbol r)); ("platform", VString (cfg_Platform r));
   ("category", VInt (cfg_Category r))].

#[export] Instance HlActiveAddress_row : Columns HlActiveAddress := fun r =>
  [("id", VInt (aa_ID r)); ("server_id", VInt (aa_ServerID r)); ("address", VString (aa_Address r));
   ("created_at", VTime (aa_CreatedAt r)); ("updated_at", VTime (aa_UpdatedAt r))].

(** Without [deleted_at], which only gorm's soft deletion reads. *)
#[export] Instance HlWatchAddress_row : Columns HlWatchAddress := fun r =>
  [("id", VInt (wa_ID r)); ("player_id", VInt (wa_PlayerID r)); ("address", VString (wa_Address r));
   ("nickname", VString (wa_Nickname r)); ("is_system", VBool (wa_IsSystem r));
   ("created_at", VTime (wa_CreatedAt r)); ("updated_at", VTime (wa_UpdatedAt r))].

(** [Select(f).Distinct(f)] scanned into a slice of strings. *)
Definition column_string `{Columns Row} (f : field_expr) (r : Row) : option string :=
  match column_value r (fe_column f) with Some (VString s) => Some s | _ => None end.

Definition select_distinct `{Columns Row} (f : field_expr) (answer : list Row + string)
    : list string + string :=
  match answer with
  | inl rows => inl (remove_dups (omap (column_string f) rows))
  | inr err => inr err
  end.

(** What gorm adds to a query of a table with soft deletion. *)
Definition not_deleted (w : HlWatchAddress -> bool) (r : HlWatchAddress) : bool :=
  w r && bool_decide (wa_DeletedAt r = None).

(** The columns [Updates] leaves out. *)
Definition zero_value (v : sql_value) : bool :=
  match v with
  | VInt n | VTime n => n =? 0
  | VString s => bool_decide (s = EmptyString)
  | VBool b => negb b
  | VFloat x => feqb x f0
  | VFills fills => bool_decide (fills = [])
  end.

(** A column after [Update] of one column, and after [Updates] with a struct. *)
Definition column_set `{Columns Row} (now : Z) (column : string) (v : sql_value) (old : Row)
    (c : string) : option sql_value :=
  if decide (c = column) then Some v
  else if decide (c = "updated_at") then Some (VTime now) else column_value old c.

Definition columns_set `{Columns Row} (now : Z) (new old : Row) (c : string) : option sql_value :=
  if decide (c = "updated_at") then Some (VTime now)
  else match column_value new c with
       | Some v => if zero_value v then column_value old c else Some v
       | None => column_value old c
       end.

(** ** The statements of internal/dao *)
Section dao.
Context `{G : Gorm}.
Implicit Types (o : orderAggregation) (h : hlAddressSignal) (p : hlPositionCache).

Definition oid_where o (oid : Z) : list condition := [Eq (qoa_Oid o) (VInt oid)].
Definition pending_where o : list condition := [Is (qoa_SignalSent o) false].
Definition timeout_where o (beforeTimestamp : Z) : list condition :=
  [Is (qoa_SignalSent o) false; Lt (qoa_LastFillTime o) (VInt beforeTimestamp)].
Definition old_orders_where o (beforeTimestamp : Z) : list condition :=
  [Lt (qoa_UpdatedAt o) (VTime (beforeTimestamp * Second))].
Definition sent_since_where o (since : Z) : list condition :=
  [Is (qoa_SignalSent o) true; Gte (qoa_LastFillTime o) (VInt (Unix since))].
Definition old_signals_where h (before : Z) : list condition := [Lt (qas_CreatedAt h) (VTime before)].
Definition from_oldest_where h (oldestID : Z) : list condition := [Gte (qas_ID h) (VInt oldestID)].
Definition to_cutoff_where h (cutoffID : Z) : list condition := [Lte (qas_ID h) (VInt cutoffID)].
Definition position_where p (address : string) : list condition :=
  [Eq (qpc_Address p) (VString address)].
End dao.

(** The statements that delete, and those of [DeleteOldest]. *)
Definition delete_rows `{Table Row} (d : tb_t Row) (w : Row -> bool) : tb_t Row * Z * error :=
  match tb_Delete d w with
  | (d, inr err) => (d, 0, Some err)
  | (d, inl n) => (d, n, nil_error)
  end.

Definition delete_oldest `{Gorm, Sql, Table DbAddressSignal} (h : hlAddressSignal)
    (d : tb_t DbAddressSignal) (limit : Z) : tb_t DbAddressSignal * Z * error :=
  if limit <=? 0 then (d, 0, nil_error)
  else
    match tb_Page d (Where []) 1 0 with
    | inr err => (d, 0, Some err)
    | inl rows =>
        match tb_Page d (Where (from_oldest_where h (scan_id rows))) 1 (Z.to_nat (limit - 1)) with
        | inr err => (d, 0, Some err)
        | inl rows => delete_rows d (Where (to_cutoff_where h (scan_id rows)))
        end
    end.

(** [clause.OnConflict]: the columns of the index, and those assigned. *)
Record on_conflict := OnConflict { oc_Columns : list string; oc_DoUpdates : list string }.

Definition order_upsert : on_conflict :=
  OnConflict ["oid"; "address"; "direction"]
    ["symbol"; "fills"; "total_size"; "weighted_avg_px"; "order_status"; "last_fill_time";
     "updated_at"; "signal_sent"].

Definition position_upsert : on_conflict :=
  OnConflict ["address"]
    ["spot_balances"; "spot_total_usd"; "futures_positions"; "account_value";
     "total_margin_used"; "total_ntl_pos"; "withdrawable"; "updated_at"].

(** Rows that agree on the columns of the index, and the row an upsert leaves. *)
Definition conflicts `{Columns Row} (oc : on_conflict) (old new : Row) : Prop :=
  Forall (fun c => column_value old c = column_value new c) (oc_Columns oc).

Definition assigned `{Columns Row} (oc : on_conflict) (old new row : Row) : Prop :=
  forall c, column_value row c = column_value (if decide (c ∈ oc_DoUpdates oc) then new else old) c.

(** ** The statements mean what internal/dao's definitions do *)
Section dao_facts.
Context `{G : Gorm, SqlOps : Sql}.

(** A condition on the [i]-th field of a generated struct reads the [i]-th
    column of the model. *)
Lemma Where_field `{Generated Q, Columns Row} table (q : Q) i f k c op v conds (r : Row) v' :
  names table q -> q_fields q !! i = Some f -> q_columns (Q := Q) !! i = Some (k, c) ->
  column_value r c = Some v' ->
  Where (Cond f op v :: conds) r = sql_holds op v' v && Where conds r.
Proof.
  intros [_ Ef _] Hf Hc Hv. rewrite Ef, list_lookup_fmap, Hc in Hf. injection Hf as <-.
  unfold Where. cbn [forallb cond_field cond_op cond_value fe_column snd]. by rewrite Hv.
Qed.

Lemma Where_nil `{Columns Row} (r : Row) : Where [] r = true.
Proof. done. Qed.
End dao_facts.

Ltac by_columns table q fields :=
  let r := fresh "r" in extensionality r;
  unfold Eq, Lt, Lte, Gte, Is;
  let rec go l := lazymatch l with
    | ?i :: ?l => erewrite (Where_field table q i); [|eassumption|reflexivity..]; go l
    | [] => rewrite Where_nil, andb_true_r
    end in go fields; cbn [snd];
  rewrite ?sql_eq_int, ?sql_eq_string, ?sql_is_bool, ?sql_lt_int, ?sql_lt_time, ?sql_lte_int, ?sql_gte_int.

Section dao_where.
Context `{G : Gorm, SqlOps : Sql}.

Lemma Where_oid table o oid : names table o -> Where (oid_where o oid) = by_oid oid.
Proof. intros Ho. unfold oid_where. by by_columns table o [1%nat]. Qed.

Lemma Where_pending table o : names table o ->
  Where (pending_where o) = fun r => negb (agg_SignalSent r).
Proof. intros Ho. unfold pending_where. by_columns table o [10%nat]. by destruct (agg_SignalSent r). Qed.

Lemma Where_timeout table o t : names table o ->
  Where (timeout_where o t) = fun r => negb (agg_SignalSent r) && (agg_LastFillTime r <? t).
Proof.
  intros Ho. unfold timeout_where. by_columns table o [10%nat; 9%nat].
  by destruct (agg_SignalSent r).
Qed.

Lemma Where_old_orders table o t : names table o ->
  Where (old_orders_where o t) = fun r => agg_UpdatedAt r <? t * Second.
Proof. intros Ho. unfold old_orders_where. by by_columns table o [12%nat]. Qed.

Lemma Where_sent_since table o since : names table o ->
  Where (sent_since_where o since) = fun r => agg_SignalSent r && (Unix since <=? agg_LastFillTime r).
Proof.
  intros Ho. unfold sent_since_where. by_columns table o [10%nat; 9%nat].
  by destruct (agg_SignalSent r).
Qed.

Lemma Where_old_signals table h t : names table h ->
  Where (old_signals_where h t) = fun r => das_CreatedAt r <? t.
Proof. intros Hh. unfold old_signals_where. by by_columns table h [11%nat]. Qed.

Lemma Where_from_oldest table h id : names table h ->
  Where (from_oldest_where h id) = fun r => id <=? das_ID r.
Proof. intros Hh. unfold from_oldest_where. by by_columns table h [0%nat]. Qed.

Lemma Where_to_cutoff table h id : names table h ->
  Where (to_cutoff_where h id) = fun r => das_ID r <=? id.
Proof. intros Hh. unfold to_cutoff_where. by by_columns table h [0%nat]. Qed.

Lemma Where_position table p a : names table p ->
  Where (position_where p a) = fun r => bool_decide (pc_Address r = a).
Proof. intros Hp. unfold position_where. by by_columns table p [1%nat]. Qed.
End dao_where.

(** ** Upserts by column *)

Lemma column_value_None `{Columns Row} (r : Row) c :
  c ∉ (row_columns r).*1 -> column_value r c = None.
Proof.
  intros Hn. unfold column_value. destruct (filter _ _) as [|kv kvs] eqn:E; [done|].
  exfalso. apply Hn. assert (kv ∈ filter (fun kv => kv.1 = c) (row_columns r)) as Hin by (rewrite E; left).
  apply list_elem_of_filter in Hin as [<- Hin]. by apply list_elem_of_fmap_2.
Qed.

(** Rows are compared column by column: on the columns rows have, and on no
    other one. *)
Lemma by_each_column `{Columns Row} (row : Row) (g : string -> option sql_value) cols :
  (forall r : Row, (row_columns r).*1 = cols) -> (forall c, c ∉ cols -> g c = None) ->
  Forall (fun c => column_value row c = g c) cols -> forall c, column_value row c = g c.
Proof.
  intros Hcols Hg Hall c. destruct (decide (c ∈ cols)) as [Hin|Hn].
  - rewrite Forall_forall in Hall. by apply Hall.
  - rewrite Hg by done. apply column_value_None. by rewrite Hcols.
Qed.

Lemma set_status_column now status r c :
  column_value (set_status now status r) c = column_set now "order_status" (VString status) r c.
Proof.
  revert c. apply (by_each_column _ _ (tail OrderAggregation_columns).*2); [done| |].
  - intros c Hn. unfold column_set. rewrite !decide_False by (intros ->; set_solver).
    by apply column_value_None.
  - repeat (constructor; [reflexivity|]). constructor.
Qed.

Lemma set_sent_column now r c :
  column_value (set_sent now r) c = column_set now "signal_sent" (VBool true) r c.
Proof.
  revert c. apply (by_each_column _ _ (tail OrderAggregation_columns).*2); [done| |].
  - intros c Hn. unfold column_set. rewrite !decide_False by (intros ->; set_solver).
    by apply column_value_None.
  - repeat (constructor; [reflexivity|]). constructor.
Qed.

Lemma columns_set_at `{Columns Row} now (row new old : Row) c v_row v_new v_old :
  column_value row c = Some v_row -> column_value new c = Some v_new ->
  column_value old c = Some v_old -> c <> "updated_at" ->
  v_row = (if zero_value v_new then v_old else v_new) ->
  column_value row c = columns_set now new old c.
Proof.
  intros -> En Eo Hc ->. unfold columns_set. rewrite decide_False, En, Eo by done.
  by destruct (zero_value v_new).
Qed.

Lemma update_columns_column now new old c :
  column_value (update_columns now new old) c = columns_set now new old c.
Proof.
  revert c. apply (by_each_column _ _ (tail OrderAggregation_columns).*2); [done| |].
  - intros c Hn. unfold columns_set. rewrite decide_False by (intros ->; set_solver).
    by rewrite !column_value_None.
  - repeat (constructor;
      [first [reflexivity|eapply columns_set_at; [reflexivity..|discriminate|]; cbn; unfold nonzero]|]);
      [..|constructor].
    all: try (case_decide as E;
      [by rewrite E|rewrite ?bool_decide_false by done; rewrite ?(proj2 (Z.eqb_neq _ _)) by done; done]).
    all: try by destruct (feqb _ _).
    by destruct (agg_SignalSent new).
Qed.

(** An upsert is checked column by column: on the columns the rows have, and on
    no other one. *)
Lemma assigned_columns `{Columns Row} oc (old new row : Row) cols :
  (forall r : Row, (row_columns r).*1 = cols) ->
  Forall (fun c => column_value row c = column_value (if decide (c ∈ oc_DoUpdates oc) then new else old) c) cols ->
  assigned oc old new row.
Proof.
  intros Hcols Hall c. destruct (decide (c ∈ cols)) as [Hin|Hn].
  - rewrite Forall_forall in Hall. by apply Hall.
  - by rewrite !column_value_None by by rewrite Hcols.
Qed.

Lemma order_upsert_conflicts old new :
  same_order old new = true <-> conflicts order_upsert old new.
Proof.
  rewrite same_order_id. unfold conflicts. cbn [oc_Columns order_upsert].
  rewrite !Forall_cons, Forall_nil.
  change (order_id old = order_id new <->
    Some (VInt (agg_Oid old)) = Some (VInt (agg_Oid new)) /\
    Some (VString (agg_Address old)) = Some (VString (agg_Address new)) /\
    Some (VString (agg_Direction old)) = Some (VString (agg_Direction new)) /\ True).
  unfold order_id. split; [by intros [= -> -> ->]|]. intros (E1 & E2 & E3 & _). congruence.
Qed.

Lemma order_upsert_assigned old new :
  assigned order_upsert old new (assign_order old new).
Proof.
  apply (assigned_columns _ _ _ _ (tail OrderAggregation_columns).*2); [done|]. repeat (constructor; [reflexivity|]). constructor.
Qed.

Lemma position_upsert_conflicts old new :
  same_address old new = true <-> conflicts position_upsert old new.
Proof.
  rewrite same_address_eq. unfold conflicts. cbn [oc_Columns position_upsert].
  rewrite Forall_singleton.
  change (pc_Address old = pc_Address new <->
    Some (VString (pc_Address old)) = Some (VString (pc_Address new))). split; congruence.
Qed.

Lemma position_upsert_assigned old new :
  assigned position_upsert old new (assign_position old new).
Proof.
  apply (assigned_columns _ _ _ _ (tail HlPositionCache_columns).*2); [done|]. repeat (constructor; [reflexivity|]). constructor.
Qed.

Lemma DeleteOldest_statements `{G : Gorm, Sql, Table DbAddressSignal} table h d limit :
  names table h -> DeleteOldest d limit = delete_oldest h d limit.
Proof.
  intros Hh. unfold delete_oldest, DeleteOldest, delete_rows. destruct (limit <=? 0); [done|].
  change (Where []) with (fun _ : DbAddressSignal => true).
  destruct (tb_Page d _ 1 0) as [rows|]; [|done]. rewrite (Where_from_oldest table h _ Hh).
  destruct (tb_Page d _ 1 _) as [rows'|]; [|done]. by rewrite (Where_to_cutoff table h _ Hh).
Qed.

Lemma distinct_addresses `{Generated Q, Columns Row} table (q : Q) i f k (address : Row -> string) answer :
  names table q -> q_fields q !! i = Some f -> q_columns (Q := Q) !! i = Some (k, "address") ->
  (forall r : Row, column_value r "address" = Some (VString (address r))) ->
  distinct address answer = select_distinct (Row := Row) f answer.
Proof.
  intros [_ Ef _] Hf Hc Hv. rewrite Ef, list_lookup_fmap, Hc in Hf. injection Hf as <-.
  destruct answer as [rows|err]; [|done]. simpl. do 2 f_equal. induction rows as [|r rows IH]; [done|].
  cbn [map omap list_omap]. unfold column_string at 1. cbn [fe_column snd]. by rewrite Hv, IH.
Qed.

(** C18. internal/dao, as it is written: every query, count, update and deletion
    of the package is the statement its builder expression denotes (conditions
    on fields of the generated structs, by the names of their columns; the
    distinct values of the address column; rows a soft deletion hides left
    out); an update of one column sets that column and [updated_at] and no
    other, an update with a struct sets the columns whose value in the struct is
    not zero, and [updated_at]; and every upsert conflicts on the columns its
    clause lists, assigns the columns it lists and leaves the others as they
    were. *)
Theorem dao_statements `{G : Gorm, Sql, Table OrderAggregation, Table DbAddressSignal,
    Table HlPositionCache, Table HlActiveAddress, Table HlWatchAddress, Table PairConfig}
    (o : orderAggregation) (h : hlAddressSignal) (p : hlPositionCache) (a : hlActiveAddress)
    (w : hlWatchAddress) t1 t2 t3 t4 t5 :
  names t1 o -> names t2 h -> names t3 p -> names t4 a -> names t5 w ->
  (forall d oid, OrderAggregation_Get d oid = tb_First d (Where (oid_where o oid))) /\
  (forall d, GetPending d = tb_Find d (Where (pending_where o))) /\
  (forall d t, GetTimeout d t = tb_Find d (Where (timeout_where o t))) /\
  (forall d since, GetSentOrdersSince d since = tb_Find d (Where (sent_since_where o since))) /\
  (forall now d oid status, OrderAggregation_UpdateStatus now d oid status =
     tb_Update d (Where (oid_where o oid)) (set_status now status)) /\
  (forall now status r c,
     column_value (set_status now status r) c = column_set now "order_status" (VString status) r c) /\
  (forall now d oid, MarkSignalSent now d oid = tb_Update d (Where (oid_where o oid)) (set_sent now)) /\
  (forall now r c, column_value (set_sent now r) c = column_set now "signal_sent" (VBool true) r c) /\
  (forall now d agg, OrderAggregation_Update now d agg =
     tb_Update d (Where (oid_where o (agg_Oid agg))) (update_columns now agg)) /\
  (forall now new old c, column_value (update_columns now new old) c = columns_set now new old c) /\
  (forall d t, OrderAggregation_DeleteOld d t = delete_rows d (Where (old_orders_where o t))) /\
  (forall d t, Signal_DeleteOld d t = delete_rows d (Where (old_signals_where h t))) /\
  (forall d limit, DeleteOldest d limit = delete_oldest h d limit) /\
  (forall d n, Signal_Count d = inl n -> n = Z.of_nat (length (tb_rows d))) /\
  (forall d address, GetPositionCache d address = tb_First d (Where (position_where p address))) /\
  (forall d, PairConfig_ListAll d = tb_Find d (Where [])) /\
  (forall d, ActiveAddress_ListDistinctAddresses d =
     select_distinct (qaa_Address a) (tb_Find d (Where []))) /\
  (forall d, WatchAddress_ListDistinctAddresses d =
     select_distinct (qwa_Address w) (tb_Find d (not_deleted (Where [])))) /\
  (forall d aggs, OrderAggregation_BatchUpsert d aggs = tb_Upsert d same_order assign_order aggs) /\
  (forall old new, same_order old new = true <-> conflicts order_upsert old new) /\
  (forall old new, assigned order_upsert old new (assign_order old new)) /\
  (forall d c, UpsertPositionCache d c = Position_BatchUpsertPositionCache d [c]) /\
  (forall d cs, Position_BatchUpsertPositionCache d cs = tb_Upsert d same_address assign_position cs) /\
  (forall old new, same_address old new = true <-> conflicts position_upsert old new) /\
  (forall old new, assigned position_upsert old new (assign_position old new)).
Proof.
  intros Ho Hh Hp Ha Hw. split_and!; intros.
  - by rewrite (Where_oid t1 o oid Ho).
  - by rewrite (Where_pending t1 o Ho).
  - by rewrite (Where_timeout t1 o t Ho).
  - by rewrite (Where_sent_since t1 o since Ho).
  - by rewrite (Where_oid t1 o oid Ho).
  - apply set_status_column.
  - by rewrite (Where_oid t1 o oid Ho).
  - apply set_sent_column.
  - by rewrite (Where_oid t1 o (agg_Oid agg) Ho).
  - apply update_columns_column.
  - by rewrite (Where_old_orders t1 o t Ho).
  - by rewrite (Where_old_signals t2 h t Hh).
  - by apply (DeleteOldest_statements t2).
  - by apply tb_Count_ok.
  - by rewrite (Where_position t3 p address Hp).
  - done.
  - by apply (distinct_addresses t4 a 2 _ KString aa_Address).
  - by apply (distinct_addresses t5 w 2 _ KString wa_Address).
  - done.
  - apply order_upsert_conflicts.
  - apply order_upsert_assigned.
  - done.
  - done.
  - apply position_upsert_conflicts.
  - apply position_upsert_assigned.
Qed.

(** ** Executable instances *)

#[export] Instance reference_sql : Sql.
Proof.
  refine {|
    sql_holds := fun op x y =>
      match op, x, y with
      | OpEq, VInt a, VInt b => a =? b
      | OpEq, VString a, VString b => bool_decide (a = b)
      | OpIs, VBool a, VBool b => eqb a b
      | OpLt, VInt a, VInt b | OpLt, VTime a, VTime b => a <? b
      | OpLte, VInt a, VInt b => a <=? b
      | OpGte, VInt a, VInt b => b <=? a
      | _, _, _ => false
      end
  |}; done.
Defined.

(** A statement over a list of rows, which keeps those a function accepts. *)
Record list_statement (Row : Type) := mkListStatement {
  ls_where : Row -> bool;
  ls_offset : Z;
  ls_limit : Z;
}.
Arguments mkListStatement {Row}.
Arguments ls_where {Row}.
Arguments ls_offset {Row}.
Arguments ls_limit {Row}.

Definition ls_rows {Row} (d : list_statement Row) (rows : list Row) : list Row :=
  List.filter (ls_where d) rows.

Definition ls_find {Row} (d : list_statement Row) (rows : list Row) : list Row :=
  page (ls_offset d) (ls_limit d) (ls_rows d rows).

Fixpoint chunks {A} (fuel n : nat) (l : list A) : list (list A) :=
  match fuel, l with
  | O, _ => [l]
  | _, [] => []
  | S fuel, _ => take n l :: chunks fuel n (drop n l)
  end.

Lemma concat_chunks {A} fuel : forall n (l : list A), concat (chunks fuel n l) = l.
Proof.
  induction fuel as [|fuel IH]; intros n l; cbn [chunks]; [apply app_nil_r|].
  destruct l as [|x l]; [done|]. cbn [concat]. by rewrite IH, take_drop.
Qed.

#[export] Instance list_statements (Row : Type) : Statements Row.
Proof.
  refine {|
    st_t := list_statement Row; st_World := list Row; st_Relation := unit;
    st_rows := ls_rows; st_offset := ls_offset; st_limit := ls_limit;
    st_Offset := fun n d => mkListStatement (ls_where d) n (ls_limit d);
    st_Limit := fun n d => mkListStatement (ls_where d) (ls_offset d) n;
    st_Joins := fun _ d => d;
    st_Preload := fun _ d => d;
    st_Find := fun d rows => (ls_find d rows, nil_error);
    st_Scan := fun d rows => (ls_find d rows, nil_error);
    st_Count := fun d rows => (Z.of_nat (length (ls_rows d rows)), nil_error);
    st_Create := fun _ new rows => (rows ++ new, nil_error);
    st_Save := fun _ new rows => (rows ++ new, nil_error);
    st_FindInBatches := fun S d rows size fc s =>
      run_batches fc 1 (chunks (length (ls_rows d rows)) (Z.to_nat size) (ls_rows d rows)) s;
  |}; try done.
  - by intros d w rows [= <-].
  - by intros d w rows [= <-].
  - by intros d w n [= <-].
  - intros S d rows size fc s s' err _ E. exists (chunks (length (ls_rows d rows)) (Z.to_nat size) (ls_rows d rows)), [], err.
    rewrite concat_chunks, app_nil_r. by split_and!.
Defined.

(** The third page of two of five rows is the last one; no second query is made. *)
Definition five_rows : st_World Z := [1; 2; 3; 4; 5].
Definition every_row : st_t Z := mkListStatement (fun _ => true) (-1) (-1).

Lemma FindByPage_counts_witness :
  FindByPage every_row five_rows [] 4 2 = ([5], 5, nil_error) /\
  (5 = Z.of_nat (length (st_rows every_row five_rows)) /\ 0 < Z.of_nat (length [5]) < 2 \/
   5 = Z.of_nat (length (st_rows every_row [])) /\ ~ (0 < Z.of_nat (length [5]) < 2)).
Proof.
  split; [reflexivity|].
  destruct (FindByPage_counts every_row five_rows [] 4 2 [5] 5) as [_ H];
    [lia|reflexivity|exact H].
Defined.

Example negative_offset_page :
  FindByPage every_row five_rows five_rows (-1) 9 = (five_rows, 4, nil_error).
Proof. reflexivity. Qed.

(** An unpublished order whose last fill is of second 5, and the timeout query. *)
Definition old_order : OrderAggregation :=
  mkOrderAggregation 7 "0xab" "Open Long" "BTCUSDC" [] f0 f0 "open" 5 false 0 0.
Definition order_table : tb_t OrderAggregation := (2, [old_order]).
Definition order_query : orderAggregation := newOrderAggregation (G := plain_gorm) 1%nat [].

Lemma dao_statements_witness :
  GetTimeout order_table 6 = inl [old_order] /\
  GetTimeout order_table 6 = tb_Find order_table (Where (timeout_where order_query 6)) /\
  tb_Find order_table (Where (timeout_where order_query 5)) = inl [].
Proof.
  destruct (dao_statements (G := plain_gorm) order_query
    (newHlAddressSignal (G := plain_gorm) 1%nat []) (newHlPositionCache (G := plain_gorm) 1%nat [])
    (newHlActiveAddress (G := plain_gorm) 1%nat []) (newHlWatchAddress (G := plain_gorm) 1%nat [])
    _ _ _ _ _ (new_names (Q := orderAggregation) (G := plain_gorm) 1%nat [])
    (new_names (Q := hlAddressSignal) (G := plain_gorm) 1%nat [])
    (new_names (Q := hlPositionCache) (G := plain_gorm) 1%nat [])
    (new_names (Q := hlActiveAddress) (G := plain_gorm) 1%nat [])
    (new_names (Q := hlWatchAddress) (G := plain_gorm) 1%nat [])) as (_ & _ & Ht & _).
  split; [vm_compute; reflexivity|]. split; [exact (Ht order_table 6)|].
  vm_compute. reflexivity.
Defined.
