(* ===== verification/Cleaner.v ===== *)
(** * internal/cleaner/cleaner.go

    The hourly deletion of old rows: order aggregations not updated for two
    hours, signals older than seven days, and the oldest signals above half a
    million; and what a restart recovers from the rows that are left. *)

From Stdlib Require Import ZArith Lia.
From Stdlib Require Import Sorting.Sorted.
From stdpp Require Import gmap strings list sorting.
From S2P Require Import Prelude Float64 GoStrings Models ConcurrentMap GoCache Caches MarketCaches.
From S2P Require Import BatchWriter Messages OrderProcessor Dao.
Local Open Scope Z_scope.

Section cleaner.
Context `{Table OrderAggregation} `{Table DbAddressSignal}.

(** The tables the cleaner works on. *)
Record Database := mkDatabase {
  db_aggregations : tb_t OrderAggregation;
  db_signals : tb_t DbAddressSignal;
}.

Record Cleaner := mkCleaner {
  cl_interval : Z;
  cl_done : bool;          (* whether [done] is closed *)
}.

Definition NewCleaner : Cleaner := mkCleaner (1 * Hour) false.

(** Closing a closed channel panics. *)
Definition Cleaner_Stop (c : Cleaner) : outcome Cleaner :=
  if cl_done c then Panic else Ret (mkCleaner (cl_interval c) true).

Definition cleanOrderAggregation (now : Z) (db : Database) : Database * error :=
  let cutoff := Unix (now - 2 * Hour) in
  let '(d, deleted, err) := OrderAggregation_DeleteOld (db_aggregations db) cutoff in
  (mkDatabase d (db_signals db), err).

Definition maxSignals : Z := 500000.

Definition cleanAddressSignals (now : Z) (db : Database) : Database * error :=
  let cutoff := AddDays now (-7) in
  let '(d, deleted, err) := Signal_DeleteOld (db_signals db) cutoff in
  let db := mkDatabase (db_aggregations db) d in
  match err with
  | Some err => (db, Some err)
  | None =>
      match Signal_Count (db_signals db) with
      | inr err => (db, Some err)
      | inl count =>
          if count >? maxSignals then
            let excess := count - maxSignals in
            let '(d, deleted, err) := DeleteOldest (db_signals db) excess in
            (mkDatabase (db_aggregations db) d, err)
          else (db, nil_error)
      end
  end.

(** [clean]: the errors are logged only. *)
Definition clean (now : Z) (db : Database) : Database :=
  let '(db, _) := cleanOrderAggregation now db in
  let '(db, _) := cleanAddressSignals now db in
  db.

(** The goroutine: once at the start and at every tick until [done] is closed. *)
Definition cleaner_run (start : Z) (ticks : list Z) (db : Database) : Database :=
  fold_left (fun db now => clean now db) ticks (clean start db).
End cleaner.
Arguments Database {_ _}.

Section facts.
Context `{Table OrderAggregation} `{Table DbAddressSignal}.
Implicit Types db : Database.

(** The signals a cleaning at [now] keeps for their age, and all it keeps. *)
Definition recent_signals (now : Z) (rows : list DbAddressSignal) : list DbAddressSignal :=
  filter (fun r => (das_CreatedAt r <? AddDays now (-7)) = false) rows.

Definition newest_signals (rows : list DbAddressSignal) : list DbAddressSignal :=
  drop (Z.to_nat (Z.of_nat (length rows) - maxSignals)) rows.

Lemma newest_signals_length rows : Z.of_nat (length (newest_signals rows)) <= maxSignals.
Proof. unfold newest_signals. rewrite length_drop. unfold maxSignals. lia. Qed.

Lemma Signal_DeleteOld_rows d before d' n err :
  signals_ok d -> Signal_DeleteOld d before = (d', n, err) ->
  signals_ok d' /\
  (err = nil_error -> tb_rows d' = filter (fun r => (das_CreatedAt r <? before) = false) (tb_rows d)) /\
  (err <> nil_error -> tb_rows d' = tb_rows d).
Proof.
  intros Hok. unfold Signal_DeleteOld.
  destruct (tb_Delete d _) as [d1 [k|e]] eqn:E; intros [= <- _ <-].
  - apply tb_Delete_ok in E as (Er & _ & En).
    split; [exact (signals_ok_filter d d1 (fun r => das_CreatedAt r <? before) false Hok Er En)|].
    by split.
  - apply tb_Delete_err in E as [Er En]. split; [by eapply signals_ok_same|]. by split.
Qed.
End facts.

(** C17. A cleaning of the signals keeps the newest: when it reports no error
    the table holds exactly the signals of the last seven days, without the
    oldest of them above 500000; when a statement fails it holds those of the
    last seven days or all it held before; the identifiers stay increasing. *)
Theorem cleanAddressSignals_keeps_newest `{Table OrderAggregation} `{Table DbAddressSignal}
    (now : Z) (db : Database) :
  signals_ok (db_signals db) ->
  let rows := tb_rows (db_signals db) in
  let '(db', err) := cleanAddressSignals now db in
  let rows' := tb_rows (db_signals db') in
  signals_ok (db_signals db') /\ db_aggregations db' = db_aggregations db /\
  (err = nil_error -> rows' = newest_signals (recent_signals now rows) /\
     Z.of_nat (length rows') <= 500000) /\
  (err <> nil_error -> rows' = rows \/ rows' = recent_signals now rows).
Proof.
  intros Hok rows. unfold cleanAddressSignals.
  destruct (Signal_DeleteOld _ _) as [[d n] err] eqn:E1.
  destruct (Signal_DeleteOld_rows _ _ _ _ _ Hok E1) as (Hok1 & Hrows & Herr).
  fold rows in Hrows, Herr. fold (recent_signals now rows) in Hrows.
  destruct err as [e|]; simpl.
  { split; [done|]. split; [done|]. split; [done|]. intros _. left. by apply Herr. }
  specialize (Hrows eq_refl).
  destruct (Signal_Count d) as [count|e] eqn:E2; simpl.
  2:{ split; [done|]. split; [done|]. split; [done|]. intros _. by right. }
  apply tb_Count_ok in E2. destruct (Z.gtb_spec count maxSignals) as [Hgt|Hle].
  - destruct (DeleteOldest d (count - maxSignals)) as [[d2 k] err] eqn:E3. simpl.
    destruct err as [e|].
    + apply DeleteOldest_err in E3 as [Er En]. split; [by eapply signals_ok_same|].
      split; [done|]. split; [done|]. intros _. right. by rewrite Er.
    + destruct (DeleteOldest_spec d _ d2 k Hok1 E3) as (Hok2 & Hdel & _).
      destruct Hdel as [Er _]; [unfold maxSignals in *; lia|].
      assert (tb_rows d2 = newest_signals (recent_signals now rows)) as E.
      { unfold newest_signals. rewrite <- Hrows, Er. f_equal. lia. }
      split; [done|]. split; [done|]. split; [|done]. intros _.
      split; [done|]. rewrite E. apply newest_signals_length.
  - simpl. split; [done|]. split; [done|]. split; [|done]. intros _.
    assert (tb_rows d = newest_signals (recent_signals now rows)) as E.
    { unfold newest_signals. rewrite <- Hrows, <- E2.
      by replace (Z.to_nat (count - maxSignals)) with 0%nat by lia. }
    split; [done|]. rewrite E. apply newest_signals_length.
Qed.

(** ** What a restart recovers *)

(** The processor's records: the last fill is not later than the last update. *)
Definition stamped (agg : OrderAggregation) : Prop :=
  agg_LastFillTime agg * Second <= agg_UpdatedAt agg.

Lemma Unix_le t : Unix t * Second <= t.
Proof. rewrite Z.mul_comm. by apply Z.mul_div_le. Qed.

Section stamps.
Context `{Cast}.

Lemma new_pending_stamped now a fill dir symbol :
  stamped (po_Aggregation (new_pending now a fill dir symbol)).
Proof. unfold stamped. simpl. apply Unix_le. Qed.

Lemma append_fill_stamped now pending tids fill :
  stamped (po_Aggregation (append_fill now pending tids fill)).
Proof.
  unfold stamped, append_fill. destruct (calculateWeightedAvg _). simpl. apply Unix_le.
Qed.

Lemma mark_sent_stamped now status agg :
  stamped agg -> agg_UpdatedAt agg <= now -> stamped (mark_sent now status agg).
Proof. unfold stamped. simpl. lia. Qed.
End stamps.

Section recovery.
Context `{Table OrderAggregation} `{Table DbAddressSignal}.

(** What a cleaning does to the aggregations. *)
Lemma clean_aggregations tc db :
  let rows := tb_rows (db_aggregations db) in
  let rows' := tb_rows (db_aggregations (clean tc db)) in
  rows' = rows \/
  rows' = filter (fun r => (agg_UpdatedAt r <? Unix (tc - 2 * Hour) * Second) = false) rows.
Proof.
  assert (forall db', db_aggregations (cleanAddressSignals tc db').1 = db_aggregations db') as Hagg.
  { intros db'. unfold cleanAddressSignals.
    destruct (Signal_DeleteOld _ _) as [[d n] [e|]]; [done|].
    destruct (Signal_Count _); [|done]. destruct (_ >? _); [|done].
    by destruct (DeleteOldest _ _) as [[d2 n2] e2]. }
  unfold clean, cleanOrderAggregation, OrderAggregation_DeleteOld.
  destruct (tb_Delete (db_aggregations db) _) as [d [n|err]] eqn:E;
    specialize (Hagg (mkDatabase d (db_signals db)));
    destruct (cleanAddressSignals _ _) as [db' e]; simpl in *; rewrite Hagg; simpl.
  - right. by apply tb_Delete_ok in E as [-> _].
  - left. by apply tb_Delete_err in E as [-> _].
Qed.

(** A cleaning deletes no row that a restart within two hours asks for. *)
Lemma clean_keeps_recent tc db r :
  r ∈ tb_rows (db_aggregations db) -> stamped r -> Unix (tc - 2 * Hour) <= agg_LastFillTime r ->
  r ∈ tb_rows (db_aggregations (clean tc db)).
Proof.
  intros Hin Hst Hl. destruct (clean_aggregations tc db) as [-> | ->]; [done|].
  apply list_elem_of_filter. split; [|done]. unfold stamped in Hst. apply Z.ltb_ge.
  unfold Second in *. lia.
Qed.

Lemma clean_adds_none tc db r :
  r ∈ tb_rows (db_aggregations (clean tc db)) -> r ∈ tb_rows (db_aggregations db).
Proof.
  destruct (clean_aggregations tc db) as [-> | ->]; [done|]. by intros [_ ?]%list_elem_of_filter.
Qed.
End recovery.

(** A restart recovers the deduplication whatever the cleaner deleted: of the
    rows the table held before a cleaning, every sent order whose last fill
    lies in the window is seen by the new deduper until the window ends, for
    every window of at most two hours, the age below which nothing is
    deleted. *)
Lemma restart_after_cleaning `{Table OrderAggregation} `{Table DbAddressSignal}
    `{GC : GoCache Z} (db : Database) ttl tc now t :
  0 < ttl <= 2 * Hour -> tc <= now -> now <= t <= now + ttl ->
  (forall r, r ∈ tb_rows (db_aggregations db) -> dash_free (agg_Address r)) ->
  let get := GetSentOrdersSince (db_aggregations (clean tc db)) in
  (forall err, get (now - ttl) <> inr err) ->
  let '(d, err) := OrderDeduper_LoadFromDB (NewOrderDeduper ttl) now (DaoOrders get) in
  err = nil_error /\
  forall r, r ∈ tb_rows (db_aggregations db) -> stamped r -> agg_SignalSent r = true ->
    Unix (now - ttl) <= agg_LastFillTime r ->
    OrderDeduper_IsSeen d t (agg_Address r) (agg_Oid r) (agg_Direction r) = true.
Proof.
  intros Httl Htc Ht Hrows get Hget.
  assert (Unix (tc - 2 * Hour) <= Unix (now - ttl)) as Hcut.
  { apply Z.div_le_mono; [done|]. lia. }
  assert (od_ttl (NewOrderDeduper ttl) = ttl) as Ettl.
  { unfold NewOrderDeduper. by rewrite (proj2 (Z.leb_gt _ _)) by lia. }
  destruct (get (now - ttl)) as [orders|err] eqn:Eget; [|by destruct (Hget err)].
  pose proof (tb_Find_ok _ _ _ Eget) as Hperm.
  assert (forall r, r ∈ orders -> r ∈ tb_rows (db_aggregations db)) as Hsub.
  { intros r Hr. rewrite Hperm in Hr. apply list_elem_of_filter in Hr as [_ Hr].
    by eapply clean_adds_none. }
  pose proof (OrderDeduper_LoadFromDB_recovers (NewOrderDeduper ttl) now t get orders
    (NewOrderDeduper_wf ttl)) as Hrec. rewrite Ettl in Hrec.
  specialize (Hrec Eget (fun r Hr => Hrows r (Hsub r Hr)) Ht).
  destruct (OrderDeduper_LoadFromDB _ _ _) as [d err]. destruct Hrec as (-> & _ & Hseen & _).
  split; [done|]. intros r Hr Hstamp Hsent Hlast. apply Hseen. rewrite Hperm.
  apply list_elem_of_filter. split; [|apply clean_keeps_recent; [done|done|lia]].
  rewrite Hsent. simpl. by apply Z.leb_le.
Qed.

(** ** Witnesses *)

Definition sample_aggregations : list OrderAggregation :=
  [mkOrderAggregation 42 "0xab" "Open Long" "BTCUSDC" [] f0 f0 "filled" 10000 true 0
     (10000 * Second);
   mkOrderAggregation 41 "0xab" "Open Long" "BTCUSDC" [] f0 f0 "filled" 1 true 0 Second].

Definition old_signal (id created : Z) : DbAddressSignal :=
  mkDbAddressSignal id "0xab" f0 f0 "BTCUSDC" "A" "futures" "open" "LONG" f0 f0 created
    (AddDays created 7).

Definition sample_database : Database :=
  mkDatabase (3, sample_aggregations)
    (3, [old_signal 1 0; old_signal 2 (AddDays 0 3)]).

Lemma sample_signals_ok : signals_ok (db_signals sample_database).
Proof. repeat constructor. Qed.

Lemma cleanAddressSignals_keeps_newest_witness :
  map das_ID (tb_rows (db_signals (cleanAddressSignals (AddDays 0 8) sample_database).1)) = [2].
Proof.
  pose proof (cleanAddressSignals_keeps_newest (AddDays 0 8) sample_database sample_signals_ok)
    as Hc.
  destruct (cleanAddressSignals (AddDays 0 8) sample_database) as [db err] eqn:E.
  destruct Hc as (_ & _ & Hc & _). cbn [fst]. destruct (Hc ltac:(vm_compute in E; congruence)) as [-> _].
  vm_compute. reflexivity.
Defined.
