(* ===== verification/Persistence.v ===== *)
(** * From the handlers to the tables

    The order processor, the position processor, the batch writer they share
    and the database behind it, in one run.  An order's item is a pointer: a
    flush writes the record as it is at that moment.  The rows in flight (queued
    or buffered) read before the stored ones, as a store buffer does: a run
    keeps the tables, read through the writer, equal to what was published,
    what is pending and the last snapshots. *)

From Stdlib Require Import ZArith Lia Ascii.
From stdpp Require Import gmap strings list pretty.
From S2P Require Import Prelude Float64 GoStrings Models ConcurrentMap GoCache Caches MarketCaches.
From S2P Require Import BatchWriter Messages OrderProcessor OrderRuns Dao.
Local Open Scope Z_scope.

(** ** The tables and the calls of a flush *)
Section tables.
Context `{TO : Table OrderAggregation} `{TP : Table HlPositionCache}.

Record Tables := mkTables {
  t_orders : tb_t OrderAggregation;
  t_positions : tb_t HlPositionCache;
}.

(** The record an item points to. *)
Definition deref_agg (heap : gmap loc PendingOrder) (ref : AggRef) : option OrderAggregation :=
  po_Aggregation <$> heap !! ref_loc ref.

(** [dao.Position().BatchUpsertPositionCache] and [dao.OrderAggregation().BatchUpsert]. *)
Definition dao_exec (heap : gmap loc PendingOrder) (t : Tables) (call : DaoCall)
    : Tables * error :=
  match call with
  | BatchUpsertPositionCache caches =>
      let '(d, err) := Position_BatchUpsertPositionCache (t_positions t) caches in
      (mkTables (t_orders t) d, err)
  | BatchUpsert aggs =>
      let '(d, err) := OrderAggregation_BatchUpsert (t_orders t) (omap (deref_agg heap) aggs) in
      (mkTables d (t_positions t), err)
  end.

Definition dao_answers (heap : gmap loc PendingOrder) (t : Tables) (call : DaoCall) : error :=
  (dao_exec heap t call).2.

(** The calls of a list of upserts, in order. *)
Definition dao_upsert (heap : gmap loc PendingOrder) (t : Tables) (u : Upsert) : Tables :=
  match up_call u with Some call => (dao_exec heap t call).1 | None => t end.

(** The database takes every upsert. *)
Definition accepting : Prop :=
  (forall (d : tb_t OrderAggregation) c a rows, (tb_Upsert d c a rows).2 = nil_error) /\
  (forall (d : tb_t HlPositionCache) c a rows, (tb_Upsert d c a rows).2 = nil_error).

(** The rows and the keys of the two kinds of items. *)
Definition order_of (i : BatchItem) : option AggRef :=
  match i with OrderAggregationItem ref => Some ref | _ => None end.
Definition cache_of (i : BatchItem) : option HlPositionCache :=
  match i with PositionCacheItem _ c => Some c | _ => None end.

Lemma omap_orders refs : omap order_of (map OrderAggregationItem refs) = refs.
Proof. induction refs; csimpl; congruence. Qed.

Lemma omap_orders_none addrs : forall caches,
  omap order_of (zip_with PositionCacheItem addrs caches) = [].
Proof. induction addrs; intros [|? ?]; csimpl; auto. Qed.

Lemma omap_caches addrs : forall caches, length addrs = length caches ->
  omap cache_of (zip_with PositionCacheItem addrs caches) = caches.
Proof. induction addrs; intros [|? ?]; csimpl; [done..|]. intros [= ?]. f_equal; auto. Qed.

Lemma omap_caches_none refs : omap cache_of (map OrderAggregationItem refs) = [].
Proof. induction refs; csimpl; auto. Qed.

(** What the calls of a flush leave in an accepting database. *)
Lemma dao_upserts_rows heap dao log : forall t,
  accepting -> Forall (upsert_ok dao) log ->
  tb_rows (t_orders (fold_left (dao_upsert heap) log t)) =
    fold_left (upsert_row same_order assign_order)
      (omap (deref_agg heap) (omap order_of (written log))) (tb_rows (t_orders t)) /\
  tb_rows (t_positions (fold_left (dao_upsert heap) log t)) =
    fold_left (upsert_row same_address assign_position)
      (omap cache_of (written log)) (tb_rows (t_positions t)).
Proof.
  induction log as [|u log IH]; intros t Hacc Hlog; [done|].
  inversion Hlog as [|? ? Hu Hl]; subst. cbn [fold_left]. unfold written. cbn [map concat].
  rewrite !omap_app, !fold_left_app. destruct (IH (dao_upsert heap t u) Hacc Hl) as [-> ->].
  destruct Hacc as [HO HP]. unfold dao_upsert.
  destruct Hu as [_ [(addrs & caches & -> & Hlen & -> & _)|(aggs & -> & -> & _)]].
  - rewrite omap_orders_none, (omap_caches _ _ Hlen). cbn [dao_exec].
    unfold Position_BatchUpsertPositionCache.
    destruct (tb_Upsert (t_positions t) same_address assign_position caches) as [d err] eqn:E.
    assert (err = nil_error) as -> by (rewrite <- (HP (t_positions t) same_address assign_position caches); by rewrite E).
    apply tb_Upsert_ok in E. simpl. by rewrite E.
  - rewrite omap_orders, omap_caches_none. cbn [dao_exec]. unfold OrderAggregation_BatchUpsert.
    destruct (tb_Upsert (t_orders t) same_order assign_order (omap (deref_agg heap) aggs)) as [d err] eqn:E.
    assert (err = nil_error) as -> by (rewrite <- (HO (t_orders t) same_order assign_order (omap (deref_agg heap) aggs)); by rewrite E).
    apply tb_Upsert_ok in E. simpl. by rewrite E.
Qed.
End tables.
Arguments Tables {_ _}.

(** ** Keys *)

Definition colon_free (s : string) : Prop := contains_char ":" s = false.

(** The addresses the keys can be read from: no key character in them. *)
Definition address_wf (a : string) : Prop := dash_free a /\ colon_free a.

Lemma pretty_Z_no_colon (z : Z) : colon_free (pretty z).
Proof.
  unfold colon_free, pretty, pretty_Z. destruct z; [done|apply pretty_N_no_colon|].
  cbn [String.append contains_char]. apply pretty_N_no_colon.
Qed.

Lemma order_item_key r1 r2 :
  colon_free (ref_Address r1) -> colon_free (ref_Address r2) ->
  DedupKey (OrderAggregationItem r1) = DedupKey (OrderAggregationItem r2) ->
  ref_Oid r1 = ref_Oid r2 /\ ref_Address r1 = ref_Address r2 /\
  ref_Direction r1 = ref_Direction r2.
Proof.
  intros H1 H2 E. simpl in E. injection E as E.
  apply append_sep_inj in E as [Eo E]; [|apply pretty_Z_no_colon..].
  apply append_sep_inj in E as [Ea Ed]; [|done..].
  apply (inj pretty) in Eo. by rewrite Eo, Ea, Ed.
Qed.

Lemma position_key_inj a b c d :
  DedupKey (PositionCacheItem a c) = DedupKey (PositionCacheItem b d) -> a = b.
Proof. intros E. by apply (inj (String.append "pc:")) in E. Qed.

(** ** Rows in flight *)
Section in_flight.
Context `{TO : Table OrderAggregation} `{TP : Table HlPositionCache} `{MapRange}.
Implicit Types (heap : gmap loc PendingOrder) (w : BatchWriter) (t : Tables).

Definition order_item (l : loc) (po : PendingOrder) : BatchItem :=
  OrderAggregationItem (agg_ref l (po_Aggregation po)).

Definition flight w (i : BatchItem) : Prop :=
  i ∈ bw_queue w \/ map_data (bw_buffers w) !! DedupKey i = Some i.

(** The items of the writer are those of live records and of snapshots. *)
Definition item_ok heap (i : BatchItem) : Prop :=
  match i with
  | PositionCacheItem a c => pc_Address c = a
  | OrderAggregationItem ref =>
      exists po, heap !! ref_loc ref = Some po /\ ref = agg_ref (ref_loc ref) (po_Aggregation po)
  end.

(** One record per order, with an address the keys can be read from. *)
Record heap_ok heap : Prop := {
  heap_unique : forall l1 po1 l2 po2, heap !! l1 = Some po1 -> heap !! l2 = Some po2 ->
    order_id (po_Aggregation po1) = order_id (po_Aggregation po2) -> l1 = l2;
  heap_address : forall l po, heap !! l = Some po -> address_wf (agg_Address (po_Aggregation po));
}.

Definition items_ok heap w : Prop :=
  forall i, i ∈ bw_queue w \/ (exists k, map_data (bw_buffers w) !! k = Some i) -> item_ok heap i.

(** The snapshot of an address, read through the writer. *)
Definition read_position w t (a : string) : option HlPositionCache :=
  let k := "pc:" +:+ a in
  match or_else (last_with k (bw_queue w)) (map_data (bw_buffers w) !! k) with
  | Some i => cache_of i
  | None => row_at pc_Address (tb_rows (t_positions t)) a
  end.

Record writes_ok heap (snapshots : string -> option HlPositionCache) w t : Prop := {
  wo_keyed : keyed (map_data (bw_buffers w));
  wo_items : items_ok heap w;
  wo_orders : forall l po, heap !! l = Some po ->
    flight w (order_item l po) \/
    holds_row order_id assign_order (tb_rows (t_orders t)) (po_Aggregation po);
  wo_positions : forall a, read_position w t a = snapshots a;
  wo_rows : NoDup (map order_id (tb_rows (t_orders t)));
  wo_addresses : forall r, r ∈ tb_rows (t_orders t) -> address_wf (agg_Address r);
}.

Lemma item_ok_key heap i1 i2 :
  heap_ok heap -> item_ok heap i1 -> item_ok heap i2 -> order_of i1 <> None ->
  DedupKey i1 = DedupKey i2 -> i1 = i2.
Proof.
  intros [Hu Hc] H1 H2 Ho E. destruct i1 as [|r1]; [done|]. destruct i2 as [|r2]; [done|].
  destruct H1 as (po1 & Hl1 & E1), H2 as (po2 & Hl2 & E2).
  apply order_item_key in E as (Eo & Ea & Ed);
    [|rewrite E1; apply (Hc _ _ Hl1)|rewrite E2; apply (Hc _ _ Hl2)].
  rewrite E1, E2 in Eo, Ea, Ed. simpl in Eo, Ea, Ed.
  assert (ref_loc r1 = ref_loc r2) as El.
  { eapply Hu; [done..|]. unfold order_id. by rewrite Eo, Ea, Ed. }
  rewrite E1, E2. rewrite <- El in *. by simplify_eq.
Qed.

(** What the snapshots' calls leave for an address. *)
Lemma position_rows heap items a : forall rows,
  Forall (item_ok heap) items ->
  row_at pc_Address (fold_left (upsert_row same_address assign_position)
    (omap cache_of items) rows) a =
  match last_with ("pc:" +:+ a) items with
  | Some i => cache_of i
  | None => row_at pc_Address rows a
  end.
Proof.
  induction items as [|i items IH] using rev_ind; intros rows Hall; [done|].
  apply Forall_app in Hall as [Hall Hi%Forall_inv].
  rewrite omap_app, fold_left_app, last_with_app, last_with_singleton.
  specialize (IH rows Hall). destruct i as [b c|ref].
  - cbn [omap list_omap cache_of fold_left]. csimpl.
    rewrite (row_at_upsert pc_Address same_address assign_position same_address_eq) by done.
    simpl in Hi. rewrite Hi. destruct (decide (b = a)) as [->|Hne].
    + rewrite decide_True by done. simpl. f_equal.
      destruct (row_at _ _ a) as [old|] eqn:E; [|done].
      apply row_at_key in E as [E _]. apply assign_position_same. by rewrite E.
    + rewrite decide_False; [done|]. by intros E%(inj (String.append "pc:")).
  - destruct (decide (DedupKey (OrderAggregationItem ref) = _)); [discriminate|].
    exact IH.
Qed.

Lemma written_items w log :
  written log ≡ₚ (map_to_list (map_data (bw_buffers w))).*2 ->
  forall i, i ∈ written log <-> exists k, map_data (bw_buffers w) !! k = Some i.
Proof.
  intros Hw i. rewrite Hw, list_elem_of_fmap. split.
  - intros ([k j] & -> & Hk%elem_of_map_to_list). by exists k.
  - intros [k Hk]. exists (k, i). split; [done|]. by apply elem_of_map_to_list.
Qed.

(** The records a flush writes under the key of a record are that record. *)
Lemma written_unique heap w log l po :
  heap_ok heap -> items_ok heap w ->
  written log ≡ₚ (map_to_list (map_data (bw_buffers w))).*2 ->
  heap !! l = Some po ->
  forall new, new ∈ omap (deref_agg heap) (omap order_of (written log)) ->
    order_id new = order_id (po_Aggregation po) -> new = po_Aggregation po.
Proof.
  intros Hh Hi Hw Hl new (ref & Href & Hd)%list_elem_of_omap E.
  apply list_elem_of_omap in Href as (i & Hin & Hir).
  destruct i as [|ref']; [done|]. injection Hir as ->.
  unfold deref_agg in Hd. destruct (heap !! ref_loc ref) as [po'|] eqn:Hl'; [|done].
  injection Hd as <-. pose proof (heap_unique heap Hh _ _ _ _ Hl' Hl E) as El.
  rewrite El in Hl'. by simplify_eq.
Qed.

Lemma flush_writes_ok heap snapshots dao w t :
  accepting -> heap_ok heap -> writes_ok heap snapshots w t ->
  let '(w', log) := flushAll dao w in
  writes_ok heap snapshots w' (fold_left (dao_upsert heap) log t).
Proof.
  intros Hacc Hh [Hk Hi Ho Hp Hr Hra]. pose proof (flushAll_spec dao w) as Hf.
  destruct (flushAll dao w) as [w' log]. destruct Hf as (Hw & Hlog & Hb & Hq & _ & _).
  destruct (dao_upserts_rows heap dao log t Hacc Hlog) as [Eo Ep].
  pose proof (written_items w log Hw) as Hin.
  constructor; rewrite ?Hb, ?Hq, ?Eo.
  - apply keyed_empty.
  - intros i. rewrite Hb, Hq. intros [Hiq|[k Hx]]; [by apply Hi; left|].
    by rewrite lookup_empty in Hx.
  - intros l po Hl. unfold flight. rewrite Hq, Hb.
    destruct (Ho l po Hl) as [[Hiq|Hbuf]|Hrow]; [by left; left|right|right];
      (apply (holds_row_upserts order_id same_order assign_order same_order_id assign_order_id);
       [|by apply (written_unique heap w log l po)]).
    + left. apply list_elem_of_omap. exists (agg_ref l (po_Aggregation po)). split.
      * apply list_elem_of_omap. exists (order_item l po). split; [|done]. apply Hin. by eexists.
      * unfold deref_agg. simpl. by rewrite Hl.
    + by right.
  - intros a. rewrite <- Hp. unfold read_position. rewrite Hq, Hb, lookup_empty, Ep.
    rewrite (position_rows heap).
    + rewrite (last_with_values _ _ _ Hk Hw). by destruct (last_with _ _).
    + apply Forall_forall. intros i [k Hx]%Hin. apply Hi. right. by exists k.
  - by apply (upserts_keys_unique order_id same_order assign_order same_order_id assign_order_id).
  - intros r Hrow. assert (order_id r ∈ map order_id (tb_rows (t_orders t)) \/
      order_id r ∈ map order_id (omap (deref_agg heap) (omap order_of (written log)))) as Hids.
    { apply (upserts_keys_elem order_id same_order assign_order same_order_id assign_order_id).
      apply list_elem_of_fmap. by exists r. }
    destruct Hids as [(r' & E & Hr')%list_elem_of_fmap|(r' & E & Hr')%list_elem_of_fmap];
      injection E as _ -> _; [by apply Hra|].
    apply list_elem_of_omap in Hr' as (ref & _ & Hd). unfold deref_agg in Hd.
    destruct (heap !! ref_loc ref) as [po|] eqn:Hl; [|done]. injection Hd as <-.
    by eapply heap_address.
Qed.

Lemma store_writes_ok heap snapshots w q item t :
  heap_ok heap -> bw_queue w = item :: q -> writes_ok heap snapshots w t ->
  writes_ok heap snapshots (store_item w q item) t.
Proof.
  intros Hh Hq [Hk Hi Ho Hp Hr Hra].
  constructor; simpl; rewrite ?Map_data_Store; [auto with hlm| | | |done|done].
  - intros i. simpl. rewrite Map_data_Store. intros [Hiq|[k Hx]]; [apply Hi; rewrite Hq; left; by right|].
    destruct (decide (DedupKey item = k)) as [<-|Hne].
    + rewrite lookup_insert_eq in Hx. injection Hx as <-. apply Hi. rewrite Hq. by left; left.
    + rewrite lookup_insert_ne in Hx by done. apply Hi. right. by exists k.
  - intros l po Hl. destruct (Ho l po Hl) as [Hfl|Hrow]; [left|by right].
    assert (order_of (order_item l po) <> None) as Hne by done.
    set (i := order_item l po) in *. clearbody i. unfold flight in *. simpl.
    rewrite Map_data_Store. rewrite Hq in Hfl.
    destruct Hfl as [[<-|?]%elem_of_cons|Hbuf]; [right; by rewrite lookup_insert_eq|by left|right].
    destruct (decide (DedupKey item = DedupKey i)) as [E|Hk']; [|by rewrite lookup_insert_ne].
    rewrite E, lookup_insert_eq. f_equal. symmetry.
    apply (item_ok_key heap); [done| | |done|done].
    + apply Hi. right. by eexists.
    + apply Hi. rewrite Hq. left. left.
  - intros a. rewrite <- Hp. unfold read_position. simpl. rewrite Map_data_Store, Hq.
    change (item :: q) with ([item] ++ q). rewrite last_with_app, last_with_singleton, lookup_insert.
    by destruct (last_with _ q), (decide (DedupKey item = _)).
Qed.
Lemma receive_writes_ok heap snapshots dao w t :
  accepting -> heap_ok heap -> writes_ok heap snapshots w t ->
  let '(w', log) := receive dao w in
  writes_ok heap snapshots w' (fold_left (dao_upsert heap) log t).
Proof.
  intros Hacc Hh Hw. unfold receive. destruct (bw_queue w) as [|item q] eqn:Hq; [done|].
  apply (store_writes_ok _ _ _ _ _ _ Hh Hq) in Hw.
  destruct (_ <=? _); [by apply flush_writes_ok|done].
Qed.

Lemma drain_writes_ok heap snapshots n w t :
  heap_ok heap -> writes_ok heap snapshots w t -> writes_ok heap snapshots (drain n w) t.
Proof.
  intros Hh Hw. unfold drain. induction n as [|n IH]; [done|].
  rewrite Nat.iter_succ. set (w' := Nat.iter n drain_one w) in *. unfold drain_one.
  destruct (bw_queue w') as [|item q] eqn:Hq; [done|].
  by apply store_writes_ok.
Qed.

Lemma stop_writes_ok heap snapshots dao n w t :
  accepting -> heap_ok heap -> writes_ok heap snapshots w t ->
  let '(w', log) := BatchWriter_Stop dao n w in
  writes_ok heap snapshots w' (fold_left (dao_upsert heap) log t) /\
  bw_queue w' = [] /\ map_data (bw_buffers w') = ∅.
Proof.
  intros Hacc Hh Hw. pose proof (Stop_spec dao n w [] (wo_keyed _ _ _ _ Hw)) as Hs.
  unfold logged, BatchWriter_Stop in *. apply (drain_writes_ok _ _ n _ _ Hh) in Hw.
  set (w1 := drain n w) in *. pose proof (flush_writes_ok heap snapshots dao w1 t Hacc Hh Hw) as Hf.
  destruct (flushAll dao w1) as [w2 log2].
  apply (drain_writes_ok _ _ (length (bw_queue w2)) _ _ Hh) in Hf.
  set (w3 := drain _ w2) in *.
  pose proof (flush_writes_ok heap snapshots dao w3 _ Hacc Hh Hf) as Hf4.
  destruct (flushAll dao w3) as [w4 log4]. rewrite fold_left_app.
  destruct Hs as (Hq & Hb & _). by split_and!.
Qed.

(** After a stop nothing is in flight: the tables hold every record and every
    snapshot. *)
Lemma stopped_rows heap snapshots w t :
  writes_ok heap snapshots w t -> bw_queue w = [] -> map_data (bw_buffers w) = ∅ ->
  (forall l po, heap !! l = Some po ->
     holds_row order_id assign_order (tb_rows (t_orders t)) (po_Aggregation po)) /\
  (forall a, row_at pc_Address (tb_rows (t_positions t)) a = snapshots a) /\
  NoDup (map order_id (tb_rows (t_orders t))).
Proof.
  intros [_ _ Ho Hp Hr _] Hq Hb. split_and!; [| |done].
  - intros l po Hl. destruct (Ho l po Hl) as [[Hi|Hi]|Hi]; [| |done].
    + rewrite Hq in Hi. by apply elem_of_nil in Hi.
    + by rewrite Hb, lookup_empty in Hi.
  - intros a. rewrite <- Hp. unfold read_position. by rewrite Hq, Hb, lookup_empty.
Qed.

(** An item accepted by [Add]. *)
Definition with_item w (i : BatchItem) : BatchWriter :=
  mkBatchWriter (bw_config w) (bw_queue w ++ [i]) (bw_buffers w).

Definition room w : Prop := Z.of_nat (length (bw_queue w)) < MaxQueueSize (bw_config w).

Lemma Add_room w i : room w -> BatchWriter_Add w i = (with_item w i, nil_error).
Proof. unfold room, BatchWriter_Add. intros Hr. by rewrite (proj2 (Z.ltb_lt _ _)) by lia. Qed.

Lemma add_position_ok heap snapshots w t a c :
  pc_Address c = a -> writes_ok heap snapshots w t ->
  writes_ok heap (fun b => if decide (b = a) then Some c else snapshots b)
    (with_item w (PositionCacheItem a c)) t.
Proof.
  intros Hc [Hk Hi Ho Hp Hr Hra]. constructor; simpl; [done| | | |done|done].
  - intros i. simpl. rewrite elem_of_app, list_elem_of_singleton.
    intros [[?| ->]|?]; [apply Hi; by left|done|apply Hi; by right].
  - intros l po Hl. destruct (Ho l po Hl) as [[?|?]|?]; [left; left|left; right|by right]; [|done].
    apply elem_of_app. by left.
  - intros b. rewrite <- Hp. unfold read_position. simpl bw_queue. simpl bw_buffers.
    rewrite last_with_app, last_with_singleton. case_decide as E.
    + apply (inj (String.append "pc:")) in E. by rewrite decide_True.
    + rewrite decide_False; [done|]. by intros ->.
Qed.

Lemma add_order_ok heap snapshots w t l po :
  (forall po0, heap !! l = Some po0 ->
     order_id (po_Aggregation po) = order_id (po_Aggregation po0)) ->
  writes_ok heap snapshots w t ->
  writes_ok (<[l := po]> heap) snapshots (with_item w (order_item l po)) t.
Proof.
  intros Hid [Hk Hi Ho Hp Hr Hra]. constructor; simpl; [done| | | |done|done].
  - intros i. simpl. rewrite elem_of_app, list_elem_of_singleton. intros Hin.
    assert (i = order_item l po \/ item_ok heap i) as [-> | Hok].
    { destruct Hin as [[?|?]|?]; [right; apply Hi; by left|by left|right; apply Hi; by right]. }
    { exists po. simpl. by rewrite lookup_insert_eq. }
    destruct i as [|ref]; [done|]. destruct Hok as (po0 & Hl & E). simpl.
    destruct (decide (ref_loc ref = l)) as [<-|Hne].
    + exists po. rewrite lookup_insert_eq. split; [done|]. rewrite E at 1.
      specialize (Hid po0 Hl). unfold order_id in Hid. injection Hid as Ea Eb Ec.
      unfold agg_ref. by rewrite Ea, Eb, Ec.
    + exists po0. by rewrite lookup_insert_ne.
  - intros l' po' Hl'. destruct (decide (l = l')) as [<-|Hne].
    + rewrite lookup_insert_eq in Hl'. injection Hl' as <-. left. left.
      apply elem_of_app. right. left.
    + rewrite lookup_insert_ne in Hl' by done.
      destruct (Ho l' po' Hl') as [[?|?]|?]; [left; left|left; right|by right]; [|done].
      apply elem_of_app. by left.
  - intros b. rewrite <- Hp. unfold read_position. simpl bw_queue. simpl bw_buffers.
    rewrite last_with_app, last_with_singleton. case_decide as E; [discriminate E|].
    done.
Qed.
End in_flight.
