(* ===== verification/StoreRuns.v ===== *)
(** * Runs with the database

    Runs of the order processor, the position processor and the batch writer
    against the tables: every record of the processor is accounted for (pending
    or published, one per order), each change of a record is handed to the
    writer, and a stop leaves all of them in the tables (Shutdown puts this run
    into the end of the program).

    A flush of the batch writer, and one of an order, is one step here: the runs
    are those in which nothing else touches the buffers, or the order, during a
    flush.  WriterSteps and OrderProcessor take the two apart. *)

From Stdlib Require Import ZArith Lia.
From stdpp Require Import gmap strings list.
From S2P Require Import Prelude Float64 GoStrings Models ConcurrentMap GoCache Caches MarketCaches.
From S2P Require Import BatchWriter Messages OrderProcessor OrderRuns Dao Cleaner Persistence.
Local Open Scope Z_scope.

Section store.
Context `{TO : Table OrderAggregation} `{TP : Table HlPositionCache}.
Context `{MapRange} `{Cast} `{GS : GoCache string} `{DD : DedupCacheInterface}.

(** The processors share their batch writer, kept in the order processor. *)
Record Store := mkStore {
  st_processor : OrderProcessor;
  st_tables : Tables;
}.

(** A step of the writer, with the whole of a flush it makes.  The answers of the database do not change what a
    flush does next, so those of the tables before the step stand for all. *)
Definition writer_exec (f : (DaoCall -> error) -> BatchWriter -> BatchWriter * list Upsert)
    (s : Store) : Store :=
  let p := st_processor s in
  match op_batchWriter p with
  | None => s
  | Some w =>
      let '(w, log) := f (dao_answers (op_heap p) (st_tables s)) w in
      mkStore (with_batchWriter p (Some w))
        (fold_left (dao_upsert (op_heap p)) log (st_tables s))
  end.

(** A message of the position queue. *)
Definition position_exec (now : Z) (p : OrderProcessor) (msg : Message)
    : outcome OrderProcessor :=
  '(q, _) ← HandleMessage now (NewPositionProcessor (op_batchWriter p)) msg;
  Ret (with_batchWriter p (pp_batchWriter q)).

Inductive st_event : Type :=
| StOrder (e : op_event)
| StPosition (msg : Message)
| StReceive
| StTick.

Definition st_exec (now : Z) (s : Store) (e : st_event) : outcome Store :=
  match e with
  | StOrder e => p ← op_exec now (st_processor s) e; Ret (mkStore p (st_tables s))
  | StPosition msg =>
      p ← position_exec now (st_processor s) msg; Ret (mkStore p (st_tables s))
  | StReceive => Ret (writer_exec receive s)
  | StTick => Ret (writer_exec flushAll s)
  end.

Fixpoint st_run (s : Store) (evs : list (Z * st_event)) : outcome Store :=
  match evs with
  | [] => Ret s
  | (now, e) :: evs => s ← st_exec now s e; st_run s evs
  end.

(** [BatchWriter.Stop] at the end of the program. *)
Definition st_stop (n : nat) (s : Store) : Store :=
  writer_exec (fun dao => BatchWriter_Stop dao n) s.

(** No [Add] of the run meets a full queue. *)
Definition has_room (s : Store) : Prop :=
  match op_batchWriter (st_processor s) with Some w => room w | None => False end.

Fixpoint roomy (s : Store) (evs : list (Z * st_event)) : Prop :=
  match evs with
  | [] => True
  | (now, e) :: evs =>
      has_room s /\ match st_exec now s e with Ret s' => roomy s' evs | Panic => True end
  end.

(** The last snapshot the position processor was given for an address. *)
Definition snapshot_of (e : st_event) : option (string * HlPositionCache) :=
  match e with
  | StPosition (PositionUpdateMessage a (Boxed data)) => Some (a, pcd_Cache data)
  | _ => None
  end.

Definition snapshot_step (snapshots : string -> option HlPositionCache) (e : st_event)
    : string -> option HlPositionCache :=
  match snapshot_of e with
  | Some (a, c) => fun b => if decide (b = a) then Some c else snapshots b
  | None => snapshots
  end.

Definition last_snapshots (rows : list HlPositionCache) (evs : list (Z * st_event))
    : string -> option HlPositionCache :=
  fold_left (fun f e => snapshot_step f e.2) evs (row_at pc_Address rows).
End store.
Arguments Store {_ _ _ _}.

(** ** The records of the order processor *)
Section accounts.
Context `{MapRange} `{Cast} `{GS : GoCache string} `{DD : DedupCacheInterface}.
Context (watched : string -> Prop) (watched_wf : forall a, watched a -> address_wf a).
Implicit Types p : OrderProcessor.

Definition record_key (agg : OrderAggregation) : string :=
  orderKey (agg_Address agg) (agg_Oid agg) (agg_Direction agg).

Definition record_ok now p (l : loc) (agg : OrderAggregation) : Prop :=
  watched (agg_Address agg) /\ stamped agg /\ agg_UpdatedAt agg <= now /\
  ((agg_SignalSent agg = false /\ map_data (op_pendingOrders p) !! record_key agg = Some l) \/
   (agg_SignalSent agg = true /\ record_key agg ∈ (op_published p).*1)).

(** The signal of a record. *)
Definition signal_for (key : string) (signal : HlAddressSignal) (agg : OrderAggregation) : Prop :=
  key = record_key agg /\ agg_SignalSent agg = true /\ sig_Address signal = agg_Address agg /\
  (sig_Size signal, sig_Price signal) = (agg_TotalSize agg, agg_WeightedAvgPx agg).

Record accounts now p : Prop := {
  acc_heap : heap_ok (op_heap p);
  acc_record : forall l po, op_heap p !! l = Some po -> record_ok now p l (po_Aggregation po);
  acc_published : forall key signal, (key, signal) ∈ op_published p ->
    exists l po, op_heap p !! l = Some po /\ signal_for key signal (po_Aggregation po);
}.

(** A step that changes a record hands it to the writer, with its key. *)
Definition touches p p' : Prop :=
  (op_heap p' = op_heap p /\ op_batchWriter p' = op_batchWriter p) \/
  exists l po, op_heap p' = <[l := po]> (op_heap p) /\
    op_batchWriter p' = (fun w => (BatchWriter_Add w (order_item l po)).1) <$> op_batchWriter p /\
    forall po0, op_heap p !! l = Some po0 ->
      order_id (po_Aggregation po) = order_id (po_Aggregation po0).

Lemma accounts_ext now p p' :
  op_heap p' = op_heap p -> op_pendingOrders p' = op_pendingOrders p ->
  op_published p' = op_published p -> accounts now p -> accounts now p'.
Proof.
  intros Eh Ep Es [Hh Hr Hs]. constructor; rewrite ?Eh, ?Es; [done| |done].
  intros l po Hl. unfold record_ok. rewrite Ep, Es. by apply Hr.
Qed.

Lemma accounts_later now now' p : accounts now p -> now <= now' -> accounts now' p.
Proof.
  intros [Hh Hr Hs] Hle. constructor; [done| |done]. intros l po Hl.
  destruct (Hr l po Hl) as (? & ? & ? & ?). split_and!; [done..|lia|done].
Qed.

Lemma record_key_id agg1 agg2 :
  watched (agg_Address agg1) -> watched (agg_Address agg2) ->
  record_key agg1 = record_key agg2 <-> order_id agg1 = order_id agg2.
Proof.
  intros H1 H2. unfold record_key, order_id. split.
  - intros E. apply (orderKey_inj watched (fun a Ha => proj1 (watched_wf a Ha))) in E; [|done..]. congruence.
  - intros E. injection E as -> -> ->. done.
Qed.

(** A new record takes a key that no record has. *)
Lemma fresh_record t_end now p a o r :
  sent_ok watched t_end now p -> accounts now p -> watched a -> now <= t_end ->
  map_data (op_pendingOrders p) !! orderKey a o r = None ->
  (forall d, op_deduper p = Some d -> dd_IsSeen d now a o r = false) ->
  forall l po, op_heap p !! l = Some po -> record_key (po_Aggregation po) <> orderKey a o r.
Proof.
  intros (_ & d & Hd & _ & _ & Hsent) [_ Hr _] Ha Ht Hn Hun l po Hl E.
  destruct (Hr l po Hl) as (Hw & _ & _ & [[_ Hp]|[_ Hp]]); [congruence|].
  rewrite E in Hp. apply list_elem_of_fmap in Hp as ([k s] & Ek & Hp). simpl in Ek. subst k.
  destruct (Hsent _ _ Hp) as (_ & o' & r' & Ek & Hw' & Hseen).
  apply (orderKey_inj watched (fun a Ha => proj1 (watched_wf a Ha))) in Ek; [|done..]. injection Ek as Ea <- <-.
  rewrite <- Ea in Hseen. specialize (Hseen now ltac:(lia)). by rewrite (Hun d Hd) in Hseen.
Qed.

Lemma insert_record now p p' l po :
  accounts now p ->
  op_heap p' = <[l := po]> (op_heap p) -> op_published p' = op_published p ->
  (forall key, key <> record_key (po_Aggregation po) ->
     map_data (op_pendingOrders p') !! key = map_data (op_pendingOrders p) !! key) ->
  record_ok now p' l (po_Aggregation po) -> agg_SignalSent (po_Aggregation po) = false ->
  (forall l0 po0, op_heap p !! l0 = Some po0 ->
     (l0 = l /\ order_id (po_Aggregation po0) = order_id (po_Aggregation po) /\
      agg_SignalSent (po_Aggregation po0) = false) \/
     (l0 <> l /\ record_key (po_Aggregation po0) <> record_key (po_Aggregation po))) ->
  accounts now p'.
Proof.
  intros [Hh Hr Hs] Eh Ep Epend Hnew Hsent Hold. constructor.
  - rewrite Eh. constructor.
    + intros l1 po1 l2 po2 H1 H2 E. apply lookup_insert_Some in H1, H2.
      destruct H1 as [[<- <-]|[Hn1 H1]], H2 as [[<- <-]|[Hn2 H2]]; [done| | |by eapply Hh].
      * destruct (Hold l2 po2 H2) as [[? _]|[_ Hk]]; [done|]. destruct Hk. apply record_key_id;
          [apply (Hr l2 po2 H2)|apply Hnew|done].
      * destruct (Hold l1 po1 H1) as [[? _]|[_ Hk]]; [done|]. destruct Hk. apply record_key_id;
          [apply (Hr l1 po1 H1)|apply Hnew|done].
    + intros l1 po1 H1. apply lookup_insert_Some in H1 as [[<- <-]|[_ H1]];
        [apply watched_wf, Hnew|by eapply Hh].
  - intros l1 po1 H1. rewrite Eh in H1. apply lookup_insert_Some in H1 as [[<- <-]|[Hn H1]]; [done|].
    destruct (Hr l1 po1 H1) as (Hw & Hst & Ht & Hor). split_and!; [done..|]. rewrite Ep.
    destruct Hor as [[? Hp]|?]; [left; split; [done|]|by right].
    destruct (Hold l1 po1 H1) as [[? _]|[_ Hk]]; [by subst|]. by rewrite Epend.
  - intros key signal Hin. rewrite Ep in Hin. destruct (Hs key signal Hin) as (l1 & po1 & H1 & Hsig).
    exists l1, po1. split; [|done]. rewrite Eh, lookup_insert_ne; [done|].
    intros <-. destruct (Hold l po1 H1) as [(_ & _ & Hns)|[? _]]; [|done].
    destruct Hsig as (_ & Hss & _). congruence.
Qed.

(** ** The handlers *)

Lemma persistOrder_writer p l po :
  op_batchWriter (persistOrder p l (po_Aggregation po)) =
  (fun w => (BatchWriter_Add w (order_item l po)).1) <$> op_batchWriter p.
Proof. unfold persistOrder. by destruct (op_batchWriter p) eqn:E; simpl; rewrite ?E. Qed.

Lemma persistOrder_published p l agg :
  op_heap (persistOrder p l agg) = op_heap p /\
  op_pendingOrders (persistOrder p l agg) = op_pendingOrders p /\
  op_published (persistOrder p l agg) = op_published p.
Proof. unfold persistOrder. by destruct (op_batchWriter p). Qed.

Lemma triggerFlush_side p key trigger status :
  let p' := triggerFlush p key trigger status in
  op_heap p' = op_heap p /\ op_pendingOrders p' = op_pendingOrders p /\
  op_published p' = op_published p /\ op_batchWriter p' = op_batchWriter p.
Proof. unfold triggerFlush. by case_match. Qed.

Lemma record_fill_accounts t_end now p a fill dir symbol p1 l pending :
  op_ok watched p -> sent_ok watched t_end now p -> accounts now p -> watched a -> now <= t_end ->
  (forall d, op_deduper p = Some d -> dd_IsSeen d now a (fill_Oid fill) dir = false) ->
  record_fill p now (orderKey a (fill_Oid fill) dir) a fill dir symbol = Ret (Some (p1, l, pending)) ->
  accounts now p1 /\ op_batchWriter p1 = op_batchWriter p /\
  op_heap p1 = <[l := pending]> (op_heap p) /\
  (forall po0, op_heap p !! l = Some po0 ->
     order_id (po_Aggregation pending) = order_id (po_Aggregation po0)).
Proof.
  intros Hp Hs Hacc Ha Ht Hun. unfold record_fill, PendingOrderCache_Get, Map_Load.
  set (key := orderKey a (fill_Oid fill) dir).
  destruct (map_data (op_pendingOrders p) !! key) as [l0|] eqn:El.
  - destruct (op_ok_pending _ p Hp key l0 El) as (po & Eh & Ek & Hw & _ & Hsent).
    rewrite Eh, Hsent. destruct (Map_LoadOrStore _ _ _) as [tids [u []]]; [done|]. intros [= <- <- <-].
    assert (order_id (po_Aggregation (append_fill now po tids fill)) = order_id (po_Aggregation po) /\
      agg_SignalSent (po_Aggregation (append_fill now po tids fill)) = false /\
      agg_UpdatedAt (po_Aggregation (append_fill now po tids fill)) = now) as (Eid & Esent & Etime).
    { unfold append_fill. destruct (calculateWeightedAvg _). by split_and!. }
    pose proof (append_fill_stamped now po tids fill) as Hst.
    set (pending := append_fill now po tids fill) in *. clearbody pending.
    assert (record_key (po_Aggregation pending) = key) as Ekey.
    { rewrite Ek. unfold order_id in Eid. injection Eid as Eo Ead Ed.
      unfold record_key. by rewrite Eo, Ead, Ed. }
    split_and!; [|done..|].
    + apply (insert_record now p _ l0 pending); [done..| |done|].
      * unfold record_ok. unfold order_id in Eid. injection Eid as Eo Ead Ed. rewrite Ead.
        split_and!; [done..|lia|]. left. split; [done|]. by rewrite Ekey.
      * intros l1 po1 H1. destruct (decide (l1 = l0)) as [->|Hne]; [left|right; split; [done|]].
        -- rewrite Eh in H1. injection H1 as <-. by split_and!.
        -- rewrite Ekey. intros E. destruct (acc_record now p Hacc l1 po1 H1) as (Hw1 & _).
           apply Hne. eapply (acc_heap now p Hacc); [done..|]. apply record_key_id; [done..|].
           by rewrite E, Ek.
    + intros po0 Hl0. rewrite Eh in Hl0. by injection Hl0 as <-.
  - unfold Map_LoadOrStore. rewrite El. simpl. intros [= <- <- <-].
    pose proof (fresh_record t_end now p a _ _ Hs Hacc Ha Ht El Hun) as Hfresh.
    split_and!; [|done..|].
    + apply (insert_record now p _ (fresh (dom (op_heap p))) (new_pending now a fill dir symbol));
        [done..| | |done|].
      * intros key' Hne. simpl. by rewrite lookup_insert_ne.
      * split_and!; [done|apply new_pending_stamped|simpl; lia|]. left. split; [done|]. simpl.
        by rewrite lookup_insert_eq.
      * intros l1 po1 H1. right. split; [intros ->; by rewrite heap_fresh in H1|].
        exact (Hfresh l1 po1 H1).
    + intros po0 Hl0. by rewrite heap_fresh in Hl0.
Qed.

Lemma touches_same p p' :
  op_heap p' = op_heap p -> op_batchWriter p' = op_batchWriter p -> touches p p'.
Proof. by left. Qed.

Lemma handleOrderFill_accounts t_end now p a F dir p' err :
  op_ok watched p -> sent_ok watched t_end now p -> accounts now p -> watched a -> now <= t_end ->
  handleOrderFill now p a F dir = Ret (p', err) -> touches p p' /\ accounts now p'.
Proof.
  intros Hp Hs Hacc Ha Ht. unfold handleOrderFill.
  assert (touches p p /\ accounts now p) as Hsame by (split; [by left|done]).
  destruct F as [fill|]; [|by intros [= <- _]].
  destruct (match op_deduper p with Some _ => _ | None => _ end) eqn:Hseen; [by intros [= <- _]|].
  destruct (GetStatus _ _ _ _) as [st found].
  set (symbol := match convertSymbol _ _ _ with inl _ => _ | inr _ => _ end).
  destruct (record_fill p now _ a fill dir symbol) as [[[[p1 l] pending]|]|] eqn:Er;
    [|by intros [= <- _]|done].
  destruct (record_fill_accounts t_end now p a fill dir symbol p1 l pending)
    as (Hacc1 & Ew & Eh & Hid); [done..| |done|].
  { intros d Hd. by rewrite Hd in Hseen. }
  cbn [mbind outcome_bind].
  pose proof (persistOrder_published p1 l (po_Aggregation pending)) as (E1 & E2 & E3).
  pose proof (persistOrder_writer p1 l pending) as E4.
  set (p2 := persistOrder p1 l (po_Aggregation pending)) in *. clearbody p2.
  assert (forall p3, op_heap p3 = op_heap p2 -> op_pendingOrders p3 = op_pendingOrders p2 ->
    op_published p3 = op_published p2 -> op_batchWriter p3 = op_batchWriter p2 ->
    touches p p3 /\ accounts now p3) as Hdone.
  { intros p3 F1 F2 F3 F4. split.
    - right. exists l, pending. rewrite F1, E1, Eh, F4, E4, Ew. done.
    - apply (accounts_ext now p1); [congruence..|done]. }
  destruct (_ && _); intros [= <- _]; [|by apply Hdone].
  pose proof (triggerFlush_side p2 (orderKey a (fill_Oid fill) dir) "status" st)
    as (F1 & F2 & F3 & F4). by apply Hdone.
Qed.

Lemma UpdateStatus_writer now p a o s dir :
  op_batchWriter (UpdateStatus now p a o s dir) = op_batchWriter p.
Proof.
  assert (forall q d, op_batchWriter (update_direction a o s q d) = op_batchWriter q) as Hd.
  { intros q d. unfold update_direction. case_match; [|done].
    by destruct (triggerFlush_side q (orderKey a o d) "status" s) as (_ & _ & _ & <-). }
  unfold UpdateStatus. destruct (_ || _); [done|]. case_decide; [|by rewrite Hd].
  apply (fold_left_inv (fun q => op_batchWriter q = op_batchWriter p)); [done|].
  intros q d _ <-. apply Hd.
Qed.

Lemma scanTimeoutOrders_writer now p :
  op_batchWriter (scanTimeoutOrders now p) = op_batchWriter p.
Proof.
  unfold scanTimeoutOrders, Map_Range.
  apply (range_list_inv (fun q => op_batchWriter q = op_batchWriter p)); [done|].
  intros q key l Hq. simpl. case_match; [|done].
  by destruct (triggerFlush_side q key "timeout" "filled") as (_ & _ & _ & ->).
Qed.

Lemma core_accounts now p p' :
  op_core p' = op_core p -> op_batchWriter p' = op_batchWriter p -> accounts now p ->
  touches p p' /\ accounts now p'.
Proof.
  intros E Ew Hacc. injection E as E1 E2 _ _ _ _ E7. split; [by left|].
  by apply (accounts_ext now p).
Qed.

(** ** A flush *)

Lemma buildSignal_fields p agg s :
  buildSignal p agg = Ret (Some s) ->
  sig_Address s = agg_Address agg /\
  (sig_Size s, sig_Price s) = (agg_TotalSize agg, agg_WeightedAvgPx agg).
Proof.
  unfold buildSignal. destruct (agg_Fills agg); [done|].
  destruct (direction_table _) as [[[d side] asset]|]; [|done].
  destruct (calculateCloseRate _ _ _ _ _ _); [|done]. by intros [= <-].
Qed.

(** A record replaced by one of the same order. *)
Lemma heap_ok_replace h l po po' :
  heap_ok h -> h !! l = Some po ->
  order_id (po_Aggregation po') = order_id (po_Aggregation po) -> heap_ok (<[l := po']> h).
Proof.
  intros Hh El Eid. constructor.
  - intros l1 po1 l2 po2 H1 H2 E. apply lookup_insert_Some in H1, H2.
    destruct H1 as [[<- <-]|[_ H1]], H2 as [[<- <-]|[_ H2]]; [done| | |].
    + apply (heap_unique _ Hh _ _ _ _ El H2). congruence.
    + apply (heap_unique _ Hh _ _ _ _ H1 El). congruence.
    + exact (heap_unique _ Hh _ _ _ _ H1 H2 E).
  - intros l1 po1 H1. apply lookup_insert_Some in H1 as [[<- <-]|[_ H1]];
      [|exact (heap_address _ Hh _ _ H1)].
    unfold order_id in Eid. injection Eid as _ -> _. exact (heap_address _ Hh _ _ El).
Qed.

(** The records of other locations have other keys. *)
Lemma other_record_key now p l po l1 po1 key :
  accounts now p -> op_heap p !! l = Some po -> key = record_key (po_Aggregation po) ->
  watched (agg_Address (po_Aggregation po)) ->
  op_heap p !! l1 = Some po1 -> l1 <> l -> record_key (po_Aggregation po1) <> key.
Proof.
  intros Hacc Eh Ek Hw H1 Hne E. apply Hne. eapply (acc_heap now p Hacc); [done..|].
  apply record_key_id; [|done|by rewrite E, Ek]. apply (acc_record now p Hacc l1 po1 H1).
Qed.

Lemma flushOrder_accounts now publish p key trigger status p' :
  op_ok watched p -> accounts now p ->
  flushOrder now publish p key trigger status = Ret p' -> touches p p' /\ accounts now p'.
Proof.
  intros Hp Hacc. unfold flushOrder, flush_begin, PendingOrderCache_Get, Map_Load.
  assert (touches p p /\ accounts now p) as Hsame by (split; [by left|done]).
  destruct (map_data (op_pendingOrders p) !! key) as [l|] eqn:El; [|by intros [= <-]].
  destruct (op_ok_pending _ p Hp key l El) as (po & Eh & Ek & Hw & _ & Hsent). rewrite Eh, Hsent.
  destruct (buildSignal p (po_Aggregation po)) as [[signal|]|] eqn:Eb;
    cbn [mbind outcome_bind]; [|by intros [= <-]|done].
  apply buildSignal_fields in Eb as [Ead Esz]. destruct (publish signal); [by intros [= <-]|].
  unfold flush_commit. rewrite Eh. set (agg := mark_sent now status (po_Aggregation po)).
  set (po' := mkPendingOrder (Map_Clear (po_seenTids po)) agg (po_FirstFillTime po)).
  set (p0 := with_deduper _ _).
  pose proof (persistOrder_published p0 l agg) as (E1 & E2 & E3).
  pose proof (persistOrder_writer p0 l po') as E4. change (po_Aggregation po') with agg in E4.
  set (p1 := persistOrder p0 l agg) in *. clearbody p1. intros [= <-].
  unfold p0 in E1, E2, E3, E4. simpl in E1, E2, E3, E4.
  pose proof Hacc as [Hh Hr Hs]. destruct (Hr l po Eh) as (_ & Hst & Htime & _).
  split.
  { right. exists l, po'. simpl. rewrite E1, E4. split_and!; [done..|].
    intros po0 Hl0. rewrite Eh in Hl0. by injection Hl0 as <-. }
  assert (forall l1 po1, op_heap p !! l1 = Some po1 -> l1 <> l ->
    record_key (po_Aggregation po1) <> key) as Hother
    by (intros l1 po1 H1 Hne; by eapply (other_record_key now p l po)).
  constructor; simpl; rewrite ?E1, ?E2, ?E3.
  - by apply (heap_ok_replace _ l po po').
  - intros l1 po1 H1. apply lookup_insert_Some in H1 as [[<- <-]|[Hne H1]].
    + split_and!; [done|by apply mark_sent_stamped|simpl; lia|right]. split; [done|]. simpl.
      rewrite E3, fmap_app. apply elem_of_app. right. rewrite Ek. left.
    + destruct (Hr l1 po1 H1) as (? & ? & ? & Hor). split_and!; [done..|]. simpl.
      unfold PendingOrderCache_Delete. rewrite Map_data_Delete, ?E2, E3, fmap_app, elem_of_app.
      destruct Hor as [[? Hpe]|[? Hpu]]; [left|right; by split; [|left]]. split; [done|].
      rewrite lookup_delete_ne; [done|]. intros E. by apply (Hother l1 po1 H1).
  - intros k s Hin. apply elem_of_app in Hin as [Hin|Hin%list_elem_of_singleton].
    + destruct (Hs k s Hin) as (l1 & po1 & H1 & Hsig). exists l1, po1. split; [|done].
      rewrite lookup_insert_ne; [done|]. intros <-. rewrite Eh in H1. injection H1 as <-.
      destruct Hsig as (_ & Hss & _). congruence.
    + injection Hin as -> ->. exists l, po'. by rewrite lookup_insert_eq.
Qed.

Lemma op_exec_accounts t_end now p e p' :
  op_ok watched p -> sent_ok watched t_end now p -> accounts now p -> now <= t_end ->
  address_ok watched (now, e) -> op_exec now p e = Ret p' ->
  touches p p' /\ accounts now p'.
Proof.
  intros Hp Hs Hacc Ht Ha. destruct e as [msg|publish| |a st av b pos]; cbn [op_exec].
  - destruct msg as [a F dir|a o s dir|a D]; unfold HandleMessage;
      cbn [OrderProcessor_HandleMessage].
    + destruct (handleOrderFill now p a F dir) as [[p1 err]|] eqn:E; [|done].
      intros [= <-].
      by apply (handleOrderFill_accounts t_end now p a F dir p1 err Hp Hs Hacc Ha).
    + intros [= <-]. apply core_accounts; [apply UpdateStatus_core|apply UpdateStatus_writer|done].
    + intros [= <-]. by apply core_accounts.
  - unfold flushProcessor. destruct (op_flushChan p) as [|req rest].
    { intros [= <-]. by apply core_accounts. }
    set (p1 := with_flushChan p rest). intros E. change (touches p1 p' /\ accounts now p').
    apply flushOrder_accounts in E; [done|by apply (op_ok_core _ p)|by apply (accounts_ext now p)].
  - intros [= <-]. apply core_accounts; [apply scanTimeoutOrders_core|apply scanTimeoutOrders_writer|done].
  - intros [= <-]. split; [by left|]. by apply (accounts_ext now p).
Qed.
End accounts.

(** ** Runs *)
Section runs.
Context `{TO : Table OrderAggregation} `{TP : Table HlPositionCache}.
Context `{MapRange} `{Cast} `{GS : GoCache string} `{DD : DedupCacheInterface}.
Implicit Types (p : OrderProcessor) (s : Store).

Definition st_event_ok (e : st_event) : Prop :=
  match e with
  | StOrder e => address_ok address_wf (0, e)
  | StPosition (PositionUpdateMessage a (Boxed data)) => pc_Address (pcd_Cache data) = a
  | _ => True
  end.

Fixpoint st_clock (t_end now : Z) (evs : list (Z * st_event)) : Prop :=
  match evs with
  | [] => True
  | (t, _) :: evs => now <= t <= t_end /\ st_clock t_end t evs
  end.

Record st_ok t_end now (snapshots : string -> option HlPositionCache) s : Prop := {
  so_op : op_ok address_wf (st_processor s);
  so_sent : sent_ok address_wf t_end now (st_processor s);
  so_accounts : accounts address_wf now (st_processor s);
  so_writes : exists w, op_batchWriter (st_processor s) = Some w /\
    writes_ok (op_heap (st_processor s)) snapshots w (st_tables s);
}.

Lemma st_ok_later t_end now now' snapshots s :
  st_ok t_end now snapshots s -> now <= now' -> st_ok t_end now' snapshots s.
Proof.
  intros [H1 H2 H3 H4] Hle. constructor; [done| | |done].
  - by eapply sent_ok_later.
  - by eapply accounts_later.
Qed.

Lemma touches_writes p p' snapshots w t :
  op_batchWriter p = Some w -> room w -> writes_ok (op_heap p) snapshots w t -> touches p p' ->
  exists w', op_batchWriter p' = Some w' /\ writes_ok (op_heap p') snapshots w' t.
Proof.
  intros Hw Hroom Hok [[Eh Ew]|(l & po & Eh & Ew & Hid)]; rewrite Eh, Ew, Hw.
  - by exists w.
  - simpl. rewrite (Add_room w _ Hroom). simpl. eexists. split; [done|]. by apply add_order_ok.
Qed.

Lemma writer_exec_ok t_end now snapshots s f :
  (forall heap dao w t, heap_ok heap -> writes_ok heap snapshots w t ->
     let '(w', log) := f dao w in writes_ok heap snapshots w' (fold_left (dao_upsert heap) log t)) ->
  st_ok t_end now snapshots s -> st_ok t_end now snapshots (writer_exec f s).
Proof.
  intros Hf [H1 H2 H3 (w & Hw & H4)]. unfold writer_exec. rewrite Hw.
  specialize (Hf _ (dao_answers (op_heap (st_processor s)) (st_tables s)) w (st_tables s)
    (acc_heap _ _ _ H3) H4).
  destruct (f _ w) as [w' log]. constructor; simpl.
  - by apply (op_ok_core _ (st_processor s)).
  - exact H2.
  - by apply (accounts_ext _ now (st_processor s)).
  - by exists w'.
Qed.

Lemma st_exec_ok t_end now snapshots s e :
  accepting -> st_ok t_end now snapshots s -> now <= t_end -> st_event_ok e -> has_room s ->
  exists s', st_exec now s e = Ret s' /\ st_ok t_end now (snapshot_step snapshots e) s'.
Proof.
  intros Hacc Hs Ht He Hroom. destruct e as [e|msg| |]; cbn [st_exec].
  - destruct Hs as [H1 H2 H3 (w & Hw & H4)]. unfold has_room in Hroom. rewrite Hw in Hroom.
    destruct (op_exec_ok address_wf (fun a Ha => proj1 Ha) t_end now (st_processor s) e)
      as (p' & E & Hp & Hsent & _); [done..|].
    destruct (op_exec_accounts address_wf (fun a Ha => Ha) t_end now (st_processor s) e p')
      as [Htouch Ha]; [done..|].
    rewrite E. eexists. split; [reflexivity|]. constructor; simpl; [done..|].
    by eapply touches_writes.
  - destruct Hs as [H1 H2 H3 (w & Hw & H4)]. unfold has_room in Hroom. rewrite Hw in Hroom.
    unfold position_exec. rewrite Hw. unfold snapshot_step.
    assert (forall w', st_ok t_end now snapshots s ->
      writes_ok (op_heap (st_processor s)) (snapshot_step snapshots (StPosition msg)) w' (st_tables s) ->
      st_ok t_end now (snapshot_step snapshots (StPosition msg))
        (mkStore (with_batchWriter (st_processor s) (Some w')) (st_tables s))) as Hnew.
    { intros w' _ Hw'. constructor; simpl;
        [by apply (op_ok_core _ (st_processor s))|exact H2|
         by apply (accounts_ext _ now (st_processor s))|by exists w']. }
    assert (st_ok t_end now snapshots s) as Hs by (constructor; eauto).
    unfold snapshot_step in Hnew.
    destruct msg as [a F dir|a o st dir|a [data|]]; cbn [HandleMessage PositionProcessor_HandleMessage];
      try (eexists; split; [reflexivity|by apply Hnew]).
    unfold handlePositionUpdate. simpl pp_batchWriter. cbv iota.
    rewrite (Add_room w _ Hroom). eexists. split; [reflexivity|]. apply Hnew; [done|].
    simpl. by apply add_position_ok.
  - eexists. split; [reflexivity|]. apply writer_exec_ok; [|done].
    intros heap dao w t Hh Hw. by apply receive_writes_ok.
  - eexists. split; [reflexivity|]. apply writer_exec_ok; [|done].
    intros heap dao w t Hh Hw. by apply flush_writes_ok.
Qed.

Lemma st_run_ok t_end evs : forall now snapshots s,
  accepting -> st_ok t_end now snapshots s -> st_clock t_end now evs ->
  Forall (fun e => st_event_ok e.2) evs -> roomy s evs ->
  exists s' now', st_run s evs = Ret s' /\
    st_ok t_end now' (fold_left (fun f e => snapshot_step f e.2) evs snapshots) s'.
Proof.
  induction evs as [|[t e] evs IH]; intros now snapshots s Hacc Hs Hc He Hroom; simpl.
  { by exists s, now. }
  destruct Hc as [Ht Hc], Hroom as [Hr1 Hr2]. inversion He as [|? ? He1 He2]; subst.
  destruct (st_exec_ok t_end t snapshots s e) as (s1 & E & Hs1); [done| |lia|done|done|].
  { eapply st_ok_later; [done|lia]. }
  rewrite E in *. cbn [mbind outcome_bind]. by eapply IH.
Qed.

(** The start: an empty processor over tables of earlier lives. *)
Definition NewStore cfg (d : dd_t) sc bc pc (t : Tables) : Store :=
  mkStore (NewOrderProcessor (Some (NewBatchWriter cfg)) (Some d) sc bc pc) t.

Definition tables_ok (t : Tables) : Prop :=
  NoDup (map order_id (tb_rows (t_orders t))) /\
  forall r, r ∈ tb_rows (t_orders t) -> address_wf (agg_Address r).

Lemma NewStore_ok cfg d sc bc pc t t0 :
  (forall c, bc = Some c -> PositionBalanceCache_wf c) -> 0 < dd_window d -> tables_ok t ->
  st_ok (t0 + dd_window d) t0 (row_at pc_Address (tb_rows (t_positions t)))
    (NewStore cfg d sc bc pc t).
Proof.
  intros Hb Hw [Hnd Hwf]. constructor; simpl.
  - by apply op_ok_new.
  - split; [apply NoDup_nil_2|]. exists d. split_and!; [done..|lia|].
    intros key s Hk. by apply not_elem_of_nil in Hk.
  - constructor; simpl.
    + constructor; intros l1 po1; [intros l2 po2|]; by rewrite lookup_empty.
    + intros l po. by rewrite lookup_empty.
    + intros key s Hk. by apply not_elem_of_nil in Hk.
  - eexists. split; [done|]. constructor; simpl; [apply keyed_empty| | |done|done|done].
    + intros i [Hi|[k Hi]]; [by apply elem_of_nil in Hi|]. simpl in Hi. by rewrite lookup_empty in Hi.
    + intros l po. by rewrite lookup_empty.
Qed.

(** The stored version of a record: all of its columns but the creation time,
    which an older row of the order keeps. *)
Definition stored_record (rows : list OrderAggregation) (agg row : OrderAggregation) : Prop :=
  row_at order_id rows (order_id agg) = Some row /\ row ∈ rows /\
  (row = agg \/ row = assign_order row agg /\ order_id row = order_id agg).

Lemma holds_stored rows agg :
  holds_row order_id assign_order rows agg -> exists row, stored_record rows agg row.
Proof.
  intros (row & Hr & Ha). exists row. split_and!; [done|by apply row_at_key in Hr as [_ ?]|].
  destruct Ha as [->|(old & Ek & ->)]; [by left|by right].
Qed.

Lemma stored_signal rows key signal agg row :
  stored_record rows agg row -> signal_for key signal agg -> signal_for key signal row.
Proof.
  intros (_ & _ & [->|[E Eid]]) Hs; [done|]. unfold order_id in Eid. injection Eid as Eo Ea Ed.
  destruct Hs as (Ek & Hsent & Had & Hsz). rewrite E. unfold signal_for, record_key. simpl.
  rewrite Eo, Ea, Ed. done.
Qed.

Lemma st_stop_ok t_end now snapshots n s :
  accepting -> st_ok t_end now snapshots s ->
  let rows := tb_rows (t_orders (st_tables (st_stop n s))) in
  (forall l po, op_heap (st_processor s) !! l = Some po ->
     exists row, stored_record rows (po_Aggregation po) row) /\
  NoDup (map order_id rows) /\ (forall r, r ∈ rows -> address_wf (agg_Address r)) /\
  (forall a, row_at pc_Address (tb_rows (t_positions (st_tables (st_stop n s)))) a = snapshots a).
Proof.
  intros Hacc [_ _ H3 (w & Hw & H4)]. unfold st_stop, writer_exec. rewrite Hw.
  pose proof (stop_writes_ok (op_heap (st_processor s)) snapshots
    (dao_answers (op_heap (st_processor s)) (st_tables s)) n w (st_tables s) Hacc
    (acc_heap _ _ _ H3) H4) as Hs.
  destruct (BatchWriter_Stop _ n w) as [w' log]. destruct Hs as (Hok & Hq & Hb). simpl.
  destruct (stopped_rows _ _ _ _ Hok Hq Hb) as (Ho & Hp & Hr).
  split_and!; [|done|apply (wo_addresses _ _ _ _ Hok)|done].
  intros l po Hl. by apply holds_stored, (Ho l).
Qed.

(** What a stop leaves in the tables: every published order, marked as sent
    and with the size and price of its signal; every order still pending,
    unsent and with all its fills; the snapshots; one row per order. *)
Definition stored (p : OrderProcessor) (snapshots : string -> option HlPositionCache)
    (t : Tables) : Prop :=
  let rows := tb_rows (t_orders t) in
  (forall key signal, (key, signal) ∈ op_published p ->
     exists row, row ∈ rows /\ signal_for key signal row) /\
  (forall key l, map_data (op_pendingOrders p) !! key = Some l ->
     exists po row, op_heap p !! l = Some po /\ row ∈ rows /\ record_key row = key /\
       agg_SignalSent row = false /\ agg_Fills row = agg_Fills (po_Aggregation po)) /\
  (forall a, row_at pc_Address (tb_rows (t_positions t)) a = snapshots a) /\
  NoDup (map order_id rows).

Lemma st_stop_stored t_end now snapshots n s :
  accepting -> st_ok t_end now snapshots s ->
  stored (st_processor s) snapshots (st_tables (st_stop n s)).
Proof.
  intros Hacc Hs. destruct (st_stop_ok _ _ _ n s Hacc Hs) as (Hst & Hnd & _ & Hpos).
  destruct Hs as [Ho _ Ha _]. split_and!; [| |exact Hpos|exact Hnd].
  - intros key signal Hin. destruct (acc_published _ _ _ Ha key signal Hin) as (l & po & Hl & Hsig).
    destruct (Hst l po Hl) as (row & Hrow). exists row.
    split; [apply Hrow|by eapply stored_signal].
  - intros key l Hl. destruct (op_ok_pending _ _ Ho key l Hl) as (po & Hp & Ek & _ & _ & Hns).
    destruct (Hst l po Hp) as (row & _ & Hin & Hrow). exists po, row. split_and!; [done..| | |].
    + rewrite Ek. destruct Hrow as [->|[_ Eid]]; [done|]. unfold order_id in Eid.
      injection Eid as Eo Ea Ed. unfold record_key. by rewrite Eo, Ea, Ed.
    + by destruct Hrow as [->|[-> _]].
    + by destruct Hrow as [->|[-> _]].
Qed.
End runs.

(** C5. Once, across restarts: what a run published and [Stop] stored, a new
    life of the service does not take up again.  For a run within one
    deduplication window whose writer's queue is never full, whose database takes
    every upsert and whose addresses have no dash or colon, each flush of the order processor completed before the
    next begins and each flush of the writer completed before it receives again:
    if the new deduper keeps orders for at most two hours (the age at which the
    cleaner deletes them), whenever the cleaner ran in between, and if the query
    of the load succeeds, then the deduper loaded from the table sees every
    published order whose last fill lies in the window of the load, until the
    window ends. *)
Theorem restart_sees_published `{TO : Table OrderAggregation} `{TP : Table HlPositionCache}
    `{TS : Table DbAddressSignal} `{GC : GoCache Z}
    `{MapRange} `{Cast} `{GS : GoCache string} `{DD : DedupCacheInterface}
    cfg (d : dd_t) sc bc pc t t0 evs n signals ttl tc now t1 :
  let s0 := NewStore cfg d sc bc pc t in
  accepting -> (forall c, bc = Some c -> PositionBalanceCache_wf c) -> 0 < dd_window d ->
  tables_ok t -> st_clock (t0 + dd_window d) t0 evs -> Forall (fun e => st_event_ok e.2) evs ->
  roomy s0 evs -> 0 < ttl <= 2 * Hour -> tc <= now -> now <= t1 <= now + ttl ->
  exists s, st_run s0 evs = Ret s /\
    let rows := t_orders (st_tables (st_stop n s)) in
    let get := GetSentOrdersSince (db_aggregations (clean tc (mkDatabase rows signals))) in
    ((forall err, get (now - ttl) <> inr err) ->
     let '(d', err) := OrderDeduper_LoadFromDB (NewOrderDeduper ttl) now (DaoOrders get) in
     err = nil_error /\
     forall key signal, (key, signal) ∈ op_published (st_processor s) ->
       exists row, row ∈ tb_rows rows /\ signal_for key signal row /\
         (Unix (now - ttl) <= agg_LastFillTime row ->
          OrderDeduper_IsSeen d' t1 (agg_Address row) (agg_Oid row) (agg_Direction row) = true)).
Proof.
  intros s0 Hacc Hb Hw Ht Hc He Hr Httl Htc Ht1.
  destruct (st_run_ok (t0 + dd_window d) evs t0 _ s0 Hacc
    (NewStore_ok cfg d sc bc pc t t0 Hb Hw Ht) Hc He Hr) as (s & t2 & E & Hs).
  exists s. split; [exact E|]. intros rows get Hget.
  destruct (st_stop_ok _ _ _ n s Hacc Hs) as (Hst & _ & Hwf & _). destruct Hs as [_ _ Ha _].
  pose proof (restart_after_cleaning (mkDatabase rows signals) ttl tc now t1 Httl Htc Ht1
    (fun r Hin => proj1 (Hwf r Hin)) Hget) as Hrec. fold get in Hrec.
  destruct (OrderDeduper_LoadFromDB _ _ _) as [d' err]. destruct Hrec as [-> Hrec].
  split; [done|]. intros key signal Hin.
  destruct (acc_published _ _ _ Ha key signal Hin) as (l & po & Hl & Hsig).
  destruct (Hst l po Hl) as (row & Hrow). exists row.
  pose proof (stored_signal _ _ _ _ _ Hrow Hsig) as Hsr.
  split; [apply Hrow|]. split; [exact Hsr|]. intros Hlast.
  apply Hrec; [apply Hrow| |apply Hsr|exact Hlast].
  destruct (acc_record _ _ _ Ha l po Hl) as (_ & Hstamp & _).
  by destruct Hrow as (_ & _ & [->|[-> _]]).
Qed.

(** ** A run with its tables *)

#[local] Existing Instance listing_order.
#[local] Existing Instance reference_cast.
#[local] Existing Instance reference_go_cache.

Definition sample_snapshot (value : string) : HlPositionCache :=
  mkHlPositionCache "0xab" "[]" "0.000000" "[]" value "0" "0" "0" 1.

(** A row of another order, and an old snapshot. *)
Definition sample_tables : Tables :=
  mkTables (TO := reference_table) (TP := reference_table)
    (1, [mkOrderAggregation 41 "0xcd" "Open Long" "BTCUSDC" [] f0 f0 "filled" 1 true 0 Second])
    (1, [sample_snapshot "1"]).

Definition sample_store_run : list (Z * st_event) :=
  [(1 * Second, StOrder (OpMessage (sample_message 1 "1" "100")));
   (1 * Second, StPosition (PositionUpdateMessage "0xab"
                  (Boxed (mkPositionCacheData (sample_snapshot "2")))));
   (1 * Second, StReceive);
   (2 * Second, StOrder (OpMessage (sample_message 2 "1" "300")));
   (2 * Second, StTick);
   (3 * Second, StOrder (OpMessage (OrderUpdateMessage "0xab" 42 "filled" "Close Long")));
   (4 * Second, StOrder (OpFlush (fun _ => nil_error)));
   (5 * Second, StPosition (PositionUpdateMessage "0xab"
                  (Boxed (mkPositionCacheData (sample_snapshot "3")))));
   (6 * Second, StReceive)].

Definition sample_store : Store :=
  NewStore None sample_deduper sample_symbols (Some sample_balances) NewPairCategoryCache
    sample_tables.

Lemma reference_accepting :
  accepting (TO := reference_table) (TP := reference_table).
Proof. by split. Qed.

Lemma sample_tables_ok : tables_ok sample_tables.
Proof.
  split; [apply NoDup_singleton|]. by intros r ->%list_elem_of_singleton.
Qed.

Lemma sample_store_events : Forall (fun e => st_event_ok e.2) sample_store_run.
Proof. by repeat constructor. Qed.

Example sample_store_end :
  match st_run sample_store sample_store_run with
  | Ret s =>
      let t := st_tables (st_stop 1 s) in
      (op_published (st_processor s)).*1 = ["0xab-42-Close Long"] /\
      map agg_TotalSize (tb_rows (t_orders t)) = [f0; float64_of_Z 2] /\
      forallb (fun r => Unix (70 * Second - 30 * Minute) <=? agg_LastFillTime r)
        (tb_rows (t_orders t)) = true /\
      row_at pc_Address (tb_rows (t_positions t)) "0xab" = Some (sample_snapshot "3")
  | Panic => False
  end.
Proof. vm_compute. repeat split. Qed.

Lemma sample_store_roomy : roomy sample_store sample_store_run.
Proof. vm_compute. repeat split. Qed.

Lemma sample_store_clock : st_clock (0 + dd_window sample_deduper) 0 sample_store_run.
Proof. vm_compute. repeat split; discriminate. Qed.

(** The order is seen after a restart. *)
Lemma restart_sees_published_witness :
  exists s, st_run sample_store sample_store_run = Ret s /\
    let rows := t_orders (st_tables (st_stop 1 s)) in
    let get := GetSentOrdersSince (db_aggregations
                 (clean (60 * Second) (mkDatabase rows (3, [])))) in
    let '(d, _) := OrderDeduper_LoadFromDB (NewOrderDeduper (30 * Minute)) (70 * Second)
                     (DaoOrders get) in
    exists row, row ∈ tb_rows rows /\ record_key row = "0xab-42-Close Long" /\
      OrderDeduper_IsSeen d (80 * Second) (agg_Address row) (agg_Oid row) (agg_Direction row) = true.
Proof.
  destruct (restart_sees_published (TS := reference_table) None sample_deduper sample_symbols
    (Some sample_balances) NewPairCategoryCache sample_tables 0 sample_store_run 1 (3, [])
    (30 * Minute) (60 * Second) (70 * Second) (80 * Second) reference_accepting
    sample_balances_wf eq_refl sample_tables_ok sample_store_clock sample_store_events
    sample_store_roomy) as (s & E & Hs).
  - vm_compute. split; [reflexivity|discriminate].
  - vm_compute. discriminate.
  - vm_compute. split; discriminate.
  - pose proof sample_store_end as Hend. fold sample_store in E. rewrite E in Hend.
    destruct Hend as (Hpub & _ & Hlast & _). exists s. split; [exact E|]. cbv zeta in Hs |- *.
    specialize (Hs ltac:(intros err; discriminate)).
    destruct (OrderDeduper_LoadFromDB _ _ _) as [d' err]. destruct Hs as [_ Hs].
    destruct (op_published (st_processor s)) as [|[key signal] published]; [discriminate Hpub|].
    injection Hpub as Hk _.
    destruct (Hs key signal ltac:(left)) as (row & Hin & (Hrk & _) & Hseen).
    exists row. split; [exact Hin|]. split; [rewrite <- Hrk; exact Hk|]. apply Hseen.
    rewrite forallb_forall in Hlast. apply Z.leb_le, Hlast, list_elem_of_In, Hin.
Defined.
