(* ===== verification/Shutdown.v ===== *)
(** * The end of the program

    The closing of the managers and processors, the signal handler of
    cmd/hl_monitor/main.go with pkg/sigproc/graceful.go, and the run of the
    service around it: the goroutines that go on, the tasks of the order
    processor, the main goroutine that returns and the timer that exits. *)

From Stdlib Require Import ZArith Lia.
From stdpp Require Import gmap strings list.
From S2P Require Import Prelude Float64 GoStrings Models ConcurrentMap GoCache Caches MarketCaches.
From S2P Require Import BatchWriter Messages OrderProcessor OrderRuns WsPool SubscriptionManager.
From S2P Require Import SdkTypes PositionManager Dao Cleaner Persistence StoreRuns.
Local Open Scope Z_scope.

(** ** Closing a component *)
Section closing.
Context `{MapRange} `{Cast} `{GS : GoCache string} `{DD : DedupCacheInterface}
  `{SP : SubscriptionPool ManagerCallback}.

(** [OrderProcessor.Stop]: its goroutines end; the requests of the channel are
    submitted to the pool of workers, which [Release] does not wait for.  The
    requests are the tasks left to run. *)
Definition OrderProcessor_Stop (p : OrderProcessor) : OrderProcessor * list flushKey :=
  (with_flushChan p [], op_flushChan p).

(** [SubscriptionManager.Close]: the worker may take [n] more messages. *)
Definition SubscriptionManager_Close (now : Z) (n : nat) (m : SubscriptionManager)
    : outcome (SubscriptionManager * list flushKey) :=
  q ← MessageQueue_Stop now n (sm_messageQueue m);
  let '(p, tasks) := OrderProcessor_Stop (mq_handler q) in
  m ← cancel_all (with_queue m (SetHandler q p));
  Ret (m, tasks).

Definition pom_cancel_all (m : PositionManager) : outcome PositionManager :=
  match pom_poolManager m with
  | None => Ret (pom_with_subs m None (pom_addresses m) ∅)
  | Some pool =>
      pool ← fold_left (fun o kh => pool ← o; pool_Unsubscribe pool (kh.2))
               (go_range (pom_subs m)) (Ret pool);
      Ret (pom_with_subs m (Some pool) (pom_addresses m) ∅)
  end.

Definition PositionManager_Close (now : Z) (n : nat) (m : PositionManager)
    : outcome PositionManager :=
  q ← MessageQueue_Stop now n (pom_messageQueue m);
  pom_cancel_all (pom_with_balances m (pom_positionBalanceCache m) q).

(** *** No callback of a closed manager is left *)

Lemma unsubscribe_handles (handles : list (string * pool_handle ManagerCallback)) : forall pool,
  pool_wf pool ->
  returns (fold_left (fun o kh => pool ← o; pool_Unsubscribe pool (kh.2)) handles (Ret pool))
    (fun pool' => pool_wf pool' /\
       (forall key, key ∈ map (fun kh => pool_handle_key kh.2) handles ->
          pool_callbacks pool' key = []) /\
       (forall key, key ∉ map (fun kh => pool_handle_key kh.2) handles ->
          pool_callbacks pool' key ≡ₚ pool_callbacks pool key)).
Proof.
  induction handles as [|[k h] handles IH]; intros pool Hp; cbn [fold_left].
  { apply returns_ret. split; [done|]. split; [by intros ? ?%not_elem_of_nil|done]. }
  destruct (pool_Unsubscribe_spec pool h Hp) as (pool1 & E & Hp1 & Hnone & Hother).
  cbn [mbind outcome_bind snd]. rewrite E.
  eapply returns_mono; [by apply IH|]. intros pool' (Hp' & Hin & Hout).
  split; [done|]. cbn [map snd]. split.
  - intros key Hk. destruct (decide (key ∈ map (fun kh => pool_handle_key kh.2) handles)) as [?|Hn];
      [by apply Hin|].
    apply elem_of_cons in Hk as [->|?]; [|done]. specialize (Hout _ Hn).
    rewrite Hnone in Hout. by apply Permutation_nil_r in Hout.
  - intros key [Hk Hn]%not_elem_of_cons. rewrite Hout by done. by apply Hother.
Qed.

(** After its manager is closed no message of the pool reaches a callback of
    one of its handles; the other subscriptions stay. *)
Lemma cancel_all_unsubscribes m pool :
  sm_poolManager m = Some pool -> pool_wf pool ->
  returns (cancel_all m) (fun m' => exists pool',
    sm_poolManager m' = Some pool' /\ sm_subs m' = ∅ /\ pool_wf pool' /\
    (forall name h, sm_subs m !! name = Some h -> pool_callbacks pool' (pool_handle_key h) = []) /\
    (forall key, (forall name h, sm_subs m !! name = Some h -> pool_handle_key h <> key) ->
       pool_callbacks pool' key ≡ₚ pool_callbacks pool key)).
Proof.
  intros Hpool Hp. unfold cancel_all. rewrite Hpool.
  eapply returns_bind; [by apply unsubscribe_handles|]. intros pool' (Hp' & Hin & Hout).
  apply returns_ret. exists pool'. split_and!; [done..| |].
  - intros name h Hh. apply Hin. apply list_elem_of_In, in_map_iff. exists (name, h).
    split; [done|]. by apply list_elem_of_In, elem_of_go_range.
  - intros key Hk. apply Hout. intros Hkey%list_elem_of_In%in_map_iff.
    destruct Hkey as ([name h] & E & Hin'%list_elem_of_In%elem_of_go_range). by apply (Hk name h).
Qed.
End closing.

(** ** The shutdown *)
Section shutdown.
Context `{TO : Table OrderAggregation} `{TP : Table HlPositionCache}.
Context `{MapRange} `{Cast} `{GS : GoCache string} `{DD : DedupCacheInterface}.

(** What the handler of the signal does, in its order. *)
Inductive shutdown_action : Type :=
| StopCleaner | CancelContext | StopLoader | CloseSubs | ClosePositions | ClosePool
| StopHealth | StopConfig | StopWriter | CloseMySQL.

#[export] Instance shutdown_action_eq_dec : EqDecision shutdown_action.
Proof. solve_decision. Defined.

Definition shutdown_handler : list shutdown_action :=
  [StopCleaner; CancelContext; StopLoader; CloseSubs; ClosePositions; ClosePool; StopHealth;
   StopConfig; StopWriter; CloseMySQL].

(** The running program: the tasks submitted to the order processor's workers,
    the time of the signal, what the handler has left to do. *)
Record Program := mkProgram {
  pr_store : Store;
  pr_tasks : list flushKey;
  pr_signal : option Z;
  pr_todo : list shutdown_action;
  pr_cancelled : bool;
  pr_exited : bool;
}.

Definition start_program (s : Store) : Program := mkProgram s [] None shutdown_handler false false.

Definition with_store (r : Program) (s : Store) (tasks : list flushKey) : Program :=
  mkProgram s tasks (pr_signal r) (pr_todo r) (pr_cancelled r) (pr_exited r).

(** The effect of an action on what the others see; the parts of the program
    that are not in this state are closed by their own functions. *)
Definition action_effect (n : nat) (a : shutdown_action) (r : Program) : Program :=
  match a with
  | CancelContext =>
      mkProgram (pr_store r) (pr_tasks r) (pr_signal r) (pr_todo r) true (pr_exited r)
  | CloseSubs =>
      let '(p, tasks) := OrderProcessor_Stop (st_processor (pr_store r)) in
      with_store r (mkStore p (st_tables (pr_store r))) (pr_tasks r ++ tasks)
  | StopWriter => with_store r (st_stop n (pr_store r)) (pr_tasks r)
  | _ => r
  end.

(** The component whose closing ends the goroutine of a step. *)
Definition ended_by (e : st_event) : shutdown_action :=
  match e with
  | StOrder _ => CloseSubs
  | StPosition _ => ClosePositions
  | StReceive | StTick => StopWriter
  end.

Inductive pr_event : Type :=
| PrStep (e : st_event)                                   (* a goroutine of the service *)
| PrTask (i : nat) (publish : HlAddressSignal -> error)   (* a worker runs the i-th task *)
| PrSignal
| PrAction (n : nat)
| PrReturn                                                (* main returns *)
| PrTimer.                                                (* os.Exit after 30 s *)

Definition pr_exec (now : Z) (r : Program) (e : pr_event) : outcome Program :=
  if pr_exited r then Ret r else
  match e with
  | PrStep e =>
      if decide (ended_by e ∈ pr_todo r)
      then s ← st_exec now (pr_store r) e; Ret (with_store r s (pr_tasks r))
      else Ret r
  | PrTask i publish =>
      match pr_tasks r !! i with
      | None => Ret r
      | Some req =>
          p ← flushOrder now publish (st_processor (pr_store r)) (fk_key req) (fk_trigger req)
                (fk_status req);
          Ret (with_store r (mkStore p (st_tables (pr_store r))) (delete i (pr_tasks r)))
      end
  | PrSignal =>
      match pr_signal r with
      | Some _ => Ret r
      | None => Ret (mkProgram (pr_store r) (pr_tasks r) (Some now) (pr_todo r) (pr_cancelled r) false)
      end
  | PrAction n =>
      match pr_signal r, pr_todo r with
      | Some _, a :: todo =>
          Ret (action_effect n a (mkProgram (pr_store r) (pr_tasks r) (pr_signal r) todo
                                    (pr_cancelled r) false))
      | _, _ => Ret r
      end
  | PrReturn =>
      Ret (mkProgram (pr_store r) (pr_tasks r) (pr_signal r) (pr_todo r) (pr_cancelled r)
             (pr_cancelled r))
  | PrTimer =>
      match pr_signal r with
      | Some t => Ret (mkProgram (pr_store r) (pr_tasks r) (pr_signal r) (pr_todo r)
                         (pr_cancelled r) (t + 30 * Second <=? now))
      | None => Ret r
      end
  end.

Fixpoint pr_run (r : Program) (evs : list (Z * pr_event)) : outcome Program :=
  match evs with
  | [] => Ret r
  | (now, e) :: evs => r ← pr_exec now r e; pr_run r evs
  end.

(** What the end of the program needs: the process does not end before the
    handler has finished, and the writer is stopped after the last task. *)
Definition orderly (r : Program) (e : pr_event) : Prop :=
  match e with
  | PrStep e => st_event_ok e /\ has_room (pr_store r)
  | PrTask _ _ => has_room (pr_store r)
  | PrAction _ => head (pr_todo r) = Some StopWriter -> pr_tasks r = []
  | PrReturn | PrTimer => pr_todo r = []
  | PrSignal => True
  end.

Fixpoint orderly_run (t_end now : Z) (r : Program) (evs : list (Z * pr_event)) : Prop :=
  match evs with
  | [] => True
  | (t, e) :: evs =>
      now <= t <= t_end /\ orderly r e /\
      match pr_exec t r e with Ret r' => orderly_run t_end t r' evs | Panic => True end
  end.

(** The snapshots given to the position processor while it runs. *)
Fixpoint program_snapshots (snapshots : string -> option HlPositionCache) (r : Program)
    (evs : list (Z * pr_event)) : string -> option HlPositionCache :=
  match evs with
  | [] => snapshots
  | (t, e) :: evs =>
      let snapshots' :=
        match e with
        | PrStep e => if decide (ended_by e ∈ pr_todo r /\ pr_exited r = false)
                      then snapshot_step snapshots e else snapshots
        | _ => snapshots
        end in
      match pr_exec t r e with Ret r' => program_snapshots snapshots' r' evs | Panic => snapshots' end
  end.
End shutdown.
Arguments Program {_ _ _ _}.

(** ** An orderly end *)
Section orderly.
Context `{TO : Table OrderAggregation} `{TP : Table HlPositionCache}.
Context `{MapRange} `{Cast} `{GS : GoCache string} `{DD : DedupCacheInterface}.
Implicit Types (p : OrderProcessor) (s : Store) (r : Program).

(** The processor has no request waiting. *)
Definition no_request s : Prop := op_flushChan (st_processor s) = [].

Record program_ok t_end now (snapshots : string -> option HlPositionCache) r : Prop := {
  pg_todo : exists k, (k <= 10)%nat /\ pr_todo r = drop k shutdown_handler;
  pg_running : StopWriter ∈ pr_todo r -> st_ok t_end now snapshots (pr_store r);
  pg_stored : StopWriter ∉ pr_todo r ->
    stored (st_processor (pr_store r)) snapshots (st_tables (pr_store r)) /\ pr_tasks r = [];
  pg_tasks : pr_tasks r <> [] -> no_request (pr_store r) /\ CloseSubs ∉ pr_todo r;
}.

(** One case per place the handler can be at. *)
Ltac handler_cases :=
  repeat match goal with
  | Hk : (?k <= _)%nat |- _ =>
      is_var k; destruct k as [|?]; [|first [exfalso; lia | apply le_S_n in Hk]]
  end.

(** While a goroutine of the service runs, so does the writer. *)
Lemma running_writer r e t_end now snapshots :
  program_ok t_end now snapshots r -> ended_by e ∈ pr_todo r -> StopWriter ∈ pr_todo r.
Proof.
  intros [(k & Hk & ->) _ _ _] He. revert He.
  apply (bool_decide_unpack (ended_by e ∈ drop k shutdown_handler -> StopWriter ∈ drop k shutdown_handler)).
  handler_cases; destruct e; vm_compute; reflexivity.
Qed.

Lemma st_ok_core t_end now snapshots s p :
  op_core p = op_core (st_processor s) -> op_batchWriter p = op_batchWriter (st_processor s) ->
  st_ok t_end now snapshots s -> st_ok t_end now snapshots (mkStore p (st_tables s)).
Proof.
  intros E Ew [H1 H2 H3 (w & Hw & H4)]. pose proof E as E'. injection E' as E1 E2 E3 _ _ _ E7.
  constructor; simpl.
  - by apply (op_ok_core _ (st_processor s)).
  - unfold sent_ok. by rewrite E1, E3, E7.
  - by apply (accounts_ext _ now (st_processor s)).
  - exists w. by rewrite Ew, E2.
Qed.

(** A worker runs a flush. *)
Lemma task_ok t_end now snapshots s req publish :
  st_ok t_end now snapshots s -> now <= t_end -> has_room s -> no_request s ->
  exists p, flushOrder now publish (st_processor s) (fk_key req) (fk_trigger req) (fk_status req) = Ret p /\
    st_ok t_end now snapshots (mkStore p (st_tables s)) /\ op_flushChan p = [].
Proof.
  intros [H1 H2 H3 (w & Hw & H4)] Ht Hroom Hn. unfold has_room in Hroom. rewrite Hw in Hroom.
  set (p1 := with_flushChan (st_processor s) [req]).
  destruct (op_exec_ok address_wf (fun a Ha => proj1 Ha) t_end now p1 (OpFlush publish))
    as (p' & E & Hp & Hsent & _); [by apply (op_ok_core _ (st_processor s))|exact H2|done|done|].
  assert (op_exec now p1 (OpFlush publish) =
    flushOrder now publish (st_processor s) (fk_key req) (fk_trigger req) (fk_status req)) as Ef.
  { unfold no_request in Hn. simpl. unfold flushProcessor. simpl. f_equal.
    destruct (st_processor s). simpl in *. by subst. }
  rewrite Ef in E.
  destruct (flushOrder_accounts address_wf (fun a Ha => Ha) now publish (st_processor s) _ _ _ _ H1 H3 E)
    as [Htouch Ha].
  exists p'. split; [done|]. split.
  - constructor; simpl; [done..|]. by eapply touches_writes.
  - unfold flushOrder in E. destruct (flush_begin _ _) as [[[l signal]|]|]; [|by injection E as <-|done].
    cbn [mbind outcome_bind] in E. destruct (publish signal); [by injection E as <-|].
    unfold flush_commit in E. destruct (op_heap _ !! l); [|done]. injection E as <-. simpl.
    unfold persistOrder. by destruct (op_batchWriter _).
Qed.

(** The steps that are not the order processor's leave its channel. *)
Lemma st_exec_request now s e s' : st_exec now s e = Ret s' ->
  ended_by e <> CloseSubs -> no_request s -> no_request s'.
Proof.
  unfold no_request. destruct e as [e|msg| |]; intros E He Hn; [done|..]; cbn [st_exec] in E.
  - unfold position_exec in E. destruct (HandleMessage _ _ _) as [[q err]|]; [|done].
    by injection E as <-.
  - injection E as <-. unfold writer_exec. destruct (op_batchWriter _); [|done].
    by destruct (receive _ _).
  - injection E as <-. unfold writer_exec. destruct (op_batchWriter _); [|done].
    by destruct (flushAll _ _).
Qed.

Lemma stop_processor n s : op_core (st_processor (st_stop n s)) = op_core (st_processor s).
Proof.
  unfold st_stop, writer_exec. destruct (op_batchWriter _) as [w|]; [|done].
  by destruct (BatchWriter_Stop _ n w).
Qed.

Lemma stored_core p p' snapshots t :
  op_core p' = op_core p -> stored p snapshots t -> stored p' snapshots t.
Proof.
  intros E. injection E as E1 E2 _ _ _ _ E7. unfold stored. by rewrite E1, E2, E7.
Qed.

Lemma action_ok t_end now snapshots r n a todo :
  accepting -> program_ok t_end now snapshots r -> pr_todo r = a :: todo ->
  (a = StopWriter -> pr_tasks r = []) ->
  program_ok t_end now snapshots
    (action_effect n a (mkProgram (pr_store r) (pr_tasks r) (pr_signal r) todo (pr_cancelled r) false)).
Proof.
  intros Hacc [(k & Hk & Htodo) Hrun Hst Htasks] Ea Hlast. rewrite Htodo in *.
  assert (Hk' : (S k <= 10)%nat /\ todo = drop (S k) shutdown_handler /\
    shutdown_handler !! k = Some a).
  { revert Ea. handler_cases; intros Ea; vm_compute in Ea;
      first [discriminate Ea | injection Ea as <- <-; split_and!; [lia|reflexivity..]]. }
  destruct Hk' as (Hk1 & -> & Ha).
  assert (Hnext : forall s tasks, (a <> StopWriter -> StopWriter ∈ drop (S k) shutdown_handler ->
      st_ok t_end now snapshots s) ->
    (StopWriter ∉ drop (S k) shutdown_handler -> stored (st_processor s) snapshots (st_tables s) /\ tasks = []) ->
    (tasks <> [] -> no_request s /\ CloseSubs ∉ drop (S k) shutdown_handler) ->
    forall c, program_ok t_end now snapshots
      (mkProgram s tasks (pr_signal r) (drop (S k) shutdown_handler) c false)).
  { intros s tasks H1 H2 H3 c. constructor; simpl; [by exists (S k)| |done..].
    intros Hin. apply H1; [|done]. intros ->. revert Hin.
    apply (bool_decide_unpack (StopWriter ∉ drop (S k) shutdown_handler)).
    clear -Ha Hk. handler_cases; vm_compute in Ha; first [discriminate Ha | vm_compute; reflexivity]. }
  assert (Hsame : a <> StopWriter -> a <> CloseSubs -> forall c, program_ok t_end now snapshots
      (mkProgram (pr_store r) (pr_tasks r) (pr_signal r) (drop (S k) shutdown_handler) c false)).
  { intros Hn1 Hn2 c. apply Hnext.
    - intros _ Hin. apply Hrun. rewrite Ea. by right.
    - intros Hni. apply Hst. rewrite Ea. intros [|]%elem_of_cons; [by subst|done].
    - intros Hne. destruct (Htasks Hne) as [? Hni]. split; [done|]. intros Hin. apply Hni.
      rewrite Ea. by right. }
  destruct a; simpl; try (by apply Hsame).
  - assert (pr_tasks r = []) as Et.
    { destruct (pr_tasks r); [done|]. destruct (Htasks ltac:(done)) as [_ []]. rewrite Ea. by left. }
    assert (StopWriter ∈ drop k shutdown_handler /\ StopWriter ∈ drop (S k) shutdown_handler /\
      CloseSubs ∉ drop (S k) shutdown_handler) as (Hin0 & Hin & Hni).
    { clear -Ha Hk. handler_cases; vm_compute in Ha; try discriminate Ha.
      split_and!; apply (bool_decide_unpack _); vm_compute; reflexivity. }
    rewrite Et. apply Hnext.
    + intros _ _. by apply st_ok_core, Hrun.
    + done.
    + intros _. done.
  - rewrite (Hlast eq_refl). apply Hnext; [done| |done]. intros _. split; [|done].
    eapply stored_core; [apply stop_processor|]. eapply st_stop_stored; [done|].
    apply Hrun. rewrite Ea. by left.
Qed.

Lemma pr_exec_ok t_end now snapshots r e :
  accepting -> program_ok t_end now snapshots r -> now <= t_end -> orderly r e ->
  exists r', pr_exec now r e = Ret r' /\
    program_ok t_end now
      match e with
      | PrStep e => if decide (ended_by e ∈ pr_todo r /\ pr_exited r = false)
                    then snapshot_step snapshots e else snapshots
      | _ => snapshots
      end r'.
Proof.
  intros Hacc Hr Ht Ho. unfold pr_exec. destruct (pr_exited r) eqn:Ex.
  { exists r. split; [done|]. destruct e; try done. rewrite decide_False; [done|]. by intros [_ ?]. }
  assert (Hsame : forall t c x, program_ok t_end now snapshots
    (mkProgram (pr_store r) (pr_tasks r) t (pr_todo r) c x)) by (intros; by destruct Hr; constructor).
  destruct e as [e|i publish| |n| |].
  - destruct Ho as [He Hroom]. destruct (decide (ended_by e ∈ pr_todo r)) as [Hin|Hni].
    2:{ exists r. split; [done|]. rewrite decide_False; [done|]. by intros [? _]. }
    rewrite decide_True by done. pose proof (running_writer r e t_end now snapshots Hr Hin) as Hw.
    destruct (st_exec_ok t_end now snapshots (pr_store r) e Hacc (pg_running _ _ _ _ Hr Hw) Ht He Hroom)
      as (s' & E & Hs').
    rewrite E. eexists. split; [reflexivity|]. constructor; simpl; [apply Hr|done|done|].
    intros Hne. destruct (pg_tasks _ _ _ _ Hr Hne) as [Hn Hc]. split; [|done].
    eapply st_exec_request; [done| |done]. congruence.
  - destruct (pr_tasks r !! i) as [req|] eqn:Ei; [|by exists r].
    assert (Hne : pr_tasks r <> []) by (intros E; by rewrite E in Ei).
    assert (Hw : StopWriter ∈ pr_todo r).
    { destruct (decide (StopWriter ∈ pr_todo r)); [done|]. by destruct (pg_stored _ _ _ _ Hr). }
    destruct (pg_tasks _ _ _ _ Hr Hne) as [Hn Hc].
    destruct (task_ok t_end now snapshots (pr_store r) req publish (pg_running _ _ _ _ Hr Hw) Ht Ho Hn)
      as (p & E & Hs & Hp).
    rewrite E. eexists. split; [reflexivity|]. by constructor; simpl; [apply Hr|done..|].
  - destruct (pr_signal r) eqn:Es; [by exists r|]. by eexists.
  - destruct (pr_signal r) eqn:Es; [|by exists r]. destruct (pr_todo r) as [|a todo] eqn:Ea; [by exists r|].
    eexists. split; [reflexivity|]. rewrite <- Es. apply action_ok; [done..|].
    intros ->. apply Ho. by rewrite Ea.
  - by eexists.
  - destruct (pr_signal r) eqn:Es; [|by exists r]. by eexists.
Qed.

Lemma program_ok_later t_end now now' snapshots r :
  program_ok t_end now snapshots r -> now <= now' -> program_ok t_end now' snapshots r.
Proof.
  intros [H1 H2 H3 H4] Hle. constructor; [done| |done..]. intros Hin. by eapply st_ok_later; [apply H2|].
Qed.

Lemma pr_run_ok t_end evs : forall now snapshots r,
  accepting -> program_ok t_end now snapshots r -> orderly_run t_end now r evs ->
  exists r' now', pr_run r evs = Ret r' /\
    program_ok t_end now' (program_snapshots snapshots r evs) r'.
Proof.
  induction evs as [|[t e] evs IH]; intros now snapshots r Hacc Hr Ho; cbn [pr_run program_snapshots].
  { by exists r, now. }
  destruct Ho as (Ht & Ho & Hevs).
  destruct (pr_exec_ok t_end t snapshots r e Hacc) as (r1 & E & Hr1);
    [eapply program_ok_later; [done|lia]|lia|done|].
  rewrite E in *. cbn [mbind outcome_bind]. by eapply IH.
Qed.
End orderly.

(** C4. From the handlers to the tables, through the end of the program.  The
    events are fills, statuses, flushes, scans, snapshots, receipts and ticks of
    the batch writer and the steps of the shutdown, in whatever order, within
    one deduplication window; each completes before the next begins, so a flush
    of the writer (collect, upsert, delete) receives no item in between (one
    received then can be deleted unwritten, flush_loses_concurrent_update) and
    the flushes of one order do not overlap.  Against a database that takes
    every upsert, with a queue that is never full and addresses without dash or
    colon, from tables with one row per key: if the process does not end before
    the signal handler and the last flush does not come after the writer is
    stopped, the tables hold in the end every published order, marked as sent and
    with the size and price of its signal; every order still pending, unsent and
    with all its fills; for every address its last snapshot, or the row it had;
    and one row per order. *)
Theorem shutdown_stores `{TO : Table OrderAggregation} `{TP : Table HlPositionCache}
    `{MapRange} `{Cast} `{GS : GoCache string} `{DD : DedupCacheInterface}
    cfg (d : dd_t) sc bc pc t t0 evs :
  let r0 := start_program (NewStore cfg d sc bc pc t) in
  accepting -> (forall c, bc = Some c -> PositionBalanceCache_wf c) -> 0 < dd_window d ->
  tables_ok t -> orderly_run (t0 + dd_window d) t0 r0 evs ->
  exists r, pr_run r0 evs = Ret r /\
    (pr_todo r = [] ->
     stored (st_processor (pr_store r))
       (program_snapshots (row_at pc_Address (tb_rows (t_positions t))) r0 evs)
       (st_tables (pr_store r))).
Proof.
  intros r0 Hacc Hb Hw Ht Ho.
  destruct (pr_run_ok (t0 + dd_window d) evs t0 (row_at pc_Address (tb_rows (t_positions t))) r0)
    as (r & now & E & Hr); [done| |done|].
  - constructor; simpl; [by exists 0%nat; split; [lia|]|..|done].
    + intros _. by apply NewStore_ok.
    + intros Hn. destruct Hn. by apply (bool_decide_unpack _).
  - exists r. split; [exact E|]. intros Htodo. apply (pg_stored _ _ _ _ Hr). rewrite Htodo.
    apply not_elem_of_nil.
Qed.

(** ** Runs *)

#[local] Existing Instance listing_order.
#[local] Existing Instance reference_cast.
#[local] Existing Instance reference_go_cache.

(** A flush is asked for when the signal comes; its task runs before the
    writer is stopped. *)
Definition closing_run (before after : list (Z * pr_event)) : list (Z * pr_event) :=
  map (fun te => (te.1, PrStep te.2)) (firstn 6 sample_store_run) ++
  [(4 * Second, PrSignal)] ++ repeat (4 * Second, PrAction 1) 5 ++ before ++
  repeat (5 * Second, PrAction 1) 5 ++ after ++ [(6 * Second, PrReturn)].

Definition flush_task : list (Z * pr_event) := [(4 * Second, PrTask 0 (fun _ => nil_error))].
Definition orderly_end : list (Z * pr_event) := closing_run flush_task [].

Definition sample_program : Program := start_program sample_store.

Lemma orderly_end_run : orderly_run (0 + dd_window sample_deduper) 0 sample_program orderly_end.
Proof. vm_compute. repeat split; try discriminate; intros; discriminate. Qed.

(** What is left of a run: the orders published, those marked as sent in the
    tables, whether the process has ended. *)
Definition run_report (evs : list (Z * pr_event)) : outcome (list string * list string * bool) :=
  r ← pr_run sample_program evs;
  Ret ((op_published (st_processor (pr_store r))).*1,
       map record_key (List.filter (fun row => agg_SignalSent row) (tb_rows (t_orders (st_tables (pr_store r))))),
       pr_exited r).

Example orderly_end_report :
  run_report orderly_end = Ret (["0xab-42-Close Long"], ["0xcd-41-Open Long"; "0xab-42-Close Long"], true).
Proof. vm_compute. reflexivity. Qed.

(** The flush that runs after the writer has stopped is published and not
    stored: the next life of the service takes the order up again. *)
Example late_task_not_stored :
  run_report (closing_run [] flush_task) =
    Ret (["0xab-42-Close Long"], ["0xcd-41-Open Long"], true).
Proof. vm_compute. reflexivity. Qed.

(** [cancel] is the second thing the handler does and what main waits for: the
    process can end there, with what the writer has not written. *)
Definition early_return : list (Z * pr_event) :=
  map (fun te => (te.1, PrStep te.2)) (firstn 7 sample_store_run) ++
  [(4 * Second, PrSignal); (4 * Second, PrAction 0); (4 * Second, PrAction 0); (4 * Second, PrReturn)] ++
  repeat (4 * Second, PrAction 1) 8.

Example early_return_loses :
  run_report early_return = Ret (["0xab-42-Close Long"], ["0xcd-41-Open Long"], true).
Proof. vm_compute. reflexivity. Qed.

Example orderly_end_todo :
  match pr_run sample_program orderly_end with
  | Ret r => pr_todo r = [] /\ (op_published (st_processor (pr_store r))).*1 = ["0xab-42-Close Long"] /\
      program_snapshots (row_at pc_Address (tb_rows (t_positions sample_tables))) sample_program orderly_end
        "0xab" = Some (sample_snapshot "2")
  | Panic => False
  end.
Proof. vm_compute. repeat split. Qed.

(** The order of the run and the last snapshot are in the tables. *)
Lemma shutdown_stores_witness :
  exists r, pr_run sample_program orderly_end = Ret r /\
    let t := st_tables (pr_store r) in
    (exists row, row ∈ tb_rows (t_orders t) /\ record_key row = "0xab-42-Close Long" /\
       agg_SignalSent row = true) /\
    row_at pc_Address (tb_rows (t_positions t)) "0xab" = Some (sample_snapshot "2").
Proof.
  destruct (shutdown_stores None sample_deduper sample_symbols (Some sample_balances)
    NewPairCategoryCache sample_tables 0 orderly_end reference_accepting
    sample_balances_wf eq_refl sample_tables_ok orderly_end_run) as (r & E & Hst).
  pose proof orderly_end_todo as Hend. unfold sample_program at 1, sample_store at 1 in Hend.
  rewrite E in Hend. destruct Hend as (Htodo & Hpub & Hsnap).
  destruct (Hst Htodo) as (H1 & _ & H3 & _). exists r. split; [exact E|].
  split; [|rewrite H3; exact Hsnap].
  destruct (op_published (st_processor (pr_store r))) as [|[key signal] published]; [discriminate Hpub|].
  injection Hpub as Hk _. destruct (H1 key signal ltac:(left)) as (row & Hin & Hrk & Hsent & _).
  exists row. split; [exact Hin|]. split; [|exact Hsent]. rewrite <- Hrk. exact Hk.
Defined.
