(* ===== verification/WsClient.v ===== *)
(** * internal/ws/client.go: the connection behind the pool

    A [Client] is shared by the goroutines it starts (readPump, pingPump and
    the one that waits for the context or [done]) and by its callers.  A run
    is a sequence of events; each is one step of one goroutine, between two
    accesses to what is shared, or something the outside does.  The dial, the
    answers to writes and the parser of a frame are arguments; messages are
    pooled structs whose [Data] is a buffer on a heap, so that a buffer that
    is reused would be seen. *)

From Stdlib Require Import ZArith Lia.
From stdpp Require Import gmap strings list numbers.
From S2P Require Import Prelude WsPool.

(** ** Connections

    [k_open]: not closed on this side; [k_failed]: reads fail from now on
    (the peer has closed, the read deadline has passed, the frame is larger
    than [maxMessageSize]); of the frames that arrived, the first [k_read]
    have been read. *)
Inductive ClientFrame : Type :=
| PingFrame
| PingJSON
| CommandJSON (cmd : WsCommand).

Record Conn := mkConn {
  k_open : bool;
  k_failed : bool;
  k_arrived : list string;
  k_read : nat;
  k_written : list ClientFrame;
}.

Definition new_Conn : Conn := mkConn true false [] 0 [].
Definition conn_Close (k : Conn) : Conn :=
  mkConn false (k_failed k) (k_arrived k) (k_read k) (k_written k).
Definition conn_fail (k : Conn) : Conn :=
  mkConn (k_open k) true (k_arrived k) (k_read k) (k_written k).
Definition conn_arrive (frame : string) (k : Conn) : Conn :=
  mkConn (k_open k) (k_failed k) (k_arrived k ++ [frame]) (k_read k) (k_written k).
Definition conn_consume (k : Conn) : Conn :=
  mkConn (k_open k) (k_failed k) (k_arrived k) (S (k_read k)) (k_written k).

(** A write on a closed connection fails; otherwise the network answers. *)
Definition conn_Write (net : ClientFrame -> error) (frame : ClientFrame) (k : Conn) : Conn * error :=
  if k_open k then
    match net frame with
    | None => (mkConn true (k_failed k) (k_arrived k) (k_read k) (k_written k ++ [frame]), nil_error)
    | Some err => (k, Some err)
    end
  else (k, Some "use of closed network connection"%string).

Definition unread (k : Conn) : nat := length (k_arrived k) - k_read k.

(** ** The client and its goroutines *)

(** [closeOnce]: not called, inside the function (after [close(c.done)]), done. *)
Inductive once_pc : Type := X_idle | X_close | X_done.

Record Client := mkClient {
  c_url : string;
  c_conn : option nat;
  c_done : bool;
  c_closeOnce : once_pc;
  c_onMessage : bool;
  c_onDisconnect : bool;
}.

Definition NewClient (url : string) : outcome Client :=
  if decide (url = EmptyString) then Panic
  else Ret (mkClient url None false X_idle false false).
Definition SetMessageHandler (c : Client) : Client :=
  mkClient (c_url c) (c_conn c) (c_done c) (c_closeOnce c) true (c_onDisconnect c).
Definition SetDisconnectCallback (c : Client) : Client :=
  mkClient (c_url c) (c_conn c) (c_done c) (c_closeOnce c) (c_onMessage c) true.
Definition Client_IsConnected (c : Client) : bool := bool_decide (is_Some (c_conn c)).

Definition set_c_conn (conn : option nat) (c : Client) : Client :=
  mkClient (c_url c) conn (c_done c) (c_closeOnce c) (c_onMessage c) (c_onDisconnect c).
Definition set_c_once (once : once_pc) (c : Client) : Client :=
  mkClient (c_url c) (c_conn c) (c_done c) once (c_onMessage c) (c_onDisconnect c).
Definition set_c_done (c : Client) : Client :=
  mkClient (c_url c) (c_conn c) true X_close (c_onMessage c) (c_onDisconnect c).

(** Where a goroutine stands.  A call of [Connect] under the context [ctx]
    dials, then stores the connection and starts the goroutines. *)
Inductive connect_pc : Type := C_dial (ctx : nat) | C_store (ctx conn : nat) | C_returned (err : error).
Inductive watcher_pc : Type := W_wait (ctx : nat) | W_close | W_done.
Inductive reader_pc : Type := R_top | R_load | R_read (conn : nat) | R_close | R_notify | R_done.
Inductive pinger_pc : Type := P_wait | P_ping | P_done.

Record Goroutines := mkGoroutines {
  go_connects : list connect_pc;
  go_watchers : list watcher_pc;
  go_readers : list reader_pc;
  go_pingers : list pinger_pc;
}.

(** A struct of [msgPool], and what has been handed to [onMessage]. *)
Record PooledMessage := mkPooledMessage {
  po_Channel : Channel;
  po_Data : option nat;
}.
Definition new_PooledMessage : PooledMessage := mkPooledMessage EmptyString None.

Record Traffic := mkTraffic {
  tr_pool : list PooledMessage;
  tr_buffers : list string;
  tr_delivered : list PooledMessage;
  tr_notified : nat;
}.

Record ClientRun := mkClientRun {
  cr_client : Client;
  cr_sockets : list Conn;
  cr_cancelled : list nat;
  cr_go : Goroutines;
  cr_traffic : Traffic;
}.

Definition with_client (f : Client -> Client) (r : ClientRun) : ClientRun :=
  mkClientRun (f (cr_client r)) (cr_sockets r) (cr_cancelled r) (cr_go r) (cr_traffic r).
Definition with_sockets (f : list Conn -> list Conn) (r : ClientRun) : ClientRun :=
  mkClientRun (cr_client r) (f (cr_sockets r)) (cr_cancelled r) (cr_go r) (cr_traffic r).
Definition with_go (f : Goroutines -> Goroutines) (r : ClientRun) : ClientRun :=
  mkClientRun (cr_client r) (cr_sockets r) (cr_cancelled r) (f (cr_go r)) (cr_traffic r).
Definition with_traffic (f : Traffic -> Traffic) (r : ClientRun) : ClientRun :=
  mkClientRun (cr_client r) (cr_sockets r) (cr_cancelled r) (cr_go r) (f (cr_traffic r)).
Definition cancel_context (ctx : nat) (r : ClientRun) : ClientRun :=
  mkClientRun (cr_client r) (cr_sockets r) (ctx :: cr_cancelled r) (cr_go r) (cr_traffic r).

Definition set_connects f (g : Goroutines) : Goroutines :=
  mkGoroutines (f (go_connects g)) (go_watchers g) (go_readers g) (go_pingers g).
Definition set_watcher i pc (g : Goroutines) : Goroutines :=
  mkGoroutines (go_connects g) (<[i := pc]> (go_watchers g)) (go_readers g) (go_pingers g).
Definition set_reader i pc (g : Goroutines) : Goroutines :=
  mkGoroutines (go_connects g) (go_watchers g) (<[i := pc]> (go_readers g)) (go_pingers g).
Definition set_pinger i pc (g : Goroutines) : Goroutines :=
  mkGoroutines (go_connects g) (go_watchers g) (go_readers g) (<[i := pc]> (go_pingers g)).
(** The three [go] statements of [Connect]. *)
Definition spawn (ctx : nat) (g : Goroutines) : Goroutines :=
  mkGoroutines (go_connects g) (go_watchers g ++ [W_wait ctx]) (go_readers g ++ [R_top])
    (go_pingers g ++ [P_wait]).

Definition notify (t : Traffic) : Traffic :=
  mkTraffic (tr_pool t) (tr_buffers t) (tr_delivered t) (S (tr_notified t)).

(** The client as [createConnectionLocked] makes it. *)
Definition start_client (url : string) : outcome ClientRun :=
  c ← NewClient url;
  mret (mkClientRun (SetDisconnectCallback (SetMessageHandler c)) [] []
          (mkGoroutines [] [] [] []) (mkTraffic [] [] [] 0)).

(** [internalClose] *)
Definition internalClose (r : ClientRun) : ClientRun :=
  match c_conn (cr_client r) with
  | Some l => with_client (set_c_conn None) (with_sockets (alter conn_Close l) r)
  | None => r
  end.

(** One write under [writeMu], on the connection the client has at that time. *)
Definition write_conn (net : ClientFrame -> error) (frame : ClientFrame) (r : ClientRun)
    : ClientRun * error :=
  match c_conn (cr_client r) with
  | None => (r, Some "connection closed"%string)
  | Some l =>
      match cr_sockets r !! l with
      | Some k => let '(k', err) := conn_Write net frame k in
                  (with_sockets <[l := k']> r, err)
      | None => (r, Some "connection closed"%string)
      end
  end.

(** [Ping]: the control frame, then the JSON ping. *)
Definition Client_Ping (net : ClientFrame -> error) (r : ClientRun) : ClientRun * error :=
  let '(r1, err) := write_conn net PingFrame r in
  match err with
  | Some e => (r1, Some e)
  | None => write_conn net PingJSON r1
  end.

(** [writeJSONWithDeadline], through which [Subscribe] and [Unsubscribe] go. *)
Definition Client_send (net : ClientFrame -> error) (cmd : WsCommand) (r : ClientRun)
    : ClientRun * error := write_conn net (CommandJSON cmd) r.

(** ** readPump *)
Section reader.
(** [json.Unmarshal]: the fields a frame sets and its error.  [fits old new]:
    the array of a buffer has room for a new text, so that
    [append(m[0:0], data...)] writes into it. *)
Context (parse : string -> option string * option string * error).
Context (fits : string -> string -> bool).

Definition Unmarshal_into (bufs : list string) (m : PooledMessage) (frame : string)
    : list string * PooledMessage * error :=
  let '(channel, data, err) := parse frame in
  let channel' := default (po_Channel m) channel in
  match data with
  | None => (bufs, mkPooledMessage channel' (po_Data m), err)
  | Some d =>
      match b ← po_Data m; old ← bufs !! b; if fits old d then Some b else None with
      | Some b => (<[b := d]> bufs, mkPooledMessage channel' (Some b), err)
      | None => (bufs ++ [d], mkPooledMessage channel' (Some (length bufs)), err)
      end
  end.

(** [msgPool.Get]: any struct put back, or a new one. *)
Definition msgPool_Get (slot : nat) (pool : list PooledMessage) : PooledMessage * list PooledMessage :=
  match pool !! slot with
  | Some m => (m, delete slot pool)
  | None => (new_PooledMessage, pool)
  end.

(** The struct put back: [wsMsg.Data = nil], [wsMsg.Channel = ""]. *)
Definition reset_message (m : PooledMessage) : PooledMessage := mkPooledMessage EmptyString None.

(** The body of the loop once a frame has been read: a frame that does not
    parse is dropped; the others go to the handler, by value. *)
Definition handle_frame (handler : bool) (slot : nat) (frame : string) (t : Traffic) : Traffic :=
  let '(m, pool) := msgPool_Get slot (tr_pool t) in
  let '(bufs, m', err) := Unmarshal_into (tr_buffers t) m frame in
  let delivered :=
    match err with
    | Some _ => tr_delivered t
    | None => if handler then tr_delivered t ++ [m'] else tr_delivered t
    end in
  mkTraffic (reset_message m' :: pool) bufs delivered (tr_notified t).

(** What [ReadMessage] answers: the next frame (the struct at [slot] of the
    pool is used for it), or an error, which it gives once the connection is
    closed or has failed. *)
Inductive read_answer : Type := Frame (slot : nat) | ReadError.

(** One step of the reader [i]. *)
Definition reader_step (i : nat) (answer : read_answer) (r : ClientRun) : option ClientRun :=
  let move pc := with_go (set_reader i pc) in
  match go_readers (cr_go r) !! i with
  | Some R_top => Some (move (if c_done (cr_client r) then R_close else R_load) r)
  | Some R_load =>
      Some (move (match c_conn (cr_client r) with None => R_close | Some l => R_read l end) r)
  | Some (R_read l) =>
      k ← cr_sockets r !! l;
      match answer with
      | ReadError => if negb (k_open k) || k_failed k then Some (move R_close r) else None
      | Frame slot =>
          frame ← k_arrived k !! k_read k;
          Some (move R_top
                  (with_traffic (handle_frame (c_onMessage (cr_client r)) slot frame)
                     (with_sockets <[l := conn_consume k]> r)))
      end
  | Some R_close => Some (move R_notify (internalClose r))
  | Some R_notify =>
      Some (move R_done (if c_onDisconnect (cr_client r) then with_traffic notify r else r))
  | Some R_done | None => None
  end.

(** ** The other goroutines *)

(** Step of the goroutine that waits for [ctx.Done()] or [c.done]. *)
Definition watcher_step (i : nat) (r : ClientRun) : option ClientRun :=
  match go_watchers (cr_go r) !! i with
  | Some (W_wait ctx) =>
      if c_done (cr_client r) || bool_decide (ctx ∈ cr_cancelled r)
      then Some (with_go (set_watcher i W_close) r) else None
  | Some W_close => Some (with_go (set_watcher i W_done) (internalClose r))
  | Some W_done | None => None
  end.

(** [pingPump]: it waits for the ticker (the event [Tick]) or for [c.done]. *)
Definition pinger_step (i : nat) (net : ClientFrame -> error) (r : ClientRun) : option ClientRun :=
  match go_pingers (cr_go r) !! i with
  | Some P_wait =>
      if c_done (cr_client r) then Some (with_go (set_pinger i P_done) r) else None
  | Some P_ping =>
      let '(r1, err) := Client_Ping net r in
      Some (with_go (set_pinger i (match err with Some _ => P_done | None => P_wait end)) r1)
  | Some P_done | None => None
  end.

(** A call of [Connect] goes on: the dial is answered, the result stored. *)
Definition connect_step (i : nat) (dial : error) (r : ClientRun) : option ClientRun :=
  match go_connects (cr_go r) !! i with
  | Some (C_dial ctx) =>
      Some match dial with
           | Some err => with_go (set_connects <[i := C_returned (Some err)]>) r
           | None => with_go (set_connects <[i := C_store ctx (length (cr_sockets r))]>)
                       (with_sockets (fun ks => ks ++ [new_Conn]) r)
           end
  | Some (C_store ctx l) =>
      Some (with_go (fun g => spawn ctx (set_connects <[i := C_returned nil_error]> g))
              (with_client (set_c_conn (Some l)) r))
  | Some (C_returned _) | None => None
  end.

(** The function of [closeOnce.Do], after [close(c.done)]. *)
Definition closer_step (r : ClientRun) : option ClientRun :=
  match c_closeOnce (cr_client r) with
  | X_close => Some (with_client (set_c_once X_done) (internalClose r))
  | X_idle | X_done => None
  end.

(** The calls: [Connect] returns at once when there is a connection; [Close]
    does something the first time only. *)
Definition Connect_call (ctx : nat) (r : ClientRun) : ClientRun :=
  let pc := if Client_IsConnected (cr_client r) then C_returned nil_error else C_dial ctx in
  with_go (set_connects (fun cs => cs ++ [pc])) r.
Definition Close_call (r : ClientRun) : ClientRun :=
  match c_closeOnce (cr_client r) with
  | X_idle => with_client set_c_done r
  | X_close | X_done => r
  end.

(** ** Runs *)
Inductive client_event : Type :=
| Connecting (i : nat) (dial : error)
| Watching (i : nat)
| Reading (i : nat) (answer : read_answer)
| Pinging (i : nat) (net : ClientFrame -> error)
| Closing
| CallConnect (ctx : nat)
| CallClose
| CallSend (net : ClientFrame -> error) (cmd : WsCommand)
| Cancel (ctx : nat)
| Tick (i : nat)
| Arrive (conn : nat) (frame : string)
| PeerFails (conn : nat).

(** The events that are steps of the client's goroutines and calls; the
    others come from outside. *)
Definition internal (e : client_event) : bool :=
  match e with
  | Connecting _ _ | Watching _ | Reading _ _ | Pinging _ _ | Closing => true
  | _ => false
  end.

Definition client_exec (e : client_event) (r : ClientRun) : option ClientRun :=
  match e with
  | Connecting i dial => connect_step i dial r
  | Watching i => watcher_step i r
  | Reading i answer => reader_step i answer r
  | Pinging i net => pinger_step i net r
  | Closing => closer_step r
  | CallConnect ctx => Some (Connect_call ctx r)
  | CallClose => Some (Close_call r)
  | CallSend net cmd => Some (Client_send net cmd r).1
  | Cancel ctx => Some (cancel_context ctx r)
  | Tick i =>
      match go_pingers (cr_go r) !! i with
      | Some P_wait => Some (with_go (set_pinger i P_ping) r)
      | _ => None
      end
  | Arrive l frame =>
      k ← cr_sockets r !! l;
      if k_open k && negb (k_failed k) then Some (with_sockets <[l := conn_arrive frame k]> r) else None
  | PeerFails l => k ← cr_sockets r !! l; Some (with_sockets <[l := conn_fail k]> r)
  end.

Fixpoint client_run (evs : list client_event) (r : ClientRun) : option ClientRun :=
  match evs with
  | [] => Some r
  | e :: evs => r' ← client_exec e r; client_run evs r'
  end.

(** No goroutine can move. *)
Definition quiet (r : ClientRun) : Prop :=
  forall e, internal e = true -> client_exec e r = None.

(** The message a frame stands for, whatever was read before it. *)
Definition frame_message (frame : string) : option WsMessage :=
  match parse frame with
  | (channel, data, None) => Some (mkWsMessage (default EmptyString channel) (default EmptyString data))
  | (_, _, Some _) => None
  end.
(** What a message handed to the handler reads as, now. *)
Definition message_text (t : Traffic) (m : PooledMessage) : WsMessage :=
  mkWsMessage (po_Channel m) (default EmptyString (po_Data m ≫= fun b => tr_buffers t !! b)).
End reader.

(** ** Messages: no buffer handed out is written again *)
Section messages.
Context (parse : string -> option string * option string * error) (fits : string -> string -> bool).

Definition has_buffer (t : Traffic) (m : PooledMessage) : Prop :=
  forall b, po_Data m = Some b -> b < length (tr_buffers t).

(** The structs of the pool are as new; the buffers of delivered messages
    exist. *)
Record traffic_ok (t : Traffic) : Prop := {
  to_pool : Forall (fun m => m = new_PooledMessage) (tr_pool t);
  to_delivered : Forall (has_buffer t) (tr_delivered t);
}.

Lemma msgPool_Get_new slot pool :
  Forall (fun m => m = new_PooledMessage) pool ->
  exists pool', msgPool_Get slot pool = (new_PooledMessage, pool') /\
    Forall (fun m => m = new_PooledMessage) pool'.
Proof.
  intros Hp. unfold msgPool_Get. destruct (pool !! slot) as [m|] eqn:Em; [|by exists pool].
  exists (delete slot pool).
  split; [by rewrite (Forall_lookup_1 _ _ _ _ Hp Em)|by apply Forall_delete].
Qed.

Lemma Unmarshal_into_new bufs frame : exists more m err,
  Unmarshal_into parse fits bufs new_PooledMessage frame = (bufs ++ more, m, err) /\
  (forall b, po_Data m = Some b -> b < length (bufs ++ more)) /\
  frame_message parse frame =
    match err with
    | None => Some (mkWsMessage (po_Channel m)
                      (default EmptyString (po_Data m ≫= fun b => (bufs ++ more) !! b)))
    | Some _ => None
    end.
Proof.
  unfold Unmarshal_into, frame_message.
  destruct (parse frame) as [[channel [d|]] err]; cbn [po_Data new_PooledMessage mbind option_bind].
  - exists [d], (mkPooledMessage (default EmptyString channel) (Some (length bufs))), err.
    split; [done|]. split.
    + intros b [= <-]. rewrite length_app. simpl. lia.
    + destruct err; [done|]. simpl. by rewrite list_lookup_middle.
  - exists [], (mkPooledMessage (default EmptyString channel) None), err.
    rewrite app_nil_r. split; [done|]. split; [done|]. by destruct err.
Qed.

Lemma message_text_more t bufs more m :
  tr_buffers t = bufs -> has_buffer t m -> forall pool delivered n,
  message_text (mkTraffic pool (bufs ++ more) delivered n) m = message_text t m.
Proof.
  intros <- Hm pool delivered n. unfold message_text. simpl.
  destruct (po_Data m) as [b|] eqn:Eb; [|done]. simpl.
  by rewrite lookup_app_l by (by apply Hm).
Qed.

(** A frame adds to the messages handed over the one it stands for, and
    changes none of them. *)
Lemma handle_frame_ok slot frame t : traffic_ok t ->
  let t' := handle_frame parse fits true slot frame t in
  traffic_ok t' /\ tr_notified t' = tr_notified t /\
  map (message_text t') (tr_delivered t') =
    map (message_text t) (tr_delivered t) ++ option_list (frame_message parse frame).
Proof.
  intros [Hp Hd]. unfold handle_frame.
  destruct (msgPool_Get_new slot (tr_pool t) Hp) as (pool & -> & Hpool).
  destruct (Unmarshal_into_new (tr_buffers t) frame) as (more & m & err & -> & Hm & ->).
  assert (Hkeep : forall pool' dl, Forall (has_buffer (mkTraffic pool' (tr_buffers t ++ more) dl (tr_notified t)))
      (tr_delivered t)).
  { intros pool' dl. eapply Forall_impl; [|exact Hd]. intros m' Hm' b Hb.
    specialize (Hm' b Hb). simpl. rewrite length_app. lia. }
  assert (Htext : forall pool' dl, map (message_text (mkTraffic pool' (tr_buffers t ++ more) dl (tr_notified t)))
      (tr_delivered t) = map (message_text t) (tr_delivered t)).
  { intros pool' dl. apply map_ext_in. intros m' Hin. apply message_text_more; [done|].
    rewrite List.Forall_forall in Hd. by apply Hd. }
  destruct err as [e|]; simpl.
  - rewrite Htext, app_nil_r. repeat split; simpl; [|apply Hkeep]. constructor; [done|exact Hpool].
  - rewrite map_app, Htext. repeat split; simpl; [constructor; [done|exact Hpool]|].
    apply Forall_app. split; [apply Hkeep|]. constructor; [exact Hm|constructor].
Qed.
End messages.

(** ** Termination *)
Section termination.
Context (parse : string -> option string * option string * error) (fits : string -> string -> bool).

Definition connect_work (pc : connect_pc) : nat :=
  match pc with C_dial _ => 11 | C_store _ _ => 10 | C_returned _ => 0 end.
Definition watcher_work (pc : watcher_pc) : nat :=
  match pc with W_wait _ => 2 | W_close => 1 | W_done => 0 end.
Definition reader_work (pc : reader_pc) : nat :=
  match pc with
  | R_top => 5 | R_load => 4 | R_read _ => 3 | R_close => 2 | R_notify => 1 | R_done => 0
  end.
Definition pinger_work (pc : pinger_pc) : nat :=
  match pc with P_ping => 2 | P_wait => 1 | P_done => 0 end.
Definition once_work (pc : once_pc) : nat := match pc with X_close => 1 | _ => 0 end.

(** What is left to do: each frame not read takes the reader once more round
    its loop. *)
Definition work (r : ClientRun) : nat :=
  sum_list_with connect_work (go_connects (cr_go r)) +
  sum_list_with watcher_work (go_watchers (cr_go r)) +
  sum_list_with reader_work (go_readers (cr_go r)) +
  sum_list_with pinger_work (go_pingers (cr_go r)) +
  once_work (c_closeOnce (cr_client r)) +
  3 * sum_list_with unread (cr_sockets r).

Lemma sum_list_with_snoc {A} (f : A -> nat) l x :
  sum_list_with f (l ++ [x]) = sum_list_with f l + f x.
Proof. rewrite sum_list_with_app. simpl. lia. Qed.

Lemma unread_consume k frame : k_arrived k !! k_read k = Some frame ->
  S (unread (conn_consume k)) = unread k.
Proof. intros Hk%lookup_lt_Some. unfold unread, conn_consume. simpl. lia. Qed.

Lemma sum_unread_alter l ks : sum_list_with unread (alter conn_Close l ks) = sum_list_with unread ks.
Proof.
  revert l. induction ks as [|k ks IH]; intros [|l]; [reflexivity..|].
  change (unread k + sum_list_with unread (alter conn_Close l ks) = unread k + sum_list_with unread ks).
  by rewrite IH.
Qed.

Lemma conn_Write_unread net frame k : unread (conn_Write net frame k).1 = unread k.
Proof. unfold conn_Write. destruct (k_open k); [|done]. by destruct (net frame). Qed.

Lemma internalClose_work r : work (internalClose r) = work r /\
  cr_go (internalClose r) = cr_go r /\ c_closeOnce (cr_client (internalClose r)) = c_closeOnce (cr_client r).
Proof.
  unfold internalClose. destruct (c_conn (cr_client r)); [|done].
  unfold work. simpl. by rewrite sum_unread_alter.
Qed.

Lemma write_conn_work net frame r : work (write_conn net frame r).1 = work r /\
  cr_go (write_conn net frame r).1 = cr_go r.
Proof.
  unfold write_conn. destruct (c_conn _) as [l|]; [|done].
  destruct (cr_sockets r !! l) as [k|] eqn:Ek; [|done].
  pose proof (conn_Write_unread net frame k) as Hu.
  destruct (conn_Write net frame k) as [k' err]. simpl in *. split; [|done].
  unfold work. simpl. pose proof (sum_list_with_insert unread _ _ _ k' Ek). lia.
Qed.

Lemma Client_Ping_work net r : work (Client_Ping net r).1 = work r /\
  cr_go (Client_Ping net r).1 = cr_go r.
Proof.
  unfold Client_Ping. pose proof (write_conn_work net PingFrame r) as [Hw Hg].
  destruct (write_conn net PingFrame r) as [r1 [e|]]; simpl in *; [done|].
  pose proof (write_conn_work net PingJSON r1) as [Hw1 Hg1]. by rewrite Hw1, Hg1.
Qed.

(** Each step of a goroutine leaves less to do. *)
Lemma connect_step_work i dial r r' : connect_step i dial r = Some r' -> work r' < work r.
Proof.
  intros He. unfold connect_step in He.
  destruct (go_connects (cr_go r) !! i) as [[ctx|ctx l|]|] eqn:Ei; [| |done..].
  - destruct dial as [err|]; simplify_eq/=; unfold work; simpl.
    + pose proof (sum_list_with_insert connect_work _ _ _ (C_returned (Some err)) Ei). simpl in *. lia.
    + pose proof (sum_list_with_insert connect_work _ _ _ (C_store ctx (length (cr_sockets r))) Ei).
      rewrite sum_list_with_snoc. change (unread new_Conn) with 0. simpl in *. lia.
  - simplify_eq/=. unfold work. simpl. rewrite !sum_list_with_snoc.
    pose proof (sum_list_with_insert connect_work _ _ _ (C_returned nil_error) Ei). simpl in *. lia.
Qed.

Lemma watcher_step_work i r r' : watcher_step i r = Some r' -> work r' < work r.
Proof.
  intros He. unfold watcher_step in He.
  destruct (go_watchers (cr_go r) !! i) as [[ctx| |]|] eqn:Ei; [| |done..].
  - destruct (_ || _); simplify_eq/=. unfold work. simpl.
    pose proof (sum_list_with_insert watcher_work _ _ _ W_close Ei). simpl in *. lia.
  - simplify_eq/=. destruct (internalClose_work r) as (Hw & Hg & _).
    unfold work in *. simpl in *. rewrite Hg in *.
    pose proof (sum_list_with_insert watcher_work _ _ _ W_done Ei). simpl in *. lia.
Qed.

Lemma reader_step_work i answer r r' : reader_step parse fits i answer r = Some r' -> work r' < work r.
Proof.
  intros He. unfold reader_step in He.
  destruct (go_readers (cr_go r) !! i) as [[| |l| | |]|] eqn:Ei; [| | | | |done..].
  - destruct (c_done _); simplify_eq/=; unfold work; simpl;
      [pose proof (sum_list_with_insert reader_work _ _ _ R_close Ei)|
       pose proof (sum_list_with_insert reader_work _ _ _ R_load Ei)]; simpl in *; lia.
  - destruct (c_conn _) as [l|]; simplify_eq/=; unfold work; simpl;
      [pose proof (sum_list_with_insert reader_work _ _ _ (R_read l) Ei)|
       pose proof (sum_list_with_insert reader_work _ _ _ R_close Ei)]; simpl in *; lia.
  - destruct (cr_sockets r !! l) as [k|] eqn:Ek; [|done]. simpl in He.
    destruct answer as [slot|].
    + destruct (k_arrived k !! k_read k) as [frame|] eqn:Ef; [|done]. simplify_eq/=.
      unfold work; simpl. pose proof (sum_list_with_insert reader_work _ _ _ R_top Ei).
      pose proof (sum_list_with_insert unread _ _ _ (conn_consume k) Ek) as Hs.
      pose proof (unread_consume _ _ Ef). simpl in *. lia.
    + destruct (_ || _); simplify_eq/=. unfold work. simpl.
      pose proof (sum_list_with_insert reader_work _ _ _ R_close Ei). simpl in *. lia.
  - simplify_eq/=. destruct (internalClose_work r) as (Hw & Hg & _).
    unfold work in *. simpl in *. rewrite Hg in *.
    pose proof (sum_list_with_insert reader_work _ _ _ R_notify Ei). simpl in *. lia.
  - pose proof (sum_list_with_insert reader_work _ _ _ R_done Ei).
    destruct (c_onDisconnect _); simplify_eq/=; unfold work; simpl in *; lia.
Qed.

Lemma pinger_step_work i net r r' : pinger_step i net r = Some r' -> work r' < work r.
Proof.
  intros He. unfold pinger_step in He.
  destruct (go_pingers (cr_go r) !! i) as [[| |]|] eqn:Ei; [| |done..].
  - destruct (c_done _); simplify_eq/=. unfold work. simpl.
    pose proof (sum_list_with_insert pinger_work _ _ _ P_done Ei). simpl in *. lia.
  - destruct (Client_Ping_work net r) as [Hw Hg].
    destruct (Client_Ping net r) as [r1 err]. simplify_eq/=. unfold work in *. simpl in *.
    rewrite Hg in *.
    destruct err; [pose proof (sum_list_with_insert pinger_work _ _ _ P_done Ei)|
      pose proof (sum_list_with_insert pinger_work _ _ _ P_wait Ei)]; simpl in *; lia.
Qed.

Lemma closer_step_work r r' : closer_step r = Some r' -> work r' < work r.
Proof.
  intros He. unfold closer_step in He. destruct (c_closeOnce _) eqn:Eo; simplify_eq/=.
  destruct (internalClose_work r) as (Hw & Hg & Ho).
  unfold work in *. simpl in *. rewrite Ho, Eo in *. simpl in *. lia.
Qed.

Lemma internal_work e r r' :
  internal e = true -> client_exec parse fits e r = Some r' -> work r' < work r.
Proof.
  intros Hi He. destruct e as [i dial|i|i answer|i net| | | | | | | |]; try discriminate Hi; simpl in He.
  - by eapply connect_step_work.
  - by eapply watcher_step_work.
  - by eapply reader_step_work.
  - by eapply pinger_step_work.
  - by eapply closer_step_work.
Qed.

Lemma client_run_snoc evs e r : client_run parse fits (evs ++ [e]) r =
  (r' ← client_run parse fits evs r; client_exec parse fits e r').
Proof.
  revert r. induction evs as [|e' evs IH]; intros r; simpl; [by destruct (client_exec _ _ e r)|].
  destruct (client_exec _ _ e' r) as [r1|]; simpl; [apply IH|done].
Qed.
End termination.

(** ** One connection per client *)
Section single.
Context (parse : string -> option string * option string * error) (fits : string -> string -> bool).

Definition handed (r : ClientRun) : list WsMessage :=
  map (message_text (cr_traffic r)) (tr_delivered (cr_traffic r)).
Definition meant (frames : list string) : list WsMessage := omap (frame_message parse) frames.

(** Nothing has been started. *)
Record idle (r : ClientRun) : Prop := {
  id_go : go_watchers (cr_go r) = [] /\ go_readers (cr_go r) = [] /\ go_pingers (cr_go r) = [];
  id_conn : c_conn (cr_client r) = None;
  id_handed : tr_delivered (cr_traffic r) = [];
  id_notified : tr_notified (cr_traffic r) = 0;
}.

(** The goroutines of the one connection run. *)
Record live (r : ClientRun) (k : Conn) (w : watcher_pc) (rd : reader_pc) (p : pinger_pc) : Prop := {
  lv_go : cr_go r = mkGoroutines [C_returned nil_error] [w] [rd] [p];
  lv_sockets : cr_sockets r = [k];
  lv_conn : c_conn (cr_client r) = if k_open k then Some 0 else None;
  lv_read : k_read k <= length (k_arrived k);
  lv_reader : match rd with
              | R_read l => l = 0 | R_notify | R_done => k_open k = false | _ => True end;
  lv_watcher : w = W_done -> k_open k = false;
  lv_handed : handed r = meant (take (k_read k) (k_arrived k));
  lv_notified : tr_notified (cr_traffic r) = match rd with R_done => 1 | _ => 0 end;
}.

Inductive phase (r : ClientRun) : Prop :=
| Ph_idle : idle r -> cr_sockets r = [] ->
    (go_connects (cr_go r) = [] \/ (exists ctx, go_connects (cr_go r) = [C_dial ctx]) \/
     exists err, go_connects (cr_go r) = [C_returned (Some err)]) -> phase r
| Ph_dialed ctx k : idle r -> go_connects (cr_go r) = [C_store ctx 0] ->
    cr_sockets r = [k] -> k_open k = true -> k_read k = 0 -> phase r
| Ph_live k w rd p : live r k w rd p -> phase r.

(** What holds whatever the calls. *)
Record client_ok (r : ClientRun) : Prop := {
  co_handler : c_onMessage (cr_client r) = true;
  co_callback : c_onDisconnect (cr_client r) = true;
  co_traffic : traffic_ok (cr_traffic r);
  co_once : c_done (cr_client r) = match c_closeOnce (cr_client r) with X_idle => false | _ => true end;
  co_phase : length (go_connects (cr_go r)) <= 1 -> phase r;
}.

Lemma start_client_ok url r : start_client url = Ret r -> client_ok r /\ go_connects (cr_go r) = [].
Proof.
  unfold start_client, NewClient. destruct (decide _); [done|]. intros [= <-].
  split; [|done]. split; [done|done|by split; constructor|done|].
  intros _. apply Ph_idle; [by split|done|by left].
Qed.

(** The state after a step differs in the parts the step touches. *)
Lemma phase_ext r r' : cr_go r' = cr_go r -> cr_sockets r' = cr_sockets r ->
  c_conn (cr_client r') = c_conn (cr_client r) -> cr_traffic r' = cr_traffic r ->
  phase r -> phase r'.
Proof.
  intros Hg Hs Hc Ht Hp. assert (Hidle : idle r -> idle r').
  { intros [H1 H2 H3 H4]. split; by rewrite ?Hg, ?Hc, ?Ht. }
  destruct Hp as [H1 H2 H3|ctx k H1 H2 H3 H4 H5|k w rd p [H1 H2 H3 H4 H5 H6 H7 H8]].
  - apply Ph_idle; [by apply Hidle|by rewrite Hs|by rewrite Hg].
  - apply (Ph_dialed _ ctx k); rewrite ?Hg, ?Hs; auto.
  - apply (Ph_live _ k w rd p). unfold handed in H7.
    split; unfold handed; rewrite ?Hg, ?Hs, ?Hc, ?Ht; done.
Qed.

Lemma internalClose_ok r : client_ok r ->
  client_ok (internalClose r) /\ cr_go (internalClose r) = cr_go r /\
  c_conn (cr_client (internalClose r)) = None /\ cr_client (internalClose r) = set_c_conn None (cr_client r) /\
  (forall k w rd p, live r k w rd p -> live (internalClose r) (conn_Close k) w rd p).
Proof.
  intros [H1 H2 H3 H4 H5].
  assert (Hlive : forall k w rd p, live r k w rd p -> live (internalClose r) (conn_Close k) w rd p).
  { intros k w rd p [L1 L2 L3 L4 L5 L6 L7 L8]. unfold internalClose. rewrite L3.
    destruct (k_open k) eqn:Eo.
    - split; simpl; rewrite ?L2; try done. by destruct rd.
    - assert (conn_Close k = k) as -> by (destruct k; simpl in *; by subst).
      split; rewrite ?Eo; done. }
  unfold internalClose in *. destruct (c_conn (cr_client r)) as [l|] eqn:Ec.
  - split; [|by auto]. split; simpl; try done. intros Hl. specialize (H5 Hl).
    destruct H5 as [[? Hn ? ?] ? ?|? ? [? Hn ? ?] ? ? ? ?|k w rd p Hk]; [congruence..|].
    by apply (Ph_live _ (conn_Close k) w rd p), Hlive.
  - split; [by split|]. split; [done|]. split; [done|]. split; [|done].
    unfold set_c_conn. rewrite <- Ec. by destruct (cr_client r).
Qed.

(** A write changes the written frames only. *)
Definition same_but_written (k k' : Conn) : Prop :=
  k_open k' = k_open k /\ k_failed k' = k_failed k /\ k_arrived k' = k_arrived k /\ k_read k' = k_read k.

Lemma live_socket r r' k k' w rd p :
  live r k w rd p -> cr_go r' = cr_go r -> c_conn (cr_client r') = c_conn (cr_client r) ->
  cr_traffic r' = cr_traffic r -> cr_sockets r' = [k'] -> k_open k' = k_open k ->
  k_read k' = k_read k -> k_read k' <= length (k_arrived k') ->
  take (k_read k') (k_arrived k') = take (k_read k) (k_arrived k) -> live r' k' w rd p.
Proof.
  intros [L1 L2 L3 L4 L5 L6 L7 L8] Hg Hc Ht Hs Ho Hr Hl Hk. unfold handed in L7.
  split; unfold handed; rewrite ?Hg, ?Hc, ?Ht, ?Ho, ?Hk; done.
Qed.

(** Replacing a connection by one that stands at the same place. *)
Lemma phase_socket r l k k' : cr_sockets r !! l = Some k ->
  k_open k' = k_open k -> k_read k' = k_read k ->
  (exists more, k_arrived k' = k_arrived k ++ more) ->
  client_ok r -> client_ok (with_sockets <[l := k']> r).
Proof.
  intros Hl Ho Hr [more Ha] [H1 H2 H3 H4 H5]. split; try done. simpl. intros Hc. specialize (H5 Hc).
  destruct H5 as [Hi Hs ?|ctx k0 Hi Hg Hs Hk0 Hr0|k0 w rd p Hv].
  - by rewrite Hs in Hl.
  - rewrite Hs in Hl. destruct l as [|l]; [|by destruct l]. injection Hl as ->.
    apply (Ph_dialed _ ctx k'); simpl; try done; [|by rewrite Hs|congruence..].
    by destruct Hi; split.
  - pose proof (lv_sockets _ _ _ _ _ Hv) as Hs. rewrite Hs in Hl.
    destruct l as [|l]; [|by destruct l]. injection Hl as ->.
    pose proof (lv_read _ _ _ _ _ Hv).
    apply (Ph_live _ k' w rd p), (live_socket r _ k); simpl; rewrite ?Hs, ?Ha, ?Hr; try done.
    + rewrite length_app. lia.
    + by rewrite take_app_le.
Qed.

Lemma write_conn_ok net frame r : client_ok r -> client_ok (write_conn net frame r).1 /\
  cr_client (write_conn net frame r).1 = cr_client r.
Proof.
  intros Hr. unfold write_conn. destruct (c_conn _) as [l|]; [|done].
  destruct (cr_sockets r !! l) as [k|] eqn:Ek; [|done].
  destruct (conn_Write net frame k) as [k' err] eqn:Ew. simpl. split; [|done].
  assert (same_but_written k k') as (Ho & _ & Ha & Hd).
  { unfold conn_Write in Ew. destruct (k_open k) eqn:Eo; [destruct (net frame)|];
      injection Ew as <- <-; done. }
  apply (phase_socket _ _ k); [done..| |done]. exists []. by rewrite app_nil_r.
Qed.

Lemma Client_Ping_ok net r : client_ok r -> client_ok (Client_Ping net r).1 /\
  cr_client (Client_Ping net r).1 = cr_client r.
Proof.
  intros Hr. unfold Client_Ping. destruct (write_conn_ok net PingFrame r Hr) as [H1 H2].
  destruct (write_conn net PingFrame r) as [r1 [e|]]; simpl in *; [done|].
  destruct (write_conn_ok net PingJSON r1 H1) as [H3 H4]. by rewrite H4.
Qed.

(** *** Steps *)
Lemma with_go_ok f r : client_ok r ->
  (length (go_connects (f (cr_go r))) <= 1 -> phase (with_go f r)) -> client_ok (with_go f r).
Proof. intros [H1 H2 H3 H4 _] Hp. by split. Qed.

Lemma singleton_lookup {A} (x y : A) i : [x] !! i = Some y -> i = 0 /\ y = x.
Proof. destruct i as [|[|i]]; simpl; intros ?; by simplify_eq. Qed.

(** A goroutine that has started belongs to the one connection. *)
Lemma phase_reader r i rd : phase r -> go_readers (cr_go r) !! i = Some rd ->
  i = 0 /\ exists k w p, live r k w rd p.
Proof.
  intros Hp Hi. destruct Hp as [[(_ & Hn & _) _ _ _] _ _|? ? [(_ & Hn & _) _ _ _] _ _ _ _|k w rd' p Hv];
    [by rewrite Hn in Hi..|].
  rewrite (lv_go _ _ _ _ _ Hv) in Hi. apply singleton_lookup in Hi as [-> ->].
  split; [done|]. by exists k, w, p.
Qed.

Lemma phase_watcher r i w : phase r -> go_watchers (cr_go r) !! i = Some w ->
  i = 0 /\ exists k rd p, live r k w rd p.
Proof.
  intros Hp Hi. destruct Hp as [[(Hn & _) _ _ _] _ _|? ? [(Hn & _) _ _ _] _ _ _ _|k w' rd p Hv];
    [by rewrite Hn in Hi..|].
  rewrite (lv_go _ _ _ _ _ Hv) in Hi. apply singleton_lookup in Hi as [-> ->].
  split; [done|]. by exists k, rd, p.
Qed.

Lemma phase_pinger r i p : phase r -> go_pingers (cr_go r) !! i = Some p ->
  i = 0 /\ exists k w rd, live r k w rd p.
Proof.
  intros Hp Hi. destruct Hp as [[(_ & _ & Hn) _ _ _] _ _|? ? [(_ & _ & Hn) _ _ _] _ _ _ _|k w rd p' Hv];
    [by rewrite Hn in Hi..|].
  rewrite (lv_go _ _ _ _ _ Hv) in Hi. apply singleton_lookup in Hi as [-> ->].
  split; [done|]. by exists k, w, rd.
Qed.

Lemma live_watcher r k w rd p w' : live r k w rd p -> (w' = W_done -> k_open k = false) ->
  live (with_go (set_watcher 0 w') r) k w' rd p.
Proof. intros [L1 L2 L3 L4 L5 L6 L7 L8] Hw. split; simpl; try done. by rewrite L1. Qed.

Lemma live_pinger r k w rd p p' : live r k w rd p -> live (with_go (set_pinger 0 p') r) k w rd p'.
Proof. intros [L1 L2 L3 L4 L5 L6 L7 L8]. split; simpl; try done. by rewrite L1. Qed.

Lemma live_reader r k w rd p rd' : live r k w rd p -> rd <> R_done -> rd' <> R_done ->
  match rd' with R_read l => l = 0 | R_notify => k_open k = false | _ => True end ->
  live (with_go (set_reader 0 rd') r) k w rd' p.
Proof.
  intros [L1 L2 L3 L4 L5 L6 L7 L8] H1 H2 H3.
  split; simpl; try done; [by rewrite L1|by destruct rd'|by destruct rd, rd'].
Qed.

Lemma live_notify r k w p : live r k w R_notify p ->
  live (with_go (set_reader 0 R_done) (with_traffic notify r)) k w R_done p.
Proof.
  intros [L1 L2 L3 L4 L5 L6 L7 L8]. split; simpl; try done; [by rewrite L1|by rewrite L8].
Qed.

Lemma live_handle r k w p slot frame : traffic_ok (cr_traffic r) ->
  live r k w (R_read 0) p -> k_arrived k !! k_read k = Some frame ->
  live (with_go (set_reader 0 R_top)
          (with_traffic (handle_frame parse fits true slot frame)
             (with_sockets <[0 := conn_consume k]> r))) (conn_consume k) w R_top p.
Proof.
  intros Ht [L1 L2 L3 L4 L5 L6 L7 L8] Hf.
  destruct (handle_frame_ok parse fits slot frame _ Ht) as (_ & Hn & Hm).
  pose proof (lookup_lt_Some _ _ _ Hf).
  split; simpl; try done.
  - by rewrite L1.
  - by rewrite L2.
  - unfold handed in *. simpl. rewrite Hm, L7. unfold meant.
    rewrite (take_S_r _ _ _ Hf), omap_app. simpl. by destruct (frame_message parse frame).
  - by rewrite Hn.
Qed.

Lemma reader_step_ok i answer r r' : client_ok r ->
  reader_step parse fits i answer r = Some r' -> client_ok r'.
Proof.
  intros Hr He. pose proof (internalClose_ok r Hr) as (Hc1 & Hc2 & Hc3 & Hc4 & Hc5).
  unfold reader_step in He.
  destruct (go_readers (cr_go r) !! i) as [rd|] eqn:Ei; [|done].
  assert (Hlive : length (go_connects (cr_go r)) <= 1 -> i = 0 /\ exists k w p, live r k w rd p)
    by (intros Hl; eapply phase_reader; [by apply Hr|done]).
  destruct rd as [| |l| | |]; [| | | | |done].
  - injection He as <-. apply with_go_ok; [done|]. intros Hl.
    destruct (Hlive Hl) as (-> & k & w & p & Hk).
    by apply (Ph_live _ k w (if c_done (cr_client r) then R_close else R_load) p), (live_reader _ _ _ R_top);
      [done..|destruct (c_done _)|destruct (c_done _)].
  - injection He as <-. apply with_go_ok; [done|]. intros Hl.
    destruct (Hlive Hl) as (-> & k & w & p & Hk). pose proof (lv_conn _ _ _ _ _ Hk) as Hco.
    eapply (Ph_live _ k w _ p), (live_reader _ _ _ R_load); [done..| |];
      destruct (k_open k); by rewrite Hco.
  - destruct (cr_sockets r !! l) as [k0|] eqn:Ek; [|done]. simpl in He.
    destruct answer as [slot|].
    + destruct (k_arrived k0 !! k_read k0) as [frame|] eqn:Ef; [|done]. injection He as <-.
      pose proof Hr as [H1 H2 H3 H4 H5]. rewrite H1.
      split; try done; [by apply handle_frame_ok|]. simpl. intros Hl.
      destruct (Hlive Hl) as (-> & k & w & p & Hk).
      pose proof (lv_reader _ _ _ _ _ Hk) as ->.
      rewrite (lv_sockets _ _ _ _ _ Hk) in Ek. injection Ek as ->.
      by apply (Ph_live _ (conn_consume k0) w R_top p), live_handle.
    + destruct (_ || _); [|done]. injection He as <-. apply with_go_ok; [done|]. intros Hl.
      destruct (Hlive Hl) as (-> & k & w & p & Hk).
      by apply (Ph_live _ k w R_close p), (live_reader _ _ _ (R_read l)).
  - injection He as <-. apply with_go_ok; [done|]. rewrite Hc2. simpl. intros Hl.
    destruct (Hlive Hl) as (-> & k & w & p & Hk).
    by apply (Ph_live _ (conn_Close k) w R_notify p), (live_reader _ _ _ R_close); [apply Hc5|..].
  - pose proof Hr as [H1 H2 H3 H4 H5]. rewrite H2 in He. injection He as <-.
    split; try done; [by destruct H3|]. intros Hl.
    destruct (Hlive Hl) as (-> & k & w & p & Hk).
    by apply (Ph_live _ k w R_done p), live_notify.
Qed.

Lemma watcher_step_ok i r r' : client_ok r -> watcher_step i r = Some r' -> client_ok r'.
Proof.
  intros Hr He. pose proof (internalClose_ok r Hr) as (Hc1 & Hc2 & Hc3 & Hc4 & Hc5).
  unfold watcher_step in He. destruct (go_watchers (cr_go r) !! i) as [w|] eqn:Ei; [|done].
  assert (Hlive : length (go_connects (cr_go r)) <= 1 -> i = 0 /\ exists k rd p, live r k w rd p)
    by (intros Hl; eapply phase_watcher; [by apply Hr|done]).
  destruct w as [ctx| |]; [| |done].
  - destruct (_ || _); [|done]. injection He as <-. apply with_go_ok; [done|]. intros Hl.
    destruct (Hlive Hl) as (-> & k & rd & p & Hk).
    by apply (Ph_live _ k W_close rd p), (live_watcher _ _ (W_wait ctx)).
  - injection He as <-. apply with_go_ok; [done|]. rewrite Hc2. simpl. intros Hl.
    destruct (Hlive Hl) as (-> & k & rd & p & Hk).
    by apply (Ph_live _ (conn_Close k) W_done rd p), (live_watcher _ _ W_close); [apply Hc5|].
Qed.

Lemma pinger_step_ok i net r r' : client_ok r -> pinger_step i net r = Some r' -> client_ok r'.
Proof.
  intros Hr He. unfold pinger_step in He.
  destruct (go_pingers (cr_go r) !! i) as [[| |]|] eqn:Ei; [| |done..].
  - destruct (c_done _); [|done]. injection He as <-. apply with_go_ok; [done|]. intros Hl.
    destruct (phase_pinger r i _ (co_phase _ Hr Hl) Ei) as (-> & k & w & rd & Hk).
    by apply (Ph_live _ k w rd P_done), (live_pinger _ _ _ _ P_wait).
  - destruct (Client_Ping_work net r) as [_ Hg]. destruct (Client_Ping_ok net r Hr) as [Hp _].
    destruct (Client_Ping net r) as [r1 err]. injection He as <-. simpl in *.
    apply with_go_ok; [done|]. simpl. intros Hl. rewrite <- Hg in Ei.
    destruct (phase_pinger r1 i _ (co_phase _ Hp Hl) Ei) as (-> & k & w & rd & Hk).
    by eapply (Ph_live _ k w rd), (live_pinger _ _ _ _ P_ping).
Qed.

Lemma single_connect r i pc : length (go_connects (cr_go r)) <= 1 ->
  go_connects (cr_go r) !! i = Some pc -> i = 0 /\ go_connects (cr_go r) = [pc].
Proof.
  destruct (go_connects (cr_go r)) as [|pc' [|pc'' l]]; [done| |simpl; lia].
  intros _ Hi. by apply singleton_lookup in Hi as [-> ->].
Qed.

Lemma connect_step_ok i dial r r' : client_ok r -> connect_step i dial r = Some r' -> client_ok r'.
Proof.
  intros Hr He. unfold connect_step in He.
  destruct (go_connects (cr_go r) !! i) as [pc|] eqn:Ei; [|done].
  pose proof Hr as [H1 H2 H3 H4 H5].
  assert (Hone : length (go_connects (cr_go r)) <= 1 ->
    i = 0 /\ go_connects (cr_go r) = [pc] /\ phase r).
  { intros Hl. destruct (single_connect _ _ _ Hl Ei). by auto. }
  destruct pc as [ctx|ctx l|]; [| |done].
  - injection He as <-. destruct dial as [err|]; split; try done; simpl;
      rewrite length_insert; intros Hl; destruct (Hone Hl) as (-> & Hg & Hp);
      (destruct Hp as [Hi Hs _|? ? _ Hg' _ _ _|? ? ? ? Hv];
        [|congruence|rewrite (lv_go _ _ _ _ _ Hv) in Hg; simplify_eq/=]).
    + apply Ph_idle; simpl; [by destruct Hi; split|done|]. rewrite Hg. right; right. by exists err.
    + apply (Ph_dialed _ ctx new_Conn); simpl; try done; [by destruct Hi; split| |by rewrite Hs].
      by rewrite Hg, Hs.
  - injection He as <-. split; try done; simpl. rewrite length_insert. intros Hl.
    destruct (Hone Hl) as (-> & Hg & Hp).
    destruct Hp as [_ _ Hg'|ctx' k Hi Hg' Hs Ho Hr0|? ? ? ? Hv];
      [destruct Hg' as [?|[[? ?]|[? ?]]]; congruence| |
       rewrite (lv_go _ _ _ _ _ Hv) in Hg; simplify_eq/=].
    assert (ctx' = ctx /\ l = 0) as [-> ->] by (split; congruence).
    destruct Hi as [(Hw & Hrd & Hpg) Hn Hd Ht].
    apply (Ph_live _ k (W_wait ctx) R_top P_wait). split; simpl; try done.
    + unfold spawn. simpl. by rewrite Hg, Hw, Hrd, Hpg.
    + by rewrite Ho.
    + lia.
    + unfold handed. simpl. by rewrite Hd, Hr0.
Qed.

Lemma closer_step_ok r r' : client_ok r -> closer_step r = Some r' -> client_ok r'.
Proof.
  intros Hr He. unfold closer_step in He. destruct (c_closeOnce (cr_client r)) eqn:Eo; [done| |done].
  injection He as <-. destruct (internalClose_ok r Hr) as ([H1 H2 H3 H4 H5] & _ & _ & Hc & _).
  split; try done; simpl.
  - rewrite Hc. simpl. by rewrite (co_once _ Hr), Eo.
  - intros Hl. by apply (phase_ext (internalClose r)); auto.
Qed.

Lemma client_exec_ok e r r' : client_ok r -> client_exec parse fits e r = Some r' -> client_ok r'.
Proof.
  intros Hr He. pose proof Hr as [H1 H2 H3 H4 H5].
  destruct e as [i dial|i|i answer|i net| |ctx| |net cmd|ctx|i|l frame|l]; simpl in He.
  - by eapply connect_step_ok.
  - by eapply watcher_step_ok.
  - by eapply reader_step_ok.
  - by eapply pinger_step_ok.
  - by eapply closer_step_ok.
  - injection He as <-. apply with_go_ok; [done|]. simpl. rewrite length_app. simpl. intros Hl.
    destruct (H5 ltac:(lia)) as [Hi Hs _|? ? _ Hg _ _ _|? ? ? ? Hv];
      [|rewrite Hg in Hl; simpl in Hl; lia|rewrite (lv_go _ _ _ _ _ Hv) in Hl; simpl in Hl; lia].
    apply Ph_idle; simpl; [by destruct Hi; split|done|]. right; left. exists ctx.
    unfold Client_IsConnected. rewrite (id_conn _ Hi). simpl.
    destruct (go_connects (cr_go r)); simpl in *; [done|lia].
  - injection He as <-. unfold Close_call. destruct (c_closeOnce (cr_client r)) eqn:Eo; [|done..].
    split; try done. simpl. intros Hl. by apply (phase_ext r); auto.
  - injection He as <-. by apply write_conn_ok.
  - injection He as <-. split; try done. intros Hl. by apply (phase_ext r); auto.
  - destruct (go_pingers (cr_go r) !! i) as [[| |]|] eqn:Ei; [|done..]. injection He as <-.
    apply with_go_ok; [done|]. simpl. intros Hl.
    destruct (phase_pinger r i _ (H5 Hl) Ei) as (-> & k & w & rd & Hk).
    by apply (Ph_live _ k w rd P_ping), (live_pinger _ _ _ _ P_wait).
  - destruct (cr_sockets r !! l) as [k|] eqn:Ek; [|done]. simpl in He.
    destruct (_ && _); [|done]. injection He as <-.
    apply (phase_socket _ _ k); [done..| |done]. by exists [frame].
  - destruct (cr_sockets r !! l) as [k|] eqn:Ek; [|done]. injection He as <-.
    apply (phase_socket _ _ k); [done..| |done]. exists []. by rewrite app_nil_r.
Qed.

Lemma client_run_ok evs r r' : client_ok r -> client_run parse fits evs r = Some r' -> client_ok r'.
Proof.
  revert r. induction evs as [|e evs IH]; intros r Hr He; simpl in He; [by injection He as <-|].
  destruct (client_exec parse fits e r) as [r1|] eqn:E1; [|done]. simpl in He.
  by eapply IH, He; eapply client_exec_ok.
Qed.

(** *** A client with nothing left to do *)

(** A goroutine that can move does. *)
Lemma quiet_once r : quiet parse fits r -> c_closeOnce (cr_client r) <> X_close.
Proof. intros Hq Ho. specialize (Hq Closing eq_refl). simpl in Hq. unfold closer_step in Hq. by rewrite Ho in Hq. Qed.

Lemma quiet_connects r i pc : quiet parse fits r -> go_connects (cr_go r) !! i = Some pc ->
  exists err, pc = C_returned err.
Proof.
  intros Hq Hi. specialize (Hq (Connecting i nil_error) eq_refl). simpl in Hq.
  unfold connect_step in Hq. rewrite Hi in Hq. destruct pc as [| |err]; [done..|by exists err].
Qed.

Lemma quiet_watcher r i w : quiet parse fits r -> go_watchers (cr_go r) !! i = Some w ->
  w = W_done \/ exists ctx, w = W_wait ctx /\ c_done (cr_client r) = false /\ ctx ∉ cr_cancelled r.
Proof.
  intros Hq Hi. specialize (Hq (Watching i) eq_refl). simpl in Hq.
  unfold watcher_step in Hq. rewrite Hi in Hq. destruct w as [ctx| |]; [|done|by left].
  right. exists ctx. destruct (c_done _); [done|]. simpl in Hq. by case_bool_decide.
Qed.

Lemma quiet_reader r i rd : quiet parse fits r -> go_readers (cr_go r) !! i = Some rd ->
  rd = R_done \/ exists l, rd = R_read l /\ forall k, cr_sockets r !! l = Some k ->
    k_open k = true /\ k_failed k = false /\ length (k_arrived k) <= k_read k.
Proof.
  intros Hq Hi.
  pose proof (Hq (Reading i (Frame 0)) eq_refl) as Hf.
  pose proof (Hq (Reading i ReadError) eq_refl) as He. simpl in Hf, He.
  unfold reader_step in Hf, He. rewrite Hi in Hf, He.
  destruct rd as [| |l| | |]; [done..| |done|done|by left].
  right. exists l. split; [done|]. intros k Hk. rewrite Hk in Hf, He. simpl in Hf, He.
  split; [|split].
  - by destruct (k_open k).
  - destruct (k_failed k); [|done]. by rewrite orb_true_r in He.
  - apply lookup_ge_None. by destruct (k_arrived k !! k_read k).
Qed.

Lemma quiet_pinger r i p : quiet parse fits r -> go_pingers (cr_go r) !! i = Some p ->
  p = P_done \/ p = P_wait /\ c_done (cr_client r) = false.
Proof.
  intros Hq Hi. specialize (Hq (Pinging i (fun _ => None)) eq_refl). simpl in Hq.
  unfold pinger_step in Hq. rewrite Hi in Hq. destruct p; [|by destruct (Client_Ping _ r)|by left].
  right. by destruct (c_done _).
Qed.
End single.

(** ** The theorems *)
Section theorems.
Context (parse : string -> option string * option string * error) (fits : string -> string -> bool).

(** A scheduler: the steps there may be, and one that can be taken. *)
Definition candidate_steps (r : ClientRun) : list client_event :=
  Closing ::
  map (fun i => Connecting i nil_error) (seq 0 (length (go_connects (cr_go r)))) ++
  map Watching (seq 0 (length (go_watchers (cr_go r)))) ++
  map (fun i => Reading i (Frame 0)) (seq 0 (length (go_readers (cr_go r)))) ++
  map (fun i => Reading i ReadError) (seq 0 (length (go_readers (cr_go r)))) ++
  map (fun i => Pinging i (fun _ => None)) (seq 0 (length (go_pingers (cr_go r)))).

Definition next_step (r : ClientRun) : option client_event :=
  List.find (fun e => bool_decide (is_Some (client_exec parse fits e r))) (candidate_steps r).

Lemma candidate_index {A B} (f : nat -> B) (l : list A) i x :
  l !! i = Some x -> f i ∈ map f (seq 0 (length l)).
Proof.
  intros Hi%lookup_lt_Some. apply list_elem_of_In, in_map, in_seq. lia.
Qed.

(** Whatever the answers, a goroutine that can move is a candidate. *)
Lemma enabled_candidate e r : internal e = true -> is_Some (client_exec parse fits e r) ->
  exists e', e' ∈ candidate_steps r /\ is_Some (client_exec parse fits e' r).
Proof.
  intros Hi He. unfold candidate_steps.
  destruct e as [i dial|i|i answer|i net| | | | | | | |]; try discriminate Hi; simpl in He.
  - exists (Connecting i nil_error). simpl. unfold connect_step in *.
    destruct (go_connects (cr_go r) !! i) as [pc|] eqn:Ei; [|by destruct He].
    split; [|destruct pc; [done..|by destruct He]].
    apply elem_of_cons; right. apply elem_of_app; left. by eapply (candidate_index (fun i => Connecting i _)).
  - exists (Watching i). split; [|done]. unfold watcher_step in He.
    destruct (go_watchers (cr_go r) !! i) as [pc|] eqn:Ei; [|by destruct He].
    apply elem_of_cons; right. rewrite !elem_of_app. right; left. by eapply (candidate_index Watching).
  - exists (match answer with Frame _ => Reading i (Frame 0) | ReadError => Reading i ReadError end).
    unfold reader_step in He.
    destruct (go_readers (cr_go r) !! i) as [pc|] eqn:Ei; [|by destruct He]. split.
    + apply elem_of_cons; right. rewrite !elem_of_app. do 2 right.
      destruct answer; [left; by eapply (candidate_index (fun i => Reading i (Frame 0)))|].
      right; left. by eapply (candidate_index (fun i => Reading i ReadError)).
    + destruct answer as [slot|]; simpl; unfold reader_step; rewrite Ei; [|done].
      destruct pc as [| |l| | |]; try done.
      destruct (cr_sockets r !! l) as [k|]; simpl in *; [|done].
      by destruct (k_arrived k !! k_read k).
  - exists (Pinging i (fun _ => None)). simpl. unfold pinger_step in *.
    destruct (go_pingers (cr_go r) !! i) as [pc|] eqn:Ei; [|by destruct He]. split.
    + apply elem_of_cons; right. rewrite !elem_of_app. do 4 right.
      by eapply (candidate_index (fun i => Pinging i _)).
    + destruct pc; [done| |by destruct He]. destruct (Client_Ping (fun _ => None) r). by eexists.
  - exists Closing. split; [by left|done].
Qed.

Lemma next_step_quiet r : next_step r = None -> quiet parse fits r.
Proof.
  intros Hn e Hi. apply eq_None_not_Some. intros He.
  destruct (enabled_candidate e r Hi He) as (e' & Hin & He').
  pose proof (find_none _ _ Hn e') as Hf. rewrite list_elem_of_In in Hin.
  specialize (Hf Hin). simpl in Hf. by rewrite bool_decide_eq_false in Hf.
Qed.

Lemma next_step_internal r e : next_step r = Some e ->
  internal e = true /\ is_Some (client_exec parse fits e r).
Proof.
  intros Hn. apply find_some in Hn as [Hin He]. rewrite bool_decide_eq_true in He. split; [|done].
  unfold candidate_steps in Hin. destruct Hin as [<-|Hin]; [done|].
  rewrite !in_app_iff, !in_map_iff in Hin. by destruct_or?; destruct_and?; naive_solver.
Qed.

(** C31. However the goroutines of a client interleave with each other, with
    its callers and with the network, they come to rest: when nothing more
    comes from outside, no run takes more than [work] steps, and there is one
    to a state in which no goroutine can move. *)
Theorem client_comes_to_rest r :
  (forall evs r', forallb internal evs = true -> client_run parse fits evs r = Some r' ->
     length evs + work r' <= work r) /\
  (exists evs r', forallb internal evs = true /\ client_run parse fits evs r = Some r' /\
     quiet parse fits r').
Proof.
  split.
  - intros evs. revert r. induction evs as [|e evs IH]; intros r r' Hi He; simpl in *;
      [injection He as <-; lia|].
    apply andb_true_iff in Hi as [Hi Hevs].
    destruct (client_exec parse fits e r) as [r1|] eqn:E1; [|done]. simpl in He.
    specialize (IH _ _ Hevs He). pose proof (internal_work parse fits e r r1 Hi E1). lia.
  - remember (work r) as n eqn:Hn. revert r Hn.
    induction n as [n IH] using lt_wf_ind. intros r ->.
    destruct (next_step r) as [e|] eqn:En.
    + apply next_step_internal in En as [Hi [r1 E1]].
      destruct (IH (work r1) (internal_work _ _ e r r1 Hi E1) r1 eq_refl) as (evs & r' & H1 & H2 & H3).
      exists (e :: evs), r'. simpl. rewrite Hi, E1. by auto.
    + exists [], r. split; [done|]. split; [done|]. by apply next_step_quiet.
Qed.

(** C30. A client on which [Connect] was called at most once hands to the
    handler, in their order, the messages of the frames it has read and
    nothing else; what it has handed out stays as it was, though the structs
    and their buffers are pooled. *)
Theorem client_delivers url evs r0 r k :
  start_client url = Ret r0 -> client_run parse fits evs r0 = Some r ->
  length (go_connects (cr_go r)) <= 1 -> cr_sockets r = [k] ->
  handed r = meant parse (take (k_read k) (k_arrived k)).
Proof.
  intros H0 He Hl Hs. destruct (start_client_ok parse url r0 H0) as [Hr0 _].
  destruct (co_phase _ _ (client_run_ok parse fits evs r0 r Hr0 He) Hl)
    as [_ Hs' _|ctx k' Hi _ Hs' _ Hr|k' w rd p Hv]; [congruence| |].
  - assert (k' = k) as -> by congruence. rewrite Hr. unfold handed. by rewrite (id_handed _ Hi).
  - rewrite (lv_sockets _ _ _ _ _ _ Hv) in Hs. injection Hs as ->. by apply (lv_handed _ _ _ _ _ _ Hv).
Qed.

(** The client, not closed and its context not cancelled, listens on an open
    connection of which it has read all. *)
Definition listening (r : ClientRun) : Prop :=
  c_done (cr_client r) = false /\ c_conn (cr_client r) = Some 0 /\
  tr_notified (cr_traffic r) = 0 /\
  (exists ctx, go_watchers (cr_go r) = [W_wait ctx] /\ ctx ∉ cr_cancelled r) /\
  exists k, cr_sockets r = [k] /\ k_open k = true /\ k_failed k = false /\
    handed r = meant parse (k_arrived k).

(** Every connection has been closed, and each one that was served has been
    reported lost, once. *)
Definition disconnected (r : ClientRun) : Prop :=
  c_conn (cr_client r) = None /\ Forall (fun k => k_open k = false) (cr_sockets r) /\
  go_readers (cr_go r) = replicate (length (cr_sockets r)) R_done /\
  tr_notified (cr_traffic r) = length (cr_sockets r).

Definition goroutines_ended (r : ClientRun) : Prop :=
  Forall (fun w => w = W_done) (go_watchers (cr_go r)) /\
  Forall (fun rd => rd = R_done) (go_readers (cr_go r)) /\
  Forall (fun p => p = P_done) (go_pingers (cr_go r)).

Lemma live_at_rest r k w rd p : client_ok parse r -> quiet parse fits r -> live parse r k w rd p ->
  (listening r \/ disconnected r) /\
  (c_done (cr_client r) = true -> disconnected r /\ goroutines_ended r).
Proof.
  intros Hr Hq Hv. pose proof Hv as [L1 L2 L3 L4 L5 L6 L7 L8].
  destruct (quiet_reader parse fits r 0 rd Hq) as [->|(l & -> & Hk)]; [by rewrite L1| |].
  - assert (disconnected r) as Hd by (split; [by rewrite L3, L5|rewrite L2, L1, L8; by auto]).
    split; [by right|]. intros Hdone. split; [done|].
    destruct (quiet_watcher parse fits r 0 w Hq) as [->|(? & _ & ? & _)]; [by rewrite L1| |congruence].
    destruct (quiet_pinger parse fits r 0 p Hq) as [->|[_ ?]]; [by rewrite L1| |congruence].
    unfold goroutines_ended. rewrite L1. simpl. by auto.
  - subst l. destruct (Hk k) as (Ho & Hf & Hle); [by rewrite L2|].
    destruct (quiet_watcher parse fits r 0 w Hq) as [->|(ctx & -> & Hdone & ?)];
      [by rewrite L1|by rewrite L6 in Ho|].
    rewrite Ho in L3. split; [left|congruence].
    repeat split; try done; [exists ctx; by rewrite L1|].
    exists k. rewrite take_ge in L7 by done. by auto.
Qed.

(** C12. When no goroutine of a client on which [Connect] was called at most
    once can move, it either listens on an open connection and has handed over
    every message that arrived, or its connection is closed and the pool has
    been told exactly once (not at all by a client that never connected); after
    [Close] it is the second, and no goroutine is left. *)
Theorem client_at_rest url evs r0 r :
  start_client url = Ret r0 -> client_run parse fits evs r0 = Some r ->
  length (go_connects (cr_go r)) <= 1 -> quiet parse fits r ->
  (listening r \/ disconnected r) /\
  (c_closeOnce (cr_client r) <> X_idle -> disconnected r /\ goroutines_ended r).
Proof.
  intros H0 He Hl Hq. destruct (start_client_ok parse url r0 H0) as [Hr0 _].
  pose proof (client_run_ok parse fits evs r0 r Hr0 He) as Hr.
  destruct (co_phase _ _ Hr Hl) as [Hi Hs _|ctx k _ Hg _ _ _|k w rd p Hv].
  - destruct Hi as [(Hw & Hrd & Hp) Hn _ Ht].
    assert (disconnected r) by (split; [done|rewrite Hs, Hrd, Ht; by auto]).
    split; [by right|]. intros _. split; [done|]. unfold goroutines_ended. rewrite Hw, Hrd, Hp. by auto.
  - destruct (quiet_connects parse fits r 0 (C_store ctx 0) Hq) as [? ?]; [by rewrite Hg|done].
  - destruct (live_at_rest r k w rd p Hr Hq Hv) as [H1 H2]. split; [done|].
    intros Hc. apply H2. rewrite (co_once _ _ Hr). by destruct (c_closeOnce _).
Qed.
End theorems.

(** ** What the pool relies on

    The pool sees a client as the flag and the commands of a
    [ConnectionWrapper] (WsPool). *)
Section wrapper.
Context (parse : string -> option string * option string * error) (fits : string -> string -> bool).

Definition frame_command (frame : ClientFrame) : option WsCommand :=
  match frame with CommandJSON cmd => Some cmd | PingFrame | PingJSON => None end.
Definition written_on (ks : list Conn) : list WsCommand :=
  concat (map (fun k => omap frame_command (k_written k)) ks).
Definition commands (r : ClientRun) : list WsCommand := written_on (cr_sockets r).

Definition represents (r : ClientRun) (cw : ConnectionWrapper) : Prop :=
  cw_connected cw = Client_IsConnected (cr_client r) /\ cw_written cw = commands r.

(** What an event of the client is for its wrapper: a command of a caller is
    written on it, with the same answer; a goroutine may end its connection; a
    call of [Connect] may give it its first one. *)
Definition wrapper_does (r : ClientRun) (e : client_event) (cw cw' : ConnectionWrapper) : Prop :=
  match e with
  | CallSend net cmd =>
      (cw', (Client_send net cmd r).2) = writeJSONWithDeadline (fun cmd => net (CommandJSON cmd)) cw cmd
  | Connecting _ _ =>
      cw' = cw \/ (cw_connected cw = false /\
                   cw' = mkConnectionWrapper true (cw_written cw) (cw_subscriptions cw))
  | Watching _ | Reading _ _ | Closing => cw' = cw \/ cw' = Client_Close cw
  | _ => cw' = cw
  end.

(** The connection the client has is open. *)
Definition conn_is_open (r : ClientRun) : Prop :=
  forall l, c_conn (cr_client r) = Some l -> exists k, cr_sockets r = [k] /\ l = 0 /\ k_open k = true.

Lemma phase_conn_open r : phase parse r -> conn_is_open r.
Proof.
  intros [[_ Hn _ _] _ _|? ? [_ Hn _ _] _ _ _ _|k w rd p Hv] l Hl; [congruence..|].
  rewrite (lv_conn _ _ _ _ _ _ Hv) in Hl. exists k. split; [apply Hv|].
  destruct (k_open k); [by simplify_eq|done].
Qed.

Lemma alter_commands l ks : written_on (alter conn_Close l ks) = written_on ks.
Proof.
  revert l. induction ks as [|k ks IH]; intros [|l]; [reflexivity..|].
  change (omap frame_command (k_written k) ++ written_on (alter conn_Close l ks) =
    omap frame_command (k_written k) ++ written_on ks).
  by rewrite IH.
Qed.

Lemma internalClose_represents r cw : represents r cw -> represents (internalClose r) (Client_Close cw).
Proof.
  intros [Hc Hw]. unfold internalClose. destruct (c_conn (cr_client r)) as [l|] eqn:El.
  - split; [done|]. simpl. rewrite Hw. unfold commands. simpl. by rewrite alter_commands.
  - split; [|done]. simpl. unfold Client_IsConnected. by rewrite El.
Qed.

Lemma commands_insert r l k k' : cr_sockets r !! l = Some k ->
  omap frame_command (k_written k') = omap frame_command (k_written k) ->
  commands (with_sockets <[l := k']> r) = commands r.
Proof.
  unfold commands. simpl. revert l.
  induction (cr_sockets r) as [|k0 ks IH]; intros [|l] Hl Hk; [done..| |].
  - injection Hl as ->. unfold written_on. simpl. by rewrite Hk.
  - change (omap frame_command (k_written k0) ++ written_on (<[l := k']> ks) =
      omap frame_command (k_written k0) ++ written_on ks).
    by rewrite (IH _ Hl Hk).
Qed.

(** A ping is no command. *)
Lemma write_ping_represents net frame r cw : frame_command frame = None ->
  represents r cw -> represents (write_conn net frame r).1 cw.
Proof.
  intros Hf [Hc Hw]. unfold write_conn. destruct (c_conn (cr_client r)) as [l|]; [|done].
  destruct (cr_sockets r !! l) as [k|] eqn:Ek; [|done].
  destruct (conn_Write net frame k) as [k' err] eqn:Ew. split; [done|]. simpl.
  rewrite (commands_insert r l k k' Ek); [done|].
  unfold conn_Write in Ew. destruct (k_open k); [destruct (net frame)|]; injection Ew as <- <-; [done| |done].
  simpl. rewrite omap_app. simpl. by rewrite Hf, app_nil_r.
Qed.

Lemma Ping_represents net r cw : represents r cw -> represents (Client_Ping net r).1 cw.
Proof.
  intros Hr. unfold Client_Ping. pose proof (write_ping_represents net PingFrame r cw eq_refl Hr) as H1.
  destruct (write_conn net PingFrame r) as [r1 [e|]]; [done|]. by apply write_ping_represents.
Qed.

(** A command the pool writes on a wrapper is one its client writes, with the
    same answer. *)
Lemma send_represents net cmd r cw : conn_is_open r -> represents r cw ->
  let '(r', err) := Client_send net cmd r in
  let '(cw', err') := writeJSONWithDeadline (fun cmd => net (CommandJSON cmd)) cw cmd in
  represents r' cw' /\ err = err'.
Proof.
  intros Ho [Hc Hw]. unfold Client_send, write_conn, writeJSONWithDeadline, Client_IsConnected in *.
  rewrite Hc. destruct (c_conn (cr_client r)) as [l|] eqn:El.
  - destruct (Ho l El) as (k & Hs & -> & Hk). rewrite bool_decide_true by eauto.
    rewrite Hs. simpl. unfold conn_Write. rewrite Hk. destruct (net (CommandJSON cmd)) as [err|].
    + split; [|done]. split; simpl.
      * unfold Client_IsConnected. rewrite Hc, El. by rewrite bool_decide_true by eauto.
      * rewrite Hw. unfold commands, written_on. simpl. by rewrite Hs.
    + split; [|done]. split; simpl.
      * unfold Client_IsConnected. rewrite El. by rewrite bool_decide_true by eauto.
      * rewrite Hw. unfold commands, written_on. simpl. rewrite Hs. simpl. by rewrite omap_app, !app_nil_r.
  - rewrite bool_decide_false by (intros [? ?]; done). split; [|done].
    split; [|done]. unfold Client_IsConnected. by rewrite El.
Qed.

Lemma represents_ext r r' cw : cr_client r' = cr_client r -> commands r' = commands r ->
  represents r cw -> represents r' cw.
Proof. unfold represents. by intros -> ->. Qed.

(** What is not about the connection, nor a command, is nothing to the wrapper. *)
Lemma unseen_step r e r' cw : wrapper_does r e cw cw ->
  cr_client r' = cr_client r -> commands r' = commands r -> represents r cw ->
  exists cw', wrapper_does r e cw cw' /\ represents r' cw'.
Proof. intros. exists cw. split; [done|by eapply represents_ext]. Qed.

Lemma dial_seen i dial r r' cw : client_ok parse r -> length (go_connects (cr_go r')) <= 1 ->
  connect_step i dial r = Some r' -> represents r cw ->
  exists cw', wrapper_does r (Connecting i dial) cw cw' /\ represents r' cw'.
Proof.
  unfold connect_step. intros Hr Hl Hstep Hcw.
  destruct (go_connects (cr_go r) !! i) as [[ctx|ctx l|]|] eqn:Ei; [| |done..].
  - destruct dial; injection Hstep as <-; apply unseen_step; try done; try by left.
    unfold commands, written_on. simpl. rewrite map_app, concat_app. simpl. by rewrite app_nil_r.
  - injection Hstep as <-. simpl in Hl. rewrite length_insert in Hl.
    destruct (single_connect _ _ _ Hl Ei) as [-> Hg].
    exists (mkConnectionWrapper true (cw_written cw) (cw_subscriptions cw)).
    destruct Hcw as [Hc Hw]. split; [|by split]. right. split; [|done]. rewrite Hc. unfold Client_IsConnected.
    destruct (co_phase _ _ Hr Hl) as [[_ -> _ _] _ _|? ? [_ -> _ _] _ _ _ _|? ? ? ? Hv]; [done..|].
    rewrite (lv_go _ _ _ _ _ _ Hv) in Hg. discriminate Hg.
Qed.

Lemma reader_seen i answer r r' cw :
  reader_step parse fits i answer r = Some r' -> represents r cw ->
  exists cw', wrapper_does r (Reading i answer) cw cw' /\ represents r' cw'.
Proof.
  unfold reader_step. intros Hstep Hcw. pose proof (internalClose_represents r cw Hcw) as Hdrop.
  destruct (go_readers (cr_go r) !! i) as [[| |l| | |]|]; [| | | | |done..].
  - injection Hstep as <-. by apply unseen_step; simpl; auto.
  - injection Hstep as <-. by apply unseen_step; simpl; auto.
  - destruct (cr_sockets r !! l) as [k|] eqn:Ek; [|done]. simpl in Hstep. destruct answer as [slot|].
    + destruct (k_arrived k !! k_read k); [|done]. injection Hstep as <-. apply unseen_step; [by left|done| |done].
      by apply (commands_insert r l k (conn_consume k)).
    + destruct (_ || _); [|done]. injection Hstep as <-. by apply unseen_step; simpl; auto.
  - injection Hstep as <-. exists (Client_Close cw). split; [by right|done].
  - destruct (c_onDisconnect _); injection Hstep as <-; by apply unseen_step; simpl; auto.
Qed.

(** C13. The wrapper of the pool is a faithful abstraction of its client: each
    step of a goroutine, of a caller or of the network is, for the pool, what
    [wrapper_does] says of it: a command written with the same answer, the loss
    of the connection, the dial, or nothing. *)
Theorem client_refines_wrapper url evs r0 r e r' cw :
  start_client url = Ret r0 -> client_run parse fits evs r0 = Some r ->
  client_exec parse fits e r = Some r' -> length (go_connects (cr_go r')) <= 1 ->
  represents r cw -> exists cw', wrapper_does r e cw cw' /\ represents r' cw'.
Proof.
  intros H0 He Hstep Hl Hcw. destruct (start_client_ok parse url r0 H0) as [Hr0 _].
  pose proof (client_run_ok parse fits evs r0 r Hr0 He) as Hr.
  pose proof (internalClose_represents r cw Hcw) as Hdrop.
  destruct e as [i dial|i|i answer|i net| |ctx| |net cmd|ctx|i|l frame|l]; simpl in Hstep.
  - by apply dial_seen.
  - unfold watcher_step in Hstep. destruct (go_watchers (cr_go r) !! i) as [[ctx| |]|]; [| |done..].
    + destruct (_ || _); [|done]. injection Hstep as <-. by apply unseen_step; simpl; auto.
    + injection Hstep as <-. exists (Client_Close cw). split; [by right|done].
  - by apply reader_seen.
  - unfold pinger_step in Hstep. destruct (go_pingers (cr_go r) !! i) as [[| |]|]; [| |done..].
    + destruct (c_done _); [|done]. injection Hstep as <-. by apply unseen_step; simpl; auto.
    + pose proof (Ping_represents net r cw Hcw) as Hp. destruct (Client_Ping net r) as [r1 err].
      injection Hstep as <-. exists cw. split; [done|exact Hp].
  - unfold closer_step in Hstep. destruct (c_closeOnce _); [done| |done]. injection Hstep as <-.
    exists (Client_Close cw). split; [by right|done].
  - injection Hstep as <-. by apply unseen_step; simpl; auto.
  - injection Hstep as <-. exists cw. split; [done|]. unfold Close_call.
    by destruct (c_closeOnce (cr_client r)).
  - injection Hstep as <-. destruct (Client_Ping_ok parse net r Hr) as [_ _].
    assert (Hg : cr_go (Client_send net cmd r).1 = cr_go r) by apply write_conn_work.
    rewrite Hg in Hl. pose proof (send_represents net cmd r cw (phase_conn_open _ (co_phase _ _ Hr Hl)) Hcw) as Hs.
    destruct (Client_send net cmd r) as [r1 err] eqn:E1.
    destruct (writeJSONWithDeadline _ cw cmd) as [cw' err'] eqn:Ew. destruct Hs as [Hs <-].
    exists cw'. split; [|done]. simpl. by rewrite E1, Ew.
  - injection Hstep as <-. by apply unseen_step; simpl; auto.
  - destruct (go_pingers (cr_go r) !! i) as [[| |]|]; [|done..]. injection Hstep as <-. by apply unseen_step; simpl; auto.
  - destruct (cr_sockets r !! l) as [k|] eqn:Ek; [|done]. simpl in Hstep. destruct (_ && _); [|done].
    injection Hstep as <-. apply unseen_step; [done|done| |done]. by apply (commands_insert r l k (conn_arrive frame k)).
  - destruct (cr_sockets r !! l) as [k|] eqn:Ek; [|done]. injection Hstep as <-. apply unseen_step; [done|done| |done].
    by apply (commands_insert r l k (conn_fail k)).
Qed.
End wrapper.

(** ** Witnesses *)

(** A parser for the frames of the witnesses: [channel:data], and ["bad"]. *)
Definition sample_parse (frame : string) : option string * option string * error :=
  if decide (frame = "bad"%string) then (None, None, Some "invalid character"%string)
  else (Some "allMids"%string, Some frame, nil_error).
Definition always_fits (old new : string) : bool := true.

(** Connected; of three frames two have been read when the pool closes it. *)
Definition sample_events : list client_event :=
  [CallConnect 0; Connecting 0 nil_error; Connecting 0 nil_error; Reading 0 (Frame 0);
   Reading 0 (Frame 0); Arrive 0 "one"; Arrive 0 "bad"; Reading 0 (Frame 0);
   CallSend (fun _ => None) (CmdSubscribe (mkSubscription "allMids" "" ""));
   Reading 0 (Frame 0); Reading 0 (Frame 0); Reading 0 (Frame 0); Reading 0 (Frame 0);
   Reading 0 (Frame 0); Arrive 0 "two"].

Definition sample_start : ClientRun :=
  match start_client "wss://api" with Ret r => r | Panic =>
    mkClientRun (mkClient "" None false X_idle false false) [] [] (mkGoroutines [] [] [] []) (mkTraffic [] [] [] 0)
  end.
Definition run_sample (evs : list client_event) : ClientRun :=
  default sample_start (client_run sample_parse always_fits evs sample_start).
Lemma run_sample_runs evs : bool_decide (is_Some (client_run sample_parse always_fits evs sample_start)) = true ->
  client_run sample_parse always_fits evs sample_start = Some (run_sample evs).
Proof. intros [r Hr]%bool_decide_eq_true. unfold run_sample. by rewrite Hr. Qed.

Definition sample_listening : ClientRun := run_sample sample_events.
(** [Close] while the reader waits: all the steps that are left. *)
Definition closing_events : list client_event :=
  [CallClose; Closing; Watching 0; Watching 0; Reading 0 ReadError; Reading 0 ReadError;
   Reading 0 ReadError; Pinging 0 (fun _ => None)].

Example sample_observed :
  handed sample_listening = [mkWsMessage "allMids" "one"] /\
  k_read <$> cr_sockets sample_listening = [2] /\
  handed (run_sample (sample_events ++ [Reading 0 (Frame 0)])) =
    [mkWsMessage "allMids" "one"; mkWsMessage "allMids" "two"].
Proof. split_and!; vm_compute; reflexivity. Qed.

Lemma client_delivers_witness :
  handed sample_listening = meant sample_parse (take 2 ["one"; "bad"; "two"]%string).
Proof.
  apply (client_delivers sample_parse always_fits "wss://api" sample_events sample_start sample_listening
    (mkConn true false ["one"; "bad"; "two"]%string 2
       [CommandJSON (CmdSubscribe (mkSubscription "allMids" "" ""))]));
    [reflexivity|apply run_sample_runs; vm_compute; reflexivity|vm_compute; lia|vm_compute; reflexivity].
Defined.

Definition sample_closed : ClientRun := run_sample (sample_events ++ closing_events).

Lemma sample_closed_quiet : quiet sample_parse always_fits sample_closed.
Proof. apply next_step_quiet. vm_compute. reflexivity. Qed.

Lemma client_at_rest_witness :
  (listening sample_parse sample_closed \/ disconnected sample_closed) /\
  (c_closeOnce (cr_client sample_closed) <> X_idle -> disconnected sample_closed /\ goroutines_ended sample_closed).
Proof.
  apply (client_at_rest sample_parse always_fits "wss://api" (sample_events ++ closing_events) sample_start);
    [reflexivity|apply run_sample_runs; vm_compute; reflexivity|vm_compute; lia|exact sample_closed_quiet].
Defined.

Lemma sample_step :
  client_exec sample_parse always_fits (CallSend (fun _ => None) (CmdSubscribe (mkSubscription "bbo" "" "")))
    sample_listening =
  Some (run_sample (sample_events ++ [CallSend (fun _ => None) (CmdSubscribe (mkSubscription "bbo" "" ""))])).
Proof. vm_compute. reflexivity. Qed.

Lemma sample_represents :
  represents sample_listening (mkConnectionWrapper true [CmdSubscribe (mkSubscription "allMids" "" "")] ∅).
Proof. split; vm_compute; reflexivity. Qed.

Lemma client_refines_wrapper_witness :
  let cw := mkConnectionWrapper true [CmdSubscribe (mkSubscription "allMids" "" "")] ∅ in
  let e := CallSend (fun _ => None) (CmdSubscribe (mkSubscription "bbo" "" "")) in
  exists cw', wrapper_does sample_listening e cw cw' /\ represents (run_sample (sample_events ++ [e])) cw'.
Proof.
  apply (client_refines_wrapper sample_parse always_fits "wss://api" sample_events sample_start sample_listening
    (CallSend (fun _ => None) (CmdSubscribe (mkSubscription "bbo" "" ""))));
    [reflexivity|apply run_sample_runs; vm_compute; reflexivity|exact sample_step|vm_compute; lia|
     exact sample_represents].
Defined.

(** Two calls of [Connect] that both find no connection both dial, and the
    first connection is replaced by the second: nothing closes it. *)
Definition two_connects : list client_event :=
  [CallConnect 0; CallConnect 0; Connecting 0 nil_error; Connecting 1 nil_error;
   Connecting 0 nil_error; Connecting 1 nil_error; CallClose; Closing; Watching 0; Watching 0;
   Watching 1; Watching 1; Reading 0 ReadError; Reading 0 ReadError; Reading 0 ReadError;
   Reading 1 ReadError; Reading 1 ReadError; Reading 1 ReadError; Pinging 0 (fun _ => None);
   Pinging 1 (fun _ => None)].

Lemma concurrent_connects_leak :
  next_step sample_parse always_fits (run_sample two_connects) = None /\
  k_open <$> cr_sockets (run_sample two_connects) = [true; false] /\
  c_closeOnce (cr_client (run_sample two_connects)) = X_done.
Proof. split_and!; vm_compute; reflexivity. Qed.
