(* ===== verification/Config.v ===== *)
(** * config/config.go: loading and reloading of the configuration

    The configuration, its defaults, and the goroutine that reloads the file
    when its modification time grows.  The TOML decoder is an argument; the file
    system is a function from paths to contents with their modification times,
    read at the instants the code opens and stats the file. *)

From Stdlib Require Import ZArith Lia.
From stdpp Require Import gmap strings list.
From S2P Require Import Prelude GoStrings Models.
Local Open Scope Z_scope.

Record HLMonitor := mkHLMonitor {
  hm_HyperliquidWSURL : string;
  hm_HealthServerAddr : string;
  hm_AddressReloadInterval : Z;
  hm_AddressRemoveGrace : Z;
  hm_MaxConnections : Z;
  hm_MaxSubscriptionsPerConnection : Z;
}.

Record MySQL := mkMySQL {
  my_DSN : string;
  my_SlaveAddr : list string;
  my_MaxIdleConnections : Z;
  my_MaxOpenConnections : Z;
  my_SetConnMaxLifetime : Z;
  my_SetConnMaxIdleTime : Z;
  my_ProxyEnabled : bool;
  my_ProxyAddr : string;
}.

Record NATS := mkNATS {
  nats_Endpoint : string;
  nats_ReconnectWait : Z;
  nats_MaxReconnects : Z;
  nats_PingInterval : Z;
  nats_ConnectTimeout : Z;
}.

Record LoggerConfig := mkLoggerConfig {
  lo_Level : string;
  lo_MaxSize : Z;
  lo_MaxBackups : Z;
  lo_MaxAge : Z;
  lo_Compress : bool;
  lo_Console : bool;
}.

Record AggregationConfig := mkAggregationConfig {
  ag_Timeout : Z;
  ag_ScanInterval : Z;
  ag_MaxRetry : Z;
  ag_RetryDelay : Z;
}.

Record Config := mkConfig {
  cfg_HLMonitor : HLMonitor;
  cfg_MySQL : MySQL;
  cfg_NATS : NATS;
  cfg_Logger : LoggerConfig;
  cfg_OrderAggregation : AggregationConfig;
}.

Definition Config_Default : Config :=
  mkConfig
    (mkHLMonitor "wss://api.hyperliquid.xyz/ws" "0.0.0.0:16800" Minute (5 * Minute) 20 150)
    (mkMySQL "root:password@tcp(localhost:3306)/utrading?charset=utf8mb4&parseTime=True&loc=Local"
       [] 16 64 7200 3600 false "127.0.0.1:7890")
    (mkNATS "nats://localhost:4222" 0 0 0 0)
    (mkLoggerConfig "info" 10 60 7 false false)
    (mkAggregationConfig (5 * Minute) (30 * Second) 3 (1 * Second)).

(** ** The package's variables *)

Inductive stop_chan : Type := NilChan | OpenChan | ClosedChan.

Record config_state := mkConfigState {
  cs_cfg : option Config;
  cs_cfgPath : string;
  cs_lastModTime : Z;
  cs_stopChan : stop_chan;
}.

(** Before any [Load]; the zero time lies before every file's. *)
Definition config_start (zeroTime : Z) : config_state :=
  mkConfigState None EmptyString zeroTime NilChan.

Section config.
(** The contents of files, and [toml.Decode] of one onto a configuration. *)
Context {file : Type} (Decode : file -> Config -> Config + string).

Definition file_system : Type := string -> option (file * Z).
Implicit Types (s : config_state) (fs : file_system).

(** [toml.DecodeFile] opens the file at [fs1], [os.Stat] looks at [fs2]. *)
Definition Load fs1 fs2 s (path : string) : config_state * error :=
  match fs1 path with
  | None => (s, Some "no such file or directory")
  | Some (content, _) =>
      match Decode content Config_Default with
      | inr err => (s, Some err)
      | inl c =>
          match fs2 path with
          | None => (s, Some "no such file or directory")
          | Some (_, modTime) => (mkConfigState (Some c) path modTime (cs_stopChan s), nil_error)
          end
      end
  end.

Definition Config_Get s : option Config := cs_cfg s.

Definition InitWithInterval fs1 fs2 s (path : string) : config_state * error :=
  match Load fs1 fs2 s path with
  | (s, Some err) => (s, Some err)
  | (s, None) => (mkConfigState (cs_cfg s) (cs_cfgPath s) (cs_lastModTime s) OpenChan, nil_error)
  end.

Definition Config_Init := InitWithInterval.

(** Closing a closed channel panics. *)
Definition Config_Stop s : outcome config_state :=
  match cs_stopChan s with
  | NilChan => Ret s
  | OpenChan => Ret (mkConfigState (cs_cfg s) (cs_cfgPath s) (cs_lastModTime s) ClosedChan)
  | ClosedChan => Panic
  end.

Definition reloadIfNeeded fs0 fs1 fs2 s : config_state :=
  let path := cs_cfgPath s in
  if decide (path = EmptyString) then s
  else match fs0 path with
       | None => s
       | Some (_, modTime) =>
           if modTime >? cs_lastModTime s then (Load fs1 fs2 s path).1 else s
       end.

(** One turn of the reload goroutine. *)
Definition reload_tick s (fss : file_system * file_system * file_system) : config_state :=
  match cs_stopChan s with
  | OpenChan => let '(fs0, fs1, fs2) := fss in reloadIfNeeded fs0 fs1 fs2 s
  | _ => s
  end.

(** ** What a reload keeps and brings *)

(** The configuration is always a whole decoded file: a reload that fails at
    any point changes nothing. *)
Lemma Load_spec fs1 fs2 s path :
  (exists content t1 content2 t2 c, fs1 path = Some (content, t1) /\ fs2 path = Some (content2, t2) /\
     Decode content Config_Default = inl c /\
     Load fs1 fs2 s path = (mkConfigState (Some c) path t2 (cs_stopChan s), nil_error)) \/
  exists err, Load fs1 fs2 s path = (s, Some err).
Proof.
  unfold Load. destruct (fs1 path) as [[content t1]|]; [|by right; eexists].
  destruct (Decode content Config_Default) as [c|err] eqn:Ed; [|by right; eexists].
  destruct (fs2 path) as [[content2 t2]|]; [|by right; eexists]. left. eauto 12.
Qed.

(** A configuration that some file decoded to. *)
Definition decoded (s : config_state) : Prop :=
  exists content c, cs_cfg s = Some c /\ Decode content Config_Default = inl c.

Lemma reload_tick_decoded s fss : decoded s -> decoded (reload_tick s fss).
Proof.
  intros Hs. unfold reload_tick. destruct (cs_stopChan s); try done.
  destruct fss as [[fs0 fs1] fs2]. unfold reloadIfNeeded. case_decide; [done|].
  destruct (fs0 _) as [[content t]|]; [|done]. destruct (_ >? _); [|done].
  destruct (Load_spec fs1 fs2 s (cs_cfgPath s)) as
    [(c1 & t1 & c2 & t2 & c & _ & _ & Hd & ->)|[err ->]]; [|done]. by exists c1, c.
Qed.

(** The file as a reload found it: its content is the configuration and its
    modification time the one remembered. *)
Definition synced (s : config_state) fs : Prop :=
  exists content c, fs (cs_cfgPath s) = Some (content, cs_lastModTime s) /\
    cs_cfg s = Some c /\ Decode content Config_Default = inl c.

(** A tick that meets no writer brings the configuration to the file: when the
    file decodes, and a write moves its time forward, the state is in step with
    the file after the tick; when it does not decode, nothing changes. *)
Lemma reload_follows s fs fs' :
  cs_stopChan s = OpenChan -> cs_cfgPath s <> EmptyString -> synced s fs ->
  (forall content t, fs' (cs_cfgPath s) = Some (content, t) ->
     cs_lastModTime s < t \/ fs' (cs_cfgPath s) = fs (cs_cfgPath s)) ->
  let s' := reload_tick s (fs', fs', fs') in
  (forall content t c, fs' (cs_cfgPath s) = Some (content, t) ->
     Decode content Config_Default = inl c -> synced s' fs') /\
  (forall content t err, fs' (cs_cfgPath s) = Some (content, t) ->
     Decode content Config_Default = inr err -> s' = s).
Proof.
  intros Ho Hp Hs Hfs s'. subst s'. unfold reload_tick, reloadIfNeeded. rewrite Ho.
  rewrite decide_False by done. split.
  - intros content t c Hf Hd. rewrite Hf. destruct (Z.gtb_spec t (cs_lastModTime s)) as [Hgt|Hle].
    + unfold Load. rewrite Hf, Hd. simpl. by exists content, c.
    + destruct (Hfs content t Hf) as [?|E]; [lia|].
      destruct Hs as (content0 & c0 & Hc & Hrest). exists content0, c0. by rewrite E.
  - intros content t err Hf Hd. rewrite Hf. destruct (_ >? _); [|done].
    unfold Load. by rewrite Hf, Hd.
Qed.

(** A write between the opening of the file and its [Stat] is never loaded:
    the time remembered is that of the new content. *)
Lemma Load_misses_write s path content1 content2 t1 t2 c fs1 fs2 :
  path <> EmptyString -> fs1 path = Some (content1, t1) -> fs2 path = Some (content2, t2) ->
  Decode content1 Config_Default = inl c ->
  let s' := (Load fs1 fs2 s path).1 in
  forall n, cs_cfg (Nat.iter n (fun s => reload_tick s (fs2, fs2, fs2)) s') = Some c.
Proof.
  intros Hp H1 H2 Hd s' n. assert (s' = mkConfigState (Some c) path t2 (cs_stopChan s)) as ->.
  { subst s'. unfold Load. by rewrite H1, Hd, H2. }
  assert (forall m, Nat.iter m (fun s => reload_tick s (fs2, fs2, fs2))
    (mkConfigState (Some c) path t2 (cs_stopChan s)) =
    mkConfigState (Some c) path t2 (cs_stopChan s)) as Hfix; [|by rewrite Hfix].
  induction m as [|m IH]; [done|]. rewrite Nat.iter_succ, IH. unfold reload_tick, reloadIfNeeded.
  simpl. rewrite decide_False, H2 by done.
  assert (t2 >? t2 = false) as -> by (destruct (Z.gtb_spec t2 t2); [lia|done]).
  by destruct (cs_stopChan s).
Qed.
End config.
