(* ===== verification/Logger.v ===== *)
(** * pkg/logger: which file a line goes to

    config.go (levels, files, the builder), logger.go (the writers, their
    filter, the daily rotation, closing), compat.go (the old printing
    interface) and main's [initLogger].  zerolog is used as documented: an
    event below the global level is dropped, a [MultiLevelWriter] gives each of
    its writers the line with its level, a writer without levels takes every
    line.  Creating directories, rotating files and printing arguments (fmt)
    are arguments. *)

From Stdlib Require Import ZArith Lia Ascii.
From stdpp Require Import gmap strings list.
From S2P Require Import Prelude GoStrings Config.
Local Open Scope Z_scope.

(** ** Levels

    [zerolog.Level] is an int8 with these values. *)
Definition TraceLevel : Z := -1.
Definition DebugLevel : Z := 0.
Definition InfoLevel : Z := 1.
Definition WarnLevel : Z := 2.
Definition ErrorLevel : Z := 3.
Definition FatalLevel : Z := 4.
Definition PanicLevel : Z := 5.

Definition DEBUG : string := "debug".
Definition INFO : string := "info".
Definition WARN : string := "warn".
Definition ERROR : string := "error".
Definition FATAL : string := "fatal".

(** The global level it sets. *)
Definition setLogLevel (level : string) : Z :=
  if decide (level = DEBUG) then DebugLevel
  else if decide (level = INFO) then InfoLevel
  else if decide (level = WARN) then WarnLevel
  else if decide (level = ERROR) then ErrorLevel
  else if decide (level = FATAL) then FatalLevel
  else InfoLevel.

Definition parseLevel (levelName : string) : Z :=
  if decide (levelName ∈ ["debug"; "DEBUG"]) then DebugLevel
  else if decide (levelName ∈ ["info"; "INFO"]) then InfoLevel
  else if decide (levelName ∈ ["warn"; "WARN"]) then WarnLevel
  else if decide (levelName ∈ ["error"; "ERROR"]) then ErrorLevel
  else if decide (levelName ∈ ["fatal"; "FATAL"]) then FatalLevel
  else InfoLevel.

(** ** Configuration *)

Record LevelFileEntry := mkLevelFileEntry { le_Level : string; le_Path : string }.
Definition LevelFiles : Type := list LevelFileEntry.

Definition LevelFiles_IsEmpty (lf : LevelFiles) : bool := (length lf =? 0)%nat.

Fixpoint GetPath (lf : LevelFiles) (level : string) : string * bool :=
  match lf with
  | [] => (EmptyString, false)
  | entry :: lf => if decide (le_Level entry = level) then (le_Path entry, true) else GetPath lf level
  end.

Fixpoint HasLevel (lf : LevelFiles) (level : string) : bool :=
  match lf with
  | [] => false
  | entry :: lf => if decide (le_Level entry = level) then true else HasLevel lf level
  end.

Definition GetPaths (lf : LevelFiles) : list string := map le_Path lf.

Record log_config := mkLogConfig {
  lc_LevelFiles : LevelFiles;
  lc_MaxSize : Z;
  lc_MaxBackups : Z;
  lc_MaxAge : Z;
  lc_Level : string;
  lc_Compress : bool;
  lc_Console : bool;
}.

Definition DefaultConfig : log_config :=
  mkLogConfig [mkLevelFileEntry ERROR "logs/err.log"; mkLevelFileEntry INFO "logs/info.log"]
    10 100 5 INFO false false.

(** The builder holds the configuration it builds. *)
Definition NewBuilder : log_config := DefaultConfig.
Definition SetMaxSize (size : Z) (b : log_config) : log_config :=
  mkLogConfig (lc_LevelFiles b) size (lc_MaxBackups b) (lc_MaxAge b) (lc_Level b) (lc_Compress b) (lc_Console b).
Definition SetMaxBackups (backups : Z) (b : log_config) : log_config :=
  mkLogConfig (lc_LevelFiles b) (lc_MaxSize b) backups (lc_MaxAge b) (lc_Level b) (lc_Compress b) (lc_Console b).
Definition SetMaxAge (days : Z) (b : log_config) : log_config :=
  mkLogConfig (lc_LevelFiles b) (lc_MaxSize b) (lc_MaxBackups b) days (lc_Level b) (lc_Compress b) (lc_Console b).
Definition SetLevel (level : string) (b : log_config) : log_config :=
  mkLogConfig (lc_LevelFiles b) (lc_MaxSize b) (lc_MaxBackups b) (lc_MaxAge b) level (lc_Compress b) (lc_Console b).
Definition EnableCompression (enable : bool) (b : log_config) : log_config :=
  mkLogConfig (lc_LevelFiles b) (lc_MaxSize b) (lc_MaxBackups b) (lc_MaxAge b) (lc_Level b) enable (lc_Console b).
Definition EnableConsoleOutput (enable : bool) (b : log_config) : log_config :=
  mkLogConfig (lc_LevelFiles b) (lc_MaxSize b) (lc_MaxBackups b) (lc_MaxAge b) (lc_Level b) (lc_Compress b) enable.
Definition SetLevelFiles (files : LevelFiles) (b : log_config) : log_config :=
  mkLogConfig files (lc_MaxSize b) (lc_MaxBackups b) (lc_MaxAge b) (lc_Level b) (lc_Compress b) (lc_Console b).
Definition AddLevelFile (level path : string) (b : log_config) : log_config :=
  SetLevelFiles (lc_LevelFiles b ++ [mkLevelFileEntry level path]) b.

(** What main builds from the service's configuration. *)
Definition main_log_config (cfg : Config) : log_config :=
  let l := cfg_Logger cfg in
  EnableConsoleOutput (lo_Console l) (EnableCompression (lo_Compress l) (SetLevel (lo_Level l)
    (SetMaxAge (lo_MaxAge l) (SetMaxBackups (lo_MaxBackups l) (SetMaxSize (lo_MaxSize l) NewBuilder))))).

(** ** Writers *)

(** A rolling file of lumberjack, by its settings. *)
Record Lumberjack := mkLumberjack {
  lj_Filename : string;
  lj_MaxSize : Z;
  lj_MaxBackups : Z;
  lj_MaxAge : Z;
  lj_Compress : bool;
}.

Definition createLumberjackWriter (filePath : string) (config : log_config) : Lumberjack :=
  mkLumberjack filePath (lc_MaxSize config) (lc_MaxBackups config) (lc_MaxAge config) (lc_Compress config).

Inductive sink : Type :=
| LevelFilterWriter (level configuredLevels : Z) (file : Lumberjack)
| Console.

Definition wrap_uint8 (x : Z) : Z := x mod 256.

(** [1 << level], an uint8: a negative count panics. *)
Definition shift_bit (level : Z) : outcome Z :=
  if level <? 0 then Panic else Ret (wrap_uint8 (Z.shiftl 1 level)).

(** The bit mask of the levels that have a file; parsed levels are not negative. *)
Definition configured_levels (files : LevelFiles) : Z :=
  fold_left (fun mask entry => Z.lor mask (wrap_uint8 (Z.shiftl 1 (parseLevel (le_Level entry))))) files 0.

(** Whether the writer's file gets a line of that level. *)
Definition WriteLevel (own configuredLevels level : Z) : outcome bool :=
  if level =? own then Ret true
  else if own =? InfoLevel then
    bit ← shift_bit level;
    Ret (Z.land configuredLevels bit =? 0)
  else if own =? ErrorLevel then
    if level =? FatalLevel then
      bit ← shift_bit level;
      Ret (Z.land configuredLevels bit =? 0)
    else Ret false
  else Ret false.

Definition sink_takes (level : Z) (s : sink) : outcome bool :=
  match s with
  | LevelFilterWriter own configuredLevels _ => WriteLevel own configuredLevels level
  | Console => Ret true
  end.

Definition log_sinks (config : log_config) : list sink :=
  let configuredLevels := configured_levels (lc_LevelFiles config) in
  map (fun entry => LevelFilterWriter (parseLevel (le_Level entry)) configuredLevels
                      (createLumberjackWriter (le_Path entry) config)) (lc_LevelFiles config)
  ++ (if lc_Console config then [Console] else []).

(** The sinks that get a line, in their order. *)
Fixpoint route (sinks : list sink) (level : Z) : outcome (list sink) :=
  match sinks with
  | [] => Ret []
  | s :: sinks =>
      takes ← sink_takes level s;
      rest ← route sinks level;
      Ret (if takes : bool then s :: rest else rest)
  end.

(** ** The package's variables *)

Record logger_state := mkLoggerState {
  lg_writers : gmap string Lumberjack;             (* lumberjackWriters *)
  lg_sinks : list sink;                            (* multiLevelWriter *)
  lg_level : Z;                                    (* the global level *)
  lg_date : string;                                (* currentDate *)
  lg_watching : bool;                              (* checkDateChange runs *)
  lg_closed : list Lumberjack;                     (* files closed, in order *)
}.

(** Before [initLogger]: zerolog's own defaults write to stderr. *)
Definition logger_start : logger_state := mkLoggerState ∅ [] TraceLevel EmptyString false [].

Section logger.
Context `{MapRange}.

Definition closeAllWriters (st : logger_state) : logger_state :=
  mkLoggerState ∅ (lg_sinks st) (lg_level st) (lg_date st) (lg_watching st)
    (lg_closed st ++ (go_range (lg_writers st)).*2).

(** The map keeps, of two entries with the same level, the second; both write. *)
Definition setWriter (config : log_config) (st : logger_state) : logger_state :=
  let newLumberjackWriters := fold_left (fun m entry =>
    <[le_Level entry := createLumberjackWriter (le_Path entry) config]> m) (lc_LevelFiles config) ∅ in
  let st := closeAllWriters st in
  mkLoggerState newLumberjackWriters (log_sinks config) (lg_level st) (lg_date st) (lg_watching st)
    (lg_closed st).

Fixpoint make_dirs (MkdirAll : string -> error) (paths : list string) : error :=
  match paths with
  | [] => nil_error
  | p :: paths => match MkdirAll p with Some err => Some err | None => make_dirs MkdirAll paths end
  end.

(** The files used when the configuration has none. *)
Definition with_default_file (config : log_config) : log_config :=
  if LevelFiles_IsEmpty (lc_LevelFiles config)
  then SetLevelFiles [mkLevelFileEntry INFO "logs/info.log"] config else config.

Definition initLogger (MkdirAll : string -> error) (today : string) (config : log_config)
    (st : logger_state) : logger_state * error :=
  let st := mkLoggerState (lg_writers st) (lg_sinks st) (setLogLevel (lc_Level config)) today
              (lg_watching st) (lg_closed st) in
  let config := with_default_file config in
  match make_dirs MkdirAll (GetPaths (lc_LevelFiles config)) with
  | Some err => (st, Some err)
  | None =>
      let st := setWriter config st in
      (mkLoggerState (lg_writers st) (lg_sinks st) (lg_level st) (lg_date st) true (lg_closed st), nil_error)
  end.

(** The attempts of [rotateAllFiles]: [attempts] gives, per attempt, what
    rotating a file answers. *)
Fixpoint rotate_attempts (attempts : list (Lumberjack -> error)) (config : log_config)
    (st : logger_state) : logger_state :=
  match attempts with
  | [] => st
  | rotate :: attempts =>
      if existsb (fun lj => bool_decide (rotate lj <> nil_error)) (go_range (lg_writers st)).*2
      then rotate_attempts attempts config st
      else setWriter config st
  end.
Definition rotateAllFiles (rotate : nat -> Lumberjack -> error) (config : log_config)
    (st : logger_state) : logger_state :=
  rotate_attempts (map rotate (seq 0 3)) config st.

(** A tick of the goroutine that checkDateChange runs in. *)
Definition date_tick (rotate : nat -> Lumberjack -> error) (newDate : string) (config : log_config)
    (st : logger_state) : logger_state :=
  if negb (lg_watching st) then st
  else if decide (newDate = lg_date st) then st
  else rotateAllFiles rotate config
         (mkLoggerState (lg_writers st) (lg_sinks st) (lg_level st) newDate true (lg_closed st)).

(** [waiting]: the goroutine is at its [select], so that the send succeeds. *)
Definition logger_Close (waiting : bool) (st : logger_state) : logger_state :=
  let st := mkLoggerState (lg_writers st) (lg_sinks st) (lg_level st) (lg_date st)
              (lg_watching st && negb waiting) (lg_closed st) in
  if (0 <? size (lg_writers st))%nat then closeAllWriters st else st.
End logger.

(** The sinks an event of the service reaches. *)
Definition log_event (st : logger_state) (level : Z) : outcome (list sink) :=
  if level <? lg_level st then Ret [] else route (lg_sinks st) level.

(** ** The old printing interface (compat.go) *)

Fixpoint hasFormatVerb (s : string) : bool :=
  match s with
  | EmptyString => false
  | String c rest =>
      if decide (c = "%"%char) then
        match rest with
        | String c' rest' => if decide (c' = "%"%char) then hasFormatVerb rest' else true
        | EmptyString => true
        end
      else hasFormatVerb rest
  end.

Section compat.
Context {any : Type} (Sprint : any -> string) (Sprintf : string -> list any -> string).

(** The message of an event; a format that is no string is printed like an
    argument. *)
Definition logf (format : string + any) (args : list any) : string :=
  let joined first := fold_left (fun b a => b +:+ " " +:+ Sprint a) args first in
  match format with
  | inl formatStr =>
      match args with
      | [] => formatStr
      | _ => if hasFormatVerb formatStr then Sprintf formatStr args else joined formatStr
      end
  | inr format => joined (Sprint format)
  end.

(** The level of the event each function writes, and its message. *)
Definition Printf format args : Z * string := (InfoLevel, logf format args).
Definition Infof format args : Z * string := (InfoLevel, logf format args).
Definition Debugf format args : Z * string := (DebugLevel, logf format args).
Definition Warnf format args : Z * string := (WarnLevel, logf format args).
Definition Errorf format args : Z * string := (ErrorLevel, logf format args).
Definition Fatalf format args : Z * string := (FatalLevel, logf format args).
Definition Panicf format args : Z * string := (PanicLevel, logf format args).
End compat.

(** ** The bit mask *)

Lemma parseLevel_bounds name : 0 <= parseLevel name <= 4.
Proof. unfold parseLevel. repeat (destruct (decide _); [unfold DebugLevel, InfoLevel, WarnLevel, ErrorLevel, FatalLevel; lia|]). done. Qed.

Lemma shift_one level : 0 <= level < 8 -> wrap_uint8 (Z.shiftl 1 level) = 2 ^ level.
Proof.
  intros Hl. unfold wrap_uint8. rewrite Z.shiftl_1_l. apply Z.mod_small. split; [lia|].
  change 256 with (2 ^ 8). apply Z.pow_lt_mono_r; lia.
Qed.

Definition has_level (files : LevelFiles) (level : Z) : bool :=
  existsb (fun entry => parseLevel (le_Level entry) =? level) files.

Lemma configured_testbit files level : 0 <= level < 8 ->
  Z.testbit (configured_levels files) level = has_level files level.
Proof.
  intros Hl. unfold configured_levels.
  enough (H0 : forall mask, Z.testbit (fold_left (fun mask entry =>
      Z.lor mask (wrap_uint8 (Z.shiftl 1 (parseLevel (le_Level entry))))) files mask) level
    = Z.testbit mask level || has_level files level) by by rewrite H0, Z.bits_0.
  induction files as [|entry files IH]; intros mask; cbn [fold_left has_level existsb]; [by rewrite orb_false_r|].
  rewrite IH, Z.lor_spec. pose proof (parseLevel_bounds (le_Level entry)).
  rewrite shift_one, Z.pow2_bits_eqb, orb_assoc by lia. done.
Qed.

Lemma land_bit mask level : 0 <= level ->
  (Z.land mask (2 ^ level) =? 0) = negb (Z.testbit mask level).
Proof.
  intros Hl. destruct (Z.testbit mask level) eqn:E; simpl.
  - apply Z.eqb_neq. intros H0. assert (Z.testbit (Z.land mask (2 ^ level)) level = false) as Hb
      by by rewrite H0, Z.bits_0.
    rewrite Z.land_spec, E, Z.pow2_bits_true in Hb by done. discriminate Hb.
  - apply Z.eqb_eq, Z.bits_inj'. intros n Hn. rewrite Z.land_spec, Z.bits_0.
    destruct (Z.eq_dec n level) as [->|Hne]; [by rewrite E|]. by rewrite Z.pow2_bits_false, andb_false_r by done.
Qed.

(** The file of an entry gets a line of its own level; the files of INFO those
    of the levels that have no file, and the files of ERROR the fatal ones of
    them. *)
Definition takes (files : LevelFiles) (own level : Z) : bool :=
  (level =? own)
  || (negb (has_level files level)
      && ((own =? InfoLevel) || ((own =? ErrorLevel) && (level =? FatalLevel)))).

Lemma WriteLevel_spec files own level : 0 <= level < 8 ->
  WriteLevel own (configured_levels files) level = Ret (takes files own level).
Proof.
  intros Hl. unfold WriteLevel, takes, shift_bit. rewrite (proj2 (Z.ltb_ge level 0)) by lia.
  destruct (Z.eqb_spec level own) as [|Hne]; [done|]. cbn [mbind outcome_bind orb].
  rewrite shift_one, land_bit, configured_testbit by lia.
  destruct (Z.eqb_spec own InfoLevel) as [->|]; [by rewrite andb_true_r|].
  destruct (Z.eqb_spec own ErrorLevel); cbn [orb andb]; [|by rewrite andb_false_r].
  destruct (level =? FatalLevel); [by rewrite andb_true_r|by rewrite andb_false_r].
Qed.

(** ** Which lines go where *)

Definition entry_sink (config : log_config) (entry : LevelFileEntry) : sink :=
  LevelFilterWriter (parseLevel (le_Level entry)) (configured_levels (lc_LevelFiles config))
    (createLumberjackWriter (le_Path entry) config).

Lemma route_app sinks1 sinks2 level l1 l2 :
  route sinks1 level = Ret l1 -> route sinks2 level = Ret l2 -> route (sinks1 ++ sinks2) level = Ret (l1 ++ l2).
Proof.
  intros H1 H2. revert l1 H1. induction sinks1 as [|s sinks1 IH]; intros l1; simpl.
  { by intros [= <-]. }
  destruct (sink_takes level s) as [b|]; [|done]. simpl.
  destruct (route sinks1 level) as [l|]; [|done]. simpl. intros [= <-].
  rewrite (IH l eq_refl). simpl. by destruct b.
Qed.

Lemma route_entries config files level : 0 <= level < 8 ->
  route (map (entry_sink config) files) level =
  Ret (map (entry_sink config)
         (filter (fun entry => takes (lc_LevelFiles config) (parseLevel (le_Level entry)) level) files)).
Proof.
  intros Hl. induction files as [|entry files IH]; [done|]. cbn [map route sink_takes entry_sink].
  rewrite WriteLevel_spec by done. cbn [mbind outcome_bind]. rewrite IH. cbn [mbind outcome_bind].
  rewrite filter_cons. by destruct (takes _ _ _).
Qed.

(** The sinks of a line, for every level zerolog writes but trace: the files
    that take its level, in the order of the configuration, and the console. *)
Theorem route_files config level : 0 <= level < 8 ->
  route (log_sinks config) level =
  Ret (map (entry_sink config)
         (filter (fun entry => takes (lc_LevelFiles config) (parseLevel (le_Level entry)) level)
            (lc_LevelFiles config))
       ++ (if lc_Console config then [Console] else [])).
Proof.
  intros Hl. unfold log_sinks. apply route_app; [|by destruct (lc_Console config)].
  by apply route_entries.
Qed.

(** No line is lost, and none is written to a file of another level that is
    configured: with a file for INFO, each line that passes the global level
    reaches a file; when its own level has a file, those files alone. *)
Theorem no_line_lost config level : 0 <= level < 8 -> has_level (lc_LevelFiles config) InfoLevel = true ->
  exists entry, entry ∈ lc_LevelFiles config /\
    takes (lc_LevelFiles config) (parseLevel (le_Level entry)) level = true /\
    (has_level (lc_LevelFiles config) level = true ->
     forall e, e ∈ lc_LevelFiles config ->
       takes (lc_LevelFiles config) (parseLevel (le_Level e)) level = (level =? parseLevel (le_Level e))).
Proof.
  intros Hl Hinfo. destruct (has_level (lc_LevelFiles config) level) eqn:E.
  - pose proof E as (entry & Hin & He)%existsb_exists. apply Z.eqb_eq in He.
    exists entry. split; [by apply list_elem_of_In|]. unfold takes. rewrite He, Z.eqb_refl, E. split; [done|].
    intros _ e _. by rewrite orb_false_r.
  - apply existsb_exists in Hinfo as (entry & Hin & He). apply Z.eqb_eq in He.
    exists entry. split; [by apply list_elem_of_In|]. unfold takes. rewrite He, E. split; [|done].
    by rewrite orb_true_r.
Qed.

(** With the default files, warnings go to the INFO file, errors to their own,
    fatal lines to both. *)
Definition sink_file (s : sink) : string :=
  match s with LevelFilterWriter _ _ file => lj_Filename file | Console => "console" end.

Example default_routes :
  map (fun level => sinks ← route (log_sinks DefaultConfig) level; Ret (map sink_file sinks))
    [DebugLevel; WarnLevel; ErrorLevel; FatalLevel] =
  [Ret ["logs/info.log"%string]; Ret ["logs/info.log"%string]; Ret ["logs/err.log"%string];
   Ret ["logs/err.log"%string; "logs/info.log"%string]].
Proof. vm_compute. reflexivity. Qed.

(** Levels in capitals name files but are no global level. *)
Example capital_level : parseLevel "DEBUG" = DebugLevel /\ setLogLevel "DEBUG" = InfoLevel.
Proof. by vm_compute. Qed.

(** ** Rotation *)
Section rotation.
Context `{MapRange}.

(** After a rotation, either the files are those of the configuration, freshly
    opened, and the old ones are closed; or each attempt failed on some file and
    the same files go on. *)
Theorem rotateAllFiles_outcomes rotate config st :
  rotateAllFiles rotate config st = setWriter config st \/
  rotateAllFiles rotate config st = st /\
    forall n, (n < 3)%nat -> exists level lj, lg_writers st !! level = Some lj /\ rotate n lj <> nil_error.
Proof.
  enough (H0 : forall ns, rotate_attempts (map rotate ns) config st = setWriter config st \/
    rotate_attempts (map rotate ns) config st = st /\
    Forall (fun n => exists level lj, lg_writers st !! level = Some lj /\ rotate n lj <> nil_error) ns).
  { destruct (H0 (seq 0 3)) as [|[? Hf]]; [by left|right]. split; [done|].
    intros n Hn. rewrite Forall_forall in Hf. apply Hf, elem_of_seq. lia. }
  intros ns.
  induction ns as [|n ns IH]; [by right|]. cbn [map rotate_attempts].
  destruct (existsb _ _) eqn:E; [|by left]. destruct IH as [|[IH1 IH2]]; [by left|right].
  split; [done|]. constructor; [|done]. apply existsb_exists in E as (lj & Hin & Hlj).
  apply list_elem_of_In, list_elem_of_fmap in Hin as ([level lj'] & -> & Hin). apply elem_of_go_range in Hin.
  exists level, lj'. split; [done|]. by apply bool_decide_eq_true in Hlj.
Qed.
End rotation.

(** ** Format verbs *)

(** Texts in which every percent sign is doubled. *)
Inductive no_verb : string -> Prop :=
| no_verb_nil : no_verb EmptyString
| no_verb_char c s : c <> "%"%char -> no_verb s -> no_verb (String c s)
| no_verb_percent s : no_verb s -> no_verb (String "%" (String "%" s)).

Theorem hasFormatVerb_spec s : hasFormatVerb s = false <-> no_verb s.
Proof.
  split.
  - remember (String.length s) as n eqn:En. revert s En. induction n as [n IH] using lt_wf_ind.
    intros [|c s] ->; [constructor|]. cbn [hasFormatVerb]. destruct (decide _) as [->|Hc].
    + destruct s as [|c' s]; [done|]. destruct (decide _) as [->|]; [|done].
      intros Hs. apply no_verb_percent. by apply (IH (String.length s)); [simpl; lia|..].
    + intros Hs. constructor; [done|]. by apply (IH (String.length s)); [simpl; lia|..].
  - induction 1 as [|c s Hc _ IH|s _ IH]; [done| |exact IH]. cbn [hasFormatVerb]. by rewrite decide_False.
Qed.
