(* ===== verification/Connect.v ===== *)
(** * internal/dal/db.go: the connection to MySQL

    What the driver, gorm and its resolver plugin answer is an argument; the
    settings they are given are the result. *)

From Stdlib Require Import ZArith Lia.
From stdpp Require Import gmap strings list.
From S2P Require Import Prelude GoStrings Models Config.
Local Open Scope Z_scope.

(** The settings of a pool of connections. *)
Record pool_settings := mkPoolSettings {
  ps_MaxIdleConns : Z;
  ps_MaxOpenConns : Z;
  ps_ConnMaxIdleTime : Z;
  ps_ConnMaxLifetime : Z;
}.

(** An opened database: its data source, whether it dials through the proxy,
    the pool of the master, the replicas with theirs. *)
Record gorm_DB := mkGormDB {
  db_DSN : string;
  db_proxy : option string;
  db_master : pool_settings;
  db_replicas : list string * option pool_settings;
  db_open : bool;
}.

(** What the libraries answer: the SOCKS5 dialer, [gorm.Open], [db.Use],
    [db.DB]. *)
Class DbLibrary := {
  lib_SOCKS5 : string -> error;
  lib_Open : string -> error;
  lib_Use : list string -> error;
  lib_DB : string -> error;
}.

Section connect.
Context `{DbLibrary}.

Definition registerProxyDialer (proxyAddr : string) : error :=
  match lib_SOCKS5 proxyAddr with
  | Some err => Some ("create proxy dialer failed: " +:+ err)
  | None => nil_error
  end.

(** A setting in seconds, or the default when it is not positive. *)
Definition seconds_or (seconds default : Z) : Z :=
  if 0 <? seconds then seconds * Second else default.

Definition pool_of (cfg : MySQL) : pool_settings :=
  mkPoolSettings (my_MaxIdleConnections cfg) (my_MaxOpenConnections cfg)
    (seconds_or (my_SetConnMaxIdleTime cfg) Hour) (seconds_or (my_SetConnMaxLifetime cfg) (2 * Hour)).

(** Every failure panics. *)
Definition connectMySQL (cfg : MySQL) : outcome gorm_DB :=
  match (if my_ProxyEnabled cfg then registerProxyDialer (my_ProxyAddr cfg) else nil_error) with
  | Some _ => Panic
  | None =>
      match lib_Open (my_DSN cfg) with
      | Some _ => Panic
      | None =>
          let replicated := negb (bool_decide (my_SlaveAddr cfg = [])) in
          match (if replicated then lib_Use (my_SlaveAddr cfg) else nil_error) with
          | Some _ => Panic
          | None =>
              match lib_DB (my_DSN cfg) with
              | Some _ => Panic
              | None =>
                  Ret (mkGormDB (my_DSN cfg)
                         (if my_ProxyEnabled cfg then Some (my_ProxyAddr cfg) else None)
                         (pool_of cfg)
                         (my_SlaveAddr cfg, if replicated then Some (pool_of cfg) else None) true)
              end
          end
      end
  end.

(** The package variable behind [mysqlDBOnce]: a second call changes nothing,
    whatever it asks for, and neither does one after a panic ([sync.Once]
    counts a panic as done). *)
Record dal_state := mkDal { dal_once : bool; dal_mysqlDB : option gorm_DB }.
Definition dal_start : dal_state := mkDal false None.

Definition InitMysqlDB (s : dal_state) (cfg : MySQL) : outcome dal_state :=
  if dal_once s then Ret s
  else db ← connectMySQL cfg; Ret (mkDal true (Some db)).

Definition MySQL_db (s : dal_state) : option gorm_DB := dal_mysqlDB s.

(** [CloseMySQL]: the pool is closed; the variable keeps it. *)
Definition CloseMySQL_db (s : dal_state) : dal_state :=
  mkDal (dal_once s)
    ((fun db => mkGormDB (db_DSN db) (db_proxy db) (db_master db) (db_replicas db)
                  (match lib_DB (db_DSN db) with Some _ => db_open db | None => false end))
     <$> dal_mysqlDB s).

(** The tables [AutoMigrate] creates, and what it logs for each. *)
Definition migrated_tables : list string :=
  ["hl_watch_addresses"; "hl_position_cache"; "hl_order_aggregation"; "hl_address_signals"].
Definition AutoMigrate (migrate : string -> error) (s : dal_state) : list (string * bool) :=
  match dal_mysqlDB s with
  | None => []
  | Some _ => map (fun t => (t, match migrate t with None => true | Some _ => false end)) migrated_tables
  end.

(** A connected service has a pool for its master, and one with the same
    settings for its replicas exactly when it has some; the times are positive
    whatever the file says. *)
Lemma connectMySQL_settings cfg db : connectMySQL cfg = Ret db ->
  db_master db = pool_of cfg /\ 0 < ps_ConnMaxIdleTime (db_master db) /\
  0 < ps_ConnMaxLifetime (db_master db) /\
  (db_replicas db).2 = (if decide (my_SlaveAddr cfg = []) then None else Some (db_master db)) /\
  (db_proxy db = if my_ProxyEnabled cfg then Some (my_ProxyAddr cfg) else None).
Proof.
  unfold connectMySQL. destruct (if my_ProxyEnabled cfg then _ else _); [done|].
  destruct (lib_Open _); [done|]. destruct (if negb _ then _ else _); [done|].
  destruct (lib_DB _); [done|]. intros [= <-]. simpl.
  assert (Hs : forall s d, 0 < d -> 0 < seconds_or s d).
  { intros s d Hd. unfold seconds_or, Second. destruct (Z.ltb_spec 0 s); lia. }
  split_and!; [done|apply Hs; vm_compute; done..| |done].
  case_decide as E; [by rewrite bool_decide_true|by rewrite bool_decide_false].
Qed.
End connect.
