(* ===== verification/WaitGroup.v ===== *)
(** * pkg/goplus: counted goroutines

    group.go and recover.go: a wait group with a count of its goroutines.  A
    goroutine of [Go] ends by returning or by a panic, which [Recover] logs;
    [Done] has been deferred after it and so runs first.  A run is a sequence
    of the calls and of the ends of goroutines. *)

From Stdlib Require Import ZArith Lia.
From stdpp Require Import gmap list strings.
From S2P Require Import Prelude.
Local Open Scope Z_scope.

Record WaitGroup := mkWaitGroup {
  wg_wg : Z;                    (* the counter of sync.WaitGroup *)
  wg_CurrentGoCount : Z;
}.

Definition NewWaitGroup : WaitGroup := mkWaitGroup 0 0.
Definition WaitGroup_Add (s : WaitGroup) : WaitGroup :=
  mkWaitGroup (wg_wg s + 1) (wg_CurrentGoCount s + 1).
(** [sync.WaitGroup] panics when its counter becomes negative. *)
Definition WaitGroup_Done (s : WaitGroup) : outcome WaitGroup :=
  if wg_wg s - 1 <? 0 then Panic else Ret (mkWaitGroup (wg_wg s - 1) (wg_CurrentGoCount s - 1)).
(** Whether [Wait] returns now. *)
Definition WaitGroup_Wait (s : WaitGroup) : bool := bool_decide (wg_wg s = 0).

(** How the function of a goroutine ends. *)
Inductive ending : Type := Returns | Panics (reason : string).

(** The group, its goroutines that have not ended, and what [Recover] logged. *)
Record group := mkGroup {
  gr_group : WaitGroup;
  gr_live : gset nat;
  gr_next : nat;
  gr_log : list string;
}.
Definition new_group : group := mkGroup NewWaitGroup ∅ 0 [].

(** [Recover]: a panic is logged, and goes no further. *)
Definition Recover (e : ending) (log : list string) : list string :=
  match e with Returns => log | Panics reason => log ++ [reason] end.

Inductive group_event : Type :=
| GoCall                           (* Go(fn) *)
| GoEnds (i : nat) (e : ending).   (* the goroutine of the i-th call ends *)

Definition group_exec (g : group) (e : group_event) : outcome group :=
  match e with
  | GoCall => Ret (mkGroup (WaitGroup_Add (gr_group g)) ({[ gr_next g ]} ∪ gr_live g)
                     (S (gr_next g)) (gr_log g))
  | GoEnds i e =>
      if decide (i ∈ gr_live g)
      then s ← WaitGroup_Done (gr_group g);
           Ret (mkGroup s (gr_live g ∖ {[ i ]}) (gr_next g) (Recover e (gr_log g)))
      else Ret g
  end.

Definition group_run (g : group) (evs : list group_event) : outcome group :=
  fold_left (fun o e => g ← o; group_exec g e) evs (Ret g).

Record group_ok (g : group) : Prop := {
  gok_wg : wg_wg (gr_group g) = Z.of_nat (size (gr_live g));
  gok_count : wg_CurrentGoCount (gr_group g) = Z.of_nat (size (gr_live g));
  gok_next : forall i, i ∈ gr_live g -> (i < gr_next g)%nat;
}.

Lemma group_exec_ok g e : group_ok g -> returns (group_exec g e) group_ok.
Proof.
  intros [H1 H2 H3]. destruct e as [|i e]; simpl.
  - apply returns_ret. assert (gr_next g ∉ gr_live g) as Hn by (intros Hi%H3; lia).
    constructor; simpl.
    + rewrite size_union by set_solver. rewrite size_singleton. lia.
    + rewrite size_union by set_solver. rewrite size_singleton. lia.
    + intros i [->%elem_of_singleton|Hi%H3]%elem_of_union; lia.
  - destruct (decide (i ∈ gr_live g)) as [Hi|Hi]; [|by apply returns_ret].
    assert (Hs : size (gr_live g) = S (size (gr_live g ∖ {[ i ]}))).
    { rewrite size_difference by set_solver. rewrite size_singleton.
      assert (size (gr_live g) <> 0)%nat by (intros Hz%size_empty_inv; set_solver). lia. }
    unfold WaitGroup_Done. destruct (Z.ltb_spec (wg_wg (gr_group g) - 1) 0); [lia|].
    apply returns_ret. constructor; simpl; [lia|lia|].
    intros j Hj. apply H3. set_solver.
Qed.

(** Every run of [Go] calls and ends of goroutines goes on: the counter never
    becomes negative, no panic leaves its goroutine, [CurrentGoCount] is the
    number of goroutines that run, and [Wait] returns exactly when none does. *)
Lemma group_counts evs :
  returns (group_run new_group evs) (fun g =>
    wg_CurrentGoCount (gr_group g) = Z.of_nat (size (gr_live g)) /\
    (WaitGroup_Wait (gr_group g) = true <-> gr_live g = ∅)).
Proof.
  eapply returns_mono; [apply (returns_fold_left group_ok)|].
  - intros g e _. apply group_exec_ok.
  - constructor; simpl; [done..|]. set_solver.
  - intros g [H1 H2 _]. split; [done|]. unfold WaitGroup_Wait. rewrite bool_decide_eq_true, H1.
    split; [|by intros ->]. intros Hz.
    apply leibniz_equiv, size_empty_inv. lia.
Qed.
