(* ===== verification/Monitor.v ===== *)
(** * internal/monitor: metrics and the health server, internal/nats/publisher.go

    The collectors of Prometheus are descriptions; what a method of [Metrics]
    does is the list of operations it makes on them, which the client library
    carries out (it panics on a second collector of a name and on a wrong number
    of label values).  The health server answers from its flag, the pool, the
    publisher and the subscription manager.  The formatted times of the status
    are kept as instants and durations. *)

From Stdlib Require Import ZArith Lia.
From Stdlib Require Import Floats.SpecFloat.
From stdpp Require Import gmap strings list.
From S2P Require Import Prelude Float64 GoStrings Models WsPool Config.
Local Open Scope Z_scope.

(** ** Collectors *)
Inductive CollectorKind : Type := Counter | CounterVec | Gauge | Histogram.

#[export] Instance CollectorKind_eq_dec : EqDecision CollectorKind.
Proof. solve_decision. Defined.

Record Collector := mkCollector {
  co_kind : CollectorKind;
  co_namespace : string;
  co_name : string;
  co_labels : list string;
  co_buckets : list float64;
}.

Definition fqName (c : Collector) : string := co_namespace c +:+ "_" +:+ co_name c.

Inductive metric_op : Type :=
| OpSet (c : Collector) (v : float64)
| OpAdd (c : Collector) (labels : list string) (v : float64)
| OpObserve (c : Collector) (v : float64).

Definition float_list (l : list Z) : list float64 := map float64_of_Z l.
(** A decimal constant of the source: [n] thousandths. *)
Definition thousandths (n : Z) : float64 := fdiv (float64_of_Z n) (float64_of_Z 1000).

Record Metrics := mkMetrics {
  m_signalsPublished : Collector;
  m_signalErrors : Collector;
  m_addressesCount : Collector;
  m_websocketConnected : Collector;
  m_natsConnected : Collector;
  m_tradeDeduped : Collector;
  m_tradeProcessed : Collector;
  m_positionsTotal : Collector;
  m_positionUpdates : Collector;
  m_marginUpdates : Collector;
  m_orderAggregationActive : Collector;
  m_orderFlushTotal : Collector;
  m_orderFillsPerOrder : Collector;
  m_orderUpdatesReceived : Collector;
  m_poolManagerConnectionCount : Collector;
  m_cacheHitTotal : Collector;
  m_cacheMissTotal : Collector;
  m_messageQueueSize : Collector;
  m_messageQueueFullTotal : Collector;
  m_batchWriteSize : Collector;
  m_batchWriteDurationSecs : Collector;
  m_batchDedupCacheHit : Collector;
}.

(** [NewMetrics] builds the collectors; [MustRegister] panics when a name is taken. *)
Definition new_metrics (namespace : string) : Metrics := {|
  m_signalsPublished := mkCollector CounterVec namespace "signals_published_total" ["side"; "symbol"] [];
  m_signalErrors := mkCollector CounterVec namespace "signal_errors_total" ["type"] [];
  m_addressesCount := mkCollector Gauge namespace "addresses_subscribed" [] [];
  m_websocketConnected := mkCollector Gauge namespace "websocket_connected" [] [];
  m_natsConnected := mkCollector Gauge namespace "nats_connected" [] [];
  m_tradeDeduped := mkCollector Counter namespace "trades_deduplicated_total" [] [];
  m_tradeProcessed := mkCollector CounterVec namespace "trades_processed_total" ["type"] [];
  m_positionsTotal := mkCollector Gauge namespace "positions_total" [] [];
  m_positionUpdates := mkCollector CounterVec namespace "position_updates_total" ["status"] [];
  m_marginUpdates := mkCollector CounterVec namespace "margin_updates_total" ["status"] [];
  m_orderAggregationActive := mkCollector Gauge namespace "order_aggregation_active" [] [];
  m_orderFlushTotal := mkCollector CounterVec namespace "order_flush_total" ["trigger"] [];
  m_orderFillsPerOrder := mkCollector Histogram namespace "order_fills_per_order" []
    (float_list [1; 2; 3; 5; 10; 20; 50]);
  m_orderUpdatesReceived := mkCollector Counter namespace "order_updates_received_total" [] [];
  m_poolManagerConnectionCount := mkCollector Gauge namespace "pool_manager_connection_count" [] [];
  m_cacheHitTotal := mkCollector CounterVec namespace "cache_hit_total" ["cache_type"] [];
  m_cacheMissTotal := mkCollector CounterVec namespace "cache_miss_total" ["cache_type"] [];
  m_messageQueueSize := mkCollector Gauge namespace "message_queue_size" [] [];
  m_messageQueueFullTotal := mkCollector Counter namespace "message_queue_full_total" [] [];
  m_batchWriteSize := mkCollector Histogram namespace "batch_write_size" []
    (float_list [1; 10; 25; 50; 100; 200; 500]);
  m_batchWriteDurationSecs := mkCollector Histogram namespace "batch_write_duration_seconds" []
    (map thousandths [1; 5; 10; 25; 50; 100; 250; 500; 1000]);
  m_batchDedupCacheHit := mkCollector CounterVec namespace "batch_dedup_cache_hit_total" ["table"] [];
|}.

Definition collectors (m : Metrics) : list Collector :=
  [m_signalsPublished m; m_signalErrors m; m_addressesCount m;
   m_websocketConnected m; m_natsConnected m; m_tradeDeduped m;
   m_tradeProcessed m; m_positionsTotal m; m_positionUpdates m;
   m_marginUpdates m; m_orderAggregationActive m; m_orderFlushTotal m;
   m_orderFillsPerOrder m; m_orderUpdatesReceived m; m_poolManagerConnectionCount m;
   m_cacheHitTotal m; m_cacheMissTotal m; m_messageQueueSize m;
   m_messageQueueFullTotal m; m_batchWriteSize m; m_batchWriteDurationSecs m;
   m_batchDedupCacheHit m].

Fixpoint MustRegister (registered : list string) (cs : list Collector) : outcome (list string) :=
  match cs with
  | [] => Ret registered
  | c :: cs =>
      if decide (fqName c ∈ registered) then Panic
      else MustRegister (registered ++ [fqName c]) cs
  end.

Definition NewMetrics (registered : list string) (namespace : string)
    : outcome (list string * Metrics) :=
  let m := new_metrics namespace in
  registered ← MustRegister registered (collectors m);
  Ret (registered, m).

(** [GetMetrics]: the global collector, made once. *)
Definition GetMetrics (state : list string * option Metrics)
    : outcome (list string * option Metrics * Metrics) :=
  match state with
  | (registered, Some m) => Ret (registered, Some m, m)
  | (registered, None) =>
      '(registered, m) ← NewMetrics registered "hl_monitor"; Ret (registered, Some m, m)
  end.

(** ** The methods of [Metrics] *)

Definition of_int (count : Z) : float64 := float64_of_Z count.
Definition Inc (c : Collector) (labels : list string) : list metric_op := [OpAdd c labels f1].

Definition SetAddressesCount (m : Metrics) (count : Z) := [OpSet (m_addressesCount m) (of_int count)].
Definition SetWebSocketConnected (m : Metrics) (connected : bool) :=
  [OpSet (m_websocketConnected m) (if connected then f1 else f0)].
Definition SetNATSConnected (m : Metrics) (connected : bool) :=
  [OpSet (m_natsConnected m) (if connected then f1 else f0)].
Definition IncSignalsPublished (m : Metrics) (side symbol : string) :=
  Inc (m_signalsPublished m) [side; symbol].
Definition IncSignalErrors (m : Metrics) (errType : string) := Inc (m_signalErrors m) [errType].
Definition IncTradeDeduped (m : Metrics) := Inc (m_tradeDeduped m) [].
Definition IncTradeProcessed (m : Metrics) (tradeType : string) :=
  Inc (m_tradeProcessed m) [tradeType].
Definition SetPositionsTotal (m : Metrics) (count : Z) :=
  [OpSet (m_positionsTotal m) (of_int count)].
Definition IncPositionUpdates (m : Metrics) (status : string) := Inc (m_positionUpdates m) [status].
Definition IncMarginUpdates (m : Metrics) (status : string) := Inc (m_marginUpdates m) [status].
Definition SetOrderAggregationActive (m : Metrics) (count : Z) :=
  [OpSet (m_orderAggregationActive m) (of_int count)].
Definition IncOrderFlush (m : Metrics) (trigger : string) := Inc (m_orderFlushTotal m) [trigger].
Definition ObserveFillsPerOrder (m : Metrics) (count : Z) :=
  [OpObserve (m_orderFillsPerOrder m) (of_int count)].
Definition IncOrderUpdates (m : Metrics) (count : float64) :=
  [OpAdd (m_orderUpdatesReceived m) [] count].
Definition SetPoolManagerConnectionCount (m : Metrics) (count : Z) :=
  [OpSet (m_poolManagerConnectionCount m) (of_int count)].
Definition IncCacheHit (m : Metrics) (cacheType : string) := Inc (m_cacheHitTotal m) [cacheType].
Definition IncCacheMiss (m : Metrics) (cacheType : string) := Inc (m_cacheMissTotal m) [cacheType].
Definition SetMessageQueueSize (m : Metrics) (size : Z) :=
  [OpSet (m_messageQueueSize m) (of_int size)].
Definition IncMessageQueueFull (m : Metrics) := Inc (m_messageQueueFullTotal m) [].
Definition ObserveBatchWriteSize (m : Metrics) (size : Z) :=
  [OpObserve (m_batchWriteSize m) (of_int size)].
Definition ObserveBatchWriteDuration (m : Metrics) (duration : float64) :=
  [OpObserve (m_batchWriteDurationSecs m) duration].
Definition IncBatchDedupCacheHit (m : Metrics) (table : string) :=
  Inc (m_batchDedupCacheHit m) [table].

(** The package functions (metrics_helpers.go) call the global collector's
    methods. *)
Definition on_global (f : Metrics -> list metric_op) (state : list string * option Metrics)
    : outcome (list string * option Metrics * list metric_op) :=
  '(state, m) ← GetMetrics state; Ret (state, f m).
Definition monitor_SetOrderAggregationActive (count : Z) := on_global (fun m => SetOrderAggregationActive m count).
Definition monitor_IncOrderFlush (trigger : string) := on_global (fun m => IncOrderFlush m trigger).
Definition monitor_ObserveFillsPerOrder (count : Z) := on_global (fun m => ObserveFillsPerOrder m count).
Definition monitor_SetPoolManagerConnectionCount (count : Z) := on_global (fun m => SetPoolManagerConnectionCount m count).
Definition monitor_IncCacheHit (cacheType : string) := on_global (fun m => IncCacheHit m cacheType).
Definition monitor_IncCacheMiss (cacheType : string) := on_global (fun m => IncCacheMiss m cacheType).
Definition monitor_SetMessageQueueSize (size : Z) := on_global (fun m => SetMessageQueueSize m size).
Definition monitor_IncMessageQueueFull := on_global (fun m => IncMessageQueueFull m).
Definition monitor_ObserveBatchWriteSize (size : Z) := on_global (fun m => ObserveBatchWriteSize m size).
Definition monitor_ObserveBatchWriteDuration (duration : float64) := on_global (fun m => ObserveBatchWriteDuration m duration).
Definition monitor_IncBatchDedupCacheHit (table : string) := on_global (fun m => IncBatchDedupCacheHit m table).

(** ** The operations fit their collectors *)

Definition op_fits (m : Metrics) (op : metric_op) : Prop :=
  match op with
  | OpSet c _ => c ∈ collectors m /\ co_kind c = Gauge
  | OpAdd c labels _ =>
      c ∈ collectors m /\ length labels = length (co_labels c) /\
      (co_kind c = CounterVec \/ co_kind c = Counter /\ labels = [])
  | OpObserve c _ => c ∈ collectors m /\ co_kind c = Histogram
  end.

(** The calls of the service, by method. *)
Inductive metric_call : list metric_op -> Metrics -> Prop :=
| call_SetAddressesCount m n : metric_call (SetAddressesCount m n) m
| call_SetWebSocketConnected m b : metric_call (SetWebSocketConnected m b) m
| call_SetNATSConnected m b : metric_call (SetNATSConnected m b) m
| call_IncSignalsPublished m s y : metric_call (IncSignalsPublished m s y) m
| call_IncSignalErrors m e : metric_call (IncSignalErrors m e) m
| call_IncTradeDeduped m : metric_call (IncTradeDeduped m) m
| call_IncTradeProcessed m t : metric_call (IncTradeProcessed m t) m
| call_SetPositionsTotal m n : metric_call (SetPositionsTotal m n) m
| call_IncPositionUpdates m s : metric_call (IncPositionUpdates m s) m
| call_IncMarginUpdates m s : metric_call (IncMarginUpdates m s) m
| call_SetOrderAggregationActive m n : metric_call (SetOrderAggregationActive m n) m
| call_IncOrderFlush m t : metric_call (IncOrderFlush m t) m
| call_ObserveFillsPerOrder m n : metric_call (ObserveFillsPerOrder m n) m
| call_IncOrderUpdates m x : metric_call (IncOrderUpdates m x) m
| call_SetPoolManagerConnectionCount m n : metric_call (SetPoolManagerConnectionCount m n) m
| call_IncCacheHit m t : metric_call (IncCacheHit m t) m
| call_IncCacheMiss m t : metric_call (IncCacheMiss m t) m
| call_SetMessageQueueSize m n : metric_call (SetMessageQueueSize m n) m
| call_IncMessageQueueFull m : metric_call (IncMessageQueueFull m) m
| call_ObserveBatchWriteSize m n : metric_call (ObserveBatchWriteSize m n) m
| call_ObserveBatchWriteDuration m x : metric_call (ObserveBatchWriteDuration m x) m
| call_IncBatchDedupCacheHit m t : metric_call (IncBatchDedupCacheHit m t) m.

Lemma MustRegister_fresh cs : forall registered,
  NoDup (registered ++ map fqName cs) ->
  MustRegister registered cs = Ret (registered ++ map fqName cs).
Proof.
  induction cs as [|c cs IH]; intros registered Hnd; simpl; [by rewrite app_nil_r|].
  rewrite decide_False.
  - rewrite IH; rewrite <- app_assoc; done.
  - apply NoDup_app in Hnd as (_ & Hd & _). intros Hin. apply (Hd _ Hin). left.
Qed.

Lemma fqName_inj c1 c2 :
  co_namespace c1 = co_namespace c2 -> fqName c1 = fqName c2 -> co_name c1 = co_name c2.
Proof. unfold fqName. intros ->. intros E%(inj (String.append _)). by injection E. Qed.

Lemma new_metrics_names namespace : NoDup (map fqName (collectors (new_metrics namespace))).
Proof.
  apply (NoDup_fmap_1 (fun n => n)). rewrite list_fmap_id.
  assert (map fqName (collectors (new_metrics namespace)) =
    (fun n => namespace +:+ "_" +:+ n) <$> map co_name (collectors (new_metrics namespace))) as ->
    by done.
  apply (NoDup_fmap_2 _). apply (bool_decide_unpack _). vm_compute. exact I.
Qed.

(** Metrics cannot panic: the collectors of [NewMetrics] register together with
    any that have other names, and every method makes operations that a
    registered collector of the right kind and labels accepts. *)
Lemma metrics_total registered namespace :
  NoDup registered ->
  (forall c, c ∈ collectors (new_metrics namespace) -> fqName c ∉ registered) ->
  NewMetrics registered namespace =
    Ret (registered ++ map fqName (collectors (new_metrics namespace)), new_metrics namespace) /\
  forall ops, metric_call ops (new_metrics namespace) -> Forall (op_fits (new_metrics namespace)) ops.
Proof.
  intros Hnd Hdis. split.
  - unfold NewMetrics. rewrite MustRegister_fresh; [done|].
    apply NoDup_app. split_and!; [done| |apply new_metrics_names].
    intros n Hn (c & -> & Hc)%list_elem_of_fmap. by apply (Hdis c Hc).
  - intros ops Hc. remember (new_metrics namespace) as m eqn:Em.
    destruct Hc; subst; apply Forall_singleton; cbn [op_fits]; split_and?; try done;
      try (by left); try (by right); apply list_elem_of_In; simpl; tauto.
Qed.

(** ** internal/nats/publisher.go, signal.go *)

Record nats_options := mkNatsOptions {
  no_Name : string;
  no_RetryOnFailedConnect : bool;
  no_MaxReconnects : Z;
  no_ReconnectWait : Z;
  no_Timeout : Z;
  no_PingInterval : Z;
  no_MaxPingsOutstanding : Z;
}.

Definition publisher_options (cfg : NATS) : nats_options :=
  let reconnectWait := if nats_ReconnectWait cfg <=? 0 then 2 * Second else nats_ReconnectWait cfg in
  let pingInterval := if nats_PingInterval cfg <=? 0 then 20 * Second else nats_PingInterval cfg in
  let connectTimeout :=
    if nats_ConnectTimeout cfg <=? 0 then 10 * Second else nats_ConnectTimeout cfg in
  let maxReconnects := if nats_MaxReconnects cfg =? 0 then -1 else nats_MaxReconnects cfg in
  mkNatsOptions "hl-monitor" true maxReconnects reconnectWait connectTimeout pingInterval 5.

(** The connection of the NATS client library. *)
Class NatsConn := {
  nc_t : Type;
  nc_Publish : nc_t -> string -> string -> error;
  nc_IsClosed : nc_t -> bool;
  nc_Close : nc_t -> nc_t;
  nc_Close_closed : forall c, nc_IsClosed (nc_Close c) = true;
}.

(** [json.Marshal] refuses the floats that JSON has no number for. *)
Definition unsupported (x : float64) : option string :=
  match x with
  | S754_nan => Some "json: unsupported value: NaN"
  | S754_infinity s => Some ("json: unsupported value: " +:+ (if s then "-Inf" else "+Inf"))
  | _ => None
  end.

Section publisher.
Context `{NC : NatsConn}.
(** The text of a signal whose numbers JSON has. *)
Context (json_of_signal : HlAddressSignal -> string).

Record Publisher := mkPublisher {
  pub_Conn : option nc_t;
  pub_closed : bool;
}.

Definition NewPublisher (Connect : string -> nats_options -> nc_t + string) (cfg : NATS)
    : Publisher + string :=
  match Connect (nats_Endpoint cfg) (publisher_options cfg) with
  | inr err => inr err
  | inl conn => inl (mkPublisher (Some conn) false)
  end.

Definition TopicHLAddressSignal : string := "hl_address_signal".

Definition HlAddressSignal_Marshal (s : HlAddressSignal) : string + string :=
  match omap unsupported [sig_PositionRate s; sig_CloseRate s; sig_Size s; sig_Price s] with
  | err :: _ => inr err
  | [] => inl (json_of_signal s)
  end.

(** [Publish] of a nil connection dereferences it. *)
Definition PublishAddressSignal (p : Publisher) (s : HlAddressSignal) : outcome error :=
  match HlAddressSignal_Marshal s with
  | inr err => Ret (Some err)
  | inl data =>
      match pub_Conn p with
      | None => Panic
      | Some conn => Ret (nc_Publish conn TopicHLAddressSignal data)
      end
  end.

Definition Publisher_IsConnected (p : Publisher) : bool :=
  negb (pub_closed p) && match pub_Conn p with Some c => negb (nc_IsClosed c) | None => false end.

Definition Publisher_Close (p : Publisher) : Publisher := mkPublisher (nc_Close <$> pub_Conn p) true.

(** Only signals with finite numbers are handed to NATS, and no signal at all
    after [Close] reports a connected publisher. *)
Lemma PublishAddressSignal_finite p s :
  PublishAddressSignal p s = Ret nil_error ->
  Forall (fun x => unsupported x = None) [sig_PositionRate s; sig_CloseRate s; sig_Size s; sig_Price s] /\
  exists conn, pub_Conn p = Some conn /\
    nc_Publish conn TopicHLAddressSignal (json_of_signal s) = nil_error.
Proof.
  unfold PublishAddressSignal, HlAddressSignal_Marshal.
  destruct (omap unsupported _) as [|err rest] eqn:E; [|done].
  destruct (pub_Conn p) as [conn|]; [|done]. intros [= Hp]. split; [|by exists conn].
  apply Forall_forall. intros x Hx. destruct (unsupported x) as [err|] eqn:Ex; [|done].
  assert (err ∈ omap unsupported [sig_PositionRate s; sig_CloseRate s; sig_Size s; sig_Price s]) as Hin.
  { apply list_elem_of_omap. by exists x. }
  rewrite E in Hin. by apply elem_of_nil in Hin.
Qed.

Lemma Publisher_Close_disconnects p : Publisher_IsConnected (Publisher_Close p) = false.
Proof. done. Qed.
End publisher.
Arguments Publisher {_}.

(** ** The health server *)
Section health.
Context {Callback : Type} `{MapRange} `{NC : NatsConn}.

(** The service objects behind the interfaces; [None] is a nil reference. *)
Record HealthServer := mkHealthServer {
  hs_addr : string;
  hs_addresses : option Z;                    (* subManager.AddressCount() *)
  hs_pool : option (PoolManager Callback);
  hs_publisher : option Publisher;
  hs_healthy : bool;
  hs_healthySince : Z;
  hs_startTime : Z;
}.

Definition NewHealthServer (now : Z) addr addresses pool publisher : HealthServer :=
  mkHealthServer addr addresses pool publisher true now now.

Definition HealthServer_Stop (h : HealthServer) : HealthServer :=
  mkHealthServer (hs_addr h) (hs_addresses h) (hs_pool h) (hs_publisher h) false
    (hs_healthySince h) (hs_startTime h).

(** A simplification of the code itself: it always says no. *)
Definition PoolManager_IsReconnecting (pm : PoolManager Callback) : bool := false.

Record HealthStatus := mkHealthStatus {
  st_Healthy : bool;
  st_HealthySince : Z;
  st_Uptime : Z;
  st_WsConnected : bool;
  st_WsReconnecting : bool;
  st_NATSConnected : bool;
  st_AddressCount : Z;
}.

Definition isReady (h : HealthServer) : bool :=
  if negb (hs_healthy h) then false
  else match hs_pool h with
       | Some pool => if negb (PoolManager_IsConnected pool) then false else true
       | None => true
       end.

Definition getHealthStatus (now : Z) (h : HealthServer) : HealthStatus :=
  mkHealthStatus (hs_healthy h) (hs_healthySince h) (now - hs_startTime h)
    (match hs_pool h with Some pool => PoolManager_IsConnected pool | None => false end)
    (match hs_pool h with Some pool => PoolManager_IsReconnecting pool | None => false end)
    (match hs_publisher h with Some p => Publisher_IsConnected p | None => false end)
    (default 0 (hs_addresses h)).

Definition StatusOK : Z := 200.
Definition StatusServiceUnavailable : Z := 503.

Definition healthHandler (now : Z) (h : HealthServer) : Z * HealthStatus :=
  let status := getHealthStatus now h in
  (if st_Healthy status then StatusOK else StatusServiceUnavailable, status).

(** [http.Error] ends the text with a line feed. *)
Definition readyHandler (h : HealthServer) : Z * string :=
  if isReady h then (StatusOK, "ok")
  else (StatusServiceUnavailable, "not ready" +:+ String (Ascii.ascii_of_nat 10) EmptyString).

Definition liveHandler (h : HealthServer) : Z * string := (StatusOK, "ok").

Definition statusHandler (now : Z) (h : HealthServer) : Z * HealthStatus :=
  (StatusOK, getHealthStatus now h).

(** Ready means healthy with a live connection, and a successful repair of a
    pool that has connections makes a healthy service ready. *)
Lemma ready_iff h pool :
  hs_pool h = Some pool ->
  (readyHandler h).1 = StatusOK <->
  hs_healthy h = true /\ exists l, l ∈ pm_connections pool /\ IsConnectedAt pool l = true.
Proof.
  intros Hp. unfold readyHandler, isReady, PoolManager_IsConnected. rewrite Hp.
  destruct (hs_healthy h); simpl; [|by split; [|intros [? _]]].
  destruct (existsb _ _) eqn:E; simpl.
  - split; [intros _|done]. split; [done|]. apply existsb_exists in E as (l & Hin & Hl).
    exists l. by rewrite list_elem_of_In.
  - split; [done|]. intros (_ & l & Hin & Hl).
    assert (existsb (IsConnectedAt pool) (pm_connections pool) = true) as Et.
    { apply existsb_exists. exists l. by rewrite <- list_elem_of_In. }
    congruence.
Qed.

Lemma ready_after_repair dial net h pool pool' :
  pool_ok pool -> pm_connections pool <> [] -> hs_pool h = Some pool' -> hs_healthy h = true ->
  repairConnections dial net pool = (pool', nil_error) -> (readyHandler h).1 = StatusOK.
Proof.
  intros Hok Hne Hp Hh Hr. apply (ready_iff h pool' Hp). split; [done|].
  destruct (repair_loop_ok dial net (pm_connections pool) pool [] pool' Hok eq_refl) as
    (_ & Hlen & Hlive & _); [by intros l ?%elem_of_nil|exact Hr|].
  destruct (pm_connections pool') as [|l ls] eqn:E.
  - by destruct (pm_connections pool).
  - exists l. split; [left|]. apply Hlive. left.
Qed.
End health.
