(* ===== verification/SdkSocket.v ===== *)
(** * The websocket client of pkg/go-hyperliquid

    ws.go, ws_uniq_subscriber.go, ws_msg_dispatch.go, ws_utils.go, the payloads
    (ws_types_remote.go), the messages' keys (ws_types_subscriptable.go) and
    the typed subscriptions (ws_sub_*.go).  One remote subscription is kept per
    key, with any number of callbacks.  Subscribers are objects behind
    pointers.  The client's mutex [mu] is a flag: locking it while it is held
    by the same call never returns, and the definitions then give [None].
    What the network answers is an argument; so is JSON decoding. *)

From Stdlib Require Import ZArith Lia Ascii.
From stdpp Require Import gmap strings list pretty.
From S2P Require Import Prelude Float64 GoStrings Models.
Local Open Scope Z_scope.

(** ** Messages (ws_types.go, ws_types_subscriptable.go) *)

Record Trade := mkTrade {
  trade_Coin : string;
  trade_Side : string;
  trade_Px : string;
  trade_Sz : string;
  trade_Time : Z;
  trade_Hash : string;
  trade_Tid : Z;
  trade_Users : list string;
}.

Record Level := mkLevel { level_N : Z; level_Px : float64; level_Sz : float64 }.

Record L2Book := mkL2Book {
  l2_Coin : string;
  l2_Levels : list (list Level);
  l2_Time : Z;
}.

Record Bbo := mkBbo { bbo_Coin : string; bbo_Time : Z; bbo_Bbo : list Level }.

Record Candle := mkCandle {
  candle_Timestamp : Z;
  candle_Close : string;
  candle_High : string;
  candle_Interval : string;
  candle_Low : string;
  candle_Number : Z;
  candle_Open : string;
  candle_Symbol : string;
  candle_Time : Z;
  candle_Volume : string;
}.

(** A decoded message, by the Go type it was decoded to. *)
Inductive wsData : Type :=
| DTrades (trades : list Trade)
| DL2Book (book : L2Book)
| DCandles (candles : list Candle)
| DAllMids (Mids : gmap string string)
| DNotification (Notification : string)
| DWsOrders (orders : list WsOrder)
| DWebData2 (webdata2 : WebData2)
| DBbo (bbo : Bbo)
| DWsOrderFills (fills : WsOrderFills)
| DSpotAssetCtxs (ctxs : list SpotAssetCtx).

(** The ten data channels; the type of a channel's messages is its own. *)
Inductive sdk_channel : Type :=
| SdkTrades | SdkL2Book | SdkCandle | SdkAllMids | SdkNotification | SdkOrderUpdates
| SdkWebData2 | SdkBbo | SdkUserFills | SdkSpotAssetCtxs.

#[export] Instance sdk_channel_eq_dec : EqDecision sdk_channel.
Proof. solve_decision. Defined.

Definition channel_name (c : sdk_channel) : string :=
  match c with
  | SdkTrades => "trades" | SdkL2Book => "l2Book" | SdkCandle => "candle"
  | SdkAllMids => "allMids" | SdkNotification => "notification"
  | SdkOrderUpdates => "orderUpdates" | SdkWebData2 => "webData2" | SdkBbo => "bbo"
  | SdkUserFills => "userFills" | SdkSpotAssetCtxs => "spotAssetCtxs"
  end.

Definition data_channel (d : wsData) : sdk_channel :=
  match d with
  | DTrades _ => SdkTrades | DL2Book _ => SdkL2Book | DCandles _ => SdkCandle
  | DAllMids _ => SdkAllMids | DNotification _ => SdkNotification
  | DWsOrders _ => SdkOrderUpdates | DWebData2 _ => SdkWebData2 | DBbo _ => SdkBbo
  | DWsOrderFills _ => SdkUserFills | DSpotAssetCtxs _ => SdkSpotAssetCtxs
  end.

(** [strings.Join(args, ":")] *)
Definition sdk_key (args : list string) : string := String.concat ":" args.

Definition keyTrades (coin : string) : string := sdk_key ["trades"; coin].
Definition keyCandles (symbol interval : string) : string := sdk_key ["candle"; symbol; interval].
Definition keyL2Book (coin : string) : string := sdk_key ["l2Book"; coin].
Definition keyAllMids (_ : option string) : string := sdk_key ["allMids"].
Definition keyNotification (_ : string) : string := sdk_key ["notification"].
Definition keyOrderUpdates (_ : string) : string := sdk_key ["orderUpdates"].
Definition keyUserFills (user : string) : string := sdk_key ["userFills"; user].
Definition keyWebData2 (_ : string) : string := sdk_key ["webData2"].
Definition keyBbo (coin : string) : string := sdk_key ["bbo"; coin].
Definition keySpotAssetCtxs (_ : string) : string := sdk_key ["spotAssetCtxs"].

Definition data_Key (d : wsData) : string :=
  match d with
  | DTrades [] => EmptyString
  | DTrades (t :: _) => keyTrades (trade_Coin t)
  | DCandles [] => EmptyString
  | DCandles (c :: _) => keyCandles (candle_Symbol c) (candle_Interval c)
  | DL2Book b => keyL2Book (l2_Coin b)
  | DAllMids _ => keyAllMids None
  | DNotification _ => "notification"
  | DWsOrders _ => "orderUpdates"
  | DWebData2 _ => "webData2"
  | DBbo b => keyBbo (bbo_Coin b)
  | DWsOrderFills f => keyUserFills (fills_User f)
  | DSpotAssetCtxs _ => "spotAssetCtxs"
  end.

(** ** Subscription payloads (ws_types_remote.go, ws_sub_*.go)

    The typed subscription methods fill [Type] with the channel of the payload. *)
Inductive payload : Type :=
| TradesPayload (Coin : string)
| L2BookPayload (Coin : string) (NSigFigs Mantissa : Z)
| CandlesPayload (Coin Interval : string)
| AllMidsPayload (Dex : option string)
| NotificationPayload (User : string)
| OrderUpdatesPayload (User : string)
| WebData2Payload (User : string)
| BboPayload (Coin : string)
| OrderFillsPayload (User : string)
| SpotAssetCtxsPayload.

#[export] Instance payload_eq_dec : EqDecision payload.
Proof. solve_decision. Defined.

(** [Type], and with it the type the subscription's wrapper asserts. *)
Definition payload_Channel (p : payload) : sdk_channel :=
  match p with
  | TradesPayload _ => SdkTrades | L2BookPayload _ _ _ => SdkL2Book
  | CandlesPayload _ _ => SdkCandle | AllMidsPayload _ => SdkAllMids
  | NotificationPayload _ => SdkNotification | OrderUpdatesPayload _ => SdkOrderUpdates
  | WebData2Payload _ => SdkWebData2 | BboPayload _ => SdkBbo
  | OrderFillsPayload _ => SdkUserFills | SpotAssetCtxsPayload => SdkSpotAssetCtxs
  end.

Definition payload_Key (p : payload) : string :=
  match p with
  | TradesPayload Coin => keyTrades Coin
  | L2BookPayload Coin _ _ => keyL2Book Coin
  | CandlesPayload Coin Interval => keyCandles Coin Interval
  | AllMidsPayload Dex => keyAllMids Dex
  | NotificationPayload User => keyNotification User
  | OrderUpdatesPayload User => keyOrderUpdates User
  | WebData2Payload User => keyWebData2 User
  | BboPayload Coin => keyBbo Coin
  | OrderFillsPayload User => keyUserFills User
  | SpotAssetCtxsPayload => keySpotAssetCtxs EmptyString
  end.

Inductive sdk_command : Type :=
| SdkSubscribe (p : payload)
| SdkUnsubscribe (p : payload)
| SdkPing.

(** ** Subscribers (ws_uniq_subscriber.go) *)
Section socket.
Context {Callback : Type} `{MapRange}.

(** A callback with the message type its wrapper (ws_sub_*.go) asserts. *)
Record typed_callback := mkTyped { tc_channel : sdk_channel; tc_callback : Callback }.

(** The error a wrapper makes of a message of another type. *)
Definition assertion_error (c : sdk_channel) : string :=
  match c with
  | SdkTrades => "SubscribeToTrades invalid message type"
  | _ => "invalid message type"
  end.

(** A call the wrapper makes: the data, or the error of the failed assertion. *)
Definition run_typed (d : wsData) (tc : typed_callback) : Callback * (wsData + string) :=
  (tc_callback tc,
   if decide (data_channel d = tc_channel tc) then inl d else inr (assertion_error (tc_channel tc))).

Record uniqSubscriber := mkUniqSubscriber {
  us_id : string;
  us_count : Z;
  us_subscribers : gmap string typed_callback;
  us_subscriptionPayload : payload;
}.

Definition newUniqSubscriber (id : string) (p : payload) : uniqSubscriber :=
  mkUniqSubscriber id 0 ∅ p.

(** [subscribe] and [unsubscribe] up to the call of their function: the new
    subscriber, and the count if it changed. *)
Definition uniq_subscribe (u : uniqSubscriber) (id : string) (cb : typed_callback)
    : uniqSubscriber * option Z :=
  match us_subscribers u !! id with
  | Some _ => (u, None)
  | None =>
      (mkUniqSubscriber (us_id u) (us_count u + 1) (<[id := cb]> (us_subscribers u))
         (us_subscriptionPayload u), Some (us_count u + 1))
  end.

Definition uniq_unsubscribe (u : uniqSubscriber) (id : string) : uniqSubscriber * option Z :=
  match us_subscribers u !! id with
  | None => (u, None)
  | Some _ =>
      (mkUniqSubscriber (us_id u) (us_count u - 1) (delete id (us_subscribers u))
         (us_subscriptionPayload u), Some (us_count u - 1))
  end.

Definition uniq_dispatch (u : uniqSubscriber) (d : wsData) : list (Callback * (wsData + string)) :=
  map (run_typed d) (go_range (us_subscribers u)).*2.

Definition uniq_clear (u : uniqSubscriber) : uniqSubscriber :=
  mkUniqSubscriber (us_id u) 0 ∅ (us_subscriptionPayload u).

(** ** The client (ws.go) *)

(** [w.conn]: nil, a connection, or one whose writes fail (closed, not yet
    replaced by the read loop). *)
Inductive sdk_conn : Type := NoConn | OpenConn | DeadConn.

#[export] Instance sdk_conn_eq_dec : EqDecision sdk_conn.
Proof. solve_decision. Defined.

Record WebsocketClient := mkWebsocketClient {
  wc_conn : sdk_conn;
  wc_mu : bool;                              (* held *)
  wc_subscribers : gmap string loc;
  wc_heap : gmap loc uniqSubscriber;
  wc_nextSubID : Z;
  wc_reconnectWait : Z;
  wc_closed : bool;                          (* closeOnce *)
  wc_sent : list sdk_command;                (* on the present connection *)
}.

Definition NewWebsocketClient : WebsocketClient :=
  mkWebsocketClient NoConn false ∅ ∅ 0 Second false [].

Definition wc_with_conn w conn sent : WebsocketClient :=
  mkWebsocketClient conn (wc_mu w) (wc_subscribers w) (wc_heap w) (wc_nextSubID w)
    (wc_reconnectWait w) (wc_closed w) sent.
Definition wc_with_mu w mu : WebsocketClient :=
  mkWebsocketClient (wc_conn w) mu (wc_subscribers w) (wc_heap w) (wc_nextSubID w)
    (wc_reconnectWait w) (wc_closed w) (wc_sent w).
Definition wc_with_subscribers w subscribers heap : WebsocketClient :=
  mkWebsocketClient (wc_conn w) (wc_mu w) subscribers heap (wc_nextSubID w)
    (wc_reconnectWait w) (wc_closed w) (wc_sent w).
Definition wc_with_nextSubID w n : WebsocketClient :=
  mkWebsocketClient (wc_conn w) (wc_mu w) (wc_subscribers w) (wc_heap w) n
    (wc_reconnectWait w) (wc_closed w) (wc_sent w).
Definition wc_with_reconnect w wait : WebsocketClient :=
  mkWebsocketClient (wc_conn w) (wc_mu w) (wc_subscribers w) (wc_heap w) (wc_nextSubID w)
    wait (wc_closed w) (wc_sent w).
Definition wc_with_closed w : WebsocketClient :=
  mkWebsocketClient (wc_conn w) (wc_mu w) (wc_subscribers w) (wc_heap w) (wc_nextSubID w)
    (wc_reconnectWait w) true (wc_sent w).

(** [w.mu.Lock()]: never returns while the mutex is held. *)
Definition lock_mu (w : WebsocketClient) : option WebsocketClient :=
  if wc_mu w then None else Some (wc_with_mu w true).
Definition unlock_mu (w : WebsocketClient) : WebsocketClient := wc_with_mu w false.

Definition sdk_writeJSON (net : sdk_command -> error) (w : WebsocketClient) (v : sdk_command)
    : WebsocketClient * error :=
  match wc_conn w with
  | NoConn => (w, Some "connection closed")
  | DeadConn => (w, Some "use of closed network connection")
  | OpenConn =>
      match net v with
      | None => (wc_with_conn w OpenConn (wc_sent w ++ [v]), nil_error)
      | Some err => (w, Some err)
      end
  end.

(** The two functions given to a subscriber; errors are only logged. *)
Definition on_subscribe net (w : WebsocketClient) (p : payload) : WebsocketClient :=
  fst (sdk_writeJSON net w (SdkSubscribe p)).

Definition on_unsubscribe net (w : WebsocketClient) (pkey : string) (p : payload)
    : option WebsocketClient :=
  w ← lock_mu w;
  let w := wc_with_subscribers w (delete pkey (wc_subscribers w)) (wc_heap w) in
  Some (unlock_mu (fst (sdk_writeJSON net w (SdkUnsubscribe p)))).

Record sdk_subscription := mkSdkSubscription { ss_ID : string; ss_subscriber : loc }.

(** Under [w.mu]: the subscriber of the key, made if there is none. *)
Definition find_subscriber (w : WebsocketClient) (p : payload) : WebsocketClient * loc :=
  let pkey := payload_Key p in
  match wc_subscribers w !! pkey with
  | Some l => (w, l)
  | None =>
      let l := fresh (dom (wc_heap w)) in
      (wc_with_subscribers w (<[pkey := l]> (wc_subscribers w))
         (<[l := newUniqSubscriber pkey p]> (wc_heap w)), l)
  end.

(** [subscriber.subscribe(subID, callback)] *)
Definition register net (w : WebsocketClient) (l : loc) (subID : string) (cb : typed_callback)
    : option WebsocketClient :=
  u ← wc_heap w !! l;
  let '(u', c) := uniq_subscribe u subID cb in
  let w := wc_with_subscribers w (wc_subscribers w) (<[l := u']> (wc_heap w)) in
  Some (if decide (c = Some 1) then on_subscribe net w (us_subscriptionPayload u') else w).

Definition WebsocketClient_subscribe net (w : WebsocketClient) (p : payload)
    (callback : option Callback)
    : option (WebsocketClient * (sdk_subscription + string)) :=
  match callback with
  | None => Some (w, inr "callback cannot be nil")
  | Some callback =>
      w ← lock_mu w;
      let '(w, l) := find_subscriber w p in
      let w := unlock_mu w in
      let nextID := wc_nextSubID w + 1 in
      let w := wc_with_nextSubID w nextID in
      let subID := sdk_key [payload_Key p; pretty (Z.to_N nextID)] in
      w ← register net w l subID (mkTyped (payload_Channel p) callback);
      Some (w, inl (mkSdkSubscription subID l))
  end.

(** The typed methods (ws_sub_*.go) fill in a payload and wrap the callback.
    The wrapper is never nil, so the test of [subscribe] is not reached: a nil
    callback would panic when it is called, and is left out here. *)
Definition Ws_Trades net w (Coin : string) (callback : Callback) :=
  WebsocketClient_subscribe net w (TradesPayload Coin) (Some callback).
Definition Ws_L2Book net w (Coin : string) (NSigFigs Mantissa : Z) (callback : Callback) :=
  WebsocketClient_subscribe net w (L2BookPayload Coin NSigFigs Mantissa) (Some callback).
Definition Ws_Candles net w (Coin Interval : string) (callback : Callback) :=
  WebsocketClient_subscribe net w (CandlesPayload Coin Interval) (Some callback).
Definition Ws_AllMids net w (Dex : option string) (callback : Callback) :=
  WebsocketClient_subscribe net w (AllMidsPayload Dex) (Some callback).
Definition Ws_Notification net w (User : string) (callback : Callback) :=
  WebsocketClient_subscribe net w (NotificationPayload User) (Some callback).
Definition Ws_OrderUpdates net w (User : string) (callback : Callback) :=
  WebsocketClient_subscribe net w (OrderUpdatesPayload User) (Some callback).
Definition Ws_WebData2 net w (User : string) (callback : Callback) :=
  WebsocketClient_subscribe net w (WebData2Payload User) (Some callback).
Definition Ws_Bbo net w (Coin : string) (callback : Callback) :=
  WebsocketClient_subscribe net w (BboPayload Coin) (Some callback).
Definition Ws_OrderFills net w (User : string) (callback : Callback) :=
  WebsocketClient_subscribe net w (OrderFillsPayload User) (Some callback).
Definition Ws_SpotAssetCtxs net w (callback : Callback) :=
  WebsocketClient_subscribe net w SpotAssetCtxsPayload (Some callback).

(** The first half of a subscription's [Close], under the subscriber's mutex. *)
Definition unregister (w : WebsocketClient) (h : sdk_subscription)
    : option (WebsocketClient * uniqSubscriber * option Z) :=
  u ← wc_heap w !! ss_subscriber h;
  let '(u', c) := uniq_unsubscribe u (ss_ID h) in
  Some (wc_with_subscribers w (wc_subscribers w) (<[ss_subscriber h := u']> (wc_heap w)), u', c).

Definition Subscription_Close net (w : WebsocketClient) (h : sdk_subscription)
    : option WebsocketClient :=
  '(w, u, c) ← unregister w h;
  if decide (c = Some 0) then on_unsubscribe net w (us_id u) (us_subscriptionPayload u)
  else Some w.

(** ** Connecting *)

(** Stops at the first error. *)
Fixpoint resubscribe_list net (w : WebsocketClient) (ps : list payload)
    : WebsocketClient * error :=
  match ps with
  | [] => (w, nil_error)
  | p :: ps =>
      match sdk_writeJSON net w (SdkSubscribe p) with
      | (w, None) => resubscribe_list net w ps
      | (w, Some err) => (w, Some ("resubscribe: " +:+ err))
      end
  end.

(** The subscribers of the map, in the order of a range over it. *)
Definition live_subscribers (w : WebsocketClient) : list uniqSubscriber :=
  omap (fun l => wc_heap w !! l) (go_range (wc_subscribers w)).*2.

Definition resubscribeAll net (w : WebsocketClient) : WebsocketClient * error :=
  resubscribe_list net w (map us_subscriptionPayload (live_subscribers w)).

Definition WebsocketClient_Connect (dial : error) net (w : WebsocketClient)
    : option (WebsocketClient * error) :=
  w ← lock_mu w;
  if decide (wc_conn w <> NoConn) then Some (unlock_mu w, nil_error)
  else match dial with
  | Some err => Some (unlock_mu w, Some ("websocket dial: " +:+ err))
  | None =>
      let '(w, err) := resubscribeAll net (wc_with_conn w OpenConn []) in
      Some (unlock_mu w, err)
  end.

(** What the read loop does when it ends. *)
Definition readPump_exit (w : WebsocketClient) : option WebsocketClient :=
  w ← lock_mu w;
  Some (unlock_mu (wc_with_conn w NoConn (wc_sent w))).

(** The wait after a failed attempt. *)
Definition next_wait (wait : Z) : Z := if Minute <? wait * 2 then Minute else wait * 2.

(** The attempts are what the network answers to them; the loop ends with the
    first that succeeds ([true]) or with the list. *)
Fixpoint WebsocketClient_reconnect (attempts : list (error * (sdk_command -> error)))
    (w : WebsocketClient) : option (WebsocketClient * bool) :=
  match attempts with
  | [] => Some (w, false)
  | (dial, net) :: attempts =>
      '(w, err) ← WebsocketClient_Connect dial net w;
      match err with
      | None => Some (w, true)
      | Some _ =>
          WebsocketClient_reconnect attempts (wc_with_reconnect w (next_wait (wc_reconnectWait w)))
      end
  end.

(** ** Closing *)

(** [subscriber.clear()] *)
Definition clear_subscriber net (o : option WebsocketClient) (l : loc) : option WebsocketClient :=
  w ← o;
  u ← wc_heap w !! l;
  let w := wc_with_subscribers w (wc_subscribers w) (<[l := uniq_clear u]> (wc_heap w)) in
  on_unsubscribe net w (us_id u) (us_subscriptionPayload u).

Definition WebsocketClient_Close net (w : WebsocketClient) : option WebsocketClient :=
  if wc_closed w then Some w
  else
    w ← lock_mu (wc_with_closed w);
    if decide (wc_conn w <> NoConn) then Some (unlock_mu (wc_with_conn w DeadConn (wc_sent w)))
    else
      w ← fold_left (clear_subscriber net) (go_range (wc_subscribers w)).*2 (Some w);
      Some (unlock_mu w).

(** ** Dispatching (ws_msg_dispatch.go) *)

(** [json.Unmarshal(msg.Data, &x)] for the type of the channel. *)
Context (Unmarshal : sdk_channel -> string -> wsData + string).

Definition msg_dispatch (channel : sdk_channel) (subs : list uniqSubscriber) (Data : string)
    : list (Callback * (wsData + string)) + string :=
  match Unmarshal channel Data with
  | inr err => inr ("failed to unmarshal message: " +:+ err)
  | inl x =>
      inl (concat (map (fun u => if decide (us_id u = data_Key x) then uniq_dispatch u x else [])
                     subs))
  end.

Definition all_channels : list sdk_channel :=
  [SdkTrades; SdkL2Book; SdkCandle; SdkAllMids; SdkNotification; SdkOrderUpdates;
   SdkWebData2; SdkBbo; SdkUserFills; SdkSpotAssetCtxs].

(** The registry's entry of a channel name, and its run. *)
Definition WebsocketClient_dispatch (w : WebsocketClient) (Channel Data : string)
    : list (Callback * (wsData + string)) + string :=
  let subs := live_subscribers w in
  if decide (Channel = "pong") then inl []
  else if decide (Channel = "subscriptionResponse") then inl []
  else match list_find (fun c => channel_name c = Channel) all_channels with
  | None => inr ("no dispatcher for channel: " +:+ Channel)
  | Some (_, channel) => msg_dispatch channel subs Data
  end.
End socket.
Arguments WebsocketClient : clear implicits.
Arguments uniqSubscriber : clear implicits.
Arguments typed_callback : clear implicits.

(** ** Runs

    Subscriptions are opened and closed one after the other on a client, with
    any payloads.  [sr_open] records, for the theorems, the subscriptions not
    closed yet: payload and callback under the subscription's ID. *)
Section runs.
Context {Callback : Type} `{MapRange}.

Inductive socket_event : Type :=
| EvSubscribe (p : payload) (cb : Callback)
| EvClose (n : nat).                     (* the n-th subscription made *)

Record socket_run := mkSocketRun {
  sr_client : WebsocketClient Callback;
  sr_handles : list sdk_subscription;
  sr_open : gmap string (payload * Callback);
}.

Definition socket_exec net (r : socket_run) (e : socket_event) : option socket_run :=
  match e with
  | EvSubscribe p cb =>
      '(w, res) ← WebsocketClient_subscribe net (sr_client r) p (Some cb);
      match res with
      | inl h => Some (mkSocketRun w (sr_handles r ++ [h]) (<[ss_ID h := (p, cb)]> (sr_open r)))
      | inr _ => None
      end
  | EvClose n =>
      match sr_handles r !! n with
      | None => Some r
      | Some h =>
          w ← Subscription_Close net (sr_client r) h;
          Some (mkSocketRun w (sr_handles r) (delete (ss_ID h) (sr_open r)))
      end
  end.

Definition socket_exec_all net (r : socket_run) (evs : list socket_event) : option socket_run :=
  fold_left (fun o e => r ← o; socket_exec net r e) evs (Some r).

(** The subscriptions the exchange serves on a connection, after the commands
    it received there. *)
Definition serve (served : list payload) (c : sdk_command) : list payload :=
  match c with
  | SdkSubscribe p => served ++ [p]
  | SdkUnsubscribe p => filter (fun q => q <> p) served
  | SdkPing => served
  end.
Definition served (sent : list sdk_command) : list payload := fold_left serve sent [].

(** The open subscriptions of a key. *)
Definition open_at (opens : gmap string (payload * Callback)) (key : string)
    : gmap string (payload * Callback) :=
  filter (fun e => payload_Key e.2.1 = key) opens.

(** A subscriber of the map: its callbacks are the open ones of its key. *)
Record subscriber_ok (opens : gmap string (payload * Callback)) (key : string)
    (u : uniqSubscriber Callback) : Prop := {
  so_id : us_id u = key;
  so_key : payload_Key (us_subscriptionPayload u) = key;
  so_count : us_count u = Z.of_nat (size (us_subscribers u));
  so_callbacks : us_subscribers u =
    (fun e => mkTyped (payload_Channel e.1) e.2) <$> open_at opens key;
}.

Definition issued (next : Z) (id key : string) : Prop :=
  exists n, id = sdk_key [key; pretty (Z.to_N n)] /\ 0 < n <= next.

(** The invariant.  Between the two halves of a subscription or a close, the
    subscriber of the key [busy] may be without callbacks. *)
Record socket_inv (busy : option string) (r : socket_run) : Prop := {
  so_fresh : forall id e, sr_open r !! id = Some e -> issued (wc_nextSubID (sr_client r)) id (payload_Key e.1);
  so_live : forall key l, wc_subscribers (sr_client r) !! key = Some l ->
    (busy = Some key \/ open_at (sr_open r) key <> ∅) /\
    exists u, wc_heap (sr_client r) !! l = Some u /\ subscriber_ok (sr_open r) key u;
  so_covered : forall id e, sr_open r !! id = Some e ->
    is_Some (wc_subscribers (sr_client r) !! payload_Key e.1);
  so_retired : forall l u, wc_heap (sr_client r) !! l = Some u ->
    wc_subscribers (sr_client r) !! us_id u = Some l \/ us_subscribers u = ∅;
  so_handles : forall h, h ∈ sr_handles r ->
    (exists key, issued (wc_nextSubID (sr_client r)) (ss_ID h) key) /\
    is_Some (wc_heap (sr_client r) !! ss_subscriber h) /\
    forall e, sr_open r !! ss_ID h = Some e ->
      wc_subscribers (sr_client r) !! payload_Key e.1 = Some (ss_subscriber h);
  so_counted : 0 <= wc_nextSubID (sr_client r);
}.

Definition socket_ok (r : socket_run) : Prop :=
  wc_mu (sr_client r) = false /\ socket_inv None r.

(** ** Helper lemmas *)

Lemma sdk_key_two a b : sdk_key [a; b] = a +:+ String ":" b.
Proof. reflexivity. Qed.

Lemma issued_inj next id1 id2 key1 key2 n :
  issued next id1 key1 -> next < n ->
  id2 = sdk_key [key2; pretty (Z.to_N n)] -> id1 <> id2.
Proof.
  intros (m & -> & Hm) Hn -> E. rewrite !sdk_key_two in E.
  apply append_last_sep_inj in E as [_ E]; [|apply pretty_N_no_colon..].
  apply (inj pretty) in E. lia.
Qed.

Lemma open_at_lookup opens key id e :
  open_at opens key !! id = Some e <-> opens !! id = Some e /\ payload_Key e.1 = key.
Proof. unfold open_at. rewrite map_lookup_filter_Some. done. Qed.

Lemma sdk_writeJSON_keeps net (w : WebsocketClient Callback) v :
  let w' := fst (sdk_writeJSON net w v) in
  wc_mu w' = wc_mu w /\ wc_subscribers w' = wc_subscribers w /\ wc_heap w' = wc_heap w /\
  wc_nextSubID w' = wc_nextSubID w /\ wc_conn w' = wc_conn w.
Proof. unfold sdk_writeJSON. destruct (wc_conn w) eqn:E; [done| |done]. by destruct (net v). Qed.

(** The invariant does not read the connection. *)
Lemma socket_inv_ext busy r w' :
  wc_subscribers w' = wc_subscribers (sr_client r) -> wc_heap w' = wc_heap (sr_client r) ->
  wc_nextSubID w' = wc_nextSubID (sr_client r) ->
  socket_inv busy r -> socket_inv busy (mkSocketRun w' (sr_handles r) (sr_open r)).
Proof.
  intros E1 E2 E3 [Hf Hl Hc Hr Hh Hn]. by split; simpl; rewrite ?E1, ?E2, ?E3.
Qed.

Lemma find_subscriber_ok r p w l :
  socket_inv None r -> find_subscriber (sr_client r) p = (w, l) ->
  socket_inv (Some (payload_Key p)) (mkSocketRun w (sr_handles r) (sr_open r)) /\
  wc_subscribers w !! payload_Key p = Some l /\
  wc_mu w = wc_mu (sr_client r) /\ wc_nextSubID w = wc_nextSubID (sr_client r) /\
  wc_conn w = wc_conn (sr_client r) /\ wc_sent w = wc_sent (sr_client r) /\
  ((w = sr_client r /\ open_at (sr_open r) (payload_Key p) <> ∅) \/
   (open_at (sr_open r) (payload_Key p) = ∅ /\ wc_subscribers (sr_client r) !! payload_Key p = None /\
    wc_subscribers w = <[payload_Key p := l]> (wc_subscribers (sr_client r)) /\
    wc_heap w = <[l := newUniqSubscriber (payload_Key p) p]> (wc_heap (sr_client r)) /\
    wc_heap (sr_client r) !! l = None)).
Proof.
  intros [Hf Hl Hc Hr Hh Hn]. unfold find_subscriber. set (key := payload_Key p).
  destruct (wc_subscribers (sr_client r) !! key) as [l0|] eqn:Ek.
  { intros [= <- <-]. destruct (Hl key l0 Ek) as ([|Ho] & u & Hu & Hok); [done|].
    split; [|by repeat split; auto]. split; try done.
    intros key' l' Hk'. destruct (Hl key' l' Hk') as ([|Ho'] & u' & Hu' & Hok'); [done|].
    split; [by right|]. by exists u'. }
  intros [= <- <-]. set (l := fresh (dom (wc_heap (sr_client r)))).
  assert (wc_heap (sr_client r) !! l = None) as Hfresh by apply not_elem_of_dom, is_fresh.
  assert (open_at (sr_open r) key = ∅) as Hempty.
  { apply map_empty. intros id. destruct (open_at (sr_open r) key !! id) as [e|] eqn:Ee; [|done].
    apply open_at_lookup in Ee as [Ee Ekey]. destruct (Hc id e Ee) as [l' El']. congruence. }
  split; [|simpl; rewrite lookup_insert_eq; by repeat split; auto 8].
  split; simpl; try done.
  - intros key' l' Hk'. rewrite lookup_insert in Hk'. case_decide as Hkk.
    + subst key'. injection Hk' as <-. split; [by left|]. rewrite lookup_insert_eq.
      eexists. split; [reflexivity|]. split; try done. simpl. by rewrite Hempty, fmap_empty.
    + destruct (Hl key' l' Hk') as ([|Ho'] & u' & Hu' & Hok'); [done|].
      split; [by right|]. exists u'. split; [|done].
      rewrite lookup_insert_ne; [done|]. congruence.
  - intros id e He. rewrite lookup_insert. case_decide; [by eexists|]. by apply (Hc id).
  - intros l' u. rewrite lookup_insert. case_decide as Hll.
    + intros [= <-]. by right.
    + intros Hu. destruct (Hr l' u Hu) as [Hs|]; [left|by right].
      rewrite lookup_insert_ne; [done|]. congruence.
  - intros h Hin. destruct (Hh h Hin) as (Hi & Hs & He). split; [done|]. split.
    + rewrite lookup_insert. case_decide; [by eexists|done].
    + intros e Hee. rewrite lookup_insert_ne; [by apply He|]. intros E.
      destruct (Hc _ _ Hee) as [? ?]. congruence.
Qed.
Lemma open_at_insert opens key id (e : payload * Callback) :
  opens !! id = None ->
  open_at (<[id := e]> opens) key =
  if decide (payload_Key e.1 = key) then <[id := e]> (open_at opens key) else open_at opens key.
Proof.
  intros Hid. unfold open_at. case_decide as Hk.
  - by apply map_filter_insert_True.
  - rewrite map_filter_insert_False by done. by rewrite delete_id.
Qed.

Lemma open_at_delete opens key id (e : payload * Callback) :
  opens !! id = Some e ->
  open_at (delete id opens) key =
  if decide (payload_Key e.1 = key) then delete id (open_at opens key) else open_at opens key.
Proof.
  intros Hid. unfold open_at. rewrite map_filter_delete. case_decide as Hk; [done|].
  apply delete_id, map_lookup_filter_None. right. rewrite Hid. intros x [= <-]. done.
Qed.

(** The subscriber of a key of the map is that key's own. *)
Lemma live_subscriber busy r key l u :
  socket_inv busy r -> wc_subscribers (sr_client r) !! key = Some l ->
  wc_heap (sr_client r) !! l = Some u -> subscriber_ok (sr_open r) key u.
Proof. intros Hr Hl Hu. destruct (so_live _ _ Hr key l Hl) as (_ & u' & Hu' & Hok). congruence. Qed.

Lemma subscribers_inj busy r key key' l :
  socket_inv busy r -> wc_subscribers (sr_client r) !! key = Some l ->
  wc_subscribers (sr_client r) !! key' = Some l -> key = key'.
Proof.
  intros Hr H1 H2. destruct (so_live _ _ Hr key l H1) as (_ & u & Hu & Hok).
  pose proof (live_subscriber _ _ _ _ _ Hr H2 Hu) as Hok'.
  by rewrite <- (so_id _ _ _ Hok), <- (so_id _ _ _ Hok').
Qed.

Lemma register_inv r p cb l u :
  let key := payload_Key p in
  let n := wc_nextSubID (sr_client r) + 1 in
  let id := sdk_key [key; pretty (Z.to_N n)] in
  socket_inv (Some key) r -> wc_subscribers (sr_client r) !! key = Some l ->
  wc_heap (sr_client r) !! l = Some u ->
  exists u', uniq_subscribe u id (mkTyped (payload_Channel p) cb) = (u', Some (us_count u + 1)) /\
    us_subscriptionPayload u' = us_subscriptionPayload u /\
    socket_inv None (mkSocketRun
      (wc_with_subscribers (wc_with_nextSubID (sr_client r) n) (wc_subscribers (sr_client r))
         (<[l := u']> (wc_heap (sr_client r))))
      (sr_handles r ++ [mkSdkSubscription id l]) (<[id := (p, cb)]> (sr_open r))).
Proof.
  intros key n id Hr Hl Hu. destruct (live_subscriber _ _ _ _ _ Hr Hl Hu) as [Hid Hkey Hcount Hcbs].
  pose proof (fun k l' => subscribers_inj _ _ key k l' Hr) as Hinj.
  destruct Hr as [Hf Hlv Hc Hrt Hh Hn].
  assert (forall k id', issued (wc_nextSubID (sr_client r)) id' k -> id' <> id) as Hnew.
  { intros k id' Hi. apply (issued_inj _ _ id _ key n Hi); [lia|done]. }
  assert (sr_open r !! id = None) as Hfree.
  { destruct (sr_open r !! id) as [e|] eqn:Ee; [|done]. by apply Hf, Hnew in Ee. }
  assert (us_subscribers u !! id = None) as Hfree'.
  { rewrite Hcbs, lookup_fmap. destruct (open_at (sr_open r) key !! id) as [e|] eqn:Ee; [|done].
    apply open_at_lookup in Ee as [Ee _]. congruence. }
  unfold uniq_subscribe. rewrite Hfree'. eexists. split; [reflexivity|]. split; [done|].
  assert (forall id' k, issued (wc_nextSubID (sr_client r)) id' k -> issued n id' k) as Hmono.
  { intros id' k (m & -> & ?). exists m. split; [done|lia]. }
  split; simpl.
  - intros id' e. rewrite lookup_insert. case_decide as Hii.
    + intros [= <-]. subst id'. exists n. split; [done|lia].
    + intros He. by apply Hmono, Hf.
  - intros k l' Hk. rewrite open_at_insert by done. simpl. fold key.
    case_decide as Hkk.
    + subst k. assert (l' = l) as -> by congruence. rewrite lookup_insert_eq.
      split; [right; apply insert_non_empty|]. eexists. split; [reflexivity|]. split; simpl; try done.
      * rewrite Hcount, map_size_insert_None by done. lia.
      * by rewrite Hcbs, open_at_insert, decide_True, fmap_insert.
    + destruct (Hlv k l' Hk) as ([[= ->]|Ho] & u0 & Hu0 & [? ? ? Hcb0]); [done|].
      split; [by right|]. exists u0. rewrite lookup_insert_ne by (intros ->; by apply Hkk, (Hinj k l')).
      split; [done|]. split; try done. by rewrite Hcb0, open_at_insert, decide_False.
  - intros id' e. rewrite lookup_insert. case_decide; [intros [= <-]; by eexists|apply Hc].
  - intros l' u0. rewrite lookup_insert. case_decide as Hll.
    + intros [= <-]. subst l'. left. simpl. by rewrite Hid.
    + apply Hrt.
  - intros h [Hin| ->%list_elem_of_singleton]%elem_of_app; simpl.
    + destruct (Hh h Hin) as ((k & Hi) & Hs & He). split; [exists k; by apply Hmono|]. split.
      * rewrite lookup_insert. by case_decide; [eexists|].
      * rewrite lookup_insert_ne; [done|]. intros E. by apply Hnew in Hi.
    + split; [exists key, n; split; [done|lia]|]. rewrite lookup_insert_eq. split; [by eexists|].
      intros e. rewrite lookup_insert_eq. by intros [= <-].
  - lia.
Qed.
Lemma unregister_inv_open r id e l u :
  let key := payload_Key e.1 in
  let opens := delete id (sr_open r) in
  socket_inv None r -> sr_open r !! id = Some e ->
  wc_subscribers (sr_client r) !! key = Some l -> subscriber_ok opens key u ->
  socket_inv (Some key) (mkSocketRun
    (wc_with_subscribers (sr_client r) (wc_subscribers (sr_client r))
       (<[l := u]> (wc_heap (sr_client r)))) (sr_handles r) opens).
Proof.
  intros key opens Hr Eo Hl Hok. pose proof (fun k l' => subscribers_inj _ _ key k l' Hr) as Hinj.
  destruct Hr as [Hf Hlv Hc Hrt Hh Hn].
  assert (forall id' e', opens !! id' = Some e' -> sr_open r !! id' = Some e') as Hsub.
  { intros id' e'. unfold opens. rewrite lookup_delete. by case_decide. }
  split; simpl; try done.
  - intros id' e' He%Hsub. by apply Hf.
  - intros k l' Hk. unfold opens. rewrite (open_at_delete _ _ _ e) by done. fold key.
    case_decide as Hkk.
    + subst k. assert (l' = l) as -> by congruence. rewrite lookup_insert_eq.
      split; [by left|]. by exists u.
    + destruct (Hlv k l' Hk) as ([|Ho] & u0 & Hu0 & [? ? ? Hcb]); [done|].
      split; [by right|]. exists u0.
      rewrite lookup_insert_ne by (intros ->; by apply Hkk, (Hinj k l')).
      split; [done|]. split; try done.
      by rewrite Hcb, (open_at_delete _ _ _ e), decide_False.
  - intros id' e' He%Hsub. by apply (Hc id').
  - intros l' u'. rewrite lookup_insert. case_decide as Hll.
    + intros [= <-]. left. by rewrite (so_id _ _ _ Hok), <- Hll.
    + apply Hrt.
  - intros h Hin. destruct (Hh h Hin) as (Hi & Hs & He). split; [done|]. split.
    + rewrite lookup_insert. by case_decide; [eexists|].
    + intros e' He'%Hsub. by apply He.
Qed.

(** The first half of a close: with the subscription's ID open or not. *)
Lemma unregister_inv r h :
  socket_inv None r -> h ∈ sr_handles r ->
  exists w u c, unregister (sr_client r) h = Some (w, u, c) /\
    wc_heap w !! ss_subscriber h = Some u /\
    wc_subscribers w = wc_subscribers (sr_client r) /\
    (forall l u0, wc_heap (sr_client r) !! l = Some u0 -> exists u1, wc_heap w !! l = Some u1 /\
       us_subscriptionPayload u1 = us_subscriptionPayload u0) /\
    match sr_open r !! ss_ID h with
    | None => c = None /\ socket_inv None (mkSocketRun w (sr_handles r) (sr_open r))
    | Some e =>
        let key := payload_Key e.1 in
        let opens := delete (ss_ID h) (sr_open r) in
        wc_subscribers w !! key = Some (ss_subscriber h) /\ subscriber_ok opens key u /\
        c = Some (us_count u) /\
        socket_inv (Some key) (mkSocketRun w (sr_handles r) opens)
    end.
Proof.
  intros Hr Hin. destruct (so_handles _ _ Hr h Hin) as ((k0 & Hi) & [u0 Hu0] & He).
  unfold unregister, uniq_unsubscribe. rewrite Hu0. cbn [mbind option_bind].
  destruct (sr_open r !! ss_ID h) as [e|] eqn:Eo.
  - specialize (He e eq_refl). set (key := payload_Key e.1) in *.
    destruct (live_subscriber _ _ _ _ _ Hr He Hu0) as [Hid Hkey Hcount Hcbs].
    assert (is_Some (us_subscribers u0 !! ss_ID h)) as [tc Htc].
    { rewrite Hcbs, lookup_fmap, (proj2 (open_at_lookup _ key _ e)); [by eexists|done]. }
    rewrite Htc. eexists _, _, _. split; [reflexivity|]. simpl. rewrite lookup_insert_eq.
    split; [done|]. split; [done|]. split.
    { intros l u Hu. rewrite lookup_insert. case_decide; [|by eexists]. subst l.
      eexists. split; [reflexivity|]. simpl. congruence. }
    split; [done|].
    match goal with |- subscriber_ok ?o _ ?v /\ _ => assert (subscriber_ok o key v) as Hok end.
    { split; simpl; try done.
      - rewrite Hcount, map_size_delete_Some by by eexists.
        destruct (size (us_subscribers u0)) eqn:Es; [|lia].
        apply map_size_empty_inv in Es. by rewrite Es, lookup_empty in Htc.
      - rewrite Hcbs, (open_at_delete _ _ _ e), decide_True, fmap_delete by done. done. }
    split; [exact Hok|]. split; [done|]. by apply unregister_inv_open.
  - assert (us_subscribers u0 !! ss_ID h = None) as ->.
    { destruct (so_retired _ _ Hr _ _ Hu0) as [Hl| ->]; [|by rewrite lookup_empty].
      destruct (live_subscriber _ _ _ _ _ Hr Hl Hu0) as [_ _ _ ->]. rewrite lookup_fmap.
      destruct (open_at _ _ !! _) as [e|] eqn:Ee; [|done].
      apply open_at_lookup in Ee as [Ee _]. congruence. }
    eexists _, _, _. split; [reflexivity|]. simpl. rewrite lookup_insert_eq.
    split; [done|]. split; [done|]. rewrite insert_id by done.
    split; [by eauto|]. split; [done|]. by apply socket_inv_ext.
Qed.
(** ** One event *)

(** The remote subscription of each key of the map. *)
Definition live (w : WebsocketClient Callback) : gmap string payload :=
  omap (fun l => us_subscriptionPayload <$> wc_heap w !! l) (wc_subscribers w).

Definition wire (w : WebsocketClient Callback) : sdk_conn * list sdk_command :=
  (wc_conn w, wc_sent w).

Definition wire_write (net : sdk_command -> error) (s : sdk_conn * list sdk_command)
    (v : sdk_command) : sdk_conn * list sdk_command :=
  match s.1, net v with OpenConn, None => (OpenConn, s.2 ++ [v]) | _, _ => s end.

Lemma sdk_writeJSON_wire net (w : WebsocketClient Callback) v :
  wire (fst (sdk_writeJSON net w v)) = wire_write net (wire w) v.
Proof.
  unfold sdk_writeJSON, wire_write, wire. simpl. destruct (wc_conn w) eqn:E; simpl; try by rewrite E.
  destruct (net v); simpl; by rewrite ?E.
Qed.

Lemma live_ext (w w' : WebsocketClient Callback) :
  wc_subscribers w' = wc_subscribers w ->
  (forall l u, wc_heap w !! l = Some u -> exists u', wc_heap w' !! l = Some u' /\
     us_subscriptionPayload u' = us_subscriptionPayload u) ->
  (forall key l, wc_subscribers w !! key = Some l -> is_Some (wc_heap w !! l)) ->
  live w' = live w.
Proof.
  intros Es Hh Hl. apply map_eq. intros key. unfold live. rewrite !lookup_omap, Es.
  destruct (wc_subscribers w !! key) as [l|] eqn:Ek; [|done]. simpl.
  destruct (Hl key l Ek) as [u Hu]. destruct (Hh l u Hu) as (u' & -> & E). by rewrite Hu; simpl; rewrite E.
Qed.

Lemma live_heap busy r key l :
  socket_inv busy r -> wc_subscribers (sr_client r) !! key = Some l ->
  is_Some (wc_heap (sr_client r) !! l).
Proof. intros Hr Hl. destruct (so_live _ _ Hr key l Hl) as (_ & u & Hu & _). by eexists. Qed.

Lemma live_key busy r key p :
  socket_inv busy r -> live (sr_client r) !! key = Some p -> payload_Key p = key.
Proof.
  intros Hr. unfold live. rewrite lookup_omap.
  destruct (wc_subscribers (sr_client r) !! key) as [l|] eqn:El; [|done]. simpl.
  destruct (so_live _ _ Hr key l El) as (_ & u & -> & Hok). intros [= <-]. apply Hok.
Qed.

(** The invariant on a client, for given handles and open subscriptions. *)
Lemma register_event net (w : WebsocketClient Callback) hs opens p cb l u :
  let key := payload_Key p in
  let n := wc_nextSubID w + 1 in
  let id := sdk_key [key; pretty (Z.to_N n)] in
  socket_inv (Some key) (mkSocketRun w hs opens) -> wc_subscribers w !! key = Some l ->
  wc_heap w !! l = Some u ->
  exists w', register net (wc_with_nextSubID w n) l id (mkTyped (payload_Channel p) cb) = Some w' /\
    wc_mu w' = wc_mu w /\ live w' = live w /\
    wire w' = (if decide (us_count u = 0)
               then wire_write net (wire w) (SdkSubscribe (us_subscriptionPayload u)) else wire w) /\
    socket_inv None (mkSocketRun w' (hs ++ [mkSdkSubscription id l]) (<[id := (p, cb)]> opens)).
Proof.
  intros key n id Hinv Hl Hu.
  destruct (register_inv (mkSocketRun w hs opens) p cb l u Hinv Hl Hu) as (u' & Hsub & Hp & Hinv').
  cbn [sr_client sr_handles sr_open] in *. fold key n id in Hsub, Hinv'.
  unfold register. cbn [wc_with_nextSubID wc_heap wc_subscribers]. rewrite Hu.
  cbn [mbind option_bind]. rewrite Hsub.
  set (w1 := wc_with_subscribers _ _ _).
  assert (live w1 = live w) as Hlive.
  { apply live_ext; [done| |intros k l'; apply (live_heap _ (mkSocketRun w hs opens) k l' Hinv)].
    intros l' v Hv. simpl. rewrite lookup_insert. case_decide; [|by eexists]. subst l'.
    eexists. split; [reflexivity|]. congruence. }
  eexists. split; [reflexivity|].
  destruct (decide (us_count u = 0)) as [E0|E0].
  - rewrite decide_True by (by rewrite E0). unfold on_subscribe. rewrite Hp.
    destruct (sdk_writeJSON_keeps net w1 (SdkSubscribe (us_subscriptionPayload u)))
      as (E1 & E2 & E3 & E4 & _).
    split; [by rewrite E1|]. split; [by unfold live in *; rewrite E2, E3|].
    split; [by rewrite sdk_writeJSON_wire|].
    by apply (socket_inv_ext None (mkSocketRun w1 _ _)).
  - rewrite decide_False by (intros [= ?]; lia). split; [done|]. split; [done|]. split; [done|].
    exact Hinv'.
Qed.

Lemma subscribe_event net r p cb :
  let key := payload_Key p in
  socket_ok r ->
  exists r' id, socket_exec net r (EvSubscribe p cb) = Some r' /\ socket_ok r' /\
    sr_open r !! id = None /\ sr_open r' = <[id := (p, cb)]> (sr_open r) /\
    if decide (open_at (sr_open r) key = ∅)
    then live (sr_client r) !! key = None /\
         live (sr_client r') = <[key := p]> (live (sr_client r)) /\
         wire (sr_client r') = wire_write net (wire (sr_client r)) (SdkSubscribe p)
    else live (sr_client r') = live (sr_client r) /\ wire (sr_client r') = wire (sr_client r).
Proof.
  intros key [Hmu Hinv]. cbn [socket_exec]. unfold WebsocketClient_subscribe, lock_mu. rewrite Hmu.
  cbn [mbind option_bind].
  assert (socket_inv None (mkSocketRun (wc_with_mu (sr_client r) true) (sr_handles r) (sr_open r)))
    as Hlocked by by apply socket_inv_ext.
  destruct (find_subscriber (wc_with_mu (sr_client r) true) p) as [w l] eqn:Ef.
  destruct (find_subscriber_ok _ _ _ _ Hlocked Ef) as (Hw & Hl & _ & _ & Hc & Hs & Hcase).
  fold key in Hw, Hl, Hcase. cbn [sr_client sr_handles sr_open] in *.
  assert (socket_inv (Some key) (mkSocketRun (unlock_mu w) (sr_handles r) (sr_open r))) as Hw'
    by by apply (socket_inv_ext _ (mkSocketRun w _ _)).
  destruct (so_live _ _ Hw key l Hl) as (_ & u & Hu & Hok). cbn [sr_client sr_open] in Hu, Hok.
  destruct (register_event net (unlock_mu w) _ _ p cb l u Hw' Hl Hu)
    as (w' & Hreg & Hmu' & Hlive & Hwire & Hinv').
  fold key in Hreg, Hinv'. fold key. cbv beta iota zeta. rewrite Hreg.
  cbn [mbind option_bind ss_ID].
  eexists _, _. split; [reflexivity|]. split; [by split|]. split; [|split; [done|]].
  { destruct (sr_open r !! _) as [e|] eqn:Ee; [|done]. exfalso.
    apply (so_fresh _ _ Hw') in Ee.
    refine (issued_inj _ _ _ _ _ _ Ee _ eq_refl eq_refl). simpl. lia. }
  cbn [sr_client]. change (wire (unlock_mu w)) with (wire w) in Hwire.
  change (live (unlock_mu w)) with (live w) in Hlive.
  assert (wire w = wire (sr_client r)) as Ew by (unfold wire; by rewrite Hc, Hs).
  rewrite Hlive, Hwire, Ew. destruct Hok as [_ _ Hcount Hcbs].
  destruct Hcase as [[-> Hne]|(He & Hnone & Es & Eh & Hfr)].
  - rewrite decide_False by done. rewrite decide_False; [done|].
    rewrite Hcount, Hcbs, map_size_fmap. intros E0.
    apply Hne, map_size_empty_inv. lia.
  - rewrite decide_True by done.
    rewrite Eh, lookup_insert_eq in Hu. injection Hu as <-. rewrite decide_True by done.
    change (wc_subscribers (sr_client r) !! key = None) in Hnone.
    split; [by unfold live; rewrite lookup_omap, Hnone|]. split; [|done].
    apply map_eq. intros k. unfold live. rewrite lookup_omap, Es, Eh, !lookup_insert, lookup_omap.
    destruct (decide (key = k)) as [Hk|Hk].
    { cbn [mbind option_bind]. by rewrite lookup_insert_eq. }
    change (wc_subscribers (wc_with_mu (sr_client r) true)) with (wc_subscribers (sr_client r)).
    destruct (wc_subscribers _ !! k) as [l'|] eqn:El'; [|done]. simpl.
    rewrite lookup_insert_ne; [done|]. intros <-.
    destruct (live_heap _ _ _ _ Hinv El') as [? ?]. simpl in Hfr. congruence.
Qed.
(** The second half of a close that left the subscriber of a key empty. *)
Lemma on_unsubscribe_event net r key :
  socket_inv (Some key) r -> open_at (sr_open r) key = ∅ ->
  wc_mu (sr_client r) = false ->
  forall p l, wc_subscribers (sr_client r) !! key = Some l ->
  exists w, on_unsubscribe net (sr_client r) key p = Some w /\
    wc_mu w = false /\ socket_inv None (mkSocketRun w (sr_handles r) (sr_open r)) /\
    live w = delete key (live (sr_client r)) /\
    wire w = wire_write net (wire (sr_client r)) (SdkUnsubscribe p).
Proof.
  intros [Hf Hl Hc Hr Hh Hn] Hempty Hmu p l Hkey. unfold on_unsubscribe, lock_mu. rewrite Hmu.
  cbn [mbind option_bind]. eexists. split; [reflexivity|]. split; [done|].
  set (w1 := wc_with_subscribers _ _ _).
  destruct (sdk_writeJSON_keeps net w1 (SdkUnsubscribe p)) as (_ & E2 & E3 & E4 & _).
  assert (forall id e, sr_open r !! id = Some e -> payload_Key e.1 <> key) as Hno.
  { intros id e He Ek. assert (open_at (sr_open r) key !! id = Some e) as Hop
      by by apply open_at_lookup. by rewrite Hempty, lookup_empty in Hop. }
  split; [|split].
  - split; simpl; rewrite ?E2, ?E3, ?E4; simpl; try done.
    + intros k l'. rewrite lookup_delete. case_decide; [done|]. intros Hk.
      destruct (Hl k l' Hk) as ([[= ->]|Ho] & u & Hu & Hok); [done|].
      split; [by right|]. by exists u.
    + intros id e He. rewrite lookup_delete_ne; [by apply (Hc id)|].
      intros Ek. by apply (Hno id e).
    + intros l' u Hu. destruct (Hr l' u Hu) as [Hlive|]; [|by right].
      rewrite lookup_delete. case_decide as Hk; [right|by left].
      destruct (Hl _ _ Hlive) as (_ & u' & Hu' & Hok). rewrite Hu in Hu'. injection Hu' as <-.
      by rewrite (so_callbacks _ _ _ Hok), <- Hk, Hempty, fmap_empty.
    + intros h Hin. destruct (Hh h Hin) as (Hi & Hs & He). split; [done|]. split; [done|].
      intros e Hee. rewrite lookup_delete_ne; [by apply He|]. intros Ek. by apply (Hno _ _ Hee).
  - unfold live. simpl. rewrite E2, E3. apply map_eq. intros k. simpl.
    rewrite lookup_omap, !lookup_delete, lookup_omap. by case_decide.
  - unfold unlock_mu. change (wire (wc_with_mu ?w false)) with (wire w).
    by rewrite sdk_writeJSON_wire.
Qed.

Lemma close_event net r n h :
  socket_ok r -> sr_handles r !! n = Some h ->
  exists r', socket_exec net r (EvClose n) = Some r' /\ socket_ok r' /\
    sr_open r' = delete (ss_ID h) (sr_open r) /\
    match sr_open r !! ss_ID h with
    | None => live (sr_client r') = live (sr_client r) /\ wire (sr_client r') = wire (sr_client r)
    | Some e =>
        let key := payload_Key e.1 in
        if decide (open_at (delete (ss_ID h) (sr_open r)) key = ∅)
        then exists p, live (sr_client r) !! key = Some p /\
             live (sr_client r') = delete key (live (sr_client r)) /\
             wire (sr_client r') = wire_write net (wire (sr_client r)) (SdkUnsubscribe p)
        else live (sr_client r') = live (sr_client r) /\ wire (sr_client r') = wire (sr_client r)
    end.
Proof.
  intros [Hmu Hinv] Hn. cbn [socket_exec]. rewrite Hn. unfold Subscription_Close.
  pose proof (list_elem_of_lookup_2 _ _ _ Hn) as Hin.
  destruct (unregister_inv r h Hinv Hin) as (w & u & c & Hun & Hu & Es & Ehp & Hcase).
  rewrite Hun. cbn [mbind option_bind].
  assert (wc_mu w = false /\ wire w = wire (sr_client r)) as [Hmu' Hwire].
  { unfold unregister in Hun. destruct (wc_heap _ !! _) as [u0|]; [|done]. simpl in Hun.
    destruct (uniq_unsubscribe u0 (ss_ID h)) as [? ?]. injection Hun as <- _ _. by split. }
  assert (live w = live (sr_client r)) as Hlive.
  { apply live_ext; [done|done|intros k l; by apply (live_heap None r)]. }
  destruct (sr_open r !! ss_ID h) as [e|] eqn:Eo.
  - destruct Hcase as (Hl & [Hid Hkey Hcount Hcbs] & -> & Hinv'). cbn zeta.
    set (key := payload_Key e.1) in *. set (opens := delete (ss_ID h) (sr_open r)) in *.
    assert (us_count u = 0 <-> open_at opens key = ∅) as Hzero.
    { rewrite Hcount, Hcbs, map_size_fmap. split; [|intros ->; done].
      intros E0. apply map_size_empty_inv. lia. }
    destruct (decide (open_at opens key = ∅)) as [He|He].
    + rewrite decide_True by (f_equal; by apply Hzero). rewrite Hid.
      destruct (on_unsubscribe_event net (mkSocketRun w (sr_handles r) opens) key Hinv' He Hmu'
        (us_subscriptionPayload u) _ Hl) as (w' & Hw' & Hm' & Hi' & Hlv & Hwi).
      cbn [sr_client sr_handles sr_open] in *. rewrite Hw'. cbn [mbind option_bind].
      eexists. split; [reflexivity|]. split; [by split|]. split; [done|].
      exists (us_subscriptionPayload u). rewrite <- Hlive, <- Hwire. split; [|done].
      unfold live. rewrite lookup_omap, Hl. simpl. by rewrite Hu.
    + rewrite decide_False by (intros [= E0]; by apply He, Hzero).
      eexists. split; [reflexivity|]. split; [|by split].
      split; [done|]. destruct Hinv' as [Hf Hlv Hc Hr Hh Hnn]. split; try done.
      intros k l Hk. destruct (Hlv k l Hk) as ([[= <-]|Ho] & Hr0); (split; [by right|done]).
  - destruct Hcase as [-> Hinv']. rewrite decide_False by done.
    eexists. split; [reflexivity|]. rewrite delete_id by done. split; [by split|]. by split.
Qed.
(** ** Runs from a client just connected *)

Definition connected_client : WebsocketClient Callback :=
  wc_with_conn NewWebsocketClient OpenConn [].

Definition socket_start : socket_run := mkSocketRun connected_client [] ∅.

Lemma socket_start_ok : socket_ok socket_start.
Proof.
  split; [done|]. split; simpl; try done; intros *; rewrite ?lookup_empty; try done.
  by intros ?%not_elem_of_nil.
Qed.

Lemma socket_event_ok net r e : socket_ok r -> exists r', socket_exec net r e = Some r' /\ socket_ok r'.
Proof.
  intros Hr. destruct e as [p cb|n].
  - destruct (subscribe_event net r p cb Hr) as (r' & id & E & Hok & _). by exists r'.
  - destruct (sr_handles r !! n) as [h|] eqn:Eh.
    + destruct (close_event net r n h Hr Eh) as (r' & E & Hok & _). by exists r'.
    + exists r. cbn [socket_exec]. by rewrite Eh.
Qed.

Lemma socket_exec_all_snoc net r evs e :
  socket_exec_all net r (evs ++ [e]) = r ← socket_exec_all net r evs; socket_exec net r e.
Proof. unfold socket_exec_all. by rewrite fold_left_app_snoc. Qed.

Lemma socket_run_ok net evs :
  exists r, socket_exec_all net socket_start evs = Some r /\ socket_ok r.
Proof.
  induction evs as [|e evs (r & Hr & Hok)] using rev_ind.
  { exists socket_start. split; [done|apply socket_start_ok]. }
  destruct (socket_event_ok net r e Hok) as (r' & He & Hok'). exists r'.
  by rewrite socket_exec_all_snoc, Hr.
Qed.

(** The keys of the map are the keys with an open subscription. *)
Lemma live_open r key :
  socket_ok r -> is_Some (live (sr_client r) !! key) <-> open_at (sr_open r) key <> ∅.
Proof.
  intros [_ Hr]. unfold live. rewrite lookup_omap. split.
  - intros [p Hp]. destruct (wc_subscribers (sr_client r) !! key) as [l|] eqn:El; [|done].
    by destruct (so_live _ _ Hr key l El) as ([|?] & _).
  - intros (id & e & He)%map_choose. apply open_at_lookup in He as [He <-].
    destruct (so_covered _ _ Hr id e He) as [l Hl]. rewrite Hl. simpl.
    destruct (live_heap _ _ _ _ Hr Hl) as [u ->]. by eexists.
Qed.

Lemma served_snoc sent c : served (sent ++ [c]) = serve (served sent) c.
Proof. unfold served. by rewrite fold_left_app_snoc. Qed.

(** What the exchange serves on the connection is what the map asks for. *)
Definition serving (w : WebsocketClient Callback) : Prop :=
  wc_conn w = OpenConn /\ served (wc_sent w) ≡ₚ (map_to_list (live w)).*2.

Lemma serving_subscribe net (w w' : WebsocketClient Callback) key p :
  (forall v, net v = nil_error) -> serving w -> live w !! key = None ->
  live w' = <[key := p]> (live w) -> wire w' = wire_write net (wire w) (SdkSubscribe p) ->
  serving w'.
Proof.
  intros Hnet [Hc Hs] Hnone Hl Hw. unfold wire_write, wire in Hw. simpl in Hw.
  rewrite Hc, Hnet in Hw. injection Hw as Hc' Hs'. split; [done|].
  rewrite Hs', served_snoc, Hl, map_to_list_insert by done. simpl. rewrite Hs.
  symmetry. apply Permutation_cons_append.
Qed.

Lemma serving_unsubscribe net r (w' : WebsocketClient Callback) key p :
  (forall v, net v = nil_error) -> socket_inv None r -> serving (sr_client r) ->
  live (sr_client r) !! key = Some p -> live w' = delete key (live (sr_client r)) ->
  wire w' = wire_write net (wire (sr_client r)) (SdkUnsubscribe p) -> serving w'.
Proof.
  intros Hnet Hinv [Hc Hs] Hp Hl Hw. unfold wire_write, wire in Hw. simpl in Hw.
  rewrite Hc, Hnet in Hw. injection Hw as Hc' Hs'. split; [done|].
  rewrite Hs', served_snoc, Hl. simpl. rewrite Hs.
  rewrite <- (map_to_list_delete (live (sr_client r)) key p) by done.
  rewrite fmap_cons, filter_cons_False by (simpl; tauto).
  assert (forall q, q ∈ (map_to_list (delete key (live (sr_client r)))).*2 -> q <> p) as Hq.
  { intros q ([k q'] & -> & Hin)%list_elem_of_fmap. simpl.
    apply elem_of_map_to_list, lookup_delete_Some in Hin as [Hk Hq]. intros ->.
    apply (live_key _ _ _ _ Hinv) in Hp, Hq. congruence. }
  apply reflexive_eq, filter_all. by apply Forall_forall.
Qed.

(** C33. One remote subscription per key: whatever sequence of subscriptions
    (any payloads, any callbacks) and closes is made on a connected client
    whose frames are written, every call returns, and what the exchange then
    serves on the connection is exactly one payload for each key that has a
    subscription not closed yet, and nothing else. *)
Theorem socket_serves_open_keys net evs :
  (forall v, net v = nil_error) ->
  exists r, socket_exec_all net socket_start evs = Some r /\
    served (wc_sent (sr_client r)) ≡ₚ (map_to_list (live (sr_client r))).*2 /\
    (forall key, is_Some (live (sr_client r) !! key) <-> open_at (sr_open r) key <> ∅) /\
    (forall key p, live (sr_client r) !! key = Some p -> payload_Key p = key).
Proof.
  intros Hnet. assert (exists r, socket_exec_all net socket_start evs = Some r /\
    socket_ok r /\ serving (sr_client r)) as (r & Hr & Hok & Hs).
  { induction evs as [|e evs (r & Hr & Hok & Hs)] using rev_ind.
    { exists socket_start. split; [done|]. split; [apply socket_start_ok|done]. }
    rewrite socket_exec_all_snoc, Hr. cbn [mbind option_bind]. destruct e as [p cb|n].
    - destruct (subscribe_event net r p cb Hok) as (r' & id & E & Hok' & _ & _ & Hcase).
      exists r'. split; [done|]. split; [done|]. case_decide.
      + destruct Hcase as (? & ? & ?). by eapply serving_subscribe.
      + destruct Hcase as [Hl [= Hw1 Hw2]]. unfold serving. by rewrite Hl, Hw1, Hw2.
    - destruct (sr_handles r !! n) as [h|] eqn:Eh; [|exists r; cbn [socket_exec]; by rewrite Eh].
      destruct (close_event net r n h Hok Eh) as (r' & E & Hok' & _ & Hcase).
      exists r'. split; [done|]. split; [done|].
      destruct (sr_open r !! ss_ID h) as [e|]; [cbn zeta in Hcase; case_decide|].
      + destruct Hcase as (p & ? & ? & ?). by eapply (serving_unsubscribe net r); try apply Hok.
      + destruct Hcase as [Hl [= Hw1 Hw2]]. unfold serving. by rewrite Hl, Hw1, Hw2.
      + destruct Hcase as [Hl [= Hw1 Hw2]]. unfold serving. by rewrite Hl, Hw1, Hw2. }
  exists r. split; [done|]. split; [apply Hs|]. split; [by intros key; apply live_open|].
  intros key p. apply (live_key None), Hok.
Qed.
(** ** Delivery *)

(** A key is of one channel only. *)
Lemma key_channel p d : payload_Key p = data_Key d -> payload_Channel p = data_channel d.
Proof.
  destruct p, d as [[]| |[]| | | | | | |]; try reflexivity; intros E; exfalso; cbv in E; discriminate E.
Qed.

Lemma live_subscribers_at r key :
  socket_ok r ->
  concat (map (fun u => if decide (us_id u = key) then [u] else []) (live_subscribers (sr_client r))) =
  match wc_subscribers (sr_client r) !! key ≫= (fun l => wc_heap (sr_client r) !! l) with
  | Some u => [u] | None => [] end.
Proof.
  intros [_ Hr]. unfold live_subscribers.
  set (w := sr_client r) in *.
  assert (forall ls : list (string * loc), NoDup ls.*1 ->
    (forall k l, (k, l) ∈ ls -> wc_subscribers w !! k = Some l) ->
    concat (map (fun u => if decide (us_id u = key) then [u] else [])
              (omap (fun l => wc_heap w !! l) ls.*2)) =
    match list_find (fun kl => kl.1 = key) ls with
    | Some (_, (_, l)) => match wc_heap w !! l with Some u => [u] | None => [] end
    | None => [] end) as Hls.
  { induction ls as [|[k l] ls IH]; [done|]. intros [Hk Hnd]%NoDup_cons Hin.
    destruct (so_live _ _ Hr k l) as (_ & u & Hu & Hok); [apply Hin; left|].
    change (wc_heap w !! l = Some u) in Hu. csimpl. rewrite Hu. cbn [map concat].
    rewrite IH by (try done; intros; apply Hin; by right).
    rewrite (so_id _ _ _ Hok). destruct (decide (k = key)) as [->|Hne].
    - assert (list_find (fun kl => kl.1 = key) ls = None) as ->; [|by rewrite Hu].
      apply list_find_None, Forall_forall. intros [k' l'] Hin' Ek. simpl in Ek. subst k'.
      apply Hk, list_elem_of_fmap. by exists (key, l').
    - simpl. by destruct (list_find _ ls) as [[? [? ?]]|]. }
  rewrite Hls; [|apply NoDup_fst_go_range|intros k l; apply elem_of_go_range].
  destruct (list_find _ (go_range (wc_subscribers w))) as [[i [k l]]|] eqn:E.
  - apply list_find_Some in E as (Hi & Ek & _). simpl in Ek. subst k.
    apply list_elem_of_lookup_2, elem_of_go_range in Hi. by rewrite Hi.
  - destruct (wc_subscribers w !! key) as [l|] eqn:El; [|done].
    apply elem_of_go_range, (proj1 (Forall_forall _ _) (proj1 (list_find_None _ _) E)) in El. done.
Qed.

(** The callbacks of the open subscriptions of the message's key, with it. *)
Definition deliveries (r : socket_run) (d : wsData) : list (Callback * (wsData + string)) :=
  map (fun e => (e.2.2, inl d)) (map_to_list (open_at (sr_open r) (data_Key d))).

Lemma dispatch_ok Unmarshal r channel raw d :
  socket_ok r -> Unmarshal channel raw = inl d ->
  exists calls, WebsocketClient_dispatch Unmarshal (sr_client r) (channel_name channel) raw = inl calls /\
    calls ≡ₚ deliveries r d.
Proof.
  intros Hr Hd.
  assert (WebsocketClient_dispatch Unmarshal (sr_client r) (channel_name channel) raw =
    msg_dispatch Unmarshal channel (live_subscribers (sr_client r)) raw) as ->
    by by destruct channel.
  unfold msg_dispatch. rewrite Hd. eexists. split; [reflexivity|].
  set (key := data_Key d).
  assert (concat (map (fun u => if decide (us_id u = key) then uniq_dispatch u d else [])
                    (live_subscribers (sr_client r))) =
    concat (map (fun u => uniq_dispatch u d)
      (concat (map (fun u => if decide (us_id u = key) then [u] else [])
                 (live_subscribers (sr_client r)))))) as ->.
  { induction (live_subscribers (sr_client r)) as [|u us IH]; [done|]. simpl. rewrite IH.
    by destruct (decide _). }
  rewrite (live_subscribers_at r key Hr). unfold deliveries. fold key.
  destruct (wc_subscribers (sr_client r) !! key) as [l|] eqn:El; cbn [mbind option_bind].
  - destruct (so_live _ _ (proj2 Hr) key l El) as (_ & u & Hu & [_ _ _ Hcbs]).
    rewrite Hu. simpl. rewrite app_nil_r. unfold uniq_dispatch. rewrite go_range_perm, Hcbs.
    rewrite map_to_list_fmap. apply reflexive_eq. rewrite <- list_fmap_compose.
    change (map (run_typed d)) with (fmap (M := list) (run_typed d)).
    rewrite <- list_fmap_compose. apply list_fmap_ext. intros i [id e] Hi.
    apply list_elem_of_lookup_2, elem_of_map_to_list, open_at_lookup in Hi as [_ Ek].
    simpl. unfold run_typed. simpl. by rewrite decide_True by (symmetry; by apply key_channel).
  - assert (open_at (sr_open r) key = ∅) as ->; [|by rewrite map_to_list_empty].
    destruct (decide (open_at (sr_open r) key = ∅)) as [|Hne]; [done|].
    apply (live_open r key Hr) in Hne as [p Hp]. unfold live in Hp.
    by rewrite lookup_omap, El in Hp.
Qed.

(** C34. Delivery: after any such run (frames written or not), a message that
    decodes on its channel is given, once and with its own type, to exactly the
    callbacks of the subscriptions not closed yet whose key is the message's. *)
Theorem socket_delivers net evs Unmarshal channel raw d :
  Unmarshal channel raw = inl d ->
  exists r calls, socket_exec_all net socket_start evs = Some r /\
    WebsocketClient_dispatch Unmarshal (sr_client r) (channel_name channel) raw = inl calls /\
    calls ≡ₚ deliveries r d.
Proof.
  intros Hd. destruct (socket_run_ok net evs) as (r & Hr & Hok).
  destruct (dispatch_ok Unmarshal r channel raw d Hok Hd) as (calls & Hc & Hp).
  by exists r, calls.
Qed.
(** ** Connections *)

Lemma resubscribe_list_ok net ps : forall w : WebsocketClient Callback,
  (forall v, net v = nil_error) -> wc_conn w = OpenConn ->
  let '(w', err) := resubscribe_list net w ps in
  err = nil_error /\ wc_conn w' = OpenConn /\ wc_sent w' = wc_sent w ++ map SdkSubscribe ps /\
  wc_mu w' = wc_mu w /\ wc_subscribers w' = wc_subscribers w /\ wc_heap w' = wc_heap w /\
  wc_nextSubID w' = wc_nextSubID w.
Proof.
  induction ps as [|p ps IH]; intros w Hnet Hc; cbn [resubscribe_list map].
  { by rewrite app_nil_r. }
  unfold sdk_writeJSON. rewrite Hc, Hnet.
  specialize (IH (wc_with_conn w OpenConn (wc_sent w ++ [SdkSubscribe p])) Hnet eq_refl).
  destruct (resubscribe_list net _ ps) as [w' err]. simpl in IH.
  destruct IH as (-> & ? & -> & ? & ? & ? & ?). by rewrite <- app_assoc.
Qed.

Lemma served_subscriptions ps : served (map SdkSubscribe ps) = ps.
Proof.
  assert (forall q, fold_left serve (map SdkSubscribe ps) q = q ++ ps) as H0; [|apply H0].
  induction ps as [|p ps IH]; intros q; cbn [map fold_left]; [by rewrite app_nil_r|].
  rewrite IH. simpl. by rewrite <- app_assoc.
Qed.

Lemma live_payloads busy r :
  socket_inv busy r ->
  map us_subscriptionPayload (live_subscribers (sr_client r)) ≡ₚ
  (map_to_list (live (sr_client r))).*2.
Proof.
  intros Hr. unfold live_subscribers, live. rewrite go_range_perm.
  pose proof (fun k l => live_heap busy r k l Hr) as Hheap.
  revert Hheap. generalize (wc_subscribers (sr_client r)). intros m.
  induction m as [|k l m Hk IH] using map_ind; intros Hheap.
  { by rewrite omap_empty, !map_to_list_empty. }
  destruct (Hheap k l) as [u Hu]; [by rewrite lookup_insert_eq|].
  assert (omap (fun l => us_subscriptionPayload <$> wc_heap (sr_client r) !! l) m !! k = None)
    as Hk' by by rewrite lookup_omap, Hk.
  rewrite (omap_insert_Some _ _ _ _ (us_subscriptionPayload u)) by by rewrite Hu.
  rewrite !map_to_list_insert by done. csimpl. rewrite Hu. simpl. f_equiv. apply IH.
  intros k' l' Hk''. apply (Hheap k' l'). rewrite lookup_insert_ne; [done|]. congruence.
Qed.

(** Connecting a client without a connection, with a network that answers,
    subscribes the payloads of the keys that have open subscriptions. *)
Lemma Connect_subscribes net r :
  (forall v, net v = nil_error) -> socket_ok r -> wc_conn (sr_client r) = NoConn ->
  exists w', WebsocketClient_Connect nil_error net (sr_client r) = Some (w', nil_error) /\
    wc_conn w' = OpenConn /\ served (wc_sent w') ≡ₚ (map_to_list (live (sr_client r))).*2 /\
    live w' = live (sr_client r).
Proof.
  intros Hnet [Hmu Hinv] Hc. unfold WebsocketClient_Connect, lock_mu. rewrite Hmu.
  cbn [mbind option_bind wc_conn wc_with_mu]. rewrite decide_False by (rewrite Hc; tauto).
  unfold resubscribeAll. match goal with |- context [resubscribe_list net ?w1 ?ps] =>
    pose proof (resubscribe_list_ok net ps w1 Hnet eq_refl) as Hl;
    destruct (resubscribe_list net w1 ps) as [w2 err] end.
  destruct Hl as (-> & Hc' & Hs & _ & Es & Eh & _). simpl in Hs, Es, Eh.
  eexists. split; [reflexivity|]. simpl. split; [done|]. split.
  - rewrite Hs, served_subscriptions. apply (live_payloads None r Hinv).
  - unfold live. simpl. by rewrite Es, Eh.
Qed.

(** Reconnection restores: connecting a client whose connection was lost
    (the read loop ended), with a network that answers, subscribes on the new
    connection exactly the payloads of the keys that have open subscriptions. *)
Theorem Connect_restores net evs r w :
  (forall v, net v = nil_error) -> socket_exec_all net socket_start evs = Some r ->
  readPump_exit (sr_client r) = Some w ->
  exists w', WebsocketClient_Connect nil_error net w = Some (w', nil_error) /\
    wc_conn w' = OpenConn /\ served (wc_sent w') ≡ₚ (map_to_list (live (sr_client r))).*2 /\
    live w' = live (sr_client r).
Proof.
  intros Hnet Hr Hw. destruct (socket_run_ok net evs) as (r' & Hr' & Hmu & Hinv).
  rewrite Hr in Hr'. injection Hr' as <-.
  unfold readPump_exit, lock_mu in Hw. rewrite Hmu in Hw. injection Hw as <-.
  set (w := unlock_mu _). apply (Connect_subscribes net (mkSocketRun w (sr_handles r) (sr_open r)) Hnet); [|done].
  split; [done|]. by apply socket_inv_ext.
Qed.

Lemma Connect_failed net (w : WebsocketClient Callback) err :
  wc_mu w = false -> wc_conn w = NoConn -> (forall v, net v = Some err) ->
  live_subscribers w <> [] ->
  exists err', WebsocketClient_Connect nil_error net w =
    Some (unlock_mu (wc_with_conn (wc_with_mu w true) OpenConn []), Some err').
Proof.
  intros Hmu Hc Hnet Hne. unfold WebsocketClient_Connect, lock_mu. rewrite Hmu.
  cbn [mbind option_bind wc_conn wc_with_mu]. rewrite decide_False by (rewrite Hc; tauto).
  unfold resubscribeAll. change (live_subscribers (wc_with_conn _ _ _)) with (live_subscribers w).
  destruct (live_subscribers w) as [|u us]; [done|]. cbn [map resubscribe_list].
  unfold sdk_writeJSON. cbn [wc_conn wc_with_conn]. rewrite Hnet. by eexists.
Qed.

Lemma Connect_connected dial net (w : WebsocketClient Callback) :
  wc_mu w = false -> wc_conn w <> NoConn ->
  WebsocketClient_Connect dial net w = Some (unlock_mu (wc_with_mu w true), nil_error).
Proof.
  intros Hmu Hc. unfold WebsocketClient_Connect, lock_mu. rewrite Hmu.
  cbn [mbind option_bind wc_conn wc_with_mu]. by rewrite decide_True.
Qed.

(** A failed resubscription is not retried: when the new connection is made
    but a subscription cannot be written, [Connect] fails with the connection
    kept; the next attempt of [reconnect] finds it and reports success, and
    none of the open subscriptions is served. *)
Theorem reconnect_abandons_subscriptions net net1 net2 dial2 evs r w err :
  socket_exec_all net socket_start evs = Some r -> sr_open r <> ∅ ->
  readPump_exit (sr_client r) = Some w -> (forall v, net1 v = Some err) ->
  exists w', WebsocketClient_reconnect [(nil_error, net1); (dial2, net2)] w = Some (w', true) /\
    served (wc_sent w') = [] /\ live w' = live (sr_client r) /\ live w' <> ∅.
Proof.
  intros Hr Hopen Hw Hnet1. destruct (socket_run_ok net evs) as (r' & Hr' & Hmu & Hinv).
  rewrite Hr in Hr'. injection Hr' as <-.
  unfold readPump_exit, lock_mu in Hw. rewrite Hmu in Hw. injection Hw as <-.
  assert (live (sr_client r) <> ∅) as Hne.
  { apply map_choose in Hopen as (id & e & He).
    assert (open_at (sr_open r) (payload_Key e.1) <> ∅) as Ho.
    { intros E. assert (open_at (sr_open r) (payload_Key e.1) !! id = Some e) as Hx
        by by apply open_at_lookup. by rewrite E, lookup_empty in Hx. }
    apply (live_open r) in Ho as [p Hp]; [|done]. intros E. by rewrite E, lookup_empty in Hp. }
  set (w := unlock_mu _).
  destruct (Connect_failed net1 w err) as [err' E1]; [done|done|done| |].
  { change (live_subscribers w) with (live_subscribers (sr_client r)). intros E.
    apply Hne, map_to_list_empty_iff. pose proof (live_payloads None r Hinv) as Hp.
    rewrite E in Hp. apply Permutation_nil_l in Hp. symmetry in Hp. by apply fmap_nil_inv in Hp. }
  cbn [WebsocketClient_reconnect]. rewrite E1. cbn [mbind option_bind].
  rewrite Connect_connected by done. cbn [mbind option_bind].
  eexists. split; [reflexivity|]. done.
Qed.

Lemma clear_stuck net (w : WebsocketClient Callback) l :
  wc_mu w = true -> clear_subscriber net (Some w) l = None.
Proof.
  intros Hmu. unfold clear_subscriber. cbn [mbind option_bind].
  destruct (wc_heap w !! l) as [u|]; [|done]. cbn [mbind option_bind].
  unfold on_unsubscribe, lock_mu. simpl. by rewrite Hmu.
Qed.

Lemma clear_none net ls :
  fold_left (clear_subscriber (Callback := Callback) net) ls None = None.
Proof. by induction ls. Qed.

(** [Close] on a client that has subscribers but no connection never
    returns: it clears each subscriber while it holds the mutex, and the
    subscriber's unsubscription locks that mutex again. *)
Theorem Close_deadlocks net net' evs r w :
  socket_exec_all net socket_start evs = Some r -> sr_open r <> ∅ ->
  readPump_exit (sr_client r) = Some w -> wc_closed w = false ->
  WebsocketClient_Close net' w = None.
Proof.
  intros Hr Hopen Hw Hcl. destruct (socket_run_ok net evs) as (r' & Hr' & Hmu & Hinv).
  rewrite Hr in Hr'. injection Hr' as <-.
  unfold readPump_exit, lock_mu in Hw. rewrite Hmu in Hw. injection Hw as <-.
  unfold WebsocketClient_Close. simpl in Hcl |- *. rewrite Hcl. cbn [lock_mu].
  apply map_choose in Hopen as (id & e & He).
  destruct (so_covered _ _ Hinv id e He) as [l Hl].
  assert (exists l0 ls, (go_range (wc_subscribers (sr_client r))).*2 = l0 :: ls) as (l0 & ls & Els).
  { destruct (go_range (wc_subscribers (sr_client r))) as [|[k l0] es] eqn:E; [|by eexists _, _].
    apply elem_of_go_range in Hl. rewrite E in Hl. by apply not_elem_of_nil in Hl. }
  cbn [mbind option_bind wc_conn wc_with_mu wc_with_closed wc_with_conn unlock_mu].
  rewrite Els. cbn [fold_left].
  rewrite clear_stuck by done. by rewrite clear_none.
Qed.
Lemma on_unsubscribe_some net (w : WebsocketClient Callback) key p :
  wc_mu w = false ->
  exists w', on_unsubscribe net w key p = Some w' /\
    wc_subscribers w' = delete key (wc_subscribers w) /\ wc_heap w' = wc_heap w /\
    wire w' = wire_write net (wire w) (SdkUnsubscribe p).
Proof.
  intros Hmu. unfold on_unsubscribe, lock_mu. rewrite Hmu. cbn [mbind option_bind].
  set (w1 := wc_with_subscribers _ _ _).
  destruct (sdk_writeJSON_keeps net w1 (SdkUnsubscribe p)) as (_ & E2 & E3 & _).
  eexists. split; [reflexivity|]. split; [exact E2|]. split; [exact E3|].
  change (wire (unlock_mu ?w)) with (wire w). by rewrite sdk_writeJSON_wire.
Qed.

Lemma dispatch_none Unmarshal (w : WebsocketClient Callback) channel raw d :
  Unmarshal channel raw = inl d ->
  Forall (fun u => us_id u <> data_Key d) (live_subscribers w) ->
  WebsocketClient_dispatch Unmarshal w (channel_name channel) raw = inl [].
Proof.
  intros Hd Hall.
  assert (WebsocketClient_dispatch Unmarshal w (channel_name channel) raw =
    msg_dispatch Unmarshal channel (live_subscribers w) raw) as -> by by destruct channel.
  unfold msg_dispatch. rewrite Hd. f_equal.
  induction Hall as [|u us Hu _ IH]; [done|]. cbn [map concat]. by rewrite decide_False, IH.
Qed.

(** The last close of a key and a new subscription of it can interleave:
    the subscription that comes between the two halves of the close is made,
    but its subscriber is then taken out of the map and the exchange told to
    stop, and no message of the key reaches its callback. *)
Theorem close_races_subscribe net evs r n h p cb :
  (forall v, net v = nil_error) -> socket_exec_all net socket_start evs = Some r ->
  sr_handles r !! n = Some h -> wc_conn (sr_client r) = OpenConn ->
  (exists e, sr_open r !! ss_ID h = Some e /\ payload_Key e.1 = payload_Key p) ->
  open_at (delete (ss_ID h) (sr_open r)) (payload_Key p) = ∅ ->
  exists w1 u w2 h2 w3,
    unregister (sr_client r) h = Some (w1, u, Some 0) /\
    WebsocketClient_subscribe net w1 p (Some cb) = Some (w2, inl h2) /\
    on_unsubscribe net w2 (us_id u) (us_subscriptionPayload u) = Some w3 /\
    wc_subscribers w3 !! payload_Key p = None /\
    us_subscriptionPayload u ∉ served (wc_sent w3) /\
    forall Unmarshal channel raw d, Unmarshal channel raw = inl d -> data_Key d = payload_Key p ->
      WebsocketClient_dispatch Unmarshal w3 (channel_name channel) raw = inl [].
Proof.
  intros Hnet Hr Hn Hopenc (e & He & Ekey) Hempty.
  destruct (socket_run_ok net evs) as (r' & Hr' & Hmu & Hinv).
  rewrite Hr in Hr'. injection Hr' as <-.
  destruct (unregister_inv r h Hinv (list_elem_of_lookup_2 _ _ _ Hn))
    as (w1 & u & c & Hun & Hu & Es & _ & Hcase).
  rewrite He in Hcase. destruct Hcase as (Hl & [Hid _ Hcount Hcbs] & -> & Hinv1).
  cbn zeta in *. rewrite Ekey in *. set (key := payload_Key p) in *.
  assert (us_count u = 0) as E0 by by rewrite Hcount, Hcbs, Hempty, fmap_empty.
  assert (wc_mu w1 = false /\ wc_conn w1 = OpenConn) as [Hmu1 Hc1].
  { unfold unregister in Hun. destruct (wc_heap _ !! _) as [u0|]; [|done]. simpl in Hun.
    destruct (uniq_unsubscribe u0 (ss_ID h)) as [? ?]. injection Hun as <- _ _. by split. }
  set (w1' := unlock_mu (wc_with_mu w1 true)).
  assert (socket_inv (Some key) (mkSocketRun w1' (sr_handles r) (delete (ss_ID h) (sr_open r))))
    as Hinv1' by by apply (socket_inv_ext _ (mkSocketRun w1 _ _)).
  destruct (register_event net w1' _ _ p cb _ _ Hinv1' Hl Hu)
    as (w2 & Hreg & Hmu2 & _ & Hwire & Hinv2).
  rewrite decide_True in Hwire by done.
  destruct (on_unsubscribe_some net w2 (us_id u) (us_subscriptionPayload u) Hmu2)
    as (w3 & Hw3 & Es3 & Eh3 & Hwire3).
  eexists w1, u, w2, _, w3. split; [by rewrite Hun, E0|]. split.
  { unfold WebsocketClient_subscribe, lock_mu. rewrite Hmu1. cbn [mbind option_bind].
    unfold find_subscriber. fold key. cbn [wc_subscribers wc_with_mu]. rewrite Hl.
    cbv beta iota zeta. fold w1'. fold key in Hreg. rewrite Hreg. reflexivity. }
  split; [exact Hw3|]. rewrite Es3, Hid. split; [by rewrite lookup_delete_eq|]. split.
  { unfold wire_write, wire in Hwire, Hwire3. simpl in Hwire, Hwire3. rewrite Hc1, Hnet in Hwire.
    injection Hwire as Hc2 Hs2. rewrite Hc2, Hnet in Hwire3. injection Hwire3 as _ ->.
    rewrite served_snoc. simpl. intros [Hx _]%list_elem_of_filter. done. }
  intros Unmarshal channel raw d Hd Ed. apply (dispatch_none _ _ _ _ d Hd).
  apply Forall_forall. intros u' Hin. unfold live_subscribers in Hin.
  apply list_elem_of_omap in Hin as (l & ([k l'] & -> & Hk%elem_of_go_range)%list_elem_of_fmap & Hu').
  rewrite Es3, Hid in Hk. apply lookup_delete_Some in Hk as [Hne Hk]. simpl in Hu'.
  rewrite Eh3 in Hu'. pose proof (live_subscriber None _ k l' u' Hinv2 Hk Hu') as Hok'.
  rewrite (so_id _ _ _ Hok'), Ed. congruence.
Qed.
(** Users share the order updates: subscribing the order updates of two
    users subscribes only the first with the exchange, since the key names no
    user, and both callbacks get every message of the channel. *)
Theorem order_updates_shared net Unmarshal a b ca cb raw orders :
  (forall v, net v = nil_error) -> Unmarshal SdkOrderUpdates raw = inl (DWsOrders orders) ->
  exists r calls,
    socket_exec_all net socket_start
      [EvSubscribe (OrderUpdatesPayload a) ca; EvSubscribe (OrderUpdatesPayload b) cb] = Some r /\
    served (wc_sent (sr_client r)) = [OrderUpdatesPayload a] /\
    WebsocketClient_dispatch Unmarshal (sr_client r) "orderUpdates" raw = inl calls /\
    calls ≡ₚ [(ca, inl (DWsOrders orders)); (cb, inl (DWsOrders orders))].
Proof.
  intros Hnet Hd.
  destruct (subscribe_event net socket_start (OrderUpdatesPayload a) ca socket_start_ok)
    as (r1 & id1 & E1 & Hok1 & _ & Ho1 & Hc1).
  rewrite decide_True in Hc1 by done. destruct Hc1 as (_ & _ & Hw1).
  destruct (subscribe_event net r1 (OrderUpdatesPayload b) cb Hok1)
    as (r2 & id2 & E2 & Hok2 & Hnew & Ho2 & Hc2).
  assert (open_at (sr_open r1) (payload_Key (OrderUpdatesPayload b)) !! id1 =
    Some (OrderUpdatesPayload a, ca)) as Hopen.
  { apply open_at_lookup. split; [|done]. rewrite Ho1. apply lookup_insert_eq. }
  rewrite decide_False in Hc2 by (intros E; by rewrite E, lookup_empty in Hopen).
  destruct Hc2 as [_ Hw2].
  destruct (dispatch_ok Unmarshal r2 SdkOrderUpdates raw _ Hok2 Hd) as (calls & Hcalls & Hp).
  exists r2, calls. split.
  { unfold socket_exec_all. cbn [fold_left mbind option_bind]. rewrite E1. exact E2. }
  split; [|split; [exact Hcalls|]].
  { unfold wire_write, wire in Hw1, Hw2. simpl in Hw1. rewrite Hnet in Hw1.
    injection Hw1 as _ Hs1. injection Hw2 as _ ->. by rewrite Hs1. }
  rewrite Hp. unfold deliveries. rewrite Ho2, Ho1. rewrite Ho1 in Hnew.
  change (sr_open socket_start) with (∅ : gmap string (payload * Callback)) in *.
  rewrite !open_at_insert by (done || apply lookup_empty).
  rewrite !decide_True by done. unfold open_at. rewrite map_filter_empty.
  rewrite !map_to_list_insert, map_to_list_empty by (done || apply lookup_empty). simpl.
  apply Permutation_swap.
Qed.
End runs.

(** ** Witnesses *)

#[local] Existing Instance listing_order.

Definition net_up (v : sdk_command) : error := nil_error.

(** A decoder that reads every text as an empty message of its channel. *)
Definition sample_Unmarshal (c : sdk_channel) (raw : string) : wsData + string :=
  match c with
  | SdkOrderUpdates => inl (DWsOrders [])
  | SdkUserFills => inl (DWsOrderFills (mkWsOrderFills false raw []))
  | SdkBbo => inl (DBbo (mkBbo raw 0 []))
  | _ => inr "not decoded"
  end.

Definition sample_events : list (socket_event (Callback := Z)) :=
  [EvSubscribe (OrderFillsPayload "0xab") 1; EvSubscribe (BboPayload "BTC") 2;
   EvSubscribe (OrderFillsPayload "0xab") 3; EvClose 1; EvClose 0].

Lemma socket_serves_open_keys_witness :
  exists r, socket_exec_all net_up socket_start sample_events = Some r /\
    served (wc_sent (sr_client r)) = [OrderFillsPayload "0xab"].
Proof.
  destruct (socket_serves_open_keys net_up sample_events (fun v => eq_refl))
    as (r & Hr & Hs & _).
  exists r. split; [exact Hr|]. vm_compute in Hr. injection Hr as <-. vm_compute. reflexivity.
Defined.

Lemma socket_delivers_witness :
  exists r calls, socket_exec_all net_up socket_start sample_events = Some r /\
    WebsocketClient_dispatch sample_Unmarshal (sr_client r) "userFills" "0xab" = inl calls /\
    calls = [(3, inl (DWsOrderFills (mkWsOrderFills false "0xab" [])))].
Proof.
  destruct (socket_delivers net_up sample_events sample_Unmarshal SdkUserFills "0xab" _ eq_refl)
    as (r & calls & Hr & Hc & Hp).
  exists r, calls. split; [exact Hr|]. split; [exact Hc|].
  vm_compute in Hr. injection Hr as <-. vm_compute in Hp. by apply Permutation_singleton_r in Hp.
Defined.

Definition sample_socket : socket_run (Callback := Z) :=
  match socket_exec_all net_up socket_start sample_events with
  | Some r => r | None => socket_start end.

Definition dropped_socket : WebsocketClient Z :=
  default NewWebsocketClient (readPump_exit (sr_client sample_socket)).

Lemma lookup_nonempty {A} (m : gmap string A) key : is_Some (m !! key) -> m <> ∅.
Proof. intros [x Hx] ->. by rewrite lookup_empty in Hx. Qed.

Lemma sample_socket_open : sr_open sample_socket <> ∅.
Proof. apply (lookup_nonempty _ "userFills:0xab:3"). vm_compute. by eexists. Qed.

Lemma Connect_restores_witness :
  exists w, WebsocketClient_Connect nil_error net_up dropped_socket = Some (w, nil_error) /\
    wc_conn w = OpenConn.
Proof.
  destruct (Connect_restores net_up sample_events sample_socket dropped_socket
    (fun v => eq_refl) ltac:(vm_compute; reflexivity) ltac:(vm_compute; reflexivity))
    as (w & Hw & Hc & _).
  exists w. split; [exact Hw|exact Hc].
Defined.

Lemma reconnect_abandons_subscriptions_witness :
  exists w, WebsocketClient_reconnect
    [(nil_error, fun _ => Some "write: broken pipe"); (nil_error, net_up)] dropped_socket
    = Some (w, true) /\ served (wc_sent w) = [].
Proof.
  destruct (reconnect_abandons_subscriptions net_up (fun _ => Some "write: broken pipe"%string)
    net_up nil_error sample_events sample_socket dropped_socket "write: broken pipe"
    ltac:(vm_compute; reflexivity) sample_socket_open
    ltac:(vm_compute; reflexivity) (fun v => eq_refl)) as (w & Hw & Hs & _).
  exists w. split; [exact Hw|exact Hs].
Defined.

Lemma Close_deadlocks_witness : WebsocketClient_Close net_up dropped_socket = None.
Proof.
  apply (Close_deadlocks net_up net_up sample_events sample_socket dropped_socket).
  - vm_compute. reflexivity.
  - exact sample_socket_open.
  - vm_compute. reflexivity.
  - vm_compute. reflexivity.
Defined.

(** The third subscription is the last of its key; a new one comes while it is closed. *)
Lemma close_races_subscribe_witness :
  exists w1 u w2 h2 w3,
    unregister (sr_client sample_socket)
      (mkSdkSubscription "userFills:0xab:3" 1) = Some (w1, u, Some 0) /\
    WebsocketClient_subscribe net_up w1 (OrderFillsPayload "0xab") (Some 4) = Some (w2, inl h2) /\
    on_unsubscribe net_up w2 (us_id u) (us_subscriptionPayload u) = Some w3 /\
    wc_subscribers w3 !! "userFills:0xab"%string = None.
Proof.
  destruct (close_races_subscribe net_up sample_events sample_socket 2
    (mkSdkSubscription "userFills:0xab:3" 1) (OrderFillsPayload "0xab") 4
    (fun v => eq_refl) ltac:(vm_compute; reflexivity) ltac:(vm_compute; reflexivity)
    ltac:(vm_compute; reflexivity)
    ltac:(exists (OrderFillsPayload "0xab", 3); split; vm_compute; reflexivity)
    ltac:(vm_compute; reflexivity)) as (w1 & u & w2 & h2 & w3 & H1 & H2 & H3 & H4 & _).
  exists w1, u, w2, h2, w3. split; [exact H1|]. split; [exact H2|]. split; [exact H3|exact H4].
Defined.

Lemma order_updates_shared_witness :
  exists r calls,
    socket_exec_all net_up socket_start
      [EvSubscribe (OrderUpdatesPayload "0xa") 1; EvSubscribe (OrderUpdatesPayload "0xb") 2] = Some r /\
    WebsocketClient_dispatch sample_Unmarshal (sr_client r) "orderUpdates" "[]" = inl calls /\
    calls ≡ₚ [(1, inl (DWsOrders [])); (2, inl (DWsOrders []))].
Proof.
  destruct (order_updates_shared net_up sample_Unmarshal "0xa" "0xb" 1 2 "[]" []
    (fun v => eq_refl) eq_refl) as (r & calls & Hr & _ & Hc & Hp).
  exists r, calls. split; [exact Hr|]. split; [exact Hc|exact Hp].
Defined.
