(* ===== verification/SdkPumps.v ===== *)
(** * The goroutines of the websocket client of pkg/go-hyperliquid

    ws.go: [Connect] starts a readPump and a pingPump for the connection it
    dials.  The readPump closes the connection and forgets it when it ends; the
    pingPump writes a ping every fifty seconds and, when that fails, calls
    [reconnect].  A run is a sequence of events: one step of a goroutine,
    between two accesses to what is shared; a call of the client, made at one
    go but for [Close], which is two steps; or something the network or the
    context does. *)

From Stdlib Require Import ZArith Lia.
From stdpp Require Import gmap strings list.
From S2P Require Import Prelude GoStrings SdkSocket.
Local Open Scope Z_scope.

Section pumps.
Context {Callback : Type} `{MapRange}.

(** ** The goroutines

    [ReadTop]: at the [select]; [ReadBlocked k]: in [ReadMessage] of the
    [k]-th connection dialled; [ReadEnding]: in the deferred function. *)
Inductive read_pump : Type := ReadTop | ReadBlocked (k : nat) | ReadEnding | ReadEnded.

(** [PingWaiting]: at the [select] of pingPump; [PingWriting]: in [writeJSON],
    past the test of [w.conn]; [PingRedialing]: at the [select] of
    [reconnect]; [PingConnecting]: past it, calling [Connect], before it has
    [w.mu]; [PingSleeping]: in its [time.Sleep]. *)
Inductive ping_pump : Type :=
| PingWaiting | PingWriting | PingRedialing | PingConnecting | PingSleeping | PingEnded.

(** The call of [close] that [closeOnce] lets through: it has closed [w.done]
    and waits for [w.mu]; or it holds [w.mu] and the mutex of the subscriber
    [l], whose unsubscription waits for [w.mu], for ever; or it has returned. *)
Inductive close_call : Type := CloseIdle | CloseLocking | CloseStuck (l : loc) | CloseReturned.

#[export] Instance read_pump_eq_dec : EqDecision read_pump.
Proof. solve_decision. Defined.
#[export] Instance ping_pump_eq_dec : EqDecision ping_pump.
Proof. solve_decision. Defined.
#[export] Instance close_call_eq_dec : EqDecision close_call.
Proof. solve_decision. Defined.

(** [pu_dials]: connections dialled, the last of which is [w.conn] when that is
    not nil; [pu_dropped]: reads of the last one fail, the peer or the network
    having ended it; [pu_calls]: calls the readPumps made; [pu_panicked]: a
    goroutine has called a method on a nil connection, which ends the process. *)
Record pump_run := mkPumpRun {
  pu_socket : socket_run (Callback := Callback);
  pu_dials : nat;
  pu_dropped : bool;
  pu_cancelled : bool;                             (* ctx is done *)
  pu_readers : list read_pump;
  pu_pingers : list ping_pump;
  pu_calls : list (Callback * (wsData + string));
  pu_close : close_call;
  pu_panicked : bool;
}.

Definition pu_client (r : pump_run) : WebsocketClient Callback := sr_client (pu_socket r).

Definition with_socket s r : pump_run :=
  mkPumpRun s (pu_dials r) (pu_dropped r) (pu_cancelled r) (pu_readers r) (pu_pingers r)
    (pu_calls r) (pu_close r) (pu_panicked r).
Definition with_client w r : pump_run :=
  with_socket (mkSocketRun w (sr_handles (pu_socket r)) (sr_open (pu_socket r))) r.
Definition with_reader (i : nat) p r : pump_run :=
  mkPumpRun (pu_socket r) (pu_dials r) (pu_dropped r) (pu_cancelled r) (<[i := p]> (pu_readers r))
    (pu_pingers r) (pu_calls r) (pu_close r) (pu_panicked r).
Definition with_pinger (i : nat) p r : pump_run :=
  mkPumpRun (pu_socket r) (pu_dials r) (pu_dropped r) (pu_cancelled r) (pu_readers r)
    (<[i := p]> (pu_pingers r)) (pu_calls r) (pu_close r) (pu_panicked r).
Definition with_calls calls r : pump_run :=
  mkPumpRun (pu_socket r) (pu_dials r) (pu_dropped r) (pu_cancelled r) (pu_readers r)
    (pu_pingers r) (pu_calls r ++ calls) (pu_close r) (pu_panicked r).
Definition with_dropped r : pump_run :=
  mkPumpRun (pu_socket r) (pu_dials r) true (pu_cancelled r) (pu_readers r) (pu_pingers r)
    (pu_calls r) (pu_close r) (pu_panicked r).
Definition with_cancelled r : pump_run :=
  mkPumpRun (pu_socket r) (pu_dials r) (pu_dropped r) true (pu_readers r) (pu_pingers r)
    (pu_calls r) (pu_close r) (pu_panicked r).
Definition with_close c r : pump_run :=
  mkPumpRun (pu_socket r) (pu_dials r) (pu_dropped r) (pu_cancelled r) (pu_readers r) (pu_pingers r)
    (pu_calls r) c (pu_panicked r).
Definition with_panic r : pump_run :=
  mkPumpRun (pu_socket r) (pu_dials r) (pu_dropped r) (pu_cancelled r) (pu_readers r) (pu_pingers r)
    (pu_calls r) (pu_close r) true.

(** The two [go] statements of [Connect]. *)
Definition start_pumps r : pump_run :=
  mkPumpRun (pu_socket r) (S (pu_dials r)) false (pu_cancelled r) (pu_readers r ++ [ReadTop])
    (pu_pingers r ++ [PingWaiting]) (pu_calls r) (pu_close r) (pu_panicked r).

(** A client nobody has connected yet. *)
Definition pump_start : pump_run :=
  mkPumpRun (mkSocketRun NewWebsocketClient [] ∅) 0 false false [] [] [] CloseIdle false.

(** ** Steps *)

(** [<-w.done] or [<-ctx.Done()] can be received. *)
Definition stopped (r : pump_run) : bool := wc_closed (pu_client r) || pu_cancelled r.

(** Whether the [k]-th connection is still [w.conn] and has not been closed on
    this side. *)
Definition conn_open (r : pump_run) (k : nat) : bool :=
  bool_decide (wc_conn (pu_client r) = OpenConn) && bool_decide (k = pu_dials r).

(** [Connect], with the goroutines it starts: they are started once the dial
    has succeeded, whatever the subscriptions' writes answer. *)
Definition pump_Connect (dial : error) (net : sdk_command -> error) (r : pump_run)
    : option (pump_run * error) :=
  '(w, err) ← WebsocketClient_Connect dial net (pu_client r);
  let r' := with_client w r in
  Some (if decide (wc_conn (pu_client r) = NoConn /\ dial = nil_error) then start_pumps r' else r', err).

Context (parse : string -> string * string + string)
        (Unmarshal : sdk_channel -> string -> wsData + string).

(** What the loop does with a frame: errors are only logged. *)
Definition read_frame (frame : string) (r : pump_run) : pump_run :=
  match parse frame with
  | inr _ => r
  | inl (Channel, Data) =>
      match WebsocketClient_dispatch Unmarshal (pu_client r) Channel Data with
      | inr _ => r
      | inl calls => with_calls calls r
      end
  end.

(** A step of the [i]-th readPump; [frame] is the frame its read returns. *)
Definition read_step (i : nat) (frame : option string) (r : pump_run) : option pump_run :=
  match pu_readers r !! i, frame with
  | Some ReadTop, None =>
      if stopped r then Some (with_reader i ReadEnding r)
      else if decide (wc_conn (pu_client r) = NoConn) then Some (with_panic r)
      else Some (with_reader i (ReadBlocked (pu_dials r)) r)
  | Some (ReadBlocked k), Some frame =>
      if conn_open r k then Some (with_reader i ReadTop (read_frame frame r)) else None
  | Some (ReadBlocked k), None =>
      if negb (conn_open r k) || pu_dropped r then Some (with_reader i ReadEnding r) else None
  | Some ReadEnding, None =>
      w ← readPump_exit (pu_client r);
      Some (with_reader i ReadEnded (with_client w r))
  | _, _ => None
  end.

Inductive ping_move : Type :=
| Stopping                                         (* done or ctx.Done() is received *)
| Ticking                                          (* the ticker's channel is received *)
| Writing (net : sdk_command -> error)
| Attempting                                       (* the default case of reconnect's select *)
| Redialing (dial : error) (net : sdk_command -> error)
| Waking.

(** A step of the [i]-th pingPump.  [writeJSON] tests [w.conn] and then calls
    its method, holding [writeMu] only. *)
Definition ping_step (i : nat) (move : ping_move) (r : pump_run) : option pump_run :=
  match pu_pingers r !! i, move with
  | Some PingWaiting, Stopping | Some PingRedialing, Stopping =>
      if stopped r then Some (with_pinger i PingEnded r) else None
  | Some PingWaiting, Ticking =>
      Some (with_pinger i (if decide (wc_conn (pu_client r) = NoConn) then PingRedialing else PingWriting) r)
  | Some PingWriting, Writing net =>
      if decide (wc_conn (pu_client r) = NoConn) then Some (with_panic r)
      else
        let '(w, err) := sdk_writeJSON net (pu_client r) SdkPing in
        Some (with_pinger i (match err with None => PingWaiting | Some _ => PingRedialing end)
                (with_client w r))
  | Some PingRedialing, Attempting =>
      if stopped r then None else Some (with_pinger i PingConnecting r)
  | Some PingConnecting, Redialing dial net =>
      '(r, err) ← pump_Connect dial net r;
      Some (with_pinger i (match err with None => PingEnded | Some _ => PingSleeping end) r)
  | Some PingSleeping, Waking =>
      Some (with_pinger i PingRedialing
              (with_client (wc_with_reconnect (pu_client r) (next_wait (wc_reconnectWait (pu_client r)))) r))
  | _, _ => None
  end.

(** The rest of [close], once it gets [w.mu]: it closes the connection, or
    clears the subscribers, the first of which is its last (it clears the
    subscriber, whose unsubscription then waits for the mutex [close] holds). *)
Definition close_step (w : WebsocketClient Callback) : option (WebsocketClient Callback * close_call) :=
  w ← lock_mu w;
  if decide (wc_conn w <> NoConn)
  then Some (unlock_mu (wc_with_conn w DeadConn (wc_sent w)), CloseReturned)
  else match (go_range (wc_subscribers w)).*2 with
       | [] => Some (unlock_mu w, CloseReturned)
       | l :: _ =>
           u ← wc_heap w !! l;
           Some (wc_with_subscribers w (wc_subscribers w) (<[l := uniq_clear u]> (wc_heap w)),
                 CloseStuck l)
       end.

(** A subscription whose subscriber's mutex a stuck [Close] holds. *)
Definition handle_stuck (r : pump_run) (e : socket_event (Callback := Callback)) : bool :=
  match e, pu_close r with
  | EvClose n, CloseStuck l =>
      bool_decide (ss_subscriber <$> sr_handles (pu_socket r) !! n = Some l)
  | _, _ => false
  end.

Inductive pump_event : Type :=
| Calling (net : sdk_command -> error) (e : socket_event (Callback := Callback))
| Connecting (dial : error) (net : sdk_command -> error)
| Closing                                          (* a call of Close, up to close(w.done) *)
| Locking                                          (* the call goes on with w.mu *)
| Cancelling
| Dropping
| Reading (i : nat) (frame : option string)
| Pinging (i : nat) (move : ping_move).

(** A call that a mutex held by a stuck [Close] blocks, for ever, is no event;
    a second call of [Close] changes nothing. *)
Definition pump_exec (r : pump_run) (e : pump_event) : option pump_run :=
  if pu_panicked r then None
  else match e with
  | Calling net e =>
      if handle_stuck r e then None
      else s ← socket_exec net (pu_socket r) e; Some (with_socket s r)
  | Connecting dial net => '(r, _) ← pump_Connect dial net r; Some r
  | Closing =>
      match pu_close r with
      | CloseIdle => Some (with_close CloseLocking (with_client (wc_with_closed (pu_client r)) r))
      | _ => Some r
      end
  | Locking =>
      match pu_close r with
      | CloseLocking =>
          '(w, c) ← close_step (pu_client r);
          Some (with_close c (with_client w r))
      | _ => None
      end
  | Cancelling => Some (with_cancelled r)
  | Dropping => Some (with_dropped r)
  | Reading i frame => read_step i frame r
  | Pinging i move => ping_step i move r
  end.

Definition pump_exec_all (r : pump_run) (evs : list pump_event) : option pump_run :=
  fold_left (fun o e => r ← o; pump_exec r e) evs (Some r).

(** No goroutine can move without the network, the timer or a caller. *)
Definition own_move (e : pump_event) : Prop :=
  match e with
  | Reading _ None | Pinging _ Stopping | Pinging _ (Writing _) | Pinging _ Attempting
  | Pinging _ (Redialing _ _) | Pinging _ Waking | Locking => True
  | _ => False
  end.
Definition pumps_quiet (r : pump_run) : Prop := forall e, own_move e -> pump_exec r e = None.
End pumps.
Arguments pump_run : clear implicits.
Arguments pump_event : clear implicits.

Section theorems.
Context {Callback : Type} `{MapRange}.
Context (parse : string -> string * string + string)
        (Unmarshal : sdk_channel -> string -> wsData + string).

(** ** Helper lemmas *)

(** What a call leaves alone. *)
Definition same_connection (w w' : WebsocketClient Callback) : Prop :=
  wc_conn w' = wc_conn w /\ wc_closed w' = wc_closed w /\ wc_reconnectWait w' = wc_reconnectWait w.

#[local] Instance same_connection_preorder : PreOrder same_connection.
Proof. split; [by intros ?|]. intros w1 w2 w3 (?&?&?) (?&?&?). repeat split; by etransitivity. Qed.

Lemma writeJSON_connection net (w : WebsocketClient Callback) v :
  same_connection w (sdk_writeJSON net w v).1.
Proof. unfold sdk_writeJSON. destruct (wc_conn w) eqn:E; [done| |done]. by destruct (net v). Qed.

Lemma register_connection net (w w' : WebsocketClient Callback) l id cb :
  register net w l id cb = Some w' -> same_connection w w'.
Proof.
  unfold register. destruct (wc_heap w !! l) as [u|]; [|done]. simpl.
  destruct (uniq_subscribe u id cb) as [u' c]. intros [= <-].
  destruct (decide _); [|done]. etransitivity; [|apply writeJSON_connection]. done.
Qed.

Lemma on_unsubscribe_connection net (w w' : WebsocketClient Callback) key p :
  on_unsubscribe net w key p = Some w' -> same_connection w w'.
Proof.
  unfold on_unsubscribe, lock_mu. destruct (wc_mu w); [done|]. simpl. intros [= <-].
  match goal with |- same_connection _ (unlock_mu (fst (sdk_writeJSON net ?w1 ?v))) =>
    pose proof (writeJSON_connection net w1 v) as (?&?&?) end.
  by repeat split.
Qed.

Lemma socket_exec_connection net s e s' : socket_exec net s e = Some s' ->
  same_connection (sr_client s) (sr_client s').
Proof.
  destruct e as [p cb|n]; simpl.
  - unfold lock_mu. destruct (wc_mu (sr_client s)); [done|]. cbn [mbind option_bind].
    destruct (find_subscriber _ p) as [w l] eqn:Ef. cbn [mbind option_bind].
    destruct (register _ _ _ _ _) as [w'|] eqn:Er; [|done]. intros [= <-]. cbn [sr_client].
    apply register_connection in Er. etransitivity; [|exact Er].
    unfold find_subscriber in Ef. destruct (_ !! _); injection Ef as <- _; done.
  - destruct (sr_handles s !! n) as [h|]; [|by intros [= <-]].
    unfold Subscription_Close, unregister. destruct (wc_heap _ !! _) as [u|]; [|done]. cbn [mbind option_bind].
    destruct (uniq_unsubscribe u (ss_ID h)) as [u' c]. cbn [mbind option_bind].
    destruct (decide _); [|by intros [= <-]].
    destruct (on_unsubscribe _ _ _ _) as [w|] eqn:Eo; [|done]. intros [= <-].
    by apply on_unsubscribe_connection in Eo.
Qed.

Definition same_subscriptions (w w' : WebsocketClient Callback) : Prop :=
  wc_mu w' = wc_mu w /\ wc_subscribers w' = wc_subscribers w /\ wc_heap w' = wc_heap w /\
  wc_nextSubID w' = wc_nextSubID w.

#[local] Instance same_subscriptions_preorder : PreOrder same_subscriptions.
Proof. split; [by intros ?|]. intros w1 w2 w3 (?&?&?&?) (?&?&?&?). repeat split; by etransitivity. Qed.

Lemma writeJSON_subscriptions net (w : WebsocketClient Callback) v :
  same_subscriptions w (sdk_writeJSON net w v).1.
Proof. unfold sdk_writeJSON. destruct (wc_conn w) eqn:E; [done| |done]. by destruct (net v). Qed.

Lemma resubscribe_list_keeps net ps : forall w : WebsocketClient Callback,
  same_connection w (resubscribe_list net w ps).1 /\ same_subscriptions w (resubscribe_list net w ps).1.
Proof.
  induction ps as [|p ps IH]; intros w; [done|]. cbn [resubscribe_list].
  pose proof (writeJSON_connection net w (SdkSubscribe p)) as Hc.
  pose proof (writeJSON_subscriptions net w (SdkSubscribe p)) as Hs.
  destruct (sdk_writeJSON net w (SdkSubscribe p)) as [w' [err|]]; [done|].
  destruct (IH w'). split; by etransitivity.
Qed.

Lemma socket_ok_ext s w : socket_ok s -> same_subscriptions (sr_client s) w ->
  socket_ok (mkSocketRun w (sr_handles s) (sr_open s)).
Proof.
  intros [Hmu Hinv] (Em & Es & Eh & En). split; [by rewrite <- Hmu|]. by apply socket_inv_ext.
Qed.

(** [Connect]: returns at once when there is a connection, fails with the
    dial, or leaves a new connection, whatever it returns. *)
Lemma Connect_outcomes dial net (w : WebsocketClient Callback) : wc_mu w = false ->
  exists w' err, WebsocketClient_Connect dial net w = Some (w', err) /\ same_subscriptions w w' /\
    wc_closed w' = wc_closed w /\ wc_reconnectWait w' = wc_reconnectWait w /\
    (if decide (wc_conn w = NoConn /\ dial = nil_error) then wc_conn w' = OpenConn
     else wc_conn w' = wc_conn w /\ (wc_conn w <> NoConn -> err = nil_error)).
Proof.
  intros Hmu. destruct (decide (wc_conn w = NoConn)) as [Hc|Hc].
  - unfold WebsocketClient_Connect, lock_mu. rewrite Hmu. cbn [mbind option_bind wc_conn wc_with_mu].
    rewrite Hc. rewrite decide_False by tauto. destruct dial as [err|].
    + eexists _, _. split; [reflexivity|]. rewrite decide_False by by intros [_ ?].
      repeat split; [by rewrite Hmu|done|by intros []].
    + unfold resubscribeAll. match goal with |- context [resubscribe_list net ?w1 ?ps] =>
        pose proof (resubscribe_list_keeps net ps w1) as [(E1 & E2 & E3) (E4 & E5 & E6 & E7)];
        destruct (resubscribe_list net w1 ps) as [w' err] end.
      eexists _, _. split; [reflexivity|]. rewrite decide_True by done. by repeat split.
  - rewrite Connect_connected by done. eexists _, _. split; [reflexivity|].
    rewrite decide_False by tauto. by repeat split.
Qed.

(** ** The invariant

    One readPump at most has not ended, the one of the connection in
    [w.conn]; it reads from that connection. *)
Inductive one_reader (r : pump_run Callback) : Prop :=
| No_reader :
    wc_conn (pu_client r) = NoConn -> pu_readers r = replicate (pu_dials r) ReadEnded -> one_reader r
| Sole_reader n p :
    wc_conn (pu_client r) <> NoConn -> pu_dials r = S n ->
    pu_readers r = replicate n ReadEnded ++ [p] -> p <> ReadEnded ->
    (forall k, p = ReadBlocked k ->
      k = pu_dials r /\ (pu_close r = CloseReturned -> wc_conn (pu_client r) = DeadConn)) ->
    one_reader r.

(** What a [Close] that deadlocks leaves: the mutex is held, and there is no
    connection. *)
Definition mutex_ok (c : close_call) (s : socket_run (Callback := Callback)) : Prop :=
  match c with
  | CloseStuck _ => wc_mu (sr_client s) = true /\ wc_conn (sr_client s) = NoConn
  | _ => socket_ok s
  end.

Record pumps_ok (r : pump_run Callback) : Prop := {
  po_mutex : mutex_ok (pu_close r) (pu_socket r);
  po_reader : one_reader r;
  po_dead : wc_conn (pu_client r) = DeadConn -> pu_close r = CloseReturned;
  po_closed : wc_closed (pu_client r) = true <-> pu_close r <> CloseIdle;
  po_wait : Second <= wc_reconnectWait (pu_client r) <= Minute;
}.

Lemma po_socket (r : pump_run Callback) : pumps_ok r -> wc_mu (pu_client r) = false -> socket_ok (pu_socket r).
Proof.
  intros [Hm _ _ _ _] Hmu. unfold mutex_ok in Hm. destruct (pu_close r); try done.
  destruct Hm as [Hm _]. unfold pu_client in Hmu. congruence.
Qed.

Lemma mutex_held (r : pump_run Callback) : pumps_ok r -> wc_mu (pu_client r) = true ->
  wc_conn (pu_client r) = NoConn /\ exists l, pu_close r = CloseStuck l.
Proof.
  intros [Hm _ _ _ _] Hmu. unfold mutex_ok, socket_ok, pu_client in *.
  destruct (pu_close r) as [| |l|]; [by destruct Hm; congruence..| |by destruct Hm; congruence].
  destruct Hm as [_ Hc]. split; [done|]. by exists l.
Qed.

Lemma open_client (r : pump_run Callback) : pumps_ok r -> wc_closed (pu_client r) = false ->
  pu_close r = CloseIdle /\ socket_ok (pu_socket r).
Proof.
  intros [Hm _ _ [_ Hcl] _] Hs. destruct (decide (pu_close r = CloseIdle)) as [E|E].
  - split; [done|]. by rewrite E in Hm.
  - by rewrite Hcl in Hs.
Qed.

(** A step that leaves the connection and the goroutines that read alone. *)
Lemma pumps_ok_ext r r' : pumps_ok r -> mutex_ok (pu_close r) (pu_socket r') ->
  same_connection (pu_client r) (pu_client r') -> pu_close r' = pu_close r ->
  pu_dials r' = pu_dials r -> pu_readers r' = pu_readers r -> pumps_ok r'.
Proof.
  intros [_ Hr Hd Hcl Hw] Hs (E1 & E2 & E3) E E4 E5.
  split; rewrite ?E, ?E1, ?E2, ?E3; [done| |done..].
  destruct Hr as [Hc Hl|n p Hc Hn Hl Hp Hk].
  - left; [by rewrite E1|by rewrite E4, E5].
  - apply (Sole_reader _ n p); rewrite ?E, ?E1, ?E4, ?E5; done.
Qed.

(** A step that only moves a pingPump, or notes what happened outside. *)
Lemma pumps_ok_same r r' : pumps_ok r -> pu_socket r' = pu_socket r -> pu_close r' = pu_close r ->
  pu_dials r' = pu_dials r -> pu_readers r' = pu_readers r -> pumps_ok r'.
Proof.
  intros Hr Es. apply (pumps_ok_ext r); [done|rewrite Es; apply Hr|unfold pu_client; by rewrite Es].
Qed.

(** What keeps the mutex as it is. *)
Lemma mutex_ok_ext c s w : mutex_ok c s -> same_subscriptions (sr_client s) w ->
  wc_conn w = wc_conn (sr_client s) -> mutex_ok c (mkSocketRun w (sr_handles s) (sr_open s)).
Proof.
  intros Hm Hsub Hc. destruct c as [| |l|]; try by apply socket_ok_ext.
  destruct Hm as [Hm1 Hm2], Hsub as (E & _). cbn. by rewrite E, Hc.
Qed.

Lemma socket_exec_held net (s : socket_run (Callback := Callback)) e s' : wc_mu (sr_client s) = true -> socket_exec net s e = Some s' ->
  wc_mu (sr_client s') = true.
Proof.
  intros Hmu. destruct e as [p cb|n]; simpl.
  { unfold lock_mu. by rewrite Hmu. }
  destruct (sr_handles s !! n) as [h|]; [|by intros [= <-]].
  unfold Subscription_Close, unregister. destruct (wc_heap _ !! _) as [u|]; [|done]. cbn [mbind option_bind].
  destruct (uniq_unsubscribe u (ss_ID h)) as [u' c]. cbn [mbind option_bind].
  destruct (decide _); [|by intros [= <-]]. unfold on_unsubscribe, lock_mu. cbn. by rewrite Hmu.
Qed.

Lemma pump_start_ok : pumps_ok pump_start.
Proof.
  split; [|by left|done|done|done]. split; [done|]. split; simpl; try done; intros *; rewrite ?lookup_empty; try done.
  by intros ?%not_elem_of_nil.
Qed.

Lemma Connect_blocked dial net (r : pump_run Callback) : wc_mu (pu_client r) = true -> pump_Connect dial net r = None.
Proof. intros Hmu. unfold pump_Connect, WebsocketClient_Connect, lock_mu. by rewrite Hmu. Qed.

Lemma mutex_free c (s s' : socket_run (Callback := Callback)) : mutex_ok c s -> wc_mu (sr_client s) = false -> socket_ok s' -> mutex_ok c s'.
Proof. intros Hm Hmu Hs. destruct c; try done. destruct Hm. congruence. Qed.

Lemma pump_Connect_ok dial net r : pumps_ok r -> wc_mu (pu_client r) = false ->
  exists r' err, pump_Connect dial net r = Some (r', err) /\ pumps_ok r' /\
    pu_panicked r' = pu_panicked r /\
    (pu_pingers r' = pu_pingers r \/ pu_pingers r' = pu_pingers r ++ [PingWaiting]).
Proof.
  intros Hr Hmu. pose proof (po_socket _ Hr Hmu) as Hs. unfold pump_Connect.
  destruct (Connect_outcomes dial net (pu_client r) (proj1 Hs)) as (w & err & E & Hsub & Hcl & Hwait & Hcase).
  rewrite E. cbn [mbind option_bind]. eexists _, _. split; [reflexivity|].
  pose proof (socket_ok_ext _ w Hs Hsub) as Hs'.
  destruct (decide _) as [[Hc _]|_].
  - split; [|split; [done|by right]]. destruct Hr as [Hm Hr _ Hcl' Hw]. destruct Hr as [_ Hl|? ? ?]; [|done].
    split; cbn; [|..|by rewrite Hcl|by rewrite Hwait]; [| |congruence].
    { by apply (mutex_free _ (pu_socket r)). }
    apply (Sole_reader _ (pu_dials r) ReadTop); cbn; [by rewrite Hcase|done|by rewrite Hl|done|done].
  - split; [|split; [done|by left]]. destruct Hcase as [Hc _]. apply (pumps_ok_ext r); try done; cbn.
    apply mutex_ok_ext; [apply Hr|done|done].
Qed.

Lemma reader_at r i p : one_reader r -> pu_readers r !! i = Some p -> p <> ReadEnded ->
  exists n, wc_conn (pu_client r) <> NoConn /\ pu_dials r = S n /\ i = n /\
    pu_readers r = replicate n ReadEnded ++ [p] /\
    (forall k, p = ReadBlocked k ->
      k = pu_dials r /\ (pu_close r = CloseReturned -> wc_conn (pu_client r) = DeadConn)).
Proof.
  intros [_ Hl|n q Hc Hn Hl Hq Hk] Hi Hp; rewrite Hl in Hi.
  - by apply lookup_replicate in Hi as [? _].
  - exists n. apply lookup_app_Some in Hi as [[? _]%lookup_replicate|[Hi1 Hi]]; [done|].
    rewrite length_replicate in Hi1, Hi. apply list_lookup_singleton_Some in Hi as [Hi <-].
    assert (i = n) as -> by lia. done.
Qed.

Lemma last_reader (n : nat) (p q : read_pump) :
  <[n := q]> (replicate n ReadEnded ++ [p]) = replicate n ReadEnded ++ [q].
Proof.
  rewrite insert_app_r_alt by by rewrite length_replicate. by rewrite length_replicate, Nat.sub_diag.
Qed.

Lemma with_reader_ok r n p q : pumps_ok r -> wc_conn (pu_client r) <> NoConn -> pu_dials r = S n ->
  pu_readers r = replicate n ReadEnded ++ [p] -> q <> ReadEnded ->
  (forall k, q = ReadBlocked k ->
    k = pu_dials r /\ (pu_close r = CloseReturned -> wc_conn (pu_client r) = DeadConn)) ->
  pumps_ok (with_reader n q r).
Proof.
  intros [Hs _ Hd Hcl Hw] Hc Hn Hl Hq Hk. split; [done| |done..].
  apply (Sole_reader _ n q); cbn; [done|done|by rewrite Hl, last_reader|done|done].
Qed.

Lemma read_frame_ok frame r : pumps_ok r ->
  pumps_ok (read_frame parse Unmarshal frame r) /\
  pu_panicked (read_frame parse Unmarshal frame r) = pu_panicked r /\
  pu_socket (read_frame parse Unmarshal frame r) = pu_socket r /\
  pu_dials (read_frame parse Unmarshal frame r) = pu_dials r /\
  pu_readers (read_frame parse Unmarshal frame r) = pu_readers r /\
  pu_close (read_frame parse Unmarshal frame r) = pu_close r.
Proof.
  intros Hr. unfold read_frame. destruct (parse frame) as [[c d]|]; [|done].
  destruct (WebsocketClient_dispatch _ _ _ _); [|done].
  split; [|done]. by apply (pumps_ok_same r).
Qed.

Lemma read_step_ok i frame r r' : pumps_ok r -> read_step parse Unmarshal i frame r = Some r' ->
  pumps_ok r' /\ pu_panicked r' = pu_panicked r.
Proof.
  unfold read_step. intros Hr Hstep. destruct (pu_readers r !! i) as [p|] eqn:Ei; [|done].
  destruct (decide (p = ReadEnded)) as [->|Hp]; [done|].
  destruct (reader_at r i p (po_reader _ Hr) Ei Hp) as (n & Hc & Hn & -> & Hl & Hk).
  destruct p as [|k| |]; [| | |done]; destruct frame as [frame|]; try done.
  - destruct (stopped r) eqn:Es.
    { injection Hstep as <-. split; [|done]. by eapply with_reader_ok. }
    rewrite decide_False in Hstep by done. injection Hstep as <-. split; [|done].
    eapply with_reader_ok; try done. intros k [= <-]. split; [done|].
    intros E. unfold stopped in Es. apply orb_false_iff in Es as [Es _].
    destruct (open_client r Hr Es) as [E' _]. congruence.
  - destruct (conn_open r k); [|done]. injection Hstep as <-.
    destruct (read_frame_ok frame r Hr) as (Hr' & Hpan & Es & Ed & El & Ec). split; [|done].
    eapply with_reader_ok; try done; unfold pu_client; rewrite ?Es, ?Ed, ?El, ?Ec; done.
  - destruct (_ || _); [|done]. injection Hstep as <-. split; [|done]. by eapply with_reader_ok.
  - destruct (wc_mu (pu_client r)) eqn:Hmu; [by destruct (mutex_held r Hr Hmu)|].
    pose proof (po_socket r Hr Hmu) as [_ Hinv]. unfold readPump_exit, lock_mu in Hstep.
    rewrite Hmu in Hstep. injection Hstep as <-. split; [|done].
    destruct Hr as [Hm _ Hd Hcl Hw]. split; cbn; [|left; cbn; [done|]|done|done|done].
    + apply (mutex_free _ (pu_socket r)); [exact Hm|exact Hmu|]. split; [done|]. by apply socket_inv_ext.
    + rewrite Hl, last_reader, Hn. by rewrite <- replicate_S_end.
Qed.

Lemma next_wait_bounds wait : Second <= wait <= Minute -> Second <= next_wait wait <= Minute.
Proof. unfold next_wait. intros Hw. assert (0 < Second) by done. destruct (Z.ltb_spec Minute (wait * 2)); lia. Qed.

Lemma ping_step_ok i move r r' : pumps_ok r -> ping_step i move r = Some r' -> pumps_ok r'.
Proof.
  unfold ping_step. intros Hr Hstep. destruct (pu_pingers r !! i) as [[]|]; destruct move; try done.
  - destruct (stopped r); [|done]. injection Hstep as <-. by apply (pumps_ok_same r).
  - injection Hstep as <-. by apply (pumps_ok_same r).
  - destruct (decide _). { injection Hstep as <-. by apply (pumps_ok_same r). }
    pose proof (writeJSON_connection net (pu_client r) SdkPing) as Hc.
    pose proof (writeJSON_subscriptions net (pu_client r) SdkPing) as Hs.
    destruct (sdk_writeJSON net _ _) as [w err]. injection Hstep as <-.
    apply (pumps_ok_ext r); [done| |done..]. apply mutex_ok_ext; [apply Hr|done|apply Hc].
  - destruct (stopped r); [|done]. injection Hstep as <-. by apply (pumps_ok_same r).
  - destruct (stopped r); [done|]. injection Hstep as <-. by apply (pumps_ok_same r).
  - destruct (wc_mu (pu_client r)) eqn:Hmu; [by rewrite Connect_blocked in Hstep|].
    destruct (pump_Connect_ok dial net r Hr Hmu) as (r1 & err & E & Hr1 & _).
    rewrite E in Hstep. injection Hstep as <-. by apply (pumps_ok_same r1).
  - injection Hstep as <-. destruct Hr as [Hs Hr Hd Hcl Hw].
    split; cbn; [| |done|done|by apply next_wait_bounds]; [by apply mutex_ok_ext|].
    destruct Hr as [Hc Hl|n p Hc Hn Hl Hp Hk]; [by left|by apply (Sole_reader _ n p)].
Qed.

(** What [close] does with the mutex: it returns, having closed the connection
    if there was one, or clears a subscriber and holds the mutex for ever. *)
Lemma close_step_outcomes (s : socket_run (Callback := Callback)) : socket_ok s ->
  exists w c, close_step (sr_client s) = Some (w, c) /\
    wc_closed w = wc_closed (sr_client s) /\ wc_reconnectWait w = wc_reconnectWait (sr_client s) /\
    match c with
    | CloseReturned => same_subscriptions (sr_client s) w /\
        (wc_conn w = DeadConn /\ wc_conn (sr_client s) <> NoConn \/
         wc_conn w = NoConn /\ wc_conn (sr_client s) = NoConn)
    | CloseStuck l => wc_mu w = true /\ wc_conn w = NoConn /\ wc_conn (sr_client s) = NoConn /\
        l ∈ (map_to_list (wc_subscribers (sr_client s))).*2
    | _ => False
    end.
Proof.
  intros [Hmu Hinv]. unfold close_step, lock_mu. rewrite Hmu. cbn [mbind option_bind].
  cbn [wc_conn wc_with_mu wc_subscribers wc_heap]. destruct (decide _) as [Hc|Hc%dec_stable].
  { eexists _, _. split; [reflexivity|]. split; [done|]. split; [done|]. split; [|by left].
    repeat split. by rewrite Hmu. }
  destruct (go_range (wc_subscribers (sr_client s))) as [|[k l] es] eqn:E; cbn [fmap list_fmap snd].
  { eexists _, _. split; [reflexivity|]. split; [done|]. split; [done|]. split; [|by right].
    repeat split. by rewrite Hmu. }
  assert ((k, l) ∈ go_range (wc_subscribers (sr_client s))) as Hkl%elem_of_go_range by (rewrite E; left).
  destruct (so_live _ _ Hinv k l Hkl) as (_ & u & Hu & _). rewrite Hu. cbn [mbind option_bind].
  eexists _, _. split; [reflexivity|]. split; [done|]. split; [done|]. split_and!; [done..|].
  apply list_elem_of_fmap. exists (k, l). split; [done|]. by apply elem_of_map_to_list.
Qed.

(** A call of [Close] that no other goroutine interrupts. *)
Lemma Close_steps net (w : WebsocketClient Callback) :
  WebsocketClient_Close net w =
  if wc_closed w then Some w
  else match close_step (wc_with_closed w) with Some (w', CloseReturned) => Some w' | _ => None end.
Proof.
  unfold WebsocketClient_Close, close_step. destruct (wc_closed w); [done|].
  unfold lock_mu. destruct (wc_mu (wc_with_closed w)); [done|]. cbn [mbind option_bind].
  destruct (decide _); [done|].
  destruct (go_range _).*2 as [|l ls]; [done|]. cbn [fold_left].
  rewrite clear_stuck, clear_none by done. cbn [mbind option_bind]. by destruct (wc_heap _ !! l).
Qed.

Lemma locking_ok r w c : pumps_ok r -> pu_close r = CloseLocking -> close_step (pu_client r) = Some (w, c) ->
  pumps_ok (with_close c (with_client w r)).
Proof.
  intros [Hm Hr Hd Hcl Hw] Ec E. rewrite Ec in Hm.
  destruct (close_step_outcomes (pu_socket r) Hm) as (w' & c' & E' & Ecl & Ewait & Hcase).
  change (sr_client (pu_socket r)) with (pu_client r) in *. rewrite E in E'. injection E' as <- <-.
  assert (c <> CloseIdle) as Hc by by intros ->.
  split; cbn; [| |intros Hdead|rewrite Ecl, Hcl, Ec|by rewrite Ewait]; [| | |done].
  - destruct c as [| |l|]; [done|done|by destruct Hcase as (?&?&_)|]. by apply socket_ok_ext; [|apply Hcase].
  - destruct c as [| |l|]; [done|done| |].
    + destruct Hcase as (_ & Hn & Hn' & _). destruct Hr as [_ Hl|n p Hx _ _ _ _]; [|done]. by left.
    + destruct Hcase as [_ [[Hn Hn']|[Hn Hn']]]; destruct Hr as [Hx Hl|n p Hx Hdl Hl Hp Hk]; try done.
      * apply (Sole_reader _ n p); cbn; [by rewrite Hn|done..|].
        intros k Ek. split; [by apply Hk|done].
      * by left.
  - destruct c as [| |l|]; [done|done| |done]. destruct Hcase as (_ & Hn & _). congruence.
Qed.

Lemma closing_ok r : pumps_ok r -> pu_close r = CloseIdle ->
  pumps_ok (with_close CloseLocking (with_client (wc_with_closed (pu_client r)) r)).
Proof.
  intros [Hm Hr Hd Hcl Hw] Ec. rewrite Ec in Hm. split; cbn; [by apply socket_ok_ext| |intros Hx; specialize (Hd Hx); congruence|done..].
  destruct Hr as [Hc Hl|n p Hc Hn Hl Hp Hk]; [by left|]. apply (Sole_reader _ n p); cbn; try done.
  intros k Ek. split; [by apply Hk|done].
Qed.

Lemma pump_event_ok e r r' : pumps_ok r -> pump_exec parse Unmarshal r e = Some r' -> pumps_ok r'.
Proof.
  intros Hr He. unfold pump_exec in He. destruct (pu_panicked r); [done|].
  destruct e as [net e|dial net| | | | |i frame|i move].
  - destruct (handle_stuck r e); [done|]. destruct (socket_exec net (pu_socket r) e) as [s|] eqn:E; [|done].
    injection He as <-. pose proof (socket_exec_connection _ _ _ _ E) as Hc.
    apply (pumps_ok_ext r); [done| |exact Hc|done..]. cbn [pu_socket with_socket].
    destruct (wc_mu (pu_client r)) eqn:Hmu.
    + destruct (mutex_held r Hr Hmu) as [Hn [l ->]]. split; [by eapply socket_exec_held|].
      destruct Hc as [-> _]. exact Hn.
    + apply (mutex_free _ (pu_socket r)); [apply Hr|exact Hmu|].
      destruct (socket_event_ok net (pu_socket r) e) as (s' & E' & Hs); [by apply po_socket|].
      rewrite E in E'. by injection E' as <-.
  - destruct (wc_mu (pu_client r)) eqn:Hmu; [by rewrite Connect_blocked in He|].
    destruct (pump_Connect_ok dial net r Hr Hmu) as (r1 & err & E & Hr1 & _). rewrite E in He. by injection He as <-.
  - destruct (pu_close r) eqn:Ec; injection He as <-; try done. by apply closing_ok.
  - destruct (pu_close r) eqn:Ec; try done. destruct (close_step _) as [[w c]|] eqn:E; [|done].
    injection He as <-. by apply locking_ok.
  - injection He as <-. by apply (pumps_ok_same r).
  - injection He as <-. by apply (pumps_ok_same r).
  - by apply (read_step_ok i frame r).
  - by apply (ping_step_ok i move r).
Qed.

Lemma pump_exec_all_app evs1 evs2 (r : pump_run Callback) :
  pump_exec_all parse Unmarshal r (evs1 ++ evs2) =
  r ← pump_exec_all parse Unmarshal r evs1; pump_exec_all parse Unmarshal r evs2.
Proof.
  unfold pump_exec_all. rewrite fold_left_app.
  destruct (fold_left _ evs1 _) as [r1|]; [done|]. simpl. by induction evs2.
Qed.

Lemma pump_runs_ok evs : forall r r', pumps_ok r -> pump_exec_all parse Unmarshal r evs = Some r' -> pumps_ok r'.
Proof.
  induction evs as [|e evs IH] using rev_ind; intros r r' Hr He; [by injection He as <-|].
  rewrite pump_exec_all_app in He. destruct (pump_exec_all parse Unmarshal r evs) as [r1|] eqn:E; [|done].
  apply (pump_event_ok e r1); [by apply (IH r)|exact He].
Qed.

Lemma pump_run_ok evs r : pump_exec_all parse Unmarshal pump_start evs = Some r -> pumps_ok r.
Proof. apply pump_runs_ok, pump_start_ok. Qed.

(** ** At rest *)

Lemma pinger_at_rest r i p : pumps_ok r -> pu_panicked r = false -> pumps_quiet parse Unmarshal r ->
  pu_pingers r !! i = Some p ->
  p = PingEnded \/ p = PingWaiting /\ stopped r = false \/
  p = PingConnecting /\ exists l, pu_close r = CloseStuck l.
Proof.
  intros Hr Hpan Hq Hi.
  assert (Hm : forall move, own_move (Callback := Callback) (Pinging i move) -> ping_step i move r = None).
  { intros move Hm. specialize (Hq _ Hm). unfold pump_exec in Hq. by rewrite Hpan in Hq. }
  unfold ping_step in Hm. rewrite Hi in Hm. destruct p; [right; left|exfalso|exfalso|right; right|exfalso|by left].
  - specialize (Hm Stopping I). simpl in Hm. by destruct (stopped r).
  - specialize (Hm (Writing (fun _ => nil_error)) I). simpl in Hm. destruct (decide _); [done|].
    by destruct (sdk_writeJSON _ _ _).
  - destruct (stopped r) eqn:Es; [by specialize (Hm Stopping I)|].
    by specialize (Hm Attempting I).
  - split; [done|]. destruct (wc_mu (pu_client r)) eqn:Hmu; [by destruct (mutex_held r Hr Hmu)|].
    specialize (Hm (Redialing nil_error (fun _ => nil_error)) I). simpl in Hm.
    destruct (pump_Connect_ok nil_error (fun _ => nil_error) r Hr Hmu) as (? & ? & E & _). by rewrite E in Hm.
  - by specialize (Hm Waking I).
Qed.

(** A call of [Close] goes on as long as the mutex can be had. *)
Lemma close_at_rest r : pumps_ok r -> pu_panicked r = false -> pumps_quiet parse Unmarshal r ->
  pu_close r <> CloseLocking.
Proof.
  intros Hr Hpan Hq Ec. specialize (Hq Locking I). unfold pump_exec in Hq. rewrite Hpan, Ec in Hq.
  pose proof (po_mutex r Hr) as Hm. rewrite Ec in Hm.
  destruct (close_step_outcomes (pu_socket r) Hm) as (w & c & E & _). unfold pu_client in Hq. by rewrite E in Hq.
Qed.

Lemma reader_at_rest r : pumps_ok r -> pu_panicked r = false -> pumps_quiet parse Unmarshal r ->
  wc_conn (pu_client r) <> NoConn ->
  wc_closed (pu_client r) = false /\ wc_conn (pu_client r) = OpenConn /\ pu_dropped r = false /\
  last (pu_readers r) = Some (ReadBlocked (pu_dials r)).
Proof.
  intros Hr Hpan Hq Hc. pose proof (close_at_rest r Hr Hpan Hq) as Hlock.
  assert (wc_mu (pu_client r) = false) as Hmu.
  { destruct (wc_mu (pu_client r)) eqn:Hmu; [|done]. by destruct (mutex_held r Hr Hmu). }
  destruct (po_reader _ Hr) as [?|n p _ Hn Hl Hp Hk]; [done|].
  assert (Hm : read_step parse Unmarshal n None r = None).
  { specialize (Hq (Reading n None) I). unfold pump_exec in Hq. by rewrite Hpan in Hq. }
  unfold read_step in Hm. rewrite Hl, lookup_app_r, length_replicate, Nat.sub_diag in Hm
    by by rewrite length_replicate. simpl in Hm. destruct p as [|k| |]; [| | |done].
  - destruct (stopped r); [done|]. by destruct (decide _).
  - destruct (Hk k eq_refl) as [-> Hdead]. rewrite Hl, last_snoc.
    unfold conn_open in Hm. rewrite (bool_decide_true (pu_dials r = pu_dials r)), andb_true_r in Hm by done.
    destruct (pu_dropped r); [by rewrite orb_true_r in Hm|].
    destruct (bool_decide_reflect (wc_conn (pu_client r) = OpenConn)) as [Ho|]; [|done].
    split; [|done]. destruct (wc_closed (pu_client r)) eqn:Ecl; [exfalso|done].
    apply (po_closed r Hr) in Ecl. pose proof (po_mutex r Hr) as Hx.
    destruct (pu_close r) as [| |l|]; [done|done|by destruct Hx|]. by rewrite Ho in Hdead; specialize (Hdead eq_refl).
  - unfold readPump_exit, lock_mu in Hm. rewrite Hmu in Hm. discriminate Hm.
Qed.

(** C35. The goroutines of the SDK's websocket client, however they interleave
    with each other, with calls, the two steps of [Close] among them, and with
    the network: there is at most one readPump, it belongs to the connection of
    the client and never reads from a nil one; and when none of them can move,
    a client not closed that has a connection is reading from it, a closed one
    has let go of its connection, no call of [Close] is under way unless it has
    deadlocked, and a pingPump that has not ended waits for its ticker, or is
    blocked for ever in [Connect] because [Close] deadlocked: it found no
    connection and a subscriber to clear, and holds the client's mutex with all
    readPumps ended.  A call blocked by that mutex is no event. *)
Theorem pumps_at_rest evs r :
  pump_exec_all parse Unmarshal pump_start evs = Some r ->
  one_reader r /\
  (forall i frame r', pump_exec parse Unmarshal r (Reading i frame) = Some r' -> pu_panicked r' = false) /\
  (pu_panicked r = false -> pumps_quiet parse Unmarshal r ->
    (forall i p, pu_pingers r !! i = Some p ->
       p = PingEnded \/ p = PingWaiting /\ stopped r = false \/
       p = PingConnecting /\ exists l, pu_close r = CloseStuck l) /\
    (wc_conn (pu_client r) <> NoConn ->
      wc_closed (pu_client r) = false /\ wc_conn (pu_client r) = OpenConn /\ pu_dropped r = false /\
      last (pu_readers r) = Some (ReadBlocked (pu_dials r))) /\
    pu_close r <> CloseLocking) /\
  (forall l, pu_close r = CloseStuck l ->
    wc_mu (pu_client r) = true /\ wc_conn (pu_client r) = NoConn /\ wc_closed (pu_client r) = true /\
    pu_readers r = replicate (pu_dials r) ReadEnded).
Proof.
  intros He. pose proof (pump_run_ok evs r He) as Hr. split; [apply Hr|]. split; [|split].
  - intros i frame r' Hstep. unfold pump_exec in Hstep. destruct (pu_panicked r) eqn:Hpan; [done|].
    by destruct (read_step_ok i frame r r' Hr Hstep) as [_ ->].
  - intros Hpan Hq. split; [intros i p; by apply pinger_at_rest|].
    split; [by apply reader_at_rest|by apply close_at_rest].
  - intros l Hl. pose proof (po_mutex r Hr) as Hm. rewrite Hl in Hm. destruct Hm as [Hm Hc].
    split; [done|]. split; [done|]. split; [apply (po_closed r Hr); by rewrite Hl|].
    by destruct (po_reader r Hr).
Qed.

(** ** Losing the connection *)

Lemma pump_exec_all_cons e evs (r : pump_run Callback) :
  pump_exec_all parse Unmarshal r (e :: evs) =
  r ← pump_exec parse Unmarshal r e; pump_exec_all parse Unmarshal r evs.
Proof. exact (pump_exec_all_app [e] evs r). Qed.

(** The mutex is free while the client is not closed, or has a connection. *)
Lemma running_socket r : pumps_ok r -> stopped r = false -> socket_ok (pu_socket r).
Proof. intros Hr [Hs _]%orb_false_iff. by apply open_client. Qed.

Lemma connected_socket r : pumps_ok r -> wc_conn (pu_client r) <> NoConn -> socket_ok (pu_socket r).
Proof.
  intros Hr Hc. apply po_socket; [done|]. destruct (wc_mu (pu_client r)) eqn:Hmu; [|done].
  by destruct (mutex_held r Hr Hmu).
Qed.

(** The two steps of an attempt of [reconnect]. *)
Lemma redialing_steps (r : pump_run Callback) i dial net : pu_panicked r = false -> stopped r = false ->
  pu_pingers r !! i = Some PingRedialing ->
  pump_exec_all parse Unmarshal r [Pinging i Attempting; Pinging i (Redialing dial net)] =
  '(r, err) ← pump_Connect dial net (with_pinger i PingConnecting r);
  Some (with_pinger i (match err with None => PingEnded | Some _ => PingSleeping end) r).
Proof.
  intros Hpan Hs Hi. pose proof (lookup_lt_Some _ _ _ Hi) as Hlt.
  rewrite pump_exec_all_cons. unfold pump_exec at 1. rewrite Hpan. unfold ping_step. rewrite Hi, Hs.
  cbn [mbind option_bind]. rewrite pump_exec_all_cons. unfold pump_exec at 1.
  cbn [pu_panicked with_pinger]. rewrite Hpan. unfold ping_step. cbn [pu_pingers with_pinger].
  rewrite list_lookup_insert_eq by done. by destruct (pump_Connect _ _ _) as [[r' err]|].
Qed.

(** A readPump that ends leaves the reconnection to the pingPump: at its next
    tick the ping fails and the client is dialled again, with the subscriptions
    that are open and a new pair of goroutines. *)
Theorem ping_recovers evs r i net :
  pump_exec_all parse Unmarshal pump_start evs = Some r -> pu_panicked r = false -> stopped r = false ->
  wc_conn (pu_client r) = NoConn -> pu_pingers r !! i = Some PingWaiting -> (forall v, net v = nil_error) ->
  exists r', pump_exec_all parse Unmarshal r
      [Pinging i Ticking; Pinging i Attempting; Pinging i (Redialing nil_error net)] = Some r' /\
    wc_conn (pu_client r') = OpenConn /\ live (pu_client r') = live (pu_client r) /\
    served (wc_sent (pu_client r')) ≡ₚ (map_to_list (live (pu_client r))).*2 /\
    pu_readers r' = pu_readers r ++ [ReadTop] /\
    pu_pingers r' = <[i := PingEnded]> (pu_pingers (Callback := Callback) r) ++ [PingWaiting].
Proof.
  intros He Hpan Hs Hc Hi Hnet. pose proof (pump_run_ok evs r He) as Hr.
  destruct (Connect_subscribes net (pu_socket r) Hnet (running_socket _ Hr Hs) Hc)
    as (w & E & Ho & Hserved & Hlive).
  pose proof (lookup_lt_Some _ _ _ Hi) as Hlt.
  rewrite pump_exec_all_cons. unfold pump_exec at 1. rewrite Hpan. unfold ping_step at 1.
  rewrite Hi, decide_True by done. cbn [mbind option_bind].
  erewrite redialing_steps; [|done|done|by apply list_lookup_insert_eq].
  unfold pump_Connect. change (pu_client (with_pinger _ _ _)) with (sr_client (pu_socket r)).
  rewrite E. cbn [mbind option_bind]. rewrite decide_True by done. eexists. split; [reflexivity|].
  cbn. split; [done|]. split; [done|]. split; [done|]. split; [done|].
  rewrite insert_app_l by by rewrite !length_insert. by rewrite !list_insert_insert_eq.
Qed.

(** Every goroutine has ended. *)
Definition pumps_ended (r : pump_run Callback) : Prop :=
  Forall (.= ReadEnded) (pu_readers r) /\ Forall (.= PingEnded) (pu_pingers r).

Lemma ended_stuck r e : pumps_ended r ->
  match e with Reading _ _ | Pinging _ _ => True | _ => False end -> pump_exec parse Unmarshal r e = None.
Proof.
  intros [Hr Hp] He. unfold pump_exec. destruct (pu_panicked r); [done|]. destruct e; try done.
  - unfold read_step. destruct (pu_readers r !! i) as [p|] eqn:E; [|done].
    eapply Forall_lookup_1 in Hr; [|exact E]. by rewrite Hr.
  - unfold ping_step. destruct (pu_pingers r !! i) as [p|] eqn:E; [|done].
    eapply Forall_lookup_1 in Hp; [|exact E]. by rewrite Hp.
Qed.

Definition same_subscribed (r r' : pump_run Callback) : Prop :=
  live (pu_client r') = live (pu_client r) /\ wc_closed (pu_client r') = wc_closed (pu_client r).

(** A ping that cannot be written while the connection is still there: the
    reconnection of the pingPump finds the connection and ends without dialling,
    and the pingPump with it. *)
Lemma failed_ping_ends i net dial net' r err : pumps_ok r -> pu_panicked r = false -> stopped r = false ->
  wc_conn (pu_client r) = OpenConn -> pu_pingers r !! i = Some PingWriting -> net SdkPing = Some err ->
  exists r', pump_exec_all parse Unmarshal r
      [Pinging i (Writing net); Pinging i Attempting; Pinging i (Redialing dial net')] = Some r' /\
    wc_conn (pu_client r') = OpenConn /\ same_subscribed r r' /\
    pu_panicked r' = false /\ stopped r' = false /\ pu_dials r' = pu_dials r /\
    pu_readers r' = pu_readers r /\ pu_pingers r' = <[i := PingEnded]> (pu_pingers (Callback := Callback) r).
Proof.
  intros Hr Hpan Hs Ho Hi Hnet. pose proof (lookup_lt_Some _ _ _ Hi) as Hlt.
  rewrite pump_exec_all_cons. unfold pump_exec at 1. rewrite Hpan. unfold ping_step at 1. rewrite Hi.
  unfold sdk_writeJSON. rewrite Ho, decide_False, Hnet by done. cbn [mbind option_bind].
  erewrite redialing_steps; [|done|done|by apply list_lookup_insert_eq]. unfold pump_Connect.
  rewrite Connect_connected; [|by apply (running_socket r)|cbn; by rewrite Ho]. cbn [mbind option_bind].
  rewrite decide_False by (cbn; rewrite Ho; by intros [? _]).
  eexists. split; [reflexivity|]. cbn. by rewrite !list_insert_insert_eq.
Qed.

Lemma failed_read_ends n r : pumps_ok r -> pu_panicked r = false -> wc_conn (pu_client r) = OpenConn ->
  pu_dials r = S n -> last (pu_readers r) = Some (ReadBlocked (S n)) ->
  exists r', pump_exec_all parse Unmarshal r [Dropping; Reading n None; Reading n None] = Some r' /\
    wc_conn (pu_client r') = NoConn /\ same_subscribed r r' /\
    pu_readers r' = replicate (S n) ReadEnded /\ pu_pingers r' = pu_pingers r.
Proof.
  intros Hr Hpan Ho Hn Hlast. destruct (po_reader _ Hr) as [Hc _|m p _ Hm Hl _ _]; [congruence|].
  assert (m = n) as -> by lia. rewrite Hl, last_snoc in Hlast. injection Hlast as ->.
  unfold pump_exec_all. cbn [fold_left mbind option_bind]. unfold pump_exec at 3. rewrite Hpan.
  cbn [mbind option_bind]. unfold pump_exec at 2. cbn [pu_panicked with_dropped]. rewrite Hpan.
  unfold read_step. cbn [pu_readers with_dropped]. rewrite Hl, lookup_app_r, length_replicate, Nat.sub_diag
    by by rewrite length_replicate. cbn [lookup list_lookup pu_dropped with_dropped]. rewrite orb_true_r.
  cbn [mbind option_bind]. unfold pump_exec. cbn [pu_panicked with_reader with_dropped]. rewrite Hpan.
  unfold read_step. cbn [pu_readers with_reader with_dropped]. rewrite Hl, last_reader.
  rewrite lookup_app_r, length_replicate, Nat.sub_diag by by rewrite length_replicate.
  cbn [lookup list_lookup]. unfold readPump_exit, lock_mu, pu_client. cbn [pu_socket with_reader with_dropped].
  rewrite (proj1 (connected_socket r Hr ltac:(by rewrite Ho))). cbn [mbind option_bind]. eexists. split; [reflexivity|]. cbn.
  split; [done|]. split; [done|]. split; [|done]. rewrite Hl, !last_reader. by rewrite <- replicate_S_end.
Qed.

(** A client is left for dead: after a ping that could not be written, the loss
    of the connection ends the last goroutine. The client is open, its
    subscriptions are, no goroutine is left and nothing dials again. *)
Theorem failed_ping_abandons evs r i net dial net' err :
  pump_exec_all parse Unmarshal pump_start evs = Some r -> pu_panicked r = false -> stopped r = false ->
  wc_conn (pu_client r) = OpenConn -> last (pu_readers r) = Some (ReadBlocked (pu_dials r)) ->
  pu_pingers r !! i = Some PingWriting -> (forall j p, pu_pingers r !! j = Some p -> j <> i -> p = PingEnded) ->
  net SdkPing = Some err ->
  exists r', pump_exec_all parse Unmarshal r
      [Pinging i (Writing net); Pinging i Attempting; Pinging i (Redialing dial net'); Dropping;
       Reading (pred (pu_dials r)) None; Reading (pred (pu_dials r)) None] = Some r' /\
    wc_conn (pu_client r') = NoConn /\ wc_closed (pu_client r') = false /\
    live (pu_client r') = live (pu_client r) /\ pumps_ended r'.
Proof.
  intros He Hpan Hs Ho Hlast Hi Hothers Hnet. pose proof (pump_run_ok evs r He) as Hr.
  destruct (failed_ping_ends i net dial net' r err Hr Hpan Hs Ho Hi Hnet)
    as (r1 & E1 & Ho1 & [Hl1 Hcl1] & Hpan1 & Hs1 & Hd1 & Hr1 & Hp1).
  destruct (po_reader _ Hr) as [Hc _|n p _ Hn _ _ _]; [congruence|]. rewrite Hn. cbn [pred].
  pose proof (pump_runs_ok _ r r1 Hr E1) as Hok1.
  destruct (failed_read_ends n r1 Hok1 Hpan1 Ho1) as (r2 & E2 & Hc2 & [Hl2 Hcl2] & Hr2 & Hp2);
    [by rewrite Hd1|by rewrite Hr1, Hlast, Hn|].
  exists r2. split.
  { change (pump_exec_all parse Unmarshal r ([Pinging i (Writing net); Pinging i Attempting; Pinging i (Redialing dial net')] ++
      [Dropping; Reading n None; Reading n None]) = Some r2).
    by rewrite pump_exec_all_app, E1. }
  split; [done|]. unfold stopped in Hs. apply orb_false_iff in Hs as [Hcl _].
  split; [by rewrite Hcl2, Hcl1|]. split; [by rewrite Hl2|]. split.
  - rewrite Hr2. by apply Forall_replicate.
  - rewrite Hp2, Hp1. apply Forall_lookup. intros j p' Hj.
    apply list_lookup_insert_Some in Hj as [(_ & <- & _)|[Hne Hj]]; [done|]. by apply (Hothers j).
Qed.
End theorems.

(** ** Witnesses *)

#[local] Existing Instance listing_order.

Definition quiet_parse (frame : string) : string * string + string := inl ("bbo"%string, frame).

(** A client with a subscription, connected. *)
Definition pump_sample : list (pump_event Z) :=
  [Calling net_up (EvSubscribe (BboPayload "BTC") 1); Connecting nil_error net_up; Reading 0 None;
   Reading 0 (Some "BTC"%string); Reading 0 None].

Definition pump_listening : pump_run Z :=
  default pump_start (pump_exec_all quiet_parse sample_Unmarshal pump_start pump_sample).

Lemma pumps_at_rest_witness :
  one_reader pump_listening /\ pu_pingers pump_listening = [PingWaiting] /\
  pu_calls pump_listening = [(1, inl (DBbo (mkBbo "BTC" 0 [])))].
Proof.
  split; [|split; vm_compute; reflexivity].
  apply (pumps_at_rest quiet_parse sample_Unmarshal pump_sample pump_listening).
  vm_compute. reflexivity.
Defined.

(** The connection is lost and its readPump ends. *)
Definition pump_lost : list (pump_event Z) := pump_sample ++ [Dropping; Reading 0 None; Reading 0 None].

Lemma ping_recovers_witness :
  exists r', pump_exec_all quiet_parse sample_Unmarshal
      (default pump_start (pump_exec_all quiet_parse sample_Unmarshal pump_start pump_lost))
      [Pinging 0 Ticking; Pinging 0 Attempting; Pinging 0 (Redialing nil_error net_up)] = Some r' /\
    wc_conn (pu_client r') = OpenConn /\ pu_readers r' = [ReadEnded; ReadTop].
Proof.
  destruct (ping_recovers quiet_parse sample_Unmarshal pump_lost
    (default pump_start (pump_exec_all quiet_parse sample_Unmarshal pump_start pump_lost)) 0 net_up)
    as (r' & E & Ho & _ & _ & Hr & _); [vm_compute; reflexivity..|done|].
  exists r'. split; [exact E|]. split; [exact Ho|]. rewrite Hr. vm_compute. reflexivity.
Defined.

Definition net_down (v : sdk_command) : error := Some "write: broken pipe"%string.

Definition pump_ticked : pump_run Z :=
  default pump_start (pump_exec_all quiet_parse sample_Unmarshal pump_start (pump_sample ++ [Pinging 0 Ticking])).

Lemma pump_ticked_runs :
  pump_exec_all quiet_parse sample_Unmarshal pump_start (pump_sample ++ [Pinging 0 Ticking]) = Some pump_ticked.
Proof. vm_compute. reflexivity. Qed.

Lemma failed_ping_abandons_witness :
  exists r', pump_exec_all quiet_parse sample_Unmarshal pump_ticked
      [Pinging 0 (Writing net_down); Pinging 0 Attempting; Pinging 0 (Redialing nil_error net_up); Dropping;
       Reading 0 None; Reading 0 None] = Some r' /\
    wc_closed (pu_client r') = false /\ pumps_ended r'.
Proof.
  destruct (failed_ping_abandons quiet_parse sample_Unmarshal (pump_sample ++ [Pinging 0 Ticking])
    pump_ticked 0 net_down nil_error net_up "write: broken pipe"%string pump_ticked_runs)
    as (r' & E & _ & Hc & _ & Hend); [vm_compute; reflexivity..| |done|].
  { intros [|j] p Hj Hne; [destruct (Hne eq_refl)|]. vm_compute in Hj. discriminate Hj. }
  exists r'. split; [exact E|]. split; [exact Hc|exact Hend].
Defined.

(** [writeJSON] tests [w.conn] and then loads it again; a readPump that ends in
    between makes the ping call a method on nil, and no one recovers. *)
Example writing_ping_panics :
  pu_panicked <$> pump_exec_all quiet_parse sample_Unmarshal pump_start
    (pump_sample ++ [Pinging 0 Ticking; Dropping; Reading 0 None; Reading 0 None;
                     Pinging 0 (Writing net_up)]) = Some true.
Proof. vm_compute. reflexivity. Qed.

(** [Close] between the [select] of [reconnect] and its [Connect]: the client
    has no connection, so [Close] clears the subscriber and waits for the mutex
    it holds; the pingPump waits for it too. *)
Definition pump_close_stuck : list (pump_event Z) :=
  pump_lost ++ [Pinging 0 Ticking; Pinging 0 Attempting; Closing; Locking].

Example close_blocks_ping :
  (fun r => (pu_pingers r, pu_close r,
      pu_dials <$> pump_exec quiet_parse sample_Unmarshal r (Pinging 0 (Redialing nil_error net_up)))) <$>
    pump_exec_all quiet_parse sample_Unmarshal pump_start pump_close_stuck =
  Some ([PingConnecting], CloseStuck 1%positive, None).
Proof. vm_compute. reflexivity. Qed.

(** A [Close] of a connected client deadlocks too, when the readPump sees
    [done] closed and lets go of the connection before [Close] has the mutex. *)
Example close_races_reader :
  (fun r => (pu_readers r, pu_close r)) <$>
    pump_exec_all quiet_parse sample_Unmarshal pump_start
      [Calling net_up (EvSubscribe (BboPayload "BTC") 1); Connecting nil_error net_up; Closing;
       Reading 0 None; Reading 0 None; Locking] =
  Some ([ReadEnded], CloseStuck 1%positive).
Proof. vm_compute. reflexivity. Qed.
