(* ===== verification/GoMath.v ===== *)
(** * Go's math package

    The functions of [math] and the conversions the exchange client applies to
    prices, as executable functions on [SpecFloat] values: [Floor], [Round],
    [Copysign], [Pow] with base ten and an integer exponent, and [int(x)].
    They follow the portable implementations of the Go standard library. *)

From Stdlib Require Import ZArith Lia.
From Stdlib Require Import Floats.SpecFloat.
From stdpp Require Import base list tactics.
From S2P Require Import Prelude Float64.
Local Open Scope Z_scope.

Definition f10 : float64 := float64_of_Z 10.
Definition f_half : float64 := fdiv f1 (float64_of_Z 2).

(** The float64 with sign [s] and integer magnitude [z]. *)
Definition signed_integer (s : bool) (z : Z) : float64 :=
  if z =? 0 then S754_zero s else float64_of_Z (if s then - z else z).

(** [math.Floor]. *)
Definition math_Floor (x : float64) : float64 :=
  match x with
  | S754_finite s m e =>
      if 0 <=? e then x
      else let q := (if s then Zneg m else Zpos m) / 2 ^ (- e) in
           signed_integer (q <? 0) (Z.abs q)
  | _ => x
  end.

(** [math.Round]: halves away from zero. *)
Definition math_Round (x : float64) : float64 :=
  match x with
  | S754_finite s m e =>
      if 0 <=? e then x
      else signed_integer s ((2 * Zpos m + 2 ^ (- e)) / (2 * 2 ^ (- e)))
  | _ => x
  end.

(** [math.Copysign(f, sign)]; the sign of a NaN is not represented. *)
Definition float_sign (x : float64) : bool :=
  match x with
  | S754_zero s | S754_infinity s | S754_finite s _ _ => s
  | S754_nan => false
  end.

Definition math_Copysign (f sign : float64) : float64 :=
  match f with
  | S754_zero _ => S754_zero (float_sign sign)
  | S754_infinity _ => S754_infinity (float_sign sign)
  | S754_finite _ m e => S754_finite (float_sign sign) m e
  | S754_nan => S754_nan
  end.

(** [int(x)] on amd64: truncation; the smallest int64 for a value that has no
    64-bit truncation. *)
Definition int_of_float64 (x : float64) : Z :=
  match x with
  | S754_zero _ => 0
  | S754_finite s m e =>
      let a := if 0 <=? e then Zpos m * 2 ^ e else Zpos m / 2 ^ (- e) in
      let z := if s then - a else a in
      if (int64_min <=? z) && (z <=? int64_max) then z else int64_min
  | _ => int64_min
  end.

(** The squaring loop of [math.Pow] over the bits of the exponent; the base is
    kept as [x1 * 2^xe] with [x1] in [1/2, 1), the result as [a1 * 2^ae]. *)
Fixpoint pow_loop (i : positive) (x1 : float64) (xe : Z) (a1 : float64) (ae : Z) : float64 * Z :=
  if (xe <? - 2 ^ 12) || (2 ^ 12 <? xe) then (a1, ae + xe)
  else
    let sq := fmul x1 x1 in
    let '(x1', xe') := if fltb sq f_half then (fadd sq sq, 2 * xe - 1) else (sq, 2 * xe) in
    match i with
    | xH => (fmul a1 x1, ae + xe)
    | xO i => pow_loop i x1' xe' a1 ae
    | xI i => pow_loop i x1' xe' (fmul a1 x1) (ae + xe)
    end.

(** [math.Pow(10, float64(n))], [n] an int64. *)
Definition math_Pow10 (n : Z) : float64 :=
  match n with
  | Z0 => f1
  | Zpos xH => f10
  | Zpos p | Zneg p =>
      let '(x1, xe) := SFfrexp f64_prec f64_emax f10 in
      let '(a1, ae) := pow_loop p x1 xe f1 0 in
      if n <? 0 then SFldexp f64_prec f64_emax (fdiv f1 a1) (- ae)
      else SFldexp f64_prec f64_emax a1 ae
  end.

Example floor_down : math_Floor (fdiv (float64_of_Z (-1)) (float64_of_Z 2)) = float64_of_Z (-1).
Proof. vm_compute. reflexivity. Qed.
Example round_half_up : math_Round (fdiv (float64_of_Z (-5)) (float64_of_Z 2)) = float64_of_Z (-3).
Proof. vm_compute. reflexivity. Qed.
Example round_down : math_Round (fdiv f1 (float64_of_Z 4)) = f0.
Proof. vm_compute. reflexivity. Qed.
Example trunc : int_of_float64 (fdiv (float64_of_Z (-5)) (float64_of_Z 2)) = -2.
Proof. vm_compute. reflexivity. Qed.

(** Powers of ten whose value and partial products are floats are exact. *)
Lemma math_Pow10_exact n : 0 <= n <= 22 -> math_Pow10 n = float64_of_Z (10 ^ n).
Proof.
  intros Hn.
  assert (forallb (fun k => SFeqb (math_Pow10 (Z.of_nat k)) (float64_of_Z (10 ^ Z.of_nat k)) &&
    match math_Pow10 (Z.of_nat k), float64_of_Z (10 ^ Z.of_nat k) with
    | S754_finite false m e, S754_finite false m' e' => Pos.eqb m m' && Z.eqb e e'
    | _, _ => false end) (seq 0 23) = true) as H by by vm_compute.
  rewrite forallb_forall in H. specialize (H (Z.to_nat n)).
  rewrite Z2Nat.id in H by lia. rewrite andb_true_iff in H.
  destruct H as [_ H]; [apply in_seq; lia|].
  destruct (math_Pow10 n) as [| | |[] m e]; try done.
  destruct (float64_of_Z (10 ^ n)) as [| | |[] m' e']; try done.
  rewrite andb_true_iff, Pos.eqb_eq, Z.eqb_eq in H. by destruct H as [-> ->].
Qed.

Example pow_minus_five : math_Pow10 (-5) = fdiv f1 (float64_of_Z 100000).
Proof. vm_compute. reflexivity. Qed.

(** ** Multiplying by ten raises the magnitude

    A positive mantissa and exponent have magnitude at least [k] when the
    leading bit of [m * 2^e] is at position [k - 1] or above. *)
Definition mag_ge (k m e : Z) : Prop := 0 < m /\ k <= Zdigits2 m + e.

Lemma Zdigits2_bounds m : 0 < m -> 2 ^ (Zdigits2 m - 1) <= m < 2 ^ Zdigits2 m.
Proof. destruct m as [|p|p]; [lia| |lia]. intros _. apply digits2_pos_bounds. Qed.

Lemma Zdigits2_pos m : 0 < m -> 0 < Zdigits2 m.
Proof. destruct m; simpl; lia. Qed.

Lemma Zdigits2_ge m n : 2 ^ n <= m -> 0 < m -> n < Zdigits2 m.
Proof.
  intros Hn Hm. pose proof (Zdigits2_bounds m Hm) as [_ U].
  pose proof (Zdigits2_pos m Hm).
  assert (2 ^ n < 2 ^ Zdigits2 m) as Hp by lia.
  apply Z.pow_lt_mono_r_iff in Hp; lia.
Qed.

Lemma Zdigits2_le_mono m1 m2 : 0 < m1 -> m1 <= m2 -> Zdigits2 m1 <= Zdigits2 m2.
Proof.
  intros H1 H2. pose proof (Zdigits2_bounds m1 H1) as [L _].
  pose proof (Zdigits2_ge m2 (Zdigits2 m1 - 1) ltac:(lia) ltac:(lia)). lia.
Qed.

Lemma Zdigits2_shift m n :
  0 < m -> 0 <= n < Zdigits2 m -> 0 < m / 2 ^ n /\ Zdigits2 m - n <= Zdigits2 (m / 2 ^ n).
Proof.
  intros Hm Hn. pose proof (Zdigits2_bounds m Hm) as [L _].
  pose proof (Z.pow_pos_nonneg 2 n ltac:(lia) ltac:(lia)).
  assert (2 ^ (Zdigits2 m - 1 - n) <= m / 2 ^ n) as Hle.
  { apply Z.div_le_lower_bound; [done|]. rewrite <- Z.pow_add_r by lia.
    etransitivity; [|exact L]. apply Z.pow_le_mono_r; lia. }
  pose proof (Z.pow_pos_nonneg 2 (Zdigits2 m - 1 - n) ltac:(lia) ltac:(lia)).
  split; [lia|]. pose proof (Zdigits2_ge (m / 2 ^ n) (Zdigits2 m - 1 - n) Hle ltac:(lia)). lia.
Qed.

(** Dropping bits below the leading one keeps the magnitude. *)
Lemma shr_fexp_mag k m e l :
  -1074 < k -> mag_ge k m e ->
  let '(r, e') := shr_fexp f64_prec f64_emax m e l in mag_ge k (shr_m r) e'.
Proof.
  intros Hk [Hm Hd]. unfold shr_fexp. set (r0 := shr_record_of_loc m l).
  assert (shr_m r0 = m) as Hr0 by (subst r0; by destruct l as [|[]]).
  destruct (fexp f64_prec f64_emax (Zdigits2 m + e) - e) as [|n|n] eqn:En; simpl;
    rewrite ?Hr0; try by split.
  rewrite iter_pos_nat.
  destruct (shr_iter_spec (Pos.to_nat n) r0 ltac:(lia)) as [E1 _].
  rewrite Hr0, positive_nat_Z in E1. rewrite E1.
  assert (0 <= Zpos n < Zdigits2 m) as Hn.
  { unfold fexp, emin, f64_prec, f64_emax in En. lia. }
  destruct (Zdigits2_shift m (Zpos n) Hm Hn). split; lia.
Qed.

(** Rounding keeps a magnitude above the smallest subnormal's. *)
Lemma binary_round_aux_mag k m e :
  -1074 < k -> mag_ge k m e ->
  match binary_round_aux f64_prec f64_emax false m e loc_Exact with
  | S754_finite false m' e' => k <= Zpos (digits2_pos m') + e'
  | S754_infinity false => True
  | _ => False
  end.
Proof.
  intros Hk Hm. unfold binary_round_aux.
  pose proof (shr_fexp_mag k m e loc_Exact Hk Hm) as H1.
  destruct (shr_fexp _ _ m e loc_Exact) as [r1 e1]. destruct H1 as [P1 D1].
  set (M := round_nearest_even (shr_m r1) (loc_of_shr_record r1)).
  assert (shr_m r1 <= M) as HM.
  { subst M. unfold round_nearest_even. repeat case_match; lia. }
  pose proof (Zdigits2_le_mono _ _ P1 HM).
  pose proof (shr_fexp_mag k M e1 loc_Exact Hk ltac:(split; lia)) as H2.
  destruct (shr_fexp _ _ M e1 loc_Exact) as [r2 e2]. destruct H2 as [P2 D2].
  destruct (shr_m r2) as [|p|p]; [lia| |lia]. by destruct (_ <=? _).
Qed.

Lemma f10_eq : f10 = S754_finite false 5629499534213120 (-49).
Proof. vm_compute. reflexivity. Qed.

(** [x * 10] is at least eight times [x], up to overflow. *)
Lemma fmul_10_mag m e :
  -1074 <= e ->
  match fmul (S754_finite false m e) f10 with
  | S754_finite false m' e' => Zpos (digits2_pos m) + e + 3 <= Zpos (digits2_pos m') + e'
  | S754_infinity false => True
  | _ => False
  end.
Proof.
  intros He. rewrite f10_eq. apply binary_round_aux_mag; [lia|]. split; [lia|].
  pose proof (digits2_pos_bounds m) as [L _]. set (d := Zpos (digits2_pos m)) in *.
  assert (0 < d) by (subst d; lia).
  assert (2 ^ (d + 51) <= Zpos (m * 5629499534213120)) as Hp.
  { replace (d + 51) with ((d - 1) + 52) by lia. rewrite Z.pow_add_r by lia.
    rewrite pow_52. lia. }
  pose proof (Zdigits2_ge _ _ Hp ltac:(lia)). lia.
Qed.

Lemma fltb_finite m e k e' :
  fltb (S754_finite false m e) (S754_finite false k e') = true ->
  e < e' \/ (e = e' /\ Zpos m < Zpos k).
Proof.
  unfold fltb, SFltb. cbn [SFcompare].
  destruct (Z.compare_spec e e') as [Ee|Hlt|Hgt]; [|by left|done].
  pose proof (Pos.compare_spec m k) as Hm. unfold Pos.compare in Hm.
  destruct Hm as [?|Hm|?]; intros Hc; try done. by right.
Qed.

(** A positive float below 1 has its leading bit below the unit. *)
Lemma finite_lt_one_mag m e :
  fltb (S754_finite false m e) f1 = true -> f64_valid (S754_finite false m e) ->
  Zpos (digits2_pos m) + e <= 0.
Proof.
  rewrite f1_eq. unfold f64_valid, valid_binary, bounded, canonical_mantissa.
  rewrite andb_true_iff, Z.eqb_eq. intros Hc [Hv _].
  unfold fexp, emin, f64_prec, f64_emax in Hv. apply fltb_finite in Hc.
  rewrite <- pow_52 in Hc. pose proof (digits2_pos_bounds m) as [L _].
  set (d := Zpos (digits2_pos m)) in *. clearbody d.
  destruct Hc as [Hlt|[-> Hm]]; [lia|].
  destruct (Z.le_gt_cases d 52) as [?|Hd]; [lia|].
  assert (2 ^ 52 <= 2 ^ (d - 1)) as Hp by (apply Z.pow_le_mono_r; lia). lia.
Qed.

(** ** Rounding produces canonical values *)

Lemma Zdigits2_lt m n : 0 < m -> m < 2 ^ n -> Zdigits2 m <= n.
Proof.
  intros Hm Hn. pose proof (Zdigits2_bounds m Hm) as [L _].
  destruct (Z.le_gt_cases (Zdigits2 m) n) as [?|Hgt]; [done|].
  assert (2 ^ n <= 2 ^ (Zdigits2 m - 1)) by (apply Z.pow_le_mono_r; lia). lia.
Qed.

Lemma Zdigits2_shift_eq m n :
  0 < m -> 0 <= n < Zdigits2 m -> Zdigits2 (m / 2 ^ n) = Zdigits2 m - n.
Proof.
  intros Hm Hn. destruct (Zdigits2_shift m n Hm Hn) as [Hp Hge].
  pose proof (Zdigits2_bounds m Hm) as [_ U].
  assert (m / 2 ^ n < 2 ^ (Zdigits2 m - n)) as Hlt.
  { apply Z.div_lt_upper_bound; [apply Z.pow_pos_nonneg; lia|].
    rewrite <- Z.pow_add_r by lia. by replace (n + (Zdigits2 m - n)) with (Zdigits2 m) by lia. }
  pose proof (Zdigits2_lt _ _ Hp Hlt). lia.
Qed.

Abbreviation fexp64 := (fexp f64_prec f64_emax).

Lemma fexp64_eq z : fexp64 z = Z.max (z - 53) (-1074).
Proof. unfold fexp, emin, f64_prec, f64_emax. lia. Qed.

(** A shift to the exponent of the format: the new exponent is the one the
    magnitude asks for, and what is left of the mantissa keeps it. *)
Lemma shr_fexp_exponent m e l :
  0 < m -> e <= fexp64 (Zdigits2 m + e) ->
  let '(r, e') := shr_fexp f64_prec f64_emax m e l in
  e' = fexp64 (Zdigits2 m + e) /\ 0 <= shr_m r /\
  (0 < shr_m r -> Zdigits2 (shr_m r) + e' = Zdigits2 m + e) /\
  (shr_m r = 0 -> e' = -1074).
Proof.
  intros Hm He. unfold shr_fexp. set (r0 := shr_record_of_loc m l).
  assert (shr_m r0 = m) as Hr0 by (subst r0; by destruct l as [|[]]).
  pose proof (Zdigits2_pos m Hm) as HD. pose proof (fexp64_eq (Zdigits2 m + e)) as Ef.
  destruct (fexp64 (Zdigits2 m + e) - e) as [|n|n] eqn:En; simpl;
    [rewrite Hr0; repeat split; lia| |lia].
  rewrite iter_pos_nat.
  destruct (shr_iter_spec (Pos.to_nat n) r0 ltac:(lia)) as [E1 _].
  rewrite Hr0, positive_nat_Z in E1. rewrite E1.
  split; [lia|]. split; [apply Z.div_pos; [lia|apply Z.pow_pos_nonneg; lia]|].
  destruct (Z.lt_ge_cases (Zpos n) (Zdigits2 m)) as [Hn|Hn].
  - destruct (Zdigits2_shift m (Zpos n) Hm ltac:(lia)) as [Hp _]. split; [|lia].
    intros _. rewrite Zdigits2_shift_eq by lia. lia.
  - assert (m / 2 ^ Zpos n = 0) as E0.
    { apply Z.div_small. split; [lia|]. pose proof (Zdigits2_bounds m Hm) as [_ U].
      eapply Z.lt_le_trans; [exact U|]. apply Z.pow_le_mono_r; lia. }
    rewrite E0. split; [lia|]. intros _. lia.
Qed.

Lemma round_nearest_even_bounds m l : m <= round_nearest_even m l <= m + 1.
Proof. unfold round_nearest_even. repeat case_match; lia. Qed.

(** A float operation that rounds an exact result with enough bits returns a
    canonical float64. *)
Lemma binary_round_aux_valid s m e l :
  0 < m -> e <= fexp64 (Zdigits2 m + e) ->
  f64_valid (binary_round_aux f64_prec f64_emax s m e l).
Proof.
  intros Hm He. unfold binary_round_aux.
  pose proof (shr_fexp_exponent m e l Hm He) as H1.
  destruct (shr_fexp _ _ m e l) as [r1 e1]. destruct H1 as (E1 & P1 & D1 & Z1).
  pose proof (round_nearest_even_bounds (shr_m r1) (loc_of_shr_record r1)) as HM.
  set (M := round_nearest_even (shr_m r1) (loc_of_shr_record r1)) in *. clearbody M.
  assert (M = 0 \/ (0 < M /\ e1 <= fexp64 (Zdigits2 M + e1))) as [->|[HM0 HMe]].
  { destruct (Z.eq_dec M 0); [by left|right]. split; [lia|].
    rewrite fexp64_eq. rewrite fexp64_eq in E1.
    destruct (Z.eq_dec (shr_m r1) 0) as [E0|E0]; [specialize (Z1 E0); lia|].
    pose proof (Zdigits2_le_mono (shr_m r1) M ltac:(lia) ltac:(lia)).
    specialize (D1 ltac:(lia)). lia. }
  { assert (shr_m (fst (shr_fexp f64_prec f64_emax 0 e1 loc_Exact)) = 0) as E0.
    { unfold shr_fexp, shr. destruct (_ - e1) as [|p|p]; simpl; try done.
      rewrite iter_pos_nat.
      destruct (shr_iter_spec (Pos.to_nat p) (Build_shr_record 0 false false) ltac:(done)) as [Ei _].
      cbn [shr_m] in Ei. rewrite Ei. apply Z.div_0_l, Z.pow_nonzero; lia. }
    destruct (shr_fexp _ _ 0 e1 loc_Exact) as [r2 e2]. simpl in E0. by rewrite E0. }
  pose proof (shr_fexp_exponent M e1 loc_Exact HM0 HMe) as H2.
  destruct (shr_fexp _ _ M e1 loc_Exact) as [r2 e2]. destruct H2 as (E2 & P2 & D2 & _).
  destruct (shr_m r2) as [|p|p]; [done| |lia].
  destruct (e2 <=? f64_emax - f64_prec) eqn:Eb; [|done].
  unfold f64_valid, valid_binary, bounded, canonical_mantissa.
  rewrite Eb, andb_true_r, Z.eqb_eq. specialize (D2 ltac:(lia)). simpl in D2.
  by rewrite D2.
Qed.

Lemma fmul_10_valid m e : f64_valid (fmul (S754_finite false m e) f10).
Proof.
  rewrite f10_eq. apply binary_round_aux_valid; [lia|]. rewrite fexp64_eq.
  assert (2 ^ 52 <= Zpos (m * 5629499534213120)) as Hp by (rewrite pow_52; lia).
  pose proof (Zdigits2_ge _ _ Hp ltac:(lia)). lia.
Qed.
