(* ===== verification/GoDecimal.v ===== *)
(** * Decimal literals

    Plain decimal strings: their value, the float64 nearest to it, and the
    facts that relate them to the fixed-point text [fmt] prints and to the
    removal of trailing zeros. *)

From Stdlib Require Import ZArith Lia Ascii.
From Stdlib Require Import Floats.SpecFloat.
From stdpp Require Import gmap strings list pretty.
From S2P Require Import Prelude Float64 GoStrings GoFmt GoMath.
Local Open Scope Z_scope.

(** ** Decimal literals *)

(** The value of a string of digits. *)
Fixpoint digits_value (s : string) (acc : Z) : option Z :=
  match s with
  | EmptyString => Some acc
  | String a s =>
      let d := Z.of_nat (nat_of_ascii a) - 48 in
      if decide (0 <= d <= 9) then digits_value s (10 * acc + d) else None
  end.

(** A plain decimal: its sign, its digits as an integer and the number of
    digits after the point. *)
Definition unsigned_decimal (s : string) : option (Z * nat) :=
  match split_char "." s with
  | [i] => if decide (i = EmptyString) then None else (fun n => (n, 0%nat)) <$> digits_value i 0
  | [i; f] =>
      if decide (i = EmptyString \/ f = EmptyString) then None
      else n ← digits_value i 0; (fun n => (n, String.length f)) <$> digits_value f n
  | _ => None
  end.

Definition decimal (s : string) : option (bool * Z * nat) :=
  match s with
  | String a t =>
      if decide (a = "-"%char) then (fun v => (true, v.1, v.2)) <$> unsigned_decimal t
      else (fun v => (false, v.1, v.2)) <$> unsigned_decimal s
  | EmptyString => None
  end.

(** The float64 nearest to [n / 10^k]. *)
Definition decimal_float (neg : bool) (n : Z) (k : nat) : float64 :=
  let d := 10 ^ Z.of_nat k in
  let g := Z.gcd n d in
  match n / g, d / g with
  | Zpos p, Zpos q =>
      let '(mz, ez, lz) := SFdiv_core_binary f64_prec f64_emax (Zpos p) 0 (Zpos q) 0 in
      binary_round_aux f64_prec f64_emax neg mz ez lz
  | _, _ => S754_zero neg
  end.

(** The constant [1e-12]. *)
Definition f1e_12 : float64 := decimal_float false 1 12.

Example decimal_example : decimal "-12.50" = Some (true, 1250, 2%nat).
Proof. reflexivity. Qed.
Example decimal_tenth : decimal_float false 10 2 = fdiv f1 f10.
Proof. vm_compute. reflexivity. Qed.

(** [strings.TrimRight] with a cutset of one character. *)
Fixpoint trim_right (c : ascii) (s : string) : string :=
  match s with
  | EmptyString => EmptyString
  | String a s =>
      match trim_right c s with
      | EmptyString => if decide (a = c) then EmptyString else String a EmptyString
      | t => String a t
      end
  end.


(** ** Digits *)

Lemma digits_value_app s t acc :
  digits_value (s +:+ t) acc = digits_value s acc ≫= digits_value t.
Proof.
  revert acc. induction s as [|a s IH]; intros acc; [done|].
  rewrite append_cons. cbn [digits_value]. case_decide; [apply IH|done].
Qed.

Lemma digits_value_linear s acc :
  digits_value s acc =
  (fun v => acc * 10 ^ Z.of_nat (String.length s) + v) <$> digits_value s 0.
Proof.
  assert (forall s acc d, digits_value s (acc * 10 ^ 0 + d) =
    (fun v => acc * 10 ^ Z.of_nat (String.length s) + v) <$> digits_value s d) as H.
  { clear. intros s. induction s as [|a s IH]; intros acc d.
    - done.
    - cbn [digits_value String.length]. case_decide; [|done].
      set (x := Z.of_nat (nat_of_ascii a) - 48).
      replace (10 * (acc * 10 ^ 0 + d) + x) with ((10 * acc) * 10 ^ 0 + (10 * d + x)) by lia.
      rewrite IH. destruct (digits_value s (10 * d + x)) as [v|]; [|done].
      cbn [fmap option_fmap option_map]. f_equal. rewrite Nat2Z.inj_succ, Z.pow_succ_r by lia. lia. }
  rewrite <- H. f_equal. lia.
Qed.

Lemma digits_value_nonneg s v : digits_value s 0 = Some v -> 0 <= v.
Proof.
  assert (forall s acc v, 0 <= acc -> digits_value s acc = Some v -> 0 <= v) as H.
  { clear. intros s. induction s as [|a s IH]; intros acc v Hacc; simpl; [by intros [= <-]|].
    case_decide; [|done]. apply IH. lia. }
  by apply H.
Qed.

(** A run of digits holds no other character. *)
Lemma digits_value_without c s acc v :
  ~ (48 <= Z.of_nat (nat_of_ascii c) <= 57) ->
  digits_value s acc = Some v -> contains_char c s = false.
Proof.
  intros Hc. revert acc. induction s as [|a s IH]; intros acc; simpl; [done|].
  case_decide; [|done]. intros Hv%IH. rewrite Hv, orb_false_r.
  apply bool_decide_eq_false. intros ->. lia.
Qed.

Lemma pretty_N_char_value (d : N) :
  (d < 10)%N -> Z.of_nat (nat_of_ascii (pretty_N_char d)) - 48 = Z.of_N d.
Proof.
  intros Hd. assert (d = 0 \/ d = 1 \/ d = 2 \/ d = 3 \/ d = 4 \/ d = 5 \/ d = 6 \/ d = 7 \/
    d = 8 \/ d = 9)%N as Hc by lia. by destruct_or? Hc; subst d.
Qed.

Lemma digits_value_pretty_go (x : N) s :
  digits_value (pretty_N_go x s) 0 = digits_value s (Z.of_N x).
Proof.
  revert s. induction (N.lt_wf_0 x) as [x _ IH]; intros s.
  destruct (decide (x = 0)%N) as [->|Hx]; [done|].
  rewrite pretty_N_go_step by lia. rewrite IH by (apply N.div_lt; lia).
  pose proof (N.mod_lt x 10 ltac:(lia)). pose proof (N.div_mod x 10 ltac:(lia)).
  cbn [digits_value]. rewrite pretty_N_char_value by done.
  set (r := (x `mod` 10)%N) in *. set (q := (x `div` 10)%N) in *. clearbody r q.
  rewrite decide_True by lia. f_equal. lia.
Qed.

(** Reading back a printed natural number. *)
Lemma digits_value_pretty (z : Z) : 0 <= z -> digits_value (pretty z) 0 = Some z.
Proof.
  destruct z as [|p|p]; intros Hz; [done| |lia].
  change (pretty (Zpos p)) with (pretty (Npos p)). unfold pretty, pretty_N.
  case_decide; [done|]. by rewrite digits_value_pretty_go.
Qed.

Lemma pretty_Z_nonempty (z : Z) : 0 <= z -> pretty z <> EmptyString.
Proof.
  destruct z as [|p|p]; intros Hz; [done| |lia]. apply (pretty_N_nonempty (Npos p)).
Qed.

Lemma pretty_go_length k (x : N) s :
  (x < 10 ^ N.of_nat k)%N -> (String.length (pretty_N_go x s) <= k + String.length s)%nat.
Proof.
  revert x s. induction k as [|k IH]; intros x s Hx.
  - assert (x = 0)%N as -> by (simpl in Hx; lia). done.
  - destruct (decide (x = 0)%N) as [->|Hx0]; [rewrite pretty_N_go_0; lia|].
    rewrite pretty_N_go_step by lia. rewrite Nat2N.inj_succ, N.pow_succ_r' in Hx.
    etrans; [apply IH|simpl; lia]. apply N.Div0.div_lt_upper_bound; lia.
Qed.

Lemma pretty_length k (z : Z) :
  (0 < k)%nat -> 0 <= z < 10 ^ Z.of_nat k -> (String.length (pretty z) <= k)%nat.
Proof.
  intros Hk Hz. destruct z as [|p|p]; [simpl; lia| |lia].
  change (pretty (Zpos p)) with (pretty (Npos p)). unfold pretty, pretty_N.
  case_decide; [done|]. pose proof (pretty_go_length k (Npos p) EmptyString) as Hlen.
  simpl in Hlen. etrans; [apply Hlen|lia].
  apply N2Z.inj_lt. rewrite N2Z.inj_pow, nat_N_Z. simpl. lia.
Qed.

(** Reading back a number padded to a width. *)
Lemma zeros_length n : String.length (zeros n) = n.
Proof. induction n as [|n IH]; [done|]. simpl. by rewrite IH. Qed.

Lemma digits_value_zeros n acc : digits_value (zeros n) acc = Some (acc * 10 ^ Z.of_nat n).
Proof.
  revert acc. induction n as [|n IH]; intros acc; [simpl; f_equal; lia|].
  cbn [zeros digits_value]. rewrite decide_True by (vm_compute; split; discriminate).
  rewrite IH, Nat2Z.inj_succ, Z.pow_succ_r by lia. f_equal.
  change (Z.of_nat (nat_of_ascii "0") - 48) with 0. lia.
Qed.

Lemma padded_spec n w :
  (0 < w)%nat -> 0 <= n < 10 ^ Z.of_nat w ->
  String.length (padded n w) = w /\ digits_value (padded n w) 0 = Some n.
Proof.
  intros Hw Hn. unfold padded. pose proof (pretty_length w n Hw Hn).
  rewrite string_length_append, zeros_length. split; [lia|].
  rewrite digits_value_app, digits_value_zeros. simpl.
  apply digits_value_pretty. lia.
Qed.

(** ** Literals with a point *)

Lemma split_char_sep c i t :
  contains_char c i = false -> split_char c (i +:+ String c t) = i :: split_char c t.
Proof.
  induction i as [|a i IH]; simpl.
  - intros _. by rewrite decide_True.
  - rewrite orb_false_iff, bool_decide_eq_false. intros [Ha Hi].
    rewrite decide_False by done. change (String.append i (String c t)) with (i +:+ String c t).
    by rewrite IH.
Qed.

Lemma digits_no_point s acc v : digits_value s acc = Some v -> contains_char "." s = false.
Proof. apply digits_value_without. vm_compute. by intros [? ?]. Qed.

Lemma unsigned_decimal_integer i a :
  i <> EmptyString -> digits_value i 0 = Some a -> unsigned_decimal i = Some (a, 0%nat).
Proof.
  intros Hi Ha. unfold unsigned_decimal.
  rewrite (split_char_none _ _ (digits_no_point _ _ _ Ha)), decide_False, Ha by done. done.
Qed.

Lemma unsigned_decimal_parts i f a b :
  i <> EmptyString -> f <> EmptyString ->
  digits_value i 0 = Some a -> digits_value f 0 = Some b ->
  unsigned_decimal (i +:+ String "." f) =
  Some (a * 10 ^ Z.of_nat (String.length f) + b, String.length f).
Proof.
  intros Hi Hf Ha Hb. unfold unsigned_decimal.
  rewrite (split_char_sep _ _ _ (digits_no_point _ _ _ Ha)).
  rewrite (split_char_none _ _ (digits_no_point _ _ _ Hb)).
  rewrite decide_False by (by intros [?|?]). rewrite Ha. simpl.
  by rewrite digits_value_linear, Hb.
Qed.

Lemma decimal_signed (neg : bool) u n k :
  unsigned_decimal u = Some (n, k) ->
  decimal ((if neg then "-" else EmptyString) +:+ u) = Some (neg, n, k).
Proof.
  intros Hu. destruct neg; [change (((fun v => (true, v.1, v.2)) <$> unsigned_decimal u) = Some (true, n, k)); by rewrite Hu|].
  rewrite append_nil_l. destruct u as [|a u]; [done|]. unfold decimal.
  case_decide as Ha; [|by rewrite Hu]. subst a. exfalso. revert Hu.
  unfold unsigned_decimal. cbn [split_char]. rewrite decide_False by done.
  pose proof (split_char_nonempty "." u).
  destruct (split_char "." u) as [|p [|q [|]]]; try done;
    case_decide; try done; cbn [digits_value]; by rewrite decide_False by (vm_compute; intros [? _]; done).
Qed.

(** ** Removing trailing characters *)

Lemma trim_right_app c s t :
  trim_right c (s +:+ t) =
  match trim_right c t with EmptyString => trim_right c s | t' => s +:+ t' end.
Proof.
  induction s as [|a s IH].
  - rewrite append_nil_l. by destruct (trim_right c t).
  - rewrite append_cons. cbn [trim_right]. rewrite IH.
    destruct (trim_right c t) as [|b t']; [done|]. rewrite append_cons. by destruct s.
Qed.

Lemma trim_right_last c s a : last_ascii (trim_right c s) = Some a -> a <> c.
Proof.
  induction s as [|b s IH]; [done|]. cbn [trim_right].
  destruct (trim_right c s) as [|b' t] eqn:E; [|exact IH].
  case_decide; [done|]. by intros [= <-].
Qed.

Lemma trim_right_id c s : contains_char c s = false -> trim_right c s = s.
Proof.
  induction s as [|a s IH]; simpl; [done|].
  rewrite orb_false_iff, bool_decide_eq_false. intros [Ha Hs]. rewrite (IH Hs).
  destruct s; [by rewrite decide_False|done].
Qed.

Lemma trim_right_zeros s : exists j, s = trim_right "0" s +:+ zeros j.
Proof.
  induction s as [|a s [j IH]]; [by exists 0%nat|]. cbn [trim_right].
  destruct (trim_right "0" s) as [|b t] eqn:E.
  - case_decide as Ha; [exists (S j)|exists j]; rewrite IH, append_nil_l; [by subst a|done].
  - exists j. by rewrite append_cons, <- IH.
Qed.

(** Removing the zeros and then the point of fixed-point text keeps the value,
    and what is left of the fraction does not end in a zero. *)
Lemma trim_fixed_point (n : Z) (w : nat) :
  0 <= n -> (0 < w)%nat ->
  exists m k, (k <= w)%nat /\ m * 10 ^ Z.of_nat (w - k) = n /\
    unsigned_decimal (trim_right "." (trim_right "0" (fixed_point n w))) = Some (m, k) /\
    ((0 < k)%nat -> last_ascii (trim_right "." (trim_right "0" (fixed_point n w))) <> Some "0"%char).
Proof.
  intros Hn Hw. set (p := 10 ^ Z.of_nat w).
  assert (0 < p) as Hp by (apply Z.pow_pos_nonneg; lia).
  pose proof (Z.mod_pos_bound n p Hp) as Hmod. pose proof (Z.div_mod n p ltac:(lia)) as Hdm.
  assert (0 <= n / p) as Hq by (apply Z.div_pos; lia).
  destruct (padded_spec (n mod p) w Hw Hmod) as [Hlen Hval].
  assert (fixed_point n w = pretty (n / p) +:+ String "." (padded (n mod p) w)) as ->
    by (unfold fixed_point; fold p; destruct w; [lia|done]).
  set (i := pretty (n / p)) in *. set (f := padded (n mod p) w) in *.
  pose proof (digits_value_pretty (n / p) Hq) as Hi. fold i in Hi.
  assert (i <> EmptyString) as Hne by by apply pretty_Z_nonempty.
  destruct (trim_right_zeros f) as [j Ej]. pose proof (trim_right_last "0" f) as Hlast.
  set (f' := trim_right "0" f) in *.
  assert (String.length f' + j = w)%nat as Hl
    by (rewrite <- Hlen, Ej, string_length_append, zeros_length; done).
  rewrite Ej, digits_value_app in Hval.
  destruct (digits_value f' 0) as [b|] eqn:Hb; [|done]. simpl in Hval.
  rewrite digits_value_zeros in Hval. simplify_eq.
  rewrite trim_right_app. cbn [trim_right]. fold f'.
  destruct f' as [|a f''] eqn:Ef.
  - rewrite decide_False by done. rewrite trim_right_app. cbn [trim_right].
    rewrite decide_True by done. rewrite trim_right_id by (by apply (digits_no_point _ _ _ Hi)).
    exists (n / p), 0%nat. simpl in Hb, Hl. simplify_eq. rewrite Nat.sub_0_r.
    split_and!; [lia| |by apply unsigned_decimal_integer|lia]. fold p. lia.
  - rewrite <- Ef in *. assert (f' <> EmptyString) as Hf by by rewrite Ef.
    assert (trim_right "." (i +:+ String "." f') = i +:+ String "." f') as ->.
    { rewrite trim_right_app. cbn [trim_right].
      rewrite (trim_right_id _ f') by (by apply (digits_no_point _ _ _ Hb)). by rewrite Ef. }
    exists (n / p * 10 ^ Z.of_nat (String.length f') + b), (String.length f').
    assert (w - String.length f' = j)%nat as -> by lia.
    split_and!; [lia| |by apply unsigned_decimal_parts|].
    + assert (p = 10 ^ Z.of_nat (String.length f') * 10 ^ Z.of_nat j) as Ep.
      { subst p. rewrite <- Z.pow_add_r by lia. f_equal. lia. }
      rewrite Z.mul_add_distr_r, <- Z.mul_assoc, <- Ep. lia.
    + intros _. change (String "." f') with ("." +:+ f').
      rewrite <- append_assoc, last_ascii_append by done. intros E0.
      by apply (Hlast "0"%char).
Qed.

(** ** The nearest float64 depends on the value only *)
Lemma decimal_float_scale neg n k j :
  0 <= n -> decimal_float neg (n * 10 ^ Z.of_nat j) (k + j) = decimal_float neg n k.
Proof.
  intros Hn. unfold decimal_float.
  rewrite Nat2Z.inj_add, Z.pow_add_r by lia.
  set (c := 10 ^ Z.of_nat j). set (d := 10 ^ Z.of_nat k).
  assert (0 < c) by (apply Z.pow_pos_nonneg; lia).
  assert (0 < d) by (apply Z.pow_pos_nonneg; lia).
  rewrite Z.gcd_mul_mono_r_nonneg by lia.
  assert (0 < Z.gcd n d) by (pose proof (Z.gcd_nonneg n d);
    destruct (Z.eq_dec (Z.gcd n d) 0) as [E|]; [apply Z.gcd_eq_0_r in E|]; lia).
  by rewrite !Z.div_mul_cancel_r by lia.
Qed.
