(* ===== verification/SdkNonce.v ===== *)
(** * Nonces of exchange actions

    [Exchange.nextNonce] of src/pkg/go-hyperliquid/exchange.go hands out the
    nonces that order the signed actions of an account.  Any number of
    goroutines call it on one atomic counter, each retrying a load, a clock
    reading and a compare-and-swap until the swap succeeds.  The calls are a
    step relation on the counter and the goroutines' local states, one atomic
    access a step; [nextNonce] is the same call run alone, the form the
    exchange methods use. *)

From Stdlib Require Import ZArith Lia.
From stdpp Require Import base list sorting.
From S2P Require Import Prelude.
Local Open Scope Z_scope.

(** ** The call run alone *)

(** The candidate a call computes from the loaded nonce and the clock's
    reading in milliseconds. *)
Definition nonce_candidate (last ms : Z) : Z :=
  if ms <=? last then int64 (last + 1) else ms.

(** [nextNonce] without interference: the nonce, which is also the counter's
    next value. *)
Definition nextNonce (lastNonce now : Z) : Z := nonce_candidate lastNonce (UnixMilli now).

(** [SetLastNonce]. *)
Definition SetLastNonce (lastNonce n : Z) : Z := n.

Example nonce_clock : nextNonce 5 (1700000000123 * Millisecond) = 1700000000123.
Proof. reflexivity. Qed.
Example nonce_same_millisecond :
  nextNonce 1700000000123 (1700000000123 * Millisecond) = 1700000000124.
Proof. reflexivity. Qed.

(** ** Concurrent calls *)

(** Where a goroutine is in the loop: before the load, before the clock is
    read, before the swap. *)
Inductive nonce_pc : Type :=
| NLoad
| NClock (last : Z)
| NSwap (last candidate : Z).

(** The counter, each goroutine's state (it calls again when its call has
    returned) and the returned nonces with their callers, newest first. *)
Record nonces := mkNonces {
  lastNonce : Z;
  callers : list nonce_pc;
  issued : list (nat * Z);
}.

Definition NewNonces (start : Z) (callers : nat) : nonces :=
  mkNonces start (replicate callers NLoad) [].

(** One atomic access of goroutine [g]; [ms] is what the clock reads. *)
Definition nonce_step (g : nat) (ms : Z) (s : nonces) : option nonces :=
  match callers s !! g with
  | None => None
  | Some NLoad => Some (mkNonces (lastNonce s) (<[g := NClock (lastNonce s)]> (callers s)) (issued s))
  | Some (NClock last) =>
      Some (mkNonces (lastNonce s) (<[g := NSwap last (nonce_candidate last ms)]> (callers s)) (issued s))
  | Some (NSwap last candidate) =>
      if lastNonce s =? last then
        Some (mkNonces candidate (<[g := NLoad]> (callers s)) ((g, candidate) :: issued s))
      else Some (mkNonces (lastNonce s) (<[g := NLoad]> (callers s)) (issued s))
  end.

(** A schedule: the goroutines' accesses in their order, with the clock
    readings. *)
Fixpoint run_nonces (schedule : list (nat * Z)) (s : nonces) : option nonces :=
  match schedule with
  | [] => Some s
  | (g, ms) :: schedule =>
      match nonce_step g ms s with Some s' => run_nonces schedule s' | None => None end
  end.

(** ** Safety *)

Section bounded.
(** Every clock reading and the first value lie below [B]. *)
Context (B : Z).

Definition readings_below (schedule : list (nat * Z)) : Prop :=
  Forall (fun gm => 0 <= gm.2 <= B) schedule.

Definition pc_ok (last : Z) (pc : nonce_pc) : Prop :=
  match pc with
  | NLoad => True
  | NClock l => l <= last
  | NSwap l c => l <= last /\ (c <= B \/ c = int64 (l + 1)) /\ (int64 (l + 1) = l + 1 -> l < c)
  end.

(** What a reachable state satisfies: the nonces grow, the counter holds the
    newest, and it has outrun the clock by at most the number of calls. *)
Definition nonces_ok (start : Z) (s : nonces) : Prop :=
  StronglySorted (fun x y => y < x) (issued s).*2 /\
  Forall (fun n => start < n <= lastNonce s) (issued s).*2 /\
  start <= lastNonce s <= B + Z.of_nat (length (issued s)) /\
  Forall (pc_ok (lastNonce s)) (callers s).

Lemma pc_ok_mono last last' pc : last <= last' -> pc_ok last pc -> pc_ok last' pc.
Proof. destruct pc; simpl; intuition lia. Qed.

Lemma candidate_ok last ms :
  0 <= ms <= B ->
  (nonce_candidate last ms <= B \/ nonce_candidate last ms = int64 (last + 1)) /\
  (int64 (last + 1) = last + 1 -> last < nonce_candidate last ms).
Proof.
  intros Hms. unfold nonce_candidate.
  destruct (Z.leb_spec ms last); split; try lia; auto.
Qed.

Lemma nonce_step_issued g ms s s' :
  nonce_step g ms s = Some s' ->
  (length (issued s) <= length (issued s'))%nat.
Proof.
  unfold nonce_step. repeat case_match; intros [= <-]; simpl; lia.
Qed.

Lemma nonce_step_ok start g ms s s' :
  0 <= ms <= B -> int64_min <= start ->
  B + Z.of_nat (length (issued s')) <= int64_max ->
  nonce_step g ms s = Some s' -> nonces_ok start s -> nonces_ok start s'.
Proof.
  intros Hms Hstart Hroom Hs (Hsort & Hiss & Hlast & Hpcs).
  pose proof (nonce_step_issued _ _ _ _ Hs) as Hlen. unfold nonce_step in Hs.
  destruct (callers s !! g) as [pc|] eqn:Epc; [|done].
  pose proof (Forall_lookup_1 _ _ _ _ Hpcs Epc) as Hpc.
  destruct pc as [|last|last c].
  - simplify_eq. repeat split; simpl in *; try done; try lia.
    apply Forall_insert; [done|]. simpl. lia.
  - simplify_eq. repeat split; simpl in *; try done; try lia.
    apply Forall_insert; [done|]. exact (conj Hpc (candidate_ok last ms Hms)).
  - destruct (Z.eqb_spec (lastNonce s) last) as [Heq|Hne]; simplify_eq; simpl in *.
    + destruct Hpc as (_ & Hc & Hgrow).
      assert (int64 (lastNonce s + 1) = lastNonce s + 1) as Hid
        by (apply int64_id; unfold in_int64; lia).
      specialize (Hgrow Hid). rewrite Hid in Hc.
      unfold nonces_ok. cbn [lastNonce callers issued length fmap list_fmap].
      split_and!; try lia.
      * constructor; [done|]. eapply Forall_impl; [exact Hiss|]. simpl. lia.
      * constructor; [simpl; lia|]. eapply Forall_impl; [exact Hiss|]. simpl. lia.
      * apply Forall_insert; [|done]. eapply Forall_impl; [exact Hpcs|].
        intros pc. apply pc_ok_mono. lia.
    + unfold nonces_ok. cbn [lastNonce callers issued].
      split_and!; try done; try lia. by apply Forall_insert.
Qed.

Lemma run_nonces_issued schedule s s' :
  run_nonces schedule s = Some s' -> (length (issued s) <= length (issued s'))%nat.
Proof.
  revert s. induction schedule as [|[g ms] schedule IH]; intros s; simpl; [by intros [= ->]|].
  destruct (nonce_step g ms s) as [s1|] eqn:E; [|done]. intros Hr%IH.
  pose proof (nonce_step_issued _ _ _ _ E). lia.
Qed.

Lemma run_nonces_ok start schedule s s' :
  int64_min <= start -> readings_below schedule ->
  B + Z.of_nat (length (issued s')) <= int64_max ->
  run_nonces schedule s = Some s' -> nonces_ok start s -> nonces_ok start s'.
Proof.
  intros Hstart Hread Hroom. revert s.
  induction Hread as [|[g ms] schedule Hms Hread IH]; intros s; simpl; [by intros [= ->]|].
  destruct (nonce_step g ms s) as [s1|] eqn:E; [|done]. intros Hr Hok.
  apply (IH s1 Hr). apply (nonce_step_ok _ g ms s); try done.
  pose proof (run_nonces_issued _ _ _ Hr). lia.
Qed.
End bounded.

Lemma NewNonces_ok B start n : start <= B -> nonces_ok B start (NewNonces start n).
Proof.
  intros Hs. split_and!; simpl; try constructor; try lia.
  apply Forall_replicate. exact I.
Qed.

(** C8. However the calls of any number of goroutines interleave on the
    counter and whatever the clock reads (equal, backwards), every nonce
    [nextNonce] returns is greater than every nonce returned before it and
    than the value the counter started from, so no two actions share a nonce;
    it runs ahead of the latest clock reading by at most the number of calls
    made.  The counter must not reach the largest int64. *)
Theorem nonces_unique (B start : Z) (n : nat) (schedule : list (nat * Z)) (s : nonces)
    (Hstart : int64_min <= start <= B)
    (Hclock : readings_below B schedule)
    (Hrun : run_nonces schedule (NewNonces start n) = Some s)
    (Hroom : B + Z.of_nat (length (issued s)) <= int64_max) :
  StronglySorted (fun x y => y < x) (issued s).*2 /\
  NoDup (issued s).*2 /\
  Forall (fun nonce => start < nonce <= B + Z.of_nat (length (issued s))) (issued s).*2.
Proof.
  destruct (run_nonces_ok B start schedule _ s ltac:(lia) Hclock Hroom Hrun
              (NewNonces_ok B start n ltac:(lia))) as (Hsort & Hiss & Hlast & _).
  split_and!; [done| |eapply Forall_impl; [exact Hiss|]; simpl; lia].
  clear -Hsort. induction Hsort as [|x l _ IH Hx]; constructor; [|done].
  intros Hin. rewrite Forall_forall in Hx. specialize (Hx x Hin). lia.
Qed.

(** ** Progress *)

(** The accesses a goroutine still needs to return if nobody interferes, plus
    a whole attempt when what it loaded is out of date. *)
Definition pc_weight (last : Z) (pc : nonce_pc) : nat :=
  match pc with
  | NLoad => 3
  | NClock l => 2 + (if l =? last then 0 else 3)
  | NSwap l _ => 1 + (if l =? last then 0 else 3)
  end.

Definition nonce_weight (s : nonces) : nat := sum_list_with (pc_weight (lastNonce s)) (callers s).

Lemma nonce_weight_bound s : (nonce_weight s <= 5 * length (callers s))%nat.
Proof.
  unfold nonce_weight. induction (callers s) as [|pc l IH]; simpl; [done|].
  destruct pc; simpl; try case_match; lia.
Qed.

(** An access that does not return a nonce brings the next return nearer. *)
Lemma nonce_step_weight g ms s s' :
  nonce_step g ms s = Some s' ->
  issued s' = issued s ->
  length (callers s') = length (callers s) /\ (nonce_weight s' < nonce_weight s)%nat.
Proof.
  unfold nonce_step, nonce_weight. intros Hs Hi.
  destruct (callers s !! g) as [pc|] eqn:Epc; [|done].
  destruct pc as [|last|last c].
  - simplify_eq/=. split; [by rewrite length_insert|].
    pose proof (sum_list_with_insert (pc_weight (lastNonce s)) _ _ _ (NClock (lastNonce s)) Epc) as E.
    simpl in E. rewrite Z.eqb_refl in E. lia.
  - simplify_eq/=. split; [by rewrite length_insert|].
    pose proof (sum_list_with_insert (pc_weight (lastNonce s)) _ _ _
                  (NSwap last (nonce_candidate last ms)) Epc) as E.
    simpl in E. lia.
  - destruct (lastNonce s =? last) eqn:El; simplify_eq/=.
    + exfalso. clear -Hi. induction (issued s) as [|x l IH]; congruence.
    + split; [by rewrite length_insert|].
      pose proof (sum_list_with_insert (pc_weight (lastNonce s)) _ _ _ NLoad Epc) as E.
      simpl in E. rewrite Z.eqb_sym, El in E. lia.
Qed.

Lemma nonce_step_issued_suffix g ms s s' :
  nonce_step g ms s = Some s' -> issued s' <> issued s ->
  length (issued s') = S (length (issued s)).
Proof. unfold nonce_step. repeat case_match; intros [= <-]; simpl; done. Qed.

(** C29. [nextNonce] is lock-free: among any [5 n + 1] consecutive accesses
    that [n] goroutines make to the counter, whoever makes them, one returns
    a nonce, so the retry loop cannot keep all of them spinning. *)
Theorem nextNonce_lock_free (s s' : nonces) (schedule : list (nat * Z))
    (Hrun : run_nonces schedule s = Some s')
    (Hlong : (5 * length (callers s) < length schedule)%nat) :
  (length (issued s) < length (issued s'))%nat.
Proof.
  assert (nonce_weight s < length schedule)%nat as Hw
    by (pose proof (nonce_weight_bound s); lia). clear Hlong.
  revert s Hrun Hw. induction schedule as [|[g ms] schedule IH]; intros s; simpl; [lia|].
  destruct (nonce_step g ms s) as [s1|] eqn:E; [|done]. intros Hr Hw.
  destruct (decide (issued s1 = issued s)) as [Heq|Hne].
  - destruct (nonce_step_weight _ _ _ _ E Heq) as [_ Hlt].
    rewrite <- Heq. apply IH; [done|lia].
  - pose proof (nonce_step_issued_suffix _ _ _ _ E Hne).
    pose proof (run_nonces_issued _ _ _ Hr). lia.
Qed.

(** A goroutine that runs alone returns what the sequential form computes. *)
Lemma nextNonce_solo g now s ms1 ms3 :
  callers s !! g = Some NLoad ->
  run_nonces [(g, ms1); (g, UnixMilli now); (g, ms3)] s =
  Some (mkNonces (nextNonce (lastNonce s) now) (callers s)
          ((g, nextNonce (lastNonce s) now) :: issued s)).
Proof.
  intros Hg. assert (g < length (callers s))%nat by by eapply lookup_lt_Some.
  cbn [run_nonces]. unfold nonce_step at 1. rewrite Hg. unfold nonce_step at 1. simpl.
  rewrite list_lookup_insert_eq by done. unfold nonce_step. simpl.
  rewrite list_lookup_insert_eq by (by rewrite length_insert).
  rewrite Z.eqb_refl. simpl. rewrite !list_insert_insert_eq.
  by rewrite list_insert_id.
Qed.

(** ** Witnesses *)

(** Two goroutines that load the same value: the second swap fails and is
    retried in the same millisecond. *)
Definition contended : list (nat * Z) :=
  [(0%nat, 7); (1%nat, 7); (0%nat, 7); (1%nat, 7); (0%nat, 7); (1%nat, 7);
   (1%nat, 7); (1%nat, 7); (1%nat, 7); (0%nat, 7); (0%nat, 6)].

Definition contended_end : nonces :=
  mkNonces 8 [NSwap 8 9; NLoad] [(1%nat, 8); (0%nat, 7)].

Lemma contended_run : run_nonces contended (NewNonces 0 2) = Some contended_end.
Proof. vm_compute. reflexivity. Qed.

Lemma nonces_unique_witness :
  run_nonces contended (NewNonces 0 2) = Some contended_end /\
  NoDup (issued contended_end).*2.
Proof.
  split; [exact contended_run|].
  apply (nonces_unique 7 0 2 contended contended_end);
    [by split|by repeat constructor|exact contended_run|done].
Defined.

Lemma nextNonce_lock_free_witness :
  (length (issued (NewNonces 0 2)) < length (issued contended_end))%nat.
Proof.
  apply (nextNonce_lock_free (NewNonces 0 2) contended_end contended);
    [exact contended_run|simpl; lia].
Defined.
