(* ===== verification/SdkWire.v ===== *)
(** * Wire numbers of the exchange client

    src/pkg/go-hyperliquid/utils.go: rounding of prices to decimals and to
    significant figures, and the decimal strings in which prices and sizes are
    signed and sent.  github.com/spf13/cast is an argument; its law is that it
    reads a plain decimal as the nearest float64 ([strconv.ParseFloat]).  The
    two loops run on fuel; [roundToSignificantFigures_total] shows
    [significant_fuel] suffices for every float64. *)

From Stdlib Require Import ZArith Lia Ascii.
From Stdlib Require Import Floats.SpecFloat.
From stdpp Require Import gmap strings list pretty.
From S2P Require Import Prelude Float64 GoStrings GoFmt GoMath GoDecimal.
Local Open Scope Z_scope.

(** ** github.com/spf13/cast *)

(** [cast.ToFloat64E]. *)
Class CastE := { ToFloat64E : string -> float64 + string }.

Class CastELaws (C : CastE) : Prop := {
  ToFloat64E_decimal : forall s neg n k,
    decimal s = Some (neg, n, k) -> f64_finite (decimal_float neg n k) ->
    ToFloat64E s = inl (decimal_float neg n k);
  ToFloat64E_range : forall s neg n k,
    decimal s = Some (neg, n, k) -> ~ f64_finite (decimal_float neg n k) ->
    exists err, ToFloat64E s = inr err;
}.

(** ** utils.go *)

Definition roundToDecimals (value : float64) (decimals : Z) : float64 :=
  let pow := math_Pow10 decimals in
  fdiv (math_Round (fmul value pow)) pow.

Definition sdk_abs (x : float64) : float64 := if fltb x f0 then SFopp x else x.

Definition formatFloat (f : float64) : string := format_f 6 f.

(** [for temp > 0 { temp = temp / 10; numIntegerDigits++ }]. *)
Fixpoint integer_digits (fuel : nat) (temp numIntegerDigits : Z) : option Z :=
  if temp <=? 0 then Some numIntegerDigits
  else match fuel with
       | O => None
       | S fuel => integer_digits fuel (temp / 10) (numIntegerDigits + 1)
       end.

(** [for absPrice < 1 { absPrice *= 10; multiplications++ }]. *)
Fixpoint scale_up (fuel : nat) (absPrice : float64) (multiplications : Z) : option (float64 * Z) :=
  if fltb absPrice f1 then
    match fuel with
    | O => None
    | S fuel => scale_up fuel (fmul absPrice f10) (multiplications + 1)
    end
  else Some (absPrice, multiplications).

Definition significant_fuel : nat := 400.

Definition roundToSignificantFigures_fuel (turns digit_turns : nat) (price : float64) (sigFigs : Z) : option float64 :=
  if feqb price f0 then Some f0
  else
    let absPrice := fabs price in
    let integerPart := math_Floor absPrice in
    if fgtb integerPart f0 then
      numIntegerDigits ← integer_digits digit_turns (int_of_float64 integerPart) 0;
      if sigFigs <=? numIntegerDigits then Some (math_Copysign integerPart price)
      else
        let sigFigsLeft := sigFigs - numIntegerDigits in
        Some (math_Copysign (roundToDecimals absPrice sigFigsLeft) price)
    else
      '(scaledPrice, multiplications) ← scale_up turns absPrice 0;
      let rounded := roundToDecimals scaledPrice (sigFigs - 1) in
      Some (math_Copysign (fdiv rounded (math_Pow10 multiplications)) price).

Definition roundToSignificantFigures (price : float64) (sigFigs : Z) : float64 :=
  default f0 (roundToSignificantFigures_fuel significant_fuel significant_fuel price sigFigs).

Section cast.
Context `{CastE}.

Definition parseFloat (s : string) : float64 :=
  match ToFloat64E s with inl f => f | inr _ => f0 end.

Definition floatToWire (x : float64) : string + string :=
  let rounded := format_f 8 x in
  match ToFloat64E rounded with
  | inr err => inr err
  | inl parsed =>
      if fleb f1e_12 (fabs (fsub parsed x)) then
        inr ("float_to_wire causes rounding: " +:+ format_f 6 x)
      else
        let rounded := if decide (rounded = "-0.00000000") then "0.00000000" else rounded in
        let result := trim_right "0" rounded in
        inl (trim_right "." result)
  end.
End cast.

(** The source's own examples. *)
Example round_two_of_three :
  roundToSignificantFigures (decimal_float false 123453 3) 5 = decimal_float false 12345 2.
Proof. vm_compute. reflexivity. Qed.
Example round_integer_part :
  roundToSignificantFigures (float64_of_Z 110454) 5 = float64_of_Z 110454.
Proof. vm_compute. reflexivity. Qed.
Example round_fraction :
  roundToSignificantFigures (decimal_float false 252312 8) 5 = decimal_float false 25231 7.
Proof. vm_compute. reflexivity. Qed.
Example round_keeps_digits :
  roundToSignificantFigures (decimal_float false 123456789 6) 9 = decimal_float false 123456789 6.
Proof. vm_compute. reflexivity. Qed.

(** ** The loops end *)

Lemma integer_digits_some fuel temp n :
  temp < 10 ^ Z.of_nat fuel -> is_Some (integer_digits fuel temp n).
Proof.
  revert temp n. induction fuel as [|fuel IH]; intros temp n Ht; simpl;
    (destruct (Z.leb_spec temp 0); [by eexists|]); [simpl in Ht; lia|].
  apply IH. rewrite Nat2Z.inj_succ, Z.pow_succ_r in Ht by lia.
  apply Z.div_lt_upper_bound; lia.
Qed.

Lemma integer_digits_mono fuel fuel' temp n r :
  (fuel <= fuel')%nat -> integer_digits fuel temp n = Some r ->
  integer_digits fuel' temp n = Some r.
Proof.
  revert fuel' temp n. induction fuel as [|fuel IH]; intros [|fuel'] temp n Hle; simpl; try lia;
    destruct (temp <=? 0); try done. apply IH. lia.
Qed.

Lemma scale_up_mono fuel fuel' x n r :
  (fuel <= fuel')%nat -> scale_up fuel x n = Some r -> scale_up fuel' x n = Some r.
Proof.
  revert fuel' x n. induction fuel as [|fuel IH]; intros [|fuel'] x n Hle; simpl; try lia;
    destruct (fltb x f1); try done. apply IH. lia.
Qed.

Lemma valid_exponent s m e : f64_valid (S754_finite s m e) -> -1074 <= e.
Proof.
  unfold f64_valid, valid_binary, bounded, canonical_mantissa.
  rewrite andb_true_iff, Z.eqb_eq, fexp64_eq. lia.
Qed.

(** Each multiplication by ten raises the leading bit by three positions at
    least, so the fraction reaches 1 within a third of its magnitude. *)
Lemma scale_up_some fuel m e n :
  f64_valid (S754_finite false m e) ->
  0 < Zpos (digits2_pos m) + e + 3 * Z.of_nat fuel ->
  is_Some (scale_up fuel (S754_finite false m e) n).
Proof.
  revert m e n. induction fuel as [|fuel IH]; intros m e n Hv Hf; cbn [scale_up];
    (destruct (fltb (S754_finite false m e) f1) eqn:Hlt; [|by eexists]);
    pose proof (finite_lt_one_mag m e Hlt Hv); [lia|].
  pose proof (fmul_10_mag m e (valid_exponent _ _ _ Hv)) as Hmag.
  pose proof (fmul_10_valid m e) as Hv'.
  destruct (fmul (S754_finite false m e) f10) as [|[]| |[] m' e']; try done.
  - assert (fltb (S754_infinity false) f1 = false) as Hi by by vm_compute.
    destruct fuel; cbn [scale_up]; rewrite Hi; by eexists.
  - apply IH; [done|lia].
Qed.

Lemma int_of_float64_range x : in_int64 (int_of_float64 x).
Proof.
  unfold in_int64, int_of_float64. destruct x; try (unfold int64_min, int64_max; lia).
  destruct (_ && _) eqn:E; [rewrite andb_true_iff, !Z.leb_le in E; lia|].
  unfold int64_min, int64_max; lia.
Qed.

Lemma significant_fuel_some price sigFigs turns digit_turns :
  f64_valid price -> (358 <= turns)%nat -> (19 <= digit_turns)%nat ->
  is_Some (roundToSignificantFigures_fuel turns digit_turns price sigFigs).
Proof.
  intros Hv Hf Hd. unfold roundToSignificantFigures_fuel.
  destruct (feqb price f0) eqn:E0; [by eexists|].
  destruct (fgtb (math_Floor (fabs price)) f0) eqn:Eg.
  - destruct (integer_digits_some digit_turns (int_of_float64 (math_Floor (fabs price))) 0) as [d ->];
      [|simpl; by case_match].
    pose proof (int_of_float64_range (math_Floor (fabs price))) as [_ Hi].
    eapply Z.le_lt_trans; [exact Hi|]. unfold int64_max.
    assert (10 ^ 19 <= 10 ^ Z.of_nat digit_turns) by (apply Z.pow_le_mono_r; lia). lia.
  - assert (is_Some (scale_up turns (fabs price) 0)) as [[p k] ->]; [|by eexists].
    destruct price as [s|s| |s m e].
    + done.
    + assert (fltb (S754_infinity false) f1 = false) as Hi by by vm_compute.
      destruct turns; cbn [scale_up fabs SFabs]; rewrite Hi; by eexists.
    + destruct turns; by eexists.
    + apply scale_up_some; [exact Hv|]. apply valid_exponent in Hv.
      pose proof (digits2_pos_bounds m). lia.
Qed.

Lemma roundToSignificantFigures_fuel_mono m n m' n' price sigFigs r :
  (m <= m')%nat -> (n <= n')%nat -> roundToSignificantFigures_fuel m n price sigFigs = Some r ->
  roundToSignificantFigures_fuel m' n' price sigFigs = Some r.
Proof.
  intros Hm Hn. unfold roundToSignificantFigures_fuel.
  destruct (feqb price f0); [done|]. destruct (fgtb _ f0).
  - destruct (integer_digits n _ 0) as [d|] eqn:E; [|done].
    by rewrite (integer_digits_mono _ _ _ _ _ Hn E).
  - destruct (scale_up m _ 0) as [d|] eqn:E; [|done].
    by rewrite (scale_up_mono _ _ _ _ _ Hm E).
Qed.

(** C28. The loops of [roundToSignificantFigures] end on every float64, the
    smallest subnormals, the infinities and NaN included: 358 turns of the
    loop that scales a fraction up (three binary orders of magnitude a turn)
    and 19 of the one that counts the digits of an int64 suffice, each bound on
    its own loop, and more turns of either do not change the result. *)
Theorem roundToSignificantFigures_total (price : float64) (sigFigs : Z) (turns digit_turns : nat)
    (Hvalid : f64_valid price) (Hturns : (358 <= turns)%nat) (Hdigits : (19 <= digit_turns)%nat) :
  roundToSignificantFigures_fuel turns digit_turns price sigFigs =
  Some (roundToSignificantFigures price sigFigs).
Proof.
  unfold roundToSignificantFigures.
  destruct (significant_fuel_some price sigFigs 358 19 Hvalid) as [r Hr]; [lia..|].
  rewrite (roundToSignificantFigures_fuel_mono _ _ _ _ _ _ _ Hturns Hdigits Hr).
  assert (358 <= significant_fuel /\ 19 <= significant_fuel)%nat as [Hs Hs'] by (unfold significant_fuel; lia).
  by rewrite (roundToSignificantFigures_fuel_mono _ _ _ _ _ _ _ Hs Hs' Hr).
Qed.

(** The smallest positive float64: 324 turns of the loop. *)
Definition smallest_price : float64 := S754_finite false 1 (-1074).

Lemma roundToSignificantFigures_total_witness :
  f64_valid smallest_price /\
  roundToSignificantFigures_fuel 358 19 smallest_price 5 =
  Some (roundToSignificantFigures smallest_price 5).
Proof.
  split; [reflexivity|].
  apply (roundToSignificantFigures_total smallest_price 5 358 19); [reflexivity|done..].
Defined.

(** A price whose integer part has the asked number of digits keeps that
    integer part and its sign. *)
Lemma roundToSignificantFigures_integer price sigFigs d :
  feqb price f0 = false -> fgtb (math_Floor (fabs price)) f0 = true ->
  integer_digits significant_fuel (int_of_float64 (math_Floor (fabs price))) 0 = Some d ->
  sigFigs <= d ->
  roundToSignificantFigures price sigFigs = math_Copysign (math_Floor (fabs price)) price.
Proof.
  intros H0 Hg Hd Hs. unfold roundToSignificantFigures, roundToSignificantFigures_fuel.
  rewrite H0, Hg, Hd. simpl. by rewrite (proj2 (Z.leb_le _ _) Hs).
Qed.

(** ** floatToWire *)

(** A finite float64 in units of [10^-8], rounded half to even. *)
Definition wire_units (x : float64) : Z :=
  match x with S754_finite _ m e => scaled m e 8 | _ => 0 end.

Lemma div_half_even_nonneg num den : 0 <= num -> 0 < den -> 0 <= div_half_even num den.
Proof.
  intros Hn Hd. pose proof (Z.div_pos num den Hn Hd). unfold div_half_even.
  destruct (_ ?= _); [destruct (Z.even _)|..]; lia.
Qed.

Lemma scaled_nonneg m e k : 0 <= scaled m e k.
Proof.
  unfold scaled. pose proof (Z.pow_pos_nonneg 10 (Z.of_nat k) ltac:(lia) ltac:(lia)).
  destruct (Z.leb_spec 0 e).
  - pose proof (Z.pow_pos_nonneg 2 e ltac:(lia) ltac:(lia)). nia.
  - apply div_half_even_nonneg; [nia|]. apply Z.pow_pos_nonneg; lia.
Qed.

Lemma wire_units_nonneg x : 0 <= wire_units x.
Proof. destruct x; simpl; try lia. apply scaled_nonneg. Qed.

Lemma format_f_finite x :
  f64_finite x ->
  format_f 8 x = (if float_sign x then "-" else EmptyString) +:+ fixed_point (wire_units x) 8.
Proof. by destruct x as [s| | |s m e]. Qed.

Lemma trim_right_signed (neg : bool) c s :
  trim_right c s <> EmptyString ->
  trim_right c ((if neg then "-" else EmptyString) +:+ s) =
  (if neg then "-" else EmptyString) +:+ trim_right c s.
Proof.
  rewrite trim_right_app. by destruct (trim_right c s).
Qed.

Lemma unsigned_decimal_nonempty u v : unsigned_decimal u = Some v -> u <> EmptyString.
Proof. by intros Hu ->. Qed.

Section wire.
Context `{CastELaws}.

(** The trimmed text of a finite float. *)
Lemma trim_wire (neg : bool) (n : Z) :
  0 <= n ->
  let w := trim_right "." (trim_right "0"
             ((if neg then "-" else EmptyString) +:+ fixed_point n 8)) in
  exists m k, (k <= 8)%nat /\ m * 10 ^ Z.of_nat (8 - k) = n /\
    decimal w = Some (neg, m, k) /\ ((0 < k)%nat -> last_ascii w <> Some "0"%char).
Proof.
  intros Hn w. destruct (trim_fixed_point n 8 Hn ltac:(lia)) as (m & k & Hk & Hm & Hu & Hl).
  exists m, k. pose proof (unsigned_decimal_nonempty _ _ Hu) as Hne.
  assert (trim_right "0" (fixed_point n 8) <> EmptyString) as Hne'
    by (intros E; by rewrite E in Hne).
  assert (w = (if neg then "-" else EmptyString) +:+
              trim_right "." (trim_right "0" (fixed_point n 8))) as ->.
  { subst w. by rewrite !trim_right_signed by done. }
  split_and!; [done..|by apply decimal_signed|].
  intros Hk0. by rewrite last_ascii_append by done; apply Hl.
Qed.

(** The decimal a trimmed text denotes reads back as the untrimmed one. *)
Lemma ToFloat64E_trimmed s w neg n m k parsed :
  decimal s = Some (neg, n, 8%nat) -> decimal w = Some (neg, m, k) ->
  (k <= 8)%nat -> 0 <= m -> m * 10 ^ Z.of_nat (8 - k) = n ->
  ToFloat64E s = inl parsed ->
  parsed = decimal_float neg n 8 /\ ToFloat64E w = inl parsed.
Proof.
  intros Hs Hw Hk Hm Hn Hp.
  assert (decimal_float neg n 8 = decimal_float neg m k) as E.
  { rewrite <- Hn. rewrite <- (decimal_float_scale neg m k (8 - k)) by done.
    f_equal. lia. }
  assert (f64_finite (decimal_float neg n 8)) as Hf.
  { destruct (decimal_float neg n 8) eqn:Ed; try done;
      (destruct (ToFloat64E_range s neg n 8 Hs) as [err He];
       [intros Hfin; by rewrite Ed in Hfin|]); congruence. }
  rewrite (ToFloat64E_decimal _ _ _ _ Hs Hf) in Hp. simplify_eq.
  split; [done|]. rewrite E. apply ToFloat64E_decimal; [done|]. by rewrite <- E.
Qed.

Lemma decimal_fixed_point (neg : bool) n :
  0 <= n ->
  decimal ((if neg then "-" else EmptyString) +:+ fixed_point n 8) = Some (neg, n, 8%nat).
Proof.
  intros Hn. apply decimal_signed.
  assert (0 < 10 ^ Z.of_nat 8) as Hp by (apply Z.pow_pos_nonneg; lia).
  pose proof (Z.mod_pos_bound n _ Hp) as Hm. pose proof (Z.div_mod n (10 ^ Z.of_nat 8) ltac:(lia)).
  destruct (padded_spec (n mod 10 ^ Z.of_nat 8) 8 ltac:(lia) Hm) as [Hl Hv].
  assert (0 <= n / 10 ^ Z.of_nat 8) by (apply Z.div_pos; lia).
  change (fixed_point n 8) with (pretty (n / 10 ^ Z.of_nat 8) +:+
    String "." (padded (n mod 10 ^ Z.of_nat 8) 8)).
  rewrite (unsigned_decimal_parts _ _ (n / 10 ^ Z.of_nat 8) (n mod 10 ^ Z.of_nat 8)).
  - rewrite Hl. do 2 f_equal. lia.
  - by apply pretty_Z_nonempty.
  - by destruct (padded _ _).
  - by apply digits_value_pretty.
  - done.
Qed.

End wire.

Lemma decimal_minus_zero neg n :
  decimal "-0.00000000" = Some (neg, n, 8%nat) -> neg = true /\ n = 0.
Proof.
  assert (decimal "-0.00000000" = Some (true, 0, 8%nat)) as -> by reflexivity.
  by intros [= <- <-].
Qed.

Lemma fsub_zero_abs x : fabs (fsub f0 x) = fabs (fsub (decimal_float true 0 8) x).
Proof. by destruct x as [[]|[]| |]. Qed.

(** C15. What [floatToWire] puts on the wire for a finite float64: a plain
    decimal with at most eight decimals and no trailing zero after the point,
    whose value is the float rounded to a multiple of 1e-8, never a negative
    zero; it parses back to a float64 less than 1e-12 away.  Otherwise the
    function returns an error, so a price or size is never altered. *)
Theorem floatToWire_roundtrip `{CastELaws} (x : float64) (w : string)
    (Hfinite : f64_finite x) (Hwire : floatToWire x = inl w) :
  exists neg m k y,
    decimal w = Some (neg, m, k) /\ (k <= 8)%nat /\
    m * 10 ^ Z.of_nat (8 - k) = wire_units x /\
    (neg = true -> float_sign x = true /\ wire_units x <> 0) /\
    ((0 < k)%nat -> last_ascii w <> Some "0"%char) /\
    ToFloat64E w = inl y /\ fleb f1e_12 (fabs (fsub y x)) = false.
Proof.
  unfold floatToWire in Hwire. rewrite (format_f_finite x Hfinite) in Hwire.
  pose proof (wire_units_nonneg x) as Hn. set (n := wire_units x) in *.
  set (neg := float_sign x) in *.
  pose proof (decimal_fixed_point neg n Hn) as Hs.
  set (s := (if neg then "-" else EmptyString) +:+ fixed_point n 8) in *.
  assert (s = (if neg then "-" else EmptyString) +:+ fixed_point n 8) as Es by done.
  clearbody s n neg. destruct (ToFloat64E s) as [parsed|err] eqn:Hp; [|done].
  destruct (fleb f1e_12 (fabs (fsub parsed x))) eqn:Hclose; [done|].
  destruct (decide (s = "-0.00000000")) as [Hz|Hz]; injection Hwire as <-.
  - destruct (decimal_minus_zero neg n) as [-> ->]; [by rewrite <- Hz|].
    exists false, 0, 0%nat, f0.
    assert (ToFloat64E "0" = inl f0) as H0 by by apply (ToFloat64E_decimal "0" false 0 0).
    rewrite (ToFloat64E_decimal _ _ _ _ Hs I) in Hp. injection Hp as <-.
    refine (conj eq_refl (conj _ (conj eq_refl (conj _ (conj _ (conj H0 _))))));
      [lia|done|lia|]. rewrite (fsub_zero_abs x). exact Hclose.
  - destruct (trim_wire neg n Hn) as (m & k & Hk & Hm & Hw & Hl).
    rewrite <- Es in Hw, Hl.
    assert (0 <= m).
    { pose proof (Z.pow_pos_nonneg 10 (Z.of_nat (8 - k)) ltac:(lia) ltac:(lia)). nia. }
    destruct (ToFloat64E_trimmed s _ neg n m k parsed Hs Hw Hk ltac:(done) Hm Hp) as [Hpe Hpw].
    exists neg, m, k, parsed.
    refine (conj Hw (conj Hk (conj Hm (conj _ (conj Hl (conj Hpw Hclose)))))).
    intros Hneg. split; [done|]. intros Hn0. apply Hz. by rewrite Es, Hneg, Hn0.
Qed.

(** The conversion the laws describe, for the witnesses. *)
Definition reference_castE : CastE := {|
  ToFloat64E s :=
    match decimal s with
    | Some (neg, n, k) =>
        match decimal_float neg n k with
        | S754_infinity _ | S754_nan => inr "value out of range"
        | x => inl x
        end
    | None => if decide (s = "NaN") then inl S754_nan else inr "invalid syntax"
    end;
|}.

Lemma reference_castE_laws : CastELaws reference_castE.
Proof.
  constructor; intros s neg n k Hs Hf; simpl; rewrite Hs; destruct (decimal_float neg n k);
    try done; by eexists.
Qed.

Definition sample_price : float64 := decimal_float true 16701 1.

Lemma floatToWire_roundtrip_witness :
  @floatToWire reference_castE sample_price = inl "-1670.1" /\
  exists y, @ToFloat64E reference_castE "-1670.1" = inl y /\
    fleb f1e_12 (fabs (fsub y sample_price)) = false.
Proof.
  assert (@floatToWire reference_castE sample_price = inl "-1670.1") as E
    by (vm_compute; reflexivity).
  split; [exact E|].
  destruct (@floatToWire_roundtrip reference_castE reference_castE_laws sample_price "-1670.1" I E)
    as (neg & m & k & y & _ & _ & _ & _ & _ & Hy & Hc).
  exists y. exact (conj Hy Hc).
Defined.

Example wire_integer : @floatToWire reference_castE (float64_of_Z 100) = inl "100".
Proof. vm_compute. reflexivity. Qed.
Example wire_rounds : @floatToWire reference_castE (decimal_float false 123456789 9) =
  inr "float_to_wire causes rounding: 0.123457".
Proof. vm_compute. reflexivity. Qed.

(** No check stops a price or size that is not a number: NaN fails the
    comparison and goes out as the text ["NaN"]. *)
Lemma floatToWire_NaN `{CastE} :
  ToFloat64E "NaN" = inl S754_nan -> floatToWire S754_nan = inl "NaN".
Proof. intros E. unfold floatToWire. simpl format_f. by rewrite E. Qed.
