(* ===== verification/SdkOptions.v ===== *)
(** * pkg/go-hyperliquid/opt.go: options

    An option changes the object it is applied to; the constructors apply
    theirs in order (client.go, info.go, exchange.go, ws.go), and a debug flag
    of an outer object becomes an option of the inner ones.  Only the fields
    options touch are modelled here; [true] for a logger that is set. *)

From Stdlib Require Import ZArith.
From stdpp Require Import gmap strings list.
From S2P Require Import Prelude.

Definition Opt (T : Type) : Type := T -> T.
Definition Opt_Apply {T} (o : Opt T) (opt : T) : T := o opt.
Definition apply_all {T} (opts : list (Opt T)) (x : T) : T :=
  fold_left (fun x opt => Opt_Apply opt x) opts x.

Record client_options := mkClientOptions { co_debug : bool; co_logger : bool }.
Record info_options := mkInfoOptions { io_debug : bool; io_clientOpts : list (Opt client_options) }.
Record exchange_options := mkExchangeOptions {
  eo_debug : bool;
  eo_clientOpts : list (Opt client_options);
  eo_infoOpts : list (Opt info_options);
}.
Record ws_options := mkWsOptions { wo_debug : bool; wo_logger : bool }.

Definition WsOptDebugMode : Opt ws_options := fun _ => mkWsOptions true true.
Definition ClientOptDebugMode : Opt client_options := fun _ => mkClientOptions true true.
Definition InfoOptDebugMode : Opt info_options := fun i => mkInfoOptions true (io_clientOpts i).
Definition ExchangeOptDebugMode : Opt exchange_options := fun e =>
  mkExchangeOptions true (eo_clientOpts e) (eo_infoOpts e).
Definition ExchangeOptClientOptions (opts : list (Opt client_options)) : Opt exchange_options := fun e =>
  mkExchangeOptions (eo_debug e) (eo_clientOpts e ++ opts) (eo_infoOpts e).
Definition ExchangeOptInfoOptions (opts : list (Opt info_options)) : Opt exchange_options := fun e =>
  mkExchangeOptions (eo_debug e) (eo_clientOpts e) (eo_infoOpts e ++ opts).
Definition InfoOptClientOptions (opts : list (Opt client_options)) : Opt info_options := fun i =>
  mkInfoOptions (io_debug i) (io_clientOpts i ++ opts).

(** What the constructors make of their options: [NewClient],
    [NewWebsocketClient], the client of [NewInfo], and the client and the info
    client of [NewExchange]. *)
Definition client_of_options (opts : list (Opt client_options)) : client_options :=
  apply_all opts (mkClientOptions false false).
Definition ws_of_options (opts : list (Opt ws_options)) : ws_options :=
  apply_all opts (mkWsOptions false false).
Definition info_of_options (opts : list (Opt info_options)) : info_options :=
  let info := apply_all opts (mkInfoOptions false []) in
  if io_debug info then mkInfoOptions true (io_clientOpts info ++ [ClientOptDebugMode]) else info.
Definition exchange_of_options (opts : list (Opt exchange_options)) : exchange_options :=
  let ex := apply_all opts (mkExchangeOptions false [] []) in
  if eo_debug ex
  then mkExchangeOptions true (eo_clientOpts ex ++ [ClientOptDebugMode]) (eo_infoOpts ex ++ [InfoOptDebugMode])
  else ex.
Definition info_client (opts : list (Opt info_options)) : client_options :=
  client_of_options (io_clientOpts (info_of_options opts)).

(** An exchange in debug mode puts both its clients in debug mode, with a
    logger, whatever the other options do. *)
Theorem debug_reaches_clients opts :
  eo_debug (exchange_of_options opts) = true ->
  client_of_options (eo_clientOpts (exchange_of_options opts)) = mkClientOptions true true /\
  info_client (eo_infoOpts (exchange_of_options opts)) = mkClientOptions true true.
Proof.
  unfold exchange_of_options. destruct (eo_debug (apply_all opts _)) eqn:E; [|congruence]. intros _.
  cbn [eo_clientOpts eo_infoOpts]. unfold info_client, info_of_options, client_of_options, apply_all.
  rewrite !fold_left_app. split; [done|]. cbn [fold_left Opt_Apply InfoOptDebugMode io_debug io_clientOpts].
  by rewrite fold_left_app.
Qed.
