(* ===== verification/SdkClient.v ===== *)
(** * The REST client of pkg/go-hyperliquid

    client.go and errors.go, with the values Go marshals and the effects of
    the methods built on [Client.post].  A method runs on a [session]: the
    exchange's mutable fields and the requests sent so far; it ends with a
    result, an error text, or a panic.  The network ([http_Do]), the JSON
    parser and the decoders of [encoding/json] are arguments. *)

From Stdlib Require Import ZArith Lia Ascii.
From Stdlib Require Import Floats.SpecFloat.
From stdpp Require Import gmap strings list pretty sorting.
From S2P Require Import Prelude Float64 GoStrings GoFmt SdkNonce.
Local Open Scope Z_scope.

(** ** Values

    What the code hands to [json.Marshal] and to the msgpack encoder, and what
    a parsed JSON text is: structs keep their fields in declaration order,
    maps are listed by key. *)
Inductive value : Type :=
| VNull
| VBool (b : bool)
| VInt (z : Z)
| VFloat (x : float64)
| VString (s : string)
| VArray (l : list value)
| VStruct (fields : list (string * value))
| VMap (entries : list (string * value)).

(** Induction through the nested lists. *)
Section value_nested_ind.
Context (P : value -> Prop).
Context (HNull : P VNull) (HBool : forall b, P (VBool b)) (HInt : forall z, P (VInt z)).
Context (HFloat : forall x, P (VFloat x)) (HString : forall s, P (VString s)).
Context (HArray : forall l, Forall P l -> P (VArray l)).
Context (HStruct : forall fs, Forall (fun f => P f.2) fs -> P (VStruct fs)).
Context (HMap : forall fs, Forall (fun f => P f.2) fs -> P (VMap fs)).

Fixpoint value_nested_ind (v : value) : P v :=
  let fields := fix fields (fs : list (string * value)) : Forall (fun f => P f.2) fs :=
    match fs with
    | [] => Forall_nil_2 _
    | f :: fs => Forall_cons_2 (fun f => P f.2) f fs (value_nested_ind f.2) (fields fs)
    end in
  match v with
  | VNull => HNull
  | VBool b => HBool b
  | VInt z => HInt z
  | VFloat x => HFloat x
  | VString s => HString s
  | VArray l => HArray l
      ((fix elems (l : list value) : Forall P l :=
          match l with
          | [] => Forall_nil_2 _
          | v :: l => Forall_cons_2 P v l (value_nested_ind v) (elems l)
          end) l)
  | VStruct fs => HStruct fs (fields fs)
  | VMap fs => HMap fs (fields fs)
  end.
End value_nested_ind.

(** A map literal; both encoders write its entries by key. *)
Definition go_map (l : list (string * value)) : value :=
  VMap (merge_sort (fun x y => Is_true (String.leb x.1 y.1)) l).

(** A struct field that is left out when it is nil ([omitempty]). *)
Definition omitempty {A} (name : string) (f : A -> value) (p : option A) : list (string * value) :=
  match p with Some x => [(name, f x)] | None => [] end.

(** [m[key] = v]. *)
Definition map_put (entries : list (string * value)) (key : string) (v : value)
    : list (string * value) := filter (fun e => e.1 <> key) entries ++ [(key, v)].

(** [m[key]] on a map of values, where the last of several entries stands. *)
Definition map_get (key : string) (entries : list (string * value)) : option value :=
  (fun e => e.2.2) <$> list_find (fun e => e.1 = key) (rev entries).

(** [json.Marshal] refuses a float that is not finite. *)
Fixpoint json_ok (v : value) : bool :=
  match v with
  | VFloat (S754_nan | S754_infinity _) => false
  | VArray l => forallb json_ok l
  | VStruct fs | VMap fs =>
      (fix fields (fs : list (string * value)) : bool :=
         match fs with [] => true | (_, v) :: fs => json_ok v && fields fs end) fs
  | _ => true
  end.

(** ** Sessions *)

Record request := mkRequest { req_url : string; req_body : value }.

Record session := mkSession {
  s_lastNonce : Z;
  s_expiresAfter : option Z;
  s_sent : list request;       (** oldest first *)
}.

(** A method: it may send requests and panics, fails or returns. *)
Definition api (A : Type) : Type := session -> outcome (session * (A + string)).

Definition ok {A} (a : A) : api A := fun s => Ret (s, inl a).
Definition fail {A} (err : string) : api A := fun s => Ret (s, inr err).
Definition panic {A} : api A := fun s => Panic.

#[export] Instance api_ret : MRet api := fun A a => ok a.
#[export] Instance api_bind : MBind api := fun A B f m s =>
  r ← m s;
  match r with (s, inl a) => f a s | (s, inr err) => Ret (s, inr err) end.

(** A Go result as a method. *)
Definition lift {A} (r : A + string) : api A :=
  match r with inl a => ok a | inr err => fail err end.
Definition lift_outcome {A} (r : outcome A) : api A :=
  match r with Ret a => ok a | Panic => panic end.

(** [fmt.Errorf("prefix%w", err)] on a failing call. *)
Definition wrap {A} (prefix : string) (m : api A) : api A := fun s =>
  r ← m s;
  match r with (s, inl a) => Ret (s, inl a) | (s, inr err) => Ret (s, inr (prefix +:+ err)) end.

(** ** The network and encoding/json *)

(** What comes of a request: it cannot be built, it fails, its body cannot be
    read, or a response with its status and body. *)
Inductive http_result : Type :=
| HttpNoRequest (err : string)
| HttpFailed (err : string)
| HttpUnread (err : string)
| HttpResponse (status : Z) (body : string).

(** The server's answers, each depending on all that was sent before. *)
Class Http := { http_Do : list request -> request -> http_result }.

(** The JSON parser ([json.Valid] holds of the texts it parses; an object comes
    as a [VMap] of its entries in order, an integer literal as a [VInt]), the texts
    of its errors, what a value becomes when it is decoded into [any] and
    marshalled again, and the text a value is marshalled to. *)
Class Json := {
  json_parse : string -> value + string;
  json_Marshal_error : value -> string;
  json_type_error : value -> string -> string;
  json_any : value -> value;
  json_Marshal : value -> string;
}.

(** errors.go *)
Record APIError := mkAPIError {
  apierr_Code : Z; apierr_Message : string; apierr_Data : value;
}.

Record ValidationError := mkValidationError { verr_Field : string; verr_Message : string }.

Definition ValidationError_Error (e : ValidationError) : string :=
  "validation error on field " +:+ verr_Field e +:+ ": " +:+ verr_Message e.

(** The decoder of a Go type from a JSON value. *)
Class Decoder (A : Type) := { decode : value -> A + string }.

Section client.
Context `{Http} `{Json}.

(** [json.Unmarshal]. *)
Definition json_Unmarshal {A} `{Decoder A} (s : string) : A + string :=
  match json_parse s with inl v => decode v | inr err => inr err end.

Definition APIError_Error (e : APIError) : string :=
  "API error " +:+ pretty (apierr_Code e) +:+ ": " +:+ apierr_Message e.

Context `{Decoder APIError}.

Definition httpErrorStatusCode : Z := 400.

Definition status_error (status : Z) (body : string) : string :=
  "status " +:+ pretty status +:+ ": " +:+ body.

(** [Client.post] to [baseURL + path]. *)
Definition Client_post (baseURL path : string) (payload : value) : api string := fun s =>
  if negb (json_ok payload) then
    Ret (s, inr ("failed to marshal payload: " +:+ json_Marshal_error payload))
  else
    let req := mkRequest (baseURL +:+ path) payload in
    let s' := mkSession (s_lastNonce s) (s_expiresAfter s) (s_sent s ++ [req]) in
    match http_Do (s_sent s) req with
    | HttpNoRequest err => Ret (s, inr ("failed to create request: " +:+ err))
    | HttpFailed err => Ret (s', inr ("request failed: " +:+ err))
    | HttpUnread err => Ret (s', inr ("failed to read response body: " +:+ err))
    | HttpResponse status body =>
        if httpErrorStatusCode <=? status then
          if decide (body = EmptyString) then Ret (s', inr (status_error status body))
          else
            match json_parse body with
            | inr _ => Ret (s', inr (status_error status body))
            | inl v =>
                match decode v with
                | inr _ => Ret (s', inr (status_error status body))
                | inl apiErr => Ret (s', inr (APIError_Error apiErr))
                end
            end
        else Ret (s', inl body)
    end.

Definition MainnetAPIURL : string := "https://api.hyperliquid.xyz".
Definition TestnetAPIURL : string := "https://api.hyperliquid-testnet.xyz".

(** [NewClient]: the mainnet unless another URL is given. *)
Definition NewClient (baseURL : string) : string :=
  if decide (baseURL = EmptyString) then MainnetAPIURL else baseURL.

(** ** What a post does *)

(** At most one request leaves, at the end of the log, and the exchange's
    fields stay as they are. *)
Lemma Client_post_sent base path payload s s' r :
  Client_post base path payload s = Ret (s', r) ->
  s_lastNonce s' = s_lastNonce s /\ s_expiresAfter s' = s_expiresAfter s /\
  (s_sent s' = s_sent s \/ s_sent s' = s_sent s ++ [mkRequest (base +:+ path) payload]).
Proof.
  unfold Client_post. destruct (negb _); [intros [= <- _]; auto|].
  destruct (http_Do _ _) as [err|err|err|status body];
    [| | |destruct (_ <=? _); [case_decide; [|destruct (json_parse body); [destruct (decode _)|]]|]];
    intros [= <- _]; simpl; auto.
Qed.

Lemma Client_post_no_panic base path payload s : Client_post base path payload s <> Panic.
Proof.
  unfold Client_post. destruct (negb _); [done|].
  destruct (http_Do _ _) as [err|err|err|status body]; try done.
  destruct (_ <=? _); [|done]. case_decide; [done|].
  destruct (json_parse body); [|done]. by destruct (decode _).
Qed.

(** A result only comes from a status below 400. *)
Lemma Client_post_ok base path payload s s' body :
  Client_post base path payload s = Ret (s', inl body) ->
  json_ok payload = true /\
  s_sent s' = s_sent s ++ [mkRequest (base +:+ path) payload] /\
  exists status, http_Do (s_sent s) (mkRequest (base +:+ path) payload) = HttpResponse status body /\
    status < httpErrorStatusCode.
Proof.
  unfold Client_post. destruct (json_ok payload); [|done]. simpl.
  destruct (http_Do _ _) as [err|err|err|status body']; try done.
  destruct (Z.leb_spec httpErrorStatusCode status); [|intros [= <- <-]; by eauto].
  case_decide; [done|]. destruct (json_parse body'); [|done]. by destruct (decode _).
Qed.
End client.

(** Running a bind. *)
Lemma api_bind_ret {A B} (f : A -> api B) (m : api A) s s' r :
  m s = Ret (s', r) ->
  (m ≫= f) s = match r with inl a => f a s' | inr err => Ret (s', inr err) end.
Proof. intros E. unfold mbind, api_bind, mbind, outcome_bind. rewrite E. by destruct r. Qed.

Lemma api_bind_panic {A B} (f : A -> api B) (m : api A) s :
  m s = Panic -> (m ≫= f) s = Panic.
Proof. intros E. unfold mbind, api_bind, mbind, outcome_bind. by rewrite E. Qed.

Lemma wrap_ret {A} prefix (m : api A) s s' r :
  m s = Ret (s', r) ->
  wrap prefix m s =
  Ret (s', match r with inl a => inl a | inr err => inr (prefix +:+ err) end).
Proof. intros E. unfold wrap, mbind, outcome_bind. rewrite E. by destruct r. Qed.

Lemma wrap_panic {A} prefix (m : api A) s : m s = Panic -> wrap prefix m s = Panic.
Proof. intros E. unfold wrap, mbind, outcome_bind. by rewrite E. Qed.

Lemma api_bind_inv {A B} (f : A -> api B) (m : api A) s s' b :
  (m ≫= f) s = Ret (s', inl b) ->
  exists a s1, m s = Ret (s1, inl a) /\ f a s1 = Ret (s', inl b).
Proof.
  unfold mbind, api_bind, mbind, outcome_bind.
  destruct (m s) as [[s1 [a|err]]|]; intros E; try done. by exists a, s1.
Qed.
