(* ===== verification/SymbolManager.v ===== *)
(** * internal/symbol: the loader and the manager

    manager.go and, of loader.go, the loader that owns the reloads of the
    symbol cache: created with a first load that must succeed, reloaded by a
    ticker, stopped by [Close].  The answers of the REST client are arguments,
    one pair per load; a failed reload is only logged. *)

From Stdlib Require Import ZArith Lia.
From stdpp Require Import gmap strings list.
From S2P Require Import Prelude Float64 GoStrings ConcurrentMap Caches MarketCaches SdkTypes SymbolLoader.
From S2P Require Import SdkClient.
Local Open Scope Z_scope.

(** What [SpotMeta] and [PerpMeta] answer to one load. *)
Definition meta_answers : Type := (SpotMeta + string) * (list Meta + string).

Record Loader := mkLoader {
  sl_cache : SymbolCache;
  sl_httpURL : string;
  sl_reloadInterval : Z;
  sl_done : bool;
}.

Definition with_sl_cache (sl : Loader) (c : SymbolCache) : Loader :=
  mkLoader c (sl_httpURL sl) (sl_reloadInterval sl) (sl_done sl).

Definition NewLoader (symbolCache : SymbolCache) (httpURL : string) (answers : meta_answers)
    : outcome (Loader + string) :=
  let sl := mkLoader symbolCache httpURL (2 * Hour) false in
  '(c, err) ← loadMeta (sl_cache sl) answers.1 answers.2;
  Ret match err with
      | Some err => inr err
      | None => inl (with_sl_cache sl c)
      end.

(** A tick of the goroutine of [Start]: it has ended once [done] is closed. *)
Definition Loader_tick (sl : Loader) (answers : meta_answers) : outcome Loader :=
  if sl_done sl then Ret sl
  else '(c, _) ← loadMeta (sl_cache sl) answers.1 answers.2; Ret (with_sl_cache sl c).

Definition Loader_ticks (sl : Loader) (answers : list meta_answers) : outcome Loader :=
  fold_left (fun o a => sl ← o; Loader_tick sl a) answers (Ret sl).

(** [close(sl.done)] panics the second time. *)
Definition Loader_Close (sl : Loader) : outcome Loader :=
  if sl_done sl then Panic
  else Ret (mkLoader (sl_cache sl) (sl_httpURL sl) (sl_reloadInterval sl) true).

Record Manager := mkManager {
  smg_loader : Loader;
  smg_priceCache : PriceCache;
}.

Definition NewManager (answers : meta_answers) : outcome (Manager + string) :=
  let symbolCache := NewSymbolCache in
  let priceCache := NewPriceCache in
  r ← NewLoader symbolCache MainnetAPIURL answers;
  Ret match r with
      | inr err => inr err
      | inl loader => inl (mkManager loader priceCache)
      end.

Definition Manager_Close (m : Manager) : outcome Manager :=
  loader ← Loader_Close (smg_loader m); Ret (mkManager loader (smg_priceCache m)).

(** The manager and its loader hold the same cache. *)
Definition Manager_SymbolCache (m : Manager) : SymbolCache := sl_cache (smg_loader m).
Definition Manager_PriceCache (m : Manager) : PriceCache := smg_priceCache m.

(** ** Reloads never forget a symbol *)

Definition knows (c c' : SymbolCache) : Prop :=
  (forall name, is_Some (GetPerpSymbol c name) -> is_Some (GetPerpSymbol c' name)) /\
  (forall name, is_Some (GetSpotSymbol c name) -> is_Some (GetSpotSymbol c' name)).

#[export] Instance knows_preorder : PreOrder knows.
Proof. split; [by intros c; split|]. intros c1 c2 c3 [H1 H2] [H3 H4]. split; auto. Qed.

Lemma SetPerpSymbol_knows c name symbol : knows c (SetPerpSymbol c name symbol).
Proof.
  split; intros n [s Hs]; unfold GetPerpSymbol, GetSpotSymbol, SetPerpSymbol in *; simpl;
    rewrite ?Map_Load_Store; [|by exists s]. case_decide; by eexists.
Qed.

Lemma SetSpotSymbol_knows c name symbol : knows c (SetSpotSymbol c name symbol).
Proof.
  split; intros n [s Hs]; unfold GetPerpSymbol, GetSpotSymbol, SetSpotSymbol in *; simpl;
    rewrite ?Map_Load_Store; [by exists s|]. case_decide; by eexists.
Qed.

Lemma buildPerpCache_knows perpMeta c : knows c (buildPerpCache c perpMeta).
Proof.
  rewrite buildPerpCache_entries. apply (fold_left_inv (knows c)); [done|].
  intros c' e _ Hc. etransitivity; [exact Hc|apply SetPerpSymbol_knows].
Qed.

Lemma buildSpotCache_knows spotMeta c c' : buildSpotCache c spotMeta = Ret c' -> knows c c'.
Proof.
  unfold buildSpotCache. generalize (spotmeta_Universe spotMeta). intros universe.
  assert (Hgen : forall o, (forall c1, o = Ret c1 -> knows c c1) ->
    fold_left (fun o spotInfo => c ← o; e ← spot_entry (spotmeta_Tokens spotMeta) spotInfo;
      Ret match e with Some (name, symbol) => SetSpotSymbol c name symbol | None => c end) universe o = Ret c' ->
    knows c c').
  { induction universe as [|s universe IH]; intros o Ho; cbn [fold_left]; [apply Ho|].
    apply IH. intros c2. destruct o as [c1|]; [|done]. cbn [mbind outcome_bind].
    destruct (spot_entry _ s) as [[[name symbol]|]|]; [| |done]; intros [= <-]; [|by apply Ho].
    etransitivity; [by apply Ho|apply SetSpotSymbol_knows]. }
  apply Hgen. by intros c1 [= <-].
Qed.

Lemma loadMeta_knows c a b c' err : loadMeta c a b = Ret (c', err) -> knows c c'.
Proof.
  unfold loadMeta. destruct a as [spotMeta|?]; [|by intros [= <- _]].
  destruct (buildSpotCache c spotMeta) as [c1|] eqn:E; [|done]. apply buildSpotCache_knows in E.
  destruct b as [perpMeta|?]; [|by intros [= <- _]]. intros [= <- _].
  etransitivity; [exact E|apply buildPerpCache_knows].
Qed.

(** Whatever the server answers, a name that had a symbol keeps one; after
    [Close] nothing changes any more. *)
Lemma ticks_know answers : forall sl sl', Loader_ticks sl answers = Ret sl' ->
  knows (sl_cache sl) (sl_cache sl') /\ (sl_done sl = true -> sl' = sl).
Proof.
  induction answers as [|a answers IH] using rev_ind; intros sl sl' E; [by injection E as <-|].
  unfold Loader_ticks in E. rewrite fold_left_app_snoc in E. fold (Loader_ticks sl answers) in E.
  destruct (Loader_ticks sl answers) as [sl1|] eqn:E1; [|done]. cbn [mbind outcome_bind] in E.
  destruct (IH _ _ E1) as [Hk Hd]. unfold Loader_tick in E. destruct (sl_done sl1) eqn:Ed.
  - injection E as <-. by split.
  - destruct (loadMeta _ _ _) as [[c err]|] eqn:El; [|done]. injection E as <-. split.
    + etransitivity; [exact Hk|]. by eapply loadMeta_knows.
    + intros Hdone. rewrite (Hd Hdone) in Ed. congruence.
Qed.
