(* ===== verification/EasyJson.v ===== *)
(** * Generated JSON codecs

    The *_easyjson.go files of pkg/go-hyperliquid read a struct by walking the
    entries of a JSON object and write one field by field.  Their shape is one:
    a codec for each field type, and a struct's codec assembled from its
    fields.  [github.com/mailru/easyjson]'s lexer and writer primitives are
    arguments ([Lexer]); [LexerLaws] says what they accept.  A decoder works on
    the value it is given, as the generated code works on [*out]: absent and
    null fields keep their value, unknown keys are skipped, a repeated key is
    read again, and the first error in the text ends the reading. *)

From Stdlib Require Import ZArith Lia Ascii.
From Stdlib Require Import Floats.SpecFloat.
From stdpp Require Import gmap strings list pretty.
From S2P Require Import Prelude Float64 SdkClient.
Local Open Scope Z_scope.

(** ** The lexer and the writer *)

Class Lexer := {
  lex_String : value -> string + string;
  lex_Bool : value -> bool + string;
  lex_Int64 : value -> Z + string;          (** [Int] and [Int64] *)
  lex_Float64 : value -> float64 + string;
  lex_Float64Str : value -> float64 + string;
  lex_Interface : value -> value + string;
  lex_Delim : string -> value -> string;    (** the error of a missing delimiter *)
  wr_Float64Str : float64 -> string;
}.

Class LexerLaws (L : Lexer) : Prop := {
  lex_String_ok : forall s, lex_String (VString s) = inl s;
  lex_Bool_ok : forall b, lex_Bool (VBool b) = inl b;
  lex_Int64_ok : forall z, in_int64 z -> lex_Int64 (VInt z) = inl z;
  lex_Float64_ok : forall x, f64_finite x -> lex_Float64 (VFloat x) = inl x;
  lex_Float64Str_ok : forall x, f64_finite x -> lex_Float64Str (VString (wr_Float64Str x)) = inl x;
}.

(** ** Codecs *)

Record codec (A : Type) := mkCodec {
  c_zero : A;                                (** the zero value of the Go type *)
  c_dec : A -> value -> A + string;          (** reading into an existing value *)
  c_enc : A -> value;
}.
Arguments mkCodec {A}.
Arguments c_zero {A}.
Arguments c_dec {A}.
Arguments c_enc {A}.

Definition map_inl {A B} (f : A -> B) (r : A + string) : B + string :=
  match r with inl a => inl (f a) | inr err => inr err end.

(** [if in.IsNull() { in.Skip() } else { out = in.X() }]. *)
Definition scalar {A} (read : value -> A + string) (old : A) (v : value) : A + string :=
  match v with VNull => inl old | _ => read v end.

Section primitives.
Context `{Lexer}.

(** A string of valid UTF-8, which its JSON text gives back. *)
Definition c_string : codec string := mkCodec EmptyString (scalar lex_String) VString.
Definition c_bool : codec bool := mkCodec false (scalar lex_Bool) VBool.
Definition c_int : codec Z := mkCodec 0 (scalar lex_Int64) VInt.
Definition c_float : codec float64 := mkCodec f0 (scalar lex_Float64) VFloat.
(** A float written as a string (the tag's [,string]). *)
Definition c_float_str : codec float64 :=
  mkCodec f0 (scalar lex_Float64Str) (fun x => VString (wr_Float64Str x)).
(** A value of type [any], and a value kept as its text ([json.RawMessage]). *)
Definition c_any : codec value := mkCodec VNull (fun _ => lex_Interface) (fun v => v).
Definition c_raw : codec value := mkCodec VNull (scalar inl) (fun v => v).

(** A pointer: null sets it to nil, another value is read into what it points
    to, a new zero value if it is nil. *)
Definition c_ptr {A} (c : codec A) : codec (option A) :=
  mkCodec None
    (fun old v =>
       match v with
       | VNull => inl None
       | _ => map_inl Some (c_dec c (default (c_zero c) old) v)
       end)
    (fun p => match p with Some a => c_enc c a | None => VNull end).

Fixpoint dec_list {A} (c : codec A) (l : list value) : list A + string :=
  match l with
  | [] => inl []
  | v :: l =>
      match c_dec c (c_zero c) v with
      | inr err => inr err
      | inl a => map_inl (cons a) (dec_list c l)
      end
  end.

(** A slice: null sets it to nil, an array replaces its elements.  A nil slice
    and an empty one are the same list here, written as an empty array. *)
Definition c_list {A} (c : codec A) : codec (list A) :=
  mkCodec []
    (fun old v =>
       match v with
       | VNull => inl []
       | VArray l => dec_list c l
       | _ => inr (lex_Delim "[" v)
       end)
    (fun l => VArray (map (c_enc c) l)).

Fixpoint dec_entries {A} (c : codec A) (es : list (string * value)) (m : gmap string A)
    : gmap string A + string :=
  match es with
  | [] => inl m
  | (k, v) :: es =>
      match c_dec c (c_zero c) v with
      | inr err => inr err
      | inl a => dec_entries c es (<[k := a]> m)
      end
  end.

(** A map with string keys: null leaves it, an object replaces it. *)
Definition c_map {A} (c : codec A) : codec (gmap string A) :=
  mkCodec ∅
    (fun old v =>
       match v with
       | VNull => inl old
       | VMap es => dec_entries c es ∅
       | _ => inr (lex_Delim "{" v)
       end)
    (fun m => VMap ((fun e => (e.1, c_enc c e.2)) <$> map_to_list m)).

(** ** Fields *)

(** What the entries of an object make of some fields: their values, and where
    the first error is. *)
Definition fields (A : Type) : Type := list (string * value) -> A * option (nat * string).

(** [case key: ...] for one field with its current value. *)
Fixpoint scan {A} (key : string) (dec : A -> value -> A + string) (es : list (string * value))
    (i : nat) (a : A) : A * option (nat * string) :=
  match es with
  | [] => (a, None)
  | (k, v) :: es =>
      if String.eqb k key then
        match dec a v with
        | inl a => scan key dec es (S i) a
        | inr err => (a, Some (i, err))
        end
      else scan key dec es (S i) a
  end.

Definition field {A} (key : string) (c : codec A) (old : A) : fields A :=
  fun es => scan key (c_dec c) es 0 old.

(** The error that comes first in the text. *)
Definition first_error (e1 e2 : option (nat * string)) : option (nat * string) :=
  match e1, e2 with
  | Some (i, _), Some (j, _) => if (i <=? j)%nat then e1 else e2
  | Some _, None => e1
  | None, _ => e2
  end.

Definition fpure {A} (a : A) : fields A := fun _ => (a, None).
Definition fapp {A B} (f : fields (A -> B)) (x : fields A) : fields B := fun es =>
  let '(g, e1) := f es in
  let '(a, e2) := x es in
  (g a, first_error e1 e2).

(** A generated [Decode] function over its fields. *)
Definition struct_dec {A} (f : A -> fields A) (old : A) (v : value) : A + string :=
  match v with
  | VNull => inl old
  | VMap es => match f old es with
               | (a, None) => inl a
               | (_, Some (_, err)) => inr err
               end
  | _ => inr (lex_Delim "{" v)
  end.

(** A generated [Encode] function over its fields; all but the first are left
    out when they hold the zero value ([omitempty]). *)
Definition put {A} (key : string) (c : codec A) (a : A) : list (string * value) := [(key, c_enc c a)].
Definition put_ptr {A} (key : string) (c : codec A) (p : option A) : list (string * value) :=
  match p with Some _ => put key (c_ptr c) p | None => [] end.
Definition put_string (key : string) (s : string) : list (string * value) :=
  match s with EmptyString => [] | _ => put key c_string s end.
Definition put_int (key : string) (z : Z) : list (string * value) :=
  match z with Z0 => [] | _ => put key c_int z end.
Definition put_bool (key : string) (b : bool) : list (string * value) :=
  if b then put key c_bool b else [].
Definition put_list {A} (key : string) (c : codec A) (l : list A) : list (string * value) :=
  match l with [] => [] | _ => put key (c_list c) l end.
Definition put_any (key : string) (v : value) : list (string * value) :=
  match v with VNull => [] | _ => put key c_any v end.

(** The codec of a struct: its zero value, its [Decode] and its [Encode]. *)
Definition codec_of {A} (zero : A) (dec : A -> fields A) (enc : A -> list (string * value)) : codec A :=
  mkCodec zero (struct_dec dec) (fun x => VMap (enc x)).
End primitives.

Infix "<@>" := fapp (at level 61, left associativity).

(** ** Round trips

    A codec reads back, from the zero value, what it wrote; the written value
    is not null unless the codec is a pointer's. *)
Class CodecOK {A} (P : A -> Prop) (c : codec A) : Prop :=
  codec_ok : forall a, P a -> c_dec c (c_zero c) (c_enc c a) = inl a.
Class CodecNotNull {A} (c : codec A) : Prop :=
  codec_not_null : forall a, c_enc c a <> VNull.

Definition always {A} (a : A) : Prop := True.
Definition ptr_P {A} (P : A -> Prop) (p : option A) : Prop :=
  match p with Some a => P a | None => True end.

Section round_trips.
Context `{LexerLaws}.

#[export] Instance c_string_ok : CodecOK always c_string.
Proof. intros s _. apply lex_String_ok. Qed.
#[export] Instance c_bool_ok : CodecOK always c_bool.
Proof. intros b _. apply lex_Bool_ok. Qed.
#[export] Instance c_int_ok : CodecOK in_int64 c_int.
Proof. intros z Hz. by apply lex_Int64_ok. Qed.
#[export] Instance c_float_ok : CodecOK f64_finite c_float.
Proof. intros x Hx. by apply lex_Float64_ok. Qed.
#[export] Instance c_float_str_ok : CodecOK f64_finite c_float_str.
Proof. intros x Hx. by apply lex_Float64Str_ok. Qed.

#[export] Instance c_string_nn : CodecNotNull c_string.
Proof. by intros s. Qed.
#[export] Instance c_bool_nn : CodecNotNull c_bool.
Proof. by intros b. Qed.
#[export] Instance c_int_nn : CodecNotNull c_int.
Proof. by intros z. Qed.
#[export] Instance c_float_nn : CodecNotNull c_float.
Proof. by intros x. Qed.
#[export] Instance c_float_str_nn : CodecNotNull c_float_str.
Proof. by intros x. Qed.
#[export] Instance c_list_nn {A} (c : codec A) : CodecNotNull (c_list c).
Proof. by intros l. Qed.

#[export] Instance c_raw_ok : CodecOK (fun v => v <> VNull) c_raw.
Proof. by intros [] Hv. Qed.
#[export] Instance codec_of_nn {A} z d (e : A -> list (string * value)) : CodecNotNull (codec_of z d e).
Proof. by intros x. Qed.

#[export] Instance c_ptr_ok {A} (P : A -> Prop) (c : codec A) :
  CodecOK P c -> CodecNotNull c -> CodecOK (ptr_P P) (c_ptr c) | 10.
Proof.
  intros Hc Hn [a|] Hp; [|done]. pose proof (Hc a Hp) as E. specialize (Hn a).
  cbn. by destruct (c_enc c a); rewrite ?E.
Qed.

#[export] Instance c_list_ok {A} (P : A -> Prop) (c : codec A) :
  CodecOK P c -> CodecOK (Forall P) (c_list c) | 10.
Proof.
  intros Hc l Hl. cbn. induction Hl as [|a l Ha _ IH]; [done|]. cbn [map dec_list].
  by rewrite (Hc a Ha), IH.
Qed.

#[export] Instance c_map_ok {A} (P : A -> Prop) (c : codec A) :
  CodecOK P c -> CodecOK (map_Forall (fun _ => P)) (c_map c) | 10.
Proof.
  intros Hc m Hm. cbn. rewrite <- (list_to_map_to_list m) at 2.
  assert (Forall (fun e => P e.2) (map_to_list m)) as Hl.
  { apply Forall_forall. intros [k a] He%elem_of_map_to_list. exact (Hm k a He). }
  pose proof (NoDup_fst_map_to_list m) as Hk. clear Hm. revert Hl Hk.
  generalize (map_to_list m). intros l Hl Hk.
  enough (forall m0, dec_entries c ((fun e => (e.1, c_enc c e.2)) <$> l) m0 =
                     inl (list_to_map l ∪ m0)) as E.
  { rewrite E. by rewrite map_union_empty. }
  induction Hl as [|[k a] l Ha _ IH]; intros m0; cbn; [by rewrite map_empty_union|].
  cbn in Hk. apply NoDup_cons in Hk as [Hka Hk]. rewrite (Hc a Ha), (IH Hk).
  f_equal. rewrite <- insert_union_r by (by apply not_elem_of_list_to_map_1).
  apply insert_union_l.
Qed.

(** Without a condition on the elements there is none on the whole. *)
#[export] Instance c_ptr_ok_always {A} (c : codec A) :
  CodecOK always c -> CodecNotNull c -> CodecOK always (c_ptr c) | 0.
Proof. intros Hc Hn p _. apply (c_ptr_ok always c Hc Hn). by destruct p. Qed.
#[export] Instance c_list_ok_always {A} (c : codec A) :
  CodecOK always c -> CodecOK always (c_list c) | 0.
Proof. intros Hc l _. apply (c_list_ok always c Hc). by apply Forall_true. Qed.
#[export] Instance c_map_ok_always {A} (c : codec A) :
  CodecOK always c -> CodecOK always (c_map c) | 0.
Proof. intros Hc m _. by apply (c_map_ok always c Hc). Qed.

(** A struct's codec reads its fields back when every field does. *)
Lemma struct_ok {A} (P : A -> Prop) z (d : A -> fields A) (e : A -> list (string * value)) :
  (forall x, P x -> d z (e x) = (x, None)) -> CodecOK P (codec_of z d e).
Proof. intros Hd x Hx. cbn. by rewrite (Hd x Hx). Qed.

Lemma dec_enc {A} (P : A -> Prop) (c : codec A) `{!CodecOK P c} a :
  P a -> c_dec c (c_zero c) (c_enc c a) = inl a.
Proof. apply codec_ok. Qed.
End round_trips.

#[global] Arguments c_enc : simpl never.
#[global] Arguments c_dec : simpl never.
#[global] Arguments put : simpl never.
#[global] Arguments put_ptr : simpl never.
#[global] Arguments put_list : simpl never.
#[global] Arguments field : simpl never.
#[global] Arguments fapp : simpl never.

(** Reading back a struct field by field. *)
Ltac dec_field :=
  match goal with
  | |- context [c_dec ?c ?z (c_enc ?c ?a)] =>
      let E := fresh in
      assert (c_dec c z (c_enc c a) = inl a) as E
        by (refine (dec_enc _ c a _); first [exact I | assumption]);
      rewrite E; clear E
  end.

Ltac open_fields :=
  cbv [fapp fpure field scan app put put_ptr put_string put_int put_bool put_list put_any
       String.eqb Ascii.eqb Bool.eqb fst snd first_error].

Ltac read_fields := open_fields; repeat (dec_field; open_fields).

(** Both cases of every field that may be left out. *)
Ltac split_omitted :=
  repeat match goal with
    | |- context [put_ptr _ _ ?p] => is_var p; destruct p
    | |- context [put_string _ ?s] => is_var s; destruct s
    | |- context [put_int _ ?z] => is_var z; destruct z
    | |- context [put_bool _ ?b] => is_var b; destruct b
    | |- context [put_list _ _ ?l] => is_var l; destruct l
    end.

Ltac split_conj :=
  repeat match goal with H : _ /\ _ |- _ => destruct H end.

(** The round trip of a struct, by those of its fields. *)
Ltac struct_codec :=
  apply struct_ok; intros x Hx;
  match goal with
  | |- ?dec ?z (?enc ?x) = _ => unfold dec, enc
  end;
  try match type of Hx with ?P _ => unfold P in Hx end;
  destruct x; simpl in Hx |- *; split_conj; split_omitted; read_fields; reflexivity.

(** A field none of the entries names keeps its value. *)
Lemma scan_absent {A} key (dec : A -> value -> A + string) es i a :
  Forall (fun e => e.1 <> key) es -> scan key dec es i a = (a, None).
Proof.
  intros He. revert i. induction He as [|[k v] es Hk _ IH]; intros i; [done|].
  cbn [scan]. simpl in Hk. by rewrite (proj2 (String.eqb_neq k key) Hk).
Qed.

(** Entries a decoder does not know are skipped, wherever they stand. *)
Lemma scan_unknown {A} key (dec : A -> value -> A + string) es i j a k v :
  k <> key ->
  (scan key dec ((k, v) :: es) i a).1 = (scan key dec es j a).1.
Proof.
  intros Hk. cbn [scan]. rewrite (proj2 (String.eqb_neq k key) Hk).
  revert i j a. clear. induction es as [|[k v] es IH]; intros i j a; [done|].
  cbn [scan]. destruct (String.eqb k key); [|apply IH]. destruct (dec a v); [apply IH|done].
Qed.

(** ** A lexer

    One that accepts what the writers write; it spells a float by the number
    that encodes it. *)
Fixpoint positive_string (p : positive) : string :=
  match p with
  | xH => EmptyString
  | xO p => String "0" (positive_string p)
  | xI p => String "1" (positive_string p)
  end.

Fixpoint string_positive (s : string) : positive :=
  match s with
  | EmptyString => xH
  | String a s => if Ascii.eqb a "0" then xO (string_positive s) else xI (string_positive s)
  end.

Lemma string_positive_string p : string_positive (positive_string p) = p.
Proof. induction p as [p IH|p IH|]; simpl; [by rewrite IH..|done]. Qed.

Definition float_text (x : float64) : string :=
  match x with
  | S754_zero s => positive_string (encode (inl s : bool + bool * positive * Z))
  | S754_finite s m e => positive_string (encode (inr (s, m, e) : bool + bool * positive * Z))
  | _ => "NaN"
  end.

Definition text_float (s : string) : option float64 :=
  match countable.decode (A := bool + bool * positive * Z) (string_positive s) with
  | Some (inl s) => Some (S754_zero s)
  | Some (inr (s, m, e)) => Some (S754_finite s m e)
  | None => None
  end.

Definition reference_lexer : Lexer := {|
  lex_String := fun v => match v with VString s => inl s | _ => inr "parse error: string" end;
  lex_Bool := fun v => match v with VBool b => inl b | _ => inr "parse error: bool" end;
  lex_Int64 := fun v => match v with VInt z => inl z | _ => inr "parse error: int64" end;
  lex_Float64 := fun v =>
    match v with VFloat x => inl x | VInt z => inl (float64_of_Z z) | _ => inr "parse error: float64" end;
  lex_Float64Str := fun v =>
    match v with
    | VString s => match text_float s with Some x => inl x | None => inr "invalid syntax" end
    | _ => inr "parse error: string"
    end;
  lex_Interface := inl;
  lex_Delim := fun d _ => "parse error: " +:+ d;
  wr_Float64Str := float_text;
|}.

Lemma reference_lexer_laws : LexerLaws reference_lexer.
Proof.
  constructor; try done. intros [s| | |s m e] Hx; try done;
    cbn; unfold text_float; by rewrite string_positive_string, decode_encode.
Qed.

(** ** The order of the keys

    Fields read the same values, and fail or not alike, from the entries of an
    object in any order, when no key is repeated. *)
Class OrderFree {A} (f : fields A) : Prop :=
  order_free : forall es es', NoDup es.*1 -> es ≡ₚ es' ->
    (f es).1 = (f es').1 /\ (is_Some (f es).2 <-> is_Some (f es').2).

Lemma scan_at {A} key (dec : A -> value -> A + string) es i a v :
  NoDup es.*1 -> (key, v) ∈ es ->
  (scan key dec es i a).1 = match dec a v with inl a' => a' | inr _ => a end /\
  (is_Some (scan key dec es i a).2 <-> exists err, dec a v = inr err).
Proof.
  revert i. induction es as [|[k w] es IH]; intros i; [by intros _ ?%elem_of_nil|].
  cbn. intros [Hk Hd]%NoDup_cons [[= <- <-]|Hin]%elem_of_cons.
  - rewrite String.eqb_refl. destruct (dec a v) as [a'|err]; [|split; [done|split; [by eexists|by eexists]]].
    rewrite scan_absent; [split; [done|]|].
    + split; [by intros []|by intros []].
    + apply Forall_forall. intros e He E. apply Hk, list_elem_of_fmap. by exists e.
  - rewrite (proj2 (String.eqb_neq k key)); [by apply IH|].
    intros ->. apply Hk, list_elem_of_fmap. by exists (key, v).
Qed.

#[export] Instance field_order_free {A} key (c : codec A) old : OrderFree (field key c old).
Proof.
  intros es es' Hd Hp. assert (NoDup es'.*1) as Hd' by (by rewrite <- Hp). unfold field.
  destruct (decide (key ∈ es.*1)) as [([k v] & -> & Hin)%list_elem_of_fmap|Hk].
  - simpl. assert ((k, v) ∈ es') as Hin' by (by rewrite <- Hp).
    destruct (scan_at k (c_dec c) es 0 old v Hd Hin) as [-> ->].
    by destruct (scan_at k (c_dec c) es' 0 old v Hd' Hin') as [-> ->].
  - assert (forall l : list (string * value), key ∉ l.*1 -> Forall (fun e => e.1 <> key) l) as Ha.
    { intros l Hl. apply Forall_forall. intros e He E. apply Hl, list_elem_of_fmap. by exists e. }
    rewrite !scan_absent by (apply Ha; by rewrite <- ?Hp). done.
Qed.

#[export] Instance fpure_order_free {A} (a : A) : OrderFree (fpure a).
Proof. by intros es es' _ _. Qed.

#[export] Instance fapp_order_free {A B} (f : fields (A -> B)) (x : fields A) :
  OrderFree f -> OrderFree x -> OrderFree (f <@> x).
Proof.
  intros Hf Hx es es' Hd Hp. destruct (Hf es es' Hd Hp) as [E1 E2], (Hx es es' Hd Hp) as [E3 E4].
  unfold fapp. destruct (f es) as [g e1], (f es') as [g' e1'], (x es) as [y e2], (x es') as [y' e2'].
  simpl in *. split; [by rewrite E1, E3|].
  assert (forall o1 o2 : option (nat * string), is_Some (first_error o1 o2) <-> is_Some o1 \/ is_Some o2) as Hfe.
  { unfold is_Some. intros [[i ?]|] [[j ?]|]; simpl; [destruct (i <=? j)%nat|..]; naive_solver. }
  rewrite !Hfe. tauto.
Qed.

Lemma struct_key_order `{Lexer} {A} (z : A) (d : A -> fields A) e old `{!OrderFree (d old)} es es' x :
  NoDup es.*1 -> es ≡ₚ es' ->
  c_dec (codec_of z d e) old (VMap es) = inl x -> c_dec (codec_of z d e) old (VMap es') = inl x.
Proof.
  intros Hd Hp. destruct (order_free (f := d old) es es' Hd Hp) as [E1 E2]. cbv [c_dec codec_of struct_dec].
  destruct (d old es) as [y [[i err]|]]; [done|]. intros [= ->].
  destruct (d old es') as [y' [[i err]|]]; simpl in *; [|by rewrite E1].
  assert (is_Some (@None (nat * string))) as [? ?] by (apply E2; by eexists). done.
Qed.
