(* ===== verification/TypesCodecs.v ===== *)
(** * types_easyjson.go and errors_easyjson.go

    The codecs of the structs of types.go, exchange_orders.go and errors.go: for
    each struct [X] its [Decode] and [Encode] functions [dec_X] and [enc_X], the
    codec [codec_X] of its [MarshalJSON] and [UnmarshalJSON], and where every
    field has a law the values [ok_X] it is read back from.  [SpotAssetCtx]'s
    functions know neither [dayBaseVlm] nor [totalSupply], and a [MarginTable]'s
    number has no tag: its key is the field's name. *)

From Stdlib Require Import ZArith.
From stdpp Require Import gmap strings list.
From S2P Require Import Prelude Float64 Models SdkTypes SdkClient EasyJson.
Local Open Scope Z_scope.

Section types.
Context `{LexerLaws}.

Definition dec_AssetInfo (x : AssetInfo) : fields AssetInfo :=
  fpure mkAssetInfo <@> field "name" c_string (asset_Name x)
    <@> field "szDecimals" c_int (asset_SzDecimals x)
    <@> field "maxLeverage" c_int (asset_MaxLeverage x)
    <@> field "marginTableId" c_int (asset_MarginTableId x)
    <@> field "onlyIsolated" c_bool (asset_OnlyIsolated x)
    <@> field "isDelisted" c_bool (asset_IsDelisted x).
Definition enc_AssetInfo (x : AssetInfo) : list (string * value) :=
  put "name" c_string (asset_Name x) ++ put "szDecimals" c_int (asset_SzDecimals x)
  ++ put "maxLeverage" c_int (asset_MaxLeverage x)
  ++ put "marginTableId" c_int (asset_MarginTableId x)
  ++ put "onlyIsolated" c_bool (asset_OnlyIsolated x)
  ++ put "isDelisted" c_bool (asset_IsDelisted x).
Definition codec_AssetInfo := codec_of
    (mkAssetInfo EmptyString 0 0 0 false false)
  dec_AssetInfo enc_AssetInfo.
Definition ok_AssetInfo (x : AssetInfo) : Prop :=
  in_int64 (asset_SzDecimals x) /\ in_int64 (asset_MaxLeverage x) /\
  in_int64 (asset_MarginTableId x).
#[export] Instance codec_AssetInfo_ok : CodecOK ok_AssetInfo codec_AssetInfo.
Proof. struct_codec. Qed.

Definition dec_MarginTier (x : MarginTier) : fields MarginTier :=
  fpure mkMarginTier <@> field "lowerBound" c_string (tier_LowerBound x)
    <@> field "maxLeverage" c_int (tier_MaxLeverage x).
Definition enc_MarginTier (x : MarginTier) : list (string * value) :=
  put "lowerBound" c_string (tier_LowerBound x) ++ put "maxLeverage" c_int (tier_MaxLeverage x).
Definition codec_MarginTier := codec_of
    (mkMarginTier EmptyString 0)
  dec_MarginTier enc_MarginTier.
Definition ok_MarginTier (x : MarginTier) : Prop :=
  in_int64 (tier_MaxLeverage x).
#[export] Instance codec_MarginTier_ok : CodecOK ok_MarginTier codec_MarginTier.
Proof. struct_codec. Qed.

Definition dec_MarginTable (x : MarginTable) : fields MarginTable :=
  fpure mkMarginTable <@> field "ID" c_int (mtable_ID x)
    <@> field "description" c_string (mtable_Description x)
    <@> field "marginTiers" (c_list codec_MarginTier) (mtable_MarginTiers x).
Definition enc_MarginTable (x : MarginTable) : list (string * value) :=
  put "ID" c_int (mtable_ID x) ++ put "description" c_string (mtable_Description x)
  ++ put "marginTiers" (c_list codec_MarginTier) (mtable_MarginTiers x).
Definition codec_MarginTable := codec_of
    (mkMarginTable 0 EmptyString [])
  dec_MarginTable enc_MarginTable.
Definition ok_MarginTable (x : MarginTable) : Prop :=
  in_int64 (mtable_ID x) /\ (Forall ok_MarginTier) (mtable_MarginTiers x).
#[export] Instance codec_MarginTable_ok : CodecOK ok_MarginTable codec_MarginTable.
Proof. struct_codec. Qed.

Definition dec_Meta (x : Meta) : fields Meta :=
  fpure mkMeta <@> field "universe" (c_list codec_AssetInfo) (meta_Universe x)
    <@> field "marginTables" (c_list codec_MarginTable) (meta_MarginTables x).
Definition enc_Meta (x : Meta) : list (string * value) :=
  put "universe" (c_list codec_AssetInfo) (meta_Universe x)
  ++ put "marginTables" (c_list codec_MarginTable) (meta_MarginTables x).
Definition codec_Meta := codec_of (mkMeta [] []) dec_Meta enc_Meta.
Definition ok_Meta (x : Meta) : Prop :=
  (Forall ok_AssetInfo) (meta_Universe x) /\ (Forall ok_MarginTable) (meta_MarginTables x).
#[export] Instance codec_Meta_ok : CodecOK ok_Meta codec_Meta.
Proof. struct_codec. Qed.

Definition dec_AssetCtx (x : AssetCtx) : fields AssetCtx :=
  fpure mkAssetCtx <@> field "funding" c_string (actx_Funding x)
    <@> field "openInterest" c_string (actx_OpenInterest x)
    <@> field "prevDayPx" c_string (actx_PrevDayPx x)
    <@> field "dayNtlVlm" c_string (actx_DayNtlVlm x)
    <@> field "premium" c_string (actx_Premium x)
    <@> field "oraclePx" c_string (actx_OraclePx x) <@> field "markPx" c_string (actx_MarkPx x)
    <@> field "midPx" c_string (actx_MidPx x)
    <@> field "impactPxs" (c_list c_string) (actx_ImpactPxs x)
    <@> field "dayBaseVlm" c_string (actx_DayBaseVlm x).
Definition enc_AssetCtx (x : AssetCtx) : list (string * value) :=
  put "funding" c_string (actx_Funding x) ++ put "openInterest" c_string (actx_OpenInterest x)
  ++ put "prevDayPx" c_string (actx_PrevDayPx x) ++ put "dayNtlVlm" c_string (actx_DayNtlVlm x)
  ++ put "premium" c_string (actx_Premium x) ++ put "oraclePx" c_string (actx_OraclePx x)
  ++ put "markPx" c_string (actx_MarkPx x) ++ put_string "midPx" (actx_MidPx x)
  ++ put "impactPxs" (c_list c_string) (actx_ImpactPxs x)
  ++ put_string "dayBaseVlm" (actx_DayBaseVlm x).
Definition codec_AssetCtx := codec_of
    (mkAssetCtx EmptyString EmptyString EmptyString EmptyString EmptyString EmptyString
     EmptyString EmptyString [] EmptyString)
  dec_AssetCtx enc_AssetCtx.
#[export] Instance codec_AssetCtx_ok : CodecOK always codec_AssetCtx.
Proof. struct_codec. Qed.

(** [Meta] is embedded: its fields are read and written as the struct's own. *)
Definition dec_MetaAndAssetCtxs (x : MetaAndAssetCtxs) : fields MetaAndAssetCtxs :=
  fpure (fun universe tables ctxs => mkMetaAndAssetCtxs (mkMeta universe tables) ctxs)
    <@> field "universe" (c_list codec_AssetInfo) (meta_Universe (mac_Meta x))
    <@> field "marginTables" (c_list codec_MarginTable) (meta_MarginTables (mac_Meta x))
    <@> field "Ctxs" (c_list codec_AssetCtx) (mac_Ctxs x).
Definition enc_MetaAndAssetCtxs (x : MetaAndAssetCtxs) : list (string * value) :=
  put "Ctxs" (c_list codec_AssetCtx) (mac_Ctxs x)
  ++ put "universe" (c_list codec_AssetInfo) (meta_Universe (mac_Meta x))
  ++ put "marginTables" (c_list codec_MarginTable) (meta_MarginTables (mac_Meta x)).
Definition codec_MetaAndAssetCtxs :=
  codec_of (mkMetaAndAssetCtxs (mkMeta [] []) []) dec_MetaAndAssetCtxs enc_MetaAndAssetCtxs.
Definition ok_MetaAndAssetCtxs (x : MetaAndAssetCtxs) : Prop := ok_Meta (mac_Meta x).
#[export] Instance codec_MetaAndAssetCtxs_ok : CodecOK ok_MetaAndAssetCtxs codec_MetaAndAssetCtxs.
Proof.
  apply struct_ok. intros [[universe tables] ctxs] Hx. unfold ok_MetaAndAssetCtxs, ok_Meta in Hx.
  unfold dec_MetaAndAssetCtxs, enc_MetaAndAssetCtxs. simpl in Hx |- *. split_conj. read_fields.
  reflexivity.
Qed.

Definition dec_SpotAssetInfo (x : SpotAssetInfo) : fields SpotAssetInfo :=
  fpure mkSpotAssetInfo <@> field "name" c_string (spot_Name x)
    <@> field "tokens" (c_list c_int) (spot_Tokens x) <@> field "index" c_int (spot_Index x)
    <@> field "isCanonical" c_bool (spot_IsCanonical x).
Definition enc_SpotAssetInfo (x : SpotAssetInfo) : list (string * value) :=
  put "name" c_string (spot_Name x) ++ put "tokens" (c_list c_int) (spot_Tokens x)
  ++ put "index" c_int (spot_Index x) ++ put "isCanonical" c_bool (spot_IsCanonical x).
Definition codec_SpotAssetInfo := codec_of
    (mkSpotAssetInfo EmptyString [] 0 false)
  dec_SpotAssetInfo enc_SpotAssetInfo.
Definition ok_SpotAssetInfo (x : SpotAssetInfo) : Prop :=
  (Forall in_int64) (spot_Tokens x) /\ in_int64 (spot_Index x).
#[export] Instance codec_SpotAssetInfo_ok : CodecOK ok_SpotAssetInfo codec_SpotAssetInfo.
Proof. struct_codec. Qed.

Definition dec_EvmContract (x : EvmContract) : fields EvmContract :=
  fpure mkEvmContract <@> field "address" c_string (evm_Address x)
    <@> field "evm_extra_wei_decimals" c_int (evm_EvmExtraWeiDecimals x).
Definition enc_EvmContract (x : EvmContract) : list (string * value) :=
  put "address" c_string (evm_Address x)
  ++ put "evm_extra_wei_decimals" c_int (evm_EvmExtraWeiDecimals x).
Definition codec_EvmContract := codec_of
    (mkEvmContract EmptyString 0)
  dec_EvmContract enc_EvmContract.
Definition ok_EvmContract (x : EvmContract) : Prop :=
  in_int64 (evm_EvmExtraWeiDecimals x).
#[export] Instance codec_EvmContract_ok : CodecOK ok_EvmContract codec_EvmContract.
Proof. struct_codec. Qed.

Definition dec_SpotTokenInfo (x : SpotTokenInfo) : fields SpotTokenInfo :=
  fpure mkSpotTokenInfo <@> field "name" c_string (token_Name x)
    <@> field "szDecimals" c_int (token_SzDecimals x)
    <@> field "weiDecimals" c_int (token_WeiDecimals x) <@> field "index" c_int (token_Index x)
    <@> field "tokenId" c_string (token_TokenID x)
    <@> field "isCanonical" c_bool (token_IsCanonical x)
    <@> field "evmContract" (c_ptr codec_EvmContract) (token_EvmContract x)
    <@> field "fullName" (c_ptr c_string) (token_FullName x).
Definition enc_SpotTokenInfo (x : SpotTokenInfo) : list (string * value) :=
  put "name" c_string (token_Name x) ++ put "szDecimals" c_int (token_SzDecimals x)
  ++ put "weiDecimals" c_int (token_WeiDecimals x) ++ put "index" c_int (token_Index x)
  ++ put "tokenId" c_string (token_TokenID x) ++ put "isCanonical" c_bool (token_IsCanonical x)
  ++ put "evmContract" (c_ptr codec_EvmContract) (token_EvmContract x)
  ++ put "fullName" (c_ptr c_string) (token_FullName x).
Definition codec_SpotTokenInfo := codec_of
    (mkSpotTokenInfo EmptyString 0 0 0 EmptyString false None None)
  dec_SpotTokenInfo enc_SpotTokenInfo.
Definition ok_SpotTokenInfo (x : SpotTokenInfo) : Prop :=
  in_int64 (token_SzDecimals x) /\ in_int64 (token_WeiDecimals x) /\ in_int64 (token_Index x) /\
  (ptr_P ok_EvmContract) (token_EvmContract x).
#[export] Instance codec_SpotTokenInfo_ok : CodecOK ok_SpotTokenInfo codec_SpotTokenInfo.
Proof. struct_codec. Qed.

Definition dec_SpotMeta (x : SpotMeta) : fields SpotMeta :=
  fpure mkSpotMeta <@> field "universe" (c_list codec_SpotAssetInfo) (spotmeta_Universe x)
    <@> field "tokens" (c_list codec_SpotTokenInfo) (spotmeta_Tokens x).
Definition enc_SpotMeta (x : SpotMeta) : list (string * value) :=
  put "universe" (c_list codec_SpotAssetInfo) (spotmeta_Universe x)
  ++ put "tokens" (c_list codec_SpotTokenInfo) (spotmeta_Tokens x).
Definition codec_SpotMeta := codec_of (mkSpotMeta [] []) dec_SpotMeta enc_SpotMeta.
Definition ok_SpotMeta (x : SpotMeta) : Prop :=
  (Forall ok_SpotAssetInfo) (spotmeta_Universe x) /\
  (Forall ok_SpotTokenInfo) (spotmeta_Tokens x).
#[export] Instance codec_SpotMeta_ok : CodecOK ok_SpotMeta codec_SpotMeta.
Proof. struct_codec. Qed.

Definition dec_SpotAssetCtx (x : SpotAssetCtx) : fields SpotAssetCtx :=
  fpure mkSpotAssetCtx <@> field "dayNtlVlm" c_string (sac_DayNtlVlm x)
    <@> fpure (sac_DayBaseVlm x) <@> field "markPx" c_string (sac_MarkPx x)
    <@> field "midPx" (c_ptr c_string) (sac_MidPx x)
    <@> field "prevDayPx" c_string (sac_PrevDayPx x)
    <@> field "circulatingSupply" c_string (sac_CirculatingSupply x)
    <@> field "coin" c_string (sac_Coin x) <@> fpure (sac_TotalSupply x).
Definition enc_SpotAssetCtx (x : SpotAssetCtx) : list (string * value) :=
  put "dayNtlVlm" c_string (sac_DayNtlVlm x) ++ put "markPx" c_string (sac_MarkPx x)
  ++ put "midPx" (c_ptr c_string) (sac_MidPx x) ++ put "prevDayPx" c_string (sac_PrevDayPx x)
  ++ put "circulatingSupply" c_string (sac_CirculatingSupply x)
  ++ put "coin" c_string (sac_Coin x).
Definition codec_SpotAssetCtx := codec_of
    (mkSpotAssetCtx EmptyString EmptyString EmptyString None EmptyString EmptyString EmptyString
     EmptyString)
  dec_SpotAssetCtx enc_SpotAssetCtx.

Definition dec_SpotMetaAndAssetCtxs (x : SpotMetaAndAssetCtxs) : fields SpotMetaAndAssetCtxs :=
  fpure mkSpotMetaAndAssetCtxs <@> field "Meta" codec_SpotMeta (smac_Meta x)
    <@> field "Ctxs" (c_list codec_SpotAssetCtx) (smac_Ctxs x).
Definition enc_SpotMetaAndAssetCtxs (x : SpotMetaAndAssetCtxs) : list (string * value) :=
  put "Meta" codec_SpotMeta (smac_Meta x)
  ++ put "Ctxs" (c_list codec_SpotAssetCtx) (smac_Ctxs x).
Definition codec_SpotMetaAndAssetCtxs := codec_of
    (mkSpotMetaAndAssetCtxs (c_zero codec_SpotMeta) [])
  dec_SpotMetaAndAssetCtxs enc_SpotMetaAndAssetCtxs.

Record WsMsg := mkWsMsg { wsmsg_Channel : string; wsmsg_Data : gmap string value }.
Definition dec_WsMsg (x : WsMsg) : fields WsMsg :=
  fpure mkWsMsg <@> field "channel" c_string (wsmsg_Channel x)
    <@> field "data" (c_map c_any) (wsmsg_Data x).
Definition enc_WsMsg (x : WsMsg) : list (string * value) :=
  put "channel" c_string (wsmsg_Channel x) ++ put "data" (c_map c_any) (wsmsg_Data x).
Definition codec_WsMsg := codec_of (mkWsMsg EmptyString ∅) dec_WsMsg enc_WsMsg.

Definition dec_LimitOrderType (x : LimitOrderType) : fields LimitOrderType :=
  fpure mkLimitOrderType <@> field "tif" c_string (limit_Tif x).
Definition enc_LimitOrderType (x : LimitOrderType) : list (string * value) :=
  put "tif" c_string (limit_Tif x).
Definition codec_LimitOrderType := codec_of
    (mkLimitOrderType EmptyString)
  dec_LimitOrderType enc_LimitOrderType.
#[export] Instance codec_LimitOrderType_ok : CodecOK always codec_LimitOrderType.
Proof. struct_codec. Qed.

Definition dec_TriggerOrderType (x : TriggerOrderType) : fields TriggerOrderType :=
  fpure mkTriggerOrderType <@> field "triggerPx" c_float (trigger_TriggerPx x)
    <@> field "isMarket" c_bool (trigger_IsMarket x) <@> field "tpsl" c_string (trigger_Tpsl x).
Definition enc_TriggerOrderType (x : TriggerOrderType) : list (string * value) :=
  put "triggerPx" c_float (trigger_TriggerPx x) ++ put "isMarket" c_bool (trigger_IsMarket x)
  ++ put "tpsl" c_string (trigger_Tpsl x).
Definition codec_TriggerOrderType := codec_of
    (mkTriggerOrderType f0 false EmptyString)
  dec_TriggerOrderType enc_TriggerOrderType.
Definition ok_TriggerOrderType (x : TriggerOrderType) : Prop :=
  f64_finite (trigger_TriggerPx x).
#[export] Instance codec_TriggerOrderType_ok : CodecOK ok_TriggerOrderType codec_TriggerOrderType.
Proof. struct_codec. Qed.

Definition dec_OrderType (x : OrderType) : fields OrderType :=
  fpure mkOrderType <@> field "limit" (c_ptr codec_LimitOrderType) (otype_Limit x)
    <@> field "trigger" (c_ptr codec_TriggerOrderType) (otype_Trigger x).
Definition enc_OrderType (x : OrderType) : list (string * value) :=
  put_ptr "limit" codec_LimitOrderType (otype_Limit x)
  ++ put_ptr "trigger" codec_TriggerOrderType (otype_Trigger x).
Definition codec_OrderType := codec_of (mkOrderType None None) dec_OrderType enc_OrderType.
Definition ok_OrderType (x : OrderType) : Prop :=
  (ptr_P ok_TriggerOrderType) (otype_Trigger x).
#[export] Instance codec_OrderType_ok : CodecOK ok_OrderType codec_OrderType.
Proof. struct_codec. Qed.

Definition dec_BuilderInfo (x : BuilderInfo) : fields BuilderInfo :=
  fpure mkBuilderInfo <@> field "b" c_string (builder_Builder x)
    <@> field "f" c_int (builder_Fee x).
Definition enc_BuilderInfo (x : BuilderInfo) : list (string * value) :=
  put "b" c_string (builder_Builder x) ++ put "f" c_int (builder_Fee x).
Definition codec_BuilderInfo := codec_of
    (mkBuilderInfo EmptyString 0)
  dec_BuilderInfo enc_BuilderInfo.
Definition ok_BuilderInfo (x : BuilderInfo) : Prop :=
  in_int64 (builder_Fee x).
#[export] Instance codec_BuilderInfo_ok : CodecOK ok_BuilderInfo codec_BuilderInfo.
Proof. struct_codec. Qed.

Definition dec_CancelRequest (x : CancelRequest) : fields CancelRequest :=
  fpure mkCancelRequest <@> field "coin" c_string (creq_Coin x)
    <@> field "oid" c_int (creq_Oid x).
Definition enc_CancelRequest (x : CancelRequest) : list (string * value) :=
  put "coin" c_string (creq_Coin x) ++ put "oid" c_int (creq_Oid x).
Definition codec_CancelRequest := codec_of
    (mkCancelRequest EmptyString 0)
  dec_CancelRequest enc_CancelRequest.
Definition ok_CancelRequest (x : CancelRequest) : Prop :=
  in_int64 (creq_Oid x).
#[export] Instance codec_CancelRequest_ok : CodecOK ok_CancelRequest codec_CancelRequest.
Proof. struct_codec. Qed.

Definition dec_CancelByCloidRequest (x : CancelByCloidRequest) : fields CancelByCloidRequest :=
  fpure mkCancelByCloidRequest <@> field "coin" c_string (ccreq_Coin x)
    <@> field "cloid" c_string (ccreq_Cloid x).
Definition enc_CancelByCloidRequest (x : CancelByCloidRequest) : list (string * value) :=
  put "coin" c_string (ccreq_Coin x) ++ put "cloid" c_string (ccreq_Cloid x).
Definition codec_CancelByCloidRequest := codec_of
    (mkCancelByCloidRequest EmptyString EmptyString)
  dec_CancelByCloidRequest enc_CancelByCloidRequest.
#[export] Instance codec_CancelByCloidRequest_ok : CodecOK always codec_CancelByCloidRequest.
Proof. struct_codec. Qed.

Definition dec_Cloid (x : Cloid) : fields Cloid :=
  fpure mkCloid <@> field "Value" c_string (cloid_Value x).
Definition enc_Cloid (x : Cloid) : list (string * value) :=
  put "Value" c_string (cloid_Value x).
Definition codec_Cloid := codec_of (mkCloid EmptyString) dec_Cloid enc_Cloid.
#[export] Instance codec_Cloid_ok : CodecOK always codec_Cloid.
Proof. struct_codec. Qed.

Definition dec_PerpDexSchemaInput (x : PerpDexSchemaInput) : fields PerpDexSchemaInput :=
  fpure mkPerpDexSchemaInput <@> field "fullName" c_string (schema_FullName x)
    <@> field "collateralToken" c_int (schema_CollateralToken x)
    <@> field "oracleUpdater" (c_ptr c_string) (schema_OracleUpdater x).
Definition enc_PerpDexSchemaInput (x : PerpDexSchemaInput) : list (string * value) :=
  put "fullName" c_string (schema_FullName x)
  ++ put "collateralToken" c_int (schema_CollateralToken x)
  ++ put "oracleUpdater" (c_ptr c_string) (schema_OracleUpdater x).
Definition codec_PerpDexSchemaInput := codec_of
    (mkPerpDexSchemaInput EmptyString 0 None)
  dec_PerpDexSchemaInput enc_PerpDexSchemaInput.
Definition ok_PerpDexSchemaInput (x : PerpDexSchemaInput) : Prop :=
  in_int64 (schema_CollateralToken x).
#[export] Instance codec_PerpDexSchemaInput_ok : CodecOK ok_PerpDexSchemaInput codec_PerpDexSchemaInput.
Proof. struct_codec. Qed.

Definition dec_Leverage (x : Leverage) : fields Leverage :=
  fpure mkLeverage <@> field "type" c_string (lev_Type x)
    <@> field "value" c_int (lev_Value x) <@> field "rawUsd" (c_ptr c_string) (lev_RawUsd x).
Definition enc_Leverage (x : Leverage) : list (string * value) :=
  put "type" c_string (lev_Type x) ++ put "value" c_int (lev_Value x)
  ++ put_ptr "rawUsd" c_string (lev_RawUsd x).
Definition codec_Leverage := codec_of (mkLeverage EmptyString 0 None) dec_Leverage enc_Leverage.
Definition ok_Leverage (x : Leverage) : Prop :=
  in_int64 (lev_Value x).
#[export] Instance codec_Leverage_ok : CodecOK ok_Leverage codec_Leverage.
Proof. struct_codec. Qed.

Definition dec_Position (x : Position) : fields Position :=
  fpure mkPosition <@> field "coin" c_string (pos_Coin x)
    <@> field "entryPx" (c_ptr c_string) (pos_EntryPx x)
    <@> field "leverage" codec_Leverage (pos_Leverage x)
    <@> field "liquidationPx" (c_ptr c_string) (pos_LiquidationPx x)
    <@> field "marginUsed" c_string (pos_MarginUsed x)
    <@> field "positionValue" c_string (pos_PositionValue x)
    <@> field "returnOnEquity" c_string (pos_ReturnOnEquity x)
    <@> field "szi" c_string (pos_Szi x)
    <@> field "unrealizedPnl" c_string (pos_UnrealizedPnl x).
Definition enc_Position (x : Position) : list (string * value) :=
  put "coin" c_string (pos_Coin x) ++ put "entryPx" (c_ptr c_string) (pos_EntryPx x)
  ++ put "leverage" codec_Leverage (pos_Leverage x)
  ++ put "liquidationPx" (c_ptr c_string) (pos_LiquidationPx x)
  ++ put "marginUsed" c_string (pos_MarginUsed x)
  ++ put "positionValue" c_string (pos_PositionValue x)
  ++ put "returnOnEquity" c_string (pos_ReturnOnEquity x) ++ put "szi" c_string (pos_Szi x)
  ++ put "unrealizedPnl" c_string (pos_UnrealizedPnl x).
Definition codec_Position := codec_of
    (mkPosition EmptyString None (c_zero codec_Leverage) None EmptyString EmptyString
     EmptyString EmptyString EmptyString)
  dec_Position enc_Position.
Definition ok_Position (x : Position) : Prop :=
  ok_Leverage (pos_Leverage x).
#[export] Instance codec_Position_ok : CodecOK ok_Position codec_Position.
Proof. struct_codec. Qed.

Definition dec_AssetPosition (x : AssetPosition) : fields AssetPosition :=
  fpure mkAssetPosition <@> field "position" codec_Position (ap_Position x)
    <@> field "type" c_string (ap_Type x).
Definition enc_AssetPosition (x : AssetPosition) : list (string * value) :=
  put "position" codec_Position (ap_Position x) ++ put "type" c_string (ap_Type x).
Definition codec_AssetPosition := codec_of
    (mkAssetPosition (c_zero codec_Position) EmptyString)
  dec_AssetPosition enc_AssetPosition.
Definition ok_AssetPosition (x : AssetPosition) : Prop :=
  ok_Position (ap_Position x).
#[export] Instance codec_AssetPosition_ok : CodecOK ok_AssetPosition codec_AssetPosition.
Proof. struct_codec. Qed.

Definition dec_MarginSummary (x : MarginSummary) : fields MarginSummary :=
  fpure mkMarginSummary <@> field "accountValue" c_string (ms_AccountValue x)
    <@> field "totalMarginUsed" c_string (ms_TotalMarginUsed x)
    <@> field "totalNtlPos" c_string (ms_TotalNtlPos x)
    <@> field "totalRawUsd" c_string (ms_TotalRawUsd x).
Definition enc_MarginSummary (x : MarginSummary) : list (string * value) :=
  put "accountValue" c_string (ms_AccountValue x)
  ++ put "totalMarginUsed" c_string (ms_TotalMarginUsed x)
  ++ put "totalNtlPos" c_string (ms_TotalNtlPos x)
  ++ put "totalRawUsd" c_string (ms_TotalRawUsd x).
Definition codec_MarginSummary := codec_of
    (mkMarginSummary EmptyString EmptyString EmptyString EmptyString)
  dec_MarginSummary enc_MarginSummary.
#[export] Instance codec_MarginSummary_ok : CodecOK always codec_MarginSummary.
Proof. struct_codec. Qed.

Definition dec_UserState (x : UserState) : fields UserState :=
  fpure mkUserState
    <@> field "assetPositions" (c_list codec_AssetPosition) (us_AssetPositions x)
    <@> field "crossMarginSummary" codec_MarginSummary (us_CrossMarginSummary x)
    <@> field "marginSummary" codec_MarginSummary (us_MarginSummary x)
    <@> field "withdrawable" c_string (us_Withdrawable x).
Definition enc_UserState (x : UserState) : list (string * value) :=
  put "assetPositions" (c_list codec_AssetPosition) (us_AssetPositions x)
  ++ put "crossMarginSummary" codec_MarginSummary (us_CrossMarginSummary x)
  ++ put "marginSummary" codec_MarginSummary (us_MarginSummary x)
  ++ put "withdrawable" c_string (us_Withdrawable x).
Definition codec_UserState := codec_of
    (mkUserState [] (c_zero codec_MarginSummary) (c_zero codec_MarginSummary) EmptyString)
  dec_UserState enc_UserState.
Definition ok_UserState (x : UserState) : Prop :=
  (Forall ok_AssetPosition) (us_AssetPositions x).
#[export] Instance codec_UserState_ok : CodecOK ok_UserState codec_UserState.
Proof. struct_codec. Qed.

Definition dec_SpotBalance (x : SpotBalance) : fields SpotBalance :=
  fpure mkSpotBalance <@> field "coin" c_string (sb_Coin x)
    <@> field "token" c_int (sb_Token x) <@> field "hold" c_string (sb_Hold x)
    <@> field "total" c_string (sb_Total x) <@> field "entryNtl" c_string (sb_EntryNtl x).
Definition enc_SpotBalance (x : SpotBalance) : list (string * value) :=
  put "coin" c_string (sb_Coin x) ++ put "token" c_int (sb_Token x)
  ++ put "hold" c_string (sb_Hold x) ++ put "total" c_string (sb_Total x)
  ++ put "entryNtl" c_string (sb_EntryNtl x).
Definition codec_SpotBalance := codec_of
    (mkSpotBalance EmptyString 0 EmptyString EmptyString EmptyString)
  dec_SpotBalance enc_SpotBalance.
Definition ok_SpotBalance (x : SpotBalance) : Prop :=
  in_int64 (sb_Token x).
#[export] Instance codec_SpotBalance_ok : CodecOK ok_SpotBalance codec_SpotBalance.
Proof. struct_codec. Qed.

Definition dec_SpotUserState (x : SpotUserState) : fields SpotUserState :=
  fpure mkSpotUserState <@> field "balances" (c_list codec_SpotBalance) (sus_Balances x).
Definition enc_SpotUserState (x : SpotUserState) : list (string * value) :=
  put "balances" (c_list codec_SpotBalance) (sus_Balances x).
Definition codec_SpotUserState := codec_of
    (mkSpotUserState [])
  dec_SpotUserState enc_SpotUserState.
Definition ok_SpotUserState (x : SpotUserState) : Prop :=
  (Forall ok_SpotBalance) (sus_Balances x).
#[export] Instance codec_SpotUserState_ok : CodecOK ok_SpotUserState codec_SpotUserState.
Proof. struct_codec. Qed.

Definition dec_OpenOrder (x : OpenOrder) : fields OpenOrder :=
  fpure mkOpenOrder <@> field "coin" c_string (oo_Coin x)
    <@> field "limitPx" c_float_str (oo_LimitPx x) <@> field "oid" c_int (oo_Oid x)
    <@> field "side" c_string (oo_Side x) <@> field "sz" c_float_str (oo_Size x)
    <@> field "timestamp" c_int (oo_Timestamp x).
Definition enc_OpenOrder (x : OpenOrder) : list (string * value) :=
  put "coin" c_string (oo_Coin x) ++ put "limitPx" c_float_str (oo_LimitPx x)
  ++ put "oid" c_int (oo_Oid x) ++ put "side" c_string (oo_Side x)
  ++ put "sz" c_float_str (oo_Size x) ++ put "timestamp" c_int (oo_Timestamp x).
Definition codec_OpenOrder := codec_of
    (mkOpenOrder EmptyString f0 0 EmptyString f0 0)
  dec_OpenOrder enc_OpenOrder.
Definition ok_OpenOrder (x : OpenOrder) : Prop :=
  f64_finite (oo_LimitPx x) /\ in_int64 (oo_Oid x) /\ f64_finite (oo_Size x) /\
  in_int64 (oo_Timestamp x).
#[export] Instance codec_OpenOrder_ok : CodecOK ok_OpenOrder codec_OpenOrder.
Proof. struct_codec. Qed.

Definition dec_FrontendOpenOrder (x : FrontendOpenOrder) : fields FrontendOpenOrder :=
  fpure mkFrontendOpenOrder <@> field "coin" c_string (foo_Coin x)
    <@> field "isPositionTpsl" c_bool (foo_IsPositionTpSl x)
    <@> field "isTrigger" c_bool (foo_IsTrigger x)
    <@> field "limitPx" c_float_str (foo_LimitPx x) <@> field "oid" c_int (foo_Oid x)
    <@> field "orderType" c_string (foo_OrderType x)
    <@> field "origSz" c_float_str (foo_OrigSz x)
    <@> field "reduceOnly" c_bool (foo_ReduceOnly x) <@> field "side" c_string (foo_Side x)
    <@> field "sz" c_float_str (foo_Sz x) <@> field "timestamp" c_int (foo_Timestamp x)
    <@> field "triggerCondition" c_string (foo_TriggerCondition x)
    <@> field "triggerPx" c_string (foo_TriggerPx x).
Definition enc_FrontendOpenOrder (x : FrontendOpenOrder) : list (string * value) :=
  put "coin" c_string (foo_Coin x) ++ put "isPositionTpsl" c_bool (foo_IsPositionTpSl x)
  ++ put "isTrigger" c_bool (foo_IsTrigger x) ++ put "limitPx" c_float_str (foo_LimitPx x)
  ++ put "oid" c_int (foo_Oid x) ++ put "orderType" c_string (foo_OrderType x)
  ++ put "origSz" c_float_str (foo_OrigSz x) ++ put "reduceOnly" c_bool (foo_ReduceOnly x)
  ++ put "side" c_string (foo_Side x) ++ put "sz" c_float_str (foo_Sz x)
  ++ put "timestamp" c_int (foo_Timestamp x)
  ++ put "triggerCondition" c_string (foo_TriggerCondition x)
  ++ put "triggerPx" c_string (foo_TriggerPx x).
Definition codec_FrontendOpenOrder := codec_of
    (mkFrontendOpenOrder EmptyString false false f0 0 EmptyString f0 false EmptyString f0 0
     EmptyString EmptyString)
  dec_FrontendOpenOrder enc_FrontendOpenOrder.
Definition ok_FrontendOpenOrder (x : FrontendOpenOrder) : Prop :=
  f64_finite (foo_LimitPx x) /\ in_int64 (foo_Oid x) /\ f64_finite (foo_OrigSz x) /\
  f64_finite (foo_Sz x) /\ in_int64 (foo_Timestamp x).
#[export] Instance codec_FrontendOpenOrder_ok : CodecOK ok_FrontendOpenOrder codec_FrontendOpenOrder.
Proof. struct_codec. Qed.

Definition dec_QueriedOrder (x : QueriedOrder) : fields QueriedOrder :=
  fpure mkQueriedOrder <@> field "coin" c_string (qo_Coin x)
    <@> field "side" c_string (qo_Side x) <@> field "limitPx" c_string (qo_LimitPx x)
    <@> field "sz" c_string (qo_Sz x) <@> field "oid" c_int (qo_Oid x)
    <@> field "timestamp" c_int (qo_Timestamp x)
    <@> field "triggerCondition" c_string (qo_TriggerCondition x)
    <@> field "isTrigger" c_bool (qo_IsTrigger x)
    <@> field "triggerPx" c_string (qo_TriggerPx x)
    <@> field "isPositionTpsl" c_bool (qo_IsPositionTpsl x)
    <@> field "reduceOnly" c_bool (qo_ReduceOnly x)
    <@> field "orderType" c_string (qo_OrderType x) <@> field "origSz" c_string (qo_OrigSz x)
    <@> field "tif" c_string (qo_Tif x) <@> field "cloid" (c_ptr c_string) (qo_Cloid x).
Definition enc_QueriedOrder (x : QueriedOrder) : list (string * value) :=
  put "coin" c_string (qo_Coin x) ++ put "side" c_string (qo_Side x)
  ++ put "limitPx" c_string (qo_LimitPx x) ++ put "sz" c_string (qo_Sz x)
  ++ put "oid" c_int (qo_Oid x) ++ put "timestamp" c_int (qo_Timestamp x)
  ++ put "triggerCondition" c_string (qo_TriggerCondition x)
  ++ put "isTrigger" c_bool (qo_IsTrigger x) ++ put "triggerPx" c_string (qo_TriggerPx x)
  ++ put "isPositionTpsl" c_bool (qo_IsPositionTpsl x)
  ++ put "reduceOnly" c_bool (qo_ReduceOnly x) ++ put "orderType" c_string (qo_OrderType x)
  ++ put "origSz" c_string (qo_OrigSz x) ++ put "tif" c_string (qo_Tif x)
  ++ put "cloid" (c_ptr c_string) (qo_Cloid x).
Definition codec_QueriedOrder := codec_of
    (mkQueriedOrder EmptyString EmptyString EmptyString EmptyString 0 0 EmptyString false
     EmptyString false false EmptyString EmptyString EmptyString None)
  dec_QueriedOrder enc_QueriedOrder.
Definition ok_QueriedOrder (x : QueriedOrder) : Prop :=
  in_int64 (qo_Oid x) /\ in_int64 (qo_Timestamp x).
#[export] Instance codec_QueriedOrder_ok : CodecOK ok_QueriedOrder codec_QueriedOrder.
Proof. struct_codec. Qed.

Definition dec_OrderQueryResponse (x : OrderQueryResponse) : fields OrderQueryResponse :=
  fpure mkOrderQueryResponse <@> field "order" codec_QueriedOrder (oqr_Order x)
    <@> field "status" c_string (oqr_Status x)
    <@> field "statusTimestamp" c_int (oqr_StatusTimestamp x).
Definition enc_OrderQueryResponse (x : OrderQueryResponse) : list (string * value) :=
  put "order" codec_QueriedOrder (oqr_Order x) ++ put "status" c_string (oqr_Status x)
  ++ put "statusTimestamp" c_int (oqr_StatusTimestamp x).
Definition codec_OrderQueryResponse := codec_of
    (mkOrderQueryResponse (c_zero codec_QueriedOrder) EmptyString 0)
  dec_OrderQueryResponse enc_OrderQueryResponse.
Definition ok_OrderQueryResponse (x : OrderQueryResponse) : Prop :=
  ok_QueriedOrder (oqr_Order x) /\ in_int64 (oqr_StatusTimestamp x).
#[export] Instance codec_OrderQueryResponse_ok : CodecOK ok_OrderQueryResponse codec_OrderQueryResponse.
Proof. struct_codec. Qed.

Definition dec_OrderQueryResult (x : OrderQueryResult) : fields OrderQueryResult :=
  fpure mkOrderQueryResult <@> field "status" c_string (oq_Status x)
    <@> field "order" codec_OrderQueryResponse (oq_Order x).
Definition enc_OrderQueryResult (x : OrderQueryResult) : list (string * value) :=
  put "status" c_string (oq_Status x) ++ put "order" codec_OrderQueryResponse (oq_Order x).
Definition codec_OrderQueryResult := codec_of
    (mkOrderQueryResult EmptyString (c_zero codec_OrderQueryResponse))
  dec_OrderQueryResult enc_OrderQueryResult.
Definition ok_OrderQueryResult (x : OrderQueryResult) : Prop :=
  ok_OrderQueryResponse (oq_Order x).
#[export] Instance codec_OrderQueryResult_ok : CodecOK ok_OrderQueryResult codec_OrderQueryResult.
Proof. struct_codec. Qed.

Definition dec_Fill (x : Fill) : fields Fill :=
  fpure mkFill <@> field "closedPnl" c_string (ufill_ClosedPnl x)
    <@> field "coin" c_string (ufill_Coin x) <@> field "crossed" c_bool (ufill_Crossed x)
    <@> field "dir" c_string (ufill_Dir x) <@> field "hash" c_string (ufill_Hash x)
    <@> field "oid" c_int (ufill_Oid x) <@> field "px" c_string (ufill_Price x)
    <@> field "side" c_string (ufill_Side x)
    <@> field "startPosition" c_string (ufill_StartPosition x)
    <@> field "sz" c_string (ufill_Size x) <@> field "time" c_int (ufill_Time x)
    <@> field "fee" c_string (ufill_Fee x) <@> field "feeToken" c_string (ufill_FeeToken x)
    <@> field "builderFee" c_string (ufill_BuilderFee x) <@> field "tid" c_int (ufill_Tid x).
Definition enc_Fill (x : Fill) : list (string * value) :=
  put "closedPnl" c_string (ufill_ClosedPnl x) ++ put "coin" c_string (ufill_Coin x)
  ++ put "crossed" c_bool (ufill_Crossed x) ++ put "dir" c_string (ufill_Dir x)
  ++ put "hash" c_string (ufill_Hash x) ++ put "oid" c_int (ufill_Oid x)
  ++ put "px" c_string (ufill_Price x) ++ put "side" c_string (ufill_Side x)
  ++ put "startPosition" c_string (ufill_StartPosition x) ++ put "sz" c_string (ufill_Size x)
  ++ put "time" c_int (ufill_Time x) ++ put "fee" c_string (ufill_Fee x)
  ++ put "feeToken" c_string (ufill_FeeToken x) ++ put_string "builderFee" (ufill_BuilderFee x)
  ++ put "tid" c_int (ufill_Tid x).
Definition codec_Fill := codec_of
    (mkFill EmptyString EmptyString false EmptyString EmptyString 0 EmptyString EmptyString
     EmptyString EmptyString 0 EmptyString EmptyString EmptyString 0)
  dec_Fill enc_Fill.
Definition ok_Fill (x : Fill) : Prop :=
  in_int64 (ufill_Oid x) /\ in_int64 (ufill_Time x) /\ in_int64 (ufill_Tid x).
#[export] Instance codec_Fill_ok : CodecOK ok_Fill codec_Fill.
Proof. struct_codec. Qed.

Definition dec_FundingHistory (x : FundingHistory) : fields FundingHistory :=
  fpure mkFundingHistory <@> field "coin" c_string (fund_Coin x)
    <@> field "fundingRate" c_string (fund_FundingRate x)
    <@> field "premium" c_string (fund_Premium x) <@> field "time" c_int (fund_Time x).
Definition enc_FundingHistory (x : FundingHistory) : list (string * value) :=
  put "coin" c_string (fund_Coin x) ++ put "fundingRate" c_string (fund_FundingRate x)
  ++ put "premium" c_string (fund_Premium x) ++ put "time" c_int (fund_Time x).
Definition codec_FundingHistory := codec_of
    (mkFundingHistory EmptyString EmptyString EmptyString 0)
  dec_FundingHistory enc_FundingHistory.
Definition ok_FundingHistory (x : FundingHistory) : Prop :=
  in_int64 (fund_Time x).
#[export] Instance codec_FundingHistory_ok : CodecOK ok_FundingHistory codec_FundingHistory.
Proof. struct_codec. Qed.

Definition dec_UserFundingHistory (x : UserFundingHistory) : fields UserFundingHistory :=
  fpure mkUserFundingHistory <@> field "user" c_string (ufund_User x)
    <@> field "type" c_string (ufund_Type x) <@> field "startTime" c_int (ufund_StartTime x)
    <@> field "endTime" c_int (ufund_EndTime x).
Definition enc_UserFundingHistory (x : UserFundingHistory) : list (string * value) :=
  put "user" c_string (ufund_User x) ++ put "type" c_string (ufund_Type x)
  ++ put "startTime" c_int (ufund_StartTime x) ++ put "endTime" c_int (ufund_EndTime x).
Definition codec_UserFundingHistory := codec_of
    (mkUserFundingHistory EmptyString EmptyString 0 0)
  dec_UserFundingHistory enc_UserFundingHistory.
Definition ok_UserFundingHistory (x : UserFundingHistory) : Prop :=
  in_int64 (ufund_StartTime x) /\ in_int64 (ufund_EndTime x).
#[export] Instance codec_UserFundingHistory_ok : CodecOK ok_UserFundingHistory codec_UserFundingHistory.
Proof. struct_codec. Qed.

Definition dec_UserVolume (x : UserVolume) : fields UserVolume :=
  fpure mkUserVolume <@> field "date" c_string (uvol_Date x)
    <@> field "exchange" c_string (uvol_Exchange x)
    <@> field "userAdd" c_string (uvol_UserAdd x)
    <@> field "userCross" c_string (uvol_UserCross x).
Definition enc_UserVolume (x : UserVolume) : list (string * value) :=
  put "date" c_string (uvol_Date x) ++ put "exchange" c_string (uvol_Exchange x)
  ++ put "userAdd" c_string (uvol_UserAdd x) ++ put "userCross" c_string (uvol_UserCross x).
Definition codec_UserVolume := codec_of
    (mkUserVolume EmptyString EmptyString EmptyString EmptyString)
  dec_UserVolume enc_UserVolume.
#[export] Instance codec_UserVolume_ok : CodecOK always codec_UserVolume.
Proof. struct_codec. Qed.

Definition dec_MMTier (x : MMTier) : fields MMTier :=
  fpure mkMMTier <@> field "add" c_string (mm_Add x)
    <@> field "makerFractionCutoff" c_string (mm_MakerFractionCutoff x).
Definition enc_MMTier (x : MMTier) : list (string * value) :=
  put "add" c_string (mm_Add x) ++ put "makerFractionCutoff" c_string (mm_MakerFractionCutoff x).
Definition codec_MMTier := codec_of (mkMMTier EmptyString EmptyString) dec_MMTier enc_MMTier.
#[export] Instance codec_MMTier_ok : CodecOK always codec_MMTier.
Proof. struct_codec. Qed.

Definition dec_VIPTier (x : VIPTier) : fields VIPTier :=
  fpure mkVIPTier <@> field "add" c_string (vip_Add x)
    <@> field "cross" c_string (vip_Cross x) <@> field "ntlCutoff" c_string (vip_NtlCutoff x).
Definition enc_VIPTier (x : VIPTier) : list (string * value) :=
  put "add" c_string (vip_Add x) ++ put "cross" c_string (vip_Cross x)
  ++ put "ntlCutoff" c_string (vip_NtlCutoff x).
Definition codec_VIPTier := codec_of
    (mkVIPTier EmptyString EmptyString EmptyString)
  dec_VIPTier enc_VIPTier.
#[export] Instance codec_VIPTier_ok : CodecOK always codec_VIPTier.
Proof. struct_codec. Qed.

Definition dec_Tiers (x : Tiers) : fields Tiers :=
  fpure mkTiers <@> field "mm" (c_list codec_MMTier) (tiers_MM x)
    <@> field "vip" (c_list codec_VIPTier) (tiers_VIP x).
Definition enc_Tiers (x : Tiers) : list (string * value) :=
  put "mm" (c_list codec_MMTier) (tiers_MM x) ++ put "vip" (c_list codec_VIPTier) (tiers_VIP x).
Definition codec_Tiers := codec_of (mkTiers [] []) dec_Tiers enc_Tiers.
#[export] Instance codec_Tiers_ok : CodecOK always codec_Tiers.
Proof. struct_codec. Qed.

Definition dec_FeeSchedule (x : FeeSchedule) : fields FeeSchedule :=
  fpure mkFeeSchedule <@> field "add" c_string (fees_Add x)
    <@> field "cross" c_string (fees_Cross x)
    <@> field "referralDiscount" c_string (fees_ReferralDiscount x)
    <@> field "tiers" codec_Tiers (fees_Tiers x).
Definition enc_FeeSchedule (x : FeeSchedule) : list (string * value) :=
  put "add" c_string (fees_Add x) ++ put "cross" c_string (fees_Cross x)
  ++ put "referralDiscount" c_string (fees_ReferralDiscount x)
  ++ put "tiers" codec_Tiers (fees_Tiers x).
Definition codec_FeeSchedule := codec_of
    (mkFeeSchedule EmptyString EmptyString EmptyString (c_zero codec_Tiers))
  dec_FeeSchedule enc_FeeSchedule.
#[export] Instance codec_FeeSchedule_ok : CodecOK always codec_FeeSchedule.
Proof. struct_codec. Qed.

Definition dec_UserFees (x : UserFees) : fields UserFees :=
  fpure mkUserFees
    <@> field "activeReferralDiscount" c_string (ufees_ActiveReferralDiscount x)
    <@> field "dailyUserVlm" (c_list codec_UserVolume) (ufees_DailyUserVolume x)
    <@> field "feeSchedule" codec_FeeSchedule (ufees_FeeSchedule x)
    <@> field "userAddRate" c_string (ufees_UserAddRate x)
    <@> field "userCrossRate" c_string (ufees_UserCrossRate x)
    <@> field "userSpotCrossRate" c_string (ufees_UserSpotCrossRate x)
    <@> field "userSpotAddRate" c_string (ufees_UserSpotAddRate x).
Definition enc_UserFees (x : UserFees) : list (string * value) :=
  put "activeReferralDiscount" c_string (ufees_ActiveReferralDiscount x)
  ++ put "dailyUserVlm" (c_list codec_UserVolume) (ufees_DailyUserVolume x)
  ++ put "feeSchedule" codec_FeeSchedule (ufees_FeeSchedule x)
  ++ put "userAddRate" c_string (ufees_UserAddRate x)
  ++ put "userCrossRate" c_string (ufees_UserCrossRate x)
  ++ put "userSpotCrossRate" c_string (ufees_UserSpotCrossRate x)
  ++ put "userSpotAddRate" c_string (ufees_UserSpotAddRate x).
Definition codec_UserFees := codec_of
    (mkUserFees EmptyString [] (c_zero codec_FeeSchedule) EmptyString EmptyString EmptyString
     EmptyString)
  dec_UserFees enc_UserFees.
#[export] Instance codec_UserFees_ok : CodecOK always codec_UserFees.
Proof. struct_codec. Qed.

Definition dec_UserActiveAssetData (x : UserActiveAssetData) : fields UserActiveAssetData :=
  fpure mkUserActiveAssetData <@> field "user" c_string (uad_User x)
    <@> field "coin" c_string (uad_Coin x) <@> field "leverage" codec_Leverage (uad_Leverage x)
    <@> field "maxTradeSzs" (c_list c_string) (uad_MaxTradeSzs x)
    <@> field "availableToTrade" (c_list c_string) (uad_AvailableToTrade x)
    <@> field "markPx" c_string (uad_MarkPx x).
Definition enc_UserActiveAssetData (x : UserActiveAssetData) : list (string * value) :=
  put "user" c_string (uad_User x) ++ put "coin" c_string (uad_Coin x)
  ++ put "leverage" codec_Leverage (uad_Leverage x)
  ++ put "maxTradeSzs" (c_list c_string) (uad_MaxTradeSzs x)
  ++ put "availableToTrade" (c_list c_string) (uad_AvailableToTrade x)
  ++ put "markPx" c_string (uad_MarkPx x).
Definition codec_UserActiveAssetData := codec_of
    (mkUserActiveAssetData EmptyString EmptyString (c_zero codec_Leverage) [] [] EmptyString)
  dec_UserActiveAssetData enc_UserActiveAssetData.
Definition ok_UserActiveAssetData (x : UserActiveAssetData) : Prop :=
  ok_Leverage (uad_Leverage x).
#[export] Instance codec_UserActiveAssetData_ok : CodecOK ok_UserActiveAssetData codec_UserActiveAssetData.
Proof. struct_codec. Qed.

Definition dec_StakingSummary (x : StakingSummary) : fields StakingSummary :=
  fpure mkStakingSummary <@> field "delegated" c_string (ssum_Delegated x)
    <@> field "undelegated" c_string (ssum_Undelegated x)
    <@> field "totalPendingWithdrawal" c_string (ssum_TotalPendingWithdrawal x)
    <@> field "nPendingWithdrawals" c_int (ssum_NPendingWithdrawals x).
Definition enc_StakingSummary (x : StakingSummary) : list (string * value) :=
  put "delegated" c_string (ssum_Delegated x) ++ put "undelegated" c_string (ssum_Undelegated x)
  ++ put "totalPendingWithdrawal" c_string (ssum_TotalPendingWithdrawal x)
  ++ put "nPendingWithdrawals" c_int (ssum_NPendingWithdrawals x).
Definition codec_StakingSummary := codec_of
    (mkStakingSummary EmptyString EmptyString EmptyString 0)
  dec_StakingSummary enc_StakingSummary.
Definition ok_StakingSummary (x : StakingSummary) : Prop :=
  in_int64 (ssum_NPendingWithdrawals x).
#[export] Instance codec_StakingSummary_ok : CodecOK ok_StakingSummary codec_StakingSummary.
Proof. struct_codec. Qed.

Definition dec_StakingDelegation (x : StakingDelegation) : fields StakingDelegation :=
  fpure mkStakingDelegation <@> field "validator" c_string (sdel_Validator x)
    <@> field "amount" c_string (sdel_Amount x)
    <@> field "lockedUntilTimestamp" c_int (sdel_LockedUntilTimestamp x).
Definition enc_StakingDelegation (x : StakingDelegation) : list (string * value) :=
  put "validator" c_string (sdel_Validator x) ++ put "amount" c_string (sdel_Amount x)
  ++ put "lockedUntilTimestamp" c_int (sdel_LockedUntilTimestamp x).
Definition codec_StakingDelegation := codec_of
    (mkStakingDelegation EmptyString EmptyString 0)
  dec_StakingDelegation enc_StakingDelegation.
Definition ok_StakingDelegation (x : StakingDelegation) : Prop :=
  in_int64 (sdel_LockedUntilTimestamp x).
#[export] Instance codec_StakingDelegation_ok : CodecOK ok_StakingDelegation codec_StakingDelegation.
Proof. struct_codec. Qed.

Definition dec_StakingReward (x : StakingReward) : fields StakingReward :=
  fpure mkStakingReward <@> field "time" c_int (srew_Time x)
    <@> field "source" c_string (srew_Source x)
    <@> field "totalAmount" c_string (srew_TotalAmount x).
Definition enc_StakingReward (x : StakingReward) : list (string * value) :=
  put "time" c_int (srew_Time x) ++ put "source" c_string (srew_Source x)
  ++ put "totalAmount" c_string (srew_TotalAmount x).
Definition codec_StakingReward := codec_of
    (mkStakingReward 0 EmptyString EmptyString)
  dec_StakingReward enc_StakingReward.
Definition ok_StakingReward (x : StakingReward) : Prop :=
  in_int64 (srew_Time x).
#[export] Instance codec_StakingReward_ok : CodecOK ok_StakingReward codec_StakingReward.
Proof. struct_codec. Qed.

Definition dec_ReferralState (x : ReferralState) : fields ReferralState :=
  fpure mkReferralState <@> field "referralCode" c_string (ref_ReferralCode x)
    <@> field "referrer" c_string (ref_Referrer x)
    <@> field "referred" (c_list c_string) (ref_Referred x).
Definition enc_ReferralState (x : ReferralState) : list (string * value) :=
  put "referralCode" c_string (ref_ReferralCode x) ++ put "referrer" c_string (ref_Referrer x)
  ++ put "referred" (c_list c_string) (ref_Referred x).
Definition codec_ReferralState := codec_of
    (mkReferralState EmptyString EmptyString [])
  dec_ReferralState enc_ReferralState.
#[export] Instance codec_ReferralState_ok : CodecOK always codec_ReferralState.
Proof. struct_codec. Qed.

Definition dec_SubAccount (x : SubAccount) : fields SubAccount :=
  fpure mkSubAccount <@> field "name" c_string (sub_Name x)
    <@> field "user" c_string (sub_User x)
    <@> field "permissions" (c_list c_string) (sub_Permissions x).
Definition enc_SubAccount (x : SubAccount) : list (string * value) :=
  put "name" c_string (sub_Name x) ++ put "user" c_string (sub_User x)
  ++ put "permissions" (c_list c_string) (sub_Permissions x).
Definition codec_SubAccount := codec_of
    (mkSubAccount EmptyString EmptyString [])
  dec_SubAccount enc_SubAccount.
#[export] Instance codec_SubAccount_ok : CodecOK always codec_SubAccount.
Proof. struct_codec. Qed.

Definition dec_MultiSigSigner (x : MultiSigSigner) : fields MultiSigSigner :=
  fpure mkMultiSigSigner <@> field "user" c_string (msig_User x)
    <@> field "threshold" c_int (msig_Threshold x).
Definition enc_MultiSigSigner (x : MultiSigSigner) : list (string * value) :=
  put "user" c_string (msig_User x) ++ put "threshold" c_int (msig_Threshold x).
Definition codec_MultiSigSigner := codec_of
    (mkMultiSigSigner EmptyString 0)
  dec_MultiSigSigner enc_MultiSigSigner.
Definition ok_MultiSigSigner (x : MultiSigSigner) : Prop :=
  in_int64 (msig_Threshold x).
#[export] Instance codec_MultiSigSigner_ok : CodecOK ok_MultiSigSigner codec_MultiSigSigner.
Proof. struct_codec. Qed.

Definition dec_OrderStatusResting (x : OrderStatusResting) : fields OrderStatusResting :=
  fpure mkOrderStatusResting <@> field "oid" c_int (resting_Oid x)
    <@> field "cloid" (c_ptr c_string) (resting_ClientID x)
    <@> field "status" c_string (resting_Status x).
Definition enc_OrderStatusResting (x : OrderStatusResting) : list (string * value) :=
  put "oid" c_int (resting_Oid x) ++ put "cloid" (c_ptr c_string) (resting_ClientID x)
  ++ put "status" c_string (resting_Status x).
Definition codec_OrderStatusResting := codec_of
    (mkOrderStatusResting 0 None EmptyString)
  dec_OrderStatusResting enc_OrderStatusResting.
Definition ok_OrderStatusResting (x : OrderStatusResting) : Prop :=
  in_int64 (resting_Oid x).
#[export] Instance codec_OrderStatusResting_ok : CodecOK ok_OrderStatusResting codec_OrderStatusResting.
Proof. struct_codec. Qed.

Definition dec_OrderStatusFilled (x : OrderStatusFilled) : fields OrderStatusFilled :=
  fpure mkOrderStatusFilled <@> field "totalSz" c_string (filled_TotalSz x)
    <@> field "avgPx" c_string (filled_AvgPx x) <@> field "oid" c_int (filled_Oid x).
Definition enc_OrderStatusFilled (x : OrderStatusFilled) : list (string * value) :=
  put "totalSz" c_string (filled_TotalSz x) ++ put "avgPx" c_string (filled_AvgPx x)
  ++ put "oid" c_int (filled_Oid x).
Definition codec_OrderStatusFilled := codec_of
    (mkOrderStatusFilled EmptyString EmptyString 0)
  dec_OrderStatusFilled enc_OrderStatusFilled.
Definition ok_OrderStatusFilled (x : OrderStatusFilled) : Prop :=
  in_int64 (filled_Oid x).
#[export] Instance codec_OrderStatusFilled_ok : CodecOK ok_OrderStatusFilled codec_OrderStatusFilled.
Proof. struct_codec. Qed.

Definition dec_OrderStatus (x : OrderStatus) : fields OrderStatus :=
  fpure mkOrderStatus <@> field "resting" (c_ptr codec_OrderStatusResting) (ostatus_Resting x)
    <@> field "filled" (c_ptr codec_OrderStatusFilled) (ostatus_Filled x)
    <@> field "error" (c_ptr c_string) (ostatus_Error x).
Definition enc_OrderStatus (x : OrderStatus) : list (string * value) :=
  put_ptr "resting" codec_OrderStatusResting (ostatus_Resting x)
  ++ put_ptr "filled" codec_OrderStatusFilled (ostatus_Filled x)
  ++ put_ptr "error" c_string (ostatus_Error x).
Definition codec_OrderStatus := codec_of
    (mkOrderStatus None None None)
  dec_OrderStatus enc_OrderStatus.
Definition ok_OrderStatus (x : OrderStatus) : Prop :=
  (ptr_P ok_OrderStatusResting) (ostatus_Resting x) /\
  (ptr_P ok_OrderStatusFilled) (ostatus_Filled x).
#[export] Instance codec_OrderStatus_ok : CodecOK ok_OrderStatus codec_OrderStatus.
Proof. struct_codec. Qed.

Definition dec_BulkOrderResponse (x : BulkOrderResponse) : fields BulkOrderResponse :=
  fpure mkBulkOrderResponse <@> field "status" c_string (bor_Status x)
    <@> field "data" (c_list codec_OrderStatus) (bor_Data x)
    <@> field "error" c_string (bor_Error x).
Definition enc_BulkOrderResponse (x : BulkOrderResponse) : list (string * value) :=
  put "status" c_string (bor_Status x) ++ put_list "data" codec_OrderStatus (bor_Data x)
  ++ put_string "error" (bor_Error x).
Definition codec_BulkOrderResponse := codec_of
    (mkBulkOrderResponse EmptyString [] EmptyString)
  dec_BulkOrderResponse enc_BulkOrderResponse.
Definition ok_BulkOrderResponse (x : BulkOrderResponse) : Prop :=
  (Forall ok_OrderStatus) (bor_Data x).
#[export] Instance codec_BulkOrderResponse_ok : CodecOK ok_BulkOrderResponse codec_BulkOrderResponse.
Proof. struct_codec. Qed.

Definition dec_CancelResponse (x : CancelResponse) : fields CancelResponse :=
  fpure mkCancelResponse <@> field "status" c_string (cr_Status x)
    <@> field "data" (c_ptr codec_OpenOrder) (cr_Data x) <@> field "error" c_string (cr_Error x).
Definition enc_CancelResponse (x : CancelResponse) : list (string * value) :=
  put "status" c_string (cr_Status x) ++ put_ptr "data" codec_OpenOrder (cr_Data x)
  ++ put_string "error" (cr_Error x).
Definition codec_CancelResponse := codec_of
    (mkCancelResponse EmptyString None EmptyString)
  dec_CancelResponse enc_CancelResponse.
Definition ok_CancelResponse (x : CancelResponse) : Prop :=
  (ptr_P ok_OpenOrder) (cr_Data x).
#[export] Instance codec_CancelResponse_ok : CodecOK ok_CancelResponse codec_CancelResponse.
Proof. struct_codec. Qed.

Definition dec_BulkCancelResponse (x : BulkCancelResponse) : fields BulkCancelResponse :=
  fpure mkBulkCancelResponse <@> field "status" c_string (bcr_Status x)
    <@> field "data" (c_list codec_OpenOrder) (bcr_Data x)
    <@> field "error" c_string (bcr_Error x).
Definition enc_BulkCancelResponse (x : BulkCancelResponse) : list (string * value) :=
  put "status" c_string (bcr_Status x) ++ put_list "data" codec_OpenOrder (bcr_Data x)
  ++ put_string "error" (bcr_Error x).
Definition codec_BulkCancelResponse := codec_of
    (mkBulkCancelResponse EmptyString [] EmptyString)
  dec_BulkCancelResponse enc_BulkCancelResponse.
Definition ok_BulkCancelResponse (x : BulkCancelResponse) : Prop :=
  (Forall ok_OpenOrder) (bcr_Data x).
#[export] Instance codec_BulkCancelResponse_ok : CodecOK ok_BulkCancelResponse codec_BulkCancelResponse.
Proof. struct_codec. Qed.

Definition dec_ModifyResponse (x : ModifyResponse) : fields ModifyResponse :=
  fpure mkModifyResponse <@> field "status" c_string (mr_Status x)
    <@> field "data" (c_list codec_OrderStatus) (mr_Data x)
    <@> field "error" c_string (mr_Error x).
Definition enc_ModifyResponse (x : ModifyResponse) : list (string * value) :=
  put "status" c_string (mr_Status x) ++ put_list "data" codec_OrderStatus (mr_Data x)
  ++ put_string "error" (mr_Error x).
Definition codec_ModifyResponse := codec_of
    (mkModifyResponse EmptyString [] EmptyString)
  dec_ModifyResponse enc_ModifyResponse.
Definition ok_ModifyResponse (x : ModifyResponse) : Prop :=
  (Forall ok_OrderStatus) (mr_Data x).
#[export] Instance codec_ModifyResponse_ok : CodecOK ok_ModifyResponse codec_ModifyResponse.
Proof. struct_codec. Qed.

Definition dec_TransferResponse (x : TransferResponse) : fields TransferResponse :=
  fpure mkTransferResponse <@> field "status" c_string (tr_Status x)
    <@> field "txHash" c_string (tr_TxHash x) <@> field "error" c_string (tr_Error x).
Definition enc_TransferResponse (x : TransferResponse) : list (string * value) :=
  put "status" c_string (tr_Status x) ++ put_string "txHash" (tr_TxHash x)
  ++ put_string "error" (tr_Error x).
Definition codec_TransferResponse := codec_of
    (mkTransferResponse EmptyString EmptyString EmptyString)
  dec_TransferResponse enc_TransferResponse.
#[export] Instance codec_TransferResponse_ok : CodecOK always codec_TransferResponse.
Proof. struct_codec. Qed.

Definition dec_ApprovalResponse (x : ApprovalResponse) : fields ApprovalResponse :=
  fpure mkApprovalResponse <@> field "status" c_string (apr_Status x)
    <@> field "txHash" c_string (apr_TxHash x) <@> field "error" c_string (apr_Error x).
Definition enc_ApprovalResponse (x : ApprovalResponse) : list (string * value) :=
  put "status" c_string (apr_Status x) ++ put_string "txHash" (apr_TxHash x)
  ++ put_string "error" (apr_Error x).
Definition codec_ApprovalResponse := codec_of
    (mkApprovalResponse EmptyString EmptyString EmptyString)
  dec_ApprovalResponse enc_ApprovalResponse.
#[export] Instance codec_ApprovalResponse_ok : CodecOK always codec_ApprovalResponse.
Proof. struct_codec. Qed.

Definition dec_CreateVaultResponse (x : CreateVaultResponse) : fields CreateVaultResponse :=
  fpure mkCreateVaultResponse <@> field "status" c_string (cvr_Status x)
    <@> field "data" c_string (cvr_Data x) <@> field "error" c_string (cvr_Error x).
Definition enc_CreateVaultResponse (x : CreateVaultResponse) : list (string * value) :=
  put "status" c_string (cvr_Status x) ++ put_string "data" (cvr_Data x)
  ++ put_string "error" (cvr_Error x).
Definition codec_CreateVaultResponse := codec_of
    (mkCreateVaultResponse EmptyString EmptyString EmptyString)
  dec_CreateVaultResponse enc_CreateVaultResponse.
#[export] Instance codec_CreateVaultResponse_ok : CodecOK always codec_CreateVaultResponse.
Proof. struct_codec. Qed.

Definition dec_CreateSubAccountResponse (x : CreateSubAccountResponse) : fields CreateSubAccountResponse :=
  fpure mkCreateSubAccountResponse <@> field "status" c_string (csr_Status x)
    <@> field "data" (c_ptr codec_SubAccount) (csr_Data x)
    <@> field "error" c_string (csr_Error x).
Definition enc_CreateSubAccountResponse (x : CreateSubAccountResponse) : list (string * value) :=
  put "status" c_string (csr_Status x) ++ put_ptr "data" codec_SubAccount (csr_Data x)
  ++ put_string "error" (csr_Error x).
Definition codec_CreateSubAccountResponse := codec_of
    (mkCreateSubAccountResponse EmptyString None EmptyString)
  dec_CreateSubAccountResponse enc_CreateSubAccountResponse.
#[export] Instance codec_CreateSubAccountResponse_ok : CodecOK always codec_CreateSubAccountResponse.
Proof. struct_codec. Qed.

Definition dec_SetReferrerResponse (x : SetReferrerResponse) : fields SetReferrerResponse :=
  fpure mkSetReferrerResponse <@> field "status" c_string (srr_Status x)
    <@> field "error" c_string (srr_Error x).
Definition enc_SetReferrerResponse (x : SetReferrerResponse) : list (string * value) :=
  put "status" c_string (srr_Status x) ++ put_string "error" (srr_Error x).
Definition codec_SetReferrerResponse := codec_of
    (mkSetReferrerResponse EmptyString EmptyString)
  dec_SetReferrerResponse enc_SetReferrerResponse.
#[export] Instance codec_SetReferrerResponse_ok : CodecOK always codec_SetReferrerResponse.
Proof. struct_codec. Qed.

Definition dec_ScheduleCancelResponse (x : ScheduleCancelResponse) : fields ScheduleCancelResponse :=
  fpure mkScheduleCancelResponse <@> field "status" c_string (scr_Status x)
    <@> field "error" c_string (scr_Error x).
Definition enc_ScheduleCancelResponse (x : ScheduleCancelResponse) : list (string * value) :=
  put "status" c_string (scr_Status x) ++ put_string "error" (scr_Error x).
Definition codec_ScheduleCancelResponse := codec_of
    (mkScheduleCancelResponse EmptyString EmptyString)
  dec_ScheduleCancelResponse enc_ScheduleCancelResponse.
#[export] Instance codec_ScheduleCancelResponse_ok : CodecOK always codec_ScheduleCancelResponse.
Proof. struct_codec. Qed.

Definition dec_AgentApprovalResponse (x : AgentApprovalResponse) : fields AgentApprovalResponse :=
  fpure mkAgentApprovalResponse <@> field "status" c_string (aar_Status x)
    <@> field "txHash" c_string (aar_TxHash x) <@> field "error" c_string (aar_Error x).
Definition enc_AgentApprovalResponse (x : AgentApprovalResponse) : list (string * value) :=
  put "status" c_string (aar_Status x) ++ put_string "txHash" (aar_TxHash x)
  ++ put_string "error" (aar_Error x).
Definition codec_AgentApprovalResponse := codec_of
    (mkAgentApprovalResponse EmptyString EmptyString EmptyString)
  dec_AgentApprovalResponse enc_AgentApprovalResponse.
#[export] Instance codec_AgentApprovalResponse_ok : CodecOK always codec_AgentApprovalResponse.
Proof. struct_codec. Qed.

Definition dec_MultiSigConversionResponse (x : MultiSigConversionResponse) : fields MultiSigConversionResponse :=
  fpure mkMultiSigConversionResponse <@> field "status" c_string (mcr_Status x)
    <@> field "txHash" c_string (mcr_TxHash x) <@> field "error" c_string (mcr_Error x).
Definition enc_MultiSigConversionResponse (x : MultiSigConversionResponse) : list (string * value) :=
  put "status" c_string (mcr_Status x) ++ put_string "txHash" (mcr_TxHash x)
  ++ put_string "error" (mcr_Error x).
Definition codec_MultiSigConversionResponse := codec_of
    (mkMultiSigConversionResponse EmptyString EmptyString EmptyString)
  dec_MultiSigConversionResponse enc_MultiSigConversionResponse.
#[export] Instance codec_MultiSigConversionResponse_ok : CodecOK always codec_MultiSigConversionResponse.
Proof. struct_codec. Qed.

Definition dec_SpotDeployResponse (x : SpotDeployResponse) : fields SpotDeployResponse :=
  fpure mkSpotDeployResponse <@> field "status" c_string (sdr_Status x)
    <@> field "txHash" c_string (sdr_TxHash x) <@> field "error" c_string (sdr_Error x).
Definition enc_SpotDeployResponse (x : SpotDeployResponse) : list (string * value) :=
  put "status" c_string (sdr_Status x) ++ put_string "txHash" (sdr_TxHash x)
  ++ put_string "error" (sdr_Error x).
Definition codec_SpotDeployResponse := codec_of
    (mkSpotDeployResponse EmptyString EmptyString EmptyString)
  dec_SpotDeployResponse enc_SpotDeployResponse.
#[export] Instance codec_SpotDeployResponse_ok : CodecOK always codec_SpotDeployResponse.
Proof. struct_codec. Qed.

Definition dec_ValidatorResponse (x : ValidatorResponse) : fields ValidatorResponse :=
  fpure mkValidatorResponse <@> field "status" c_string (vr_Status x)
    <@> field "txHash" c_string (vr_TxHash x) <@> field "error" c_string (vr_Error x).
Definition enc_ValidatorResponse (x : ValidatorResponse) : list (string * value) :=
  put "status" c_string (vr_Status x) ++ put_string "txHash" (vr_TxHash x)
  ++ put_string "error" (vr_Error x).
Definition codec_ValidatorResponse := codec_of
    (mkValidatorResponse EmptyString EmptyString EmptyString)
  dec_ValidatorResponse enc_ValidatorResponse.
#[export] Instance codec_ValidatorResponse_ok : CodecOK always codec_ValidatorResponse.
Proof. struct_codec. Qed.

Definition dec_MultiSigResponse (x : MultiSigResponse) : fields MultiSigResponse :=
  fpure mkMultiSigResponse <@> field "status" c_string (msr_Status x)
    <@> field "txHash" c_string (msr_TxHash x) <@> field "error" c_string (msr_Error x).
Definition enc_MultiSigResponse (x : MultiSigResponse) : list (string * value) :=
  put "status" c_string (msr_Status x) ++ put_string "txHash" (msr_TxHash x)
  ++ put_string "error" (msr_Error x).
Definition codec_MultiSigResponse := codec_of
    (mkMultiSigResponse EmptyString EmptyString EmptyString)
  dec_MultiSigResponse enc_MultiSigResponse.
#[export] Instance codec_MultiSigResponse_ok : CodecOK always codec_MultiSigResponse.
Proof. struct_codec. Qed.

Definition dec_TxStatus (x : TxStatus) : fields TxStatus :=
  fpure mkTxStatus <@> field "coin" c_string (tx_Coin x)
    <@> field "status" c_string (tx_Status x).
Definition enc_TxStatus (x : TxStatus) : list (string * value) :=
  put "coin" c_string (tx_Coin x) ++ put "status" c_string (tx_Status x).
Definition codec_TxStatus := codec_of
    (mkTxStatus EmptyString EmptyString)
  dec_TxStatus enc_TxStatus.
#[export] Instance codec_TxStatus_ok : CodecOK always codec_TxStatus.
Proof. struct_codec. Qed.

(** The anonymous struct of [Data]. *)
Definition dec_Statuses (x : list TxStatus) : fields (list TxStatus) :=
  fpure id <@> field "statuses" (c_list codec_TxStatus) x.
Definition enc_Statuses (x : list TxStatus) : list (string * value) :=
  put "statuses" (c_list codec_TxStatus) x.
Definition codec_Statuses := codec_of [] dec_Statuses enc_Statuses.
#[export] Instance codec_Statuses_ok : CodecOK always codec_Statuses.
Proof. struct_codec. Qed.

Definition dec_PerpDeployResponse (x : PerpDeployResponse) : fields PerpDeployResponse :=
  fpure mkPerpDeployResponse <@> field "status" c_string (pdr_Status x)
    <@> field "data" codec_Statuses (pdr_Statuses x).
Definition enc_PerpDeployResponse (x : PerpDeployResponse) : list (string * value) :=
  put "status" c_string (pdr_Status x) ++ put "data" codec_Statuses (pdr_Statuses x).
Definition codec_PerpDeployResponse :=
  codec_of (mkPerpDeployResponse EmptyString []) dec_PerpDeployResponse enc_PerpDeployResponse.
#[export] Instance codec_PerpDeployResponse_ok : CodecOK always codec_PerpDeployResponse.
Proof. struct_codec. Qed.

Definition dec_ValidationError (x : ValidationError) : fields ValidationError :=
  fpure mkValidationError <@> field "Field" c_string (verr_Field x)
    <@> field "Message" c_string (verr_Message x).
Definition enc_ValidationError (x : ValidationError) : list (string * value) :=
  put "Field" c_string (verr_Field x) ++ put "Message" c_string (verr_Message x).
Definition codec_ValidationError := codec_of
    (mkValidationError EmptyString EmptyString)
  dec_ValidationError enc_ValidationError.
#[export] Instance codec_ValidationError_ok : CodecOK always codec_ValidationError.
Proof. struct_codec. Qed.

Definition dec_APIError (x : APIError) : fields APIError :=
  fpure mkAPIError <@> field "code" c_int (apierr_Code x)
    <@> field "msg" c_string (apierr_Message x) <@> field "data" c_any (apierr_Data x).
Definition enc_APIError (x : APIError) : list (string * value) :=
  put "code" c_int (apierr_Code x) ++ put "msg" c_string (apierr_Message x)
  ++ put_any "data" (apierr_Data x).
Definition codec_APIError := codec_of (mkAPIError 0 EmptyString VNull) dec_APIError enc_APIError.

End types.
