(* ===== verification/WsCodecs.v ===== *)
(** * ws_types_easyjson.go and ws_types_remote_easyjson.go

    The structs of ws_types.go the websocket client has no use for itself, the
    subscription payloads of ws_types_remote.go, and the codecs of all of them. *)

From Stdlib Require Import ZArith.
From stdpp Require Import gmap strings list.
From S2P Require Import Prelude Float64 Models SdkTypes SdkSocket SdkClient EasyJson TypesCodecs.
Local Open Scope Z_scope.

(** ** Structs *)

Record wsMessage := mkwsMessage {
  wsm_Channel : string; wsm_Data : value;
}.

Record wsCommand := mkwsCommand {
  wsc_Method : string; wsc_Subscription : value;
}.

Record AllMids := mkAllMids {
  mids_Mids : gmap string string;
}.

Record Notification := mkNotification {
  notif_Notification : string;
}.

Record WebData2AssetInfo := mkWebData2AssetInfo {
  wai_SzDecimals : Z; wai_Name : string; wai_MaxLeverage : Z; wai_MarginTableID : Z;
  wai_IsDelisted : bool; wai_OnlyIsolated : bool;
}.

Record WebData2MarginTier := mkWebData2MarginTier {
  wmtier_LowerBound : string; wmtier_MaxLeverage : Z;
}.

Record WebData2MarginTable := mkWebData2MarginTable {
  wmt_Description : string; wmt_MarginTiers : list WebData2MarginTier;
}.

Record remoteL2BookSubscriptionPayload := mkremoteL2BookSubscriptionPayload {
  rl2_Type : string; rl2_Coin : string; rl2_NSigFigs : Z; rl2_Mantissa : Z;
}.

Record remoteTradesSubscriptionPayload := mkremoteTradesSubscriptionPayload {
  rtr_Type : string; rtr_Coin : string;
}.

Record remoteCandlesSubscriptionPayload := mkremoteCandlesSubscriptionPayload {
  rca_Type : string; rca_Coin : string; rca_Interval : string;
}.

Record remoteAllMidsSubscriptionPayload := mkremoteAllMidsSubscriptionPayload {
  ram_Type : string; ram_Dex : option string;
}.

Record remoteNotificationSubscriptionPayload := mkremoteNotificationSubscriptionPayload {
  rno_Type : string; rno_User : string;
}.

Record remoteOrderUpdatesSubscriptionPayload := mkremoteOrderUpdatesSubscriptionPayload {
  rou_Type : string; rou_User : string;
}.

Record remoteOrderFillsSubscriptionPayload := mkremoteOrderFillsSubscriptionPayload {
  rof_Type : string; rof_User : string;
}.

Record remoteWebData2SubscriptionPayload := mkremoteWebData2SubscriptionPayload {
  rwd_Type : string; rwd_User : string;
}.

Record remoteBboSubscriptionPayload := mkremoteBboSubscriptionPayload {
  rbb_Type : string; rbb_Coin : string;
}.

(** ** Codecs *)
Section ws_types.
Context `{LexerLaws}.

Definition dec_wsMessage (x : wsMessage) : fields wsMessage :=
  fpure mkwsMessage <@> field "channel" c_string (wsm_Channel x)
    <@> field "data" c_raw (wsm_Data x).
Definition enc_wsMessage (x : wsMessage) : list (string * value) :=
  put "channel" c_string (wsm_Channel x) ++ put "data" c_raw (wsm_Data x).
Definition codec_wsMessage := codec_of
    (mkwsMessage EmptyString VNull)
  dec_wsMessage enc_wsMessage.

Definition dec_wsCommand (x : wsCommand) : fields wsCommand :=
  fpure mkwsCommand <@> field "method" c_string (wsc_Method x)
    <@> field "subscription" c_any (wsc_Subscription x).
Definition enc_wsCommand (x : wsCommand) : list (string * value) :=
  put "method" c_string (wsc_Method x) ++ put_any "subscription" (wsc_Subscription x).
Definition codec_wsCommand := codec_of
    (mkwsCommand EmptyString VNull)
  dec_wsCommand enc_wsCommand.

Definition dec_Trade (x : Trade) : fields Trade :=
  fpure mkTrade <@> field "coin" c_string (trade_Coin x)
    <@> field "side" c_string (trade_Side x) <@> field "px" c_string (trade_Px x)
    <@> field "sz" c_string (trade_Sz x) <@> field "time" c_int (trade_Time x)
    <@> field "hash" c_string (trade_Hash x) <@> field "tid" c_int (trade_Tid x)
    <@> field "users" (c_list c_string) (trade_Users x).
Definition enc_Trade (x : Trade) : list (string * value) :=
  put "coin" c_string (trade_Coin x) ++ put "side" c_string (trade_Side x)
  ++ put "px" c_string (trade_Px x) ++ put "sz" c_string (trade_Sz x)
  ++ put "time" c_int (trade_Time x) ++ put "hash" c_string (trade_Hash x)
  ++ put "tid" c_int (trade_Tid x) ++ put "users" (c_list c_string) (trade_Users x).
Definition codec_Trade := codec_of
    (mkTrade EmptyString EmptyString EmptyString EmptyString 0 EmptyString 0 [])
  dec_Trade enc_Trade.
Definition ok_Trade (x : Trade) : Prop :=
  in_int64 (trade_Time x) /\ in_int64 (trade_Tid x).
#[export] Instance codec_Trade_ok : CodecOK ok_Trade codec_Trade.
Proof. struct_codec. Qed.

Definition dec_AllMids (x : AllMids) : fields AllMids :=
  fpure mkAllMids <@> field "mids" (c_map c_string) (mids_Mids x).
Definition enc_AllMids (x : AllMids) : list (string * value) :=
  put "mids" (c_map c_string) (mids_Mids x).
Definition codec_AllMids := codec_of (mkAllMids ∅) dec_AllMids enc_AllMids.
#[export] Instance codec_AllMids_ok : CodecOK always codec_AllMids.
Proof. struct_codec. Qed.

Definition dec_Notification (x : Notification) : fields Notification :=
  fpure mkNotification <@> field "notification" c_string (notif_Notification x).
Definition enc_Notification (x : Notification) : list (string * value) :=
  put "notification" c_string (notif_Notification x).
Definition codec_Notification := codec_of
    (mkNotification EmptyString)
  dec_Notification enc_Notification.
#[export] Instance codec_Notification_ok : CodecOK always codec_Notification.
Proof. struct_codec. Qed.

Definition dec_WebData2AssetInfo (x : WebData2AssetInfo) : fields WebData2AssetInfo :=
  fpure mkWebData2AssetInfo <@> field "szDecimals" c_int (wai_SzDecimals x)
    <@> field "name" c_string (wai_Name x) <@> field "maxLeverage" c_int (wai_MaxLeverage x)
    <@> field "marginTableId" c_int (wai_MarginTableID x)
    <@> field "isDelisted" c_bool (wai_IsDelisted x)
    <@> field "onlyIsolated" c_bool (wai_OnlyIsolated x).
Definition enc_WebData2AssetInfo (x : WebData2AssetInfo) : list (string * value) :=
  put_int "szDecimals" (wai_SzDecimals x) ++ put_string "name" (wai_Name x)
  ++ put_int "maxLeverage" (wai_MaxLeverage x) ++ put_int "marginTableId" (wai_MarginTableID x)
  ++ put_bool "isDelisted" (wai_IsDelisted x) ++ put_bool "onlyIsolated" (wai_OnlyIsolated x).
Definition codec_WebData2AssetInfo := codec_of
    (mkWebData2AssetInfo 0 EmptyString 0 0 false false)
  dec_WebData2AssetInfo enc_WebData2AssetInfo.
Definition ok_WebData2AssetInfo (x : WebData2AssetInfo) : Prop :=
  in_int64 (wai_SzDecimals x) /\ in_int64 (wai_MaxLeverage x) /\ in_int64 (wai_MarginTableID x).
#[export] Instance codec_WebData2AssetInfo_ok : CodecOK ok_WebData2AssetInfo codec_WebData2AssetInfo.
Proof. struct_codec. Qed.

Definition dec_WebData2MarginTier (x : WebData2MarginTier) : fields WebData2MarginTier :=
  fpure mkWebData2MarginTier <@> field "lowerBound" c_string (wmtier_LowerBound x)
    <@> field "maxLeverage" c_int (wmtier_MaxLeverage x).
Definition enc_WebData2MarginTier (x : WebData2MarginTier) : list (string * value) :=
  put_string "lowerBound" (wmtier_LowerBound x) ++ put_int "maxLeverage" (wmtier_MaxLeverage x).
Definition codec_WebData2MarginTier := codec_of
    (mkWebData2MarginTier EmptyString 0)
  dec_WebData2MarginTier enc_WebData2MarginTier.
Definition ok_WebData2MarginTier (x : WebData2MarginTier) : Prop :=
  in_int64 (wmtier_MaxLeverage x).
#[export] Instance codec_WebData2MarginTier_ok : CodecOK ok_WebData2MarginTier codec_WebData2MarginTier.
Proof. struct_codec. Qed.

Definition dec_WebData2MarginTable (x : WebData2MarginTable) : fields WebData2MarginTable :=
  fpure mkWebData2MarginTable <@> field "description" c_string (wmt_Description x)
    <@> field "marginTiers" (c_list codec_WebData2MarginTier) (wmt_MarginTiers x).
Definition enc_WebData2MarginTable (x : WebData2MarginTable) : list (string * value) :=
  put_string "description" (wmt_Description x)
  ++ put_list "marginTiers" codec_WebData2MarginTier (wmt_MarginTiers x).
Definition codec_WebData2MarginTable := codec_of
    (mkWebData2MarginTable EmptyString [])
  dec_WebData2MarginTable enc_WebData2MarginTable.
Definition ok_WebData2MarginTable (x : WebData2MarginTable) : Prop :=
  (Forall ok_WebData2MarginTier) (wmt_MarginTiers x).
#[export] Instance codec_WebData2MarginTable_ok : CodecOK ok_WebData2MarginTable codec_WebData2MarginTable.
Proof. struct_codec. Qed.

Definition dec_ClearinghouseState (x : ClearinghouseState) : fields ClearinghouseState :=
  fpure mkClearinghouseState
    <@> field "marginSummary" (c_ptr codec_MarginSummary) (ch_MarginSummary x)
    <@> field "crossMarginSummary" (c_ptr codec_MarginSummary) (ch_CrossMarginSummary x)
    <@> field "crossMaintenanceMarginUsed" c_string (ch_CrossMaintenanceMarginUsed x)
    <@> field "withdrawable" c_string (ch_Withdrawable x)
    <@> field "assetPositions" (c_list codec_AssetPosition) (ch_AssetPositions x)
    <@> field "time" c_int (ch_Time x).
Definition enc_ClearinghouseState (x : ClearinghouseState) : list (string * value) :=
  put_ptr "marginSummary" codec_MarginSummary (ch_MarginSummary x)
  ++ put_ptr "crossMarginSummary" codec_MarginSummary (ch_CrossMarginSummary x)
  ++ put_string "crossMaintenanceMarginUsed" (ch_CrossMaintenanceMarginUsed x)
  ++ put_string "withdrawable" (ch_Withdrawable x)
  ++ put_list "assetPositions" codec_AssetPosition (ch_AssetPositions x)
  ++ put_int "time" (ch_Time x).
Definition codec_ClearinghouseState := codec_of
    (mkClearinghouseState None None EmptyString EmptyString [] 0)
  dec_ClearinghouseState enc_ClearinghouseState.
Definition ok_ClearinghouseState (x : ClearinghouseState) : Prop :=
  (Forall ok_AssetPosition) (ch_AssetPositions x) /\ in_int64 (ch_Time x).
#[export] Instance codec_ClearinghouseState_ok : CodecOK ok_ClearinghouseState codec_ClearinghouseState.
Proof. struct_codec. Qed.

Definition dec_SpotState (x : SpotState) : fields SpotState :=
  fpure mkSpotState <@> field "balances" (c_list codec_SpotBalance) (ss_Balances x).
Definition enc_SpotState (x : SpotState) : list (string * value) :=
  put_list "balances" codec_SpotBalance (ss_Balances x).
Definition codec_SpotState := codec_of (mkSpotState []) dec_SpotState enc_SpotState.
Definition ok_SpotState (x : SpotState) : Prop :=
  (Forall ok_SpotBalance) (ss_Balances x).
#[export] Instance codec_SpotState_ok : CodecOK ok_SpotState codec_SpotState.
Proof. struct_codec. Qed.

Definition dec_WsBasicOrder (x : WsBasicOrder) : fields WsBasicOrder :=
  fpure mkWsBasicOrder <@> field "coin" c_string (bo_Coin x)
    <@> field "side" c_string (bo_Side x) <@> field "limitPx" c_string (bo_LimitPx x)
    <@> field "sz" c_string (bo_Sz x) <@> field "oid" c_int (bo_Oid x)
    <@> field "timestamp" c_int (bo_Timestamp x) <@> field "origSz" c_string (bo_OrigSz x)
    <@> field "cloid" (c_ptr c_string) (bo_Cloid x).
Definition enc_WsBasicOrder (x : WsBasicOrder) : list (string * value) :=
  put "coin" c_string (bo_Coin x) ++ put "side" c_string (bo_Side x)
  ++ put "limitPx" c_string (bo_LimitPx x) ++ put "sz" c_string (bo_Sz x)
  ++ put "oid" c_int (bo_Oid x) ++ put "timestamp" c_int (bo_Timestamp x)
  ++ put "origSz" c_string (bo_OrigSz x) ++ put "cloid" (c_ptr c_string) (bo_Cloid x).
Definition codec_WsBasicOrder := codec_of
    (mkWsBasicOrder EmptyString EmptyString EmptyString EmptyString 0 0 EmptyString None)
  dec_WsBasicOrder enc_WsBasicOrder.
Definition ok_WsBasicOrder (x : WsBasicOrder) : Prop :=
  in_int64 (bo_Oid x) /\ in_int64 (bo_Timestamp x).
#[export] Instance codec_WsBasicOrder_ok : CodecOK ok_WsBasicOrder codec_WsBasicOrder.
Proof. struct_codec. Qed.

Definition dec_WsOrder (x : WsOrder) : fields WsOrder :=
  fpure mkWsOrder <@> field "order" codec_WsBasicOrder (wo_Order x)
    <@> field "status" c_string (wo_Status x)
    <@> field "statusTimestamp" c_int (wo_StatusTimestamp x).
Definition enc_WsOrder (x : WsOrder) : list (string * value) :=
  put "order" codec_WsBasicOrder (wo_Order x) ++ put "status" c_string (wo_Status x)
  ++ put "statusTimestamp" c_int (wo_StatusTimestamp x).
Definition codec_WsOrder := codec_of
    (mkWsOrder (c_zero codec_WsBasicOrder) EmptyString 0)
  dec_WsOrder enc_WsOrder.
Definition ok_WsOrder (x : WsOrder) : Prop :=
  ok_WsBasicOrder (wo_Order x) /\ in_int64 (wo_StatusTimestamp x).
#[export] Instance codec_WsOrder_ok : CodecOK ok_WsOrder codec_WsOrder.
Proof. struct_codec. Qed.

Definition dec_FillLiquidation (x : FillLiquidation) : fields FillLiquidation :=
  fpure mkFillLiquidation <@> field "liquidatedUser" (c_ptr c_string) (liq_LiquidatedUser x)
    <@> field "markPx" c_string (liq_MarkPx x) <@> field "method" c_string (liq_Method x).
Definition enc_FillLiquidation (x : FillLiquidation) : list (string * value) :=
  put_ptr "liquidatedUser" c_string (liq_LiquidatedUser x)
  ++ put "markPx" c_string (liq_MarkPx x) ++ put "method" c_string (liq_Method x).
Definition codec_FillLiquidation := codec_of
    (mkFillLiquidation None EmptyString EmptyString)
  dec_FillLiquidation enc_FillLiquidation.
#[export] Instance codec_FillLiquidation_ok : CodecOK always codec_FillLiquidation.
Proof. struct_codec. Qed.

Definition dec_WsOrderFill (x : WsOrderFill) : fields WsOrderFill :=
  fpure mkWsOrderFill <@> field "coin" c_string (fill_Coin x)
    <@> field "px" c_string (fill_Px x) <@> field "sz" c_string (fill_Sz x)
    <@> field "side" c_string (fill_Side x) <@> field "time" c_int (fill_Time x)
    <@> field "startPosition" c_string (fill_StartPosition x)
    <@> field "dir" c_string (fill_Dir x) <@> field "closedPnl" c_string (fill_ClosedPnl x)
    <@> field "hash" c_string (fill_Hash x) <@> field "oid" c_int (fill_Oid x)
    <@> field "crossed" c_bool (fill_Crossed x) <@> field "fee" c_string (fill_Fee x)
    <@> field "tid" c_int (fill_Tid x)
    <@> field "liquidation" (c_ptr codec_FillLiquidation) (fill_Liquidation x)
    <@> field "feeToken" c_string (fill_FeeToken x)
    <@> field "builderFee" (c_ptr c_string) (fill_BuilderFee x).
Definition enc_WsOrderFill (x : WsOrderFill) : list (string * value) :=
  put "coin" c_string (fill_Coin x) ++ put "px" c_string (fill_Px x)
  ++ put "sz" c_string (fill_Sz x) ++ put "side" c_string (fill_Side x)
  ++ put "time" c_int (fill_Time x) ++ put "startPosition" c_string (fill_StartPosition x)
  ++ put "dir" c_string (fill_Dir x) ++ put "closedPnl" c_string (fill_ClosedPnl x)
  ++ put "hash" c_string (fill_Hash x) ++ put "oid" c_int (fill_Oid x)
  ++ put "crossed" c_bool (fill_Crossed x) ++ put "fee" c_string (fill_Fee x)
  ++ put "tid" c_int (fill_Tid x)
  ++ put_ptr "liquidation" codec_FillLiquidation (fill_Liquidation x)
  ++ put "feeToken" c_string (fill_FeeToken x)
  ++ put_ptr "builderFee" c_string (fill_BuilderFee x).
Definition codec_WsOrderFill := codec_of
    (mkWsOrderFill EmptyString EmptyString EmptyString EmptyString 0 EmptyString EmptyString
     EmptyString EmptyString 0 false EmptyString 0 None EmptyString None)
  dec_WsOrderFill enc_WsOrderFill.
Definition ok_WsOrderFill (x : WsOrderFill) : Prop :=
  in_int64 (fill_Time x) /\ in_int64 (fill_Oid x) /\ in_int64 (fill_Tid x).
#[export] Instance codec_WsOrderFill_ok : CodecOK ok_WsOrderFill codec_WsOrderFill.
Proof. struct_codec. Qed.

Definition dec_WsOrderFills (x : WsOrderFills) : fields WsOrderFills :=
  fpure mkWsOrderFills <@> field "isSnapshot" c_bool (fills_IsSnapshot x)
    <@> field "user" c_string (fills_User x)
    <@> field "fills" (c_list codec_WsOrderFill) (fills_Fills x).
Definition enc_WsOrderFills (x : WsOrderFills) : list (string * value) :=
  put "isSnapshot" c_bool (fills_IsSnapshot x) ++ put "user" c_string (fills_User x)
  ++ put "fills" (c_list codec_WsOrderFill) (fills_Fills x).
Definition codec_WsOrderFills := codec_of
    (mkWsOrderFills false EmptyString [])
  dec_WsOrderFills enc_WsOrderFills.
Definition ok_WsOrderFills (x : WsOrderFills) : Prop :=
  (Forall ok_WsOrderFill) (fills_Fills x).
#[export] Instance codec_WsOrderFills_ok : CodecOK ok_WsOrderFills codec_WsOrderFills.
Proof. struct_codec. Qed.

Definition dec_Level (x : Level) : fields Level :=
  fpure mkLevel <@> field "n" c_int (level_N x) <@> field "px" c_float_str (level_Px x)
    <@> field "sz" c_float_str (level_Sz x).
Definition enc_Level (x : Level) : list (string * value) :=
  put "n" c_int (level_N x) ++ put "px" c_float_str (level_Px x)
  ++ put "sz" c_float_str (level_Sz x).
Definition codec_Level := codec_of (mkLevel 0 f0 f0) dec_Level enc_Level.
Definition ok_Level (x : Level) : Prop :=
  in_int64 (level_N x) /\ f64_finite (level_Px x) /\ f64_finite (level_Sz x).
#[export] Instance codec_Level_ok : CodecOK ok_Level codec_Level.
Proof. struct_codec. Qed.

Definition dec_L2Book (x : L2Book) : fields L2Book :=
  fpure mkL2Book <@> field "coin" c_string (l2_Coin x)
    <@> field "levels" (c_list (c_list codec_Level)) (l2_Levels x)
    <@> field "time" c_int (l2_Time x).
Definition enc_L2Book (x : L2Book) : list (string * value) :=
  put "coin" c_string (l2_Coin x) ++ put "levels" (c_list (c_list codec_Level)) (l2_Levels x)
  ++ put "time" c_int (l2_Time x).
Definition codec_L2Book := codec_of (mkL2Book EmptyString [] 0) dec_L2Book enc_L2Book.
Definition ok_L2Book (x : L2Book) : Prop :=
  (Forall (Forall ok_Level)) (l2_Levels x) /\ in_int64 (l2_Time x).
#[export] Instance codec_L2Book_ok : CodecOK ok_L2Book codec_L2Book.
Proof. struct_codec. Qed.

Definition dec_Bbo (x : Bbo) : fields Bbo :=
  fpure mkBbo <@> field "coin" c_string (bbo_Coin x) <@> field "time" c_int (bbo_Time x)
    <@> field "bbo" (c_list codec_Level) (bbo_Bbo x).
Definition enc_Bbo (x : Bbo) : list (string * value) :=
  put "coin" c_string (bbo_Coin x) ++ put "time" c_int (bbo_Time x)
  ++ put "bbo" (c_list codec_Level) (bbo_Bbo x).
Definition codec_Bbo := codec_of (mkBbo EmptyString 0 []) dec_Bbo enc_Bbo.
Definition ok_Bbo (x : Bbo) : Prop :=
  in_int64 (bbo_Time x) /\ (Forall ok_Level) (bbo_Bbo x).
#[export] Instance codec_Bbo_ok : CodecOK ok_Bbo codec_Bbo.
Proof. struct_codec. Qed.

Definition dec_Candle (x : Candle) : fields Candle :=
  fpure mkCandle <@> field "T" c_int (candle_Timestamp x)
    <@> field "c" c_string (candle_Close x) <@> field "h" c_string (candle_High x)
    <@> field "i" c_string (candle_Interval x) <@> field "l" c_string (candle_Low x)
    <@> field "n" c_int (candle_Number x) <@> field "o" c_string (candle_Open x)
    <@> field "s" c_string (candle_Symbol x) <@> field "t" c_int (candle_Time x)
    <@> field "v" c_string (candle_Volume x).
Definition enc_Candle (x : Candle) : list (string * value) :=
  put "T" c_int (candle_Timestamp x) ++ put "c" c_string (candle_Close x)
  ++ put "h" c_string (candle_High x) ++ put "i" c_string (candle_Interval x)
  ++ put "l" c_string (candle_Low x) ++ put "n" c_int (candle_Number x)
  ++ put "o" c_string (candle_Open x) ++ put "s" c_string (candle_Symbol x)
  ++ put "t" c_int (candle_Time x) ++ put "v" c_string (candle_Volume x).
Definition codec_Candle := codec_of
    (mkCandle 0 EmptyString EmptyString EmptyString EmptyString 0 EmptyString EmptyString 0
     EmptyString)
  dec_Candle enc_Candle.
Definition ok_Candle (x : Candle) : Prop :=
  in_int64 (candle_Timestamp x) /\ in_int64 (candle_Number x) /\ in_int64 (candle_Time x).
#[export] Instance codec_Candle_ok : CodecOK ok_Candle codec_Candle.
Proof. struct_codec. Qed.

Definition dec_remoteL2BookSubscriptionPayload (x : remoteL2BookSubscriptionPayload) : fields remoteL2BookSubscriptionPayload :=
  fpure mkremoteL2BookSubscriptionPayload <@> field "type" c_string (rl2_Type x)
    <@> field "coin" c_string (rl2_Coin x) <@> field "nSigFigs" c_int (rl2_NSigFigs x)
    <@> field "mantissa" c_int (rl2_Mantissa x).
Definition enc_remoteL2BookSubscriptionPayload (x : remoteL2BookSubscriptionPayload) : list (string * value) :=
  put "type" c_string (rl2_Type x) ++ put "coin" c_string (rl2_Coin x)
  ++ put_int "nSigFigs" (rl2_NSigFigs x) ++ put_int "mantissa" (rl2_Mantissa x).
Definition codec_remoteL2BookSubscriptionPayload := codec_of
    (mkremoteL2BookSubscriptionPayload EmptyString EmptyString 0 0)
  dec_remoteL2BookSubscriptionPayload enc_remoteL2BookSubscriptionPayload.
Definition ok_remoteL2BookSubscriptionPayload (x : remoteL2BookSubscriptionPayload) : Prop :=
  in_int64 (rl2_NSigFigs x) /\ in_int64 (rl2_Mantissa x).
#[export] Instance codec_remoteL2BookSubscriptionPayload_ok : CodecOK ok_remoteL2BookSubscriptionPayload codec_remoteL2BookSubscriptionPayload.
Proof. struct_codec. Qed.

Definition dec_remoteTradesSubscriptionPayload (x : remoteTradesSubscriptionPayload) : fields remoteTradesSubscriptionPayload :=
  fpure mkremoteTradesSubscriptionPayload <@> field "type" c_string (rtr_Type x)
    <@> field "coin" c_string (rtr_Coin x).
Definition enc_remoteTradesSubscriptionPayload (x : remoteTradesSubscriptionPayload) : list (string * value) :=
  put "type" c_string (rtr_Type x) ++ put "coin" c_string (rtr_Coin x).
Definition codec_remoteTradesSubscriptionPayload := codec_of
    (mkremoteTradesSubscriptionPayload EmptyString EmptyString)
  dec_remoteTradesSubscriptionPayload enc_remoteTradesSubscriptionPayload.
#[export] Instance codec_remoteTradesSubscriptionPayload_ok : CodecOK always codec_remoteTradesSubscriptionPayload.
Proof. struct_codec. Qed.

Definition dec_remoteCandlesSubscriptionPayload (x : remoteCandlesSubscriptionPayload) : fields remoteCandlesSubscriptionPayload :=
  fpure mkremoteCandlesSubscriptionPayload <@> field "type" c_string (rca_Type x)
    <@> field "coin" c_string (rca_Coin x) <@> field "interval" c_string (rca_Interval x).
Definition enc_remoteCandlesSubscriptionPayload (x : remoteCandlesSubscriptionPayload) : list (string * value) :=
  put "type" c_string (rca_Type x) ++ put "coin" c_string (rca_Coin x)
  ++ put "interval" c_string (rca_Interval x).
Definition codec_remoteCandlesSubscriptionPayload := codec_of
    (mkremoteCandlesSubscriptionPayload EmptyString EmptyString EmptyString)
  dec_remoteCandlesSubscriptionPayload enc_remoteCandlesSubscriptionPayload.
#[export] Instance codec_remoteCandlesSubscriptionPayload_ok : CodecOK always codec_remoteCandlesSubscriptionPayload.
Proof. struct_codec. Qed.

Definition dec_remoteAllMidsSubscriptionPayload (x : remoteAllMidsSubscriptionPayload) : fields remoteAllMidsSubscriptionPayload :=
  fpure mkremoteAllMidsSubscriptionPayload <@> field "type" c_string (ram_Type x)
    <@> field "dex" (c_ptr c_string) (ram_Dex x).
Definition enc_remoteAllMidsSubscriptionPayload (x : remoteAllMidsSubscriptionPayload) : list (string * value) :=
  put "type" c_string (ram_Type x) ++ put_ptr "dex" c_string (ram_Dex x).
Definition codec_remoteAllMidsSubscriptionPayload := codec_of
    (mkremoteAllMidsSubscriptionPayload EmptyString None)
  dec_remoteAllMidsSubscriptionPayload enc_remoteAllMidsSubscriptionPayload.
#[export] Instance codec_remoteAllMidsSubscriptionPayload_ok : CodecOK always codec_remoteAllMidsSubscriptionPayload.
Proof. struct_codec. Qed.

Definition dec_remoteNotificationSubscriptionPayload (x : remoteNotificationSubscriptionPayload) : fields remoteNotificationSubscriptionPayload :=
  fpure mkremoteNotificationSubscriptionPayload <@> field "type" c_string (rno_Type x)
    <@> field "user" c_string (rno_User x).
Definition enc_remoteNotificationSubscriptionPayload (x : remoteNotificationSubscriptionPayload) : list (string * value) :=
  put "type" c_string (rno_Type x) ++ put "user" c_string (rno_User x).
Definition codec_remoteNotificationSubscriptionPayload := codec_of
    (mkremoteNotificationSubscriptionPayload EmptyString EmptyString)
  dec_remoteNotificationSubscriptionPayload enc_remoteNotificationSubscriptionPayload.
#[export] Instance codec_remoteNotificationSubscriptionPayload_ok : CodecOK always codec_remoteNotificationSubscriptionPayload.
Proof. struct_codec. Qed.

Definition dec_remoteOrderUpdatesSubscriptionPayload (x : remoteOrderUpdatesSubscriptionPayload) : fields remoteOrderUpdatesSubscriptionPayload :=
  fpure mkremoteOrderUpdatesSubscriptionPayload <@> field "type" c_string (rou_Type x)
    <@> field "user" c_string (rou_User x).
Definition enc_remoteOrderUpdatesSubscriptionPayload (x : remoteOrderUpdatesSubscriptionPayload) : list (string * value) :=
  put "type" c_string (rou_Type x) ++ put "user" c_string (rou_User x).
Definition codec_remoteOrderUpdatesSubscriptionPayload := codec_of
    (mkremoteOrderUpdatesSubscriptionPayload EmptyString EmptyString)
  dec_remoteOrderUpdatesSubscriptionPayload enc_remoteOrderUpdatesSubscriptionPayload.
#[export] Instance codec_remoteOrderUpdatesSubscriptionPayload_ok : CodecOK always codec_remoteOrderUpdatesSubscriptionPayload.
Proof. struct_codec. Qed.

Definition dec_remoteOrderFillsSubscriptionPayload (x : remoteOrderFillsSubscriptionPayload) : fields remoteOrderFillsSubscriptionPayload :=
  fpure mkremoteOrderFillsSubscriptionPayload <@> field "type" c_string (rof_Type x)
    <@> field "user" c_string (rof_User x).
Definition enc_remoteOrderFillsSubscriptionPayload (x : remoteOrderFillsSubscriptionPayload) : list (string * value) :=
  put "type" c_string (rof_Type x) ++ put "user" c_string (rof_User x).
Definition codec_remoteOrderFillsSubscriptionPayload := codec_of
    (mkremoteOrderFillsSubscriptionPayload EmptyString EmptyString)
  dec_remoteOrderFillsSubscriptionPayload enc_remoteOrderFillsSubscriptionPayload.
#[export] Instance codec_remoteOrderFillsSubscriptionPayload_ok : CodecOK always codec_remoteOrderFillsSubscriptionPayload.
Proof. struct_codec. Qed.

Definition dec_remoteWebData2SubscriptionPayload (x : remoteWebData2SubscriptionPayload) : fields remoteWebData2SubscriptionPayload :=
  fpure mkremoteWebData2SubscriptionPayload <@> field "type" c_string (rwd_Type x)
    <@> field "user" c_string (rwd_User x).
Definition enc_remoteWebData2SubscriptionPayload (x : remoteWebData2SubscriptionPayload) : list (string * value) :=
  put "type" c_string (rwd_Type x) ++ put "user" c_string (rwd_User x).
Definition codec_remoteWebData2SubscriptionPayload := codec_of
    (mkremoteWebData2SubscriptionPayload EmptyString EmptyString)
  dec_remoteWebData2SubscriptionPayload enc_remoteWebData2SubscriptionPayload.
#[export] Instance codec_remoteWebData2SubscriptionPayload_ok : CodecOK always codec_remoteWebData2SubscriptionPayload.
Proof. struct_codec. Qed.

Definition dec_remoteBboSubscriptionPayload (x : remoteBboSubscriptionPayload) : fields remoteBboSubscriptionPayload :=
  fpure mkremoteBboSubscriptionPayload <@> field "type" c_string (rbb_Type x)
    <@> field "coin" c_string (rbb_Coin x).
Definition enc_remoteBboSubscriptionPayload (x : remoteBboSubscriptionPayload) : list (string * value) :=
  put "type" c_string (rbb_Type x) ++ put "coin" c_string (rbb_Coin x).
Definition codec_remoteBboSubscriptionPayload := codec_of
    (mkremoteBboSubscriptionPayload EmptyString EmptyString)
  dec_remoteBboSubscriptionPayload enc_remoteBboSubscriptionPayload.
#[export] Instance codec_remoteBboSubscriptionPayload_ok : CodecOK always codec_remoteBboSubscriptionPayload.
Proof. struct_codec. Qed.

End ws_types.

(** ** The fills of an account *)
Section fills.
Context `{LexerLaws}.

(** C19. A fills message with 64-bit times and numbers is read back from its JSON
    exactly as it was written: snapshot flag, user, and every fill in its order
    with its sixteen fields, absent liquidations and builder fees included. *)
Theorem WsOrderFills_roundtrip (x : WsOrderFills) (Hx : ok_WsOrderFills x) :
  c_dec codec_WsOrderFills (c_zero codec_WsOrderFills) (c_enc codec_WsOrderFills x) = inl x.
Proof. exact (codec_ok x Hx). Qed.

(** The order in which the exchange writes the keys of a fill, or adds keys
    this client does not know, does not matter: from an object without
    repeated keys, every permutation of its entries reads the same fill. *)
Theorem WsOrderFill_key_order (old x : WsOrderFill) (es es' : list (string * value))
    (Hkeys : NoDup es.*1) (Hperm : es ≡ₚ es')
    (Hread : c_dec codec_WsOrderFill old (VMap es) = inl x) :
  c_dec codec_WsOrderFill old (VMap es') = inl x.
Proof. exact (struct_key_order _ dec_WsOrderFill _ old es es' x Hkeys Hperm Hread). Qed.
End fills.

Definition sample_fill : WsOrderFill :=
  mkWsOrderFill "ETH" "1800.5" "0.25" "B" 1700000000000 "0.0" "Open Long" "0.0" "0xab" 77 true "0.1" 9
    None "USDC" (Some "0.01").
Definition sample_fills : WsOrderFills := mkWsOrderFills true "0xuser" [sample_fill].

Lemma sample_fills_ok : ok_WsOrderFills sample_fills.
Proof. repeat constructor; vm_compute; discriminate. Qed.

Lemma WsOrderFills_roundtrip_witness :
  c_dec (@codec_WsOrderFills reference_lexer) (mkWsOrderFills false EmptyString [])
    (c_enc (@codec_WsOrderFills reference_lexer) sample_fills) = inl sample_fills.
Proof. exact (@WsOrderFills_roundtrip reference_lexer reference_lexer_laws sample_fills sample_fills_ok). Defined.

(** The sample fill with its keys in reverse and one the client does not know. *)
Definition sample_entries : list (string * value) :=
  ("cloid", VNull) :: @enc_WsOrderFill reference_lexer sample_fill.

Lemma WsOrderFill_key_order_witness :
  c_dec (@codec_WsOrderFill reference_lexer) (c_zero (@codec_WsOrderFill reference_lexer))
    (VMap (rev sample_entries)) = inl sample_fill.
Proof.
  apply (@WsOrderFill_key_order reference_lexer _ sample_fill sample_entries (rev sample_entries)).
  - apply (bool_decide_unpack _). vm_compute. exact I.
  - apply Permutation_rev.
  - vm_compute. reflexivity.
Defined.
