(* ===== verification/SdkDecoders.v ===== *)
(** * Decoding responses

    [json.Unmarshal] into the types the client reads: a struct through its
    generated [UnmarshalJSON], a slice or a map of them through encoding/json,
    which stops at the first error. *)

From Stdlib Require Import ZArith.
From stdpp Require Import gmap strings list.
From S2P Require Import Prelude Float64 Models SdkTypes SdkSocket SdkClient EasyJson TypesCodecs WsCodecs.
Local Open Scope Z_scope.

(** A struct type with a generated codec, and its name in the texts of errors. *)
Class GoStruct (A : Type) := { go_name : string; go_codec : codec A }.
Arguments go_name A {_}.

Fixpoint decode_elements {A} (dec : value -> A + string) (l : list value) : list A + string :=
  match l with
  | [] => inl []
  | v :: l =>
      match dec v with
      | inr err => inr err
      | inl a => map_inl (cons a) (decode_elements dec l)
      end
  end.

Section decoders.
Context `{Json}.

(** A slice, whose Go type is [t]. *)
Definition json_slice {A} (t : string) (dec : value -> A + string) (v : value) : list A + string :=
  match v with
  | VNull => inl []
  | VArray l => decode_elements dec l
  | _ => inr (json_type_error v t)
  end.

(** A string: null leaves the zero value. *)
Definition json_string (v : value) : string + string :=
  match v with
  | VNull => inl EmptyString
  | VString s => inl s
  | _ => inr (json_type_error v "string")
  end.

Fixpoint decode_string_entries (es : list (string * value)) (m : gmap string string)
    : gmap string string + string :=
  match es with
  | [] => inl m
  | (k, v) :: es =>
      match json_string v with
      | inr err => inr err
      | inl s => decode_string_entries es (<[k := s]> m)
      end
  end.

(** A [map[string]string]. *)
Definition json_string_map (v : value) : gmap string string + string :=
  match v with
  | VNull => inl ∅
  | VMap es => decode_string_entries es ∅
  | _ => inr (json_type_error v "map[string]string")
  end.

Definition json_struct {A} `{GoStruct A} (v : value) : A + string :=
  c_dec go_codec (c_zero go_codec) v.

#[export] Instance decoder_struct {A} `{GoStruct A} : Decoder A := {| decode := json_struct |}.
#[export] Instance decoder_slice {A} `{GoStruct A} : Decoder (list A) := {|
  decode := json_slice ("[]hyperliquid." +:+ go_name A) json_struct
|}.
#[export] Instance decoder_strings : Decoder (list string) := {|
  decode := json_slice "[]string" json_string
|}.
#[export] Instance decoder_string_map : Decoder (gmap string string) := {| decode := json_string_map |}.
End decoders.

(** ** The structs that are decoded *)
Section structs.
Context `{Lexer}.

#[export] Instance go_APIError : GoStruct APIError := {| go_name := "APIError"; go_codec := codec_APIError |}.
#[export] Instance go_AssetInfo : GoStruct AssetInfo := {| go_name := "AssetInfo"; go_codec := codec_AssetInfo |}.
#[export] Instance go_MarginTier : GoStruct MarginTier := {| go_name := "MarginTier"; go_codec := codec_MarginTier |}.
#[export] Instance go_SpotMeta : GoStruct SpotMeta := {| go_name := "SpotMeta"; go_codec := codec_SpotMeta |}.
#[export] Instance go_UserState : GoStruct UserState := {| go_name := "UserState"; go_codec := codec_UserState |}.
#[export] Instance go_SpotUserState : GoStruct SpotUserState := {| go_name := "SpotUserState"; go_codec := codec_SpotUserState |}.
#[export] Instance go_OpenOrder : GoStruct OpenOrder := {| go_name := "OpenOrder"; go_codec := codec_OpenOrder |}.
#[export] Instance go_FrontendOpenOrder : GoStruct FrontendOpenOrder := {| go_name := "FrontendOpenOrder"; go_codec := codec_FrontendOpenOrder |}.
#[export] Instance go_Fill : GoStruct Fill := {| go_name := "Fill"; go_codec := codec_Fill |}.
#[export] Instance go_AssetCtx : GoStruct AssetCtx := {| go_name := "AssetCtx"; go_codec := codec_AssetCtx |}.
#[export] Instance go_SpotAssetCtx : GoStruct SpotAssetCtx := {| go_name := "SpotAssetCtx"; go_codec := codec_SpotAssetCtx |}.
#[export] Instance go_FundingHistory : GoStruct FundingHistory := {| go_name := "FundingHistory"; go_codec := codec_FundingHistory |}.
#[export] Instance go_UserFundingHistory : GoStruct UserFundingHistory := {| go_name := "UserFundingHistory"; go_codec := codec_UserFundingHistory |}.
#[export] Instance go_L2Book : GoStruct L2Book := {| go_name := "L2Book"; go_codec := codec_L2Book |}.
#[export] Instance go_Candle : GoStruct Candle := {| go_name := "Candle"; go_codec := codec_Candle |}.
#[export] Instance go_UserFees : GoStruct UserFees := {| go_name := "UserFees"; go_codec := codec_UserFees |}.
#[export] Instance go_UserActiveAssetData : GoStruct UserActiveAssetData := {| go_name := "UserActiveAssetData"; go_codec := codec_UserActiveAssetData |}.
#[export] Instance go_StakingSummary : GoStruct StakingSummary := {| go_name := "StakingSummary"; go_codec := codec_StakingSummary |}.
#[export] Instance go_StakingDelegation : GoStruct StakingDelegation := {| go_name := "StakingDelegation"; go_codec := codec_StakingDelegation |}.
#[export] Instance go_StakingReward : GoStruct StakingReward := {| go_name := "StakingReward"; go_codec := codec_StakingReward |}.
#[export] Instance go_OrderQueryResult : GoStruct OrderQueryResult := {| go_name := "OrderQueryResult"; go_codec := codec_OrderQueryResult |}.
#[export] Instance go_ReferralState : GoStruct ReferralState := {| go_name := "ReferralState"; go_codec := codec_ReferralState |}.
#[export] Instance go_SubAccount : GoStruct SubAccount := {| go_name := "SubAccount"; go_codec := codec_SubAccount |}.
#[export] Instance go_MultiSigSigner : GoStruct MultiSigSigner := {| go_name := "MultiSigSigner"; go_codec := codec_MultiSigSigner |}.
#[export] Instance go_TransferResponse : GoStruct TransferResponse := {| go_name := "TransferResponse"; go_codec := codec_TransferResponse |}.
#[export] Instance go_ApprovalResponse : GoStruct ApprovalResponse := {| go_name := "ApprovalResponse"; go_codec := codec_ApprovalResponse |}.
#[export] Instance go_CreateVaultResponse : GoStruct CreateVaultResponse := {| go_name := "CreateVaultResponse"; go_codec := codec_CreateVaultResponse |}.
#[export] Instance go_CreateSubAccountResponse : GoStruct CreateSubAccountResponse := {| go_name := "CreateSubAccountResponse"; go_codec := codec_CreateSubAccountResponse |}.
#[export] Instance go_SetReferrerResponse : GoStruct SetReferrerResponse := {| go_name := "SetReferrerResponse"; go_codec := codec_SetReferrerResponse |}.
#[export] Instance go_ScheduleCancelResponse : GoStruct ScheduleCancelResponse := {| go_name := "ScheduleCancelResponse"; go_codec := codec_ScheduleCancelResponse |}.
#[export] Instance go_AgentApprovalResponse : GoStruct AgentApprovalResponse := {| go_name := "AgentApprovalResponse"; go_codec := codec_AgentApprovalResponse |}.
#[export] Instance go_MultiSigConversionResponse : GoStruct MultiSigConversionResponse := {| go_name := "MultiSigConversionResponse"; go_codec := codec_MultiSigConversionResponse |}.
#[export] Instance go_SpotDeployResponse : GoStruct SpotDeployResponse := {| go_name := "SpotDeployResponse"; go_codec := codec_SpotDeployResponse |}.
#[export] Instance go_PerpDeployResponse : GoStruct PerpDeployResponse := {| go_name := "PerpDeployResponse"; go_codec := codec_PerpDeployResponse |}.
#[export] Instance go_ValidatorResponse : GoStruct ValidatorResponse := {| go_name := "ValidatorResponse"; go_codec := codec_ValidatorResponse |}.
#[export] Instance go_MultiSigResponse : GoStruct MultiSigResponse := {| go_name := "MultiSigResponse"; go_codec := codec_MultiSigResponse |}.
End structs.

(** A slice of structs reads back what was written, element by element. *)
Lemma decode_elements_enc {A} (P : A -> Prop) (c : codec A) `{!CodecOK P c} (l : list A) :
  Forall P l ->
  decode_elements (c_dec c (c_zero c)) (map (c_enc c) l) = inl l.
Proof.
  intros Hl. induction Hl as [|a l Ha _ IH]; [done|]. simpl. by rewrite (codec_ok a Ha), IH.
Qed.
