(* ===== verification/SdkResponse.v ===== *)
(** * pkg/go-hyperliquid/api.go

    The answer to an action: a status, and with status "ok" the data of its
    type.  [APIResponse.UnmarshalJSON] reads it with
    github.com/valyala/fastjson, an argument here; the data is then decoded by
    encoding/json.  [MixedArray.FirstError] looks for the first element of a
    cancel's statuses that is not the string "success". *)

From Stdlib Require Import ZArith Ascii.
From stdpp Require Import gmap strings list pretty.
From S2P Require Import Prelude Float64 GoStrings Models SdkTypes SdkClient EasyJson SdkDecoders.
Local Open Scope Z_scope.

(** ** encoding/json on structs without a codec

    A key names a field whose name it equals up to case; the long s and the
    Kelvin sign fold to S and K.  The functions read into the value there is,
    and return the first error. *)

Definition utf8_long_s (a b : ascii) : bool :=
  Ascii.eqb a (ascii_of_nat 197) && Ascii.eqb b (ascii_of_nat 191).
Definition utf8_kelvin (a b c : ascii) : bool :=
  Ascii.eqb a (ascii_of_nat 226) && Ascii.eqb b (ascii_of_nat 132) && Ascii.eqb c (ascii_of_nat 170).

Fixpoint fold_name (s : string) : string :=
  match s with
  | EmptyString => EmptyString
  | String a t =>
      match t with
      | String b u =>
          if utf8_long_s a b then String "S" (fold_name u)
          else match u with
               | String c w =>
                   if utf8_kelvin a b c then String "K" (fold_name w)
                   else String (ascii_to_upper a) (fold_name t)
               | EmptyString => String (ascii_to_upper a) (fold_name t)
               end
      | EmptyString => String (ascii_to_upper a) EmptyString
      end
  end.

Example fold_status : fold_name "sTatuses" = "STATUSES".
Proof. reflexivity. Qed.

Section api_json.
Context `{Json}.

(** The entries an object has for a field, folded into its value. *)
Fixpoint jfield {A} (name : string) (dec : A -> value -> A + string) (es : list (string * value))
    (a : A) : A + string :=
  match es with
  | [] => inl a
  | (k, v) :: es =>
      if String.eqb (fold_name k) (fold_name name) then
        match dec a v with
        | inl a => jfield name dec es a
        | inr err => inr err
        end
      else jfield name dec es a
  end.

Definition j_string (old : string) (v : value) : string + string :=
  match v with
  | VNull => inl old
  | VString s => inl s
  | _ => inr (json_type_error v "string")
  end.

Definition j_int (t : string) (old : Z) (v : value) : Z + string :=
  match v with
  | VNull => inl old
  | VInt z => if decide (in_int64 z) then inl z else inr (json_type_error v t)
  | _ => inr (json_type_error v t)
  end.

Definition j_ptr {A} (zero : A) (dec : A -> value -> A + string) (old : option A) (v : value)
    : option A + string :=
  match v with
  | VNull => inl None
  | _ => map_inl Some (dec (default zero old) v)
  end.

(** The elements of an array, read into those the slice has. *)
Fixpoint j_elements {A} (zero : A) (dec : A -> value -> A + string) (old : list A) (l : list value)
    : list A + string :=
  match l with
  | [] => inl []
  | v :: l =>
      match dec (default zero (head old)) v with
      | inr err => inr err
      | inl a => map_inl (cons a) (j_elements zero dec (tail old) l)
      end
  end.

Definition j_slice {A} (t : string) (zero : A) (dec : A -> value -> A + string) (old : list A)
    (v : value) : list A + string :=
  match v with
  | VNull => inl []
  | VArray l => j_elements zero dec old l
  | _ => inr (json_type_error v t)
  end.

Definition j_struct {A} (t : string) (dec : A -> list (string * value) -> A + string) (old : A)
    (v : value) : A + string :=
  match v with
  | VNull => inl old
  | VMap es => dec old es
  | _ => inr (json_type_error v t)
  end.

(** [ma >>= f] on results. *)
Definition andthen {A B} (r : A + string) (f : A -> B + string) : B + string :=
  match r with inl a => f a | inr err => inr err end.

(** *** exchange_orders.go *)

Definition j_OrderStatusResting : OrderStatusResting -> value -> OrderStatusResting + string :=
  j_struct "hyperliquid.OrderStatusResting" (fun x es =>
    andthen (jfield "oid" (j_int "int64") es (resting_Oid x)) (fun oid =>
    andthen (jfield "cloid" (j_ptr EmptyString j_string) es (resting_ClientID x)) (fun cloid =>
    andthen (jfield "status" j_string es (resting_Status x)) (fun status =>
    inl (mkOrderStatusResting oid cloid status))))).

Definition j_OrderStatusFilled : OrderStatusFilled -> value -> OrderStatusFilled + string :=
  j_struct "hyperliquid.OrderStatusFilled" (fun x es =>
    andthen (jfield "totalSz" j_string es (filled_TotalSz x)) (fun totalSz =>
    andthen (jfield "avgPx" j_string es (filled_AvgPx x)) (fun avgPx =>
    andthen (jfield "oid" (j_int "int") es (filled_Oid x)) (fun oid =>
    inl (mkOrderStatusFilled totalSz avgPx oid))))).

Definition no_resting : OrderStatusResting := mkOrderStatusResting 0 None EmptyString.
Definition no_filled : OrderStatusFilled := mkOrderStatusFilled EmptyString EmptyString 0.
Definition no_OrderStatus : OrderStatus := mkOrderStatus None None None.

Definition j_OrderStatus : OrderStatus -> value -> OrderStatus + string :=
  j_struct "hyperliquid.OrderStatus" (fun x es =>
    andthen (jfield "resting" (j_ptr no_resting j_OrderStatusResting) es (ostatus_Resting x)) (fun resting =>
    andthen (jfield "filled" (j_ptr no_filled j_OrderStatusFilled) es (ostatus_Filled x)) (fun filled =>
    andthen (jfield "error" (j_ptr EmptyString j_string) es (ostatus_Error x)) (fun error =>
    inl (mkOrderStatus resting filled error))))).

Record OrderResponse := mkOrderResponse { or_Statuses : list OrderStatus }.

Definition j_OrderResponse : OrderResponse -> value -> OrderResponse + string :=
  j_struct "hyperliquid.OrderResponse" (fun x es =>
    map_inl mkOrderResponse
      (jfield "Statuses" (j_slice "[]hyperliquid.OrderStatus" no_OrderStatus j_OrderStatus) es
        (or_Statuses x))).

(** ** MixedValue and MixedArray: raw JSON values *)

Definition MixedValue : Type := value.

(** The bytes are kept as they are, and given back. *)
Definition MixedValue_UnmarshalJSON (data : value) : MixedValue := data.
Definition MixedValue_MarshalJSON (mv : MixedValue) : value := mv.

(** [json.Unmarshal] into a string, a map and a slice: null is accepted by all. *)
Definition MixedValue_String (mv : MixedValue) : string * bool :=
  match j_string EmptyString mv with inl s => (s, true) | inr _ => (EmptyString, false) end.

Definition MixedValue_Object (mv : MixedValue) : list (string * value) * bool :=
  match mv with VMap m => (m, true) | VNull => ([], true) | _ => ([], false) end.

Definition MixedValue_Array (mv : MixedValue) : list value * bool :=
  match mv with VArray l => (l, true) | VNull => ([], true) | _ => ([], false) end.

Definition MixedValue_Parse {A} `{Decoder A} (mv : MixedValue) : A + string := decode mv.

(** By the first byte; no value at all is "null". *)
Definition MixedValue_Type (mv : option MixedValue) : string :=
  match mv with
  | None => "null"
  | Some (VString _) => "string"
  | Some (VMap _ | VStruct _) => "object"
  | Some (VArray _) => "array"
  | Some (VBool _) => "boolean"
  | Some VNull => "null"
  | Some (VInt _ | VFloat _) => "number"
  end.

Definition MixedArray : Type := list MixedValue.

Definition MixedArray_UnmarshalJSON (v : value) : MixedArray + string :=
  match v with
  | VNull => inl []
  | VArray l => inl l
  | _ => inr (json_type_error v "[]hyperliquid.MixedValue")
  end.

(** The error of one element that is not a success. *)
Definition element_error (mv : MixedValue) : option string :=
  match MixedValue_String mv with
  | (s, true) => if decide (s = "success") then None else Some s
  | (_, false) =>
      match MixedValue_Object mv with
      | (obj, true) =>
          match map_get "error" obj with
          | Some (VString msg) =>
              if decide (msg <> EmptyString) then Some msg else Some (json_Marshal (VString msg))
          | Some v => Some (json_Marshal (json_any v))
          | None => Some "cancel failed"
          end
      | (_, false) => Some "cancel failed"
      end
  end.

Fixpoint MixedArray_FirstError (ma : MixedArray) : option string :=
  match ma with
  | [] => None
  | mv :: ma =>
      match element_error mv with
      | None => MixedArray_FirstError ma
      | Some err => Some err
      end
  end.

Record CancelOrderResponse := mkCancelOrderResponse { cor_Statuses : MixedArray }.

Definition j_CancelOrderResponse : CancelOrderResponse -> value -> CancelOrderResponse + string :=
  j_struct "hyperliquid.CancelOrderResponse" (fun x es =>
    map_inl mkCancelOrderResponse
      (jfield "Statuses" (fun _ => MixedArray_UnmarshalJSON) es (cor_Statuses x))).

(** ** Tuple2 *)

Definition Tuple2_UnmarshalJSON {A B} `{Decoder A} `{Decoder B} (v : value) : A * B + string :=
  let raw := match v with
             | VNull => inl []
             | VArray l => inl l
             | _ => inr (json_type_error v "[]json.RawMessage")
             end in
  andthen raw (fun raw =>
    match raw with
    | [x; y] => andthen (decode x) (fun a => andthen (decode y) (fun b => inl (a, b)))
    | _ => inr ("expected array of length 2, got " +:+ pretty (length raw))
    end).

Definition Tuple2_MarshalJSON {A B} (encA : A -> value) (encB : B -> value) (t : A * B) : value :=
  VArray [encA t.1; encB t.2].
End api_json.

(** ** APIResponse *)

(** [Parser.ParseBytes] on a text encoding/json has accepted (its error if it
    refuses it), and [Value.Get] of a key. *)
Class FastJson := {
  fastjson_Parse : value -> option string;
  fastjson_Get : value -> string -> option value;
}.

Class FastJsonLaws (F : FastJson) : Prop := {
  fastjson_Get_in : forall es k v,
    NoDup es.*1 -> (k, v) ∈ es -> fastjson_Get (VMap es) k = Some v;
  fastjson_Get_not_in : forall es k, k ∉ es.*1 -> fastjson_Get (VMap es) k = None;
}.

Record APIResponse (T : Type) := mkAPIResponse {
  ar_Status : string; ar_Data : T; ar_Type : string; ar_Err : string; ar_Ok : bool;
}.
Arguments mkAPIResponse {T}.
Arguments ar_Status {T}.
Arguments ar_Data {T}.
Arguments ar_Type {T}.
Arguments ar_Err {T}.
Arguments ar_Ok {T}.

Section api_response.
Context `{Json} `{FastJson}.

(** [string(v.GetStringBytes(...))]. *)
Definition string_bytes_of (v : option value) : string :=
  match v with Some (VString s) => s | _ => EmptyString end.

(** [UnmarshalJSON] into a response; [dec] reads the data into the response's. *)
Definition APIResponse_UnmarshalJSON {T} (dec : T -> value -> T + string) (r : APIResponse T)
    (data : value) : APIResponse T + string :=
  match fastjson_Parse data with
  | Some err => inr ("failed to parse JSON response: " +:+ err)
  | None =>
      let Status := string_bytes_of (fastjson_Get data "status") in
      let Ok := bool_decide (Status = "ok") in
      let response := fastjson_Get data "response" in
      if negb Ok then
        inl (mkAPIResponse Status (ar_Data r) (ar_Type r) (string_bytes_of response) Ok)
      else
        let get key := response ≫= fun v => fastjson_Get v key in
        let Type_ := string_bytes_of (get "type") in
        match get "data" with
        | None => inr "missing response.data field in successful response"
        | Some responseData =>
            match dec (ar_Data r) responseData with
            | inr err => inr ("failed to unmarshal response data: " +:+ err)
            | inl d => inl (mkAPIResponse Status d Type_ (ar_Err r) Ok)
            end
        end
  end.

Definition zero_APIResponse {T} (zero : T) : APIResponse T :=
  mkAPIResponse EmptyString zero EmptyString EmptyString false.
End api_response.

(** ** What an answer says *)
Section answers.
Context `{Json} `{FastJsonLaws}.

Definition entry (es : list (string * value)) (key : string) : option value :=
  (fun e => e.2.2) <$> list_find (fun e => e.1 = key) es.

Lemma fastjson_entry es key : NoDup es.*1 -> fastjson_Get (VMap es) key = entry es key.
Proof.
  intros Hd. unfold entry. destruct (list_find _ es) as [[i [k v]]|] eqn:E; simpl.
  - apply list_find_Some in E as (Hi & <- & _). simpl.
    apply fastjson_Get_in; [done|]. by eapply list_elem_of_lookup_2.
  - apply list_find_None in E. apply fastjson_Get_not_in.
    intros ([k v] & -> & Hin)%list_elem_of_fmap. rewrite Forall_forall in E. by apply (E (k, v) Hin).
Qed.

(** How an answer that is an object without repeated keys is read: a status
    other than "ok" is no error of the call, with the response, if it is a
    string, as the message; with status "ok" the data is decoded, and it is an
    error if there is none. *)
Theorem APIResponse_reads {T} (dec : T -> value -> T + string) (r : APIResponse T)
    (es : list (string * value)) (Hkeys : NoDup es.*1) (Hparse : fastjson_Parse (VMap es) = None) :
  let status := string_bytes_of (entry es "status") in
  APIResponse_UnmarshalJSON dec r (VMap es) =
  if decide (status = "ok") then
    match entry es "response" ≫= fun v => fastjson_Get v "data" with
    | None => inr "missing response.data field in successful response"
    | Some data =>
        match dec (ar_Data r) data with
        | inl d =>
            inl (mkAPIResponse "ok" d
                   (string_bytes_of (entry es "response" ≫= fun v => fastjson_Get v "type")) (ar_Err r) true)
        | inr err => inr ("failed to unmarshal response data: " +:+ err)
        end
    end
  else inl (mkAPIResponse status (ar_Data r) (ar_Type r) (string_bytes_of (entry es "response")) false).
Proof.
  cbn zeta. unfold APIResponse_UnmarshalJSON. rewrite Hparse, !(fastjson_entry es _ Hkeys).
  case_decide as Es; [rewrite bool_decide_true by done|by rewrite bool_decide_false].
  rewrite Es. simpl. by destruct (entry es "response" ≫= _) as [data|]; [destruct (dec _ _)|].
Qed.
End answers.

(** ** Witnesses *)

Definition reference_fastjson : FastJson := {|
  fastjson_Parse := fun _ => None;
  fastjson_Get := fun v key => match v with VMap es => entry es key | _ => None end;
|}.

Lemma reference_fastjson_laws : FastJsonLaws reference_fastjson.
Proof.
  constructor.
  - intros es k v Hd Hin. cbn. unfold entry. induction es as [|[k' v'] es IH]; [by apply elem_of_nil in Hin|].
    cbn. cbn in Hd. apply NoDup_cons in Hd as [Hk Hd]. case_decide as E; simpl in E.
    + subst k'. cbn. apply elem_of_cons in Hin as [Hin|Hin]; [by injection Hin as <-|].
      destruct Hk. apply list_elem_of_fmap. by exists (k, v).
    + apply elem_of_cons in Hin as [Hin|Hin]; [by injection Hin as -> ->|].
      specialize (IH Hd Hin). by destruct (list_find _ es).
  - intros es k Hk. cbn. unfold entry. destruct (list_find _ es) as [[i [k' v]]|] eqn:E; [|done].
    apply list_find_Some in E as (Hi & <- & _). destruct Hk. apply list_elem_of_fmap.
    exists (k', v). split; [done|]. by eapply list_elem_of_lookup_2.
Qed.

Definition answer_json : Json := {|
  json_parse := fun s =>
    if decide (s = "null") then inl VNull
    else if decide (s = "filled") then
      inl (VMap [("status", VString "ok");
                 ("response", VMap [("type", VString "order");
                    ("data", VMap [("statuses", VArray
                       [VMap [("filled", VMap [("totalSz", VString "0.5"); ("avgPx", VString "1800");
                                               ("oid", VInt 77)])]])])])])
    else if decide (s = "cancelled") then
      inl (VMap [("status", VString "ok");
                 ("response", VMap [("type", VString "cancel");
                    ("data", VMap [("statuses", VArray [VString "success"])])])])
    else inr "invalid character";
  json_Marshal_error := fun _ => "json: unsupported value";
  json_type_error := fun _ t => "json: cannot unmarshal into Go value of type " +:+ t;
  json_any := fun v => v;
  json_Marshal := fun _ => "{}";
|}.

Lemma APIResponse_reads_witness :
  @APIResponse_UnmarshalJSON reference_fastjson _ (@j_OrderResponse answer_json)
    (zero_APIResponse (mkOrderResponse []))
    (VMap [("status", VString "err"); ("response", VString "Insufficient margin")]) =
  inl (mkAPIResponse "err" (mkOrderResponse []) EmptyString "Insufficient margin" false).
Proof.
  rewrite (@APIResponse_reads reference_fastjson reference_fastjson_laws).
  - vm_compute. reflexivity.
  - repeat (constructor; [set_solver|]). constructor.
  - reflexivity.
Defined.
