(* ===== verification/SdkInfo.v ===== *)
(** * pkg/go-hyperliquid/info.go

    The tables that turn a coin's name into the asset number orders carry
    ([NewInfo], [NameToAsset]), and the queries of the info endpoint with the
    payloads they post. *)

From Stdlib Require Import ZArith Lia Ascii.
From stdpp Require Import gmap strings list pretty.
From S2P Require Import Prelude Float64 GoStrings GoMath Models SdkSocket SdkTypes SdkClient EasyJson SdkDecoders.
Local Open Scope Z_scope.

Definition spotAssetIndexOffset : Z := 10000.

(** The base URL of the client and the three tables. *)
Record Info := mkInfo {
  info_client : string;
  coinToAsset : gmap string Z;
  nameToCoin : gmap string string;
  assetToDecimal : gmap Z Z;
}.

(** ** The tables *)

(** The name a perpetual is looked up by; [None] when it is skipped. *)
Definition perp_coin (name : string) : option string :=
  if contains_char ":" name then
    match split_char ":" name with
    | [dex; coin] => if decide (dex = "xyz") then Some coin else None
    | _ => None
    end
  else Some name.

(** [coinToAsset[coin] = asset; nameToCoin[name] = coin;
    assetToDecimal[asset] = szDecimals] *)
Definition add_asset (i : Info) (name coin : string) (asset szDecimals : Z) : Info :=
  mkInfo (info_client i) (<[coin := asset]> (coinToAsset i)) (<[name := coin]> (nameToCoin i))
    (<[asset := szDecimals]> (assetToDecimal i)).

Fixpoint map_perps (i : Info) (asset : Z) (universe : list AssetInfo) : Info :=
  match universe with
  | [] => i
  | assetInfo :: universe =>
      let i' := match perp_coin (asset_Name assetInfo) with
                | None => i
                | Some coin => add_asset i coin (asset_Name assetInfo) asset (asset_SzDecimals assetInfo)
                end in
      map_perps i' (asset + 1) universe
  end.

Definition spot_alias (baseURL name : string) : string :=
  if decide (baseURL <> TestnetAPIURL) then MainnetToAlias name else TestnetToAlias name.

Definition map_spot (baseURL : string) (tokens : list SpotTokenInfo) (i : Info)
    (spotInfo : SpotAssetInfo) : outcome Info :=
  let spotTokenLen := Z.of_nat (length tokens) in
  quote ← go_index (spot_Tokens spotInfo) 1;
  if spotTokenLen <=? quote then Ret i
  else
    base ← go_index (spot_Tokens spotInfo) 0;
    if spotTokenLen <=? base then Ret i
    else
      baseToken ← go_index tokens base;
      quoteToken ← go_index tokens quote;
      let symbol := spot_alias baseURL (token_Name baseToken) +:+ token_Name quoteToken in
      let asset := int64 (spot_Index spotInfo + spotAssetIndexOffset) in
      Ret (add_asset i symbol (spot_Name spotInfo) asset (token_SzDecimals baseToken)).

Definition map_spots (baseURL : string) (spotMeta : SpotMeta) (i : Info) : outcome Info :=
  fold_left (fun o spotInfo => i ← o; map_spot baseURL (spotmeta_Tokens spotMeta) i spotInfo)
    (spotmeta_Universe spotMeta) (Ret i).

Definition NameToAsset (i : Info) (name : string) : Z :=
  default 0 (coinToAsset i !! default EmptyString (nameToCoin i !! name)).

(** ** Parsing the metadata *)

Section decoders.
Context `{Json} `{Lexer}.

(** [json.Unmarshal] of a raw message, empty when the key is missing. *)
Definition raw_decode {A} `{Decoder A} (raw : option value) : A + string :=
  match raw with Some v => decode v | None => inr "unexpected end of JSON input" end.

(** Decoding into [map[string]json.RawMessage] or [map[string]any]. *)
Definition decode_map (v : value) : list (string * value) + string :=
  match v with
  | VMap m => inl m
  | VNull => inl []
  | _ => inr (json_type_error v "map[string]interface {}")
  end.

(** Decoding into [[][]any]. *)
Fixpoint decode_rows_list (l : list value) : list (list value) + string :=
  match l with
  | [] => inl []
  | v :: l =>
      match (match v with VNull => inl [] | VArray r => inl r
             | _ => inr (json_type_error v "[]interface {}") end), decode_rows_list l with
      | inl r, inl rs => inl (r :: rs)
      | inr err, _ => inr err
      | _, inr err => inr err
      end
  end.

Definition decode_rows (raw : option value) : list (list value) + string :=
  match raw with
  | Some VNull => inl []
  | Some (VArray l) => decode_rows_list l
  | Some v => inr (json_type_error v "[][]interface {}")
  | None => inr "unexpected end of JSON input"
  end.

(** [.(float64)] on a value decoded into [any]. *)
Definition any_float64 (v : value) : outcome float64 :=
  match v with VInt z => Ret (float64_of_Z z) | VFloat x => Ret x | _ => Panic end.

Definition any_string (v : option value) : outcome string :=
  match v with Some (VString s) => Ret s | _ => Panic end.

(** One row of the margin tables: [[id, {description, marginTiers}]]. *)
Definition parse_margin_table (what : string) (row : list value) : api MarginTable :=
  id ← lift_outcome (v ← go_index row 0; any_float64 v);
  table ← lift_outcome (go_index row 1);
  marginTableData ← wrap ("failed to unmarshal " +:+ what +:+ "margin table data: ")
                      (lift (decode_map table));
  marginTiers ← wrap ("failed to unmarshal " +:+ what +:+ "margin tiers: ")
                  (lift (decode (default VNull (map_get "marginTiers" marginTableData))));
  description ← lift_outcome (any_string (map_get "description" marginTableData));
  ok (mkMarginTable (int_of_float64 id) description marginTiers).

Fixpoint parse_margin_tables (what : string) (rows : list (list value)) : api (list MarginTable) :=
  match rows with
  | [] => ok []
  | row :: rows =>
      t ← parse_margin_table what row;
      ts ← parse_margin_tables what rows;
      ok (t :: ts)
  end.

Definition parse_meta (what : string) (meta : list (string * value)) : api Meta :=
  universe ← wrap ("failed to unmarshal " +:+ what +:+ "universe: ")
               (lift (raw_decode (map_get "universe" meta)));
  marginTables ← wrap ("failed to unmarshal " +:+ what +:+ "margin tables: ")
                   (lift (decode_rows (map_get "marginTables" meta)));
  marginTablesResult ← parse_margin_tables what marginTables;
  ok (mkMeta universe marginTablesResult).

(** [parseMetaResponse] of a parsed response; the text is parsed by its
    callers. *)
Definition parseMetaResponse (resp : value + string) : api Meta :=
  v ← wrap "failed to unmarshal meta response: " (lift resp);
  meta ← wrap "failed to unmarshal meta response: " (lift (decode_map v));
  parse_meta EmptyString meta.

(** Decoding the whole response comes first: an element that is no object
    stops it before any table is parsed. *)
Fixpoint decode_maps (l : list value) : list (list (string * value)) + string :=
  match l with
  | [] => inl []
  | v :: l =>
      match decode_map v, decode_maps l with
      | inl m, inl ms => inl (m :: ms)
      | inr err, _ => inr err
      | _, inr err => inr err
      end
  end.

Fixpoint parse_metas (metas : list (list (string * value))) : api (list Meta) :=
  match metas with
  | [] => ok []
  | meta :: metas =>
      m ← parse_meta "perp meta " meta;
      ms ← parse_metas metas;
      ok (m :: ms)
  end.

Definition parsePerpMetaResponse (resp : value + string) : api (list Meta) :=
  v ← wrap "failed to unmarshal perp meta response: " (lift resp);
  perpMeta ← wrap "failed to unmarshal perp meta response: "
    (lift match v with
          | VNull => inl []
          | VArray l => decode_maps l
          | _ => inr (json_type_error v "[]map[string]json.RawMessage")
          end);
  parse_metas perpMeta.
End decoders.

(** ** Queries *)

Section queries.
Context `{Http} `{Json} `{Lexer}.

(** The post of a query, its failure described by [what]. *)
Definition info_post (i : Info) (what : string) (payload : list (string * value)) : api string :=
  wrap ("failed to fetch " +:+ what +:+ ": ")
    (Client_post (info_client i) "/info" (go_map payload)).

Definition unmarshal {A} `{Decoder A} (what : string) (resp : string) : api A :=
  wrap ("failed to unmarshal " +:+ what +:+ ": ") (lift (json_Unmarshal resp)).

Definition postTimeRangeRequest (i : Info) (requestType user : string) (startTime : Z)
    (endTime : option Z) (extraParams : list (string * value)) : api string :=
  let payload := [("type", VString requestType); ("startTime", VInt startTime)] in
  let payload := if decide (user <> EmptyString) then map_put payload "user" (VString user) else payload in
  let payload := match endTime with
                 | Some t => map_put payload "endTime" (VInt t)
                 | None => payload
                 end in
  let payload := fold_left (fun p kv => map_put p kv.1 kv.2) extraParams payload in
  info_post i requestType payload.

Definition Info_Meta (i : Info) : api Meta :=
  resp ← info_post i "meta" [("type", VString "meta")];
  parseMetaResponse (json_parse resp).

Definition Info_PerpMeta (i : Info) : api (list Meta) :=
  resp ← info_post i "meta" [("type", VString "allPerpMetas")];
  parsePerpMetaResponse (json_parse resp).

Definition Info_SpotMeta (i : Info) : api SpotMeta :=
  resp ← info_post i "spot meta" [("type", VString "spotMeta")];
  unmarshal "spot meta response" resp.

Definition Info_UserState (i : Info) (address dex : string) : api UserState :=
  resp ← info_post i "user state"
    [("type", VString "clearinghouseState"); ("user", VString address); ("dex", VString dex)];
  unmarshal "user state" resp.

Definition Info_SpotUserState (i : Info) (address : string) : api SpotUserState :=
  resp ← info_post i "spot user state"
    [("type", VString "spotClearinghouseState"); ("user", VString address)];
  unmarshal "spot user state" resp.

Definition Info_OpenOrders (i : Info) (address : string) : api (list OpenOrder) :=
  resp ← info_post i "open orders" [("type", VString "openOrders"); ("user", VString address)];
  unmarshal "open orders" resp.

Definition Info_FrontendOpenOrders (i : Info) (address : string) : api (list FrontendOpenOrder) :=
  resp ← info_post i "frontend open orders"
    [("type", VString "frontendOpenOrders"); ("user", VString address)];
  unmarshal "frontend open orders" resp.

Definition Info_AllMids (i : Info) : api (gmap string string) :=
  resp ← info_post i "all mids" [("type", VString "allMids")];
  unmarshal "all mids" resp.

Definition Info_UserFills (i : Info) (address : string) : api (list Fill) :=
  resp ← info_post i "user fills" [("type", VString "userFills"); ("user", VString address)];
  unmarshal "user fills" resp.

Definition Info_UserFillsByTime (i : Info) (address : string) (startTime : Z)
    (endTime : option Z) : api (list Fill) :=
  resp ← postTimeRangeRequest i "userFillsByTime" address startTime endTime [];
  unmarshal "user fills by time" resp.

(** The two elements of a metadata response with contexts. *)
Definition decode_pair (what : string) (resp : string) : api (value * value) :=
  v ← wrap ("failed to unmarshal " +:+ what +:+ ": ") (lift (json_parse resp));
  result ← wrap ("failed to unmarshal " +:+ what +:+ ": ")
    (lift match v with
          | VNull => inl []
          | VArray l => inl l
          | _ => inr (json_type_error v "[]interface {}")
          end);
  match result with
  | x :: y :: _ => ok (json_any x, json_any y)
  | _ => fail ("expected at least 2 elements in response, got " +:+ pretty (length result))
  end.

Definition Info_MetaAndAssetCtxs (i : Info) : api MetaAndAssetCtxs :=
  resp ← info_post i "meta and asset contexts" [("type", VString "metaAndAssetCtxs")];
  result ← decode_pair "meta and asset contexts" resp;
  meta ← wrap "failed to parse meta: " (parseMetaResponse (inl result.1));
  ctxs ← wrap "failed to unmarshal ctxs: " (lift (decode result.2));
  ok (mkMetaAndAssetCtxs meta ctxs).

Definition Info_SpotMetaAndAssetCtxs (i : Info) : api SpotMetaAndAssetCtxs :=
  resp ← info_post i "spot meta and asset contexts" [("type", VString "spotMetaAndAssetCtxs")];
  result ← decode_pair "spot meta and asset contexts" resp;
  meta ← wrap "failed to unmarshal meta: " (lift (decode result.1));
  ctxs ← wrap "failed to unmarshal ctxs: " (lift (decode result.2));
  ok (mkSpotMetaAndAssetCtxs meta ctxs).

Definition coin_of (i : Info) (name : string) : string := default EmptyString (nameToCoin i !! name).

Definition Info_FundingHistory (i : Info) (name : string) (startTime : Z) (endTime : option Z)
    : api (list FundingHistory) :=
  let coin := coin_of i name in
  resp ← postTimeRangeRequest i "fundingHistory" EmptyString startTime endTime
    [("coin", VString coin)];
  unmarshal "funding history" resp.

Definition Info_UserFundingHistory (i : Info) (user : string) (startTime : Z)
    (endTime : option Z) : api (list UserFundingHistory) :=
  resp ← postTimeRangeRequest i "userFunding" user startTime endTime [];
  unmarshal "user funding history" resp.

Definition Info_L2Snapshot (i : Info) (name : string) : api L2Book :=
  resp ← info_post i "L2 snapshot" [("type", VString "l2Book"); ("coin", VString (coin_of i name))];
  unmarshal "L2 snapshot" resp.

Definition Info_CandlesSnapshot (i : Info) (name interval : string) (startTime endTime : Z)
    : api (list Candle) :=
  let req := go_map [("coin", VString (coin_of i name)); ("interval", VString interval);
                     ("startTime", VInt startTime); ("endTime", VInt endTime)] in
  resp ← info_post i "candles snapshot" [("type", VString "candleSnapshot"); ("req", req)];
  unmarshal "candles snapshot" resp.

Definition Info_UserFees (i : Info) (address : string) : api UserFees :=
  resp ← info_post i "user fees" [("type", VString "userFees"); ("user", VString address)];
  unmarshal "user fees" resp.

Definition Info_UserActiveAssetData (i : Info) (address coin : string) : api UserActiveAssetData :=
  resp ← info_post i "user active asset data"
    [("type", VString "activeAssetData"); ("user", VString address); ("coin", VString coin)];
  unmarshal "user active asset data" resp.

Definition Info_UserStakingSummary (i : Info) (address : string) : api StakingSummary :=
  resp ← info_post i "staking summary"
    [("type", VString "delegatorSummary"); ("user", VString address)];
  unmarshal "staking summary" resp.

Definition Info_UserStakingDelegations (i : Info) (address : string) : api (list StakingDelegation) :=
  resp ← info_post i "staking delegations"
    [("type", VString "delegations"); ("user", VString address)];
  unmarshal "staking delegations" resp.

Definition Info_UserStakingRewards (i : Info) (address : string) : api (list StakingReward) :=
  resp ← info_post i "staking rewards"
    [("type", VString "delegatorRewards"); ("user", VString address)];
  unmarshal "staking rewards" resp.

Definition Info_QueryOrderByOid (i : Info) (user : string) (oid : Z) : api OrderQueryResult :=
  resp ← info_post i "order status"
    [("type", VString "orderStatus"); ("user", VString user); ("oid", VInt oid)];
  unmarshal "order status" resp.

Definition Info_QueryOrderByCloid (i : Info) (user cloid : string) : api OrderQueryResult :=
  resp ← info_post i "order status by cloid"
    [("type", VString "orderStatus"); ("user", VString user); ("oid", VString cloid)];
  unmarshal "order status" resp.

Definition Info_QueryReferralState (i : Info) (user : string) : api ReferralState :=
  resp ← info_post i "referral state" [("type", VString "referral"); ("user", VString user)];
  unmarshal "referral state" resp.

Definition Info_QuerySubAccounts (i : Info) (user : string) : api (list SubAccount) :=
  resp ← info_post i "sub accounts" [("type", VString "subAccounts"); ("user", VString user)];
  unmarshal "sub accounts" resp.

Definition Info_QueryUserToMultiSigSigners (i : Info) (multiSigUser : string)
    : api (list MultiSigSigner) :=
  resp ← info_post i "multi-sig signers"
    [("type", VString "userToMultiSigSigners"); ("user", VString multiSigUser)];
  unmarshal "multi-sig signers" resp.

Definition Info_PerpDexs (i : Info) : api (list string) :=
  resp ← info_post i "perp dexs" [("type", VString "perpDexs")];
  unmarshal "perp dexs" resp.

(** ** NewInfo *)

(** [if err != nil { panic(err) }]. *)
Definition must {A} (m : api A) : api A := fun s =>
  r ← m s;
  match r with (s, inl a) => Ret (s, inl a) | (s, inr _) => Panic end.

(** The metadata is fetched when it is not given; the perpetuals of all
    dexes are put one after the other. *)
Definition NewInfo (baseURL : string) (meta : option Meta) (spotMeta : option SpotMeta) : api Info :=
  let info := mkInfo (NewClient baseURL) ∅ ∅ ∅ in
  universe ← match meta with
             | Some m => ok (meta_Universe m)
             | None => perpMeta ← must (Info_PerpMeta info); ok (concat (map meta_Universe perpMeta))
             end;
  spot ← match spotMeta with Some m => ok m | None => must (Info_SpotMeta info) end;
  lift_outcome (map_spots baseURL spot (map_perps info 0 universe)).
End queries.

(** ** What the tables hold *)

(** One asset as it is listed: the name it is looked up by, its coin, its
    number and the decimals of its sizes. *)
Record asset_entry := mkEntry {
  entry_name : string; entry_coin : string; entry_asset : Z; entry_decimals : Z;
}.

Definition add_entry (i : Info) (e : asset_entry) : Info :=
  add_asset i (entry_name e) (entry_coin e) (entry_asset e) (entry_decimals e).

Fixpoint perp_entries (asset : Z) (universe : list AssetInfo) : list asset_entry :=
  match universe with
  | [] => []
  | a :: universe =>
      match perp_coin (asset_Name a) with
      | None => []
      | Some coin => [mkEntry coin (asset_Name a) asset (asset_SzDecimals a)]
      end ++ perp_entries (asset + 1) universe
  end.

Definition spot_entries (baseURL : string) (spotMeta : SpotMeta) : list asset_entry :=
  omap (fun p =>
    match spot_Tokens p with
    | base :: quote :: _ =>
        match spotmeta_Tokens spotMeta !! Z.to_nat base, spotmeta_Tokens spotMeta !! Z.to_nat quote with
        | Some b, Some q =>
            Some (mkEntry (spot_alias baseURL (token_Name b) +:+ token_Name q) (spot_Name p)
                    (int64 (spot_Index p + spotAssetIndexOffset)) (token_SzDecimals b))
        | _, _ => None
        end
    | _ => None
    end) (spotmeta_Universe spotMeta).

(** Spot pairs as the exchange publishes them: a base and a quote token. *)
Definition pair_ok (p : SpotAssetInfo) : Prop :=
  match spot_Tokens p with base :: quote :: _ => 0 <= base /\ 0 <= quote | _ => False end.

Lemma map_perps_entries i asset universe :
  map_perps i asset universe = fold_left add_entry (perp_entries asset universe) i.
Proof.
  revert i asset. induction universe as [|a universe IH]; intros i asset; [done|].
  cbn [map_perps perp_entries]. rewrite IH, fold_left_app. by destruct (perp_coin _).
Qed.

Lemma go_index_lookup {A} (l : list A) z :
  0 <= z ->
  (Z.of_nat (length l) <=? z) = bool_decide (l !! Z.to_nat z = None) /\
  go_index l z = match l !! Z.to_nat z with Some x => Ret x | None => Panic end.
Proof.
  intros Hz. unfold go_index. rewrite (proj2 (Z.leb_le 0 z) Hz). split; [|done].
  destruct (Z.leb_spec (Z.of_nat (length l)) z) as [Hle|Hlt]; symmetry.
  - apply bool_decide_eq_true, lookup_ge_None. lia.
  - apply bool_decide_eq_false. rewrite lookup_ge_None. lia.
Qed.

Lemma map_spot_entries baseURL tokens i p :
  pair_ok p ->
  map_spot baseURL tokens i p =
  Ret (fold_left add_entry (spot_entries baseURL (mkSpotMeta [p] tokens)) i).
Proof.
  unfold pair_ok, map_spot, spot_entries. cbn [spotmeta_Universe spotmeta_Tokens omap list_omap].
  destruct (spot_Tokens p) as [|base [|quote rest]]; try done. intros [Hb Hq].
  change (go_index (base :: quote :: rest) 1) with (Ret quote).
  change (go_index (base :: quote :: rest) 0) with (Ret base).
  cbn [mbind outcome_bind].
  destruct (go_index_lookup tokens quote Hq) as [-> ->].
  destruct (go_index_lookup tokens base Hb) as [-> ->].
  destruct (tokens !! Z.to_nat quote) as [q|]; destruct (tokens !! Z.to_nat base) as [b|];
    by rewrite ?(bool_decide_true (None = None)), ?bool_decide_false by done.
Qed.

Lemma map_spots_entries baseURL spotMeta i :
  Forall pair_ok (spotmeta_Universe spotMeta) ->
  map_spots baseURL spotMeta i = Ret (fold_left add_entry (spot_entries baseURL spotMeta) i).
Proof.
  unfold map_spots. destruct spotMeta as [universe tokens]. cbn [spotmeta_Universe spotmeta_Tokens].
  intros Hok. revert i. induction Hok as [|p universe Hp Hok IH]; intros i; [done|].
  cbn [fold_left mbind outcome_bind]. rewrite (map_spot_entries _ _ _ _ Hp), IH.
  unfold spot_entries. cbn [spotmeta_Universe spotmeta_Tokens omap list_omap].
  destruct (spot_Tokens p) as [|b [|q r]]; try done.
  by destruct (tokens !! Z.to_nat b), (tokens !! Z.to_nat q).
Qed.

(** The last entry with a property. *)
Definition last_with {K} `{EqDecision K} (f : asset_entry -> K) (k : K) (l : list asset_entry)
    : option asset_entry := last (filter (fun e => f e = k) l).

Lemma last_with_snoc {K} `{EqDecision K} (f : asset_entry -> K) k l e :
  last_with f k (l ++ [e]) = if decide (f e = k) then Some e else last_with f k l.
Proof.
  unfold last_with. rewrite filter_app, filter_cons, filter_nil.
  case_decide; [apply last_snoc|]. by rewrite app_nil_r.
Qed.

Lemma last_with_Some {K} `{EqDecision K} (f : asset_entry -> K) k l e :
  last_with f k l = Some e -> e ∈ l /\ f e = k.
Proof. intros H%last_Some_elem_of. by apply list_elem_of_filter in H as [? ?]. Qed.

Lemma last_with_is_Some {K} `{EqDecision K} (f : asset_entry -> K) l e :
  e ∈ l -> is_Some (last_with f (f e) l).
Proof.
  intros He. unfold last_with. destruct (last (filter _ l)) eqn:E; [by eexists|].
  apply last_None in E. assert (e ∈ filter (fun x => f x = f e) l) as Hin
    by by apply list_elem_of_filter. rewrite E in Hin. by apply not_elem_of_nil in Hin.
Qed.

Lemma fold_add_entry l i n c a :
  let i' := fold_left add_entry l i in
  info_client i' = info_client i /\
  nameToCoin i' !! n = or_else (entry_coin <$> last_with entry_name n l) (nameToCoin i !! n) /\
  coinToAsset i' !! c = or_else (entry_asset <$> last_with entry_coin c l) (coinToAsset i !! c) /\
  assetToDecimal i' !! a = or_else (entry_decimals <$> last_with entry_asset a l) (assetToDecimal i !! a).
Proof.
  induction l as [|e l IH] using rev_ind; [done|].
  cbn zeta. rewrite fold_left_app_snoc, !last_with_snoc.
  destruct IH as (Ec & En & Ea & Ed). cbn [add_entry add_asset info_client nameToCoin coinToAsset assetToDecimal].
  split; [exact Ec|]. repeat split;
    (rewrite lookup_insert; case_decide; [done|assumption]).
Qed.

Lemma or_else_None_r {A} (x : option A) : or_else x None = x.
Proof. by destruct x. Qed.

Lemma fold_add_entry_empty l url n c a :
  let i' := fold_left add_entry l (mkInfo url ∅ ∅ ∅) in
  nameToCoin i' !! n = entry_coin <$> last_with entry_name n l /\
  coinToAsset i' !! c = entry_asset <$> last_with entry_coin c l /\
  assetToDecimal i' !! a = entry_decimals <$> last_with entry_asset a l.
Proof.
  destruct (fold_add_entry l (mkInfo url ∅ ∅ ∅) n c a) as (_ & En & Ea & Ed).
  cbn [nameToCoin coinToAsset assetToDecimal] in En, Ea, Ed.
  rewrite lookup_empty in En. rewrite lookup_empty in Ea. rewrite lookup_empty in Ed.
  cbn zeta. rewrite En, Ea, Ed. repeat split; apply or_else_None_r.
Qed.

(** Every name leads to an asset, and every asset has its decimals. *)
Record info_wf (i : Info) : Prop := {
  wf_names : forall name coin, nameToCoin i !! name = Some coin -> is_Some (coinToAsset i !! coin);
  wf_assets : forall coin asset, coinToAsset i !! coin = Some asset -> is_Some (assetToDecimal i !! asset);
}.

Lemma add_entry_wf i e : info_wf i -> info_wf (add_entry i e).
Proof.
  intros [Hn Ha]. split; cbn [add_entry add_asset nameToCoin coinToAsset assetToDecimal].
  - intros name coin. rewrite lookup_insert. rewrite (lookup_insert _ (entry_coin e) coin).
    case_decide; case_decide; intros E; try (by eexists); simplify_eq; eauto.
  - intros coin asset. rewrite lookup_insert. rewrite (lookup_insert _ (entry_asset e) asset).
    case_decide; case_decide; intros E; try (by eexists); simplify_eq; eauto.
Qed.

Lemma map_spot_wf baseURL tokens i p i' :
  map_spot baseURL tokens i p = Ret i' -> info_wf i -> info_wf i'.
Proof.
  unfold map_spot, mbind, outcome_bind. intros E Hi.
  repeat case_match; simplify_eq; try done. by apply (add_entry_wf i (mkEntry _ _ _ _)).
Qed.

Lemma map_spots_wf baseURL spotMeta i i' :
  map_spots baseURL spotMeta i = Ret i' -> info_wf i -> info_wf i'.
Proof.
  unfold map_spots. intros E Hi.
  assert (forall o, (forall j, o = Ret j -> info_wf j) ->
    forall j, fold_left (fun o spotInfo => i ← o; map_spot baseURL (spotmeta_Tokens spotMeta) i spotInfo)
      (spotmeta_Universe spotMeta) o = Ret j -> info_wf j) as H.
  { clear E. induction (spotmeta_Universe spotMeta) as [|p u IH]; intros o Ho j; [apply Ho|].
    cbn [fold_left]. apply IH. intros k Hk. destruct o as [i0|]; [|discriminate Hk].
    exact (map_spot_wf _ _ i0 p k Hk (Ho i0 eq_refl)). }
  apply (H (Ret i)); [by intros j [= <-]|exact E].
Qed.

Lemma map_perps_wf i asset universe : info_wf i -> info_wf (map_perps i asset universe).
Proof.
  intros Hi. rewrite map_perps_entries.
  apply fold_left_inv; [done|]. intros j e _. apply add_entry_wf.
Qed.

Lemma empty_info_wf url : info_wf (mkInfo url ∅ ∅ ∅).
Proof. by split. Qed.

Section new_info.
Context `{Http} `{Json} `{Lexer}.

(** C32. Whatever metadata is given or fetched, tables that [NewInfo] returns
    are well formed: the coin of every name has an asset number and every
    asset number has its decimals, so no order for a listed name falls back
    to the zero values. *)
Theorem NewInfo_wf (baseURL : string) (meta : option Meta) (spotMeta : option SpotMeta)
    (s s' : session) (i : Info)
    (Hnew : NewInfo baseURL meta spotMeta s = Ret (s', inl i)) :
  info_wf i.
Proof.
  apply api_bind_inv in Hnew as (universe & s1 & _ & Hnew).
  apply api_bind_inv in Hnew as (spot & s2 & _ & Hnew).
  destruct (map_spots baseURL spot _) as [j|] eqn:E; [|done].
  injection Hnew as _ <-. eapply map_spots_wf; [exact E|]. apply map_perps_wf, empty_info_wf.
Qed.

(** C26. [NewInfo] from given metadata whose spot pairs have their two token
    indices lists the perpetuals from 0 in their order and the spot pairs
    from 10000, and a name resolves to the asset of the last entry whose coin
    is the coin the last entry of that name has; a name that is not listed
    (with no coin of empty name) resolves to asset 0, the first perpetual. *)
Theorem NewInfo_resolves (baseURL : string) (meta : Meta) (spotMeta : SpotMeta) (s : session)
    (Hpairs : Forall pair_ok (spotmeta_Universe spotMeta)) :
  exists i, NewInfo baseURL (Some meta) (Some spotMeta) s = Ret (s, inl i) /\
  let l := perp_entries 0 (meta_Universe meta) ++ spot_entries baseURL spotMeta in
  (forall name, NameToAsset i name =
     match last_with entry_coin (default EmptyString (entry_coin <$> last_with entry_name name l)) l with
     | Some e => entry_asset e
     | None => 0
     end) /\
  (forall asset, assetToDecimal i !! asset = entry_decimals <$> last_with entry_asset asset l).
Proof.
  unfold NewInfo, mbind, api_bind, mbind, outcome_bind, ok, lift_outcome.
  rewrite (map_spots_entries _ _ _ Hpairs), map_perps_entries, <- fold_left_app.
  eexists. split; [reflexivity|]. cbn zeta.
  set (l := perp_entries 0 (meta_Universe meta) ++ _).
  pose proof (fold_add_entry_empty l (NewClient baseURL)) as Hl. cbn zeta in Hl. split.
  - intros name. unfold NameToAsset.
    destruct (Hl name EmptyString 0) as (-> & _).
    destruct (Hl name (default EmptyString (entry_coin <$> last_with entry_name name l)) 0)
      as (_ & -> & _).
    by destruct (last_with entry_coin _ l).
  - intros asset. apply (Hl EmptyString EmptyString asset).
Qed.
End new_info.

(** ** Witnesses *)

Definition sample_meta : Meta :=
  mkMeta [mkAssetInfo "BTC" 5 50 0 false false; mkAssetInfo "abc:TSLA" 3 10 0 false false;
          mkAssetInfo "ETH" 4 50 0 false false; mkAssetInfo "xyz:BTC" 2 20 0 true false] [].

Definition sample_spot : SpotMeta :=
  mkSpotMeta [mkSpotAssetInfo "@142" [1; 0] 142 false]
    [mkSpotTokenInfo "USDC" 8 8 0 "0x6d" true None None;
     mkSpotTokenInfo "UBTC" 5 10 1 "0x8f" false None None].

(** A server that answers nothing and a parser that reads nothing: the sample
    metadata is given. *)
Definition silent_http : Http := {| http_Do := fun _ _ => HttpFailed "no route to host" |}.
Definition null_json : Json := {|
  json_parse := fun s => if decide (s = "null") then inl VNull else inr "invalid character";
  json_Marshal_error := fun _ => "json: unsupported value";
  json_type_error := fun _ t => "json: cannot unmarshal into Go value of type " +:+ t;
  json_any := fun v => v;
  json_Marshal := fun _ => "{}";
|}.

Definition new_session : session := mkSession 0 None [].

Definition sample_info : Info :=
  match @NewInfo silent_http null_json reference_lexer MainnetAPIURL (Some sample_meta)
          (Some sample_spot) new_session with
  | Ret (_, inl i) => i
  | _ => mkInfo EmptyString ∅ ∅ ∅
  end.

(** The builder-dex coin listed last takes the name over from the exchange's
    own perpetual, and an unlisted name is asset 0. *)
Example sample_assets :
  map (NameToAsset sample_info) ["ETH"; "BTC"; "BTCUSDC"; "TSLA"; "DOGE"] = [2; 3; 10142; 0; 0].
Proof. vm_compute. reflexivity. Qed.

Lemma NewInfo_wf_witness : info_wf sample_info.
Proof.
  apply (@NewInfo_wf silent_http null_json reference_lexer MainnetAPIURL (Some sample_meta)
           (Some sample_spot) new_session new_session sample_info).
  vm_compute. reflexivity.
Defined.

Lemma NewInfo_resolves_witness :
  exists i, @NewInfo silent_http null_json reference_lexer MainnetAPIURL (Some sample_meta)
              (Some sample_spot) new_session = Ret (new_session, inl i) /\
    NameToAsset i "BTC" = 3 /\ assetToDecimal i !! 3 = Some 2.
Proof.
  destruct (@NewInfo_resolves silent_http null_json reference_lexer MainnetAPIURL sample_meta sample_spot
              new_session) as (i & Hi & Hn & Hd).
  - repeat constructor; discriminate.
  - exists i. split; [exact Hi|]. rewrite Hn, Hd. by vm_compute.
Defined.

(** A spot pair listed with one token makes [NewInfo] panic. *)
Lemma NewInfo_panics_on_short_pair `{Http} `{Json} `{Lexer} baseURL meta spotMeta s p :
  head (spotmeta_Universe spotMeta) = Some p -> (length (spot_Tokens p) < 2)%nat ->
  NewInfo baseURL (Some meta) (Some spotMeta) s = Panic.
Proof.
  intros Hp Hl. unfold NewInfo, mbind, api_bind, mbind, outcome_bind, ok, lift_outcome.
  assert (forall i, map_spots baseURL spotMeta i = Panic) as ->; [|done].
  intros i. unfold map_spots. destruct (spotmeta_Universe spotMeta) as [|q u]; [done|].
  cbn in Hp. simplify_eq. cbn [fold_left mbind outcome_bind].
  assert (map_spot baseURL (spotmeta_Tokens spotMeta) i p = Panic) as ->.
  { unfold map_spot. destruct (spot_Tokens p) as [|a [|b l]]; [done|done|simpl in Hl; lia]. }
  clear. induction u as [|x u IH]; [done|]. exact IH.
Qed.
