(* ===== verification/SdkSigning.v ===== *)
(** * pkg/go-hyperliquid/signing.go

    What a signature covers: the bytes hashed for an action ([actionHash]), the
    phantom agent and the typed data around the hash, and the signature's
    parts.  The msgpack encoder, Keccak-256, EIP-712 hashing, ECDSA and
    [hexutil] are third-party code and arguments here; [MsgpackLaws] states
    that the encoding is self-delimiting. *)

From Stdlib Require Import ZArith Lia Ascii.
From Stdlib Require Import Floats.SpecFloat.
From stdpp Require Import gmap strings list pretty.
From S2P Require Import Prelude Float64 GoStrings GoMath SdkClient.
Local Open Scope Z_scope.

(** ** Bytes *)

(** Bytes are integers from 0 to 255. *)
Abbreviation bytes := (list Z).

(** [binary.BigEndian.PutUint64] and, for any width, the [k] low bytes of [n]
    from the highest. *)
Fixpoint be_bytes (k : nat) (n : Z) : bytes :=
  match k with
  | O => []
  | S k => (n / 256 ^ Z.of_nat k) mod 256 :: be_bytes k n
  end.

(** [new(big.Int).SetBytes]. *)
Definition be_value (l : bytes) : Z := fold_left (fun n b => 256 * n + b) l 0.

Lemma length_be_bytes k n : length (be_bytes k n) = k.
Proof. induction k as [|k IH]; [done|]. simpl. by rewrite IH. Qed.

Lemma be_value_acc l acc :
  fold_left (fun n b => 256 * n + b) l acc = acc * 256 ^ Z.of_nat (length l) + be_value l.
Proof.
  unfold be_value. revert acc. induction l as [|b l IH]; intros acc; [simpl; lia|].
  cbn [fold_left length]. rewrite IH, (IH (256 * 0 + b)).
  rewrite Nat2Z.inj_succ, Z.pow_succ_r by lia. lia.
Qed.

Lemma be_value_bytes k n : be_value (be_bytes k n) = n mod 256 ^ Z.of_nat k.
Proof.
  induction k as [|k IH]; [by rewrite Z.mod_1_r|].
  cbn [be_bytes]. unfold be_value. cbn [fold_left]. rewrite be_value_acc, IH, length_be_bytes.
  rewrite Nat2Z.inj_succ, Z.pow_succ_r by lia.
  assert (0 < 256 ^ Z.of_nat k) by (apply Z.pow_pos_nonneg; lia).
  rewrite (Z.mul_comm 256 (256 ^ Z.of_nat k)), Z.rem_mul_r by lia. lia.
Qed.

(** A number below [256^k] is read back from its [k] bytes. *)
Lemma be_bytes_roundtrip k n : 0 <= n < 256 ^ Z.of_nat k -> be_value (be_bytes k n) = n.
Proof. intros Hn. rewrite be_value_bytes. by apply Z.mod_small. Qed.

(** [hex.DecodeString] without its error: the bytes before the first bad
    character. *)
Definition hex_value (a : ascii) : option Z :=
  let n := Z.of_nat (nat_of_ascii a) in
  if decide (48 <= n <= 57) then Some (n - 48)
  else if decide (97 <= n <= 102) then Some (n - 87)
  else if decide (65 <= n <= 70) then Some (n - 55)
  else None.

Fixpoint hex_DecodeString (s : string) : bytes :=
  match s with
  | String a (String b s) =>
      match hex_value a, hex_value b with
      | Some x, Some y => (16 * x + y) :: hex_DecodeString s
      | _, _ => []
      end
  | _ => []
  end.

(** [strings.TrimPrefix(s, "0x")]. *)
Definition trim_0x (s : string) : string :=
  match s with
  | String a (String b t) => if decide (a = "0"%char /\ b = "x"%char) then t else s
  | _ => s
  end.

Definition addressToBytes (address : string) : bytes := hex_DecodeString (trim_0x address).

Example address_bytes : addressToBytes "0x00ff10Ab" = [0; 255; 16; 171].
Proof. reflexivity. Qed.
Example address_malformed : addressToBytes "0x00fg10" = [0].
Proof. reflexivity. Qed.

(** A string slice: nil ([None]) is written as null. *)
Definition strings_value (l : option (list string)) : value :=
  match l with Some l => VArray (map VString l) | None => VNull end.

Arguments be_bytes : simpl never.

(** ** Third-party code *)

Class Msgpack := { msgpack_Encode : value -> bytes + string }.

(** No encoding is a proper prefix of another. *)
Class MsgpackLaws (M : Msgpack) : Prop := {
  msgpack_prefix_free : forall v1 v2 b1 b2 r1 r2,
    msgpack_Encode v1 = inl b1 -> msgpack_Encode v2 = inl b2 ->
    b1 ++ r1 = b2 ++ r2 -> b1 = b2;
}.

(** [crypto.Keccak256], EIP-712's [HashStruct] of the domain and of the
    message, [crypto.Sign] and [hexutil.EncodeBig]; a private key is a number. *)
Record PhantomAgent := mkPhantomAgent { pa_source : string; pa_connectionId : bytes }.

Record TypedData := mkTypedData {
  td_ChainId : Z; td_Name : string; td_Version : string; td_VerifyingContract : string;
  td_Types : list (string * list (string * string));
  td_PrimaryType : string;
  td_Message : PhantomAgent;
}.

Class Crypto := {
  Keccak256 : bytes -> bytes;
  HashStruct_domain : TypedData -> bytes + string;
  HashStruct_message : TypedData -> bytes + string;
  crypto_Sign : bytes -> Z -> bytes + string;
  EncodeBig : Z -> string;
}.

(** ** signing.go *)

Section signing.
Context `{Msgpack} `{Crypto}.

(** What follows the action in the hashed bytes: the nonce, the vault and the
    expiry. *)
Definition vault_bytes (vaultAddress : string) : bytes :=
  if decide (vaultAddress = EmptyString) then [0] else 1 :: addressToBytes vaultAddress.

Definition expires_bytes (expiresAfter : option Z) : outcome bytes :=
  match expiresAfter with
  | None => Ret []
  | Some t => if t <? 0 then Panic else Ret (0 :: be_bytes 8 t)
  end.

Definition action_preimage (action : value) (vaultAddress : string) (nonce : Z)
    (expiresAfter : option Z) : outcome bytes :=
  match msgpack_Encode action with
  | inr _ => Panic
  | inl data =>
      if nonce <? 0 then Panic
      else
        let data := data ++ be_bytes 8 nonce in
        let data := data ++ vault_bytes vaultAddress in
        e ← expires_bytes expiresAfter;
        Ret (data ++ e)
  end.

Definition actionHash (action : value) (vaultAddress : string) (nonce : Z)
    (expiresAfter : option Z) : outcome bytes :=
  data ← action_preimage action vaultAddress nonce expiresAfter;
  Ret (Keccak256 data).

Definition constructPhantomAgent (hash : bytes) (isMainnet : bool) : PhantomAgent :=
  mkPhantomAgent (if isMainnet then "a" else "b") hash.

Definition l1Payload (phantomAgent : PhantomAgent) : TypedData :=
  mkTypedData 1337 "Exchange" "1" "0x0000000000000000000000000000000000000000"
    [("Agent", [("source", "string"); ("connectionId", "bytes32")]);
     ("EIP712Domain", [("name", "string"); ("version", "string"); ("chainId", "uint256");
                       ("verifyingContract", "address")])]
    "Agent" phantomAgent.

Record SignatureResult := mkSignatureResult { sig_R : string; sig_S : string; sig_V : Z }.

Definition signInner (privateKey : Z) (typedData : TypedData) : outcome (SignatureResult + string) :=
  match HashStruct_domain typedData with
  | inr err => Ret (inr ("failed to hash domain: " +:+ err))
  | inl domainSeparator =>
      match HashStruct_message typedData with
      | inr err => Ret (inr ("failed to hash typed data: " +:+ err))
      | inl typedDataHash =>
          let rawData := [25; 1] ++ domainSeparator ++ typedDataHash in
          match crypto_Sign (Keccak256 rawData) privateKey with
          | inr err => Ret (inr ("failed to sign message: " +:+ err))
          | inl signature =>
              v ← match signature !! 64%nat with Some b => Ret b | None => Panic end;
              Ret (inl (mkSignatureResult (EncodeBig (be_value (take 32 signature)))
                          (EncodeBig (be_value (take 32 (drop 32 signature)))) (v + 27)))
          end
      end
  end.

Definition SignL1Action (privateKey : Z) (action : value) (vaultAddress : string) (timestamp : Z)
    (expiresAfter : option Z) (isMainnet : bool) : outcome (SignatureResult + string) :=
  hash ← actionHash action vaultAddress timestamp expiresAfter;
  let phantomAgent := constructPhantomAgent hash isMainnet in
  let typedData := l1Payload phantomAgent in
  signInner privateKey typedData.

Definition SignUsdClassTransferAction (privateKey : Z) (amount : float64) (toPerp : bool)
    (timestamp : Z) (isMainnet : bool) : outcome (SignatureResult + string) :=
  let action := go_map [("type", VString "usdClassTransfer"); ("amount", VFloat amount);
                        ("toPerp", VBool toPerp)] in
  SignL1Action privateKey action EmptyString timestamp None isMainnet.

Definition SignSpotTransferAction (privateKey : Z) (amount : float64) (destination token : string)
    (timestamp : Z) (isMainnet : bool) : outcome (SignatureResult + string) :=
  let action := go_map [("type", VString "spotTransfer"); ("amount", VFloat amount);
                        ("destination", VString destination); ("token", VString token)] in
  SignL1Action privateKey action EmptyString timestamp None isMainnet.

Definition SignUsdTransferAction (privateKey : Z) (amount : float64) (destination : string)
    (timestamp : Z) (isMainnet : bool) : outcome (SignatureResult + string) :=
  let action := go_map [("type", VString "usdTransfer"); ("amount", VFloat amount);
                        ("destination", VString destination)] in
  SignL1Action privateKey action EmptyString timestamp None isMainnet.

Definition SignPerpDexClassTransferAction (privateKey : Z) (dex token : string) (amount : float64)
    (toPerp : bool) (timestamp : Z) (isMainnet : bool) : outcome (SignatureResult + string) :=
  let action := go_map [("type", VString "perpDexClassTransfer"); ("dex", VString dex);
                        ("token", VString token); ("amount", VFloat amount);
                        ("toPerp", VBool toPerp)] in
  SignL1Action privateKey action EmptyString timestamp None isMainnet.

Definition SignTokenDelegateAction (privateKey : Z) (token : string) (amount : float64)
    (validatorAddress : string) (timestamp : Z) (isMainnet : bool)
    : outcome (SignatureResult + string) :=
  let action := go_map [("type", VString "tokenDelegate"); ("token", VString token);
                        ("amount", VFloat amount); ("validatorAddress", VString validatorAddress)] in
  SignL1Action privateKey action EmptyString timestamp None isMainnet.

Definition SignWithdrawFromBridgeAction (privateKey : Z) (destination : string)
    (amount fee : float64) (timestamp : Z) (isMainnet : bool)
    : outcome (SignatureResult + string) :=
  let action := go_map [("type", VString "withdrawFromBridge"); ("destination", VString destination);
                        ("amount", VFloat amount); ("fee", VFloat fee)] in
  SignL1Action privateKey action EmptyString timestamp None isMainnet.

Definition SignAgent (privateKey : Z) (agentAddress agentName : string)
    (timestamp : Z) (isMainnet : bool) : outcome (SignatureResult + string) :=
  let action := go_map [("type", VString "approveAgent"); ("agentAddress", VString agentAddress);
                        ("agentName", VString agentName)] in
  SignL1Action privateKey action EmptyString timestamp None isMainnet.

Definition SignApproveBuilderFee (privateKey : Z) (builderAddress : string) (maxFeeRate : float64)
    (timestamp : Z) (isMainnet : bool) : outcome (SignatureResult + string) :=
  let action := go_map [("type", VString "approveBuilderFee");
                        ("builderAddress", VString builderAddress); ("maxFeeRate", VFloat maxFeeRate)] in
  SignL1Action privateKey action EmptyString timestamp None isMainnet.

Definition SignConvertToMultiSigUserAction (privateKey : Z) (signers : option (list string)) (threshold : Z)
    (timestamp : Z) (isMainnet : bool) : outcome (SignatureResult + string) :=
  let action := go_map [("type", VString "convertToMultiSigUser");
                        ("signers", strings_value signers); ("threshold", VInt threshold)] in
  SignL1Action privateKey action EmptyString timestamp None isMainnet.

Definition SignMultiSigAction (privateKey : Z) (innerAction : value)
    (signers signatures : option (list string))
    (timestamp : Z) (isMainnet : bool) : outcome (SignatureResult + string) :=
  let action := go_map [("type", VString "multiSig"); ("action", innerAction);
                        ("signers", strings_value signers);
                        ("signatures", strings_value signatures)] in
  SignL1Action privateKey action EmptyString timestamp None isMainnet.
End signing.

(** [FloatToUsdInt]: truncated. *)
Definition FloatToUsdInt (value : float64) : Z := int_of_float64 (fmul value (float64_of_Z 1000000)).

Definition GetTimestampMs (now : Z) : Z := UnixMilli now.

Example usd_int : FloatToUsdInt (fdiv (float64_of_Z 3) (float64_of_Z 2)) = 1500000.
Proof. vm_compute. reflexivity. Qed.

(** ** What a signature binds *)

(** Reading the bytes after the action back. *)
Definition parse_expires (l : bytes) : option (option Z) :=
  match l with
  | [] => Some None
  | 0 :: t => if decide (length t = 8%nat) then Some (Some (be_value t)) else None
  | _ => None
  end.

Definition parse_suffix (l : bytes) : option (Z * option bytes * option Z) :=
  match drop 8 l with
  | 0 :: t => (fun e => (be_value (take 8 l), None, e)) <$> parse_expires t
  | 1 :: t => (fun e => (be_value (take 8 l), Some (take 20 t), e)) <$> parse_expires (drop 20 t)
  | _ => None
  end.

(** A vault that is none or an address of 20 bytes. *)
Definition vault_ok (vaultAddress : string) : Prop :=
  vaultAddress = EmptyString \/ length (addressToBytes vaultAddress) = 20%nat.

Definition signed_vault (vaultAddress : string) : option bytes :=
  if decide (vaultAddress = EmptyString) then None else Some (addressToBytes vaultAddress).

Section binding.
Context `{MsgpackLaws} `{Crypto}.

Lemma expires_bytes_parse expiresAfter e :
  (forall t, expiresAfter = Some t -> in_int64 t) ->
  expires_bytes expiresAfter = Ret e -> parse_expires e = Some expiresAfter.
Proof.
  intros Ht. unfold expires_bytes. destruct expiresAfter as [t|]; [|by intros [= <-]].
  destruct (Z.ltb_spec t 0); [done|]. intros [= <-]. unfold parse_expires.
  rewrite decide_True by apply length_be_bytes. do 2 f_equal.
  apply be_bytes_roundtrip. specialize (Ht t eq_refl).
  unfold in_int64, int64_max in Ht. change (256 ^ Z.of_nat 8) with (2 ^ 64). lia.
Qed.

(** The signed bytes are the action's encoding and a suffix that reads back as
    the nonce, the vault and the expiry. *)
Lemma action_preimage_suffix action vaultAddress nonce expiresAfter data :
  vault_ok vaultAddress -> in_int64 nonce -> (forall t, expiresAfter = Some t -> in_int64 t) ->
  action_preimage action vaultAddress nonce expiresAfter = Ret data ->
  exists b suffix, msgpack_Encode action = inl b /\ data = b ++ suffix /\
    parse_suffix suffix = Some (nonce, signed_vault vaultAddress, expiresAfter).
Proof.
  intros Hv Hn He. unfold action_preimage.
  destruct (msgpack_Encode action) as [b|]; [|done].
  destruct (Z.ltb_spec nonce 0); [done|].
  destruct (expires_bytes expiresAfter) as [e|] eqn:Ee; [|done].
  cbn [mbind outcome_bind]. intros [= <-].
  exists b, (be_bytes 8 nonce ++ vault_bytes vaultAddress ++ e).
  split; [done|]. split; [by rewrite <- !app_assoc|].
  pose proof (expires_bytes_parse _ _ He Ee) as Hpe.
  assert (be_value (be_bytes 8 nonce) = nonce) as Hb.
  { apply be_bytes_roundtrip. unfold in_int64, int64_max in Hn.
    change (256 ^ Z.of_nat 8) with (2 ^ 64). lia. }
  unfold parse_suffix. rewrite take_app_length', drop_app_length' by by rewrite length_be_bytes.
  rewrite Hb. unfold vault_bytes, signed_vault.
  case_decide as Hd; cbn [app]; [by rewrite Hpe|].
  destruct Hv as [?|Hl]; [done|].
  by rewrite take_app_length', drop_app_length', Hpe by done.
Qed.

(** C14. The bytes whose hash is signed determine the encoded action, the
    nonce, the vault (by its 20 bytes, none when empty) and the expiry: two
    requests that sign the same bytes agree on all four, so a signature made
    for one nonce, vault or expiry never covers another. *)
Theorem signature_binds (a1 a2 : value) (v1 v2 : string) (n1 n2 : Z) (e1 e2 : option Z) (data : bytes)
    (Hv1 : vault_ok v1) (Hv2 : vault_ok v2) (Hn1 : in_int64 n1) (Hn2 : in_int64 n2)
    (He1 : forall t, e1 = Some t -> in_int64 t) (He2 : forall t, e2 = Some t -> in_int64 t)
    (H1 : action_preimage a1 v1 n1 e1 = Ret data)
    (H2 : action_preimage a2 v2 n2 e2 = Ret data) :
  msgpack_Encode a1 = msgpack_Encode a2 /\ n1 = n2 /\ signed_vault v1 = signed_vault v2 /\ e1 = e2.
Proof.
  destruct (action_preimage_suffix _ _ _ _ _ Hv1 Hn1 He1 H1) as (b1 & s1 & E1 & D1 & P1).
  destruct (action_preimage_suffix _ _ _ _ _ Hv2 Hn2 He2 H2) as (b2 & s2 & E2 & D2 & P2).
  assert (b1 ++ s1 = b2 ++ s2) as D by congruence.
  pose proof (msgpack_prefix_free _ _ _ _ _ _ E1 E2 D) as <-.
  apply app_inv_head in D as <-. rewrite E1, E2. by simplify_eq.
Qed.
End binding.

(** ** A fragment of msgpack, for the witnesses

    The format's encodings of nil, booleans, integers, strings below 256
    bytes, and arrays and maps below 16 entries; other values are refused. *)
Definition ascii_byte (a : ascii) : Z := Z.of_nat (nat_of_ascii a).
Definition string_bytes (s : string) : bytes := map ascii_byte (String.list_ascii_of_string s).

Definition ref_int (z : Z) : bytes + string :=
  if (0 <=? z) && (z <? 128) then inl [z]
  else if (128 <=? z) && (z <? 2 ^ 64) then inl (207 :: be_bytes 8 z)
  else inr "integer out of range".

Definition ref_string (s : string) : bytes + string :=
  let n := Z.of_nat (String.length s) in
  if n <? 32 then inl ((160 + n) :: string_bytes s)
  else if n <? 256 then inl (217 :: n :: string_bytes s)
  else inr "string too long".

Definition ref_head (base n : nat) (r : bytes + string) : bytes + string :=
  match r with
  | inl b => if decide (n < 16)%nat then inl (Z.of_nat (base + n) :: b) else inr "too many entries"
  | inr err => inr err
  end.

Definition ref_app (r1 r2 : bytes + string) : bytes + string :=
  match r1, r2 with
  | inl b1, inl b2 => inl (b1 ++ b2)
  | inr err, _ => inr err
  | _, inr err => inr err
  end.

Fixpoint ref_encode (v : value) : bytes + string :=
  match v with
  | VNull => inl [192]
  | VBool b => inl [if b then 195 else 194]
  | VInt z => ref_int z
  | VFloat _ => inr "floats are not in the fragment"
  | VString s => ref_string s
  | VArray l =>
      ref_head 144 (length l)
        ((fix elems (l : list value) : bytes + string :=
            match l with [] => inl [] | v :: l => ref_app (ref_encode v) (elems l) end) l)
  | VStruct fs | VMap fs =>
      ref_head 128 (length fs)
        ((fix fields (fs : list (string * value)) : bytes + string :=
            match fs with
            | [] => inl []
            | (k, v) :: fs => ref_app (ref_string k) (ref_app (ref_encode v) (fields fs))
            end) fs)
  end.

Definition reference_msgpack : Msgpack := {| msgpack_Encode := ref_encode |}.

(** Skipping one encoded value. *)
Fixpoint skip_value (fuel : nat) (l : bytes) : option bytes :=
  match fuel, l with
  | S fuel, h :: t =>
      if h <? 128 then Some t
      else if h <? 144 then Nat.iter (2 * Z.to_nat (h - 128)) (fun o => o ≫= skip_value fuel) (Some t)
      else if h <? 160 then Nat.iter (Z.to_nat (h - 144)) (fun o => o ≫= skip_value fuel) (Some t)
      else if h <? 192 then Some (drop (Z.to_nat (h - 160)) t)
      else if h =? 207 then Some (drop 8 t)
      else if h =? 217 then match t with n :: t => Some (drop (Z.to_nat n) t) | [] => None end
      else Some t
  | _, _ => None
  end.

(** Skipping reads exactly one encoding, with enough fuel. *)
Definition skips (b : bytes) : Prop :=
  exists f, forall f' r, (f <= f')%nat -> skip_value f' (b ++ r) = Some r.

Lemma skips_iter bs n :
  length bs = n -> Forall skips bs ->
  exists f, forall f' r, (f <= f')%nat ->
    Nat.iter n (fun o => o ≫= skip_value f') (Some (concat bs ++ r)) = Some r.
Proof.
  intros <-. induction 1 as [|b bs [f Hf] _ [g IH]]; [by exists 0%nat|].
  exists (max f g). intros f' r Hle. cbn [length concat]. rewrite Nat.iter_succ_r.
  cbn [mbind option_bind]. rewrite <- app_assoc, Hf by lia. apply IH. lia.
Qed.

Ltac ltb_lia := repeat match goal with
  | |- context [?a <? ?b] => destruct (Z.ltb_spec a b); [try lia|try lia]
  | |- context [?a =? ?b] => destruct (Z.eqb_spec a b); [try lia|try lia]
  end.

Lemma skips_string s b : ref_string s = inl b -> skips b.
Proof.
  unfold ref_string. set (n := String.length s).
  assert (length (string_bytes s) = n) as Hl.
  { unfold string_bytes. rewrite length_map. subst n. induction s as [|a s IH]; [done|]. simpl. by rewrite IH. }
  assert (forall r, drop (Z.to_nat (Z.of_nat n)) (string_bytes s ++ r) = r) as Hd
    by (intros r; rewrite Nat2Z.id, <- Hl; apply drop_app_length).
  destruct (Z.ltb_spec (Z.of_nat n) 32); [|destruct (Z.ltb_spec (Z.of_nat n) 256); [|done]];
    intros [= <-]; exists 1%nat; intros [|f'] r Hle; try lia; cbn [skip_value app].
  - ltb_lia.
    replace (160 + Z.of_nat n - 160) with (Z.of_nat n) by lia. by rewrite Hd.
  - ltb_lia. by rewrite Hd.
Qed.

Lemma skips_head base mult n bs b :
  (base = 128 /\ mult = 2 \/ base = 144 /\ mult = 1)%nat ->
  length bs = (mult * n)%nat -> Forall skips bs ->
  ref_head base n (inl (concat bs)) = inl b -> skips b.
Proof.
  intros Hbase Hl Hbs. unfold ref_head. case_decide as Hn; [|done].
  destruct (skips_iter bs _ Hl Hbs) as [f Hf]. intros Hb. injection Hb as <-.
  exists (S f). intros [|f'] r Hle; [lia|]. cbn [skip_value app].
  destruct Hbase as [[-> ->]|[-> ->]]; ltb_lia.
  - replace (2 * Z.to_nat (Z.of_nat (128 + n) - 128))%nat with (2 * n)%nat by lia. apply Hf. lia.
  - replace (Z.to_nat (Z.of_nat (144 + n) - 144)) with (1 * n)%nat by lia. apply Hf. lia.
Qed.

Lemma ref_app_inl r1 r2 b : ref_app r1 r2 = inl b -> exists b1 b2, r1 = inl b1 /\ r2 = inl b2 /\ b = b1 ++ b2.
Proof. destruct r1, r2; intros [= <-]; by eauto. Qed.

Lemma ref_head_inl base n r b : ref_head base n r = inl b -> exists c, r = inl c.
Proof. destruct r; [by eauto|done]. Qed.

Lemma skips_fields fs b :
  Forall (fun f => forall b, ref_encode f.2 = inl b -> skips b) fs ->
  (fix fields (fs : list (string * value)) : bytes + string :=
     match fs with
     | [] => inl []
     | (k, v) :: fs => ref_app (ref_string k) (ref_app (ref_encode v) (fields fs))
     end) fs = inl b ->
  exists bs, b = concat bs /\ length bs = (2 * length fs)%nat /\ Forall skips bs.
Proof.
  intros Hfs. revert b. induction Hfs as [|[k v] fs Hv _ IH]; intros b E.
  - injection E as <-. by exists [].
  - apply ref_app_inl in E as (b1 & b2 & E1 & E2 & ->).
    apply ref_app_inl in E2 as (b3 & b4 & E3 & E4 & ->).
    destruct (IH b4 E4) as (bs & -> & Hl & Hbs). exists (b1 :: b3 :: bs).
    split; [done|]. split; [simpl; lia|].
    constructor; [by eapply skips_string|]. constructor; [by apply Hv|done].
Qed.

Lemma ref_encode_skips v b : ref_encode v = inl b -> skips b.
Proof.
  revert b. induction v as [|x|z|x|s|l IH|fs IH|fs IH] using value_nested_ind; intros b E.
  - injection E as <-. exists 1%nat. intros [|f'] r Hle; [lia|done].
  - injection E as <-. exists 1%nat. intros [|f'] r Hle; [lia|]. by destruct x.
  - unfold ref_encode, ref_int in E.
    destruct ((0 <=? z) && (z <? 128)) eqn:E1; [|destruct ((128 <=? z) && (z <? 2 ^ 64)); [|done]];
      injection E as <-; exists 1%nat; intros [|f'] r Hle; try lia; cbn [skip_value app].
    + apply andb_true_iff in E1 as [_ ->]. done.
    + cbn. rewrite <- (length_be_bytes 8 z). by rewrite drop_app_length.
  - done.
  - by eapply skips_string.
  - cbn [ref_encode] in E. destruct (ref_head_inl _ _ _ _ E) as [c Ec]. rewrite Ec in E.
    assert (exists bs, c = concat bs /\ length bs = (1 * length l)%nat /\ Forall skips bs)
      as (bs & -> & Hl & Hbs).
    { clear E. revert c Ec. induction IH as [|v l Hv _ IHl]; intros c Ec.
      - injection Ec as <-. by exists [].
      - apply ref_app_inl in Ec as (b1 & b2 & E1 & E2 & ->).
        destruct (IHl b2 E2) as (bs & -> & Hl & Hbs). exists (b1 :: bs).
        split; [done|]. split; [simpl; lia|]. constructor; [by apply Hv|done]. }
    eapply (skips_head 144 1); [by right|exact Hl|exact Hbs|exact E].
  - cbn [ref_encode] in E. destruct (ref_head_inl _ _ _ _ E) as [c Ec]. rewrite Ec in E.
    destruct (skips_fields fs c IH Ec) as (bs & -> & Hl & Hbs).
    eapply (skips_head 128 2); [by left|exact Hl|exact Hbs|exact E].
  - cbn [ref_encode] in E. destruct (ref_head_inl _ _ _ _ E) as [c Ec]. rewrite Ec in E.
    destruct (skips_fields fs c IH Ec) as (bs & -> & Hl & Hbs).
    eapply (skips_head 128 2); [by left|exact Hl|exact Hbs|exact E].
Qed.

Lemma reference_msgpack_laws : MsgpackLaws reference_msgpack.
Proof.
  constructor. intros v1 v2 b1 b2 r1 r2 E1 E2 E.
  destruct (ref_encode_skips v1 b1 E1) as [f1 H1], (ref_encode_skips v2 b2 E2) as [f2 H2].
  pose proof (H1 (max f1 f2) r1 ltac:(lia)) as S1. pose proof (H2 (max f1 f2) r2 ltac:(lia)) as S2.
  rewrite E, S2 in S1. injection S1 as ->. by apply app_inv_tail in E.
Qed.

(** A message without its primitives, for the witnesses. *)
Definition no_crypto : Crypto := {|
  Keccak256 := fun b => b;
  HashStruct_domain := fun _ => inl [];
  HashStruct_message := fun td => inl (pa_connectionId (td_Message td));
  crypto_Sign := fun b k => inl (take 32 b ++ replicate (64 - length (take 32 b)) 0 ++ [k mod 2]);
  EncodeBig := fun n => "0x" +:+ pretty n;
|}.

Definition sample_action : value := VStruct [("type", VString "scheduleCancel"); ("time", VInt 5)].
Definition sample_vault : string := "0x1719884eb866cb12b2287399b15f7db5e7d775ea".

Definition sample_bytes : bytes := Eval vm_compute in
  match @action_preimage reference_msgpack sample_action sample_vault 77 (Some 99) with
  | Ret b => b | Panic => [] end.

Lemma sample_bytes_eq :
  @action_preimage reference_msgpack sample_action sample_vault 77 (Some 99) = Ret sample_bytes.
Proof. vm_compute. reflexivity. Qed.

Lemma signature_binds_witness :
  length sample_bytes = 65%nat /\ signed_vault sample_vault = signed_vault sample_vault /\ 77 = 77.
Proof.
  split; [reflexivity|].
  assert (vault_ok sample_vault) as Hv by (right; reflexivity).
  assert (in_int64 77) as Hn by (split; vm_compute; discriminate).
  assert (forall t, Some 99 = Some t -> in_int64 t) as He
    by (intros t [= <-]; split; vm_compute; discriminate).
  destruct (@signature_binds reference_msgpack reference_msgpack_laws
    sample_action sample_action sample_vault sample_vault 77 77 (Some 99) (Some 99) sample_bytes
    Hv Hv Hn Hn He He sample_bytes_eq sample_bytes_eq) as (_ & E1 & E2 & _).
  exact (conj E2 E1).
Defined.
