(* ===== verification/SdkActions.v ===== *)
(** * actions.go and actions_easyjson.go

    The actions a client signs and posts.  Each has two encodings: [enc_X], the
    JSON it is posted as, and [pack_X], what the msgpack encoder makes of its
    tags for the signature.  [posted] relates them. *)

From Stdlib Require Import ZArith.
From stdpp Require Import gmap strings list.
From S2P Require Import Prelude Float64 Models SdkTypes SdkClient EasyJson TypesCodecs.
Local Open Scope Z_scope.

(** ** Structs *)

Record CancelOrderWire := mkCancelOrderWire {
  cow_Asset : Z; cow_OrderID : Z;
}.

Record CancelAction := mkCancelAction {
  ca_Type : string; ca_Cancels : list CancelOrderWire;
}.

Record CancelByCloidWire := mkCancelByCloidWire {
  ccw_Asset : Z; ccw_ClientID : string;
}.

Record CancelByCloidAction := mkCancelByCloidAction {
  cca_Type : string; cca_Cancels : list CancelByCloidWire;
}.

Record UsdClassTransferAction := mkUsdClassTransferAction {
  uct_Type : string; uct_Amount : string; uct_ToPerp : bool; uct_Nonce : Z;
}.

Record SpotTransferAction := mkSpotTransferAction {
  spt_Type : string; spt_Destination : string; spt_Amount : string; spt_Token : string;
  spt_Time : Z;
}.

Record UsdTransferAction := mkUsdTransferAction {
  ust_Type : string; ust_Destination : string; ust_Amount : string; ust_Time : Z;
}.

Record SubAccountTransferAction := mkSubAccountTransferAction {
  sat_Type : string; sat_SubAccountUser : string; sat_IsDeposit : bool; sat_Usd : Z;
}.

Record VaultUsdTransferAction := mkVaultUsdTransferAction {
  vut_Type : string; vut_VaultAddress : string; vut_IsDeposit : bool; vut_Usd : Z;
}.

Record CreateVaultAction := mkCreateVaultAction {
  cva_Type : string; cva_Name : string; cva_Description : string; cva_InitialUsd : Z;
}.

Record VaultModifyAction := mkVaultModifyAction {
  vma_Type : string; vma_VaultAddress : string; vma_AllowDeposits : bool;
  vma_AlwaysCloseOnWithdraw : bool;
}.

Record VaultDistributeAction := mkVaultDistributeAction {
  vda_Type : string; vda_VaultAddress : string; vda_Usd : Z;
}.

Record UpdateLeverageAction := mkUpdateLeverageAction {
  ula_Type : string; ula_Asset : Z; ula_IsCross : bool; ula_Leverage : Z;
}.

Record UpdateIsolatedMarginAction := mkUpdateIsolatedMarginAction {
  uim_Type : string; uim_Asset : Z; uim_IsBuy : bool; uim_Ntli : float64;
}.

Record orderWireTypeLimit := mk_orderWireTypeLimit {
  owl_Tif : string;
}.

Record orderWireTypeTrigger := mk_orderWireTypeTrigger {
  owg_TriggerPx : float64; owg_IsMarket : bool; owg_Tpsl : string;
}.

Record orderWireType := mk_orderWireType {
  owt_Limit : option orderWireTypeLimit; owt_Trigger : option orderWireTypeTrigger;
}.

Record OrderWire := mkOrderWire {
  ow_Asset : Z; ow_IsBuy : bool; ow_LimitPx : string; ow_Size : string; ow_ReduceOnly : bool;
  ow_OrderType : orderWireType; ow_Cloid : option string;
}.

Record OrderAction := mkOrderAction {
  oa_Type : string; oa_Orders : list OrderWire; oa_Grouping : string;
  oa_Builder : option BuilderInfo;
}.

Record ModifyAction := mkModifyAction {
  ma_Type : string; ma_Oid : value; ma_Order : OrderWire;
}.

Record BatchModifyAction := mkBatchModifyAction {
  bma_Type : string; bma_Modifies : list ModifyAction;
}.

Record PerpDexClassTransferAction := mkPerpDexClassTransferAction {
  pdc_Type : string; pdc_Dex : string; pdc_Token : string; pdc_Amount : float64;
  pdc_ToPerp : bool;
}.

Record SubAccountSpotTransferAction := mkSubAccountSpotTransferAction {
  sas_Type : string; sas_SubAccountUser : string; sas_IsDeposit : bool; sas_Token : string;
  sas_Amount : float64;
}.

Record ScheduleCancelAction := mkScheduleCancelAction {
  sca_Type : string; sca_Time : option Z;
}.

Record SetReferrerAction := mkSetReferrerAction {
  sra_Type : string; sra_Code : string;
}.

Record CreateSubAccountAction := mkCreateSubAccountAction {
  csa_Type : string; csa_Name : string;
}.

Record UseBigBlocksAction := mkUseBigBlocksAction {
  ubb_Type : string; ubb_UsingBigBlocks : bool;
}.

Record TokenDelegateAction := mkTokenDelegateAction {
  tda_Type : string; tda_Validator : string; tda_Wei : Z; tda_IsUndelegate : bool; tda_Nonce : Z;
}.

Record WithdrawFromBridgeAction := mkWithdrawFromBridgeAction {
  wfb_Type : string; wfb_Destination : string; wfb_Amount : string; wfb_Time : Z;
}.

Record ApproveAgentAction := mkApproveAgentAction {
  aga_Type : string; aga_AgentAddress : string; aga_AgentName : option string; aga_Nonce : Z;
}.

Record ApproveBuilderFeeAction := mkApproveBuilderFeeAction {
  abf_Type : string; abf_Builder : string; abf_MaxFeeRate : string; abf_Nonce : Z;
}.

Record ConvertToMultiSigUserAction := mkConvertToMultiSigUserAction {
  cms_Type : string; cms_Signers : string; cms_Nonce : Z;
}.

Record MultiSigAction := mkMultiSigAction {
  msa_Type : string; msa_Action : gmap string value; msa_Signers : list string;
  msa_Signatures : list string;
}.

(** ** The posted JSON *)
Section codecs.
Context `{LexerLaws}.

Definition dec_CancelOrderWire (x : CancelOrderWire) : fields CancelOrderWire :=
  fpure mkCancelOrderWire <@> field "a" c_int (cow_Asset x)
    <@> field "o" c_int (cow_OrderID x).
Definition enc_CancelOrderWire (x : CancelOrderWire) : list (string * value) :=
  put "a" c_int (cow_Asset x) ++ put "o" c_int (cow_OrderID x).
Definition codec_CancelOrderWire := codec_of
    (mkCancelOrderWire 0 0)
  dec_CancelOrderWire enc_CancelOrderWire.
Definition ok_CancelOrderWire (x : CancelOrderWire) : Prop :=
  in_int64 (cow_Asset x) /\ in_int64 (cow_OrderID x).
#[export] Instance codec_CancelOrderWire_ok : CodecOK ok_CancelOrderWire codec_CancelOrderWire.
Proof. struct_codec. Qed.

Definition dec_CancelAction (x : CancelAction) : fields CancelAction :=
  fpure mkCancelAction <@> field "type" c_string (ca_Type x)
    <@> field "cancels" (c_list codec_CancelOrderWire) (ca_Cancels x).
Definition enc_CancelAction (x : CancelAction) : list (string * value) :=
  put "type" c_string (ca_Type x) ++ put "cancels" (c_list codec_CancelOrderWire) (ca_Cancels x).
Definition codec_CancelAction := codec_of
    (mkCancelAction EmptyString [])
  dec_CancelAction enc_CancelAction.
Definition ok_CancelAction (x : CancelAction) : Prop :=
  (Forall ok_CancelOrderWire) (ca_Cancels x).
#[export] Instance codec_CancelAction_ok : CodecOK ok_CancelAction codec_CancelAction.
Proof. struct_codec. Qed.

Definition dec_CancelByCloidWire (x : CancelByCloidWire) : fields CancelByCloidWire :=
  fpure mkCancelByCloidWire <@> field "asset" c_int (ccw_Asset x)
    <@> field "cloid" c_string (ccw_ClientID x).
Definition enc_CancelByCloidWire (x : CancelByCloidWire) : list (string * value) :=
  put "asset" c_int (ccw_Asset x) ++ put "cloid" c_string (ccw_ClientID x).
Definition codec_CancelByCloidWire := codec_of
    (mkCancelByCloidWire 0 EmptyString)
  dec_CancelByCloidWire enc_CancelByCloidWire.
Definition ok_CancelByCloidWire (x : CancelByCloidWire) : Prop :=
  in_int64 (ccw_Asset x).
#[export] Instance codec_CancelByCloidWire_ok : CodecOK ok_CancelByCloidWire codec_CancelByCloidWire.
Proof. struct_codec. Qed.

Definition dec_CancelByCloidAction (x : CancelByCloidAction) : fields CancelByCloidAction :=
  fpure mkCancelByCloidAction <@> field "type" c_string (cca_Type x)
    <@> field "cancels" (c_list codec_CancelByCloidWire) (cca_Cancels x).
Definition enc_CancelByCloidAction (x : CancelByCloidAction) : list (string * value) :=
  put "type" c_string (cca_Type x)
  ++ put "cancels" (c_list codec_CancelByCloidWire) (cca_Cancels x).
Definition codec_CancelByCloidAction := codec_of
    (mkCancelByCloidAction EmptyString [])
  dec_CancelByCloidAction enc_CancelByCloidAction.
Definition ok_CancelByCloidAction (x : CancelByCloidAction) : Prop :=
  (Forall ok_CancelByCloidWire) (cca_Cancels x).
#[export] Instance codec_CancelByCloidAction_ok : CodecOK ok_CancelByCloidAction codec_CancelByCloidAction.
Proof. struct_codec. Qed.

Definition dec_UsdClassTransferAction (x : UsdClassTransferAction) : fields UsdClassTransferAction :=
  fpure mkUsdClassTransferAction <@> field "type" c_string (uct_Type x)
    <@> field "amount" c_string (uct_Amount x) <@> field "toPerp" c_bool (uct_ToPerp x)
    <@> field "nonce" c_int (uct_Nonce x).
Definition enc_UsdClassTransferAction (x : UsdClassTransferAction) : list (string * value) :=
  put "type" c_string (uct_Type x) ++ put "amount" c_string (uct_Amount x)
  ++ put "toPerp" c_bool (uct_ToPerp x) ++ put "nonce" c_int (uct_Nonce x).
Definition codec_UsdClassTransferAction := codec_of
    (mkUsdClassTransferAction EmptyString EmptyString false 0)
  dec_UsdClassTransferAction enc_UsdClassTransferAction.
Definition ok_UsdClassTransferAction (x : UsdClassTransferAction) : Prop :=
  in_int64 (uct_Nonce x).
#[export] Instance codec_UsdClassTransferAction_ok : CodecOK ok_UsdClassTransferAction codec_UsdClassTransferAction.
Proof. struct_codec. Qed.

Definition dec_SpotTransferAction (x : SpotTransferAction) : fields SpotTransferAction :=
  fpure mkSpotTransferAction <@> field "type" c_string (spt_Type x)
    <@> field "destination" c_string (spt_Destination x)
    <@> field "amount" c_string (spt_Amount x) <@> field "token" c_string (spt_Token x)
    <@> field "time" c_int (spt_Time x).
Definition enc_SpotTransferAction (x : SpotTransferAction) : list (string * value) :=
  put "type" c_string (spt_Type x) ++ put "destination" c_string (spt_Destination x)
  ++ put "amount" c_string (spt_Amount x) ++ put "token" c_string (spt_Token x)
  ++ put "time" c_int (spt_Time x).
Definition codec_SpotTransferAction := codec_of
    (mkSpotTransferAction EmptyString EmptyString EmptyString EmptyString 0)
  dec_SpotTransferAction enc_SpotTransferAction.
Definition ok_SpotTransferAction (x : SpotTransferAction) : Prop :=
  in_int64 (spt_Time x).
#[export] Instance codec_SpotTransferAction_ok : CodecOK ok_SpotTransferAction codec_SpotTransferAction.
Proof. struct_codec. Qed.

Definition dec_UsdTransferAction (x : UsdTransferAction) : fields UsdTransferAction :=
  fpure mkUsdTransferAction <@> field "type" c_string (ust_Type x)
    <@> field "destination" c_string (ust_Destination x)
    <@> field "amount" c_string (ust_Amount x) <@> field "time" c_int (ust_Time x).
Definition enc_UsdTransferAction (x : UsdTransferAction) : list (string * value) :=
  put "type" c_string (ust_Type x) ++ put "destination" c_string (ust_Destination x)
  ++ put "amount" c_string (ust_Amount x) ++ put "time" c_int (ust_Time x).
Definition codec_UsdTransferAction := codec_of
    (mkUsdTransferAction EmptyString EmptyString EmptyString 0)
  dec_UsdTransferAction enc_UsdTransferAction.
Definition ok_UsdTransferAction (x : UsdTransferAction) : Prop :=
  in_int64 (ust_Time x).
#[export] Instance codec_UsdTransferAction_ok : CodecOK ok_UsdTransferAction codec_UsdTransferAction.
Proof. struct_codec. Qed.

Definition dec_SubAccountTransferAction (x : SubAccountTransferAction) : fields SubAccountTransferAction :=
  fpure mkSubAccountTransferAction <@> field "type" c_string (sat_Type x)
    <@> field "subAccountUser" c_string (sat_SubAccountUser x)
    <@> field "isDeposit" c_bool (sat_IsDeposit x) <@> field "usd" c_int (sat_Usd x).
Definition enc_SubAccountTransferAction (x : SubAccountTransferAction) : list (string * value) :=
  put "type" c_string (sat_Type x) ++ put "subAccountUser" c_string (sat_SubAccountUser x)
  ++ put "isDeposit" c_bool (sat_IsDeposit x) ++ put "usd" c_int (sat_Usd x).
Definition codec_SubAccountTransferAction := codec_of
    (mkSubAccountTransferAction EmptyString EmptyString false 0)
  dec_SubAccountTransferAction enc_SubAccountTransferAction.
Definition ok_SubAccountTransferAction (x : SubAccountTransferAction) : Prop :=
  in_int64 (sat_Usd x).
#[export] Instance codec_SubAccountTransferAction_ok : CodecOK ok_SubAccountTransferAction codec_SubAccountTransferAction.
Proof. struct_codec. Qed.

Definition dec_VaultUsdTransferAction (x : VaultUsdTransferAction) : fields VaultUsdTransferAction :=
  fpure mkVaultUsdTransferAction <@> field "type" c_string (vut_Type x)
    <@> field "vaultAddress" c_string (vut_VaultAddress x)
    <@> field "isDeposit" c_bool (vut_IsDeposit x) <@> field "usd" c_int (vut_Usd x).
Definition enc_VaultUsdTransferAction (x : VaultUsdTransferAction) : list (string * value) :=
  put "type" c_string (vut_Type x) ++ put "vaultAddress" c_string (vut_VaultAddress x)
  ++ put "isDeposit" c_bool (vut_IsDeposit x) ++ put "usd" c_int (vut_Usd x).
Definition codec_VaultUsdTransferAction := codec_of
    (mkVaultUsdTransferAction EmptyString EmptyString false 0)
  dec_VaultUsdTransferAction enc_VaultUsdTransferAction.
Definition ok_VaultUsdTransferAction (x : VaultUsdTransferAction) : Prop :=
  in_int64 (vut_Usd x).
#[export] Instance codec_VaultUsdTransferAction_ok : CodecOK ok_VaultUsdTransferAction codec_VaultUsdTransferAction.
Proof. struct_codec. Qed.

Definition dec_CreateVaultAction (x : CreateVaultAction) : fields CreateVaultAction :=
  fpure mkCreateVaultAction <@> field "type" c_string (cva_Type x)
    <@> field "name" c_string (cva_Name x) <@> field "description" c_string (cva_Description x)
    <@> field "initialUsd" c_int (cva_InitialUsd x).
Definition enc_CreateVaultAction (x : CreateVaultAction) : list (string * value) :=
  put "type" c_string (cva_Type x) ++ put "name" c_string (cva_Name x)
  ++ put "description" c_string (cva_Description x) ++ put "initialUsd" c_int (cva_InitialUsd x).
Definition codec_CreateVaultAction := codec_of
    (mkCreateVaultAction EmptyString EmptyString EmptyString 0)
  dec_CreateVaultAction enc_CreateVaultAction.
Definition ok_CreateVaultAction (x : CreateVaultAction) : Prop :=
  in_int64 (cva_InitialUsd x).
#[export] Instance codec_CreateVaultAction_ok : CodecOK ok_CreateVaultAction codec_CreateVaultAction.
Proof. struct_codec. Qed.

Definition dec_VaultModifyAction (x : VaultModifyAction) : fields VaultModifyAction :=
  fpure mkVaultModifyAction <@> field "type" c_string (vma_Type x)
    <@> field "vaultAddress" c_string (vma_VaultAddress x)
    <@> field "allowDeposits" c_bool (vma_AllowDeposits x)
    <@> field "alwaysCloseOnWithdraw" c_bool (vma_AlwaysCloseOnWithdraw x).
Definition enc_VaultModifyAction (x : VaultModifyAction) : list (string * value) :=
  put "type" c_string (vma_Type x) ++ put "vaultAddress" c_string (vma_VaultAddress x)
  ++ put "allowDeposits" c_bool (vma_AllowDeposits x)
  ++ put "alwaysCloseOnWithdraw" c_bool (vma_AlwaysCloseOnWithdraw x).
Definition codec_VaultModifyAction := codec_of
    (mkVaultModifyAction EmptyString EmptyString false false)
  dec_VaultModifyAction enc_VaultModifyAction.
#[export] Instance codec_VaultModifyAction_ok : CodecOK always codec_VaultModifyAction.
Proof. struct_codec. Qed.

Definition dec_VaultDistributeAction (x : VaultDistributeAction) : fields VaultDistributeAction :=
  fpure mkVaultDistributeAction <@> field "type" c_string (vda_Type x)
    <@> field "vaultAddress" c_string (vda_VaultAddress x) <@> field "usd" c_int (vda_Usd x).
Definition enc_VaultDistributeAction (x : VaultDistributeAction) : list (string * value) :=
  put "type" c_string (vda_Type x) ++ put "vaultAddress" c_string (vda_VaultAddress x)
  ++ put "usd" c_int (vda_Usd x).
Definition codec_VaultDistributeAction := codec_of
    (mkVaultDistributeAction EmptyString EmptyString 0)
  dec_VaultDistributeAction enc_VaultDistributeAction.
Definition ok_VaultDistributeAction (x : VaultDistributeAction) : Prop :=
  in_int64 (vda_Usd x).
#[export] Instance codec_VaultDistributeAction_ok : CodecOK ok_VaultDistributeAction codec_VaultDistributeAction.
Proof. struct_codec. Qed.

Definition dec_UpdateLeverageAction (x : UpdateLeverageAction) : fields UpdateLeverageAction :=
  fpure mkUpdateLeverageAction <@> field "type" c_string (ula_Type x)
    <@> field "asset" c_int (ula_Asset x) <@> field "isCross" c_bool (ula_IsCross x)
    <@> field "leverage" c_int (ula_Leverage x).
Definition enc_UpdateLeverageAction (x : UpdateLeverageAction) : list (string * value) :=
  put "type" c_string (ula_Type x) ++ put "asset" c_int (ula_Asset x)
  ++ put "isCross" c_bool (ula_IsCross x) ++ put "leverage" c_int (ula_Leverage x).
Definition codec_UpdateLeverageAction := codec_of
    (mkUpdateLeverageAction EmptyString 0 false 0)
  dec_UpdateLeverageAction enc_UpdateLeverageAction.
Definition ok_UpdateLeverageAction (x : UpdateLeverageAction) : Prop :=
  in_int64 (ula_Asset x) /\ in_int64 (ula_Leverage x).
#[export] Instance codec_UpdateLeverageAction_ok : CodecOK ok_UpdateLeverageAction codec_UpdateLeverageAction.
Proof. struct_codec. Qed.

Definition dec_UpdateIsolatedMarginAction (x : UpdateIsolatedMarginAction) : fields UpdateIsolatedMarginAction :=
  fpure mkUpdateIsolatedMarginAction <@> field "type" c_string (uim_Type x)
    <@> field "asset" c_int (uim_Asset x) <@> field "isBuy" c_bool (uim_IsBuy x)
    <@> field "ntli" c_float (uim_Ntli x).
Definition enc_UpdateIsolatedMarginAction (x : UpdateIsolatedMarginAction) : list (string * value) :=
  put "type" c_string (uim_Type x) ++ put "asset" c_int (uim_Asset x)
  ++ put "isBuy" c_bool (uim_IsBuy x) ++ put "ntli" c_float (uim_Ntli x).
Definition codec_UpdateIsolatedMarginAction := codec_of
    (mkUpdateIsolatedMarginAction EmptyString 0 false f0)
  dec_UpdateIsolatedMarginAction enc_UpdateIsolatedMarginAction.
Definition ok_UpdateIsolatedMarginAction (x : UpdateIsolatedMarginAction) : Prop :=
  in_int64 (uim_Asset x) /\ f64_finite (uim_Ntli x).
#[export] Instance codec_UpdateIsolatedMarginAction_ok : CodecOK ok_UpdateIsolatedMarginAction codec_UpdateIsolatedMarginAction.
Proof. struct_codec. Qed.

Definition dec_orderWireTypeLimit (x : orderWireTypeLimit) : fields orderWireTypeLimit :=
  fpure mk_orderWireTypeLimit <@> field "tif" c_string (owl_Tif x).
Definition enc_orderWireTypeLimit (x : orderWireTypeLimit) : list (string * value) :=
  put "tif" c_string (owl_Tif x).
Definition codec_orderWireTypeLimit := codec_of
    (mk_orderWireTypeLimit EmptyString)
  dec_orderWireTypeLimit enc_orderWireTypeLimit.
#[export] Instance codec_orderWireTypeLimit_ok : CodecOK always codec_orderWireTypeLimit.
Proof. struct_codec. Qed.

Definition dec_orderWireTypeTrigger (x : orderWireTypeTrigger) : fields orderWireTypeTrigger :=
  fpure mk_orderWireTypeTrigger <@> field "triggerPx" c_float_str (owg_TriggerPx x)
    <@> field "isMarket" c_bool (owg_IsMarket x) <@> field "tpsl" c_string (owg_Tpsl x).
Definition enc_orderWireTypeTrigger (x : orderWireTypeTrigger) : list (string * value) :=
  put "triggerPx" c_float_str (owg_TriggerPx x) ++ put "isMarket" c_bool (owg_IsMarket x)
  ++ put "tpsl" c_string (owg_Tpsl x).
Definition codec_orderWireTypeTrigger := codec_of
    (mk_orderWireTypeTrigger f0 false EmptyString)
  dec_orderWireTypeTrigger enc_orderWireTypeTrigger.
Definition ok_orderWireTypeTrigger (x : orderWireTypeTrigger) : Prop :=
  f64_finite (owg_TriggerPx x).
#[export] Instance codec_orderWireTypeTrigger_ok : CodecOK ok_orderWireTypeTrigger codec_orderWireTypeTrigger.
Proof. struct_codec. Qed.

Definition dec_orderWireType (x : orderWireType) : fields orderWireType :=
  fpure mk_orderWireType <@> field "limit" (c_ptr codec_orderWireTypeLimit) (owt_Limit x)
    <@> field "trigger" (c_ptr codec_orderWireTypeTrigger) (owt_Trigger x).
Definition enc_orderWireType (x : orderWireType) : list (string * value) :=
  put_ptr "limit" codec_orderWireTypeLimit (owt_Limit x)
  ++ put_ptr "trigger" codec_orderWireTypeTrigger (owt_Trigger x).
Definition codec_orderWireType := codec_of
    (mk_orderWireType None None)
  dec_orderWireType enc_orderWireType.
Definition ok_orderWireType (x : orderWireType) : Prop :=
  (ptr_P ok_orderWireTypeTrigger) (owt_Trigger x).
#[export] Instance codec_orderWireType_ok : CodecOK ok_orderWireType codec_orderWireType.
Proof. struct_codec. Qed.

Definition dec_OrderWire (x : OrderWire) : fields OrderWire :=
  fpure mkOrderWire <@> field "a" c_int (ow_Asset x) <@> field "b" c_bool (ow_IsBuy x)
    <@> field "p" c_string (ow_LimitPx x) <@> field "s" c_string (ow_Size x)
    <@> field "r" c_bool (ow_ReduceOnly x) <@> field "t" codec_orderWireType (ow_OrderType x)
    <@> field "c" (c_ptr c_string) (ow_Cloid x).
Definition enc_OrderWire (x : OrderWire) : list (string * value) :=
  put "a" c_int (ow_Asset x) ++ put "b" c_bool (ow_IsBuy x) ++ put "p" c_string (ow_LimitPx x)
  ++ put "s" c_string (ow_Size x) ++ put "r" c_bool (ow_ReduceOnly x)
  ++ put "t" codec_orderWireType (ow_OrderType x) ++ put_ptr "c" c_string (ow_Cloid x).
Definition codec_OrderWire := codec_of
    (mkOrderWire 0 false EmptyString EmptyString false (c_zero codec_orderWireType) None)
  dec_OrderWire enc_OrderWire.
Definition ok_OrderWire (x : OrderWire) : Prop :=
  in_int64 (ow_Asset x) /\ ok_orderWireType (ow_OrderType x).
#[export] Instance codec_OrderWire_ok : CodecOK ok_OrderWire codec_OrderWire.
Proof. struct_codec. Qed.

Definition dec_OrderAction (x : OrderAction) : fields OrderAction :=
  fpure mkOrderAction <@> field "type" c_string (oa_Type x)
    <@> field "orders" (c_list codec_OrderWire) (oa_Orders x)
    <@> field "grouping" c_string (oa_Grouping x)
    <@> field "builder" (c_ptr codec_BuilderInfo) (oa_Builder x).
Definition enc_OrderAction (x : OrderAction) : list (string * value) :=
  put "type" c_string (oa_Type x) ++ put "orders" (c_list codec_OrderWire) (oa_Orders x)
  ++ put "grouping" c_string (oa_Grouping x)
  ++ put_ptr "builder" codec_BuilderInfo (oa_Builder x).
Definition codec_OrderAction := codec_of
    (mkOrderAction EmptyString [] EmptyString None)
  dec_OrderAction enc_OrderAction.
Definition ok_OrderAction (x : OrderAction) : Prop :=
  (Forall ok_OrderWire) (oa_Orders x) /\ (ptr_P ok_BuilderInfo) (oa_Builder x).
#[export] Instance codec_OrderAction_ok : CodecOK ok_OrderAction codec_OrderAction.
Proof. struct_codec. Qed.

Definition dec_ModifyAction (x : ModifyAction) : fields ModifyAction :=
  fpure mkModifyAction <@> field "type" c_string (ma_Type x) <@> field "oid" c_any (ma_Oid x)
    <@> field "order" codec_OrderWire (ma_Order x).
Definition enc_ModifyAction (x : ModifyAction) : list (string * value) :=
  put_string "type" (ma_Type x) ++ put "oid" c_any (ma_Oid x)
  ++ put "order" codec_OrderWire (ma_Order x).
Definition codec_ModifyAction := codec_of
    (mkModifyAction EmptyString VNull (c_zero codec_OrderWire))
  dec_ModifyAction enc_ModifyAction.

Definition dec_BatchModifyAction (x : BatchModifyAction) : fields BatchModifyAction :=
  fpure mkBatchModifyAction <@> field "type" c_string (bma_Type x)
    <@> field "modifies" (c_list codec_ModifyAction) (bma_Modifies x).
Definition enc_BatchModifyAction (x : BatchModifyAction) : list (string * value) :=
  put "type" c_string (bma_Type x)
  ++ put "modifies" (c_list codec_ModifyAction) (bma_Modifies x).
Definition codec_BatchModifyAction := codec_of
    (mkBatchModifyAction EmptyString [])
  dec_BatchModifyAction enc_BatchModifyAction.

Definition dec_PerpDexClassTransferAction (x : PerpDexClassTransferAction) : fields PerpDexClassTransferAction :=
  fpure mkPerpDexClassTransferAction <@> field "type" c_string (pdc_Type x)
    <@> field "dex" c_string (pdc_Dex x) <@> field "token" c_string (pdc_Token x)
    <@> field "amount" c_float (pdc_Amount x) <@> field "toPerp" c_bool (pdc_ToPerp x).
Definition enc_PerpDexClassTransferAction (x : PerpDexClassTransferAction) : list (string * value) :=
  put "type" c_string (pdc_Type x) ++ put "dex" c_string (pdc_Dex x)
  ++ put "token" c_string (pdc_Token x) ++ put "amount" c_float (pdc_Amount x)
  ++ put "toPerp" c_bool (pdc_ToPerp x).
Definition codec_PerpDexClassTransferAction := codec_of
    (mkPerpDexClassTransferAction EmptyString EmptyString EmptyString f0 false)
  dec_PerpDexClassTransferAction enc_PerpDexClassTransferAction.
Definition ok_PerpDexClassTransferAction (x : PerpDexClassTransferAction) : Prop :=
  f64_finite (pdc_Amount x).
#[export] Instance codec_PerpDexClassTransferAction_ok : CodecOK ok_PerpDexClassTransferAction codec_PerpDexClassTransferAction.
Proof. struct_codec. Qed.

Definition dec_SubAccountSpotTransferAction (x : SubAccountSpotTransferAction) : fields SubAccountSpotTransferAction :=
  fpure mkSubAccountSpotTransferAction <@> field "type" c_string (sas_Type x)
    <@> field "subAccountUser" c_string (sas_SubAccountUser x)
    <@> field "isDeposit" c_bool (sas_IsDeposit x) <@> field "token" c_string (sas_Token x)
    <@> field "amount" c_float (sas_Amount x).
Definition enc_SubAccountSpotTransferAction (x : SubAccountSpotTransferAction) : list (string * value) :=
  put "type" c_string (sas_Type x) ++ put "subAccountUser" c_string (sas_SubAccountUser x)
  ++ put "isDeposit" c_bool (sas_IsDeposit x) ++ put "token" c_string (sas_Token x)
  ++ put "amount" c_float (sas_Amount x).
Definition codec_SubAccountSpotTransferAction := codec_of
    (mkSubAccountSpotTransferAction EmptyString EmptyString false EmptyString f0)
  dec_SubAccountSpotTransferAction enc_SubAccountSpotTransferAction.
Definition ok_SubAccountSpotTransferAction (x : SubAccountSpotTransferAction) : Prop :=
  f64_finite (sas_Amount x).
#[export] Instance codec_SubAccountSpotTransferAction_ok : CodecOK ok_SubAccountSpotTransferAction codec_SubAccountSpotTransferAction.
Proof. struct_codec. Qed.

Definition dec_ScheduleCancelAction (x : ScheduleCancelAction) : fields ScheduleCancelAction :=
  fpure mkScheduleCancelAction <@> field "type" c_string (sca_Type x)
    <@> field "time" (c_ptr c_int) (sca_Time x).
Definition enc_ScheduleCancelAction (x : ScheduleCancelAction) : list (string * value) :=
  put "type" c_string (sca_Type x) ++ put_ptr "time" c_int (sca_Time x).
Definition codec_ScheduleCancelAction := codec_of
    (mkScheduleCancelAction EmptyString None)
  dec_ScheduleCancelAction enc_ScheduleCancelAction.
Definition ok_ScheduleCancelAction (x : ScheduleCancelAction) : Prop :=
  (ptr_P in_int64) (sca_Time x).
#[export] Instance codec_ScheduleCancelAction_ok : CodecOK ok_ScheduleCancelAction codec_ScheduleCancelAction.
Proof. struct_codec. Qed.

Definition dec_SetReferrerAction (x : SetReferrerAction) : fields SetReferrerAction :=
  fpure mkSetReferrerAction <@> field "type" c_string (sra_Type x)
    <@> field "code" c_string (sra_Code x).
Definition enc_SetReferrerAction (x : SetReferrerAction) : list (string * value) :=
  put "type" c_string (sra_Type x) ++ put "code" c_string (sra_Code x).
Definition codec_SetReferrerAction := codec_of
    (mkSetReferrerAction EmptyString EmptyString)
  dec_SetReferrerAction enc_SetReferrerAction.
#[export] Instance codec_SetReferrerAction_ok : CodecOK always codec_SetReferrerAction.
Proof. struct_codec. Qed.

Definition dec_CreateSubAccountAction (x : CreateSubAccountAction) : fields CreateSubAccountAction :=
  fpure mkCreateSubAccountAction <@> field "type" c_string (csa_Type x)
    <@> field "name" c_string (csa_Name x).
Definition enc_CreateSubAccountAction (x : CreateSubAccountAction) : list (string * value) :=
  put "type" c_string (csa_Type x) ++ put "name" c_string (csa_Name x).
Definition codec_CreateSubAccountAction := codec_of
    (mkCreateSubAccountAction EmptyString EmptyString)
  dec_CreateSubAccountAction enc_CreateSubAccountAction.
#[export] Instance codec_CreateSubAccountAction_ok : CodecOK always codec_CreateSubAccountAction.
Proof. struct_codec. Qed.

Definition dec_UseBigBlocksAction (x : UseBigBlocksAction) : fields UseBigBlocksAction :=
  fpure mkUseBigBlocksAction <@> field "type" c_string (ubb_Type x)
    <@> field "usingBigBlocks" c_bool (ubb_UsingBigBlocks x).
Definition enc_UseBigBlocksAction (x : UseBigBlocksAction) : list (string * value) :=
  put "type" c_string (ubb_Type x) ++ put "usingBigBlocks" c_bool (ubb_UsingBigBlocks x).
Definition codec_UseBigBlocksAction := codec_of
    (mkUseBigBlocksAction EmptyString false)
  dec_UseBigBlocksAction enc_UseBigBlocksAction.
#[export] Instance codec_UseBigBlocksAction_ok : CodecOK always codec_UseBigBlocksAction.
Proof. struct_codec. Qed.

Definition dec_TokenDelegateAction (x : TokenDelegateAction) : fields TokenDelegateAction :=
  fpure mkTokenDelegateAction <@> field "type" c_string (tda_Type x)
    <@> field "validator" c_string (tda_Validator x) <@> field "wei" c_int (tda_Wei x)
    <@> field "isUndelegate" c_bool (tda_IsUndelegate x) <@> field "nonce" c_int (tda_Nonce x).
Definition enc_TokenDelegateAction (x : TokenDelegateAction) : list (string * value) :=
  put "type" c_string (tda_Type x) ++ put "validator" c_string (tda_Validator x)
  ++ put "wei" c_int (tda_Wei x) ++ put "isUndelegate" c_bool (tda_IsUndelegate x)
  ++ put "nonce" c_int (tda_Nonce x).
Definition codec_TokenDelegateAction := codec_of
    (mkTokenDelegateAction EmptyString EmptyString 0 false 0)
  dec_TokenDelegateAction enc_TokenDelegateAction.
Definition ok_TokenDelegateAction (x : TokenDelegateAction) : Prop :=
  in_int64 (tda_Wei x) /\ in_int64 (tda_Nonce x).
#[export] Instance codec_TokenDelegateAction_ok : CodecOK ok_TokenDelegateAction codec_TokenDelegateAction.
Proof. struct_codec. Qed.

Definition dec_WithdrawFromBridgeAction (x : WithdrawFromBridgeAction) : fields WithdrawFromBridgeAction :=
  fpure mkWithdrawFromBridgeAction <@> field "type" c_string (wfb_Type x)
    <@> field "destination" c_string (wfb_Destination x)
    <@> field "amount" c_string (wfb_Amount x) <@> field "time" c_int (wfb_Time x).
Definition enc_WithdrawFromBridgeAction (x : WithdrawFromBridgeAction) : list (string * value) :=
  put "type" c_string (wfb_Type x) ++ put "destination" c_string (wfb_Destination x)
  ++ put "amount" c_string (wfb_Amount x) ++ put "time" c_int (wfb_Time x).
Definition codec_WithdrawFromBridgeAction := codec_of
    (mkWithdrawFromBridgeAction EmptyString EmptyString EmptyString 0)
  dec_WithdrawFromBridgeAction enc_WithdrawFromBridgeAction.
Definition ok_WithdrawFromBridgeAction (x : WithdrawFromBridgeAction) : Prop :=
  in_int64 (wfb_Time x).
#[export] Instance codec_WithdrawFromBridgeAction_ok : CodecOK ok_WithdrawFromBridgeAction codec_WithdrawFromBridgeAction.
Proof. struct_codec. Qed.

Definition dec_ApproveAgentAction (x : ApproveAgentAction) : fields ApproveAgentAction :=
  fpure mkApproveAgentAction <@> field "type" c_string (aga_Type x)
    <@> field "agentAddress" c_string (aga_AgentAddress x)
    <@> field "agentName" (c_ptr c_string) (aga_AgentName x)
    <@> field "nonce" c_int (aga_Nonce x).
Definition enc_ApproveAgentAction (x : ApproveAgentAction) : list (string * value) :=
  put "type" c_string (aga_Type x) ++ put "agentAddress" c_string (aga_AgentAddress x)
  ++ put_ptr "agentName" c_string (aga_AgentName x) ++ put "nonce" c_int (aga_Nonce x).
Definition codec_ApproveAgentAction := codec_of
    (mkApproveAgentAction EmptyString EmptyString None 0)
  dec_ApproveAgentAction enc_ApproveAgentAction.
Definition ok_ApproveAgentAction (x : ApproveAgentAction) : Prop :=
  in_int64 (aga_Nonce x).
#[export] Instance codec_ApproveAgentAction_ok : CodecOK ok_ApproveAgentAction codec_ApproveAgentAction.
Proof. struct_codec. Qed.

Definition dec_ApproveBuilderFeeAction (x : ApproveBuilderFeeAction) : fields ApproveBuilderFeeAction :=
  fpure mkApproveBuilderFeeAction <@> field "type" c_string (abf_Type x)
    <@> field "builder" c_string (abf_Builder x)
    <@> field "maxFeeRate" c_string (abf_MaxFeeRate x) <@> field "nonce" c_int (abf_Nonce x).
Definition enc_ApproveBuilderFeeAction (x : ApproveBuilderFeeAction) : list (string * value) :=
  put "type" c_string (abf_Type x) ++ put "builder" c_string (abf_Builder x)
  ++ put "maxFeeRate" c_string (abf_MaxFeeRate x) ++ put "nonce" c_int (abf_Nonce x).
Definition codec_ApproveBuilderFeeAction := codec_of
    (mkApproveBuilderFeeAction EmptyString EmptyString EmptyString 0)
  dec_ApproveBuilderFeeAction enc_ApproveBuilderFeeAction.
Definition ok_ApproveBuilderFeeAction (x : ApproveBuilderFeeAction) : Prop :=
  in_int64 (abf_Nonce x).
#[export] Instance codec_ApproveBuilderFeeAction_ok : CodecOK ok_ApproveBuilderFeeAction codec_ApproveBuilderFeeAction.
Proof. struct_codec. Qed.

Definition dec_ConvertToMultiSigUserAction (x : ConvertToMultiSigUserAction) : fields ConvertToMultiSigUserAction :=
  fpure mkConvertToMultiSigUserAction <@> field "type" c_string (cms_Type x)
    <@> field "signers" c_string (cms_Signers x) <@> field "nonce" c_int (cms_Nonce x).
Definition enc_ConvertToMultiSigUserAction (x : ConvertToMultiSigUserAction) : list (string * value) :=
  put "type" c_string (cms_Type x) ++ put "signers" c_string (cms_Signers x)
  ++ put "nonce" c_int (cms_Nonce x).
Definition codec_ConvertToMultiSigUserAction := codec_of
    (mkConvertToMultiSigUserAction EmptyString EmptyString 0)
  dec_ConvertToMultiSigUserAction enc_ConvertToMultiSigUserAction.
Definition ok_ConvertToMultiSigUserAction (x : ConvertToMultiSigUserAction) : Prop :=
  in_int64 (cms_Nonce x).
#[export] Instance codec_ConvertToMultiSigUserAction_ok : CodecOK ok_ConvertToMultiSigUserAction codec_ConvertToMultiSigUserAction.
Proof. struct_codec. Qed.

Definition dec_MultiSigAction (x : MultiSigAction) : fields MultiSigAction :=
  fpure mkMultiSigAction <@> field "type" c_string (msa_Type x)
    <@> field "action" (c_map c_any) (msa_Action x)
    <@> field "signers" (c_list c_string) (msa_Signers x)
    <@> field "signatures" (c_list c_string) (msa_Signatures x).
Definition enc_MultiSigAction (x : MultiSigAction) : list (string * value) :=
  put "type" c_string (msa_Type x) ++ put "action" (c_map c_any) (msa_Action x)
  ++ put "signers" (c_list c_string) (msa_Signers x)
  ++ put "signatures" (c_list c_string) (msa_Signatures x).
Definition codec_MultiSigAction := codec_of
    (mkMultiSigAction EmptyString ∅ [] [])
  dec_MultiSigAction enc_MultiSigAction.

End codecs.

(** ** The signed msgpack *)

Definition pack_ptr {A} (f : A -> value) (p : option A) : value :=
  match p with Some a => f a | None => VNull end.
Definition pack_list {A} (f : A -> value) (l : list A) : value := VArray (map f l).
Definition pack_map (m : gmap string value) : value := go_map (map_to_list m).

Definition omit_empty (key s : string) : list (string * value) :=
  match s with EmptyString => [] | _ => [(key, VString s)] end.

(** [BuilderInfo] has no msgpack tags: its keys are the fields' names. *)
Definition pack_BuilderInfo (x : BuilderInfo) : value :=
  VStruct [("Builder", VString (builder_Builder x)); ("Fee", VInt (builder_Fee x))].

Definition pack_CancelOrderWire (x : CancelOrderWire) : value :=
  VStruct [("a", VInt (cow_Asset x)); ("o", VInt (cow_OrderID x))].

Definition pack_CancelAction (x : CancelAction) : value :=
  VStruct [("type", VString (ca_Type x)); ("cancels", pack_list pack_CancelOrderWire (ca_Cancels x))].

Definition pack_CancelByCloidWire (x : CancelByCloidWire) : value :=
  VStruct [("asset", VInt (ccw_Asset x)); ("cloid", VString (ccw_ClientID x))].

Definition pack_CancelByCloidAction (x : CancelByCloidAction) : value :=
  VStruct [("type", VString (cca_Type x));
    ("cancels", pack_list pack_CancelByCloidWire (cca_Cancels x))].

Definition pack_UsdClassTransferAction (x : UsdClassTransferAction) : value :=
  VStruct [("type", VString (uct_Type x)); ("amount", VString (uct_Amount x));
    ("toPerp", VBool (uct_ToPerp x)); ("nonce", VInt (uct_Nonce x))].

Definition pack_SpotTransferAction (x : SpotTransferAction) : value :=
  VStruct [("type", VString (spt_Type x)); ("destination", VString (spt_Destination x));
    ("amount", VString (spt_Amount x)); ("token", VString (spt_Token x));
    ("time", VInt (spt_Time x))].

Definition pack_UsdTransferAction (x : UsdTransferAction) : value :=
  VStruct [("type", VString (ust_Type x)); ("destination", VString (ust_Destination x));
    ("amount", VString (ust_Amount x)); ("time", VInt (ust_Time x))].

Definition pack_SubAccountTransferAction (x : SubAccountTransferAction) : value :=
  VStruct [("type", VString (sat_Type x)); ("subAccountUser", VString (sat_SubAccountUser x));
    ("isDeposit", VBool (sat_IsDeposit x)); ("usd", VInt (sat_Usd x))].

Definition pack_VaultUsdTransferAction (x : VaultUsdTransferAction) : value :=
  VStruct [("type", VString (vut_Type x)); ("vaultAddress", VString (vut_VaultAddress x));
    ("isDeposit", VBool (vut_IsDeposit x)); ("usd", VInt (vut_Usd x))].

Definition pack_CreateVaultAction (x : CreateVaultAction) : value :=
  VStruct [("type", VString (cva_Type x)); ("name", VString (cva_Name x));
    ("description", VString (cva_Description x)); ("initialUsd", VInt (cva_InitialUsd x))].

Definition pack_VaultModifyAction (x : VaultModifyAction) : value :=
  VStruct [("type", VString (vma_Type x)); ("vaultAddress", VString (vma_VaultAddress x));
    ("allowDeposits", VBool (vma_AllowDeposits x));
    ("alwaysCloseOnWithdraw", VBool (vma_AlwaysCloseOnWithdraw x))].

Definition pack_VaultDistributeAction (x : VaultDistributeAction) : value :=
  VStruct [("type", VString (vda_Type x)); ("vaultAddress", VString (vda_VaultAddress x));
    ("usd", VInt (vda_Usd x))].

Definition pack_UpdateLeverageAction (x : UpdateLeverageAction) : value :=
  VStruct [("type", VString (ula_Type x)); ("asset", VInt (ula_Asset x));
    ("isCross", VBool (ula_IsCross x)); ("leverage", VInt (ula_Leverage x))].

Definition pack_UpdateIsolatedMarginAction (x : UpdateIsolatedMarginAction) : value :=
  VStruct [("type", VString (uim_Type x)); ("asset", VInt (uim_Asset x));
    ("isBuy", VBool (uim_IsBuy x)); ("ntli", VFloat (uim_Ntli x))].

Definition pack_orderWireTypeLimit (x : orderWireTypeLimit) : value :=
  VStruct [("tif", VString (owl_Tif x))].

Definition pack_orderWireTypeTrigger (x : orderWireTypeTrigger) : value :=
  VStruct [("triggerPx", VFloat (owg_TriggerPx x)); ("isMarket", VBool (owg_IsMarket x));
    ("tpsl", VString (owg_Tpsl x))].

Definition pack_orderWireType (x : orderWireType) : value :=
  VStruct (omitempty "limit" pack_orderWireTypeLimit (owt_Limit x)
    ++ omitempty "trigger" pack_orderWireTypeTrigger (owt_Trigger x)).

Definition pack_OrderWire (x : OrderWire) : value :=
  VStruct ([("a", VInt (ow_Asset x)); ("b", VBool (ow_IsBuy x)); ("p", VString (ow_LimitPx x));
    ("s", VString (ow_Size x)); ("r", VBool (ow_ReduceOnly x));
    ("t", pack_orderWireType (ow_OrderType x))] ++ omitempty "c" VString (ow_Cloid x)).

Definition pack_OrderAction (x : OrderAction) : value :=
  VStruct ([("type", VString (oa_Type x)); ("orders", pack_list pack_OrderWire (oa_Orders x));
    ("grouping", VString (oa_Grouping x))]
    ++ omitempty "builder" pack_BuilderInfo (oa_Builder x)).

Definition pack_ModifyAction (x : ModifyAction) : value :=
  VStruct (omit_empty "type" (ma_Type x) ++ [("oid", ma_Oid x); ("order", pack_OrderWire (ma_Order x))]).

Definition pack_BatchModifyAction (x : BatchModifyAction) : value :=
  VStruct [("type", VString (bma_Type x)); ("modifies", pack_list pack_ModifyAction (bma_Modifies x))].

Definition pack_PerpDexClassTransferAction (x : PerpDexClassTransferAction) : value :=
  VStruct [("type", VString (pdc_Type x)); ("dex", VString (pdc_Dex x));
    ("token", VString (pdc_Token x)); ("amount", VFloat (pdc_Amount x));
    ("toPerp", VBool (pdc_ToPerp x))].

Definition pack_SubAccountSpotTransferAction (x : SubAccountSpotTransferAction) : value :=
  VStruct [("type", VString (sas_Type x)); ("subAccountUser", VString (sas_SubAccountUser x));
    ("isDeposit", VBool (sas_IsDeposit x)); ("token", VString (sas_Token x));
    ("amount", VFloat (sas_Amount x))].

Definition pack_ScheduleCancelAction (x : ScheduleCancelAction) : value :=
  VStruct ([("type", VString (sca_Type x))] ++ omitempty "time" VInt (sca_Time x)).

Definition pack_SetReferrerAction (x : SetReferrerAction) : value :=
  VStruct [("type", VString (sra_Type x)); ("code", VString (sra_Code x))].

Definition pack_CreateSubAccountAction (x : CreateSubAccountAction) : value :=
  VStruct [("type", VString (csa_Type x)); ("name", VString (csa_Name x))].

Definition pack_UseBigBlocksAction (x : UseBigBlocksAction) : value :=
  VStruct [("type", VString (ubb_Type x)); ("usingBigBlocks", VBool (ubb_UsingBigBlocks x))].

Definition pack_TokenDelegateAction (x : TokenDelegateAction) : value :=
  VStruct [("type", VString (tda_Type x)); ("validator", VString (tda_Validator x));
    ("wei", VInt (tda_Wei x)); ("isUndelegate", VBool (tda_IsUndelegate x));
    ("nonce", VInt (tda_Nonce x))].

Definition pack_WithdrawFromBridgeAction (x : WithdrawFromBridgeAction) : value :=
  VStruct [("type", VString (wfb_Type x)); ("destination", VString (wfb_Destination x));
    ("amount", VString (wfb_Amount x)); ("time", VInt (wfb_Time x))].

Definition pack_ApproveAgentAction (x : ApproveAgentAction) : value :=
  VStruct ([("type", VString (aga_Type x)); ("agentAddress", VString (aga_AgentAddress x))]
    ++ omitempty "agentName" VString (aga_AgentName x) ++ [("nonce", VInt (aga_Nonce x))]).

Definition pack_ApproveBuilderFeeAction (x : ApproveBuilderFeeAction) : value :=
  VStruct [("type", VString (abf_Type x)); ("builder", VString (abf_Builder x));
    ("maxFeeRate", VString (abf_MaxFeeRate x)); ("nonce", VInt (abf_Nonce x))].

Definition pack_ConvertToMultiSigUserAction (x : ConvertToMultiSigUserAction) : value :=
  VStruct [("type", VString (cms_Type x)); ("signers", VString (cms_Signers x));
    ("nonce", VInt (cms_Nonce x))].

Definition pack_MultiSigAction (x : MultiSigAction) : value :=
  VStruct [("type", VString (msa_Type x)); ("action", pack_map (msa_Action x));
    ("signers", pack_list VString (msa_Signers x));
    ("signatures", pack_list VString (msa_Signatures x))].
