(* ===== verification/SdkExchange.v ===== *)
(** * pkg/go-hyperliquid/exchange.go

    An [Exchange] signs actions and posts them: [executeAction] takes the next
    nonce, signs the msgpack encoding of the action and posts its JSON with the
    signature.  [posted_is_signed] compares the two encodings, and
    [run_calls_nonces] composes the calls with the nonces. *)

From Stdlib Require Import ZArith Lia Ascii.
From stdpp Require Import gmap strings list sorting.
From S2P Require Import Prelude Float64 Models SdkTypes SdkNonce SdkClient EasyJson TypesCodecs SdkDecoders SdkResponse SdkInfo SdkSigning SdkActions.
Local Open Scope Z_scope.

(** ** Actions

    What is handed to [executeAction] and [postAction] as [any]: the structs
    of actions.go, and maps.  A map's values carry their two encodings where
    these differ. *)
Inductive action : Type :=
| ActOrder (a : OrderAction)
| ActModify (a : ModifyAction)
| ActBatchModify (a : BatchModifyAction)
| ActCancel (a : CancelAction)
| ActCancelByCloid (a : CancelByCloidAction)
| ActUpdateLeverage (a : UpdateLeverageAction)
| ActUpdateIsolatedMargin (a : UpdateIsolatedMarginAction)
| ActScheduleCancel (a : ScheduleCancelAction)
| ActSetReferrer (a : SetReferrerAction)
| ActCreateSubAccount (a : CreateSubAccountAction)
| ActUsdClassTransfer (a : UsdClassTransferAction)
| ActSubAccountTransfer (a : SubAccountTransferAction)
| ActVaultUsdTransfer (a : VaultUsdTransferAction)
| ActCreateVault (a : CreateVaultAction)
| ActVaultModify (a : VaultModifyAction)
| ActVaultDistribute (a : VaultDistributeAction)
| ActUsdTransfer (a : UsdTransferAction)
| ActSpotTransfer (a : SpotTransferAction)
| ActUseBigBlocks (a : UseBigBlocksAction)
| ActPerpDexClassTransfer (a : PerpDexClassTransferAction)
| ActSubAccountSpotTransfer (a : SubAccountSpotTransferAction)
| ActTokenDelegate (a : TokenDelegateAction)
| ActWithdrawFromBridge (a : WithdrawFromBridgeAction)
| ActApproveAgent (a : ApproveAgentAction)
| ActApproveBuilderFee (a : ApproveBuilderFeeAction)
| ActConvertToMultiSigUser (a : ConvertToMultiSigUserAction)
| ActMap (json packed : list (string * value)).

(** A map whose values are encoded alike. *)
Definition plain_map (m : list (string * value)) : action := ActMap m m.

Section actions.
Context `{Lexer}.

Definition action_json (a : action) : value :=
  match a with
  | ActOrder a => c_enc codec_OrderAction a
  | ActModify a => c_enc codec_ModifyAction a
  | ActBatchModify a => c_enc codec_BatchModifyAction a
  | ActCancel a => c_enc codec_CancelAction a
  | ActCancelByCloid a => c_enc codec_CancelByCloidAction a
  | ActUpdateLeverage a => c_enc codec_UpdateLeverageAction a
  | ActUpdateIsolatedMargin a => c_enc codec_UpdateIsolatedMarginAction a
  | ActScheduleCancel a => c_enc codec_ScheduleCancelAction a
  | ActSetReferrer a => c_enc codec_SetReferrerAction a
  | ActCreateSubAccount a => c_enc codec_CreateSubAccountAction a
  | ActUsdClassTransfer a => c_enc codec_UsdClassTransferAction a
  | ActSubAccountTransfer a => c_enc codec_SubAccountTransferAction a
  | ActVaultUsdTransfer a => c_enc codec_VaultUsdTransferAction a
  | ActCreateVault a => c_enc codec_CreateVaultAction a
  | ActVaultModify a => c_enc codec_VaultModifyAction a
  | ActVaultDistribute a => c_enc codec_VaultDistributeAction a
  | ActUsdTransfer a => c_enc codec_UsdTransferAction a
  | ActSpotTransfer a => c_enc codec_SpotTransferAction a
  | ActUseBigBlocks a => c_enc codec_UseBigBlocksAction a
  | ActPerpDexClassTransfer a => c_enc codec_PerpDexClassTransferAction a
  | ActSubAccountSpotTransfer a => c_enc codec_SubAccountSpotTransferAction a
  | ActTokenDelegate a => c_enc codec_TokenDelegateAction a
  | ActWithdrawFromBridge a => c_enc codec_WithdrawFromBridgeAction a
  | ActApproveAgent a => c_enc codec_ApproveAgentAction a
  | ActApproveBuilderFee a => c_enc codec_ApproveBuilderFeeAction a
  | ActConvertToMultiSigUser a => c_enc codec_ConvertToMultiSigUserAction a
  | ActMap json _ => go_map json
  end.

(** What [SignL1Action] encodes; [SetSortMapKeys] sorts the keys of a
    [map[string]any]. *)
Definition action_pack (a : action) : value :=
  match a with
  | ActOrder a => pack_OrderAction a
  | ActModify a => pack_ModifyAction a
  | ActBatchModify a => pack_BatchModifyAction a
  | ActCancel a => pack_CancelAction a
  | ActCancelByCloid a => pack_CancelByCloidAction a
  | ActUpdateLeverage a => pack_UpdateLeverageAction a
  | ActUpdateIsolatedMargin a => pack_UpdateIsolatedMarginAction a
  | ActScheduleCancel a => pack_ScheduleCancelAction a
  | ActSetReferrer a => pack_SetReferrerAction a
  | ActCreateSubAccount a => pack_CreateSubAccountAction a
  | ActUsdClassTransfer a => pack_UsdClassTransferAction a
  | ActSubAccountTransfer a => pack_SubAccountTransferAction a
  | ActVaultUsdTransfer a => pack_VaultUsdTransferAction a
  | ActCreateVault a => pack_CreateVaultAction a
  | ActVaultModify a => pack_VaultModifyAction a
  | ActVaultDistribute a => pack_VaultDistributeAction a
  | ActUsdTransfer a => pack_UsdTransferAction a
  | ActSpotTransfer a => pack_SpotTransferAction a
  | ActUseBigBlocks a => pack_UseBigBlocksAction a
  | ActPerpDexClassTransfer a => pack_PerpDexClassTransferAction a
  | ActSubAccountSpotTransfer a => pack_SubAccountSpotTransferAction a
  | ActTokenDelegate a => pack_TokenDelegateAction a
  | ActWithdrawFromBridge a => pack_WithdrawFromBridgeAction a
  | ActApproveAgent a => pack_ApproveAgentAction a
  | ActApproveBuilderFee a => pack_ApproveBuilderFeeAction a
  | ActConvertToMultiSigUser a => pack_ConvertToMultiSigUserAction a
  | ActMap _ packed => go_map packed
  end.
End actions.

(** ** Exchange *)

(** The fields that do not change; [expiresAfter] and [lastNonce] are the
    session's. *)
Record Exchange := mkExchange {
  ex_isMainnet : bool;
  ex_client : string;
  ex_privateKey : Z;
  ex_vault : string;
  ex_accountAddr : string;
  ex_info : Info;
}.

Section exchange.
Context `{Http} `{Json} `{Lexer} `{Msgpack} `{Crypto}.

Definition NewExchange (privateKey : Z) (baseURL : string) (meta : option Meta)
    (vaultAddr accountAddr : string) (spotMeta : option SpotMeta) : api Exchange :=
  info ← NewInfo baseURL meta spotMeta;
  ok (mkExchange (bool_decide (baseURL <> TestnetAPIURL)) (NewClient baseURL) privateKey
        vaultAddr accountAddr info).

Definition Exchange_nextNonce (now : Z) : api Z := fun s =>
  let nonce := nextNonce (s_lastNonce s) now in
  Ret (mkSession nonce (s_expiresAfter s) (s_sent s), inl nonce).

Definition Exchange_SetExpiresAfter (expiresAfter : option Z) : api unit := fun s =>
  Ret (mkSession (s_lastNonce s) expiresAfter (s_sent s), inl tt).

Definition Exchange_SetLastNonce (n : Z) : api unit := fun s =>
  Ret (mkSession (SetLastNonce (s_lastNonce s) n) (s_expiresAfter s) (s_sent s), inl tt).

(** [e.expiresAfter]. *)
Definition get_expiresAfter : api (option Z) := fun s => Ret (s, inl (s_expiresAfter s)).

Definition SignatureResult_json (sig : SignatureResult) : value :=
  VStruct [("r", VString (sig_R sig)); ("s", VString (sig_S sig)); ("v", VInt (sig_V sig))].

(** [actionMap["type"] != "usdClassTransfer"] for an action that is a map. *)
Definition vault_value (e : Exchange) (a : action) : value :=
  match a with
  | ActMap json _ =>
      match map_get "type" json with
      | Some (VString t) => if decide (t = "usdClassTransfer") then VNull else VString (ex_vault e)
      | _ => VString (ex_vault e)
      end
  | _ => VString (ex_vault e)
  end.

Definition action_payload (e : Exchange) (a : action) (signature : SignatureResult) (nonce : Z)
    (expiresAfter : option Z) : list (string * value) :=
  [("action", action_json a); ("nonce", VInt nonce); ("signature", SignatureResult_json signature)]
  ++ (if decide (ex_vault e <> EmptyString) then [("vaultAddress", vault_value e a)] else [])
  ++ omitempty "expiresAfter" VInt expiresAfter.

Definition Exchange_postAction (e : Exchange) (a : action) (signature : SignatureResult) (nonce : Z)
    : api string :=
  expiresAfter ← get_expiresAfter;
  Client_post (ex_client e) "/exchange" (go_map (action_payload e a signature nonce expiresAfter)).

(** [SignL1Action] with the exchange's key, expiry and network. *)
Definition sign_action (e : Exchange) (a : action) (vault : string) (nonce : Z) : api SignatureResult :=
  expiresAfter ← get_expiresAfter;
  sig ← lift_outcome (SignL1Action (ex_privateKey e) (action_pack a) vault nonce expiresAfter
                        (ex_isMainnet e));
  lift sig.

(** Sign for a vault, post, and read the response. *)
Definition send_action {A} `{Decoder A} (e : Exchange) (a : action) (vault : string) (nonce : Z) : api A :=
  sig ← sign_action e a vault nonce;
  resp ← Exchange_postAction e a sig nonce;
  lift (json_Unmarshal resp).

(** A nonce, the action made with it, and [send_action]: what the methods of
    exchange_others.go spell out. *)
Definition perform {A} `{Decoder A} (e : Exchange) (now : Z) (vault : string) (mk : Z -> action) : api A :=
  nonce ← Exchange_nextNonce now;
  send_action e (mk nonce) vault nonce.

Definition Exchange_executeAction {A} `{Decoder A} (e : Exchange) (now : Z) (a : action) : api A :=
  nonce ← Exchange_nextNonce now;
  send_action e a (ex_vault e) nonce.
End exchange.

(** ** The posted JSON and the signed msgpack *)

(** The JSON of a msgpack value: a struct is an object. *)
Fixpoint json_of (v : value) : value :=
  let entries := fix entries (es : list (string * value)) : list (string * value) :=
    match es with [] => [] | (k, v) :: es => (k, json_of v) :: entries es end in
  match v with
  | VArray l => VArray (map json_of l)
  | VStruct es | VMap es => VMap (entries es)
  | v => v
  end.

Definition json_entries (es : list (string * value)) : list (string * value) :=
  map (fun e => (e.1, json_of e.2)) es.

Lemma json_of_struct es : json_of (VStruct es) = VMap (json_entries es).
Proof. cbn. f_equal. induction es as [|[k v] es IH]; [done|]. simpl. by rewrite <- IH. Qed.
Lemma json_of_map es : json_of (VMap es) = VMap (json_entries es).
Proof. cbn. f_equal. induction es as [|[k v] es IH]; [done|]. simpl. by rewrite <- IH. Qed.

(** A map of values without structs stays as it is. *)
Lemma json_of_go_map l : Forall (fun e => json_of e.2 = e.2) l -> json_of (go_map l) = go_map l.
Proof.
  intros Hl. unfold go_map. rewrite json_of_map. f_equal.
  assert (Forall (fun e => json_of e.2 = e.2)
            (merge_sort (fun x y => Is_true (String.leb x.1 y.1)) l)) as Hs
    by (by rewrite merge_sort_Permutation).
  induction Hs as [|[k v] es E _ IH]; [done|]. simpl in E |- *. by rewrite E, IH.
Qed.

Section posted.
Context `{Lexer}.

(** The encodings of [x] agree. *)
Definition posted {A} (pack : A -> value) (c : codec A) (x : A) : Prop := json_of (pack x) = c_enc c x.

Lemma posted_list {A} (pack : A -> value) (c : codec A) l :
  Forall (posted pack c) l -> posted (pack_list pack) (c_list c) l.
Proof.
  intros Hl. change (VArray (map json_of (map pack l)) = VArray (map (c_enc c) l)). f_equal.
  induction Hl as [|x l E _ IH]; [done|]. simpl. by rewrite E, IH.
Qed.

Definition plain_OrderWire (w : OrderWire) : Prop := owt_Trigger (ow_OrderType w) = None.

Lemma posted_OrderWire w : plain_OrderWire w -> posted pack_OrderWire codec_OrderWire w.
Proof.
  destruct w as [asset b p s r [[[tif]|] [trigger|]] [c|]]; intros Hw; try done; reflexivity.
Qed.

Definition plain_ModifyAction (m : ModifyAction) : Prop :=
  json_of (ma_Oid m) = ma_Oid m /\ plain_OrderWire (ma_Order m).

Lemma posted_ModifyAction m : plain_ModifyAction m -> posted pack_ModifyAction codec_ModifyAction m.
Proof.
  destruct m as [t oid w]. intros [Ho Hw%posted_OrderWire].
  cbn [ma_Oid ma_Order] in Ho, Hw. unfold posted in *.
  unfold pack_ModifyAction. rewrite json_of_struct. unfold json_entries.
  rewrite map_app. cbn [map fst snd ma_Type ma_Oid ma_Order]. rewrite Ho, Hw. by destruct t.
Qed.

(** The actions whose encodings agree: no trigger order, no builder, an order
    number that holds no struct, maps of plain data.  Not the two maps that are
    encoded differently, of PerpDeployRegisterAsset and SpotDeployUserGenesis
    (SdkAccount). *)
Definition plain_action (a : action) : Prop :=
  match a with
  | ActOrder a => Forall plain_OrderWire (oa_Orders a) /\ oa_Builder a = None
  | ActModify a => plain_ModifyAction a
  | ActBatchModify a => Forall plain_ModifyAction (bma_Modifies a)
  | ActMap json packed => packed = json /\ Forall (fun e => json_of e.2 = e.2) json
  | _ => True
  end.

(** C9. What is posted is what is signed: for the actions below the JSON object
    of the request has the keys and values of the msgpack object the signature
    covers, in the same order.  They are all the struct actions, orders without
    a trigger order and without a builder, modifications without a trigger
    order whose order number holds no struct (it is an integer or a string),
    and the maps encoded alike in both formats, of values that hold no struct.
    Left out, because they differ: a trigger order, whose price is a number in
    msgpack and a string in JSON; a builder, signed under other keys than it is
    posted; the map of PerpDeployRegisterAsset, whose struct has JSON tags
    only; and the map of SpotDeployUserGenesis, whose balances are signed in
    the order they are ranged over and posted sorted. *)
Theorem posted_is_signed (a : action) (Ha : plain_action a) : json_of (action_pack a) = action_json a.
Proof.
  destruct a as [a|a|a|a|a|a|a|a|a|a|a|a|a|a|a|a|a|a|a|a|a|a|a|a|a|a|json packed];
    try (destruct a; reflexivity).
  - destruct a as [t orders grouping builder]. destruct Ha as [Ho Hb].
    cbn in Ho, Hb. subst builder.
    pose proof (posted_list pack_OrderWire codec_OrderWire orders
                  (Forall_impl _ _ _ Ho posted_OrderWire)) as E.
    unfold posted in E. cbn [action_pack action_json]. unfold pack_OrderAction.
    rewrite json_of_struct. cbn -[json_of pack_list c_enc]. by rewrite E.
  - exact (posted_ModifyAction a Ha).
  - destruct a as [t modifies]. simpl in Ha.
    pose proof (posted_list pack_ModifyAction codec_ModifyAction modifies
                  (Forall_impl _ _ _ Ha posted_ModifyAction)) as E.
    unfold posted in E. cbn [action_pack action_json]. unfold pack_BatchModifyAction.
    rewrite json_of_struct. cbn -[json_of pack_list c_enc]. by rewrite E.
  - destruct a as [t cancels].
    pose proof (posted_list pack_CancelOrderWire codec_CancelOrderWire cancels) as E.
    unfold posted in E. cbn [action_pack action_json]. unfold pack_CancelAction.
    rewrite json_of_struct. cbn -[json_of pack_list c_enc]. rewrite E; [done|].
    apply Forall_forall. by intros [] _.
  - destruct a as [t cancels].
    pose proof (posted_list pack_CancelByCloidWire codec_CancelByCloidWire cancels) as E.
    unfold posted in E. cbn [action_pack action_json]. unfold pack_CancelByCloidAction.
    rewrite json_of_struct. cbn -[json_of pack_list c_enc]. rewrite E; [done|].
    apply Forall_forall. by intros [] _.
  - by destruct a as [t [time|]].
  - by destruct a as [t address [name|] nonce].
  - destruct Ha as [-> Hm]. exact (json_of_go_map _ Hm).
Qed.

(** Where they differ: the price of a trigger order, and a builder's keys. *)
Lemma trigger_price_differs (x : float64) (m : bool) (s : string) :
  json_of (pack_orderWireTypeTrigger (mk_orderWireTypeTrigger x m s)) <>
  c_enc codec_orderWireTypeTrigger (mk_orderWireTypeTrigger x m s).
Proof. discriminate. Qed.

Lemma builder_keys_differ (b : BuilderInfo) :
  json_of (pack_BuilderInfo b) <> c_enc codec_BuilderInfo b.
Proof. discriminate. Qed.
End posted.

(** ** What a call sends *)

Lemma map_get_in es k v : NoDup es.*1 -> (k, v) ∈ es -> map_get k es = Some v.
Proof.
  intros Hd Hin. unfold map_get.
  assert (exists x, list_find (fun e => e.1 = k) (rev es) = Some x) as [[i [k' v']] E].
  { destruct (list_find_elem_of (fun e => e.1 = k) (rev es) (k, v)) as [x Hx]; eauto.
    by apply list_elem_of_In, in_rev, list_elem_of_In in Hin. }
  rewrite E. apply list_find_Some in E as (Hi & <- & _). f_equal. simpl in *.
  assert ((k', v') ∈ es) as Hin'.
  { apply list_elem_of_lookup_2, list_elem_of_In, in_rev in Hi. by apply list_elem_of_In. }
  apply list_elem_of_lookup in Hin as [n Hn], Hin' as [n' Hn'].
  assert (n = n') as <-.
  { apply (NoDup_lookup es.*1 n n' k'); [done| |]; apply list_lookup_fmap_Some;
      [by exists (k', v)|by exists (k', v')]. }
  rewrite Hn in Hn'. by injection Hn' as ->.
Qed.

Lemma map_get_not_in es k : k ∉ es.*1 -> map_get k es = None.
Proof.
  intros Hk. unfold map_get.
  destruct (list_find (fun e => e.1 = k) (rev es)) as [[i [k' v]]|] eqn:E; [|done].
  apply list_find_Some in E as (Hi & <- & _). destruct Hk. apply list_elem_of_fmap. exists (k', v).
  split; [done|]. by apply list_elem_of_lookup_2, list_elem_of_In, in_rev, list_elem_of_In in Hi.
Qed.

(** All of a map literal: its keys with their values, and no other key. *)
Lemma go_map_lookup l : NoDup l.*1 -> exists es, go_map l = VMap es /\
  (forall k v, (k, v) ∈ l -> map_get k es = Some v) /\ (forall k, k ∉ l.*1 -> map_get k es = None).
Proof.
  intros Hd. eexists. split; [reflexivity|].
  pose proof (merge_sort_Permutation (fun x y : string * value => Is_true (String.leb x.1 y.1)) l) as Hp.
  split.
  - intros k v Hin. apply map_get_in; rewrite Hp; assumption.
  - intros k Hk. apply map_get_not_in. by rewrite Hp.
Qed.

(** The nonce of a posted request. *)
Definition request_nonce (r : request) : option Z :=
  match req_body r with
  | VMap es => match map_get "nonce" es with Some (VInt n) => Some n | _ => None end
  | _ => None
  end.

(** A nonce is above the last one, by one or up to the clock. *)
Lemma nextNonce_bounds last now :
  int64_min <= last -> last < int64_max ->
  last < nextNonce last now <= Z.max (last + 1) (UnixMilli now).
Proof.
  intros Hmin Hmax. unfold nextNonce, nonce_candidate.
  rewrite int64_id by (unfold in_int64; lia). destruct (Z.leb_spec (UnixMilli now) last); lia.
Qed.

Section calls.
Context `{Http} `{Json} `{Lexer} `{Msgpack} `{Crypto}.
Context (e : Exchange).

(** The request of an action, with the signature of its msgpack for a vault. *)
Definition posted_action (a : action) (vault : string) (nonce : Z) (s : session) (r : request) : Prop :=
  exists sig,
    SignL1Action (ex_privateKey e) (action_pack a) vault nonce (s_expiresAfter s) (ex_isMainnet e) =
      Ret (inl sig) /\
    r = mkRequest (ex_client e +:+ "/exchange")
          (go_map (action_payload e a sig nonce (s_expiresAfter s))).

Lemma sign_action_inv a vault nonce s s' r :
  sign_action e a vault nonce s = Ret (s', r) ->
  s' = s /\ SignL1Action (ex_privateKey e) (action_pack a) vault nonce (s_expiresAfter s)
              (ex_isMainnet e) = Ret r.
Proof.
  unfold sign_action, mbind, api_bind, get_expiresAfter, mbind, outcome_bind.
  destruct (SignL1Action _ _ _ _ _ _) as [[sig|err]|]; simpl; intros [= <- <-]; done.
Qed.

Lemma send_action_sent {A} `{Decoder A} a vault nonce s s' (r : A + string) :
  send_action e a vault nonce s = Ret (s', r) ->
  s_lastNonce s' = s_lastNonce s /\ s_expiresAfter s' = s_expiresAfter s /\
  (s_sent s' = s_sent s /\ (exists err, r = inr err) \/
   exists req, posted_action a vault nonce s req /\ s_sent s' = s_sent s ++ [req]).
Proof.
  unfold send_action. intros Hr.
  destruct (sign_action e a vault nonce s) as [[s1 sig]|] eqn:Es;
    [|by rewrite (api_bind_panic _ _ _ Es) in Hr].
  rewrite (api_bind_ret _ _ _ _ _ Es) in Hr. apply sign_action_inv in Es as [-> Es].
  destruct sig as [sig|err]; [|injection Hr as <- <-; eauto 6].
  unfold Exchange_postAction in Hr.
  unfold mbind at 1, api_bind at 1, mbind at 1, outcome_bind at 1 in Hr.
  unfold mbind at 1, api_bind at 1, get_expiresAfter, mbind at 1, outcome_bind at 1 in Hr.
  destruct (Client_post _ _ _ s) as [[s2 resp]|] eqn:Ep; [|done].
  destruct (Client_post_sent _ _ _ _ _ _ Ep) as (E1 & E2 & E3).
  assert (s' = s2) as ->.
  { destruct resp as [resp|err]; [|by injection Hr as <- <-].
    unfold lift in Hr. destruct (json_Unmarshal resp); by injection Hr as <- <-. }
  split_and!; [done..|]. destruct E3 as [E3|E3]; [left|right].
  - split; [done|]. destruct resp as [resp|err]; [|injection Hr as <-; eauto].
    destruct (Client_post_ok _ _ _ _ _ _ Ep) as (_ & E3' & _).
    rewrite E3 in E3'. apply (f_equal length) in E3'. rewrite length_app in E3'. simpl in E3'. lia.
  - eexists. split; [|exact E3]. by exists sig.
Qed.

(** One call: the nonce taken and the one request sent, if any. *)
Definition sent_once (a : action) (vault : string) (nonce : Z) (s s' : session) (failed : Prop) : Prop :=
  s_lastNonce s' = nonce /\ s_expiresAfter s' = s_expiresAfter s /\
  (s_sent s' = s_sent s /\ failed \/
   exists sig,
     SignL1Action (ex_privateKey e) (action_pack a) vault nonce (s_expiresAfter s) (ex_isMainnet e) =
       Ret (inl sig) /\
     s_sent s' = s_sent s ++ [mkRequest (ex_client e +:+ "/exchange")
                                (go_map (action_payload e a sig nonce (s_expiresAfter s)))]).

Lemma perform_sent {A} `{Decoder A} now vault mk s s' (r : A + string) :
  perform e now vault mk s = Ret (s', r) ->
  sent_once (mk (nextNonce (s_lastNonce s) now)) vault (nextNonce (s_lastNonce s) now) s s'
    (exists err, r = inr err).
Proof.
  intros Hrun. destruct (send_action_sent _ _ _ _ _ _ Hrun) as (E1 & E2 & E3).
  split_and!; [done..|].
  destruct E3 as [E3|(req & (sig & Es & ->) & E3)]; [by left|right; by exists sig].
Qed.

(** The action is a map whose type is ["usdClassTransfer"]. *)
Definition usd_class_transfer (a : action) : Prop :=
  exists json packed, a = ActMap json packed /\ map_get "type" json = Some (VString "usdClassTransfer").

(** What the body of a request to the exchange endpoint holds, key by key. *)
Record posted_body (a : action) (sig : SignatureResult) (nonce : Z) (expiresAfter : option Z)
    (es : list (string * value)) : Prop := {
  pb_action : map_get "action" es = Some (action_json a);
  pb_nonce : map_get "nonce" es = Some (VInt nonce);
  pb_signature : map_get "signature" es =
    Some (VStruct [("r", VString (sig_R sig)); ("s", VString (sig_S sig)); ("v", VInt (sig_V sig))]);
  pb_expiresAfter : map_get "expiresAfter" es = VInt <$> expiresAfter;
  pb_no_vault : ex_vault e = EmptyString -> map_get "vaultAddress" es = None;
  pb_null_vault : ex_vault e <> EmptyString -> usd_class_transfer a -> map_get "vaultAddress" es = Some VNull;
  pb_vault : ex_vault e <> EmptyString -> ~ usd_class_transfer a ->
    map_get "vaultAddress" es = Some (VString (ex_vault e));
  pb_others : forall k, k ∉ ["action"; "nonce"; "signature"; "vaultAddress"; "expiresAfter"] ->
    map_get k es = None;
}.

Lemma vault_value_null a : usd_class_transfer a -> vault_value e a = VNull.
Proof. intros (json & packed & -> & E). unfold vault_value. by rewrite E, decide_True. Qed.

Lemma vault_value_string a : ~ usd_class_transfer a -> vault_value e a = VString (ex_vault e).
Proof.
  intros Hn. unfold vault_value. destruct a; try done.
  destruct (map_get "type" json) as [[]|] eqn:E; try done. rewrite decide_False; [done|].
  intros ->. apply Hn. by eexists _, _.
Qed.

Lemma action_payload_lookup a sig nonce expiresAfter :
  exists es, go_map (action_payload e a sig nonce expiresAfter) = VMap es /\
    (forall k v, (k, v) ∈ action_payload e a sig nonce expiresAfter -> map_get k es = Some v) /\
    (forall k, k ∉ (action_payload e a sig nonce expiresAfter).*1 -> map_get k es = None).
Proof.
  apply go_map_lookup. unfold action_payload. destruct (decide _), expiresAfter; simpl;
    repeat (constructor; [set_solver|]); constructor.
Qed.

Lemma action_payload_body a sig nonce expiresAfter : exists es,
  go_map (action_payload e a sig nonce expiresAfter) = VMap es /\ posted_body a sig nonce expiresAfter es.
Proof.
  destruct (action_payload_lookup a sig nonce expiresAfter) as (es & E & Hin & Hout).
  exists es. split; [exact E|]. clear E. unfold action_payload in *.
  split; [apply Hin; simpl; set_solver..| | | | |].
  - destruct expiresAfter as [t|]; [apply Hin|apply Hout]; [|destruct (decide _)]; simpl; set_solver.
  - intros Hv. apply Hout. rewrite decide_False by (intros Hn; exact (Hn Hv)).
    destruct expiresAfter; simpl; set_solver.
  - intros Hv Hu. rewrite <- (vault_value_null a Hu). apply Hin. rewrite decide_True by done. simpl. set_solver.
  - intros Hv Hu. rewrite <- (vault_value_string a Hu). apply Hin. rewrite decide_True by done. simpl. set_solver.
  - intros k Hk. apply Hout. destruct (decide _), expiresAfter; simpl; set_solver.
Qed.

(** The nonce of the request is the one that was signed. *)
Lemma action_payload_nonce a sig nonce expiresAfter url :
  request_nonce (mkRequest url (go_map (action_payload e a sig nonce expiresAfter))) = Some nonce.
Proof.
  unfold request_nonce. destruct (action_payload_body a sig nonce expiresAfter) as (es & E & Hes).
  cbn [req_body]. by rewrite E, (pb_nonce _ _ _ _ _ Hes).
Qed.

(** C20. [executeAction] that returns has taken the next nonce and sent nothing,
    with an error, or one request to the exchange endpoint.  Its body is an
    object of the action's JSON, that nonce, the three parts of the signature
    of the action's msgpack for the same nonce, vault, expiry and network, the
    session's expiry when it has one, and the vault when it is not empty (null
    for a map of type usdClassTransfer), and of nothing else. *)
Theorem executeAction_signs {A} `{Decoder A} (now : Z) (a : action) (s s' : session) (r : A + string)
    (Hrun : Exchange_executeAction e now a s = Ret (s', r)) :
  let nonce := nextNonce (s_lastNonce s) now in
  s_lastNonce s' = nonce /\ s_expiresAfter s' = s_expiresAfter s /\
  (s_sent s' = s_sent s /\ (exists err, r = inr err) \/
   exists sig es,
     SignL1Action (ex_privateKey e) (action_pack a) (ex_vault e) nonce (s_expiresAfter s)
       (ex_isMainnet e) = Ret (inl sig) /\
     s_sent s' = s_sent s ++ [mkRequest (ex_client e +:+ "/exchange") (VMap es)] /\
     posted_body a sig nonce (s_expiresAfter s) es).
Proof.
  destruct (perform_sent now (ex_vault e) (fun _ => a) s s' r Hrun) as (E1 & E2 & E3).
  split_and!; [done..|].
  destruct E3 as [E3|(sig & Es & E3)]; [by left|right].
  destruct (action_payload_body a sig (nextNonce (s_lastNonce s) now) (s_expiresAfter s)) as (es & E & Hes).
  exists sig, es. rewrite E in E3. by split_and!.
Qed.

(** *** A caller's actions, one after the other *)
Context {A : Type} `{Decoder A}.

Record call := mkCall { call_now : Z; call_vault : string; call_action : Z -> action }.

Fixpoint run_calls (l : list call) (s : session) : option session :=
  match l with
  | [] => Some s
  | c :: l =>
      match perform (A := A) e (call_now c) (call_vault c) (call_action c) s with
      | Ret (s', _) => run_calls l s'
      | Panic => None
      end
  end.

(** C10. The requests of a sequence of exchange methods, failed ones among
    them, carry strictly increasing nonces, all above the last nonce before
    the sequence, whatever the clock does in between: no signed action can be
    replayed by a later one, as long as the counter stays in an int64. *)
Theorem run_calls_nonces (B : Z) (l : list call) (s s' : session)
    (Hrun : run_calls l s = Some s')
    (Hstart : int64_min <= s_lastNonce s <= B)
    (Hclock : Forall (fun c => UnixMilli (call_now c) <= B) l)
    (Hroom : B + Z.of_nat (length l) <= int64_max) :
  exists requests nonces,
    s_sent s' = s_sent s ++ requests /\ map request_nonce requests = map Some nonces /\
    StronglySorted Z.lt nonces /\ Forall (fun n => s_lastNonce s < n) nonces.
Proof.
  revert B s Hrun Hstart Hclock Hroom.
  induction l as [|[now vault mk] l IH]; intros B s Hrun Hstart Hclock Hroom.
  { injection Hrun as <-. exists [], []. by rewrite app_nil_r; repeat constructor. }
  cbn [run_calls call_now call_vault call_action] in Hrun.
  destruct (perform e now vault mk s) as [[s1 r]|] eqn:E; [|done].
  destruct (perform_sent _ _ _ _ _ _ E) as (Hn & _ & Hsent).
  apply Forall_cons in Hclock as [Hnow Hclock]. simpl in Hnow. cbn [length] in Hroom.
  destruct (nextNonce_bounds (s_lastNonce s) now) as [Hgt Hle]; [lia..|].
  rewrite <- Hn in Hgt, Hle.
  destruct (IH (B + 1) s1 Hrun) as (reqs & ns & Es & En & Hs & Hall); [lia| |lia|].
  { eapply Forall_impl; [exact Hclock|]. simpl. lia. }
  assert (Forall (fun n => s_lastNonce s < n) ns) as Hall'
    by (eapply Forall_impl; [exact Hall|]; simpl; lia).
  destruct Hsent as [[Hsent _]|(sig & _ & Hsent)]; rewrite Hsent in Es; [by exists reqs, ns|].
  rewrite <- app_assoc, <- Hn in Es. eexists (_ :: reqs), (s_lastNonce s1 :: ns).
  split_and!; [exact Es| |by constructor|by constructor].
  simpl. by rewrite action_payload_nonce, En.
Qed.
End calls.

(** ** Witnesses *)

Definition sample_exchange : Exchange :=
  mkExchange true MainnetAPIURL 7 EmptyString EmptyString sample_info.

Definition sample_wire : OrderWire :=
  mkOrderWire 2 true "1800" "0.5" false
    (mk_orderWireType (Some (mk_orderWireTypeLimit TifIoc)) None) (Some "0x01").

Definition sample_order : action := ActOrder (mkOrderAction "order" [sample_wire] "na" None).

Lemma posted_is_signed_witness :
  json_of (action_pack sample_order) = @action_json reference_lexer sample_order.
Proof. apply (@posted_is_signed reference_lexer sample_order). repeat constructor. Defined.

(** Two orders in the same millisecond to a server that does not answer. *)
Definition sample_run (l : list call) : option session :=
  @run_calls silent_http null_json reference_lexer reference_msgpack no_crypto
    sample_exchange value {| decode := inl |} l new_session.

Definition sample_now : Z := 1700000000000 * Millisecond.

Definition sample_call : call := mkCall sample_now EmptyString (fun _ => sample_order).
Definition after_one : session := default new_session (sample_run [sample_call]).
Definition after_two : session := default new_session (sample_run [sample_call; sample_call]).

Lemma after_one_run :
  @Exchange_executeAction silent_http null_json reference_lexer reference_msgpack no_crypto
    value {| decode := inl |} sample_exchange sample_now sample_order new_session =
  Ret (after_one, inr "request failed: no route to host").
Proof. vm_compute. reflexivity. Qed.

Lemma after_two_run : sample_run [sample_call; sample_call] = Some after_two.
Proof. vm_compute. reflexivity. Qed.

Example after_two_nonces :
  map request_nonce (s_sent after_two) = [Some 1700000000000; Some 1700000000001].
Proof. vm_compute. reflexivity. Qed.

Lemma executeAction_signs_witness : s_lastNonce after_one = nextNonce 0 sample_now.
Proof.
  destruct (@executeAction_signs silent_http null_json reference_lexer reference_msgpack no_crypto
    sample_exchange value {| decode := inl |} sample_now sample_order new_session after_one _
    after_one_run) as [E _].
  exact E.
Defined.

Lemma run_calls_nonces_witness :
  exists requests nonces, s_sent after_two = requests /\
    map request_nonce requests = map Some nonces /\ StronglySorted Z.lt nonces.
Proof.
  destruct (@run_calls_nonces silent_http null_json reference_lexer reference_msgpack no_crypto
    sample_exchange value {| decode := inl |} (UnixMilli sample_now)
    [sample_call; sample_call] new_session after_two after_two_run)
    as (requests & nonces & E & En & Hs & _).
  - by vm_compute.
  - repeat constructor; apply Z.le_refl.
  - by vm_compute.
  - exists requests, nonces. exact (conj E (conj En Hs)).
Defined.
