(* ===== verification/SdkOrders.v ===== *)
(** * pkg/go-hyperliquid/exchange_orders.go and exchange_orders_cancel.go

    Creating, modifying and cancelling orders.  A method that returns a result
    beside its error has a pair as its value. *)

From Stdlib Require Import ZArith Lia Ascii.
From stdpp Require Import gmap strings list pretty.
From S2P Require Import Prelude Float64 GoDecimal Models SdkTypes SdkNonce SdkWire SdkClient EasyJson TypesCodecs SdkDecoders SdkResponse SdkInfo SdkSigning SdkActions SdkExchange.
Local Open Scope Z_scope.

Record CreateOrderRequest := mkCreateOrderRequest {
  order_Coin : string; order_IsBuy : bool; order_Price : float64; order_Size : float64;
  order_ReduceOnly : bool; order_OrderType : OrderType; order_ClientOrderID : option string;
}.

(** [Oid] is an int64 or a [Cloid]. *)
Record ModifyOrderRequest := mkModifyOrderRequest {
  modify_Oid : value; modify_Order : CreateOrderRequest;
}.

Record CancelOrderRequest := mkCancelOrderRequest { cancel_Coin : string; cancel_OrderID : Z }.
Record CancelOrderRequestByCloid := mkCancelOrderRequestByCloid {
  cancelc_Coin : string; cancelc_Cloid : string;
}.

(** The value of a call and its error together. *)
Definition attempt {A} (m : api A) : api (A + string) := fun s =>
  r ← m s; Ret (r.1, inl r.2).

(** ** Actions from requests *)

(** The price and the kind of a trigger are commented out in the source. *)
Definition newOrderTypeWire (o : CreateOrderRequest) : orderWireType :=
  match otype_Limit (order_OrderType o), otype_Trigger (order_OrderType o) with
  | Some l, _ => mk_orderWireType (Some (mk_orderWireTypeLimit (limit_Tif l))) None
  | None, Some t =>
      mk_orderWireType None (Some (mk_orderWireTypeTrigger f0 (trigger_IsMarket t) EmptyString))
  | None, None => mk_orderWireType None None
  end.

Section wires.
Context `{CastE}.

Definition order_wire (i : Info) (order : CreateOrderRequest) (priceWire sizeWire : string) : OrderWire :=
  mkOrderWire (NameToAsset i (order_Coin order)) (order_IsBuy order) priceWire sizeWire
    (order_ReduceOnly order) (newOrderTypeWire order) (order_ClientOrderID order).

(** The loop of [newCreateOrderAction] from order [i] on. *)
Fixpoint create_wires (info : Info) (i : Z) (orders : list CreateOrderRequest) : list OrderWire + string :=
  match orders with
  | [] => inl []
  | order :: orders =>
      match floatToWire (order_Price order) with
      | inr err => inr ("failed to wire price for order " +:+ pretty i +:+ ": " +:+ err)
      | inl priceWire =>
          match floatToWire (order_Size order) with
          | inr err => inr ("failed to wire size for order " +:+ pretty i +:+ ": " +:+ err)
          | inl sizeWire =>
              map_inl (cons (order_wire info order priceWire sizeWire)) (create_wires info (i + 1) orders)
          end
      end
  end.

Definition newCreateOrderAction (e : Exchange) (orders : list CreateOrderRequest)
    (info : option BuilderInfo) : OrderAction + string :=
  map_inl (fun orderRequests => mkOrderAction "order" orderRequests GroupingNA info)
    (create_wires (ex_info e) 0 orders).

Definition newModifyOrderAction (e : Exchange) (modifyRequest : ModifyOrderRequest)
    : ModifyAction + string :=
  let order := modify_Order modifyRequest in
  match floatToWire (order_Price order) with
  | inr err => inr ("failed to wire price: " +:+ err)
  | inl priceWire =>
      match floatToWire (order_Size order) with
      | inr err => inr ("failed to wire size: " +:+ err)
      | inl sizeWire =>
          inl (mkModifyAction "modify" (modify_Oid modifyRequest)
                 (order_wire (ex_info e) order priceWire sizeWire))
      end
  end.

Fixpoint modify_wires (e : Exchange) (i : Z) (requests : list ModifyOrderRequest)
    : list ModifyAction + string :=
  match requests with
  | [] => inl []
  | req :: requests =>
      match newModifyOrderAction e req with
      | inr err => inr ("failed to create modify request " +:+ pretty i +:+ ": " +:+ err)
      | inl modify =>
          map_inl (cons (mkModifyAction EmptyString (ma_Oid modify) (ma_Order modify)))
            (modify_wires e (i + 1) requests)
      end
  end.

Definition newModifyOrdersAction (e : Exchange) (modifyRequests : list ModifyOrderRequest)
    : BatchModifyAction + string :=
  map_inl (mkBatchModifyAction "batchModify") (modify_wires e 0 modifyRequests).
End wires.

Section orders.
Context `{Http} `{Json} `{FastJson} `{Lexer} `{Msgpack} `{Crypto} `{CastE}.

(** A response variable, and a pointer to one, which null leaves nil. *)
#[export] Instance decoder_OrderResponse : Decoder (APIResponse OrderResponse) := {|
  decode := APIResponse_UnmarshalJSON j_OrderResponse (zero_APIResponse (mkOrderResponse []))
|}.
Definition decode_pointer {A} `{Decoder A} (v : value) : option A + string :=
  match v with VNull => inl None | _ => map_inl Some (decode v) end.
#[export] Instance decoder_OrderResponse_ptr : Decoder (option (APIResponse OrderResponse)) := {|
  decode := decode_pointer
|}.
#[export] Instance decoder_CancelOrderResponse : Decoder (APIResponse CancelOrderResponse) := {|
  decode := APIResponse_UnmarshalJSON j_CancelOrderResponse (zero_APIResponse (mkCancelOrderResponse []))
|}.
#[export] Instance decoder_CancelOrderResponse_ptr : Decoder (option (APIResponse CancelOrderResponse)) := {|
  decode := decode_pointer
|}.

Definition CreateOrderRequest_String (r : CreateOrderRequest) : string :=
  let v := VStruct [("Coin", VString (order_Coin r)); ("IsBuy", VBool (order_IsBuy r));
                    ("Price", VFloat (order_Price r)); ("Size", VFloat (order_Size r));
                    ("ReduceOnly", VBool (order_ReduceOnly r));
                    ("OrderType", c_enc codec_OrderType (order_OrderType r));
                    ("ClientOrderID", pack_ptr VString (order_ClientOrderID r))] in
  if json_ok v then json_Marshal v else EmptyString.

Definition OrderStatus_String (st : OrderStatus) : string := json_Marshal (VMap (enc_OrderStatus st)).

(** ** Creating orders *)

(** The first status with an error. *)
Fixpoint status_errors (statuses : list OrderStatus) : option string :=
  match statuses with
  | [] => None
  | st :: statuses =>
      match ostatus_Error st with Some err => Some err | None => status_errors statuses end
  end.

Definition Exchange_BulkOrders (e : Exchange) (now : Z) (orders : list CreateOrderRequest)
    (builder : option BuilderInfo) : api (option (APIResponse OrderResponse) * option string) :=
  match newCreateOrderAction e orders builder with
  | inr err => ok (None, Some err)
  | inl a =>
      r ← attempt (Exchange_executeAction e now (ActOrder a));
      ok match r with
         | inr err => (None, Some err)
         | inl None => (None, None)
         | inl (Some result) => (Some result, status_errors (or_Statuses (ar_Data result)))
         end
  end.

(** [resp.Ok] of a nil response panics. *)
Definition Exchange_Order (e : Exchange) (now : Z) (req : CreateOrderRequest)
    (builder : option BuilderInfo) : api OrderStatus :=
  r ← Exchange_BulkOrders e now [req] builder;
  match r with
  | (_, Some err) => fail err
  | (None, None) => panic
  | (Some resp, None) =>
      if negb (ar_Ok resp) then fail ("failed to create order: " +:+ ar_Err resp)
      else match or_Statuses (ar_Data resp) with
           | [] => fail ("no status for order: " +:+ ar_Err resp)
           | st :: _ => ok st
           end
  end.

(** ** Modifying orders *)

Definition Exchange_ModifyOrder (e : Exchange) (now : Z) (req : ModifyOrderRequest) : api OrderStatus :=
  a ← wrap "failed to create modify action: " (lift (newModifyOrderAction e req));
  resp ← wrap "failed to modify order: "
    (Exchange_executeAction (A := APIResponse OrderResponse) e now (ActModify a));
  if negb (ar_Ok resp) then fail ("failed to modify order: " +:+ ar_Err resp)
  else match or_Statuses (ar_Data resp) with
       | [] => fail ("no status for modified order: " +:+ ar_Err resp)
       | st :: _ => ok st
       end.

Definition Exchange_BulkModifyOrders (e : Exchange) (now : Z) (requests : list ModifyOrderRequest)
    : api (list OrderStatus) :=
  a ← wrap "failed to create bulk modify action: " (lift (newModifyOrdersAction e requests));
  resp ← wrap "failed to modify orders: "
    (Exchange_executeAction (A := APIResponse OrderResponse) e now (ActBatchModify a));
  if negb (ar_Ok resp) then fail ("failed to modify orders: " +:+ ar_Err resp)
  else match or_Statuses (ar_Data resp) with
       | [] => fail ("no status for modified order: " +:+ ar_Err resp)
       | sts => ok sts
       end.

(** ** Market orders *)

(** exchange_others.go *)
Definition Exchange_SlippagePrice (e : Exchange) (name : string) (isBuy : bool) (slippage : float64)
    (px : option float64) : api float64 :=
  let coin := coin_of (ex_info e) name in
  price ← match px with
          | Some p => ok p
          | None =>
              mids ← Info_AllMids (ex_info e);
              match mids !! coin with
              | Some midPriceStr => ok (parseFloat midPriceStr)
              | None => fail ("could not get mid price for coin: " +:+ coin)
              end
          end;
  let asset := default 0 (coinToAsset (ex_info e) !! coin) in
  let isSpot := 10000 <=? asset in
  let price := if isBuy then fmul price (fadd f1 slippage) else fmul price (fsub f1 slippage) in
  let price := roundToSignificantFigures price 5 in
  let decimals := if isSpot then 8 else 6 in
  let szDecimals := default 0 (assetToDecimal (ex_info e) !! asset) in
  ok (roundToDecimals price (decimals - szDecimals)).

Definition market_request (coin : string) (isBuy : bool) (size price : float64) (reduceOnly : bool)
    (cloid : option string) : CreateOrderRequest :=
  mkCreateOrderRequest coin isBuy price size reduceOnly
    (mkOrderType (Some (mkLimitOrderType TifIoc)) None) cloid.

Definition Exchange_MarketOpen (e : Exchange) (now : Z) (name : string) (isBuy : bool) (sz : float64)
    (px : option float64) (slippage : float64) (cloid : option string)
    (builder : option BuilderInfo) : api OrderStatus :=
  slippagePrice ← Exchange_SlippagePrice e name isBuy slippage px;
  Exchange_Order e now (market_request name isBuy sz slippagePrice false cloid) builder.

Definition Exchange_MarketClose (e : Exchange) (now : Z) (coin : string) (sz px : option float64)
    (slippage : float64) (cloid : option string) (builder : option BuilderInfo) : api OrderStatus :=
  let address := if decide (ex_accountAddr e = EmptyString) then ex_vault e else ex_accountAddr e in
  userState ← Info_UserState (ex_info e) address EmptyString;
  match list_find (fun assetPos => pos_Coin (ap_Position assetPos) = coin) (us_AssetPositions userState) with
  | None => fail ("position not found for coin: " +:+ coin)
  | Some (_, assetPos) =>
      let szi := parseFloat (pos_Szi (ap_Position assetPos)) in
      let size := match sz with Some sz => sz | None => sdk_abs szi end in
      let isBuy := fltb szi f0 in
      slippagePrice ← Exchange_SlippagePrice e coin isBuy slippage px;
      Exchange_Order e now (market_request coin isBuy size slippagePrice true cloid) builder
  end.

(** ** Cancelling orders

    A response that a failing [executeAction] leaves behind is dropped. *)

Definition cancel_result (res : option (APIResponse CancelOrderResponse))
    : option (APIResponse CancelOrderResponse) * option string :=
  match res with
  | None => (None, Some "cancel failed")
  | Some r =>
      if negb (ar_Ok r) || bool_decide (ar_Status r = "err") then
        (Some r, Some (if decide (ar_Err r <> EmptyString) then ar_Err r else "cancel failed"))
      else (Some r, MixedArray_FirstError (cor_Statuses (ar_Data r)))
  end.

Definition Exchange_BulkCancel (e : Exchange) (now : Z) (requests : list CancelOrderRequest)
    : api (option (APIResponse CancelOrderResponse) * option string) :=
  let cancels := map (fun req => mkCancelOrderWire (NameToAsset (ex_info e) (cancel_Coin req))
                                   (cancel_OrderID req)) requests in
  res ← Exchange_executeAction e now (ActCancel (mkCancelAction "cancel" cancels));
  ok (cancel_result res).

Definition Exchange_Cancel (e : Exchange) (now : Z) (coin : string) (oid : Z) :=
  Exchange_BulkCancel e now [mkCancelOrderRequest coin oid].

Definition Exchange_BulkCancelByCloids (e : Exchange) (now : Z) (requests : list CancelOrderRequestByCloid)
    : api (option (APIResponse CancelOrderResponse) * option string) :=
  let cancels := map (fun req => mkCancelByCloidWire (NameToAsset (ex_info e) (cancelc_Coin req))
                                   (cancelc_Cloid req)) requests in
  res ← Exchange_executeAction e now (ActCancelByCloid (mkCancelByCloidAction "cancelByCloid" cancels));
  ok (cancel_result res).

Definition Exchange_CancelByCloid (e : Exchange) (now : Z) (coin cloid : string) :=
  Exchange_BulkCancelByCloids e now [mkCancelOrderRequestByCloid coin cloid].
End orders.

(** ** Results *)

Section results.
Context `{Http} `{Json} `{FastJson} `{Lexer} `{Msgpack} `{Crypto} `{CastE}.

Lemma element_error_none mv : element_error mv = None <-> mv = VString "success".
Proof.
  unfold element_error, MixedValue_String, j_string.
  destruct mv as [|b|z|x|s|l|fs|es]; cbn; try done.
  - case_decide as E; [by rewrite E|]. split; [done|]. by intros [= ->].
  - by destruct (map_get _ es) as [[| | | |[]| | |]|].
Qed.

Lemma FirstError_none ma :
  MixedArray_FirstError ma = None <-> Forall (fun mv => mv = VString "success") ma.
Proof.
  induction ma as [|mv ma IH]; cbn [MixedArray_FirstError]; [by split|].
  rewrite Forall_cons. pose proof (element_error_none mv) as Hmv.
  destruct (element_error mv) as [err|]; [|tauto].
  split; [done|]. intros [E _]. by apply Hmv in E.
Qed.

Lemma cancel_result_none res r :
  cancel_result res = (r, None) ->
  exists a, r = Some a /\ res = Some a /\ ar_Ok a = true /\
    Forall (fun mv => mv = VString "success") (cor_Statuses (ar_Data a)).
Proof.
  destruct res as [a|]; [|done]. unfold cancel_result.
  destruct (negb (ar_Ok a) || bool_decide (ar_Status a = "err")) eqn:Eb.
  { intros E. injection E as _ E2. by destruct (decide (ar_Err a <> EmptyString)). }
  intros E. injection E as <- E. apply orb_false_iff in Eb as [Eok%negb_false_iff _].
  exists a. split_and!; [done..|]. by apply FirstError_none.
Qed.

(** The request of a call with the exchange's vault. *)
Lemma executeAction_ok_sent {A} `{Decoder A} (e : Exchange) now a s s' (x : A) :
  Exchange_executeAction e now a s = Ret (s', inl x) ->
  exists sig nonce,
    nonce = nextNonce (s_lastNonce s) now /\
    SignL1Action (ex_privateKey e) (action_pack a) (ex_vault e) nonce (s_expiresAfter s)
      (ex_isMainnet e) = Ret (inl sig) /\
    s_sent s' = s_sent s ++ [mkRequest (ex_client e +:+ "/exchange")
                               (go_map (action_payload e a sig nonce (s_expiresAfter s)))].
Proof.
  intros Hrun.
  destruct (perform_sent e now (ex_vault e) (fun _ => a) s s' (inl x) Hrun) as (_ & _ & Hs).
  destruct Hs as [[_ [err ?]]|(sig & Es & E)]; [done|]. by eexists sig, _.
Qed.

(** [BulkCancel] reports no error only when the exchange answered "ok" and
    every status it returned is the string "success"; it has then posted one
    signed cancel action, with the asset number of each request's coin and its
    order number, in the order of the requests. *)
Theorem BulkCancel_succeeds (e : Exchange) (now : Z) (requests : list CancelOrderRequest)
    (s s' : session) (res : option (APIResponse CancelOrderResponse))
    (Hrun : Exchange_BulkCancel e now requests s = Ret (s', inl (res, None))) :
  let a := ActCancel (mkCancelAction "cancel"
             (map (fun req => mkCancelOrderWire (NameToAsset (ex_info e) (cancel_Coin req))
                                (cancel_OrderID req)) requests)) in
  (exists r, res = Some r /\ ar_Ok r = true /\
     Forall (fun mv => mv = VString "success") (cor_Statuses (ar_Data r))) /\
  exists sig nonce,
    nonce = nextNonce (s_lastNonce s) now /\
    SignL1Action (ex_privateKey e) (action_pack a) (ex_vault e) nonce (s_expiresAfter s)
      (ex_isMainnet e) = Ret (inl sig) /\
    s_sent s' = s_sent s ++ [mkRequest (ex_client e +:+ "/exchange")
                               (go_map (action_payload e a sig nonce (s_expiresAfter s)))].
Proof.
  unfold Exchange_BulkCancel in Hrun. apply api_bind_inv in Hrun as (x & s1 & Hx & E).
  injection E as <- E. split.
  - destruct (cancel_result_none x res) as (r & -> & _ & Hok & Hall); [by rewrite E|by exists r].
  - exact (executeAction_ok_sent e now _ s s1 x Hx).
Qed.

Lemma attempt_inv {A} (m : api A) s s' r : attempt m s = Ret (s', inl r) -> m s = Ret (s', r).
Proof.
  unfold attempt, mbind, outcome_bind. destruct (m s) as [[s1 r1]|]; [|done]. by intros [= <- <-].
Qed.

Lemma status_errors_none sts :
  status_errors sts = None <-> Forall (fun st => ostatus_Error st = None) sts.
Proof.
  induction sts as [|st sts IH]; cbn [status_errors]; [by split|]. rewrite Forall_cons, <- IH.
  destruct (ostatus_Error st); [|tauto]. split; [done|by intros []].
Qed.

(** What is decoded of an answer: [Ok] says that its status is "ok", and
    without it no status of an order is read. *)
Definition answer_ok (r : APIResponse OrderResponse) : Prop :=
  ar_Ok r = bool_decide (ar_Status r = "ok") /\ (ar_Status r <> "ok" -> or_Statuses (ar_Data r) = []).

Lemma decoded_answer_ok body (r : APIResponse OrderResponse) :
  json_Unmarshal body = inl (Some r) -> answer_ok r.
Proof.
  unfold json_Unmarshal. destruct (json_parse body) as [v|err]; [|done].
  assert (decode v = inl (Some r) -> decode v = inl r) as Hv.
  { cbn [decode decoder_OrderResponse_ptr]. unfold decode_pointer.
    destruct v; try done; destruct (decode _); intros Hd; try done; by injection Hd as ->. }
  intros Hd%Hv. revert Hd. cbn [decode decoder_OrderResponse]. unfold APIResponse_UnmarshalJSON.
  destruct (fastjson_Parse v) as [err|]; [done|]. cbn zeta.
  destruct (bool_decide_reflect (string_bytes_of (fastjson_Get v "status") = "ok")) as [E|E]; cbn [negb].
  - destruct (_ ≫= _) as [data|]; [|done]. destruct (j_OrderResponse _ data); [|done].
    intros [= <-]. split; cbn [ar_Ok ar_Status]; [by rewrite bool_decide_true|by intros []].
  - intros [= <-]. split; cbn [ar_Ok ar_Status ar_Data]; [by rewrite bool_decide_false|done].
Qed.

Lemma executeAction_answer_ok (e : Exchange) now a s s' (r : APIResponse OrderResponse) :
  Exchange_executeAction e now a s = Ret (s', inl (Some r)) -> answer_ok r.
Proof.
  unfold Exchange_executeAction, send_action. intros Hrun.
  apply api_bind_inv in Hrun as (nonce & s1 & _ & Hrun). apply api_bind_inv in Hrun as (sig & s2 & _ & Hrun).
  apply api_bind_inv in Hrun as (body & s3 & _ & Hrun). unfold lift in Hrun.
  destruct (json_Unmarshal body) as [x|err] eqn:E; [|done]. injection Hrun as _ ->.
  by apply decoded_answer_ok in E.
Qed.

(** The action of one order, of a price and a size on the wire. *)
Definition placing (e : Exchange) (req : CreateOrderRequest) (builder : option BuilderInfo)
    (price size : string) : action :=
  ActOrder (mkOrderAction "order"
    [mkOrderWire (NameToAsset (ex_info e) (order_Coin req)) (order_IsBuy req) price size
       (order_ReduceOnly req) (newOrderTypeWire req) (order_ClientOrderID req)] GroupingNA builder).

(** An [Order] whose price and size can be wired is one [executeAction]. *)
Lemma Order_executes e now req builder price size s :
  floatToWire (order_Price req) = inl price -> floatToWire (order_Size req) = inl size ->
  Exchange_Order e now req builder s =
  match Exchange_executeAction e now (placing e req builder price size) s with
  | Panic | Ret (_, inl None) => Panic
  | Ret (s', inr err) => Ret (s', inr err)
  | Ret (s', inl (Some r)) =>
      Ret (s', match status_errors (or_Statuses (ar_Data r)) with
               | Some err => inr err
               | None =>
                   if ar_Ok r then
                     match or_Statuses (ar_Data r) with
                     | [] => inr ("no status for order: " +:+ ar_Err r)
                     | st :: _ => inl st
                     end
                   else inr ("failed to create order: " +:+ ar_Err r)
               end)
  end.
Proof.
  intros Ep Ez. unfold Exchange_Order, Exchange_BulkOrders, newCreateOrderAction. cbn [create_wires].
  rewrite Ep, Ez. cbn [map_inl]. change (mkOrderAction _ _ _ _) with
    (mkOrderAction "order" [order_wire (ex_info e) req price size] GroupingNA builder).
  change (ActOrder _) with (placing e req builder price size).
  unfold mbind, api_bind, attempt, mbind, outcome_bind.
  destruct (Exchange_executeAction e now _ s) as [[s' [[r|]|err]]|]; try done. cbn [fst snd ok].
  destruct (status_errors _); [done|]. destruct (ar_Ok r); [|done]. cbn [negb].
  by destruct (or_Statuses (ar_Data r)).
Qed.

(** C27. An [Order] that returns a status has posted one signed order action
    with a single order: the asset of the coin, the side, the wire forms of
    price and size ([floatToWire] refused neither), the reduce-only flag and
    client order id, and the kind of order; the answer it was decoded from has
    the status "ok", none of its order statuses is an error, and the status
    returned is the first of them.  An answer with any other status makes
    [Order] fail with the answer's message. *)
Theorem Order_places (e : Exchange) (now : Z) (req : CreateOrderRequest) (builder : option BuilderInfo)
    (s s' : session) (r : OrderStatus + string)
    (Hrun : Exchange_Order e now req builder s = Ret (s', r)) :
  (forall st, r = inl st -> exists price size answer,
    floatToWire (order_Price req) = inl price /\ floatToWire (order_Size req) = inl size /\
    let wire := mkOrderWire (NameToAsset (ex_info e) (order_Coin req)) (order_IsBuy req) price size
                  (order_ReduceOnly req) (newOrderTypeWire req) (order_ClientOrderID req) in
    let a := ActOrder (mkOrderAction "order" [wire] GroupingNA builder) in
    (exists sig nonce,
       nonce = nextNonce (s_lastNonce s) now /\
       SignL1Action (ex_privateKey e) (action_pack a) (ex_vault e) nonce (s_expiresAfter s)
         (ex_isMainnet e) = Ret (inl sig) /\
       s_sent s' = s_sent s ++ [mkRequest (ex_client e +:+ "/exchange")
                                  (go_map (action_payload e a sig nonce (s_expiresAfter s)))]) /\
    Exchange_executeAction e now a s = Ret (s', inl (Some answer)) /\ ar_Status answer = "ok" /\
    Forall (fun st => ostatus_Error st = None) (or_Statuses (ar_Data answer)) /\
    head (or_Statuses (ar_Data answer)) = Some st) /\
  (forall price size (answer : APIResponse OrderResponse),
    floatToWire (order_Price req) = inl price -> floatToWire (order_Size req) = inl size ->
    Exchange_executeAction e now (placing e req builder price size) s = Ret (s', inl (Some answer)) ->
    ar_Status answer <> "ok" -> r = inr ("failed to create order: " +:+ ar_Err answer)).
Proof.
  split.
  - intros st ->. destruct (floatToWire (order_Price req)) as [price|err] eqn:Ep;
      [destruct (floatToWire (order_Size req)) as [size|err] eqn:Ez|].
    2,3: unfold Exchange_Order, Exchange_BulkOrders, newCreateOrderAction in Hrun;
      cbn [create_wires] in Hrun; rewrite Ep, ?Ez in Hrun; discriminate Hrun.
    rewrite (Order_executes _ _ _ _ _ _ _ Ep Ez) in Hrun.
    destruct (Exchange_executeAction e now _ s) as [[s1 [[answer|]|err]]|] eqn:Ex; try done.
    pose proof (executeAction_answer_ok _ _ _ _ _ _ Ex) as [Eok _].
    injection Hrun as -> Hst. destruct (status_errors _) as [err|] eqn:Ee; [done|].
    destruct (ar_Ok answer); [|done]. symmetry in Eok. apply bool_decide_eq_true in Eok.
    exists price, size, answer. do 2 (split; [done|]). cbv zeta.
    split; [exact (executeAction_ok_sent e now _ s s' _ Ex)|]. split; [exact Ex|]. split; [exact Eok|].
    split; [by apply status_errors_none|].
    destruct (or_Statuses (ar_Data answer)); [discriminate Hst|by injection Hst as ->].
  - intros price size answer Ep Ez Ex Hst. rewrite (Order_executes _ _ _ _ _ _ _ Ep Ez), Ex in Hrun.
    destruct (executeAction_answer_ok _ _ _ _ _ _ Ex) as [Eok Hnone]. rewrite (Hnone Hst) in Hrun.
    rewrite Eok, bool_decide_false in Hrun by done. cbn in Hrun. by injection Hrun as <-.
Qed.

(** An exchange that answers an order with the JSON value null makes
    [Order] panic: [BulkOrders] leaves the response nil and reports no error. *)
Theorem Order_null_panics (e : Exchange) (now : Z) (req : CreateOrderRequest)
    (builder : option BuilderInfo) (s s1 : session) (a : OrderAction) (sig : SignatureResult) (body : string)
    (Ha : newCreateOrderAction e [req] builder = inl a)
    (Hsig : sign_action e (ActOrder a) (ex_vault e) (nextNonce (s_lastNonce s) now)
              (mkSession (nextNonce (s_lastNonce s) now) (s_expiresAfter s) (s_sent s)) =
            Ret (mkSession (nextNonce (s_lastNonce s) now) (s_expiresAfter s) (s_sent s), inl sig))
    (Hpost : Exchange_postAction e (ActOrder a) sig (nextNonce (s_lastNonce s) now)
               (mkSession (nextNonce (s_lastNonce s) now) (s_expiresAfter s) (s_sent s)) =
             Ret (s1, inl body))
    (Hbody : json_parse body = inl VNull) :
  Exchange_Order e now req builder s = Panic.
Proof.
  unfold Exchange_Order.
  assert (Exchange_executeAction (A := option (APIResponse OrderResponse)) e now (ActOrder a) s =
          Ret (s1, inl None)) as E.
  { unfold Exchange_executeAction. erewrite api_bind_ret by reflexivity.
    unfold send_action. rewrite (api_bind_ret _ _ _ _ _ Hsig), (api_bind_ret _ _ _ _ _ Hpost).
    unfold json_Unmarshal. by rewrite Hbody. }
  assert (Exchange_BulkOrders e now [req] builder s = Ret (s1, inl (None, None))) as Eb.
  { unfold Exchange_BulkOrders. rewrite Ha. unfold mbind, api_bind, attempt, mbind, outcome_bind.
    by rewrite E. }
  by rewrite (api_bind_ret _ _ _ _ _ Eb).
Qed.
End results.

(** ** Witnesses *)

(** A server with one answer to everything. *)
Definition answering (body : string) : Http := {| http_Do := fun _ _ => HttpResponse 200 body |}.

Definition sample_request : CreateOrderRequest :=
  market_request "ETH" true (GoDecimal.decimal_float false 5 1) (GoDecimal.decimal_float false 1800 0) false None.

Definition run_order (body : string) : outcome (session * (OrderStatus + string)) :=
  @Exchange_Order (answering body) answer_json reference_fastjson reference_lexer reference_msgpack
    no_crypto reference_castE sample_exchange sample_now sample_request None new_session.

Definition ordered : session :=
  match run_order "filled" with Ret (s, _) => s | Panic => new_session end.
Definition ordered_status : OrderStatus :=
  mkOrderStatus None (Some (mkOrderStatusFilled "0.5" "1800" 77)) None.

Lemma ordered_run : run_order "filled" = Ret (ordered, inl ordered_status).
Proof. vm_compute. reflexivity. Qed.

Lemma Order_places_witness :
  exists price size answer,
    @floatToWire reference_castE (order_Price sample_request) = inl price /\
    @floatToWire reference_castE (order_Size sample_request) = inl size /\
    ar_Status answer = "ok" /\ head (or_Statuses (ar_Data answer)) = Some ordered_status.
Proof.
  destruct (@Order_places (answering "filled") answer_json reference_fastjson reference_lexer
    reference_msgpack no_crypto reference_castE sample_exchange sample_now sample_request None
    new_session ordered (inl ordered_status) ordered_run) as [Hplaced _].
  destruct (Hplaced ordered_status eq_refl) as (price & size & answer & Ep & Ez & _ & _ & Eok & _ & Est).
  exact (ex_intro _ price (ex_intro _ size (ex_intro _ answer (conj Ep (conj Ez (conj Eok Est)))))).
Defined.

Definition run_cancel (body : string) :=
  @Exchange_BulkCancel (answering body) answer_json reference_fastjson reference_lexer reference_msgpack
    no_crypto sample_exchange sample_now [mkCancelOrderRequest "BTC" 77] new_session.

Definition cancelled : session :=
  match run_cancel "cancelled" with Ret (s, _) => s | Panic => new_session end.
Definition cancelled_answer : option (APIResponse CancelOrderResponse) :=
  Some (mkAPIResponse "ok" (mkCancelOrderResponse [VString "success"]) "cancel" EmptyString true).

Lemma cancelled_run : run_cancel "cancelled" = Ret (cancelled, inl (cancelled_answer, None)).
Proof. vm_compute. reflexivity. Qed.

Lemma BulkCancel_succeeds_witness : exists r, cancelled_answer = Some r /\ ar_Ok r = true.
Proof.
  destruct (@BulkCancel_succeeds (answering "cancelled") answer_json reference_fastjson reference_lexer
    reference_msgpack no_crypto sample_exchange sample_now [mkCancelOrderRequest "BTC" 77]
    new_session cancelled cancelled_answer cancelled_run) as [(r & E & Hok & _) _].
  exact (ex_intro _ r (conj E Hok)).
Defined.

(** The order of the null answer, its signature and the session after it. *)
Definition sample_order_action : OrderAction :=
  match @newCreateOrderAction reference_castE sample_exchange [sample_request] None with
  | inl a => a | inr _ => mkOrderAction EmptyString [] EmptyString None end.
Definition session_with_nonce : session := mkSession (nextNonce 0 sample_now) None [].
Definition sample_signature : SignatureResult :=
  match @sign_action reference_msgpack no_crypto sample_exchange
          (ActOrder sample_order_action) EmptyString (nextNonce 0 sample_now) session_with_nonce with
  | Ret (_, inl sig) => sig | _ => mkSignatureResult EmptyString EmptyString 0 end.
Definition null_answered : session :=
  match @Exchange_postAction (answering "null") answer_json reference_lexer sample_exchange
          (ActOrder sample_order_action) sample_signature (nextNonce 0 sample_now) session_with_nonce with
  | Ret (s, _) => s | Panic => new_session end.

Lemma Order_null_panics_witness : run_order "null" = Panic.
Proof.
  refine (@Order_null_panics (answering "null") answer_json reference_fastjson reference_lexer
    reference_msgpack no_crypto reference_castE sample_exchange sample_now sample_request None
    new_session null_answered sample_order_action sample_signature "null" _ _ _ _);
    vm_compute; reflexivity.
Defined.
