(* ===== verification/SdkAccount.v ===== *)
(** * pkg/go-hyperliquid/exchange_others.go

    The account actions: each takes a nonce, signs its action for the
    exchange's vault or for none, posts it and decodes the response.  The
    methods whose signature names no vault post the exchange's vault all the
    same ([unsigned_vault_is_posted]). *)

From Stdlib Require Import ZArith Lia Ascii.
From stdpp Require Import gmap strings list pretty sorting.
From S2P Require Import Prelude Float64 GoFmt Models SdkTypes SdkWire SdkClient EasyJson TypesCodecs SdkDecoders SdkInfo SdkSigning SdkActions SdkExchange.
Local Open Scope Z_scope.

(** [crypto/rand], and go-ethereum's keys: a private key from its hex digits
    and the address of a private key. *)
Class AgentKeys := {
  rand_Read : nat -> bytes + string;
  HexToECDSA : string -> Z + string;
  PubkeyToAddress_Hex : Z -> string;
}.

(** [hex.EncodeToString]. *)
Fixpoint hex_EncodeToString (b : bytes) : string :=
  match b with
  | [] => EmptyString
  | x :: b =>
      String (hex_digit (Z.to_nat (x / 16))) (String (hex_digit (Z.to_nat (x mod 16))) (hex_EncodeToString b))
  end.

Section account.
Context `{Http} `{Json} `{Lexer} `{Msgpack} `{Crypto}.
Context (e : Exchange) (now : Z).

(** ** Margin *)

Definition Exchange_UpdateLeverage (leverage : Z) (name : string) (isCross : bool) : api UserState :=
  Exchange_executeAction e now
    (ActUpdateLeverage (mkUpdateLeverageAction "updateLeverage" (NameToAsset (ex_info e) name) isCross leverage)).

Definition Exchange_UpdateIsolatedMargin (amount : float64) (name : string) : api UserState :=
  Exchange_executeAction e now
    (ActUpdateIsolatedMargin
       (mkUpdateIsolatedMarginAction "updateIsolatedMargin" (NameToAsset (ex_info e) name)
          (fgtb amount f0) (sdk_abs amount))).

Definition Exchange_ScheduleCancel (scheduleTime : option Z) : api ScheduleCancelResponse :=
  perform e now (ex_vault e) (fun _ => ActScheduleCancel (mkScheduleCancelAction "scheduleCancel" scheduleTime)).

(** ** Accounts, transfers and vaults *)

Definition Exchange_SetReferrer (code : string) : api SetReferrerResponse :=
  perform e now EmptyString (fun _ => ActSetReferrer (mkSetReferrerAction "setReferrer" code)).

Definition Exchange_CreateSubAccount (name : string) : api CreateSubAccountResponse :=
  perform e now EmptyString (fun _ => ActCreateSubAccount (mkCreateSubAccountAction "createSubAccount" name)).

Definition Exchange_UsdClassTransfer (amount : float64) (toPerp : bool) : api TransferResponse :=
  perform e now (ex_vault e) (fun nonce =>
    let strAmount := formatFloat amount in
    let strAmount := if decide (ex_vault e <> EmptyString)
                     then strAmount +:+ " subaccount:" +:+ ex_vault e else strAmount in
    ActUsdClassTransfer (mkUsdClassTransferAction "usdClassTransfer" strAmount toPerp nonce)).

Definition Exchange_SubAccountTransfer (subAccountUser : string) (isDeposit : bool) (usd : Z)
    : api TransferResponse :=
  perform e now EmptyString (fun _ =>
    ActSubAccountTransfer (mkSubAccountTransferAction "subAccountTransfer" subAccountUser isDeposit usd)).

Definition Exchange_VaultUsdTransfer (vaultAddress : string) (isDeposit : bool) (usd : Z)
    : api TransferResponse :=
  perform e now EmptyString (fun _ =>
    ActVaultUsdTransfer (mkVaultUsdTransferAction "vaultTransfer" vaultAddress isDeposit usd)).

Definition Exchange_CreateVault (name description : string) (initialUsd : Z) : api CreateVaultResponse :=
  perform e now EmptyString (fun _ =>
    ActCreateVault (mkCreateVaultAction "createVault" name description initialUsd)).

Definition Exchange_VaultModify (vaultAddress : string) (allowDeposits alwaysCloseOnWithdraw : bool)
    : api TransferResponse :=
  perform e now EmptyString (fun _ =>
    ActVaultModify (mkVaultModifyAction "vaultModify" vaultAddress allowDeposits alwaysCloseOnWithdraw)).

Definition Exchange_VaultDistribute (vaultAddress : string) (usd : Z) : api TransferResponse :=
  perform e now EmptyString (fun _ =>
    ActVaultDistribute (mkVaultDistributeAction "vaultDistribute" vaultAddress usd)).

Definition Exchange_UsdTransfer (amount : float64) (destination : string) : api TransferResponse :=
  perform e now (ex_vault e) (fun nonce =>
    ActUsdTransfer (mkUsdTransferAction "usdSend" destination (formatFloat amount) nonce)).

Definition Exchange_SpotTransfer (amount : float64) (destination token : string) : api TransferResponse :=
  perform e now (ex_vault e) (fun nonce =>
    ActSpotTransfer (mkSpotTransferAction "spotSend" destination (formatFloat amount) token nonce)).

Definition Exchange_UseBigBlocks (enable : bool) : api ApprovalResponse :=
  perform e now EmptyString (fun _ => ActUseBigBlocks (mkUseBigBlocksAction "evmUserModify" enable)).

Definition Exchange_PerpDexClassTransfer (dex token : string) (amount : float64) (toPerp : bool)
    : api TransferResponse :=
  perform e now (ex_vault e) (fun _ =>
    ActPerpDexClassTransfer (mkPerpDexClassTransferAction "perpDexClassTransfer" dex token amount toPerp)).

Definition Exchange_SubAccountSpotTransfer (subAccountUser : string) (isDeposit : bool) (token : string)
    (amount : float64) : api TransferResponse :=
  perform e now (ex_vault e) (fun _ =>
    ActSubAccountSpotTransfer
      (mkSubAccountSpotTransferAction "subAccountSpotTransfer" subAccountUser isDeposit token amount)).

Definition Exchange_TokenDelegate (validator : string) (wei : Z) (isUndelegate : bool)
    : api TransferResponse :=
  perform e now (ex_vault e) (fun nonce =>
    ActTokenDelegate (mkTokenDelegateAction "tokenDelegate" validator wei isUndelegate nonce)).

Definition Exchange_WithdrawFromBridge (amount : float64) (destination : string) : api TransferResponse :=
  perform e now (ex_vault e) (fun nonce =>
    ActWithdrawFromBridge (mkWithdrawFromBridgeAction "withdraw3" destination (format_f 6 amount) nonce)).

(** ** Approvals and multi-signature users *)

(** The response and the agent's private key; the nonce is taken after the
    key is made. *)
Definition Exchange_ApproveAgent `{AgentKeys} (name : option string) : api (AgentApprovalResponse * string) :=
  agentBytes ← wrap "failed to generate agent key: " (lift (rand_Read 32));
  let agentKey := "0x" +:+ hex_EncodeToString agentBytes in
  privateKey ← wrap "failed to create private key: " (lift (HexToECDSA (hex_EncodeToString agentBytes)));
  let agentAddress := PubkeyToAddress_Hex privateKey in
  result ← perform e now (ex_vault e) (fun nonce =>
    ActApproveAgent (mkApproveAgentAction "approveAgent" agentAddress name nonce));
  ok (result, agentKey).

Definition Exchange_ApproveBuilderFee (builder maxFeeRate : string) : api ApprovalResponse :=
  perform e now (ex_vault e) (fun nonce =>
    ActApproveBuilderFee (mkApproveBuilderFeeAction "approveBuilderFee" builder maxFeeRate nonce)).

(** [sort.Strings]. *)
Definition sort_strings (l : list string) : list string :=
  merge_sort (fun x y => Is_true (String.leb x y)) l.

Definition signers_json (authorizedUsers : list string) (threshold : Z) : string :=
  json_Marshal (go_map [("authorizedUsers", VArray (map VString authorizedUsers)); ("threshold", VInt threshold)]).

(** The caller's slice is sorted in place: its new contents come with the
    response. *)
Definition Exchange_ConvertToMultiSigUser (authorizedUsers : list string) (threshold : Z)
    : api (list string * (MultiSigConversionResponse + string)) := fun s =>
  let sorted := sort_strings authorizedUsers in
  r ← perform e now (ex_vault e) (fun nonce =>
        ActConvertToMultiSigUser
          (mkConvertToMultiSigUserAction "convertToMultiSigUser" (signers_json sorted threshold) nonce)) s;
  Ret (r.1, inl (sorted, r.2)).

Definition Exchange_MultiSig (a : list (string * value)) (signers signatures : option (list string))
    : api MultiSigResponse :=
  perform e now (ex_vault e) (fun _ =>
    plain_map [("type", VString "multiSig"); ("action", go_map a); ("signers", strings_value signers);
               ("signatures", strings_value signatures)]).

(** ** Spot deployment *)

Definition spot_action (vault : string) (m : list (string * value)) : api SpotDeployResponse :=
  perform e now vault (fun _ => plain_map m).

Definition Exchange_SpotDeployRegisterToken (tokenName : string) (szDecimals weiDecimals maxGas : Z)
    (fullName : string) : api SpotDeployResponse :=
  spot_action EmptyString
    [("type", VString "spotDeploy");
     ("registerToken2", go_map
        [("spec", go_map [("name", VString tokenName); ("szDecimals", VInt szDecimals);
                          ("weiDecimals", VInt weiDecimals)]);
         ("maxGas", VInt maxGas); ("fullName", VString fullName)])].

(** A [map[string]float64] is not among the maps whose keys the msgpack
    encoder sorts: it is signed in the order it is ranged over. *)
Definition Exchange_SpotDeployUserGenesis `{MapRange} (balances : gmap string float64)
    : api SpotDeployResponse :=
  perform e now (ex_vault e) (fun _ =>
    ActMap [("type", VString "spotDeployUserGenesis");
            ("balances", go_map ((fun b => (b.1, VFloat b.2)) <$> map_to_list balances))]
           [("type", VString "spotDeployUserGenesis");
            ("balances", VMap ((fun b => (b.1, VFloat b.2)) <$> go_range balances))]).

Definition Exchange_SpotDeployEnableFreezePrivilege : api SpotDeployResponse :=
  spot_action (ex_vault e) [("type", VString "spotDeployEnableFreezePrivilege")].

Definition Exchange_SpotDeployFreezeUser (userAddress : string) : api SpotDeployResponse :=
  spot_action (ex_vault e) [("type", VString "spotDeployFreezeUser"); ("userAddress", VString userAddress)].

Definition Exchange_SpotDeployRevokeFreezePrivilege : api SpotDeployResponse :=
  spot_action (ex_vault e) [("type", VString "spotDeployRevokeFreezePrivilege")].

Definition Exchange_SpotDeployGenesis (deployer dexName : string) : api SpotDeployResponse :=
  spot_action (ex_vault e)
    [("type", VString "spotDeployGenesis"); ("deployer", VString deployer); ("dexName", VString dexName)].

Definition Exchange_SpotDeployRegisterSpot (baseToken quoteToken : string) : api SpotDeployResponse :=
  spot_action (ex_vault e)
    [("type", VString "spotDeployRegisterSpot"); ("baseToken", VString baseToken);
     ("quoteToken", VString quoteToken)].

Definition Exchange_SpotDeployRegisterHyperliquidity (name : string) (tokens : option (list string))
    : api SpotDeployResponse :=
  spot_action (ex_vault e)
    [("type", VString "spotDeployRegisterHyperliquidity"); ("name", VString name);
     ("tokens", strings_value tokens)].

Definition Exchange_SpotDeploySetDeployerTradingFeeShare (feeShare : float64) : api SpotDeployResponse :=
  spot_action (ex_vault e)
    [("type", VString "spotDeploySetDeployerTradingFeeShare"); ("feeShare", VFloat feeShare)].

(** ** Perpetual deployment *)

(** [PerpDexSchemaInput] has JSON tags only: its msgpack keys are the names of
    its fields. *)
Definition pack_PerpDexSchemaInput (x : PerpDexSchemaInput) : value :=
  VStruct [("FullName", VString (schema_FullName x)); ("CollateralToken", VInt (schema_CollateralToken x));
           ("OracleUpdater", pack_ptr VString (schema_OracleUpdater x))].

Lemma schema_keys_differ (x : PerpDexSchemaInput) :
  json_of (pack_PerpDexSchemaInput x) <> c_enc codec_PerpDexSchemaInput x.
Proof. discriminate. Qed.

Definition Exchange_PerpDeployRegisterAsset (asset : string) (perpDexInput : PerpDexSchemaInput)
    : api PerpDeployResponse :=
  let entries (input : value) :=
    [("type", VString "perpDeployRegisterAsset"); ("asset", VString asset); ("perpDexInput", input)] in
  perform e now (ex_vault e) (fun _ =>
    ActMap (entries (c_enc codec_PerpDexSchemaInput perpDexInput))
           (entries (pack_PerpDexSchemaInput perpDexInput))).

Definition Exchange_PerpDeploySetOracle (asset oracleAddress : string) : api SpotDeployResponse :=
  spot_action (ex_vault e)
    [("type", VString "perpDeploySetOracle"); ("asset", VString asset);
     ("oracleAddress", VString oracleAddress)].

(** ** Validators *)

Definition validator_action (m : list (string * value)) : api ValidatorResponse :=
  perform e now (ex_vault e) (fun _ => plain_map m).

Definition Exchange_CSignerUnjailSelf : api ValidatorResponse :=
  validator_action [("type", VString "cSignerUnjailSelf")].

Definition Exchange_CSignerJailSelf : api ValidatorResponse :=
  validator_action [("type", VString "cSignerJailSelf")].

Definition Exchange_CSignerInner (innerAction : list (string * value)) : api ValidatorResponse :=
  validator_action [("type", VString "cSignerInner"); ("innerAction", go_map innerAction)].

Definition Exchange_CValidatorRegister (validatorProfile : list (string * value)) : api ValidatorResponse :=
  validator_action [("type", VString "cValidatorRegister"); ("validatorProfile", go_map validatorProfile)].

Definition Exchange_CValidatorChangeProfile (newProfile : list (string * value)) : api ValidatorResponse :=
  validator_action [("type", VString "cValidatorChangeProfile"); ("newProfile", go_map newProfile)].

Definition Exchange_CValidatorUnregister : api ValidatorResponse :=
  validator_action [("type", VString "cValidatorUnregister")].
End account.

(** ** Whose action it is *)
Section vaults.
Context `{Http} `{Json} `{Lexer} `{Msgpack} `{Crypto}.
Context (e : Exchange) (now : Z).

(** The vault a posted request names. *)
Definition request_vault (r : request) : option value :=
  match req_body r with VMap es => map_get "vaultAddress" es | _ => None end.

Lemma action_payload_vault a sig nonce expiresAfter url :
  ex_vault e <> EmptyString ->
  request_vault (mkRequest url (go_map (action_payload e a sig nonce expiresAfter))) =
    Some (vault_value e a).
Proof.
  intros Hv. unfold request_vault.
  destruct (action_payload_lookup e a sig nonce expiresAfter) as (es & E & Hin & _).
  cbn [req_body]. rewrite E. apply Hin. unfold action_payload. rewrite decide_True by done.
  simpl. set_solver.
Qed.

(** Signing for no vault does not keep the vault out of the request: when
    the exchange has a vault, an action that is a struct and is signed without
    one ([SetReferrer], [CreateSubAccount], [SubAccountTransfer],
    [VaultUsdTransfer], [CreateVault], [VaultModify], [VaultDistribute],
    [UseBigBlocks]) is posted with [vaultAddress] set to the exchange's vault,
    which the signature does not cover. *)
Theorem unsigned_vault_is_posted {A} `{Decoder A} (mk : Z -> action) (s s' : session) (x : A)
    (Hvault : ex_vault e <> EmptyString)
    (Hstruct : forall nonce json packed, mk nonce <> ActMap json packed)
    (Hrun : perform e now EmptyString mk s = Ret (s', inl x)) :
  exists req sig nonce,
    s_sent s' = s_sent s ++ [req] /\
    request_vault req = Some (VString (ex_vault e)) /\
    SignL1Action (ex_privateKey e) (action_pack (mk nonce)) EmptyString nonce (s_expiresAfter s)
      (ex_isMainnet e) = Ret (inl sig) /\
    req = mkRequest (ex_client e +:+ "/exchange")
            (go_map (action_payload e (mk nonce) sig nonce (s_expiresAfter s))).
Proof.
  destruct (perform_sent e now EmptyString mk s s' (inl x) Hrun) as (_ & _ & [[_ [err ?]]|(sig & Es & E)]);
    [done|].
  eexists _, sig, _. split_and!; [exact E| |exact Es|done].
  rewrite action_payload_vault by done. f_equal. unfold vault_value.
  destruct (mk _) eqn:Em; try done. by apply Hstruct in Em.
Qed.
End vaults.

Definition vault_exchange : Exchange :=
  mkExchange true MainnetAPIURL 7 sample_vault EmptyString sample_info.

Definition referrer_http : Http := {| http_Do := fun _ _ => HttpResponse 200 "null" |}.

Definition referred : session :=
  match @Exchange_SetReferrer referrer_http null_json reference_lexer reference_msgpack no_crypto
          vault_exchange sample_now "CODE" new_session with
  | Ret (s, _) => s | Panic => new_session end.

Lemma referred_run :
  @Exchange_SetReferrer referrer_http null_json reference_lexer reference_msgpack no_crypto
    vault_exchange sample_now "CODE" new_session =
  Ret (referred, inl (mkSetReferrerResponse EmptyString EmptyString)).
Proof. vm_compute. reflexivity. Qed.

Lemma unsigned_vault_is_posted_witness :
  exists req, s_sent referred = [req] /\ request_vault req = Some (VString sample_vault).
Proof.
  destruct (@unsigned_vault_is_posted referrer_http null_json reference_lexer reference_msgpack no_crypto
    vault_exchange sample_now SetReferrerResponse
    (@decoder_struct SetReferrerResponse (@go_SetReferrerResponse reference_lexer))
    (fun _ => ActSetReferrer (mkSetReferrerAction "setReferrer" "CODE"))
    new_session referred (mkSetReferrerResponse EmptyString EmptyString))
    as (req & sig & nonce & E & Ev & _).
  - intros E. discriminate E.
  - intros nonce json packed E. discriminate E.
  - exact referred_run.
  - exact (ex_intro _ req (conj E Ev)).
Defined.
